(* ===== verification/_CoqProject ===== *)
-Q . S2P
Prelude.v
Ring.v
Wire.v
Kernel.v
Ntc.v
Wr.v
Mem.v
Zip.v
Vec.v
Vbell.v
Res.v
MrCmd.v
CmdRing.v
Mm.v
Buf.v
Hello.v
Qp.v
QpRun.v
QpPoll.v
QpChan.v
QpType.v
Cq.v
CqPoll.v
CqNote.v
Post.v
PostSpec.v
QpCmd.v
QpSetup.v
Win.v
Link.v
LinkNet.v
LinkHello.v
LinkInit.v
Cm.v
CmSafe.v
CmNet.v
CmMsg.v
Eth.v
EthMem.v
EthSide.v
EthSend.v
EthNet.v
EthInit.v
Verbs.v
VerbsRef.v
VerbsApp.v
