(* ===== verification/Prelude.v ===== *)
(** * NTRDMA: a verification library for the NTRDMA driver

    NTRDMA is an RDMA device in software: two hosts are joined by a PCIe
    non-transparent bridge, each can write into a window of the other's memory,
    and nothing can be read.  So every protocol of the driver is built from
    one-sided writes: a buffer is exported by a descriptor, data is written by
    the DMA engine, an index or a sequence number is written after it, and an
    interrupt tells the peer to look.

    Paths below are under src/drivers/infiniband/hw/ntrdma unless they start
    with ntc (src/include/linux for headers, src/drivers/ntc for .c files).

    ** The parts, from the bottom up

    - [Prelude], [Kernel]: machine integers with their wrap-around, shared
      lemmas and tactics; the outcomes of kernel calls (allocation, mapping, the
      DMA engine) as a class: an arbitrary answer for every moment.
    - [Ring] (ntrdma_ring.h): producer and consumer indices modulo twice the
      capacity.  [Wire]: what it means for a consumer's copy of a ring to be
      right when the producer writes runs of entries and then its index; used
      for all rings that cross the link.
    - [Ntc] (ntc.h, part of ntc_ntb_msi.c): channel addresses, descriptors of
      buffers, their translation to peer addresses, requests to the DMA engine.
      [Mm] (ntc_mm.h): the allocator of exported memory, with its free lists
      inside that memory.  [Buf] (ntc.h): local and export buffers on top of it.
    - [Wr] (ntrdma_wr.h, ntrdma_sg.h, ntrdma_ioctl.h, ntrdma_cmd.h): entries,
      codes, and sizes on the wire.
    - [Mem] (ntrdma_mr.h): memory regions, and the interface [MemStore] with its
      laws [MemStoreOk] through which data is moved.  [Zip] (ntrdma_zip.c): the
      cursors over a gather list and a scatter list; its theorems are proved
      against the interface, which [Res] implements.
    - [Vec] (ntrdma_util.[ch]): tables of resources by key.  [Res]
      (ntrdma_res.[ch], ntrdma_obj.h): reference counts, local and remote
      resources.  [MrCmd] (ntrdma_mr.c, ntrdma_cmd.c): announcing a memory
      region to the peer, both ends.
    - [Vbell] (ntrdma_vbell.[ch], ntrdma_dev.h): virtual doorbells.
    - [CmdRing] (ntrdma_cmd.c): the command channel, over an interface of
      commands and handlers.  [Hello] (ntrdma_hello.c, ntrdma_cmd.c): the
      exchange that sets it up when the link comes up.
    - [Qp] (ntrdma_qp.[ch]): queue pairs and their images on the peer.  Lemmas in
      [QpRun] (the work functions) and [QpPoll] (polling, posting, abort);
      [QpChan]: two connected queue pairs as a transition system; [QpType]: the
      types of the rings and the termination of the work.
    - [Cq] (ntrdma_cq.[ch], the polling calls of ntrdma_ib.c): completion queues
      over the interface [Poll] of a polled ring; [CqPoll]: its laws [PollOk],
      polling, and the queue pairs as an instance; [CqNote]: notifications, the
      functions of [Cq] and [Vbell] interleaved.
    - [Post] (ntrdma_ib.c): the calls that post sends and receives and change the
      state of a queue pair; [PostSpec]: what posting does.
    - [QpCmd] (ntrdma_qp.c, ntrdma_cmd.c): creating and deleting queue pairs, and
      the commands that announce, follow and remove them, on both sides;
      [QpSetup]: that the exchange establishes the start of [QpChan].
    - [Verbs] (ntrdma_ib.c, ntrdma_ib.h, ntrdma_ib_4_19.h, ntrdma_res.c): the verbs
      that create and destroy, with the files, pages and pinned memory of the
      application, on top of [QpCmd], [MrCmd] and [Res]; the tables of a device, and
      all its resources when the link comes up and goes down.  [VerbsRef]: what
      every call does to the references of the objects; [VerbsApp]: an application
      that uses them in any order.
    - [Win] (ntc_ntb_msi.c): the memory windows and their translation on the
      bridge.  [Link] (ntc_ntb_msi.c): the state machine of the link, with its
      pings, versions, addresses and interrupts, over the interface [NtcClient]
      of the driver above.  [LinkNet]: two sides as one system.  [LinkHello]
      (ntrdma_dev.c): the driver as the client, over the rings of [CmdRing] and
      the exchange of [Hello].  [LinkInit] (ntc_ntb_msi.c): parameters, DMA
      channels, setting a device up and taking it down.
    - [Cm] (ntrdma_cm.[ch]): the iWARP connection manager: listeners, connect,
      accept, reject, the messages and the events.  What it uses of the queue
      pairs is the class [CmLower].  [CmSafe]: one device as a transition system;
      [CmNet]: two devices, whose commands are lost or answered late at will;
      [CmMsg]: what the messages carry.
    - [Eth] (ntrdma_eth.[ch], ntrdma_hello.h): the Ethernet device, as it is built
      with NTRDMA_FULL_ETH: the rings of both directions, set-up with the peer,
      bringing it up and taking it down.  [EthMem]: the exported memory of a host
      and the descriptors of its parts; [EthSide] and [EthSend]: what the calls of
      the receiving and the sending side do; [EthNet]: two hosts as one system;
      [EthInit]: the set-up, and that it establishes the start of [EthNet].

    ** How the model corresponds to the code

    A structure is a record with the members that carry state; a function of the
    driver is a definition of the same name, and a loop, or a long body, is split
    into definitions whose names say which part they are.  State is passed
    explicitly.  A function holds its lock from beginning to end, so it is one
    step of the transition systems; those interleave such steps freely, with the
    deliveries of the link.  Logging, statistics, trace points and lock calls are
    omitted.  [None] stands for what the code must not do: an access outside an
    array, a BUG, or an undefined operation; that it is not reached is part of
    the theorems.  Pointers are names of objects in a heap; virtual addresses of
    buffers are numbers.  A copy that is requested carries the contents at the
    time of the request.  The build is the default one, without
    CONFIG_NTRDMA_RETRY_RECV and, but for the files of the Ethernet device, without
    NTRDMA_FULL_ETH.

    Loops that are not structural carry fuel, and it is enough: the loop of
    [ntrdma_qp_recv_work] makes at most two passes (lemma
    [recv_work_terminates]), the loops over a range are bounded by its length,
    the cursors of [Zip] by the entries and bytes of the lists (C7, C8), polling
    by the room of the polled rings (C38), posting by the number of requests (C40).
    The work item of the link visits at most three cases more than the event it
    found (C12).  Filling the ring of the Ethernet device takes one pass for every
    free slot at most, telling the peer of its used slots and freeing its buffers
    two (C9, C17).

    ** What the theorems show

    - Rings (C1, C2): the index arithmetic implements a bounded queue and stays in
      32 bits.  Channel (C5, C6): a descriptor reaches the buffer it describes, a
      request asks for the copy or leaves all counters as they were.
    - Link (C4, C12, C16, C28): whatever restarts, timeouts and failures came
      before, both drivers are in one session when the two sides are in their
      hello or up; a run of the state machine ends; a peer that falls silent is
      given up and the side starts again; when both links are up, both drivers
      run one version and the command channel is in the start that C19-C21
      assume, both ways.  The command rings are idle after every reset.
    - Windows (C23, C25, C31): the bridge translates exactly the memory of a
      window, what a side is told of the peer's windows is what the addresses of
      C5 need, and set-up and tear-down of a device balance.
    - Data movement (C7, C8, and the lemma [zip_memcpy_writes_in_segments]): what is
      copied is the bytes of the gather list onto the bytes of the scatter list, in
      order, exactly; references are given back.
    - Resources (the lemmas of [Vec] and [Res]): fresh keys, updates of tables,
      reference counts.  Memory regions (C18): what the peer holds at the end of the
      announcement is the region.
    - Doorbells (C13, C15): consistent lists; no ring between clearing and arming
      is lost.
    - Command channel (C19-C21): commands are executed once and in order, the
      response reaches its callback, nothing faults.
    - Buffers (C24, C26): disjoint chunks; the allocation of buffers gives
      well-formed descriptors, and balances (lemma [buf_alloc_free_balanced]).
    - Set-up (C29): both sides choose one version.
    - Queue pairs (C3, C22): two queue pairs that were created and announced to
      each other start the channels that C32-C36 assume, and agree on the memory;
      one that is refused leaves nothing behind but, in one case, a mapping.
    - Their channels (C32-C36): in every interleaving the n-th send meets the n-th
      receive on both sides; completions come in posting order; both sides agree
      on keys; a stalled queue pair flushes every send; all operations keep the
      rings well typed.
    - Completion queues and posting (C38-C40): polling reports the completions of
      every ring in order and stops with nothing left; no completion goes
      unnoticed; posting takes requests in order and says where it stopped.
    - Objects of the verbs (C27): references are holders, whatever order calls,
      closed files, copies and release works come in; nothing is left when the last
      holder is gone.
    - Connections (C10, C11, C14, C30, C37): every identifier hears its events in
      order, and at most one answer to a connect call; nothing the peer sends
      makes the driver fault; every connection that is answered with success was
      requested and accepted; a reset answers or closes every connection; the
      messages carry ports, addresses and private data across.
    - Ethernet (C9, C17): two devices that answered each other's hello hand every
      frame that finds a slot to the stack of the peer, in order, once and with its
      bytes, unless memory is short there or the frame is longer than the buffer;
      nothing faults, and a reset leaves each ready for the next hello.  Bringing a
      device up, its hello and its reset give back what they do not keep.

    The system of two Ethernet devices assumes that both hosts run the same kernel
    (one set of sizes), that the mapping of a physical address is a function of the
    address alone ([bus]), that the writes of a host arrive in the order they were
    requested, and that the devices have no unrecoverable error: after one the
    link is reset.  [short] says that memory may be short, [lmin] is the least
    length of a buffer that was offered.

    The system of a connection manager assumes what the kernel's manager keeps: an
    identifier is used for one purpose, once; a queue pair that is given to a call
    is not in use by another; handlers are there and do not call back; and that
    the private data is there and fits, which the driver checks in part only.

    ** What is not modelled

    The system of two links takes a run of the work item as one step; what it
    writes reaches the peer in order and before the next step, so a peer that is
    reset in the middle of a run is not covered; nor is what the driver does by
    itself once it is enabled.  The Ethernet device and the enabling of resources
    are an interface of [LinkHello].  Of the Ethernet device the registration of its
    doorbell, its MAC address and its counters are left out.  CMADEVS memory is a
    flag.  In [VerbsApp] each call is one step, and [fput] releases a file at once
    (the kernel may do it later).  The initialisation of the driver, the queries of
    fixed attributes, address handles, the registration with the kernel's verbs,
    the calls on user files and debugfs are glue over kernel interfaces.  The effects of a DMA engine on memory
    are the requests in its log; the frames of the Ethernet device are written to
    the memory of the peer. *)

From Stdlib Require Import ZArith Lia.
From stdpp Require Export base numbers list option.

#[global] Open Scope Z_scope.

(** ** Machine integers

    The driver computes on C's fixed width integers.  A value of an
    unsigned type is a [Z] in range; the operations that may leave the range
    are wrapped explicitly with [u16], [u32], [u64], and a conversion to a
    signed type with [s32], [s64] (two's complement, as the kernel is built
    with -fwrapv). *)

Definition u16 (z : Z) : Z := z mod 2 ^ 16.
Definition u32 (z : Z) : Z := z mod 2 ^ 32.
Definition u64 (z : Z) : Z := z mod 2 ^ 64.

Definition s32 (z : Z) : Z :=
  let r := u32 z in if r <? 2 ^ 31 then r else r - 2 ^ 32.

Definition s64 (z : Z) : Z :=
  let r := u64 z in if r <? 2 ^ 63 then r else r - 2 ^ 64.

Definition is_u32 (z : Z) : Prop := 0 <= z < 2 ^ 32.
Definition is_u64 (z : Z) : Prop := 0 <= z < 2 ^ 64.

(** ** Error numbers (asm-generic/errno-base.h), returned negated. *)

Definition EIO : Z := 5.
Definition EAGAIN : Z := 11.
Definition ENOMEM : Z := 12.
Definition EFAULT : Z := 14.
Definition ENODEV : Z := 19.
Definition EINVAL : Z := 22.
Definition ETIME : Z := 62.

(** ** Width lemmas *)

Lemma pow2_16 : 2 ^ 16 = 65536. Proof. reflexivity. Qed.
Lemma pow2_31 : 2 ^ 31 = 2147483648. Proof. reflexivity. Qed.
Lemma pow2_32 : 2 ^ 32 = 4294967296. Proof. reflexivity. Qed.
Lemma pow2_63 : 2 ^ 63 = 9223372036854775808. Proof. reflexivity. Qed.
Lemma pow2_64 : 2 ^ 64 = 18446744073709551616. Proof. reflexivity. Qed.

(** [lia] on goals and hypotheses that mention the width constants. *)
Ltac wsolve :=
  unfold is_u32, is_u64 in *;
  rewrite ?pow2_16, ?pow2_31, ?pow2_32, ?pow2_63, ?pow2_64 in *; lia.

Lemma u32_range z : is_u32 (u32 z).
Proof. unfold is_u32, u32. apply Z.mod_pos_bound. lia. Qed.

Lemma u64_range z : is_u64 (u64 z).
Proof. unfold is_u64, u64. apply Z.mod_pos_bound. lia. Qed.

Lemma u16_small z : 0 <= z < 2 ^ 16 → u16 z = z.
Proof. intros. by apply Z.mod_small. Qed.

Lemma u32_small z : 0 <= z < 2 ^ 32 → u32 z = z.
Proof. intros. by apply Z.mod_small. Qed.

Lemma u64_small z : 0 <= z < 2 ^ 64 → u64 z = z.
Proof. intros. by apply Z.mod_small. Qed.

Lemma s32_small z : - 2 ^ 31 <= z < 2 ^ 31 → s32 z = z.
Proof.
  intros Hz. unfold s32, u32. rewrite pow2_31, pow2_32 in *.
  Z.to_euclidean_division_equations.
  destruct (Z.ltb_spec r 2147483648); lia.
Qed.

Lemma s64_small z : - 2 ^ 63 <= z < 2 ^ 63 → s64 z = z.
Proof.
  intros Hz. unfold s64, u64. rewrite pow2_63, pow2_64 in *.
  Z.to_euclidean_division_equations.
  destruct (Z.ltb_spec r 9223372036854775808); lia.
Qed.

Create HintDb width.
#[export] Hint Resolve u32_range u64_range : width.

(** Remove the wrap-arounds whose argument is in range, innermost first. *)
Ltac wstep :=
  match goal with
  | |- context [u16 ?x] => rewrite (u16_small x) by wsolve
  | |- context [u32 ?x] => rewrite (u32_small x) by wsolve
  | |- context [u64 ?x] => rewrite (u64_small x) by wsolve
  | |- context [s32 ?x] => rewrite (s32_small x) by wsolve
  | |- context [s64 ?x] => rewrite (s64_small x) by wsolve
  end.

Ltac wstep_in H :=
  match type of H with
  | context [u16 ?x] => rewrite (u16_small x) in H by wsolve
  | context [u32 ?x] => rewrite (u32_small x) in H by wsolve
  | context [u64 ?x] => rewrite (u64_small x) in H by wsolve
  | context [s32 ?x] => rewrite (s32_small x) in H by wsolve
  | context [s64 ?x] => rewrite (s64_small x) in H by wsolve
  end.

(** Case analysis on the boolean comparisons of a translated condition. *)
Ltac zcase :=
  match goal with
  | |- context [if (?a <? ?b)%Z then _ else _] => destruct (Z.ltb_spec a b)
  | |- context [if (?a <=? ?b)%Z then _ else _] => destruct (Z.leb_spec a b)
  | |- context [if (?a =? ?b)%Z then _ else _] => destruct (Z.eqb_spec a b)
  end.

Ltac zcase_in H :=
  match type of H with
  | context [if (?a <? ?b)%Z then _ else _] => destruct (Z.ltb_spec a b)
  | context [if (?a <=? ?b)%Z then _ else _] => destruct (Z.leb_spec a b)
  | context [if (?a =? ?b)%Z then _ else _] => destruct (Z.eqb_spec a b)
  end.

(** ** Lists *)

Lemma list_filter_all {A} (P : A → Prop) `{∀ x, Decision (P x)} (l : list A) :
  (∀ x, x ∈ l → P x) → filter P l = l.
Proof.
  induction l as [|x l IH]; intros HP; [done|].
  rewrite filter_cons_True by (apply HP; left). f_equal. apply IH.
  intros y Hy. apply HP. by right.
Qed.

Lemma list_filter_iff_in {A} (P Q : A → Prop) `{∀ x, Decision (P x), ∀ x, Decision (Q x)} (l : list A) :
  (∀ x, x ∈ l → P x ↔ Q x) → filter P l = filter Q l.
Proof.
  induction l as [|x l IH]; intros HPQ; [done|]. rewrite !filter_cons.
  rewrite IH by (intros y Hy; apply HPQ; by right).
  specialize (HPQ x ltac:(by left)). by destruct (decide (P x)), (decide (Q x)); try tauto.
Qed.
