(* ===== verification/Ring.v ===== *)
(** * Producer/consumer rings (ntrdma_ring.h)

    A ring of [cap] entries is driven by two indices that run over
    [0 .. 2*cap-1], so that a full ring and an empty ring differ.  The module
    translates the index arithmetic of ntrdma_ring.h, on 32 bit values, and
    relates it to an abstract ring whose indices are unbounded counters of
    entries produced and consumed, and then to a bounded FIFO queue. *)

From S2P Require Import Prelude.

Module Ring.

(** ** The code *)

(** The three output parameters of the range functions. *)
Record range := mk_range { r_idx : Z; r_end : Z; r_base : Z }.

(** The conditions of the two [WARN]s of [ntrdma_ring_produce]. *)
Definition ntrdma_ring_produce_warn (prod cons cap : Z) : bool :=
  ((u32 (2 * cap) <=? prod) || (u32 (2 * cap) <=? cons))
  || ((s32 cap <? s32 (s32 prod - s32 cons))
      || ((s32 (s32 prod - s32 cons) <? 0)
          && (s32 (s32 cons - s32 prod) <? s32 cap))).

Definition ntrdma_ring_produce (prod cons cap : Z) : bool * range :=
  let r :=
    if prod <? cap then
      mk_range prod (if cons <? cap then cap else u32 (cons - cap)) 0
    else
      mk_range (u32 (prod - cap)) (if cons <? cap then cons else cap) cap in
  (negb (r_idx r =? r_end r), r).

Definition ntrdma_ring_consume (prod cons cap : Z) : range :=
  if cons <? cap then
    mk_range cons (if prod <? cap then prod else cap) 0
  else
    mk_range (u32 (cons - cap)) (if prod <? cap then cap else u32 (prod - cap)) cap.

Definition ntrdma_ring_update (idx base cap : Z) : Z :=
  if idx =? cap then u32 (cap - base) else u32 (base + idx).

Definition ntrdma_ring_count (prod cons cap : Z) : Z :=
  let prod := if prod <? cons then u32 (prod + u32 (2 * cap)) else prod in
  u32 (prod - cons).

Definition ntrdma_ring_space (prod cons cap : Z) : Z :=
  let prod := if prod <? cons then u32 (prod + u32 (2 * cap)) else prod in
  u32 (u32 (cap + cons) - prod).

Definition ntrdma_ring_count_ctg (prod cons cap : Z) : Z :=
  let r := ntrdma_ring_consume prod cons cap in u32 (r_end r - r_idx r).

Definition ntrdma_ring_space_ctg (prod cons cap : Z) : Z :=
  let r := snd (ntrdma_ring_produce prod cons cap) in u32 (r_end r - r_idx r).

Definition ntrdma_ring_valid (prod cons cap : Z) : bool :=
  if u32 (2 * cap) <=? prod then false
  else if u32 (2 * cap) <=? cons then false
  else ntrdma_ring_count prod cons cap <=? cap.

(** ** The abstract ring

    [P] entries have been produced and [C] consumed, since the ring was
    created; the ring index of the [n]-th entry is [enc cap n] and its slot in
    the buffer is [slot cap n]. *)

Definition enc (cap n : Z) : Z := n mod (2 * cap).
Definition slot (cap n : Z) : Z := n mod cap.

(** The capacities for which the 32 bit arithmetic is exact: twice the
    capacity is a positive [int]. *)
Definition cap_ok (cap : Z) : Prop := 0 < cap < 2 ^ 30.

Definition counters_ok (cap P C : Z) : Prop := 0 <= C <= P /\ P <= C + cap.

Lemma pow2_30 : 2 ^ 30 = 1073741824. Proof. reflexivity. Qed.

Ltac rsolve :=
  unfold cap_ok, counters_ok in *; rewrite ?pow2_30 in *; wsolve.

(** An index determines the counter up to a number of laps. *)
Lemma enc_lap cap n : 0 < cap → ∃ m, n = 2 * (cap * m) + enc cap n ∧ 0 <= enc cap n < 2 * cap.
Proof.
  intros Hc. exists (n / (2 * cap)). unfold enc.
  pose proof (Z.div_mod n (2 * cap) ltac:(lia)).
  pose proof (Z.mod_pos_bound n (2 * cap) ltac:(lia)). nia.
Qed.

Lemma enc_unique cap n m r :
  0 <= r < 2 * cap → n = 2 * (cap * m) + r → enc cap n = r.
Proof.
  intros Hr ->. unfold enc. symmetry. apply (Z.mod_unique _ _ m); lia.
Qed.

Lemma slot_enc cap n :
  0 < cap → slot cap n = if enc cap n <? cap then enc cap n else enc cap n - cap.
Proof.
  intros Hc. destruct (enc_lap cap n Hc) as (m & Hn & Hr).
  unfold slot. destruct (Z.ltb_spec (enc cap n) cap); symmetry.
  - apply (Z.mod_unique _ _ (2 * m)); lia.
  - apply (Z.mod_unique _ _ (2 * m + 1)); lia.
Qed.

(** The index [k] entries after the counter [n]. *)
Lemma enc_add cap n k :
  0 < cap → 0 <= k <= cap →
  enc cap (n + k) =
    if enc cap n + k <? 2 * cap then enc cap n + k else enc cap n + k - 2 * cap.
Proof.
  intros Hc Hk. destruct (enc_lap cap n Hc) as (m & Hn & Hr).
  destruct (Z.ltb_spec (enc cap n + k) (2 * cap)).
  - apply (enc_unique _ _ m); lia.
  - apply (enc_unique _ _ (m + 1)); lia.
Qed.

Lemma enc_range cap n : 0 < cap → 0 <= enc cap n < 2 * cap.
Proof. intros. apply Z.mod_pos_bound. lia. Qed.

Lemma slot_range cap n : 0 < cap → 0 <= slot cap n < cap.
Proof. intros. apply Z.mod_pos_bound. lia. Qed.

(** The encoded producer in terms of the encoded consumer. *)
Lemma enc_prod cap P C :
  0 < cap → counters_ok cap P C →
  enc cap P =
    if enc cap C + (P - C) <? 2 * cap then enc cap C + (P - C)
    else enc cap C + (P - C) - 2 * cap.
Proof.
  intros Hc HPC. rewrite <- (enc_add cap C (P - C)) by rsolve. f_equal. lia.
Qed.

(** Case analysis used by every lemma below: name the two indices and split
    on which half of the ring each lies in. *)
Ltac ring_cases cap P C :=
  rewrite ?(slot_enc cap P), ?(slot_enc cap C) by rsolve;
  pose proof (enc_range cap P ltac:(rsolve));
  pose proof (enc_range cap C ltac:(rsolve));
  pose proof (enc_prod cap P C ltac:(rsolve) ltac:(assumption)) as HP;
  zcase_in HP;
  generalize dependent (enc cap P); generalize dependent (enc cap C);
  intros; subst; cbn [r_idx r_end r_base fst snd].

Ltac ring_solve :=
  unfold cap_ok, counters_ok in *; rewrite ?pow2_30 in *;
  repeat (first [ wstep | zcase ]; cbn [r_idx r_end r_base fst snd]);
  try rsolve.

Lemma count_enc cap P C :
  cap_ok cap → counters_ok cap P C →
  ntrdma_ring_count (enc cap P) (enc cap C) cap = P - C.
Proof. intros. unfold ntrdma_ring_count. ring_cases cap P C; ring_solve. Qed.

Lemma space_enc cap P C :
  cap_ok cap → counters_ok cap P C →
  ntrdma_ring_space (enc cap P) (enc cap C) cap = cap - (P - C).
Proof. intros. unfold ntrdma_ring_space. ring_cases cap P C; ring_solve. Qed.

(** The consuming range starts at the slot of the oldest entry and ends
    after the newest one or at the end of the buffer. *)
Lemma consume_enc cap P C :
  cap_ok cap → counters_ok cap P C →
  let r := ntrdma_ring_consume (enc cap P) (enc cap C) cap in
  r_idx r = slot cap C
  ∧ r_end r = slot cap C + Z.min (P - C) (cap - slot cap C)
  ∧ r_base r = enc cap C - slot cap C.
Proof.
  intros. subst r. unfold ntrdma_ring_consume.
  ring_cases cap P C; ring_solve.
Qed.

(** The producing range starts at the slot after the newest entry and ends
    before the oldest one or at the end of the buffer. *)
Lemma produce_enc cap P C :
  cap_ok cap → counters_ok cap P C →
  let '(more, r) := ntrdma_ring_produce (enc cap P) (enc cap C) cap in
  more = negb (P - C =? cap)
  ∧ r_idx r = slot cap P
  ∧ r_end r = slot cap P + Z.min (cap - (P - C)) (cap - slot cap P)
  ∧ r_base r = enc cap P - slot cap P.
Proof.
  intros. unfold ntrdma_ring_produce.
  ring_cases cap P C; ring_solve; repeat split; try rsolve.
  all: f_equal; apply eq_true_iff_eq; rewrite !Z.eqb_eq; rsolve.
Qed.

(** Moving an index over [k] contiguous slots of a range. *)
Lemma update_enc cap n k :
  cap_ok cap → 0 <= k <= cap - slot cap n →
  ntrdma_ring_update (slot cap n + k) (enc cap n - slot cap n) cap = enc cap (n + k).
Proof.
  intros Hc Hk. pose proof (enc_range cap n ltac:(rsolve)).
  pose proof (slot_range cap n ltac:(rsolve)).
  rewrite enc_add by rsolve. unfold ntrdma_ring_update.
  rewrite (slot_enc cap n) in * by rsolve. ring_solve.
Qed.

Lemma produce_warn_enc cap P C :
  cap_ok cap → counters_ok cap P C →
  ntrdma_ring_produce_warn (enc cap P) (enc cap C) cap = false.
Proof.
  intros. unfold ntrdma_ring_produce_warn.
  ring_cases cap P C; unfold cap_ok, counters_ok in *; rewrite ?pow2_30 in *;
    repeat wstep; lia.
Qed.

Lemma valid_enc cap P C :
  cap_ok cap → counters_ok cap P C →
  ntrdma_ring_valid (enc cap P) (enc cap C) cap = true.
Proof.
  intros. unfold ntrdma_ring_valid. rewrite count_enc by done.
  ring_cases cap P C; ring_solve; apply Z.leb_le; rsolve.
Qed.

Lemma slot_add cap n k :
  0 < cap → 0 <= k < cap - slot cap n → slot cap (n + k) = slot cap n + k.
Proof.
  intros Hc Hk. pose proof (slot_range cap n Hc). unfold slot in *.
  rewrite <- (Z.mod_small (n mod cap + k) cap) by lia.
  by rewrite Zplus_mod_idemp_l.
Qed.

Lemma slot_ne cap a b : 0 < b - a < cap → slot cap a ≠ slot cap b.
Proof.
  intros Hd He. unfold slot in He.
  assert ((b - a) mod cap = 0) as H0.
  { by rewrite Zminus_mod, He, Z.sub_diag, Z.mod_0_l by lia. }
  rewrite Z.mod_small in H0; lia.
Qed.

(** Every pair of indices that [ntrdma_ring_valid] accepts encodes counters,
    so that the lemmas above apply to whatever a peer announces once it has
    been validated. *)
Lemma valid_counters cap prod cons :
  cap_ok cap → is_u32 prod → is_u32 cons →
  ntrdma_ring_valid prod cons cap = true →
  ∃ P C, prod = enc cap P ∧ cons = enc cap C ∧ counters_ok cap P C.
Proof.
  intros Hc Hp Hk. unfold ntrdma_ring_valid, ntrdma_ring_count.
  rewrite (u32_small (2 * cap)) by rsolve.
  destruct (Z.leb_spec (2 * cap) prod); [by intros|].
  destruct (Z.leb_spec (2 * cap) cons); [by intros|].
  rewrite Z.leb_le. intros Hle. unfold cap_ok in Hc. rewrite pow2_30 in Hc.
  assert (∃ P, enc cap P = prod ∧ counters_ok cap P cons) as (P & <- & HP).
  { zcase_in Hle; repeat wstep_in Hle.
    - exists (prod + 2 * cap). split; [|rsolve].
      apply (enc_unique _ _ 1); rsolve.
    - exists prod. split; [|rsolve]. apply (enc_unique _ _ 0); rsolve. }
  exists P, cons. split; [done|]. split; [|done].
  symmetry. apply (enc_unique _ _ 0); rsolve.
Qed.

(** ** The ring as a FIFO queue

    Every user of a ring follows the same protocol: the producer asks for a
    contiguous range, fills a prefix of it and publishes the updated index
    (ntrdma_qp_send_post_get/put); the consumer asks for a contiguous range,
    reads a prefix of it and publishes the updated index.  [fifo_push] and
    [fifo_pop] are that protocol over a buffer of entries. *)

Section Fifo.
Context {A : Type}.

Record fifo := mk_fifo { f_buf : list A; f_prod : Z; f_cons : Z }.

Definition f_cap (f : fifo) : Z := Z.of_nat (length (f_buf f)).

Definition fifo_push (xs : list A) (f : fifo) : fifo * list A :=
  let r := snd (ntrdma_ring_produce (f_prod f) (f_cons f) (f_cap f)) in
  let k := Nat.min (length xs) (Z.to_nat (r_end r - r_idx r)) in
  (mk_fifo (list_inserts (Z.to_nat (r_idx r)) (take k xs) (f_buf f))
           (ntrdma_ring_update (r_idx r + Z.of_nat k) (r_base r) (f_cap f))
           (f_cons f),
   take k xs).

Definition fifo_pop (n : nat) (f : fifo) : fifo * list A :=
  let r := ntrdma_ring_consume (f_prod f) (f_cons f) (f_cap f) in
  let k := Nat.min n (Z.to_nat (r_end r - r_idx r)) in
  (mk_fifo (f_buf f) (f_prod f)
           (ntrdma_ring_update (r_idx r + Z.of_nat k) (r_base r) (f_cap f)),
   take k (drop (Z.to_nat (r_idx r)) (f_buf f))).

Definition fifo_init (buf : list A) : fifo := mk_fifo buf 0 0.

(** [represents f P C q]: with [P] entries produced and [C] consumed, the
    ring holds the queue [q]. *)
Record represents (f : fifo) (P C : Z) (q : list A) : Prop := {
  rep_cap : cap_ok (f_cap f);
  rep_counters : counters_ok (f_cap f) P C;
  rep_prod : f_prod f = enc (f_cap f) P;
  rep_cons : f_cons f = enc (f_cap f) C;
  rep_len : Z.of_nat (length q) = P - C;
  rep_entries : ∀ i : nat, (i < length q)%nat →
    f_buf f !! Z.to_nat (slot (f_cap f) (C + Z.of_nat i)) = q !! i }.

Lemma f_cap_push xs f : f_cap (fst (fifo_push xs f)) = f_cap f.
Proof. unfold f_cap; simpl. by rewrite length_inserts. Qed.

Lemma f_cap_pop n f : f_cap (fst (fifo_pop n f)) = f_cap f.
Proof. done. Qed.

Lemma represents_init buf :
  cap_ok (Z.of_nat (length buf)) → represents (fifo_init buf) 0 0 [].
Proof.
  intros Hc. split; simpl; try done.
  - unfold counters_ok, f_cap; simpl. rsolve.
  - intros i Hi. simpl in Hi. lia.
Qed.

(** The range a push is offered, in terms of the counters. *)
Lemma push_range f P C q :
  represents f P C q →
  let r := snd (ntrdma_ring_produce (f_prod f) (f_cons f) (f_cap f)) in
  r_idx r = slot (f_cap f) P
  ∧ r_end r - r_idx r = Z.min (f_cap f - Z.of_nat (length q)) (f_cap f - slot (f_cap f) P)
  ∧ r_base r = enc (f_cap f) P - slot (f_cap f) P.
Proof.
  intros [Hc HPC Hp Hk Hl _]. rewrite Hp, Hk.
  pose proof (produce_enc (f_cap f) P C Hc HPC) as Hpr.
  destruct (ntrdma_ring_produce _ _ _) as [more r]. simpl.
  destruct Hpr as (_ & -> & -> & ->). rewrite Hl. lia.
Qed.

Lemma pop_range f P C q :
  represents f P C q →
  let r := ntrdma_ring_consume (f_prod f) (f_cons f) (f_cap f) in
  r_idx r = slot (f_cap f) C
  ∧ r_end r - r_idx r = Z.min (Z.of_nat (length q)) (f_cap f - slot (f_cap f) C)
  ∧ r_base r = enc (f_cap f) C - slot (f_cap f) C.
Proof.
  intros [Hc HPC Hp Hk Hl _]. rewrite Hp, Hk. simpl.
  destruct (consume_enc (f_cap f) P C Hc HPC) as (-> & -> & ->). rewrite Hl. lia.
Qed.

Lemma push_represents xs f P C q :
  represents f P C q →
  let '(f', ys) := fifo_push xs f in
  represents f' (P + Z.of_nat (length ys)) C (q ++ ys).
Proof.
  intros Hr. pose proof (push_range f P C q Hr) as (Hi & Hd & Hb).
  pose proof (f_cap_push xs f) as Hcap.
  unfold fifo_push in *; simpl in *. rewrite Hi, Hd, Hb in *.
  destruct Hr as [Hc HPC Hp Hk Hl He]. pose proof (slot_range (f_cap f) P ltac:(rsolve)).
  set (k := Nat.min _ _) in *. set (ys := take k xs) in *.
  assert (length ys = k) as Hys by (unfold ys; rewrite length_take; lia).
  assert (Z.of_nat k <= f_cap f - Z.of_nat (length q)
          ∧ Z.of_nat k <= f_cap f - slot (f_cap f) P) as [Hk1 Hk2] by (unfold counters_ok, k in *; lia).
  clearbody k ys.
  split; simpl; rewrite ?Hcap; try done.
  - unfold counters_ok in *. lia.
  - rewrite update_enc by (done || lia). by rewrite Hys.
  - rewrite length_app. lia.
  - intros i Hii. rewrite length_app in Hii.
    destruct (decide (i < length q)%nat) as [Hlt|Hge].
    + rewrite lookup_app_l, <- He by done.
      pose proof (slot_range (f_cap f) (C + Z.of_nat i) ltac:(rsolve)).
      destruct (decide (Z.to_nat (slot (f_cap f) (C + Z.of_nat i))
                        < Z.to_nat (slot (f_cap f) P))%nat);
        [by apply list_lookup_inserts_lt|].
      apply list_lookup_inserts_ge. apply Nat.nlt_ge. intros Hin.
      apply (slot_ne (f_cap f) (C + Z.of_nat i)
               (P + (slot (f_cap f) (C + Z.of_nat i) - slot (f_cap f) P))).
      { unfold counters_ok in HPC. lia. }
      rewrite (slot_add _ P); lia.
    + replace (C + Z.of_nat i) with (P + Z.of_nat (i - length q)) by lia.
      rewrite slot_add by lia. rewrite lookup_app_r by lia.
      rewrite list_lookup_inserts; [f_equal; lia|lia|]. unfold f_cap in *. lia.
Qed.

Lemma pop_represents n f P C q :
  represents f P C q →
  let '(f', ys) := fifo_pop n f in
  ∃ q', q = ys ++ q' ∧ represents f' P (C + Z.of_nat (length ys)) q'.
Proof.
  intros Hr. pose proof (pop_range f P C q Hr) as (Hi & Hd & Hb).
  unfold fifo_pop in *; simpl in *. rewrite Hi, Hd, Hb in *.
  destruct Hr as [Hc HPC Hp Hk Hl He]. pose proof (slot_range (f_cap f) C ltac:(rsolve)).
  set (k := Nat.min _ _) in *.
  assert (Z.of_nat k <= Z.of_nat (length q)
          ∧ Z.of_nat k <= f_cap f - slot (f_cap f) C) as [Hk1 Hk2] by (unfold counters_ok, k in *; lia).
  clearbody k.
  assert (take k (drop (Z.to_nat (slot (f_cap f) C)) (f_buf f)) = take k q) as Hys.
  { apply list_eq. intros i. destruct (decide (i < k)%nat).
    - rewrite !lookup_take, lookup_drop. rewrite !decide_True by done.
      rewrite <- He by lia. rewrite slot_add by lia. f_equal. lia.
    - by rewrite !lookup_take_ge by lia. }
  rewrite Hys. exists (drop k q). split; [by rewrite take_drop|].
  assert (length (take k q) = k) as Hlk by (rewrite length_take; lia). rewrite Hlk.
  split; simpl; try done.
  - unfold counters_ok, f_cap in *; simpl in *. lia.
  - unfold f_cap in *; simpl. rewrite update_enc by (done || lia). done.
  - rewrite length_drop. lia.
  - intros i Hii. rewrite length_drop in Hii. rewrite lookup_drop, <- He by lia.
    unfold f_cap; simpl. f_equal. f_equal. f_equal. lia.
Qed.

Opaque fifo_push fifo_pop.

(** The runs of the two sides: any interleaving of pushes and pops, with
    what went in and what came out. *)
Inductive fifo_op := Push (xs : list A) | Pop (n : nat).

Fixpoint fifo_run (ops : list fifo_op) (f : fifo) : fifo * list A * list A :=
  match ops with
  | [] => (f, [], [])
  | Push xs :: ops =>
      let '(f1, ys) := fifo_push xs f in
      let '(f2, ins, outs) := fifo_run ops f1 in (f2, ys ++ ins, outs)
  | Pop n :: ops =>
      let '(f1, ys) := fifo_pop n f in
      let '(f2, ins, outs) := fifo_run ops f1 in (f2, ins, ys ++ outs)
  end.

Lemma fifo_run_represents ops : ∀ f P C q,
  represents f P C q →
  let '(f', ins, outs) := fifo_run ops f in
  ∃ P' C' q', q ++ ins = outs ++ q' ∧ represents f' P' C' q' ∧ f_cap f' = f_cap f.
Proof.
  induction ops as [|[xs|n] ops IH]; intros f P C q Hr; simpl.
  - exists P, C, q. by rewrite app_nil_r.
  - pose proof (push_represents xs f P C q Hr) as H1. pose proof (f_cap_push xs f) as Hc.
    destruct (fifo_push xs f) as [f1 ys]. specialize (IH _ _ _ _ H1).
    destruct (fifo_run ops f1) as [[f2 ins] outs]. simpl in IH, H1.
    destruct IH as (P' & C' & q' & He & Hr' & Hc'). exists P', C', q'.
    rewrite app_assoc. simpl in Hc. by rewrite Hc', Hc.
  - pose proof (pop_represents n f P C q Hr) as H1.
    assert (f_cap (fst (fifo_pop n f)) = f_cap f) as Hc by apply f_cap_pop.
    destruct (fifo_pop n f) as [f1 ys]. destruct H1 as (q1 & -> & H1).
    specialize (IH _ _ _ _ H1). destruct (fifo_run ops f1) as [[f2 ins] outs]. simpl in IH, H1.
    destruct IH as (P' & C' & q' & He & Hr' & Hc'). exists P', C', q'.
    rewrite <- !app_assoc, He. simpl in Hc. by rewrite Hc', Hc.
Qed.

Transparent fifo_push fifo_pop.

Lemma push_progress f P C q x :
  represents f P C q → Z.of_nat (length q) < f_cap f → snd (fifo_push [x] f) = [x].
Proof.
  intros Hr Hl. destruct (push_range f P C q Hr) as (_ & Hd & _).
  unfold fifo_push. cbv zeta. cbn [snd]. rewrite Hd.
  pose proof (slot_range (f_cap f) P ltac:(destruct Hr; rsolve)).
  cbn [length]. replace (Nat.min 1 _) with 1%nat by lia. done.
Qed.

Lemma pop_progress f P C q x :
  represents f P C (x :: q) → snd (fifo_pop 1 f) = [x].
Proof.
  intros Hr. destruct (pop_range f P C _ Hr) as (Hi & Hd & _).
  pose proof (slot_range (f_cap f) C ltac:(destruct Hr; rsolve)).
  unfold fifo_pop. cbv zeta. cbn [snd]. rewrite Hd, Hi. cbn [length].
  replace (Nat.min 1 _) with 1%nat by lia.
  pose proof (rep_entries _ _ _ _ Hr 0 ltac:(simpl; lia)) as He. simpl in He.
  rewrite Z.add_0_r in He. by rewrite (drop_S _ x _ He).
Qed.
End Fifo.

(** ** Properties *)

(** C1: a ring driven through [ntrdma_ring_produce], [ntrdma_ring_consume]
    and [ntrdma_ring_update] is a FIFO queue of bounded capacity.  After any
    interleaving of pushes and pops, what came out followed by what is still
    held is exactly what went in, in order; the number held is
    [ntrdma_ring_count] and never exceeds the capacity; and a ring that is not
    full accepts an entry, one that is not empty delivers its oldest. *)
Theorem ring_is_bounded_fifo {A} (buf : list A) (ops : list fifo_op) :
  cap_ok (Z.of_nat (length buf)) →
  let '(f, ins, outs) := fifo_run ops (fifo_init buf) in
  ∃ held,
    ins = outs ++ held
    ∧ ntrdma_ring_count (f_prod f) (f_cons f) (f_cap f) = Z.of_nat (length held)
    ∧ Z.of_nat (length held) <= Z.of_nat (length buf)
    ∧ (∀ x, Z.of_nat (length held) < Z.of_nat (length buf) → snd (fifo_push [x] f) = [x])
    ∧ (∀ x rest, held = x :: rest → snd (fifo_pop 1 f) = [x]).
Proof.
  intros Hc. pose proof (fifo_run_represents ops _ _ _ _ (represents_init buf Hc)) as H.
  destruct (fifo_run ops (fifo_init buf)) as [[f ins] outs].
  destruct H as (P & C & q & He & Hr & Hcap). exists q.
  assert (f_cap f = Z.of_nat (length buf)) as Hcap' by done.
  pose proof Hr as [Hok HPC Hp Hk Hl _]. repeat split.
  - done.
  - rewrite Hp, Hk, count_enc; done.
  - unfold counters_ok in HPC. lia.
  - intros x Hlt. eapply push_progress; [done|lia].
  - intros x rest ->. by eapply pop_progress.
Qed.

Lemma ring_is_bounded_fifo_witness :
  let '(f, ins, outs) :=
    fifo_run [Push [1; 2; 3]; Pop 2; Push [4; 5]; Push [6]; Pop 5] (fifo_init [0; 0; 0]) in
  ∃ held,
    ins = outs ++ held
    ∧ ntrdma_ring_count (f_prod f) (f_cons f) (f_cap f) = Z.of_nat (length held)
    ∧ Z.of_nat (length held) <= 3
    ∧ (∀ x, Z.of_nat (length held) < 3 → snd (fifo_push [x] f) = [x])
    ∧ (∀ x rest, held = x :: rest → snd (fifo_pop 1 f) = [x]).
Proof.
  apply (ring_is_bounded_fifo [0; 0; 0]
           [Push [1; 2; 3]; Pop 2; Push [4; 5]; Push [6]; Pop 5]).
  split; reflexivity.
Defined.

(** C2: on valid indices every index function agrees with the unbounded
    counters they encode: the count and the space, the contiguous range to
    consume and to produce (never outside the buffer, never across the
    boundary of the other side), whether there is room, and the index after
    advancing by any part of the range. *)
Theorem ring_index_arithmetic cap P C k :
  cap_ok cap → counters_ok cap P C →
  let prod := enc cap P in
  let cons := enc cap C in
  let rc := ntrdma_ring_consume prod cons cap in
  let rp := snd (ntrdma_ring_produce prod cons cap) in
  ntrdma_ring_valid prod cons cap = true
  ∧ ntrdma_ring_count prod cons cap = P - C
  ∧ ntrdma_ring_space prod cons cap = cap - (P - C)
  ∧ fst (ntrdma_ring_produce prod cons cap) = negb (P - C =? cap)
  ∧ (0 <= r_idx rc <= r_end rc ∧ r_end rc <= cap)
  ∧ (0 <= r_idx rp <= r_end rp ∧ r_end rp <= cap)
  ∧ ntrdma_ring_count_ctg prod cons cap = r_end rc - r_idx rc
  ∧ ntrdma_ring_space_ctg prod cons cap = r_end rp - r_idx rp
  ∧ (0 <= k <= r_end rc - r_idx rc →
     ntrdma_ring_update (r_idx rc + k) (r_base rc) cap = enc cap (C + k)
     ∧ counters_ok cap P (C + k))
  ∧ (0 <= k <= r_end rp - r_idx rp →
     ntrdma_ring_update (r_idx rp + k) (r_base rp) cap = enc cap (P + k)
     ∧ counters_ok cap (P + k) C).
Proof.
  intros Hc HPC. cbv zeta.
  pose proof (slot_range cap P ltac:(rsolve)). pose proof (slot_range cap C ltac:(rsolve)).
  unfold ntrdma_ring_count_ctg, ntrdma_ring_space_ctg.
  destruct (consume_enc cap P C Hc HPC) as (-> & -> & ->).
  pose proof (produce_enc cap P C Hc HPC) as Hp.
  destruct (ntrdma_ring_produce _ _ _) as [more r]. cbn [fst snd].
  destruct Hp as (-> & -> & -> & ->).
  rewrite valid_enc, count_enc, space_enc by done.
  unfold counters_ok in *. repeat split; try lia;
    try (intros; apply update_enc; [done|lia]); apply u32_small; rsolve.
Qed.

Lemma ring_index_arithmetic_witness :
  cap_ok 4 ∧ counters_ok 4 11 9
  ∧ ntrdma_ring_consume (enc 4 11) (enc 4 9) 4 = mk_range 1 3 0
  ∧ ntrdma_ring_update 3 0 4 = enc 4 11.
Proof.
  assert (cap_ok 4) as Hc by (split; reflexivity).
  assert (counters_ok 4 11 9) as Hn by (repeat split; discriminate).
  split; [exact Hc|]. split; [exact Hn|]. split; [reflexivity|].
  exact (proj1 (proj1 (proj2 (proj2 (proj2 (proj2 (proj2 (proj2 (proj2 (proj2
    (ring_index_arithmetic 4 11 9 2 Hc Hn))))))))) ltac:(split; discriminate))).
Defined.

(** The two [WARN]s of [ntrdma_ring_produce] fire exactly on the index
    pairs that [ntrdma_ring_valid] rejects: the run-time check is sound and
    complete for the ring invariant. *)
Theorem ring_produce_warns_iff_invalid prod cons cap :
  cap_ok cap → is_u32 prod → is_u32 cons →
  ntrdma_ring_produce_warn prod cons cap = negb (ntrdma_ring_valid prod cons cap).
Proof.
  intros Hc Hp Hk. unfold ntrdma_ring_produce_warn, ntrdma_ring_valid, ntrdma_ring_count.
  unfold cap_ok in Hc. rewrite pow2_30 in Hc. rewrite (u32_small (2 * cap)) by wsolve.
  destruct (Z.leb_spec (2 * cap) prod); [done|].
  destruct (Z.leb_spec (2 * cap) cons); [done|]. simpl.
  zcase; repeat wstep; lia.
Qed.

Lemma ring_produce_warns_iff_invalid_witness :
  ntrdma_ring_produce_warn 7 1 4 = negb (ntrdma_ring_valid 7 1 4)
  ∧ ntrdma_ring_valid 7 1 4 = false ∧ ntrdma_ring_valid 7 3 4 = true.
Proof.
  split; [apply (ring_produce_warns_iff_invalid 7 1 4); split; (reflexivity || discriminate)|].
  split; reflexivity.
Defined.

End Ring.
