(* ===== verification/Wire.v ===== *)
(** * Rings that are copied over the link

    A producer and a consumer share a ring although they share no memory: the
    producer copies runs of entries into the consumer's memory and then writes
    its index there; the transfers arrive in the order they were asked for.
    The module numbers the entries from 0 and states when the consumer's copy
    is right; it is used for the command channel, for the work queues and for
    the completion queues. *)

From S2P Require Import Prelude Ring.
Import Ring.

Module Wire.

(** Entries numbered from 0 travel from a producer's ring to a consumer's
    memory by two kinds of transfers, delivered in the order they were asked
    for: a copy of a run of entries, then the producer's new index. *)

Inductive wire_op {T : Type} := WCopy (start : Z) (xs : list T) | WIndex (idx : Z).
Arguments wire_op : clear implicits.

Definition deliver {T} (e : wire_op T) (m : list T * Z) : list T * Z :=
  match e with
  | WCopy start xs => (list_inserts (Z.to_nat start) xs (fst m), snd m)
  | WIndex idx => (fst m, idx)
  end.

Section Chan.
Context {T : Type} (cap : Z) (Hcap : cap_ok cap).

(** The slot and the index of entry number [n]. *)
Definition nslot (n : nat) : Z := slot cap (Z.of_nat n).
Definition nenc (n : nat) : Z := enc cap (Z.of_nat n).

Lemma nslot_range n : 0 <= nslot n < cap.
Proof. apply slot_range. rsolve. Qed.

Lemma nslot_add n k : Z.of_nat k < cap - nslot n → nslot (n + k) = nslot n + Z.of_nat k.
Proof.
  intros Hk. unfold nslot in *. rewrite Nat2Z.inj_add. apply slot_add; [rsolve|]. lia.
Qed.

Lemma nslot_inj n m lo :
  (lo ≤ n)%nat → (lo ≤ m)%nat → Z.of_nat n < Z.of_nat lo + cap → Z.of_nat m < Z.of_nat lo + cap →
  nslot n = nslot m → n = m.
Proof.
  intros Hn Hm Hn' Hm' He. destruct (lt_eq_lt_dec n m) as [[Hlt|]|Hlt]; [|done|]; exfalso.
  - apply (slot_ne cap (Z.of_nat n) (Z.of_nat m)); [lia|done].
  - apply (slot_ne cap (Z.of_nat m) (Z.of_nat n)); [lia|by symmetry].
Qed.

(** The buffer holds the entries number [lo .. hi-1] of [l]. *)
Definition holds (buf l : list T) (lo hi : nat) : Prop :=
  (hi ≤ length l)%nat
  ∧ ∀ n, (lo ≤ n < hi)%nat → buf !! Z.to_nat (nslot n) = l !! n.

Lemma holds_mono buf l lo hi lo' hi' :
  holds buf l lo hi → (lo ≤ lo')%nat → (hi' ≤ hi)%nat → holds buf l lo' hi'.
Proof. intros [Hl H] Hlo Hhi. split; [lia|]. intros n Hn. apply H. lia. Qed.

Lemma holds_app buf l l' lo hi : holds buf l lo hi → holds buf (l ++ l') lo hi.
Proof.
  intros [Hl H]. split; [rewrite length_app; lia|]. intros n Hn.
  rewrite lookup_app_l by lia. by apply H.
Qed.

(** A copy of the next entries leaves the ones not consumed in place. *)
Lemma holds_write buf l lo mid k :
  Z.of_nat (length buf) = cap → holds buf l lo mid → (lo ≤ mid)%nat → (mid + k ≤ length l)%nat →
  Z.of_nat k <= cap - nslot mid → Z.of_nat (mid + k) <= Z.of_nat lo + cap →
  holds (list_inserts (Z.to_nat (nslot mid)) (take k (drop mid l)) buf) l lo (mid + k).
Proof.
  intros Hb [_ H] Hlo Hl Hk Hw. split; [done|]. intros n Hn.
  pose proof (nslot_range mid) as Hm. pose proof (nslot_range n) as Hr.
  assert (length (take k (drop mid l)) = k) as Hlen by (rewrite length_take, length_drop; lia).
  destruct (decide (n < mid)%nat) as [Hlt|Hge].
  - rewrite <- (H n) by lia. destruct (decide (nslot n < nslot mid)).
    + apply list_lookup_inserts_lt. lia.
    + apply list_lookup_inserts_ge. rewrite Hlen.
      destruct (decide (nslot n < nslot mid + Z.of_nat k)) as [Hin|]; [|lia].
      exfalso. assert (nslot (mid + Z.to_nat (nslot n - nslot mid)) = nslot n) as He.
      { rewrite nslot_add by lia. lia. }
      apply (nslot_inj _ _ lo) in He; lia.
  - assert (n = mid + (n - mid))%nat as Hn' by lia.
    assert (nslot n = nslot mid + Z.of_nat (n - mid)) as Hs.
    { rewrite Hn' at 1. apply nslot_add. lia. }
    rewrite Hs, Z2Nat.inj_add, Nat2Z.id by lia.
    rewrite list_lookup_inserts by lia.
    replace (Z.to_nat (nslot mid) + (n - mid) - Z.to_nat (nslot mid))%nat with (n - mid)%nat by lia.
    rewrite lookup_take_lt by lia. rewrite lookup_drop. f_equal. lia.
Qed.

(** Entry [n] is replaced, or a new one is written behind the last. *)
Lemma holds_insert buf l lo hi n x :
  Z.of_nat (length buf) = cap → holds buf l lo hi → (lo ≤ n < hi)%nat →
  Z.of_nat hi <= Z.of_nat lo + cap →
  holds (<[Z.to_nat (nslot n) := x]> buf) (<[n := x]> l) lo hi.
Proof.
  intros Hb [Hl H] Hn Hw. split; [by rewrite length_insert|]. intros m Hm.
  pose proof (nslot_range n) as Hr. pose proof (nslot_range m) as Hr'.
  destruct (decide (m = n)) as [->|Hne].
  - rewrite !list_lookup_insert_eq by lia. done.
  - rewrite (list_lookup_insert_ne l) by done. rewrite <- H by done.
    apply list_lookup_insert_ne. intros He. apply Hne, (nslot_inj _ _ lo); lia.
Qed.

(** The next entry is written, over one that is no longer needed. *)
Lemma holds_put buf l lo n x :
  Z.of_nat (length buf) = cap → holds buf l lo n → (lo ≤ n)%nat → l !! n = Some x →
  Z.of_nat n < Z.of_nat lo + cap → holds (<[Z.to_nat (nslot n) := x]> buf) l lo (S n).
Proof.
  intros Hb [_ H] Hlo Hx Hw. pose proof (lookup_lt_Some _ _ _ Hx) as Hlt.
  pose proof (nslot_range n) as Hr. split; [lia|]. intros m Hm.
  destruct (decide (m = n)) as [->|Hne].
  - by rewrite list_lookup_insert_eq by lia.
  - rewrite <- H by lia. apply list_lookup_insert_ne.
    intros He. pose proof (nslot_range m).
    apply Hne, (nslot_inj _ _ lo); lia.
Qed.

(** Entry [n] is left and its slot written. *)
Lemma holds_leave buf l n hi x :
  holds buf l n hi → Z.of_nat hi <= Z.of_nat n + cap →
  holds (<[Z.to_nat (nslot n) := x]> buf) l (S n) hi.
Proof.
  intros [Hl H] Hw. split; [done|]. intros m Hm. rewrite <- H by lia.
  pose proof (nslot_range n). pose proof (nslot_range m).
  apply list_lookup_insert_ne. intros He. assert (n = m); [|lia].
  apply (nslot_inj _ _ n); rsolve.
Qed.

Lemma holds_snoc buf l lo x :
  Z.of_nat (length buf) = cap → holds buf l lo (length l) → (lo ≤ length l)%nat →
  Z.of_nat (length l) < Z.of_nat lo + cap →
  holds (<[Z.to_nat (nslot (length l)) := x]> buf) (l ++ [x]) lo (S (length l)).
Proof.
  intros Hb [_ H] Hlo Hw. split; [rewrite length_app; cbn; lia|]. intros m Hm.
  pose proof (nslot_range (length l)) as Hr. pose proof (nslot_range m) as Hr'.
  destruct (decide (m = length l)) as [->|Hne].
  - rewrite list_lookup_insert_eq by lia. by rewrite lookup_app_r, Nat.sub_diag by lia.
  - rewrite lookup_app_l by lia. rewrite <- H by lia.
    apply list_lookup_insert_ne. intros He. apply Hne, (nslot_inj _ _ lo); lia.
Qed.

(** A run of entries that does not cross the end of the buffer. *)
Lemma holds_run buf l lo hi n k :
  Z.of_nat (length buf) = cap → holds buf l lo hi → (lo ≤ n)%nat → (n + k ≤ hi)%nat →
  Z.of_nat k <= cap - nslot n →
  take k (drop (Z.to_nat (nslot n)) buf) = take k (drop n l).
Proof.
  intros Hb [Hl H] Hn Hk Hc. pose proof (nslot_range n) as Hr.
  apply list_eq. intros i. destruct (decide (i < k)%nat) as [Hi|Hi].
  2:{ rewrite !lookup_take_ge by lia. done. }
  rewrite !lookup_take_lt, !lookup_drop by done. rewrite <- H by lia.
  f_equal. rewrite nslot_add by lia. lia.
Qed.

(** The transfers that carry the entries from number [c] to the last of [l]:
    each copy is followed, at once or after further copies, by an index. *)
Inductive wire_ok (l : list T) : nat → list (wire_op T) → Prop :=
  | wire_done : wire_ok l (length l) []
  | wire_copy c k w :
      Z.of_nat k <= cap - nslot c → (c + k ≤ length l)%nat → wire_ok l (c + k) w →
      wire_ok l c (WCopy (nslot c) (take k (drop c l)) :: w)
  | wire_index c w : wire_ok l c w → wire_ok l c (WIndex (nenc c) :: w).

(** The consumer is at entry [lo] and sees [v] entries, out of those of [l];
    [c] of them are in its memory and [w] is under way. *)
Definition chan_ok (l : list T) (lo v : nat) (m : list T * Z) (w : list (wire_op T)) : Prop :=
  Z.of_nat (length (fst m)) = cap ∧ snd m = nenc v ∧ (lo ≤ v ≤ length l)%nat
  ∧ Z.of_nat (length l) <= Z.of_nat lo + cap
  ∧ ∃ c, (v ≤ c ≤ length l)%nat ∧ holds (fst m) l lo c ∧ wire_ok l c w.

Lemma wire_ok_le l c w : wire_ok l c w → (c ≤ length l)%nat.
Proof. induction 1; lia. Qed.

Lemma wire_ok_copy l c w xs :
  wire_ok l c w → Z.of_nat (length xs) <= cap - nslot (length l) →
  wire_ok (l ++ xs) c (w ++ [WCopy (nslot (length l)) xs]).
Proof.
  intros Hw Hx. induction Hw as [|c k w Hk Hl Hw IH|c w Hw IH].
  - assert (take (length xs) (drop (length l) (l ++ xs)) = xs) as He.
    { by rewrite drop_app_length, take_ge. }
    cbn [app]. rewrite <- He at 2.
    apply (wire_copy _ _ (length xs)); [done|rewrite length_app; lia|].
    rewrite <- length_app. constructor.
  - cbn [app]. rewrite <- (take_app_le (drop c l) xs) by (rewrite length_drop; lia).
    rewrite <- drop_app_le by lia. constructor; [done|rewrite length_app; lia|done].
  - by constructor.
Qed.

Lemma wire_ok_index l c w : wire_ok l c w → wire_ok l c (w ++ [WIndex (nenc (length l))]).
Proof. induction 1; cbn [app]; repeat constructor; done. Qed.

(** The producer's side: a copy of new entries, and its index. *)
Lemma chan_copy l lo v m w xs :
  chan_ok l lo v m w → Z.of_nat (length xs) <= cap - nslot (length l) →
  Z.of_nat (length l + length xs) <= Z.of_nat lo + cap →
  chan_ok (l ++ xs) lo v m (w ++ [WCopy (nslot (length l)) xs]).
Proof.
  intros (Hb & Hi & Hv & Hc & c & Hvc & Hh & Hw) Hx Hc'.
  repeat split; try done; try lia; try (rewrite length_app; lia).
  exists c. split; [rewrite length_app; lia|]. split; [by apply holds_app|by apply wire_ok_copy].
Qed.

Lemma chan_index l lo v m w :
  chan_ok l lo v m w → chan_ok l lo v m (w ++ [WIndex (nenc (length l))]).
Proof.
  intros (Hb & Hi & Hv & Hc & c & Hvc & Hh & Hw). repeat split; try done; try lia.
  exists c. split; [done|]. split; [done|by apply wire_ok_index].
Qed.

Lemma chan_send l lo v m w xs :
  chan_ok l lo v m w → Z.of_nat (length xs) <= cap - nslot (length l) →
  Z.of_nat (length l + length xs) <= Z.of_nat lo + cap →
  chan_ok (l ++ xs) lo v m
    (w ++ [WCopy (nslot (length l)) xs; WIndex (nenc (length l + length xs))]).
Proof.
  intros H Hx Hc. rewrite <- length_app.
  assert (∀ a b : wire_op T, w ++ [a; b] = (w ++ [a]) ++ [b]) as -> by (intros; by rewrite <- (assoc_L (++))). by apply chan_index, chan_copy.
Qed.

Lemma chan_send_run l lo v m w xs :
  chan_ok l lo v m w → Z.of_nat (length xs) <= cap - nslot (length l) →
  Z.of_nat (length l + length xs) <= Z.of_nat lo + cap →
  chan_ok (l ++ xs) lo v m
    (w ++ if (length xs =? 0)%nat then []
          else [WCopy (nslot (length l)) xs; WIndex (nenc (length l + length xs))]).
Proof.
  intros H Hx Hw. destruct xs as [|x xs]; [by rewrite !app_nil_r|]. by apply chan_send.
Qed.

(** The consumer's side. *)
Lemma chan_consume l lo lo' v m w :
  chan_ok l lo v m w → (lo ≤ lo' ≤ v)%nat → chan_ok l lo' v m w.
Proof.
  intros (Hb & Hi & Hv & Hc & c & Hvc & Hh & Hw) Hlo. repeat split; try done; try lia.
  exists c. split; [done|]. split; [|done]. eapply holds_mono; eauto; lia.
Qed.

Lemma chan_deliver l lo v m e w :
  chan_ok l lo v m (e :: w) → ∃ v', (v ≤ v')%nat ∧ chan_ok l lo v' (deliver e m) w.
Proof.
  intros (Hb & Hi & Hv & Hc & c & Hvc & Hh & Hw).
  inversion Hw as [|c0 k w0 Hk Hl Hw' E1 E2|c0 w0 Hw' E1 E2]; subst.
  - exists v. split; [done|].
    unfold chan_ok. cbn [deliver fst snd]. repeat split; try done; try lia.
    + by rewrite length_inserts.
    + exists (c + k)%nat. split; [lia|]. split; [|done].
      apply holds_write; try done; lia.
  - exists c. split; [lia|]. unfold chan_ok. cbn [deliver fst snd].
    repeat split; try done; try lia. exists c. split; [lia|done].
Qed.

Lemma chan_bounds l lo v m w :
  chan_ok l lo v m w → (lo ≤ v ≤ length l)%nat ∧ snd m = nenc v.
Proof. by intros (? & ? & ? & _). Qed.

Lemma chan_lookup l lo v m w n :
  chan_ok l lo v m w → (lo ≤ n < v)%nat →
  fst m !! Z.to_nat (nslot n) = l !! n.
Proof. intros (_ & _ & _ & _ & c & ? & [_ Hh] & _) Hn. apply Hh. lia. Qed.

Lemma chan_init m : Z.of_nat (length (fst m)) = cap → snd m = 0 → chan_ok [] 0 0 m [].
Proof.
  intros Hm H0. unfold chan_ok. rewrite H0. cbn [length]. repeat split; try done; try rsolve.
  exists 0%nat. split; [done|]. split; [|constructor]. split; [done|]. intros n Hn. lia.
Qed.

End Chan.

(** ** Runs of entries between two indices *)

(** Entry [lo] and the [n] entries from it, at positions [pos ..]. *)
Definition run_at (cap : Z) (lo : nat) (pos : Z) (n : nat) : Prop :=
  n = 0%nat ∨ (pos = nslot cap lo ∧ Z.of_nat n <= cap - nslot cap lo).

Lemma run_at_S cap lo pos n :
  cap_ok cap → run_at cap lo pos (S n) → pos = nslot cap lo ∧ run_at cap (S lo) (pos + 1) n.
Proof.
  intros Hc [?|[-> Hn]]; [done|]. split; [done|]. unfold run_at.
  destruct n as [|n]; [by left|]. right. replace (S lo) with (lo + 1)%nat by lia.
  rewrite nslot_add by (try done; lia). lia.
Qed.

Lemma consume_nenc cap D lo :
  cap_ok cap → (lo ≤ D)%nat → Z.of_nat D <= Z.of_nat lo + cap →
  ntrdma_ring_consume (nenc cap D) (nenc cap lo) cap
    = mk_range (nslot cap lo)
        (nslot cap lo + Z.min (Z.of_nat (D - lo)) (cap - nslot cap lo))
        (nenc cap lo - nslot cap lo).
Proof.
  intros Hcap HD HP. unfold nenc, nslot.
  pose proof (consume_enc cap (Z.of_nat D) (Z.of_nat lo) Hcap ltac:(rsolve)) as Hc.
  destruct (ntrdma_ring_consume _ _ _) as [ri re rb]. cbn [r_idx r_end r_base] in Hc.
  destruct Hc as (-> & -> & ->). f_equal. lia.
Qed.

Lemma produce_nenc cap P lo :
  cap_ok cap → (lo ≤ P)%nat → Z.of_nat P <= Z.of_nat lo + cap →
  snd (ntrdma_ring_produce (nenc cap P) (nenc cap lo) cap)
    = mk_range (nslot cap P)
        (nslot cap P + Z.min (cap - Z.of_nat (P - lo)) (cap - nslot cap P))
        (nenc cap P - nslot cap P).
Proof.
  intros Hcap HD HP. unfold nenc, nslot.
  pose proof (produce_enc cap (Z.of_nat P) (Z.of_nat lo) Hcap ltac:(rsolve)) as Hc.
  destruct (ntrdma_ring_produce _ _ _) as [more [ri re rb]]. cbn [r_idx r_end r_base] in Hc.
  destruct Hc as (_ & -> & -> & ->). cbn [snd]. f_equal. lia.
Qed.

(** An index moved over [k] entries, or left alone when there are none. *)
Lemma moved_index cap lo k :
  cap_ok cap → Z.of_nat k <= cap - nslot cap lo →
  ntrdma_ring_update (nslot cap lo + Z.of_nat k) (nenc cap lo - nslot cap lo) cap
    = nenc cap (lo + k).
Proof.
  intros Hcap Hk. unfold nslot, nenc. rewrite update_enc by (try done; unfold nslot in Hk; lia).
  f_equal. lia.
Qed.

End Wire.
