(* ===== verification/Kernel.v ===== *)
(** * Kernel services

    The driver calls the Linux kernel, which is not part of the repository.
    What the model needs from it is collected here as the class [Kernel]: the
    outcome of each call that may fail is an arbitrary function of the moment
    it is made, so every theorem holds whatever the kernel answers.  A moment
    is a natural number that the model advances at each such call. *)

From S2P Require Import Prelude.

Class Kernel := {
  (** kmalloc_node, kzalloc_node, kmem_cache_alloc_node: did the call made at
      this moment return memory? *)
  kalloc : nat → bool;
  (** the address of the memory, when it did *)
  kaddr : nat → Z;
  (** dma_map_resource(ptr, size): the DMA address, or a mapping error. *)
  dma_map_resource : Z → Z → option Z;
  (** dma_map_single of a freshly allocated buffer: its DMA address or a
      mapping error. *)
  dma_map_single : nat → option Z;
  (** dmaengine_prep_dma_memcpy: did the engine have a free descriptor? *)
  dmaengine_prep : nat → bool;
  (** dmaengine_submit: the cookie of the request, negative on error. *)
  dmaengine_submit : nat → Z;
  (** dmaengine_tx_status: the last cookie the engine has completed. *)
  dmaengine_used : nat → Z }.

(** What the DMA API and the allocators document: a mapped resource has a
    non-zero address that fits the 64 bit bus, memory has a non-zero address.
    (The driver itself relies on a non-zero address of a mapped buffer: it
    takes 0 for "not mapped".) *)
Class KernelOk (K : Kernel) : Prop := {
  dma_map_resource_addr p n a : dma_map_resource p n = Some a → 0 < a < 2 ^ 64;
  kaddr_pos t : 0 < kaddr t;
  dma_map_single_pos t a : dma_map_single t = Some a → 0 < a }.

(** A kernel in which nothing fails, used by the witnesses. *)
Definition kernel_good : Kernel := {|
  kalloc _ := true;
  kaddr t := 4096 * (Z.of_nat t + 1);
  dma_map_resource p _ := if (0 <? p) && (p <? 2 ^ 64) then Some p else None;
  dma_map_single _ := Some 4096;
  dmaengine_prep _ := true;
  dmaengine_submit t := Z.of_nat t;
  dmaengine_used t := Z.of_nat t |}.

#[export] Instance kernel_good_ok : KernelOk kernel_good.
Proof.
  split; simpl; [|lia|intros t a [= <-]; lia]. intros p n a H.
  destruct (Z.ltb_spec 0 p), (Z.ltb_spec p (2 ^ 64)); simpl in H; naive_solver.
Qed.
