(* ===== verification/Ntc.v ===== *)
(** * The non-transparent channel (include/linux/ntc.h)

    Buffers, their descriptions sent to the peer, the translation of a
    description into a peer address, and the requests to the DMA engine. *)

From S2P Require Import Prelude Kernel.

Module Ntc.

Definition NTC_INFO_MW_IDX : Z := 0.
Definition NTC_DRAM_MW_IDX : Z := 1.
Definition NTC_MAX_NUM_MWS : Z := 2.
Definition IB_ACCESS_REMOTE_WRITE : Z := 2.

(** ** Data *)

(** The bit fields of [union ntc_chan_addr], lowest bits first. *)
Record ntc_chan_addr := mk_chan_addr {
  ca_offset : Z;      (* 61 bits *)
  ca_is_flat : bool;
  ca_mw_idx : Z;      (* 1 bit *)
  ca_one : bool }.

(** The [value] view of the union. *)
Definition chan_addr_value (c : ntc_chan_addr) : Z :=
  Z.lor (Z.lor (ca_offset c) (Z.shiftl (Z.b2z (ca_is_flat c)) 61))
        (Z.lor (Z.shiftl (ca_mw_idx c) 62) (Z.shiftl (Z.b2z (ca_one c)) 63)).

(** The bit field view of a [value] read from the wire. *)
Definition chan_addr_of_value (v : Z) : ntc_chan_addr :=
  mk_chan_addr (Z.land v (Z.ones 61)) (Z.testbit v 61)
               (Z.b2z (Z.testbit v 62)) (Z.testbit v 63).

Definition chan_addr_zero : ntc_chan_addr := mk_chan_addr 0 false 0 false.

Record ntc_own_mw := mk_own_mw {
  om_base : Z;
  om_base_ptr : Z;
  om_size : Z;
  om_dead_zone_size : Z;
  om_trans_len : Z;
  om_mw_idx : Z }.

Record ntc_peer_mw := mk_peer_mw {
  pm_base : Z;
  pm_size : Z;
  pm_base_ptr : Z;
  pm_dead_zone_size : Z;
  pm_trans_len : Z;
  pm_mw_idx : Z }.

Record ntc_dev := mk_ntc_dev {
  own_mws : list ntc_own_mw;
  peer_mws : list ntc_peer_mw }.

Record ntc_local_buf := mk_local_buf {
  lb_size : Z;
  lb_owned : bool;
  lb_mapped : bool;
  lb_ptr : Z;
  lb_dma_addr : Z }.

Record ntc_export_buf := mk_export_buf {
  eb_size : Z;
  eb_ptr : Z;
  eb_own_mw : ntc_own_mw;
  eb_dma_addr : Z;
  eb_is_flat : bool }.

Record ntc_mr_buf := mk_mr_buf {
  mb_size : Z;
  mb_own_mw : option ntc_own_mw;
  mb_dma_addr : Z;
  mb_mr_access_flags : Z }.

Record ntc_remote_buf_desc := mk_desc {
  rd_chan_addr : ntc_chan_addr;
  rd_size : Z }.

Record ntc_remote_buf := mk_remote_buf {
  rb_size : Z;
  rb_dma_addr : Z;
  rb_io_addr : Z }.

(** ** Segments *)

Definition ntc_segment_valid (buf_size buf_offset len : Z) : bool :=
  if buf_size <=? buf_offset then false
  else if buf_size <? len then false
  else if buf_size <? u64 (buf_offset + len) then false
  else true.

(** ** Peer addresses *)

Definition ntc_peer_mw_of (ntc : ntc_dev) (c : ntc_chan_addr) : option ntc_peer_mw :=
  if NTC_MAX_NUM_MWS <=? ca_mw_idx c then None
  else peer_mws ntc !! Z.to_nat (ca_mw_idx c).

(** The translated address, with the output parameter [io_addr]; [None] is
    the address 0 that reports a failure. *)
Definition ntc_peer_addr (ntc : ntc_dev) (c : ntc_chan_addr) : option (Z * Z) :=
  match ntc_peer_mw_of ntc c with
  | None => None
  | Some mw =>
      let offset :=
        if ca_is_flat c then ca_offset c
        else u64 (ca_offset c + pm_dead_zone_size mw) in
      if negb (ca_is_flat c) && (pm_size mw <=? offset) then None
      else if pm_trans_len mw <=? offset then None
      else
        let addr := u64 (pm_base mw + offset) in
        if addr =? 0 then None
        else Some (addr, u64 (pm_base_ptr mw + offset))
  end.

(** ** Remote buffers *)

Definition ntc_remote_buf_clear : ntc_remote_buf := mk_remote_buf 0 0 0.

Definition ntc_remote_buf_valid (b : ntc_remote_buf) : bool :=
  negb (rb_dma_addr b =? 0).

Definition ntc_remote_buf_desc_clear : ntc_remote_buf_desc := mk_desc chan_addr_zero 0.

Section WithKernel.
Context `{K : Kernel}.

Definition ntc_remote_buf_map (ntc : ntc_dev) (d : ntc_remote_buf_desc)
  : Z * ntc_remote_buf :=
  if chan_addr_value (rd_chan_addr d) =? 0 then (0, ntc_remote_buf_clear)
  else
    match ntc_peer_addr ntc (rd_chan_addr d) with
    | None => (- EIO, ntc_remote_buf_clear)
    | Some (ptr, io_addr) =>
        match dma_map_resource ptr (rd_size d) with
        | None => (- EIO, ntc_remote_buf_clear)
        | Some dma => (0, mk_remote_buf (rd_size d) dma io_addr)
        end
    end.

Definition ntc_remote_buf_map_phys (ptr size : Z) : Z * ntc_remote_buf :=
  if ptr =? 0 then (- EIO, ntc_remote_buf_clear)
  else
    match dma_map_resource ptr size with
    | None => (- EIO, ntc_remote_buf_clear)
    | Some dma => (0, mk_remote_buf size dma 0)
    end.

End WithKernel.

(** The buffer after the unmap, and the (address, size) given back to
    dma_unmap_resource, if any. *)
Definition ntc_remote_buf_unmap (b : ntc_remote_buf)
  : ntc_remote_buf * option (Z * Z) :=
  (ntc_remote_buf_clear,
   if rb_dma_addr b =? 0 then None else Some (rb_dma_addr b, rb_size b)).

Definition ntc_remote_buf_desc_clip (d : ntc_remote_buf_desc) (offset len : Z)
  : Z * ntc_remote_buf_desc :=
  if negb (ntc_segment_valid (rd_size d) offset len) then (- EINVAL, d)
  else
    let c := rd_chan_addr d in
    (0, mk_desc (mk_chan_addr ((ca_offset c + offset) mod 2 ^ 61)
                   (ca_is_flat c) (ca_mw_idx c) (ca_one c)) len).

(** ** Local buffers *)

(** [phys_to_virt] is a kernel address offset; the model keeps the physical
    address as the pointer. *)
Definition ntc_local_buf_map_dma (size dma_addr : Z) : Z * ntc_local_buf :=
  let size' := size mod 2 ^ 62 in
  if negb (size' =? size) then (- EINVAL, mk_local_buf size' false false 0 0)
  else (0, mk_local_buf size' false false dma_addr dma_addr).

(** ** Export buffers *)

Definition ntc_export_buf_valid (b : ntc_export_buf) : bool :=
  negb (eb_dma_addr b =? 0).

Definition ntc_export_buf_make_desc (b : ntc_export_buf) : ntc_remote_buf_desc :=
  if eb_dma_addr b =? 0 then ntc_remote_buf_desc_clear
  else
    let offset :=
      if eb_is_flat b then eb_dma_addr b else eb_dma_addr b - om_base (eb_own_mw b) in
    mk_desc (mk_chan_addr (offset mod 2 ^ 61) (eb_is_flat b)
               (om_mw_idx (eb_own_mw b)) true)
            (eb_size b).

Definition ntc_export_buf_make_partial_desc (b : ntc_export_buf) (offset len : Z)
  : Z * option ntc_remote_buf_desc :=
  if eb_dma_addr b =? 0 then (- EINVAL, None)
  else if negb (ntc_segment_valid (eb_size b) offset len) then (- EINVAL, None)
  else
    let d := ntc_export_buf_make_desc b in
    let c := rd_chan_addr d in
    (0, Some (mk_desc (mk_chan_addr ((ca_offset c + offset) mod 2 ^ 61)
                         (ca_is_flat c) (ca_mw_idx c) (ca_one c)) len)).

(** The two output parameters are returned next to the result. *)
Definition ntc_export_buf_get_part_params (b : ntc_export_buf) (d : ntc_remote_buf_desc)
  : Z * (Z * Z) :=
  let c := rd_chan_addr d in
  let soffset :=
    s64 (if ca_is_flat c then ca_offset c - eb_dma_addr b
         else ca_offset c - (eb_dma_addr b - om_base (eb_own_mw b))) in
  let out := (u64 soffset, rd_size d) in
  if eb_dma_addr b =? 0 then (- EINVAL, out)
  else if soffset <? 0 then (- EINVAL, out)
  else if negb (ntc_segment_valid (eb_size b) (u64 soffset) (rd_size d)) then (- EINVAL, out)
  else if negb (om_mw_idx (eb_own_mw b) =? ca_mw_idx c) then (- EINVAL, out)
  else if negb (Bool.eqb (eb_is_flat b) (ca_is_flat c)) then (- EINVAL, out)
  else (0, out).

(** ** Memory region buffers *)

Definition ntc_mr_buf_valid (b : ntc_mr_buf) : bool := negb (mb_dma_addr b =? 0).

Definition ntc_mr_buf_clear (b : ntc_mr_buf) : ntc_mr_buf :=
  mk_mr_buf (mb_size b) (mb_own_mw b) 0 (mb_mr_access_flags b).

Definition ntc_mr_buf_clear_sgl (sgl : list ntc_mr_buf) (count : nat) : list ntc_mr_buf :=
  (ntc_mr_buf_clear <$> take count sgl) ++ drop count sgl.

(** The first own window that holds the segment; when none does, the loop
    leaves its pointer on the last window. *)
Fixpoint find_own_mw (mws : list ntc_own_mw) (dma_addr size : Z) : option ntc_own_mw :=
  match mws with
  | [] => None
  | mw :: mws =>
      if ntc_segment_valid (om_size mw) (u64 (dma_addr - om_base mw)) size
      then Some mw else find_own_mw mws dma_addr size
  end.

Definition ntc_mr_buf_map_dma (ntc : ntc_dev) (size dma_addr flags : Z)
  : Z * ntc_mr_buf :=
  let found := find_own_mw (own_mws ntc) dma_addr size in
  let own := match found with Some mw => Some mw | None => own_mws ntc !! Nat.pred (length (own_mws ntc)) end in
  let b := mk_mr_buf size own dma_addr flags in
  if Z.land flags IB_ACCESS_REMOTE_WRITE =? 0 then (0, b)
  else match found with None => (- EINVAL, b) | Some _ => (0, b) end.

Definition ntc_mr_buf_make_desc (b : ntc_mr_buf) : ntc_remote_buf_desc :=
  let empty := mk_desc chan_addr_zero (mb_size b) in
  if mb_dma_addr b =? 0 then empty
  else if Z.land (mb_mr_access_flags b) IB_ACCESS_REMOTE_WRITE =? 0 then empty
  else
    match mb_own_mw b with
    | Some mw =>
        mk_desc (mk_chan_addr ((mb_dma_addr b - om_base mw) mod 2 ^ 61) false
                   (om_mw_idx mw) true) (mb_size b)
    | None => empty
    end.

(** ** The DMA channel *)

(** What a request reads: memory, or a private copy of immediate data. *)
Inductive dma_src := Mem (addr : Z) | Imm (bytes : list Z).

Record dma_req := mk_dma_req {
  dq_dst : Z;
  dq_src : dma_src;
  dq_len : Z;
  dq_fence : bool }.

Record ntc_dma_chan := mk_dma_chan {
  last_cookie : Z;
  submit_cookie : Z;
  submit_counter : Z;
  dma_blocked : Z;
  dma_flush : Z }.

(** A channel with the requests its engine has accepted, in order, the
    rejections counted by [inc_dma_reject_counter] and the device's
    [dma_warn_count]. *)
Record dma_io := mk_io {
  io_time : nat;
  io_chan : ntc_dma_chan;
  io_log : list dma_req;
  io_reject_count : Z;
  io_warn_count : Z }.

Definition io_set_chan (c : ntc_dma_chan) (s : dma_io) : dma_io :=
  mk_io (io_time s) c (io_log s) (io_reject_count s) (io_warn_count s).

Definition io_tick (s : dma_io) : dma_io :=
  mk_io (S (io_time s)) (io_chan s) (io_log s) (io_reject_count s) (io_warn_count s).

Definition io_add_blocked (d : Z) (s : dma_io) : dma_io :=
  let c := io_chan s in
  io_set_chan (mk_dma_chan (last_cookie c) (submit_cookie c) (submit_counter c)
                 (dma_blocked c + d) (dma_flush c)) s.

Definition io_add_flush (d : Z) (s : dma_io) : dma_io :=
  let c := io_chan s in
  io_set_chan (mk_dma_chan (last_cookie c) (submit_cookie c) (submit_counter c)
                 (dma_blocked c) (dma_flush c + d)) s.

Definition inc_dma_reject_counter (s : dma_io) : dma_io :=
  mk_io (io_time s) (io_chan s) (io_log s) (io_reject_count s + 1) (io_warn_count s).

Definition io_inc_warn (s : dma_io) : dma_io :=
  mk_io (io_time s) (io_chan s) (io_log s) (io_reject_count s) (u32 (io_warn_count s + 1)).

Definition MAX_DMA_PREP_RETRIES : Z := 100000.

Inductive ntc_dma_memcpy_mode := NTC_DMA_DONT_WAIT | NTC_DMA_WAIT.

Section Dma.
Context `{K : Kernel}.

Definition ntc_dma_chan_tx_status (s : dma_io) : dma_io :=
  let c := io_chan s in
  io_tick (io_set_chan (mk_dma_chan (last_cookie c) (dmaengine_used (io_time s)) 0
                          (dma_blocked c) (dma_flush c)) s).

Definition ntc_req_submit (s : dma_io) : dma_io :=
  let c := io_chan s in
  let n := u32 (submit_counter c + 1) in
  if 255 <=? n then ntc_dma_chan_tx_status s
  else io_set_chan (mk_dma_chan (last_cookie c) (submit_cookie c) n
                      (dma_blocked c) (dma_flush c)) s.

Definition ntc_dma_flush (s : dma_io) : dma_io :=
  if last_cookie (io_chan s) <? 0 then s
  else ntc_dma_chan_tx_status (ntc_req_submit s).

Definition prep (s : dma_io) : bool * dma_io :=
  (dmaengine_prep (io_time s), io_tick s).

(** The loop over [retries]. *)
Fixpoint prep_retry (n : nat) (s : dma_io) : bool * dma_io :=
  match n with
  | O => (false, s)
  | S n =>
      let '(tx, s) := prep (ntc_dma_chan_tx_status s) in
      if tx then (true, s) else prep_retry n s
  end.

(** From label [exit_loop]. *)
Definition req_submit_tx (dst : Z) (src : dma_src) (len : Z) (fence : bool) (s : dma_io)
  : Z * dma_io :=
  let cookie := dmaengine_submit (io_time s) in
  let s := io_tick s in
  if cookie <? 0 then (- EIO, inc_dma_reject_counter s)
  else
    let c := io_chan s in
    (0, mk_io (io_time s)
          (mk_dma_chan cookie (submit_cookie c) (submit_counter c)
             (dma_blocked c) (dma_flush c))
          (io_log s ++ [mk_dma_req dst src len fence])
          (io_reject_count s) (io_warn_count s)).

(** [fuel] bounds the retries; the code's bound is [MAX_DMA_PREP_RETRIES]. *)
Definition ntc_req_memcpy_n (fuel : nat) (dst : Z) (src : dma_src) (len : Z)
    (fence : bool) (dma_wait : ntc_dma_memcpy_mode) (s : dma_io) : Z * dma_io :=
  if len =? 0 then (- EINVAL, s)
  else if (match dma_wait with NTC_DMA_DONT_WAIT => true | NTC_DMA_WAIT => false end)
          && (0 <? dma_blocked (io_chan s))
  then (- EAGAIN, inc_dma_reject_counter s)
  else
    let '(tx, s) := prep s in
    if tx then req_submit_tx dst src len fence s
    else
      let s := io_inc_warn (io_add_blocked 1 s) in
      let '(tx, s) := prep_retry fuel s in
      if tx then req_submit_tx dst src len fence (io_add_blocked (-1) s)
      else
        let s := io_add_flush (-1) (ntc_dma_flush (io_add_flush 1 s)) in
        let '(tx, s) := prep s in
        if tx then req_submit_tx dst src len fence (io_add_blocked (-1) s)
        else (- ENOMEM, inc_dma_reject_counter (io_add_blocked (-1) s)).

Definition ntc_req_memcpy := ntc_req_memcpy_n (Z.to_nat MAX_DMA_PREP_RETRIES).

Definition ntc_request_memcpy (dst : ntc_remote_buf) (dst_offset : Z)
    (src : ntc_local_buf) (src_offset len : Z) (fence : bool)
    (dma_wait : ntc_dma_memcpy_mode) (s : dma_io) : Z * dma_io :=
  if negb (ntc_segment_valid (lb_size src) src_offset len) then (- EINVAL, s)
  else if negb (ntc_segment_valid (rb_size dst) dst_offset len) then (- EINVAL, s)
  else ntc_req_memcpy (u64 (rb_dma_addr dst + dst_offset))
         (Mem (u64 (lb_dma_addr src + src_offset))) len fence dma_wait s.

Definition ntc_request_memcpy_fenced dst dst_offset src src_offset len :=
  ntc_request_memcpy dst dst_offset src src_offset len true.

Definition ntc_request_memcpy_unfenced dst dst_offset src src_offset len :=
  ntc_request_memcpy dst dst_offset src src_offset len false.

Definition ntc_mr_request_memcpy_unfenced (dst : ntc_remote_buf) (dst_offset : Z)
    (src : ntc_mr_buf) (src_offset len : Z)
    (dma_wait : ntc_dma_memcpy_mode) (s : dma_io) : Z * dma_io :=
  if negb (ntc_segment_valid (mb_size src) src_offset len) then (- EINVAL, s)
  else if negb (ntc_segment_valid (rb_size dst) dst_offset len) then (- EINVAL, s)
  else ntc_req_memcpy (u64 (rb_dma_addr dst + dst_offset))
         (Mem (u64 (mb_dma_addr src + src_offset))) len false dma_wait s.

(** [ntc_req_imm] (drivers/ntc/ntc_ntb_msi.c): the data is copied to a
    private buffer of eight bytes, which is mapped and sent. *)
Definition ntc_req_imm (dst : Z) (data : list Z) (fence : bool) (s : dma_io)
  : Z * dma_io :=
  let len := Z.of_nat (length data) in
  if (len =? 0) || (8 <? len) then (- EINVAL, s)
  else if negb (kalloc (io_time s)) then (- ENOMEM, io_tick s)
  else
    let s := io_tick s in
    match dma_map_single (io_time s) with
    | None => (- EIO, io_tick s)
    | Some _ =>
        let '(rc, s) := ntc_req_memcpy dst (Imm data) len fence NTC_DMA_WAIT (io_tick s) in
        if rc <? 0 then (rc, s) else (0, s)
    end.

(** The bytes of a 32 bit value as they are in (little endian) memory. *)
Definition le32 (v : Z) : list Z :=
  (λ i, Z.land (Z.shiftr v (8 * Z.of_nat i)) 255) <$> seq 0 4.

Definition ntc_request_imm32 (dst : ntc_remote_buf) (dst_offset val : Z)
    (fence : bool) (s : dma_io) : Z * dma_io :=
  if negb (ntc_segment_valid (rb_size dst) dst_offset 4) then (- EINVAL, s)
  else ntc_req_imm (u64 (rb_dma_addr dst + dst_offset)) (le32 val) fence s.

Definition ntc_mr_request_memcpy_unfenced_imm (dst : ntc_remote_buf) (dst_offset : Z)
    (data : list Z) (s : dma_io) : Z * dma_io :=
  if negb (ntc_segment_valid (rb_size dst) dst_offset (Z.of_nat (length data)))
  then (- EINVAL, s)
  else ntc_req_imm (u64 (rb_dma_addr dst + dst_offset)) data false s.

End Dma.

(** ** Lemmas *)

Lemma segment_valid_bounds size off len :
  size <= 2 ^ 63 → 0 <= off → 0 <= len →
  ntc_segment_valid size off len = true → off < size ∧ off + len <= size.
Proof.
  intros Hs Ho Hl. unfold ntc_segment_valid.
  destruct (Z.leb_spec size off); [done|]. destruct (Z.ltb_spec size len); [done|].
  rewrite u64_small by wsolve. destruct (Z.ltb_spec size (off + len)); [done|]. lia.
Qed.

(** The bits of a channel address, in the order of the fields. *)
Definition chan_addr_wf (c : ntc_chan_addr) : Prop :=
  0 <= ca_offset c < 2 ^ 61 ∧ (ca_mw_idx c = 0 ∨ ca_mw_idx c = 1).

Lemma testbit_high n i : 0 <= n < 2 ^ 61 → 61 <= i → Z.testbit n i = false.
Proof.
  intros Hn Hi. rewrite <- (Z.mod_small n (2 ^ 61)) by done.
  apply Z.mod_pow2_bits_high. lia.
Qed.

Lemma chan_addr_bits c i :
  chan_addr_wf c → 0 <= i →
  Z.testbit (chan_addr_value c) i =
    if i <? 61 then Z.testbit (ca_offset c) i
    else if i =? 61 then ca_is_flat c
    else if i =? 62 then ca_mw_idx c =? 1
    else if i =? 63 then ca_one c else false.
Proof.
  intros [Ho Hm] Hi. unfold chan_addr_value.
  rewrite !Z.lor_spec, !Z.shiftl_spec by lia.
  assert (∀ b j, Z.testbit (Z.b2z b) j = b && (j =? 0)) as Hb.
  { intros b j. destruct b; simpl; [|by rewrite Z.testbit_0_l].
    destruct (Z.eqb_spec j 0) as [->|]; [done|].
    destruct (Z.ltb_spec j 0); [by apply Z.testbit_neg_r|].
    change 1 with (2 ^ 0). rewrite Z.pow2_bits_eqb by lia. lia. }
  assert (Z.testbit (ca_mw_idx c) (i - 62) = (ca_mw_idx c =? 1) && (i - 62 =? 0)) as Hmw.
  { destruct Hm as [-> | ->]; [by rewrite Z.testbit_0_l|]. apply (Hb true). }
  rewrite !Hb, Hmw.
  destruct (Z.ltb_spec i 61).
  - replace (i - 61 =? 0) with false by lia. replace (i - 62 =? 0) with false by lia.
    replace (i - 63 =? 0) with false by lia. by rewrite !andb_false_r, !orb_false_r.
  - rewrite testbit_high by done.
    destruct (Z.eqb_spec i 61) as [->|]; [simpl; by rewrite andb_true_r, !andb_false_r, !orb_false_r|].
    destruct (Z.eqb_spec i 62) as [->|]; [simpl; by rewrite andb_true_r, !andb_false_r, !orb_false_r|].
    destruct (Z.eqb_spec i 63) as [->|]; [simpl; by rewrite andb_true_r, !andb_false_r|].
    replace (i - 61 =? 0) with false by lia. replace (i - 62 =? 0) with false by lia.
    replace (i - 63 =? 0) with false by lia. by rewrite !andb_false_r.
Qed.

Lemma chan_addr_value_nonneg c : chan_addr_wf c → 0 <= chan_addr_value c.
Proof.
  intros [Ho Hm]. unfold chan_addr_value.
  rewrite !Z.lor_nonneg, !Z.shiftl_nonneg. destruct (ca_is_flat c), (ca_one c); simpl; lia.
Qed.

Lemma chan_addr_decode c : chan_addr_wf c → chan_addr_of_value (chan_addr_value c) = c.
Proof.
  intros Hwf. unfold chan_addr_of_value. rewrite !chan_addr_bits by (done || lia). simpl.
  pose proof Hwf as [Ho Hm]. destruct c as [o f m t]; simpl in *. f_equal.
  - apply Z.bits_inj'. intros i Hi. rewrite Z.land_spec, chan_addr_bits by done. simpl.
    destruct (Z.ltb_spec i 61).
    + by rewrite Z.ones_spec_low, andb_true_r by lia.
    + rewrite Z.ones_spec_high, andb_false_r by lia. by rewrite testbit_high by lia.
  - destruct Hm as [-> | ->]; done.
Qed.

(** ** The engine *)

Section DmaLemmas.
Context `{K : Kernel}.

Lemma tx_status_frame s :
  io_log (ntc_dma_chan_tx_status s) = io_log s
  ∧ dma_blocked (io_chan (ntc_dma_chan_tx_status s)) = dma_blocked (io_chan s)
  ∧ dma_flush (io_chan (ntc_dma_chan_tx_status s)) = dma_flush (io_chan s).
Proof. done. Qed.

Lemma flush_frame s :
  io_log (ntc_dma_flush s) = io_log s
  ∧ dma_blocked (io_chan (ntc_dma_flush s)) = dma_blocked (io_chan s)
  ∧ dma_flush (io_chan (ntc_dma_flush s)) = dma_flush (io_chan s).
Proof. unfold ntc_dma_flush, ntc_req_submit. by repeat zcase. Qed.

Lemma prep_retry_frame n s b s' :
  prep_retry n s = (b, s') →
  io_log s' = io_log s
  ∧ dma_blocked (io_chan s') = dma_blocked (io_chan s)
  ∧ dma_flush (io_chan s') = dma_flush (io_chan s).
Proof.
  revert s. induction n as [|n IH]; intros s; simpl.
  - by intros [= <- <-].
  - unfold prep. destruct (dmaengine_prep _).
    + by intros [= <- <-].
    + intros H. apply IH in H. done.
Qed.

(** What a request does to the engine's log. *)
Definition dma_outcome (dst : Z) (src : dma_src) (len : Z) (fence : bool)
    (rc : Z) (s s' : dma_io) : Prop :=
  (rc = 0 ∧ len ≠ 0 ∧ io_log s' = io_log s ++ [mk_dma_req dst src len fence])
  ∨ (- 4096 < rc < 0 ∧ io_log s' = io_log s).

Definition dma_balanced (s s' : dma_io) : Prop :=
  dma_blocked (io_chan s') = dma_blocked (io_chan s)
  ∧ dma_flush (io_chan s') = dma_flush (io_chan s).

Lemma req_submit_tx_outcome dst src len fence s rc s' :
  len ≠ 0 → req_submit_tx dst src len fence s = (rc, s') →
  dma_outcome dst src len fence rc s s' ∧ dma_balanced s s' ∧ (rc = 0 ∨ rc = - EIO).
Proof.
  intros Hl. unfold req_submit_tx, dma_outcome, dma_balanced.
  destruct (_ <? 0); intros [= <- <-]; simpl.
  - split; [|split; [done|by right]]. right. unfold EIO. split; [lia|done].
  - split; [|split; [done|by left]]. left. done.
Qed.

Lemma req_memcpy_n_outcome n dst src len fence w s rc s' :
  ntc_req_memcpy_n n dst src len fence w s = (rc, s') →
  dma_outcome dst src len fence rc s s' ∧ dma_balanced s s'
  ∧ (rc = 0 ∨ rc = - EINVAL ∨ rc = - EAGAIN ∨ rc = - ENOMEM ∨ rc = - EIO).
Proof.
  unfold ntc_req_memcpy_n.
  destruct (Z.eqb_spec len 0).
  { intros [= <- <-]. split; [right; split; [done|done]|]. split; [done|]. auto. }
  destruct (_ && _).
  { intros [= <- <-]. split; [right; split; [done|done]|]. split; [done|]. auto. }
  unfold prep at 1. destruct (dmaengine_prep (io_time s)).
  { intros H. apply req_submit_tx_outcome in H as (Ho & Hb & Hr); [|done].
    split; [done|]. split; [done|]. intuition. }
  destruct (prep_retry _ _) as [b s1] eqn:Hp. apply prep_retry_frame in Hp as (Hl & Hb & Hf).
  simpl in Hl, Hb, Hf. unfold dma_outcome, dma_balanced. destruct b.
  { intros H. apply req_submit_tx_outcome in H as (Ho & [Hb' Hf'] & Hr); [|done].
    unfold dma_outcome in Ho. simpl in *. rewrite Hl in Ho. split; [done|]. split; [lia|]. intuition. }
  unfold prep.
  pose proof (flush_frame (io_add_flush 1 s1)) as (Fl & Fb & Ff). simpl in Fl, Fb, Ff.
  destruct (dmaengine_prep _).
  - intros H. apply req_submit_tx_outcome in H as (Ho & [Hb' Hf'] & Hr); [|done].
    unfold dma_outcome in Ho. simpl in *. rewrite Fl, Hl in Ho. split; [done|]. split; [lia|]. intuition.
  - intros [= <- <-]. simpl. rewrite Fl. split; [by right|]. split; [lia|]. auto.
Qed.

Lemma req_memcpy_outcome dst src len fence w s rc s' :
  ntc_req_memcpy dst src len fence w s = (rc, s') →
  dma_outcome dst src len fence rc s s'.
Proof. intros H. by apply req_memcpy_n_outcome in H as [? _]. Qed.

Lemma req_imm_outcome dst data fence s rc s' :
  ntc_req_imm dst data fence s = (rc, s') →
  dma_outcome dst (Imm data) (Z.of_nat (length data)) fence rc s s'.
Proof.
  unfold ntc_req_imm.
  destruct (_ || _); [intros [= <- <-]; by right|].
  destruct (kalloc _); simpl; [|intros [= <- <-]; by right].
  destruct (dma_map_single _); [|intros [= <- <-]; by right].
  destruct (ntc_req_memcpy _ _ _ _ _ _) as [r s1] eqn:Hr.
  apply req_memcpy_outcome in Hr as [(-> & Hl & Hlog) | [Hneg Hlog]].
  - intros [= <- <-]. by left.
  - rewrite (proj2 (Z.ltb_lt _ _) (proj2 Hneg)). intros [= <- <-]. by right.
Qed.

End DmaLemmas.

#[export] Hint Unfold dma_outcome dma_balanced : core.

(** ** Windows

    The hardware relates a peer's window to the memory behind it: past its
    dead zone, the window of the peer and the own window of the exporting side
    run in parallel.  [window_to_own] is the address in the exporter's memory
    that an access to a bus address of the peer's window reaches. *)

Definition window_to_own (om : ntc_own_mw) (pm : ntc_peer_mw) (a : Z) : Z :=
  om_base om + (a - (pm_base pm + pm_dead_zone_size pm)).

Record window_pair (om : ntc_own_mw) (pm : ntc_peer_mw) : Prop := {
  wp_idx : om_mw_idx om = 0 ∨ om_mw_idx om = 1;
  wp_own : 0 <= om_base om ∧ 0 <= om_size om <= 2 ^ 60;
  wp_dead : 0 <= pm_dead_zone_size pm;
  wp_size : pm_dead_zone_size pm + om_size om <= pm_size pm;
  wp_trans : pm_dead_zone_size pm + om_size om <= pm_trans_len pm;
  wp_base : 0 < pm_base pm ∧ pm_base pm + pm_size pm < 2 ^ 64 }.

(** An exported buffer lies in its window. *)
Record export_wf (b : ntc_export_buf) : Prop := {
  ew_flat : eb_is_flat b = false;
  ew_addr : 0 < eb_dma_addr b;
  ew_low : om_base (eb_own_mw b) <= eb_dma_addr b;
  ew_size : 0 < eb_size b;
  ew_high : eb_dma_addr b + eb_size b <= om_base (eb_own_mw b) + om_size (eb_own_mw b) }.

Lemma pow2_60 : 2 ^ 60 = 1152921504606846976. Proof. reflexivity. Qed.
Lemma pow2_61 : 2 ^ 61 = 2305843009213693952. Proof. reflexivity. Qed.

Ltac nsolve := rewrite ?pow2_60, ?pow2_61 in *; wsolve.

Lemma partial_desc_shape b off len :
  export_wf b → om_size (eb_own_mw b) <= 2 ^ 60 →
  0 <= off → 0 < len → off + len <= eb_size b →
  ntc_export_buf_make_partial_desc b off len =
    (0, Some (mk_desc (mk_chan_addr (eb_dma_addr b - om_base (eb_own_mw b) + off) false
                         (om_mw_idx (eb_own_mw b)) true) len)).
Proof.
  intros [Hf Ha Hlo Hs Hhi] Hom Hoff Hlen Hb.
  unfold ntc_export_buf_make_partial_desc, ntc_export_buf_make_desc, ntc_segment_valid.
  rewrite Hf. destruct (Z.eqb_spec (eb_dma_addr b) 0); [lia|].
  destruct (Z.leb_spec (eb_size b) off); [lia|].
  destruct (Z.ltb_spec (eb_size b) len); [lia|]. rewrite u64_small by nsolve.
  destruct (Z.ltb_spec (eb_size b) (off + len)); [lia|]. simpl.
  rewrite Zplus_mod_idemp_l, Z.mod_small by nsolve. done.
Qed.

(** ** Properties *)

(** [ntc_segment_valid] accepts exactly the segments that start inside the
    buffer and end at or before its end, for every buffer of at most 2^63
    bytes and every 64 bit offset and length. *)
Theorem ntc_segment_valid_iff size off len :
  size <= 2 ^ 63 → is_u64 off → is_u64 len →
  ntc_segment_valid size off len = true ↔ off < size ∧ off + len <= size.
Proof.
  intros Hs Ho Hl. split.
  - apply segment_valid_bounds; unfold is_u64 in *; lia.
  - intros [H1 H2]. unfold ntc_segment_valid. rewrite u64_small by wsolve.
    unfold is_u64 in *. repeat zcase; lia || done.
Qed.

Lemma ntc_segment_valid_iff_witness :
  (ntc_segment_valid 4096 4000 96 = true ↔ 4000 < 4096 ∧ 4000 + 96 <= 4096)
  ∧ ntc_segment_valid 4096 4000 96 = true ∧ ntc_segment_valid 4096 4000 97 = false.
Proof.
  split; [|split; reflexivity].
  apply (ntc_segment_valid_iff 4096 4000 96); try split; (reflexivity || discriminate).
Defined.

(** Beyond 2^63 bytes the sum in [ntc_segment_valid] wraps around and the
    test accepts a segment that ends past the buffer. *)
Lemma segment_valid_overflow :
  ntc_segment_valid (2 ^ 64 - 8) (2 ^ 64 - 16) 64 = true.
Proof. reflexivity. Qed.

(** C5: the description of a part of an exported buffer, after it has travelled
    as the 64 bit [value] of its channel address, makes the peer compute an
    address inside its window which the window translates back to exactly that
    part of the buffer; and the exporter recovers the offset and the length of
    the part from the description. *)
Theorem export_desc_reaches_buffer (ntc : ntc_dev) (b : ntc_export_buf) pm off len :
  window_pair (eb_own_mw b) pm → export_wf b →
  peer_mws ntc !! Z.to_nat (om_mw_idx (eb_own_mw b)) = Some pm →
  0 <= off → 0 < len → off + len <= eb_size b →
  ∃ d a io,
    ntc_export_buf_make_partial_desc b off len = (0, Some d)
    ∧ ntc_peer_addr ntc (chan_addr_of_value (chan_addr_value (rd_chan_addr d))) = Some (a, io)
    ∧ (∀ i, 0 <= i < len →
         pm_base pm <= a + i < pm_base pm + pm_size pm
         ∧ window_to_own (eb_own_mw b) pm (a + i) = eb_dma_addr b + off + i)
    ∧ ntc_export_buf_get_part_params b d = (0, (off, len)).
Proof.
  intros Hp Hwf Hpm Ho Hl Hb.
  pose proof (wp_own _ _ Hp). rewrite partial_desc_shape by (done || lia).
  destruct Hp as [Hi _ Hd Hsz Htr Hbase], Hwf as [Hfl Ha Hlo Hs Hhi].
  set (c := mk_chan_addr _ _ _ _).
  assert (chan_addr_wf c) as Hc by (split; [simpl; nsolve|done]).
  exists (mk_desc c len), (pm_base pm + (eb_dma_addr b - om_base (eb_own_mw b) + off + pm_dead_zone_size pm)).
  eexists. split; [done|].
  cbn [rd_chan_addr]. rewrite chan_addr_decode by done. split; [|split].
  - unfold ntc_peer_addr, ntc_peer_mw_of. cbn [c ca_mw_idx ca_is_flat ca_offset negb andb].
    replace (NTC_MAX_NUM_MWS <=? om_mw_idx (eb_own_mw b)) with false
      by (unfold NTC_MAX_NUM_MWS; lia).
    rewrite Hpm. repeat wstep.
    rewrite (proj2 (Z.leb_gt _ _)) by lia. rewrite (proj2 (Z.leb_gt _ _)) by lia.
    by rewrite (proj2 (Z.eqb_neq _ _)) by lia.
  - intros i Hi'. unfold window_to_own. lia.
  - unfold ntc_export_buf_get_part_params, ntc_segment_valid.
    cbn [c rd_chan_addr rd_size ca_mw_idx ca_is_flat ca_offset].
    replace (eb_dma_addr b - om_base (eb_own_mw b) + off - (eb_dma_addr b - om_base (eb_own_mw b)))
      with off by lia.
    rewrite (s64_small off) by nsolve. repeat wstep. rewrite Hfl, Z.eqb_refl.
    by repeat (zcase; try lia).
Qed.

Definition ex_own_mw : ntc_own_mw := mk_own_mw 65536 65536 8192 4096 8192 1.
Definition ex_peer_mw : ntc_peer_mw := mk_peer_mw 1048576 16384 1048576 4096 16384 1.
Definition ex_ntc : ntc_dev := mk_ntc_dev [ex_own_mw; ex_own_mw] [ex_peer_mw; ex_peer_mw].
Definition ex_export : ntc_export_buf := mk_export_buf 512 66560 ex_own_mw 66560 false.

Lemma export_desc_reaches_buffer_witness :
  ∃ d a io,
    ntc_export_buf_make_partial_desc ex_export 16 64 = (0, Some d)
    ∧ ntc_peer_addr ex_ntc (chan_addr_of_value (chan_addr_value (rd_chan_addr d))) = Some (a, io)
    ∧ (∀ i, 0 <= i < 64 →
         1048576 <= a + i < 1048576 + 16384
         ∧ window_to_own ex_own_mw ex_peer_mw (a + i) = 66560 + 16 + i)
    ∧ ntc_export_buf_get_part_params ex_export d = (0, (16, 64)).
Proof.
  apply (export_desc_reaches_buffer ex_ntc ex_export ex_peer_mw 16 64);
    [| |reflexivity|discriminate|reflexivity|discriminate].
  - split; [by right|..]; repeat split; (reflexivity || discriminate).
  - split; (reflexivity || discriminate).
Defined.

(** C6: a copy request either fails with a negative error and leaves the
    engine's queue as it was, or returns 0 and has queued exactly one request
    that reads the asked segment of the source, writes the asked segment of
    the destination and stays inside both; whatever the engine does during
    the retries and the flush, the [dma_blocked] and [dma_flush] counters are
    back at their values, so that later requests are not refused. *)
Theorem ntc_request_memcpy_spec `{K : Kernel} dst dst_off src src_off len fence w s :
  is_u64 dst_off → is_u64 src_off → is_u64 len →
  rb_size dst <= 2 ^ 63 → lb_size src <= 2 ^ 62 →
  rb_dma_addr dst + rb_size dst < 2 ^ 64 → lb_dma_addr src + lb_size src < 2 ^ 64 →
  0 <= rb_dma_addr dst → 0 <= lb_dma_addr src →
  let '(rc, s') := ntc_request_memcpy dst dst_off src src_off len fence w s in
  dma_balanced s s'
  ∧ ((rc = 0 ∧ 0 < len
      ∧ dst_off + len <= rb_size dst ∧ src_off + len <= lb_size src
      ∧ io_log s' = io_log s ++
          [mk_dma_req (rb_dma_addr dst + dst_off) (Mem (lb_dma_addr src + src_off)) len fence])
     ∨ ((rc = - EINVAL ∨ rc = - EAGAIN ∨ rc = - ENOMEM ∨ rc = - EIO)
        ∧ io_log s' = io_log s)).
Proof.
  intros Hdo Hso Hl Hds Hss Hde Hse Hda Hsa. unfold ntc_request_memcpy.
  destruct (ntc_segment_valid (lb_size src) _ _) eqn:Hs; simpl; [|auto 6].
  destruct (ntc_segment_valid (rb_size dst) _ _) eqn:Hd; simpl; [|auto 6].
  apply segment_valid_bounds in Hs, Hd; try (unfold is_u64 in *; lia).
  repeat wstep. destruct (ntc_req_memcpy _ _ _ _ _ _) as [rc s'] eqn:Hr.
  apply req_memcpy_n_outcome in Hr as (Ho & Hb & Hrc). split; [done|].
  destruct Ho as [(-> & Hne & Hlog) | [Hneg Hlog]].
  - left. unfold is_u64 in *. repeat split; (lia || done).
  - right. split; [|done]. unfold EINVAL, EAGAIN, ENOMEM, EIO in *. lia.
Qed.

Lemma ntc_request_memcpy_spec_witness :
  let '(rc, s') :=
    ntc_request_memcpy (K := kernel_good) (mk_remote_buf 4096 1048576 0) 64
      (mk_local_buf 256 true true 8192 8192) 32 128 false NTC_DMA_WAIT
      (mk_io 0 (mk_dma_chan 0 0 0 0 0) [] 0 0) in
  dma_balanced (mk_io 0 (mk_dma_chan 0 0 0 0 0) [] 0 0) s'
  ∧ ((rc = 0 ∧ 0 < 128 ∧ 64 + 128 <= 4096 ∧ 32 + 128 <= 256
      ∧ io_log s' = [mk_dma_req 1048640 (Mem 8224) 128 false])
     ∨ ((rc = - EINVAL ∨ rc = - EAGAIN ∨ rc = - ENOMEM ∨ rc = - EIO)
        ∧ io_log s' = [])).
Proof.
  apply (ntc_request_memcpy_spec (K := kernel_good) (mk_remote_buf 4096 1048576 0) 64
           (mk_local_buf 256 true true 8192 8192) 32 128 false NTC_DMA_WAIT
           (mk_io 0 (mk_dma_chan 0 0 0 0 0) [] 0 0));
    unfold is_u64; try split; (reflexivity || discriminate).
Defined.

End Ntc.
