(* ===== verification/Wr.v ===== *)
(** * Work requests, scatter/gather entries and wire sizes
    (ntrdma_wr.h, ntrdma_sg.h, ntrdma_ioctl.h, the structures of ntrdma_cmd.h)

    The data that travels in the rings, the classification of operation
    codes, and the sizes that the ring arithmetic multiplies by. *)

From S2P Require Import Prelude Kernel Ntc.
Import Ntc.

Module Wr.

(** ** Codes *)

Definition NTRDMA_RESERVED_DMA_LEKY : Z := 65535.

Definition IB_WR_RDMA_WRITE : Z := 0.
Definition IB_WR_RDMA_WRITE_WITH_IMM : Z := 1.
Definition IB_WR_SEND : Z := 2.
Definition IB_WR_SEND_WITH_IMM : Z := 3.
Definition IB_WR_RDMA_READ : Z := 4.
Definition NTRDMA_WR_RECV : Z := 5.
Definition NTRDMA_WR_RECV_INV : Z := 6.
Definition NTRDMA_WR_RECV_IMM : Z := 7.
Definition NTRDMA_WR_RECV_RDMA : Z := 8.
Definition NTRDMA_WR_SEND_INV : Z := 9.

Definition NTRDMA_WC_SUCCESS : Z := 0.
Definition NTRDMA_WC_ERR_ABORTED : Z := 1.
Definition NTRDMA_WC_ERR_CORRUPT : Z := 2.
Definition NTRDMA_WC_ERR_OPCODE : Z := 3.
Definition NTRDMA_WC_ERR_RECV_NOT_READY : Z := 4.
Definition NTRDMA_WC_ERR_RECV_MISSING : Z := 5.
Definition NTRDMA_WC_ERR_RECV_OVERFLOW : Z := 6.
Definition NTRDMA_WC_ERR_RDMA_KEY : Z := 7.
Definition NTRDMA_WC_ERR_RDMA_RANGE : Z := 8.
Definition NTRDMA_WC_ERR_RDMA_ACCESS : Z := 9.
Definition NTRDMA_WC_ERR_LOC_PORT : Z := 10.

Definition IB_SEND_SIGNALED : Z := 2.
Definition IB_SEND_INLINE : Z := 8.

(** ** Data *)

Record ib_sge := mk_sge { sge_addr : Z; sge_length : Z; sge_lkey : Z }.

(** The union of [ntrdma_wr_rcv_sge_shadow], selected by [local_key]. *)
Inductive shadow_local :=
  | LocalAddr (addr : Z)
  | RcvDmaBuf (buf : ntc_local_buf).

Record ntrdma_wr_rcv_sge_shadow := mk_shadow {
  sh_local_key : Z;
  sh_local : shadow_local;
  sh_exp_buf : ntc_export_buf }.

(** The union of [ntrdma_wr_rcv_sge], selected by [shadow == NULL]. *)
Inductive ntrdma_wr_rcv_sge :=
  | RcvSge (sge : ib_sge)
  | RcvShadow (shadow : ntrdma_wr_rcv_sge_shadow) (exp_buf_desc : ntc_remote_buf_desc).

(** What follows a send entry in its ring slot: a gather list, or the inline
    data; [sg_count] and [inline_len] are the same field. *)
Record ntrdma_send_wqe := mk_send_wqe {
  sw_ulp_handle : Z;
  sw_op_code : Z;
  sw_op_status : Z;
  sw_recv_key : Z;
  sw_rdma_sge : ib_sge;
  sw_imm_data : Z;
  sw_flags : Z;
  sw_sg_count : Z;
  sw_snd_sg_list : list ib_sge;
  sw_inline_data : list Z }.

Record ntrdma_recv_wqe := mk_recv_wqe {
  rw_ulp_handle : Z;
  rw_op_code : Z;
  rw_op_status : Z;
  rw_sg_count : Z;
  rw_rcv_sg_list : list ntrdma_wr_rcv_sge }.

Record ntrdma_cqe := mk_cqe {
  cqe_ulp_handle : Z;
  cqe_op_code : Z;
  cqe_op_status : Z;
  cqe_rdma_len : Z;
  cqe_imm_data : Z;
  cqe_flags : Z }.

(** ** Scatter/gather entries *)

Definition ntrdma_ib_sge_reserved (s : ib_sge) : bool :=
  sge_lkey s =? NTRDMA_RESERVED_DMA_LEKY.

Definition ntrdma_wr_rcv_sge_len (s : ntrdma_wr_rcv_sge) : Z :=
  match s with
  | RcvSge sge => sge_length sge
  | RcvShadow _ d => rd_size d
  end.

Definition ntrdma_wr_rcv_sge_remote_key (s : ntrdma_wr_rcv_sge) : Z :=
  match s with
  | RcvSge sge => sge_lkey sge
  | RcvShadow _ _ => NTRDMA_RESERVED_DMA_LEKY
  end.

(** ** Classification of operations *)

Definition ntrdma_send_wqe_is_inline (w : ntrdma_send_wqe) : bool :=
  (sw_op_code w =? IB_WR_RDMA_WRITE) && negb (Z.land (sw_flags w) IB_SEND_INLINE =? 0).

Definition ntrdma_wr_status_no_recv (op_status : Z) : bool :=
  (op_status =? NTRDMA_WC_ERR_RECV_NOT_READY)
  || (op_status =? NTRDMA_WC_ERR_RECV_MISSING).

Definition ntrdma_wr_code_is_recv (op_code : Z) : bool :=
  (op_code =? NTRDMA_WR_RECV) || (op_code =? NTRDMA_WR_RECV_INV)
  || (op_code =? NTRDMA_WR_RECV_IMM) || (op_code =? NTRDMA_WR_RECV_RDMA).

Definition ntrdma_wr_code_is_send (op_code : Z) : bool :=
  (op_code =? IB_WR_SEND) || (op_code =? NTRDMA_WR_SEND_INV)
  || (op_code =? IB_WR_SEND_WITH_IMM) || (op_code =? IB_WR_RDMA_WRITE_WITH_IMM).

Definition ntrdma_wr_code_is_rdma (op_code : Z) : bool :=
  (op_code =? IB_WR_RDMA_WRITE_WITH_IMM) || (op_code =? IB_WR_RDMA_WRITE)
  || (op_code =? IB_WR_RDMA_READ).

Definition ntrdma_wr_code_push_data (op_code : Z) : bool :=
  (op_code =? IB_WR_SEND) || (op_code =? NTRDMA_WR_SEND_INV)
  || (op_code =? IB_WR_SEND_WITH_IMM) || (op_code =? IB_WR_RDMA_WRITE_WITH_IMM)
  || (op_code =? IB_WR_RDMA_WRITE).

Definition ntrdma_wr_code_pull_data (op_code : Z) : bool :=
  op_code =? IB_WR_RDMA_READ.

(** ** Layout

    Structure sizes under the x86-64 ABI: each field is given by its size
    and alignment, a structure is padded to its largest alignment. *)

Definition align_up (n a : Z) : Z := (n + a - 1) / a * a.

Fixpoint fields_end (fs : list (Z * Z)) (off : Z) : Z :=
  match fs with
  | [] => off
  | (sz, al) :: fs => fields_end fs (align_up off al + sz)
  end.

Definition struct_align (fs : list (Z * Z)) : Z := fold_right Z.max 1 (snd <$> fs).
Definition struct_size (fs : list (Z * Z)) : Z :=
  align_up (fields_end fs 0) (struct_align fs).

Definition f_u16 : Z * Z := (2, 2).
Definition f_u32 : Z * Z := (4, 4).
Definition f_u64 : Z * Z := (8, 8).
Definition f_struct (fs : list (Z * Z)) : Z * Z := (struct_size fs, struct_align fs).

(** A flexible array member takes no room but forces its alignment. *)
Definition f_flex (fs : list (Z * Z)) : Z * Z := (0, struct_align fs).

Definition l_remote_buf_desc : list (Z * Z) := [f_u64; f_u64].
Definition l_ib_sge : list (Z * Z) := [f_u64; f_u32; f_u32].
Definition l_send_wqe : list (Z * Z) :=
  [f_u64; f_u16; f_u16; f_u32; f_struct l_ib_sge; f_u32; f_u32; f_u32].
Definition l_wr_rcv_sge : list (Z * Z) := [f_u64; f_struct l_ib_sge].
Definition l_recv_wqe : list (Z * Z) := [f_u64; f_u16; f_u16; f_u32; f_flex l_wr_rcv_sge].
Definition l_cqe : list (Z * Z) := [f_u64; f_u16; f_u16; f_u32; f_u32; f_u32].

Definition l_cmd_hdr : list (Z * Z) := [f_u32; f_u32; f_u64].
Definition l_cmd_mr_create : list (Z * Z) :=
  [f_struct l_cmd_hdr; f_u32; f_u32; f_u32; f_u64; f_u64; f_u32; f_u32;
   f_flex l_remote_buf_desc].
Definition l_cmd_mr_delete : list (Z * Z) := [f_struct l_cmd_hdr; f_u32].
Definition l_cmd_mr_append : list (Z * Z) :=
  [f_struct l_cmd_hdr; f_u32; f_u32; f_u32; f_flex l_remote_buf_desc].
Definition l_cmd_qp_create : list (Z * Z) :=
  f_struct l_cmd_hdr :: replicate 10 f_u32
  ++ [f_struct l_remote_buf_desc; f_u64; f_u32].
Definition l_cmd_qp_delete : list (Z * Z) := [f_struct l_cmd_hdr; f_u32].
Definition l_cmd_qp_modify : list (Z * Z) :=
  [f_struct l_cmd_hdr; f_u32; f_u32; f_u32; f_u32].

Definition l_rsp_hdr : list (Z * Z) := [f_u32; f_u32; f_u32].
Definition l_rsp_status : list (Z * Z) := [f_struct l_rsp_hdr; f_u32].
Definition l_rsp_qp_create : list (Z * Z) :=
  [f_struct l_rsp_hdr; f_u32; f_u32; f_struct l_remote_buf_desc; f_u64;
   f_struct l_remote_buf_desc; f_u64].

Definition NTRDMA_CMD_SIZE : Z := 256.
Definition NTRDMA_RSP_SIZE : Z := 64.

(** A union is as large as its largest member, padded to the alignment. *)
Definition union_size (ms : list (Z * Z)) : Z :=
  align_up (fold_right Z.max 0 (fst <$> ms)) (fold_right Z.max 1 (snd <$> ms)).

Definition sizeof_ntrdma_cmd : Z :=
  union_size [f_struct l_cmd_hdr; f_struct l_cmd_mr_create; f_struct l_cmd_mr_delete;
              f_struct l_cmd_mr_append; f_struct l_cmd_qp_create;
              f_struct l_cmd_qp_delete; f_struct l_cmd_qp_modify; (NTRDMA_CMD_SIZE, 1)].

Definition sizeof_ntrdma_rsp : Z :=
  union_size [f_struct l_rsp_hdr; f_struct l_rsp_status; f_struct l_rsp_qp_create;
              (NTRDMA_RSP_SIZE, 1)].

Definition NTRDMA_CMD_MR_CREATE_SG_CAP : Z :=
  (sizeof_ntrdma_cmd - struct_size l_cmd_mr_create) / struct_size l_remote_buf_desc.
Definition NTRDMA_CMD_MR_APPEND_SG_CAP : Z :=
  (sizeof_ntrdma_cmd - struct_size l_cmd_mr_append) / struct_size l_remote_buf_desc.

Definition sizeof_send_wqe : Z := struct_size l_send_wqe.
Definition sizeof_recv_wqe : Z := struct_size l_recv_wqe.
Definition sizeof_wr_rcv_sge : Z := struct_size l_wr_rcv_sge.
Definition sizeof_ib_sge : Z := struct_size l_ib_sge.
Definition sizeof_cqe : Z := struct_size l_cqe.

Definition ntrdma_wqe_snd_sg_list_size (sg_cap : Z) : Z := u64 (sg_cap * sizeof_ib_sge).
Definition ntrdma_wqe_snd_inline_size (inline_cap : Z) : Z := inline_cap.
Definition ntrdma_wqe_rcv_sg_list_size (sg_cap : Z) : Z := u64 (sg_cap * sizeof_wr_rcv_sge).

Definition ntrdma_send_wqe_size (sg_cap inline_cap : Z) : Z :=
  u64 (sizeof_send_wqe
       + Z.max (ntrdma_wqe_snd_sg_list_size sg_cap) (ntrdma_wqe_snd_inline_size inline_cap)).

Definition ntrdma_recv_wqe_size (sg_cap : Z) : Z :=
  u64 (sizeof_recv_wqe + ntrdma_wqe_rcv_sg_list_size sg_cap).

(** ** Properties *)

(** The layout the compiler chooses. *)
Lemma wire_sizes :
  sizeof_ntrdma_cmd = 256 ∧ sizeof_ntrdma_rsp = 72
  ∧ NTRDMA_CMD_MR_CREATE_SG_CAP = 12 ∧ NTRDMA_CMD_MR_APPEND_SG_CAP = 14
  ∧ sizeof_send_wqe = 48 ∧ sizeof_recv_wqe = 16 ∧ sizeof_wr_rcv_sge = 24
  ∧ sizeof_ib_sge = 16 ∧ sizeof_cqe = 24.
Proof. vm_compute. done. Qed.

End Wr.
