(* ===== verification/Mem.v ===== *)
(** * Memory regions as seen by the data path (ntrdma_mr.h)

    The data of local and remote memory regions, and the interface [MemStore]
    that the resource tables promise to the code that moves data: finding a
    region takes a reference, which the user of the region gives back. *)

From S2P Require Import Prelude Kernel Ntc.
Import Ntc.

Module Mem.

(** [sg_count] is the length of [sg_list]; [key] is the key of the embedded
    resource. *)
Record ntrdma_mr := mk_mr {
  mr_key : Z;
  mr_pd_key : Z;
  mr_access : Z;
  mr_addr : Z;
  mr_len : Z;
  mr_sg_list : list ntc_mr_buf }.

Record ntrdma_rmr := mk_rmr {
  rmr_key : Z;
  rmr_pd_key : Z;
  rmr_access : Z;
  rmr_addr : Z;
  rmr_len : Z;
  rmr_sg_list : list ntc_remote_buf }.

(** The tables of a device, of type [W].  [mr_of w key] is the region a look-up
    finds; [mr_get] and [mr_put] take and give back a reference to it. *)
Class MemStore (W : Type) := {
  mr_of : W → Z → option ntrdma_mr;
  rmr_of : W → Z → option ntrdma_rmr;
  mr_get : Z → W → W;
  mr_put : Z → W → W;
  rmr_get : Z → W → W;
  rmr_put : Z → W → W;
  mem_wf : W → Prop }.

(** What the tables promise: references do not change what is found, giving
    back a reference that was taken leaves no trace, and the references of
    local and of remote regions are independent. *)
Class MemStoreOk (W : Type) `{M : MemStore W} : Prop := {
  mr_of_mr_get w k j : mr_of (mr_get k w) j = mr_of w j;
  mr_of_rmr_get w k j : mr_of (rmr_get k w) j = mr_of w j;
  rmr_of_mr_get w k j : rmr_of (mr_get k w) j = rmr_of w j;
  rmr_of_rmr_get w k j : rmr_of (rmr_get k w) j = rmr_of w j;
  mr_put_get w k m : mem_wf w → mr_of w k = Some m → mr_put k (mr_get k w) = w;
  rmr_put_get w k m : mem_wf w → rmr_of w k = Some m → rmr_put k (rmr_get k w) = w;
  mr_rmr_get_comm w k j : mr_get k (rmr_get j w) = rmr_get j (mr_get k w);
  mr_of_key w k m : mem_wf w → mr_of w k = Some m → mr_key m = k;
  rmr_of_key w k m : mem_wf w → rmr_of w k = Some m → rmr_key m = k;
  mem_wf_mr_get w k m : mem_wf w → mr_of w k = Some m → mem_wf (mr_get k w);
  mem_wf_rmr_get w k m : mem_wf w → rmr_of w k = Some m → mem_wf (rmr_get k w) }.

Section Look.
Context {W : Type} `{M : MemStore W}.

(** [ntrdma_dev_mr_look] and [ntrdma_dev_rmr_look]: the region and, when it is
    found, one more reference to it. *)
Definition ntrdma_dev_mr_look (k : Z) (w : W) : option ntrdma_mr * W :=
  match mr_of w k with
  | Some m => (Some m, mr_get k w)
  | None => (None, w)
  end.

Definition ntrdma_dev_rmr_look (k : Z) (w : W) : option ntrdma_rmr * W :=
  match rmr_of w k with
  | Some m => (Some m, rmr_get k w)
  | None => (None, w)
  end.

End Look.

(** ** A small store

    Two lists of regions with one count of references each, for concrete
    inputs. *)

Record list_store := mk_store {
  st_mrs : list ntrdma_mr;
  st_rmrs : list ntrdma_rmr;
  st_mr_refs : Z;
  st_rmr_refs : Z }.

Fixpoint lookup_by {A} (key : A → Z) (l : list A) (k : Z) : option A :=
  match l with
  | [] => None
  | x :: l => if key x =? k then Some x else lookup_by key l k
  end.

#[export] Instance list_store_mem : MemStore list_store := {|
  mr_of s k := lookup_by mr_key (st_mrs s) k;
  rmr_of s k := lookup_by rmr_key (st_rmrs s) k;
  mr_get _ s := mk_store (st_mrs s) (st_rmrs s) (st_mr_refs s + 1) (st_rmr_refs s);
  mr_put _ s := mk_store (st_mrs s) (st_rmrs s) (st_mr_refs s - 1) (st_rmr_refs s);
  rmr_get _ s := mk_store (st_mrs s) (st_rmrs s) (st_mr_refs s) (st_rmr_refs s + 1);
  rmr_put _ s := mk_store (st_mrs s) (st_rmrs s) (st_mr_refs s) (st_rmr_refs s - 1);
  mem_wf _ := True |}.

Lemma lookup_by_key {A} (key : A → Z) l k x : lookup_by key l k = Some x → key x = k ∧ x ∈ l.
Proof.
  induction l as [|y l IH]; simpl; [done|]. destruct (Z.eqb_spec (key y) k).
  - intros [= ->]. split; [done|]. constructor.
  - intros H. apply IH in H as [? ?]. split; [done|]. by constructor.
Qed.

#[export] Instance list_store_ok : MemStoreOk list_store.
Proof.
  split; simpl; try done.
  - intros [? ? ? ?] ? ? _ _. simpl. f_equal. lia.
  - intros [? ? ? ?] ? ? _ _. simpl. f_equal. lia.
  - intros w k m _ H. by apply lookup_by_key in H as [? _].
  - intros w k m _ H. by apply lookup_by_key in H as [? _].
Qed.

End Mem.
