(* ===== verification/Zip.v ===== *)
(** * The data path (ntrdma_zip.c)

    Cursors walk a gather list of local memory and a scatter list of remote
    memory in step, cut both into pieces that fit one segment of each side and
    request one DMA copy per piece.  The main theorem flattens both lists to
    the bytes they denote and shows that the requested copies move exactly
    these bytes, in order. *)

From S2P Require Import Prelude Kernel Ntc Wr Mem.
Import Ntc Wr Mem.

Module Zip.

(** ** Cursors

    A pointer into an array together with the end of the array is the list of
    the elements that remain; the device pointer is an argument. *)

Fixpoint snd_sg_list_skip_empty (l : list ib_sge) : list ib_sge :=
  match l with
  | [] => []
  | s :: l' => if negb (sge_length s =? 0) then l else snd_sg_list_skip_empty l'
  end.

Fixpoint rcv_sg_list_skip_empty (l : list ntrdma_wr_rcv_sge) : list ntrdma_wr_rcv_sge :=
  match l with
  | [] => []
  | s :: l' => if negb (ntrdma_wr_rcv_sge_len s =? 0) then l else rcv_sg_list_skip_empty l'
  end.

Record ntrdma_snd_cursor := mk_snd {
  s_sge : list ib_sge;
  s_rem : Z;
  s_mr : option ntrdma_mr;
  s_mr_key : Z;
  s_mr_sge : list ntc_mr_buf;
  s_next_io_off : Z }.

(** [rcv_sge_copy] is the head of [c_sge]: the receive entry does not change
    while the request is processed. *)
Record ntrdma_rcv_cursor := mk_rcv {
  c_sge : list ntrdma_wr_rcv_sge;
  c_rem : Z;
  c_rmr_key : Z;
  c_rmr : option ntrdma_rmr;
  c_rmr_sge : list ntc_remote_buf;
  c_next_io_off : Z;
  c_offset : Z }.

Record ntrdma_lrcv_cursor := mk_lrcv {
  l_sge : list ntrdma_wr_rcv_sge;
  l_rem : Z;
  l_mr_key : Z;
  l_mr : option ntrdma_mr;
  l_mr_sge : list ntc_mr_buf;
  l_next_io_off : Z }.

Definition ntrdma_snd_cursor_init (snd_sg_list : list ib_sge) : ntrdma_snd_cursor :=
  mk_snd snd_sg_list 0 None NTRDMA_RESERVED_DMA_LEKY [] 0.

Definition ntrdma_rcv_cursor_init (rcv_sg_list : list ntrdma_wr_rcv_sge) (offset : Z)
  : ntrdma_rcv_cursor :=
  mk_rcv rcv_sg_list 0 NTRDMA_RESERVED_DMA_LEKY None [] 0 offset.

Definition ntrdma_lrcv_cursor_init (lrcv_sg_list : list ntrdma_wr_rcv_sge)
  : ntrdma_lrcv_cursor :=
  mk_lrcv lrcv_sg_list 0 NTRDMA_RESERVED_DMA_LEKY None [] 0.

(** The two readings of the union in a receive entry: the address of an
    entry as a plain element, and the descriptor of an entry. *)
Definition rcv_sge_addr (s : ntrdma_wr_rcv_sge) : Z :=
  match s with
  | RcvSge sge => sge_addr sge
  | RcvShadow _ d => chan_addr_value (rd_chan_addr d)
  end.

Definition rcv_sge_desc (s : ntrdma_wr_rcv_sge) : ntc_remote_buf_desc :=
  match s with
  | RcvSge sge =>
      mk_desc (chan_addr_of_value (sge_addr sge))
              (Z.lor (sge_length sge) (Z.shiftl (sge_lkey sge) 32))
  | RcvShadow _ d => d
  end.

(** What a request changes outside its own variables: the references of the
    tables, the DMA channel, the accesses of the processor to data buffers,
    and whether [ntrdma_unrecoverable_err] was called. *)
Inductive cpu_op :=
  | DmaSync (addr len : Z)
  | CpuWrite (addr : Z) (bytes : list Z).

Record zip_world {W : Type} := mk_world {
  zw_mem : W;
  zw_io : dma_io;
  zw_cpu : list cpu_op;
  zw_unrecoverable : bool }.
Arguments zip_world : clear implicits.
Arguments mk_world {W} _ _ _ _.

Definition zw_set_mem {W} (m : W) (w : zip_world W) : zip_world W :=
  mk_world m (zw_io w) (zw_cpu w) (zw_unrecoverable w).
Definition zw_set_io {W} (s : dma_io) (w : zip_world W) : zip_world W :=
  mk_world (zw_mem w) s (zw_cpu w) (zw_unrecoverable w).
Definition zw_cpu_op {W} (o : cpu_op) (w : zip_world W) : zip_world W :=
  mk_world (zw_mem w) (zw_io w) (zw_cpu w ++ [o]) (zw_unrecoverable w).
Definition ntrdma_unrecoverable_err {W} (w : zip_world W) : zip_world W :=
  mk_world (zw_mem w) (zw_io w) (zw_cpu w) true.

(** The loops at the labels [next_io_off_update]: skip the segments before
    the offset. *)
Fixpoint sg_advance {A} (size : A → Z) (sg : list A) (off : Z) : list A * Z :=
  match sg with
  | [] => ([], off)
  | s :: sg' => if size s <=? off then sg_advance size sg' (u64 (off - size s)) else (sg, off)
  end.

Section WithStore.
Context {W : Type} `{M : MemStore W} `{K : Kernel}.

(** [ntrdma_mr_put (c->mr); c->mr = NULL] when the key changes. *)
Definition mr_release (mr : option ntrdma_mr) (keep : bool) (w : W)
  : option ntrdma_mr * W :=
  match mr with
  | Some m => if keep then (mr, w) else (None, mr_put (mr_key m) w)
  | None => (None, w)
  end.

Definition rmr_release (rmr : option ntrdma_rmr) (keep : bool) (w : W)
  : option ntrdma_rmr * W :=
  match rmr with
  | Some m => if keep then (rmr, w) else (None, rmr_put (rmr_key m) w)
  | None => (None, w)
  end.

(** [if (!c->mr && key != RESERVED) c->mr = look(key)]; the flag is false
    when the look-up fails. *)
Definition mr_acquire (mr : option ntrdma_mr) (key : Z) (w : W)
  : bool * option ntrdma_mr * W :=
  match mr with
  | Some _ => (true, mr, w)
  | None =>
      if key =? NTRDMA_RESERVED_DMA_LEKY then (true, None, w)
      else let '(m, w) := ntrdma_dev_mr_look key w in
           (match m with Some _ => true | None => false end, m, w)
  end.

Definition rmr_acquire (rmr : option ntrdma_rmr) (key : Z) (w : W)
  : bool * option ntrdma_rmr * W :=
  match rmr with
  | Some _ => (true, rmr, w)
  | None =>
      if key =? NTRDMA_RESERVED_DMA_LEKY then (true, None, w)
      else let '(m, w) := ntrdma_dev_rmr_look key w in
           (match m with Some _ => true | None => false end, m, w)
  end.

(** Each update returns whether to go on and the value of [*rc]. *)
Definition snd_next_io_off_update (c : ntrdma_snd_cursor) (rc : Z)
  : bool * Z * ntrdma_snd_cursor :=
  match s_mr c with
  | None => (true, rc, c)
  | Some _ =>
      let '(sg, off) := sg_advance mb_size (s_mr_sge c) (s_next_io_off c) in
      let c := mk_snd (s_sge c) (s_rem c) (s_mr c) (s_mr_key c) sg off in
      match sg with
      | [] => (false, - EINVAL, c)
      | _ => (true, rc, c)
      end
  end.

Definition ntrdma_snd_cursor_update (c : ntrdma_snd_cursor) (rc : Z) (w : W)
  : bool * Z * ntrdma_snd_cursor * W :=
  if negb (s_rem c =? 0) then (snd_next_io_off_update c rc, w)
  else
    match snd_sg_list_skip_empty (s_sge c) with
    | [] => (false, 0, mk_snd [] (s_rem c) (s_mr c) (s_mr_key c) (s_mr_sge c) (s_next_io_off c), w)
    | sge :: rest =>
        let l := sge :: rest in
        let '(mr, w) := mr_release (s_mr c) (s_mr_key c =? sge_lkey sge) w in
        let '(found, mr, w) := mr_acquire mr (sge_lkey sge) w in
        if negb found then
          (false, - EINVAL, mk_snd l (s_rem c) None (sge_lkey sge) (s_mr_sge c) (s_next_io_off c), w)
        else
          let c :=
            match mr with
            | Some m => mk_snd l (sge_length sge) mr (sge_lkey sge) (mr_sg_list m)
                               (u64 (sge_addr sge - mr_addr m))
            | None => mk_snd l (sge_length sge) None (sge_lkey sge) (s_mr_sge c) 0
            end in
          (snd_next_io_off_update c rc, w)
    end.

Definition rcv_next_io_off_update (c : ntrdma_rcv_cursor) (rc : Z)
  : bool * Z * ntrdma_rcv_cursor :=
  match c_rmr c with
  | None => (true, rc, c)
  | Some _ =>
      let '(sg, off) := sg_advance rb_size (c_rmr_sge c) (c_next_io_off c) in
      let c := mk_rcv (c_sge c) (c_rem c) (c_rmr_key c) (c_rmr c) sg off (c_offset c) in
      match sg with
      | [] => (false, - EINVAL, c)
      | _ => (true, rc, c)
      end
  end.

(** The loop that skips whole entries covered by the start offset. *)
Fixpoint rcv_skip_offset (l : list ntrdma_wr_rcv_sge) (offset : Z)
  : list ntrdma_wr_rcv_sge * Z :=
  match l with
  | [] => ([], offset)
  | s :: l' =>
      let len := ntrdma_wr_rcv_sge_len s in
      if offset <? len then (l, offset) else rcv_skip_offset l' (u32 (offset - len))
  end.

Definition ntrdma_rcv_cursor_update (c : ntrdma_rcv_cursor) (rc : Z) (w : W)
  : bool * Z * ntrdma_rcv_cursor * W :=
  if negb (c_rem c =? 0) then (rcv_next_io_off_update c rc, w)
  else
    let '(l, offset) := rcv_skip_offset (c_sge c) (c_offset c) in
    match l with
    | [] => (false, - EINVAL,
             mk_rcv [] (c_rem c) (c_rmr_key c) (c_rmr c) (c_rmr_sge c) (c_next_io_off c) offset, w)
    | sge :: rest =>
        let remote_key := ntrdma_wr_rcv_sge_remote_key sge in
        let '(rmr, w) := rmr_release (c_rmr c) (c_rmr_key c =? remote_key) w in
        let '(found, rmr, w) := rmr_acquire rmr remote_key w in
        if negb found then
          (false, - EINVAL,
           mk_rcv l (c_rem c) remote_key None (c_rmr_sge c) (c_next_io_off c) offset, w)
        else
          let rem := u64 (ntrdma_wr_rcv_sge_len sge - offset) in
          let c :=
            match rmr with
            | Some m => mk_rcv l rem remote_key rmr (rmr_sg_list m)
                               (u64 (rcv_sge_addr sge + offset - rmr_addr m)) 0
            | None => mk_rcv l rem remote_key None (c_rmr_sge c) offset 0
            end in
          (rcv_next_io_off_update c rc, w)
    end.

Definition lrcv_next_io_off_update (c : ntrdma_lrcv_cursor) (rc : Z)
  : bool * Z * ntrdma_lrcv_cursor :=
  match l_mr c with
  | None => (true, rc, c)
  | Some _ =>
      let '(sg, off) := sg_advance mb_size (l_mr_sge c) (l_next_io_off c) in
      let c := mk_lrcv (l_sge c) (l_rem c) (l_mr_key c) (l_mr c) sg off in
      match sg with
      | [] => (false, - EINVAL, c)
      | _ => (true, rc, c)
      end
  end.

Definition ntrdma_lrcv_cursor_update (c : ntrdma_lrcv_cursor) (rc : Z) (w : W)
  : bool * Z * ntrdma_lrcv_cursor * W :=
  if negb (l_rem c =? 0) then (lrcv_next_io_off_update c rc, w)
  else
    match rcv_sg_list_skip_empty (l_sge c) with
    | [] => (false, 0, mk_lrcv [] (l_rem c) (l_mr_key c) (l_mr c) (l_mr_sge c) (l_next_io_off c), w)
    | sge :: rest =>
        let l := sge :: rest in
        let remote_key := ntrdma_wr_rcv_sge_remote_key sge in
        let '(mr, w) := mr_release (l_mr c) (l_mr_key c =? remote_key) w in
        let '(found, mr, w) := mr_acquire mr remote_key w in
        if negb found then
          (false, - EINVAL, mk_lrcv l (l_rem c) remote_key None (l_mr_sge c) (l_next_io_off c), w)
        else
          let rem := ntrdma_wr_rcv_sge_len sge in
          let c :=
            match mr with
            | Some m => mk_lrcv l rem remote_key mr (mr_sg_list m)
                                (u64 (rcv_sge_addr sge - mr_addr m))
            | None => mk_lrcv l rem remote_key None (l_mr_sge c) 0
            end in
          (lrcv_next_io_off_update c rc, w)
    end.

Definition ntrdma_snd_cursor_deinit (c : ntrdma_snd_cursor) (w : W) : W :=
  snd (mr_release (s_mr c) false w).
Definition ntrdma_rcv_cursor_deinit (c : ntrdma_rcv_cursor) (w : W) : W :=
  snd (rmr_release (c_rmr c) false w).
Definition ntrdma_lrcv_cursor_deinit (c : ntrdma_lrcv_cursor) (w : W) : W :=
  snd (mr_release (l_mr c) false w).

Definition ntrdma_snd_cursor_forward (c : ntrdma_snd_cursor) (len rc : Z) (w : W) :=
  let rem := u64 (s_rem c - len) in
  ntrdma_snd_cursor_update
    (if negb (rem =? 0)
     then mk_snd (s_sge c) rem (s_mr c) (s_mr_key c) (s_mr_sge c) (u64 (s_next_io_off c + len))
     else mk_snd (tail (s_sge c)) rem (s_mr c) (s_mr_key c) (s_mr_sge c) (s_next_io_off c))
    rc w.

Definition ntrdma_rcv_cursor_forward (c : ntrdma_rcv_cursor) (len rc : Z) (w : W) :=
  let rem := u64 (c_rem c - len) in
  ntrdma_rcv_cursor_update
    (if negb (rem =? 0)
     then mk_rcv (c_sge c) rem (c_rmr_key c) (c_rmr c) (c_rmr_sge c)
                 (u64 (c_next_io_off c + len)) (c_offset c)
     else mk_rcv (tail (c_sge c)) rem (c_rmr_key c) (c_rmr c) (c_rmr_sge c)
                 (c_next_io_off c) (c_offset c))
    rc w.

Definition ntrdma_lrcv_cursor_forward (c : ntrdma_lrcv_cursor) (len rc : Z) (w : W) :=
  let rem := u64 (l_rem c - len) in
  ntrdma_lrcv_cursor_update
    (if negb (rem =? 0)
     then mk_lrcv (l_sge c) rem (l_mr_key c) (l_mr c) (l_mr_sge c) (u64 (l_next_io_off c + len))
     else mk_lrcv (tail (l_sge c)) rem (l_mr_key c) (l_mr c) (l_mr_sge c) (l_next_io_off c))
    rc w.

(** [c->mr_sge->size]: the update has left the segment pointer on a segment
    when there is a region. *)
Definition sg_head_size {A} (size : A → Z) (sg : list A) : Z :=
  match sg with [] => 0 | s :: _ => size s end.

Definition ntrdma_snd_cursor_next_io_size (c : ntrdma_snd_cursor) : Z :=
  match s_mr c with
  | Some _ => Z.min (s_rem c) (u64 (sg_head_size mb_size (s_mr_sge c) - s_next_io_off c))
  | None => s_rem c
  end.

Definition ntrdma_rcv_cursor_next_io_size (c : ntrdma_rcv_cursor) : Z :=
  match c_rmr c with
  | Some _ => Z.min (c_rem c) (u64 (sg_head_size rb_size (c_rmr_sge c) - c_next_io_off c))
  | None => c_rem c
  end.

Definition ntrdma_lrcv_cursor_next_io_size (c : ntrdma_lrcv_cursor) : Z :=
  match l_mr c with
  | Some _ => Z.min (l_rem c) (u64 (sg_head_size mb_size (l_mr_sge c) - l_next_io_off c))
  | None => l_rem c
  end.

(** The buffer a piece is written to: the current segment of the remote
    region, or the buffer the entry describes, mapped for this request. *)
Definition rcv_target (ntc : ntc_dev) (c : ntrdma_rcv_cursor) : Z * ntc_remote_buf :=
  match c_rmr c with
  | Some _ => (0, default ntc_remote_buf_clear (head (c_rmr_sge c)))
  | None =>
      match c_sge c with
      | sge :: _ => ntc_remote_buf_map ntc (rcv_sge_desc sge)
      | [] => (- EIO, ntc_remote_buf_clear)
      end
  end.

Definition default_mr_buf : ntc_mr_buf := mk_mr_buf 0 None 0 0.
Definition default_sge : ib_sge := mk_sge 0 0 0.

(** The request for one piece. *)
Definition snd_request (c : ntrdma_snd_cursor) (dst : ntc_remote_buf) (dst_off len : Z)
    (dma_wait : ntc_dma_memcpy_mode) (s : dma_io) : Z * dma_io :=
  match s_mr c with
  | Some _ =>
      ntc_mr_request_memcpy_unfenced dst dst_off
        (default default_mr_buf (head (s_mr_sge c))) (s_next_io_off c) len dma_wait s
  | None =>
      let sge := default default_sge (head (s_sge c)) in
      let '(_, buf) := ntc_local_buf_map_dma (sge_length sge) (sge_addr sge) in
      ntc_request_memcpy_fenced dst dst_off buf (s_next_io_off c) len dma_wait s
  end.

Definition ntrdma_cursor_next_io (ntc : ntc_dev) (rcv : ntrdma_rcv_cursor)
    (snd : ntrdma_snd_cursor) (dma_wait : ntc_dma_memcpy_mode) (w : zip_world W)
  : Z * zip_world W :=
  let len := s64 (Z.min (ntrdma_snd_cursor_next_io_size snd)
                        (ntrdma_rcv_cursor_next_io_size rcv)) in
  if len <? 0 then (- EINVAL, w)
  else
    let '(rc, rcv_buf) := rcv_target ntc rcv in
    if rc <? 0 then (rc, w)
    else
      let '(rc, io) := snd_request snd rcv_buf (c_next_io_off rcv) len dma_wait (zw_io w) in
      let w := zw_set_io io w in
      if rc <? 0 then
        (rc, if rc =? - EAGAIN then w else ntrdma_unrecoverable_err w)
      else (len, w).

(** ** ntrdma_zip_rdma *)

(** The do-while loop; [None] when the fuel runs out.  The results are [rc],
    [total_len] and the cursors for the code after the loop. *)
Fixpoint zip_loop (fuel : nat) (ntc : ntc_dev) (dma_wait : ntc_dma_memcpy_mode)
    (snd : ntrdma_snd_cursor) (rcv : ntrdma_rcv_cursor) (rc total_len : Z)
    (w : zip_world W)
  : option (Z * Z * ntrdma_snd_cursor * ntrdma_rcv_cursor * zip_world W) :=
  match fuel with
  | O => None
  | S fuel =>
      let '(len, w) := ntrdma_cursor_next_io ntc rcv snd dma_wait w in
      if len <? 0 then Some (s32 len, total_len, snd, rcv, w)
      else if negb (s64 (total_len + len) =? u32 (total_len + u32 len))
      then Some (- EINVAL, total_len, snd, rcv, w)
      else
        let total_len := u32 (total_len + len) in
        let '(more, rc, snd, m) := ntrdma_snd_cursor_forward snd len rc (zw_mem w) in
        let w := zw_set_mem m w in
        if negb more then Some (rc, total_len, snd, rcv, w)
        else
          let '(more, rc, rcv, m) := ntrdma_rcv_cursor_forward rcv len rc (zw_mem w) in
          let w := zw_set_mem m w in
          if negb more then Some (rc, total_len, snd, rcv, w)
          else zip_loop fuel ntc dma_wait snd rcv rc total_len w
  end.

(** The length of a gather list, which bounds the number of requests. *)
Definition snd_length (l : list ib_sge) : Z := foldr (λ s n, sge_length s + n) 0 l.

(** The results are the return value and [*rdma_len] (unchanged unless the
    return value is 0). *)
Definition ntrdma_zip_rdma (ntc : ntc_dev) (rdma_len : Z)
    (rcv_sg_list : list ntrdma_wr_rcv_sge) (snd_sg_list : list ib_sge)
    (rcv_start_offset : Z) (dma_wait : ntc_dma_memcpy_mode) (w : zip_world W)
  : option (Z * Z * zip_world W) :=
  let snd := ntrdma_snd_cursor_init snd_sg_list in
  let rcv := ntrdma_rcv_cursor_init rcv_sg_list rcv_start_offset in
  let out :=
    let '(more, rc, snd, m) := ntrdma_snd_cursor_update snd 0 (zw_mem w) in
    let w := zw_set_mem m w in
    if negb more then Some (rc, 0, snd, rcv, w)
    else
      let '(more, rc, rcv, m) := ntrdma_rcv_cursor_update rcv rc (zw_mem w) in
      let w := zw_set_mem m w in
      if negb more then Some (rc, 0, snd, rcv, w)
      else zip_loop (Z.to_nat (snd_length snd_sg_list)) ntc dma_wait snd rcv rc 0 w in
  match out with
  | None => None
  | Some (rc, total_len, snd, rcv, w) =>
      let m := ntrdma_rcv_cursor_deinit rcv (ntrdma_snd_cursor_deinit snd (zw_mem w)) in
      Some (rc, if rc =? 0 then total_len else rdma_len, zw_set_mem m w)
  end.

(** ** ntrdma_zip_rdma_imm *)

Definition ntrdma_cursor_next_imm_io (ntc : ntc_dev) (rcv : ntrdma_rcv_cursor)
    (snd_data : list Z) (w : zip_world W) : Z * zip_world W :=
  let len := s64 (Z.min (Z.of_nat (length snd_data)) (ntrdma_rcv_cursor_next_io_size rcv)) in
  if len <? 0 then (- EINVAL, w)
  else
    let '(rc, rcv_buf) := rcv_target ntc rcv in
    if rc <? 0 then (rc, w)
    else
      let '(rc, io) := ntc_mr_request_memcpy_unfenced_imm rcv_buf (c_next_io_off rcv)
                         (take (Z.to_nat len) snd_data) (zw_io w) in
      let w := zw_set_io io w in
      if rc <? 0 then (rc, ntrdma_unrecoverable_err w) else (len, w).

Fixpoint zip_imm_loop (fuel : nat) (ntc : ntc_dev) (rcv : ntrdma_rcv_cursor)
    (snd_data : list Z) (rc : Z) (w : zip_world W)
  : option (Z * ntrdma_rcv_cursor * zip_world W) :=
  match fuel with
  | O => None
  | S fuel =>
      let '(len, w) := ntrdma_cursor_next_imm_io ntc rcv snd_data w in
      if len <? 0 then Some (s32 len, rcv, w)
      else
        let snd_data := drop (Z.to_nat len) snd_data in
        match snd_data with
        | [] => Some (rc, rcv, w)
        | _ =>
            let '(more, rc, rcv, m) := ntrdma_rcv_cursor_forward rcv len rc (zw_mem w) in
            let w := zw_set_mem m w in
            if negb more then Some (rc, rcv, w)
            else zip_imm_loop fuel ntc rcv snd_data rc w
        end
  end.

(** [snd_data] is the inline data, its length is [snd_data_size]. *)
Definition ntrdma_zip_rdma_imm (ntc : ntc_dev) (rcv_sg_list : list ntrdma_wr_rcv_sge)
    (snd_data : list Z) (rcv_start_offset : Z) (w : zip_world W)
  : option (Z * zip_world W) :=
  match snd_data with
  | [] => Some (0, w)
  | _ =>
      let rcv := ntrdma_rcv_cursor_init rcv_sg_list rcv_start_offset in
      let '(more, rc, rcv, m) := ntrdma_rcv_cursor_update rcv 0 (zw_mem w) in
      let w := zw_set_mem m w in
      let out :=
        if negb more then Some (rc, rcv, w)
        else zip_imm_loop (length snd_data) ntc rcv snd_data rc w in
      match out with
      | None => None
      | Some (rc, rcv, w) =>
          Some (rc, zw_set_mem (ntrdma_rcv_cursor_deinit rcv (zw_mem w)) w)
      end
  end.

(** ** ntrdma_zip_sync *)

Definition ntc_mr_buf_sync (b : ntc_mr_buf) (offset len : Z) (w : zip_world W) : zip_world W :=
  if negb (ntc_segment_valid (mb_size b) offset len) then w
  else zw_cpu_op (DmaSync (u64 (mb_dma_addr b + offset)) len) w.

Definition ntrdma_lrcv_cursor_next_io_deref (c : ntrdma_lrcv_cursor) (w : zip_world W)
  : Z * zip_world W :=
  let len := s64 (ntrdma_lrcv_cursor_next_io_size c) in
  if len <? 0 then (- EINVAL, w)
  else
    (len,
     match l_mr c with
     | Some _ => ntc_mr_buf_sync (default default_mr_buf (head (l_mr_sge c))) (l_next_io_off c) len w
     | None => w
     end).

Fixpoint zip_sync_loop (fuel : nat) (c : ntrdma_lrcv_cursor) (rc : Z) (w : zip_world W)
  : option (Z * ntrdma_lrcv_cursor * zip_world W) :=
  match fuel with
  | O => None
  | S fuel =>
      let '(len, w) := ntrdma_lrcv_cursor_next_io_deref c w in
      if len <? 0 then Some (s32 len, c, w)
      else
        let '(more, rc, c, m) := ntrdma_lrcv_cursor_forward c len rc (zw_mem w) in
        let w := zw_set_mem m w in
        if negb more then Some (rc, c, w) else zip_sync_loop fuel c rc w
  end.

Definition rcv_length (l : list ntrdma_wr_rcv_sge) : Z :=
  foldr (λ s n, ntrdma_wr_rcv_sge_len s + n) 0 l.

(** [rc] is not initialized by the code; the first update always writes it
    when it returns false, and every forward before the loop ends does. *)
Definition ntrdma_zip_sync (lrcv_sg_list : list ntrdma_wr_rcv_sge) (w : zip_world W)
  : option (Z * zip_world W) :=
  let '(more, rc, c, m) := ntrdma_lrcv_cursor_update (ntrdma_lrcv_cursor_init lrcv_sg_list) 0 (zw_mem w) in
  let w := zw_set_mem m w in
  let out :=
    if negb more then Some (rc, c, w)
    else zip_sync_loop (Z.to_nat (rcv_length lrcv_sg_list)) c rc w in
  match out with
  | None => None
  | Some (rc, c, w) => Some (rc, zw_set_mem (ntrdma_lrcv_cursor_deinit c (zw_mem w)) w)
  end.

(** ** ntrdma_zip_memcpy *)

(** The second loop; the results are the [size] left and the world. *)
Fixpoint zip_memcpy_loop (sg : list ntc_mr_buf) (next_io_off : Z) (src : list Z)
    (w : zip_world W) : list Z * zip_world W :=
  match sg with
  | [] => (src, w)
  | b :: sg =>
      match src with
      | [] => ([], w)
      | _ =>
          let n := Z.min (Z.of_nat (length src)) (u64 (mb_size b - next_io_off)) in
          zip_memcpy_loop sg 0 (drop (Z.to_nat n) src)
            (zw_cpu_op (CpuWrite (mb_dma_addr b) (take (Z.to_nat n) src)) w)
      end
  end.

Definition ntrdma_zip_memcpy (target_key target_addr : Z) (src : list Z) (w : zip_world W)
  : Z * zip_world W :=
  match src with
  | [] => (0, w)
  | _ =>
      let '(mr, m) := ntrdma_dev_mr_look target_key (zw_mem w) in
      let w := zw_set_mem m w in
      match mr with
      | None => (- EINVAL, w)
      | Some mr =>
          let '(sg, off) := sg_advance mb_size (mr_sg_list mr) (u64 (target_addr - mr_addr mr)) in
          let '(rest, w) := zip_memcpy_loop sg off src w in
          let w := zw_set_mem (mr_put (mr_key mr) (zw_mem w)) w in
          (match rest with [] => 0 | _ => - EINVAL end, w)
      end
  end.

End WithStore.

(** ** The bytes of a list of segments *)

Definition seg_addrs {A} (base size : A → Z) (sg : list A) : list Z :=
  concat ((λ s, seqZ (base s) (size s)) <$> sg).

Lemma length_seqZ_nonneg a n : 0 <= n → Z.of_nat (length (seqZ a n)) = n.
Proof. intros. rewrite length_seqZ. lia. Qed.

Lemma take_seqZ a n k :
  0 <= k <= n → take (Z.to_nat k) (seqZ a n) = seqZ a k.
Proof.
  intros. replace n with (k + (n - k)) by lia.
  rewrite seqZ_app by lia. apply take_app_length'. rewrite length_seqZ. lia.
Qed.

Lemma drop_seqZ a n k :
  0 <= k <= n → drop (Z.to_nat k) (seqZ a n) = seqZ (a + k) (n - k).
Proof.
  intros. replace n with (k + (n - k)) at 1 by lia.
  rewrite seqZ_app by lia. apply drop_app_length'. rewrite length_seqZ. lia.
Qed.

Lemma to_nat_add a b : 0 <= a → 0 <= b → Z.to_nat (a + b) = (Z.to_nat a + Z.to_nat b)%nat.
Proof. lia. Qed.

(** Cutting [len] bytes off a window of [rem] bytes at [off]. *)
Lemma window_drop {A} (l : list A) rem off len :
  0 <= off → 0 <= len <= rem →
  drop (Z.to_nat len) (take (Z.to_nat rem) (drop (Z.to_nat off) l))
  = take (Z.to_nat (rem - len)) (drop (Z.to_nat (off + len)) l).
Proof.
  intros. rewrite skipn_firstn_comm, drop_drop, <- to_nat_add by lia.
  f_equal. lia.
Qed.

Section Segments.
Context {A : Type} (base size : A → Z).

Lemma sg_advance_spec sg off :
  Forall (λ s, 0 <= size s) sg → 0 <= off < 2 ^ 64 →
  let '(sg', off') := sg_advance size sg off in
  0 <= off' < 2 ^ 64
  ∧ drop (Z.to_nat off') (seg_addrs base size sg') = drop (Z.to_nat off) (seg_addrs base size sg)
  ∧ (∀ s rest, sg' = s :: rest → off' < size s)
  ∧ sg' `suffix_of` sg.
Proof.
  intros Hsz. revert off. induction Hsz as [|s sg Hs _ IH]; intros off Ho; simpl.
  { split; [done|]. split; [done|]. split; [by intros|]. done. }
  destruct (Z.leb_spec (size s) off).
  - rewrite u64_small by lia. specialize (IH (off - size s) ltac:(lia)).
    destruct (sg_advance size sg (off - size s)) as [sg' off'].
    destruct IH as (H1 & H2 & H3 & H4). split; [done|]. split; [|split; [done|]].
    + rewrite H2. unfold seg_addrs. simpl.
      rewrite drop_app_ge by (rewrite length_seqZ; lia).
      f_equal. rewrite length_seqZ. lia.
    + by apply suffix_cons_r.
  - split; [done|]. split; [done|]. split; [|done]. by intros ? ? [= -> ->].
Qed.

(** The bytes that can be taken from the segment under a cursor. *)
Lemma seg_window_take s sg off rem len :
  0 <= off < size s → 0 <= len → len <= rem → len <= size s - off →
  take (Z.to_nat len) (take (Z.to_nat rem) (drop (Z.to_nat off) (seg_addrs base size (s :: sg))))
  = seqZ (base s + off) len.
Proof.
  intros. rewrite take_take. replace (Nat.min _ _) with (Z.to_nat len) by lia.
  unfold seg_addrs. simpl. rewrite drop_app_le by (rewrite length_seqZ; lia).
  rewrite drop_seqZ by lia. rewrite take_app_le by (rewrite length_seqZ; lia).
  by apply take_seqZ.
Qed.

End Segments.

(** ** The bytes of a request *)

(** Where each byte of a copy goes and where it comes from. *)
Definition req_pairs (q : dma_req) : list (Z * Z) :=
  match dq_src q with
  | Mem a => zip (seqZ (dq_dst q) (dq_len q)) (seqZ a (dq_len q))
  | Imm _ => []
  end.

(** What an immediate write stores, and where. *)
Definition req_imm_pairs (q : dma_req) : list (Z * Z) :=
  match dq_src q with
  | Mem _ => []
  | Imm bytes => zip (seqZ (dq_dst q) (dq_len q)) bytes
  end.

Lemma zip_split {A B} (l : list A) (k : list B) n :
  (n <= length l)%nat → (n <= length k)%nat →
  zip l k = zip (take n l) (take n k) ++ zip (drop n l) (drop n k).
Proof.
  intros. rewrite <- (take_drop n l) at 1. rewrite <- (take_drop n k) at 1.
  rewrite zip_with_app; [done|]. rewrite !length_take. lia.
Qed.

(** ** References *)

Section Proofs.
Context {W : Type} `{M : MemStore W} `{MO : !MemStoreOk W} `{K : Kernel}.
Variable (w0 : W).
Hypothesis w0_wf : mem_wf w0.

Definition hold_mr (o : option ntrdma_mr) (w : W) : W :=
  match o with Some m => mr_get (mr_key m) w | None => w end.
Definition hold_rmr (o : option ntrdma_rmr) (w : W) : W :=
  match o with Some m => rmr_get (rmr_key m) w | None => w end.

(** A region held by a cursor is the one the tables hold under its key. *)
Definition held_mr (o : option ntrdma_mr) : Prop :=
  ∀ m, o = Some m → mr_of w0 (mr_key m) = Some m.
Definition held_rmr (o : option ntrdma_rmr) : Prop :=
  ∀ m, o = Some m → rmr_of w0 (rmr_key m) = Some m.

(** A state that differs from [w0] in references only. *)
Definition base_ok (b : W) : Prop :=
  mem_wf b ∧ (∀ k, mr_of b k = mr_of w0 k) ∧ (∀ k, rmr_of b k = rmr_of w0 k).

Lemma base_ok_refl : base_ok w0.
Proof. done. Qed.

Lemma base_ok_hold_mr o b : held_mr o → base_ok b → base_ok (hold_mr o b).
Proof.
  intros Ho (Hb & Hm & Hr). destruct o as [m|]; [|done]. simpl.
  specialize (Ho m eq_refl). split; [|split; intros k].
  - by eapply mem_wf_mr_get; [|rewrite Hm].
  - by rewrite mr_of_mr_get.
  - by rewrite rmr_of_mr_get.
Qed.

Lemma base_ok_hold_rmr o b : held_rmr o → base_ok b → base_ok (hold_rmr o b).
Proof.
  intros Ho (Hb & Hm & Hr). destruct o as [m|]; [|done]. simpl.
  specialize (Ho m eq_refl). split; [|split; intros k].
  - by eapply mem_wf_rmr_get; [|rewrite Hr].
  - by rewrite mr_of_rmr_get.
  - by rewrite rmr_of_rmr_get.
Qed.

Lemma hold_comm o r b : hold_mr o (hold_rmr r b) = hold_rmr r (hold_mr o b).
Proof. destruct o, r; simpl; [apply mr_rmr_get_comm|done..]. Qed.

Lemma mr_release_hold o keep b :
  base_ok b → held_mr o →
  let '(o', w') := mr_release o keep (hold_mr o b) in
  w' = hold_mr o' b ∧ o' = (if keep then o else None).
Proof.
  intros (Hb & Hm & _) Ho. destruct o as [m|]; simpl; [|by destruct keep].
  destruct keep; [done|]. simpl. split; [|done].
  eapply mr_put_get; [done|]. rewrite Hm. by apply Ho.
Qed.

Lemma rmr_release_hold o keep b :
  base_ok b → held_rmr o →
  let '(o', w') := rmr_release o keep (hold_rmr o b) in
  w' = hold_rmr o' b ∧ o' = (if keep then o else None).
Proof.
  intros (Hb & _ & Hr) Ho. destruct o as [m|]; simpl; [|by destruct keep].
  destruct keep; [done|]. simpl. split; [|done].
  eapply rmr_put_get; [done|]. rewrite Hr. by apply Ho.
Qed.

(** The region that belongs to a key, if the key names one. *)
Definition key_mr (key : Z) : option ntrdma_mr :=
  if key =? NTRDMA_RESERVED_DMA_LEKY then None else mr_of w0 key.
Definition key_rmr (key : Z) : option ntrdma_rmr :=
  if key =? NTRDMA_RESERVED_DMA_LEKY then None else rmr_of w0 key.

Lemma held_key_mr key : held_mr (key_mr key).
Proof.
  intros m. unfold key_mr. destruct (_ =? _); [done|]. intros H.
  by rewrite (mr_of_key _ _ _ w0_wf H).
Qed.

Lemma held_key_rmr key : held_rmr (key_rmr key).
Proof.
  intros m. unfold key_rmr. destruct (_ =? _); [done|]. intros H.
  by rewrite (rmr_of_key _ _ _ w0_wf H).
Qed.

Lemma mr_acquire_hold key b :
  base_ok b →
  let '(found, o', w') := mr_acquire None key b in
  w' = hold_mr o' b ∧ o' = key_mr key
  ∧ (found = false → o' = None) ∧ (key = NTRDMA_RESERVED_DMA_LEKY → found = true)
  ∧ (found = true → key ≠ NTRDMA_RESERVED_DMA_LEKY → is_Some o').
Proof.
  intros (Hb & Hm & _). unfold mr_acquire, key_mr, ntrdma_dev_mr_look.
  destruct (Z.eqb_spec key NTRDMA_RESERVED_DMA_LEKY); [done|].
  destruct (mr_of b key) as [m|] eqn:Hk; simpl.
  - rewrite (mr_of_key _ _ _ Hb Hk). split; [done|]. rewrite <- Hm. by rewrite Hk.
  - split; [done|]. rewrite <- Hm. by rewrite Hk.
Qed.

Lemma rmr_acquire_hold key b :
  base_ok b →
  let '(found, o', w') := rmr_acquire None key b in
  w' = hold_rmr o' b ∧ o' = key_rmr key
  ∧ (found = false → o' = None) ∧ (key = NTRDMA_RESERVED_DMA_LEKY → found = true)
  ∧ (found = true → key ≠ NTRDMA_RESERVED_DMA_LEKY → is_Some o').
Proof.
  intros (Hb & _ & Hr). unfold rmr_acquire, key_rmr, ntrdma_dev_rmr_look.
  destruct (Z.eqb_spec key NTRDMA_RESERVED_DMA_LEKY); [done|].
  destruct (rmr_of b key) as [m|] eqn:Hk; simpl.
  - rewrite (rmr_of_key _ _ _ Hb Hk). split; [done|]. rewrite <- Hr. by rewrite Hk.
  - split; [done|]. rewrite <- Hr. by rewrite Hk.
Qed.

(** Releasing the old region and acquiring the one of the next key, as the
    updates do. *)
Lemma mr_switch o oldkey key b :
  base_ok b → (is_Some o → o = key_mr oldkey) →
  let '(o1, w1) := mr_release o (oldkey =? key) (hold_mr o b) in
  let '(found, o', w') := mr_acquire o1 key w1 in
  w' = hold_mr o' b
  ∧ (found = false → o' = None)
  ∧ (found = true → o' = key_mr key ∧ (key ≠ NTRDMA_RESERVED_DMA_LEKY → is_Some o')).
Proof.
  intros Hb Ho. destruct o as [m|].
  - specialize (Ho ltac:(eauto)). pose proof (mr_release_hold (Some m) (oldkey =? key) b Hb) as Hr.
    destruct (mr_release _ _ _) as [o1 w1]. destruct Hr as [-> ->].
    { rewrite Ho. apply held_key_mr. }
    destruct (Z.eqb_spec oldkey key) as [->|]; simpl; [by rewrite Ho|].
    pose proof (mr_acquire_hold key b Hb) as Ha.
    unfold mr_acquire in *. destruct (_ =? _); [naive_solver|].
    destruct (ntrdma_dev_mr_look key b). naive_solver.
  - simpl. pose proof (mr_acquire_hold key b Hb) as Ha.
    unfold mr_acquire in *. destruct (_ =? _); [naive_solver|].
    destruct (ntrdma_dev_mr_look key b). naive_solver.
Qed.

Lemma rmr_switch o oldkey key b :
  base_ok b → (is_Some o → o = key_rmr oldkey) →
  let '(o1, w1) := rmr_release o (oldkey =? key) (hold_rmr o b) in
  let '(found, o', w') := rmr_acquire o1 key w1 in
  w' = hold_rmr o' b
  ∧ (found = false → o' = None)
  ∧ (found = true → o' = key_rmr key ∧ (key ≠ NTRDMA_RESERVED_DMA_LEKY → is_Some o')).
Proof.
  intros Hb Ho. destruct o as [m|].
  - specialize (Ho ltac:(eauto)). pose proof (rmr_release_hold (Some m) (oldkey =? key) b Hb) as Hr.
    destruct (rmr_release _ _ _) as [o1 w1]. destruct Hr as [-> ->].
    { rewrite Ho. apply held_key_rmr. }
    destruct (Z.eqb_spec oldkey key) as [->|]; simpl; [by rewrite Ho|].
    pose proof (rmr_acquire_hold key b Hb) as Ha.
    unfold rmr_acquire in *. destruct (_ =? _); [naive_solver|].
    destruct (ntrdma_dev_rmr_look key b). naive_solver.
  - simpl. pose proof (rmr_acquire_hold key b Hb) as Ha.
    unfold rmr_acquire in *. destruct (_ =? _); [naive_solver|].
    destruct (ntrdma_dev_rmr_look key b). naive_solver.
Qed.

(** ** Well-formed inputs *)

Definition mr_buf_ok (b : ntc_mr_buf) : Prop :=
  0 <= mb_size b <= 2 ^ 62 ∧ 0 <= mb_dma_addr b ∧ mb_dma_addr b + mb_size b < 2 ^ 64.
Definition rb_ok (b : ntc_remote_buf) : Prop :=
  0 <= rb_size b <= 2 ^ 62 ∧ 0 <= rb_dma_addr b ∧ rb_dma_addr b + rb_size b < 2 ^ 64.

Definition snd_sge_ok (s : ib_sge) : Prop :=
  is_u32 (sge_length s) ∧ 0 <= sge_addr s ∧ sge_addr s + sge_length s < 2 ^ 64.

Variable ntc : ntc_dev.

(** The buffer of a described receive entry once it is mapped. *)
Definition rcv_mapped (s : ntrdma_wr_rcv_sge) : Z * ntc_remote_buf :=
  ntc_remote_buf_map ntc (rcv_sge_desc s).

Definition rcv_sge_ok (s : ntrdma_wr_rcv_sge) : Prop :=
  0 <= ntrdma_wr_rcv_sge_len s < 2 ^ 64
  ∧ (ntrdma_wr_rcv_sge_remote_key s = NTRDMA_RESERVED_DMA_LEKY → rb_ok (snd (rcv_mapped s))).

Record store_ok : Prop := {
  so_mr : ∀ k m, mr_of w0 k = Some m → Forall mr_buf_ok (mr_sg_list m);
  so_rmr : ∀ k m, rmr_of w0 k = Some m → Forall rb_ok (rmr_sg_list m) }.
Hypothesis w0_ok : store_ok.

(** ** The bytes the two lists denote *)

Definition mr_addrs (m : ntrdma_mr) : list Z := seg_addrs mb_dma_addr mb_size (mr_sg_list m).
Definition rmr_addrs (m : ntrdma_rmr) : list Z := seg_addrs rb_dma_addr rb_size (rmr_sg_list m).

(** The DMA addresses of the bytes of a gather element: those of the region
    its key names from the element's address on, or, with the reserved key,
    those of the physical buffer itself. *)
Definition sge_bytes (s : ib_sge) : list Z :=
  match key_mr (sge_lkey s) with
  | Some m =>
      take (Z.to_nat (sge_length s)) (drop (Z.to_nat (u64 (sge_addr s - mr_addr m))) (mr_addrs m))
  | None => seqZ (sge_addr s) (sge_length s)
  end.

Definition snd_bytes (l : list ib_sge) : list Z := concat (sge_bytes <$> l).

(** The bytes of a receive entry after its first [off] bytes. *)
Definition rcv_sge_bytes (off : Z) (s : ntrdma_wr_rcv_sge) : list Z :=
  let rem := ntrdma_wr_rcv_sge_len s - off in
  match key_rmr (ntrdma_wr_rcv_sge_remote_key s) with
  | Some m =>
      take (Z.to_nat rem)
        (drop (Z.to_nat (u64 (rcv_sge_addr s + off - rmr_addr m))) (rmr_addrs m))
  | None =>
      take (Z.to_nat rem)
        (drop (Z.to_nat off) (seqZ (rb_dma_addr (snd (rcv_mapped s))) (ntrdma_wr_rcv_sge_len s)))
  end.

(** The bytes of a scatter list after its first [off] bytes. *)
Fixpoint rcv_bytes (off : Z) (l : list ntrdma_wr_rcv_sge) : list Z :=
  match l with
  | [] => []
  | s :: l =>
      if off <? ntrdma_wr_rcv_sge_len s then rcv_sge_bytes off s ++ rcv_bytes 0 l
      else rcv_bytes (off - ntrdma_wr_rcv_sge_len s) l
  end.

(** ** The send cursor *)

Definition snd_cur (c : ntrdma_snd_cursor) : list Z :=
  take (Z.to_nat (s_rem c)) (drop (Z.to_nat (s_next_io_off c))
    (match s_mr c with
     | Some _ => seg_addrs mb_dma_addr mb_size (s_mr_sge c)
     | None =>
         let s := default default_sge (head (s_sge c)) in seqZ (sge_addr s) (sge_length s)
     end)).

Definition snd_rest (c : ntrdma_snd_cursor) : list Z := snd_cur c ++ snd_bytes (tail (s_sge c)).
Definition snd_left (c : ntrdma_snd_cursor) : Z := s_rem c + snd_length (tail (s_sge c)).

(** Inside an element, with the offset possibly past the current segment. *)
Record snd_moving (c : ntrdma_snd_cursor) : Prop := {
  sm_rem : 0 < s_rem c < 2 ^ 32;
  sm_off : 0 <= s_next_io_off c < 2 ^ 64;
  sm_sge : ∃ s rest, s_sge c = s :: rest ∧ s_mr_key c = sge_lkey s;
  sm_ok : Forall snd_sge_ok (s_sge c);
  sm_key : s_mr c = key_mr (s_mr_key c);
  sm_none : s_mr c = None → s_mr_key c = NTRDMA_RESERVED_DMA_LEKY;
  sm_segs : is_Some (s_mr c) → Forall mr_buf_ok (s_mr_sge c);
  sm_flat : s_mr c = None →
    s_next_io_off c + s_rem c = sge_length (default default_sge (head (s_sge c))) }.

(** Ready for a request. *)
Definition snd_live (c : ntrdma_snd_cursor) : Prop :=
  snd_moving c ∧ (is_Some (s_mr c) → ∃ b sg, s_mr_sge c = b :: sg ∧ s_next_io_off c < mb_size b).

Lemma mr_buf_ok_size l : Forall mr_buf_ok l → Forall (λ s, 0 <= mb_size s) l.
Proof. apply Forall_impl. intros b [? _]. lia. Qed.

Lemma rb_ok_size l : Forall rb_ok l → Forall (λ s, 0 <= rb_size s) l.
Proof. apply Forall_impl. intros b [? _]. lia. Qed.

Lemma Forall_suffix_of {A} (P : A → Prop) l k : l `suffix_of` k → Forall P k → Forall P l.
Proof. intros [k' ->]. rewrite Forall_app. tauto. Qed.

Lemma snd_length_nonneg l : Forall snd_sge_ok l → 0 <= snd_length l.
Proof. induction 1 as [|s l [[? ?] ?]]; simpl; [lia|]. lia. Qed.

Lemma snd_off_update_spec c rc :
  snd_moving c →
  let '(more, rc', c') := snd_next_io_off_update c rc in
  s_mr c' = s_mr c ∧ s_mr_key c' = s_mr_key c
  ∧ if more then rc' = rc ∧ snd_live c' ∧ snd_rest c' = snd_rest c ∧ snd_left c' = snd_left c
    else rc' = - EINVAL.
Proof.
  intros Hm. unfold snd_next_io_off_update. destruct (s_mr c) as [m|] eqn:Hmr.
  - pose proof (sm_segs _ Hm ltac:(eauto)) as Hsegs.
    pose proof (sg_advance_spec mb_dma_addr mb_size (s_mr_sge c) (s_next_io_off c)
                  (mr_buf_ok_size _ Hsegs) (sm_off _ Hm)) as Ha.
    destruct (sg_advance _ _ _) as [sg off]. destruct Ha as (H1 & H2 & H3 & H4).
    destruct sg as [|b sg]; simpl; [done|]. split; [done|]. split; [done|]. split; [done|].
    unfold snd_live, snd_rest, snd_left, snd_cur. simpl. rewrite Hmr, H2.
    split; [|done]. split; [|intros _; eauto].
    destruct Hm. split; simpl; try done; [congruence|intros _; by eapply Forall_suffix_of].
  - split; [done|]. split; [done|]. split; [done|]. split; [|done].
    split; [done|]. rewrite Hmr. by intros [? ?].
Qed.

Lemma snd_skip_spec l :
  Forall snd_sge_ok l →
  let l' := snd_sg_list_skip_empty l in
  Forall snd_sge_ok l' ∧ snd_length l' = snd_length l ∧ snd_bytes l' = snd_bytes l
  ∧ ∀ s rest, l' = s :: rest → 0 < sge_length s.
Proof.
  induction 1 as [|s l Hs Hl IH]; simpl; [naive_solver|].
  pose proof Hs as [[? ?] _].
  destruct (Z.eqb_spec (sge_length s) 0) as [Hz|]; simpl.
  - destruct IH as (H1 & H2 & H3 & H4). split; [done|]. split; [lia|]. split; [|done].
    rewrite H3. unfold snd_bytes. simpl. unfold sge_bytes. rewrite Hz.
    by destruct (key_mr _).
  - split; [by constructor|]. split; [done|]. split; [done|].
    intros s' rest [= <- <-]. lia.
Qed.

(** The cursor between two elements. *)
Definition snd_idle (c : ntrdma_snd_cursor) : Prop :=
  s_rem c = 0 ∧ Forall snd_sge_ok (s_sge c) ∧ (is_Some (s_mr c) → s_mr c = key_mr (s_mr_key c)).

(** The outcome of an update: the reference held is the one recorded in the
    cursor, and the cursor denotes the bytes that were left. *)
Definition snd_updated (bytes : list Z) (left : Z) (b : W) (rc : Z)
    (r : bool * Z * ntrdma_snd_cursor * W) : Prop :=
  let '(more, rc', c', w') := r in
  w' = hold_mr (s_mr c') b ∧ held_mr (s_mr c')
  ∧ if more then rc' = rc ∧ snd_live c' ∧ snd_rest c' = bytes ∧ snd_left c' = left
    else rc' = - EINVAL ∨ (rc' = 0 ∧ bytes = [] ∧ left = 0).

Lemma is_Some_held o key : (is_Some o → o = key_mr key) → held_mr o.
Proof. intros H m ->. apply (held_key_mr key). symmetry. apply H. eauto. Qed.

Lemma snd_update_moving c rc b :
  snd_moving c →
  snd_updated (snd_rest c) (snd_left c) b rc
    (ntrdma_snd_cursor_update c rc (hold_mr (s_mr c) b)).
Proof.
  intros Hm. unfold ntrdma_snd_cursor_update.
  destruct (Z.eqb_spec (s_rem c) 0); [destruct (sm_rem _ Hm); lia|]. simpl.
  pose proof (snd_off_update_spec c rc Hm) as H.
  destruct (snd_next_io_off_update c rc) as [[more rc'] c']. simpl in *.
  destruct H as (-> & Hk & H). split; [done|]. split.
  { rewrite (sm_key _ Hm). apply held_key_mr. }
  destruct more; [done|]. by left.
Qed.

Lemma snd_update_idle c rc b :
  base_ok b → snd_idle c →
  snd_updated (snd_bytes (s_sge c)) (snd_length (s_sge c)) b rc
    (ntrdma_snd_cursor_update c rc (hold_mr (s_mr c) b)).
Proof.
  intros Hb (Hrem & Hok & Hmr). unfold ntrdma_snd_cursor_update. rewrite Hrem. simpl.
  destruct (snd_skip_spec (s_sge c) Hok) as (Hok' & <- & <- & Hpos).
  destruct (snd_sg_list_skip_empty (s_sge c)) as [|s rest]; simpl.
  { split; [done|]. split; [by eapply is_Some_held|]. right. done. }
  pose proof (mr_switch (s_mr c) (s_mr_key c) (sge_lkey s) b Hb Hmr) as Hsw.
  destruct (mr_release _ _ _) as [o1 w1]. destruct (mr_acquire _ _ _) as [[found o'] w'].
  destruct Hsw as (-> & Hf & Ht). destruct found; simpl.
  2:{ rewrite Hf by done. split; [done|]. split; [done|]. by left. }
  destruct (Ht eq_refl) as [-> Hres]. clear Ht Hf.
  set (c1 := match key_mr (sge_lkey s) with Some m => _ | None => _ end).
  assert (s_mr c1 = key_mr (sge_lkey s)) as Hc1.
  { unfold c1. clear. destruct (key_mr (sge_lkey s)); reflexivity. }
  inversion Hok' as [|? ? Hs Hrest]; subst. pose proof Hs as [[? ?] ?].
  specialize (Hpos s rest eq_refl).
  change (snd_bytes (s :: rest)) with (sge_bytes s ++ snd_bytes rest).
  assert (snd_moving c1 ∧ snd_rest c1 = sge_bytes s ++ snd_bytes rest
          ∧ snd_left c1 = sge_length s + snd_length rest) as (Hmv & <- & <-).
  { unfold c1, snd_rest, snd_left, snd_cur, sge_bytes.
    destruct (key_mr (sge_lkey s)) as [m|] eqn:Hk; simpl.
    - split; [|done]. split; simpl; try done; [apply u64_range|eauto|].
      intros _. pose proof (held_key_mr _ _ Hk) as Hm. by eapply so_mr.
    - split; [|]. 
      + split; simpl; try done; [eauto|].
        intros _. destruct (decide (sge_lkey s = NTRDMA_RESERVED_DMA_LEKY)); [done|].
        by destruct (Hres ltac:(done)).
      + split; [|done]. f_equal. rewrite drop_0. apply take_ge. rewrite length_seqZ. lia. }
  rewrite <- Hc1. clearbody c1.
  pose proof (snd_off_update_spec c1 rc Hmv) as Hu.
  destruct (snd_next_io_off_update c1 rc) as [[more rc'] c']. simpl in *.
  destruct Hu as (-> & Hk & Hu). split; [done|]. split.
  { rewrite Hc1. apply held_key_mr. }
  destruct more; [done|]. by left.
Qed.

Definition snd_base (c : ntrdma_snd_cursor) : Z :=
  match s_mr c with
  | Some _ => mb_dma_addr (default default_mr_buf (head (s_mr_sge c)))
  | None => sge_addr (default default_sge (head (s_sge c)))
  end.

Lemma snd_next_bounds c :
  snd_live c →
  0 < ntrdma_snd_cursor_next_io_size c <= s_rem c
  ∧ ∀ len, 0 <= len <= ntrdma_snd_cursor_next_io_size c →
      take (Z.to_nat len) (snd_cur c) = seqZ (snd_base c + s_next_io_off c) len.
Proof.
  intros [Hm Hl]. pose proof (sm_rem _ Hm). pose proof (sm_off _ Hm).
  unfold ntrdma_snd_cursor_next_io_size, snd_cur, snd_base.
  destruct (s_mr c) as [m|] eqn:Hmr.
  - destruct (Hl ltac:(eauto)) as (b & sg & Hsg & Hoff). rewrite Hsg. simpl.
    pose proof (sm_segs _ Hm ltac:(eauto)) as Hs. rewrite Hsg in Hs.
    inversion Hs as [|? ? [? ?] ?]; subst. rewrite u64_small by wsolve.
    split; [lia|]. intros len Hlen. apply seg_window_take; lia.
  - pose proof (sm_flat _ Hm Hmr). split; [lia|]. intros len Hlen.
    rewrite drop_seqZ by lia. rewrite take_take.
    replace (Nat.min _ _) with (Z.to_nat len) by lia. rewrite take_seqZ by lia. f_equal. 
Qed.

Lemma length_snd_cur c len :
  snd_live c → 0 <= len <= ntrdma_snd_cursor_next_io_size c → len <= Z.of_nat (length (snd_cur c)).
Proof.
  intros Hl Hlen. destruct (snd_next_bounds c Hl) as [_ H]. specialize (H len Hlen).
  apply (f_equal length) in H. rewrite length_take, length_seqZ in H. lia.
Qed.

Lemma snd_forward_spec c len rc b :
  base_ok b → snd_live c → 0 < len <= ntrdma_snd_cursor_next_io_size c →
  snd_updated (drop (Z.to_nat len) (snd_rest c)) (snd_left c - len) b rc
    (ntrdma_snd_cursor_forward c len rc (hold_mr (s_mr c) b)).
Proof.
  intros Hb Hl Hlen. destruct (snd_next_bounds c Hl) as [Hsz _].
  pose proof (length_snd_cur c len Hl ltac:(lia)) as Hcur.
  pose proof Hl as [Hm Hlive]. pose proof (sm_rem _ Hm). pose proof (sm_off _ Hm).
  unfold ntrdma_snd_cursor_forward. rewrite (u64_small (s_rem c - len)) by wsolve.
  unfold snd_rest. rewrite drop_app_le by lia.
  assert (s_next_io_off c + len < 2 ^ 64) as Hno.
  { destruct (s_mr c) as [m|] eqn:Hmr.
    - destruct (Hlive ltac:(eauto)) as (s & sg & Hsg & Hoff).
      pose proof (sm_segs _ Hm ltac:(eauto)) as Hs. rewrite Hsg in Hs.
      inversion Hs as [|? ? [? ?] ?]; subst. wsolve.
    - pose proof (sm_flat _ Hm Hmr). destruct (sm_sge _ Hm) as (s & rest & Hs & _).
      pose proof (sm_ok _ Hm) as Hok. rewrite Hs in *. simpl in *.
      inversion Hok as [|? ? [[? ?] ?] ?]; subst. wsolve. }
  destruct (Z.eqb_spec (s_rem c - len) 0) as [Hz|Hz]; simpl.
  - set (c1 := mk_snd _ _ _ _ _ _).
    pose proof (snd_update_idle c1 rc b Hb) as Hu. simpl in Hu.
    unfold snd_cur at 1. rewrite window_drop by lia. rewrite Hz. simpl.
    replace (snd_left c - len) with (snd_length (tail (s_sge c))) by (unfold snd_left; lia).
    apply Hu. split; [done|]. split.
    + pose proof (sm_ok _ Hm) as Hok. by destruct Hok.
    + intros _. apply (sm_key _ Hm).
  - rewrite u64_small by wsolve. set (c1 := mk_snd _ _ _ _ _ _).
    pose proof (snd_update_moving c1 rc b) as Hu. simpl in Hu.
    replace (snd_left c - len) with (snd_left c1) by (unfold snd_left; simpl; lia).
    unfold snd_cur. rewrite window_drop by lia.
    apply Hu. destruct Hm. split; simpl; try done; [lia|lia|intros Hn; specialize (sm_flat0 Hn); lia].
Qed.

(** ** The receive cursor *)

(** The buffer the current entry is written to. *)
Definition rcv_flat_seg (c : ntrdma_rcv_cursor) : list Z :=
  match c_sge c with
  | s :: _ => seqZ (rb_dma_addr (snd (rcv_mapped s))) (ntrdma_wr_rcv_sge_len s)
  | [] => []
  end.

Definition rcv_cur (c : ntrdma_rcv_cursor) : list Z :=
  take (Z.to_nat (c_rem c)) (drop (Z.to_nat (c_next_io_off c))
    (match c_rmr c with
     | Some _ => seg_addrs rb_dma_addr rb_size (c_rmr_sge c)
     | None => rcv_flat_seg c
     end)).

Definition rcv_rest (c : ntrdma_rcv_cursor) : list Z := rcv_cur c ++ rcv_bytes 0 (tail (c_sge c)).

Record rcv_moving (c : ntrdma_rcv_cursor) : Prop := {
  cm_rem : 0 < c_rem c < 2 ^ 64;
  cm_off : 0 <= c_next_io_off c < 2 ^ 64;
  cm_sge : ∃ s rest, c_sge c = s :: rest ∧ c_rmr_key c = ntrdma_wr_rcv_sge_remote_key s
             ∧ (c_rmr c = None → c_next_io_off c + c_rem c = ntrdma_wr_rcv_sge_len s);
  cm_ok : Forall rcv_sge_ok (c_sge c);
  cm_key : c_rmr c = key_rmr (c_rmr_key c);
  cm_none : c_rmr c = None → c_rmr_key c = NTRDMA_RESERVED_DMA_LEKY;
  cm_segs : is_Some (c_rmr c) → Forall rb_ok (c_rmr_sge c);
  cm_start : c_offset c = 0 }.

Definition rcv_live (c : ntrdma_rcv_cursor) : Prop :=
  rcv_moving c ∧ (is_Some (c_rmr c) → ∃ b sg, c_rmr_sge c = b :: sg ∧ c_next_io_off c < rb_size b).

Lemma rcv_off_update_spec c rc :
  rcv_moving c →
  let '(more, rc', c') := rcv_next_io_off_update c rc in
  c_rmr c' = c_rmr c ∧ c_rmr_key c' = c_rmr_key c
  ∧ if more then rc' = rc ∧ rcv_live c' ∧ rcv_rest c' = rcv_rest c else rc' = - EINVAL.
Proof.
  intros Hm. unfold rcv_next_io_off_update. destruct (c_rmr c) as [m|] eqn:Hmr.
  - pose proof (cm_segs _ Hm ltac:(eauto)) as Hsegs.
    pose proof (sg_advance_spec rb_dma_addr rb_size (c_rmr_sge c) (c_next_io_off c)
                  (rb_ok_size _ Hsegs) (cm_off _ Hm)) as Ha.
    destruct (sg_advance _ _ _) as [sg off]. destruct Ha as (H1 & H2 & H3 & H4).
    destruct sg as [|b sg]; simpl; [done|]. split; [done|]. split; [done|]. split; [done|].
    unfold rcv_live, rcv_rest, rcv_cur. simpl. rewrite Hmr, H2.
    split; [|done]. split; [|intros _; eauto].
    destruct Hm as [? ? (s & rest & ? & ? & ?) ? ? ? ? ?].
    split; simpl; try done; [|congruence|intros _; by eapply Forall_suffix_of].
    exists s, rest. split; [done|]. split; [done|]. intros ?. congruence.
  - split; [done|]. split; [done|]. split; [done|]. split; [|done].
    split; [done|]. rewrite Hmr. by intros [? ?].
Qed.

Lemma rcv_skip_spec l off :
  Forall rcv_sge_ok l → is_u32 off →
  let '(l', off') := rcv_skip_offset l off in
  Forall rcv_sge_ok l' ∧ is_u32 off' ∧ rcv_bytes off' l' = rcv_bytes off l
  ∧ ∀ s rest, l' = s :: rest → off' < ntrdma_wr_rcv_sge_len s.
Proof.
  intros Hl. revert off. induction Hl as [|s l Hs Hl IH]; intros off Ho; simpl; [naive_solver|].
  pose proof Hs as [[? ?] _].
  destruct (Z.ltb_spec off (ntrdma_wr_rcv_sge_len s)) as [Hlt|Hge].
  - split; [by constructor|]. split; [done|]. simpl.
    rewrite (proj2 (Z.ltb_lt _ _) Hlt). split; [done|]. by intros ? ? [= <- <-].
  - rewrite u32_small by wsolve. apply IH. wsolve.
Qed.

Definition rcv_idle (c : ntrdma_rcv_cursor) : Prop :=
  c_rem c = 0 ∧ Forall rcv_sge_ok (c_sge c) ∧ is_u32 (c_offset c)
  ∧ (is_Some (c_rmr c) → c_rmr c = key_rmr (c_rmr_key c)).

Definition rcv_updated (bytes : list Z) (b : W) (rc : Z)
    (r : bool * Z * ntrdma_rcv_cursor * W) : Prop :=
  let '(more, rc', c', w') := r in
  w' = hold_rmr (c_rmr c') b ∧ held_rmr (c_rmr c')
  ∧ if more then rc' = rc ∧ rcv_live c' ∧ rcv_rest c' = bytes else rc' = - EINVAL.

Lemma is_Some_held_rmr o key : (is_Some o → o = key_rmr key) → held_rmr o.
Proof. intros H m ->. apply (held_key_rmr key). symmetry. apply H. eauto. Qed.

Lemma rcv_update_moving c rc b :
  rcv_moving c →
  rcv_updated (rcv_rest c) b rc (ntrdma_rcv_cursor_update c rc (hold_rmr (c_rmr c) b)).
Proof.
  intros Hm. unfold ntrdma_rcv_cursor_update.
  destruct (Z.eqb_spec (c_rem c) 0); [destruct (cm_rem _ Hm); lia|]. simpl.
  pose proof (rcv_off_update_spec c rc Hm) as H.
  destruct (rcv_next_io_off_update c rc) as [[more rc'] c']. simpl in *.
  destruct H as (-> & Hk & H). split; [done|]. split; [|done].
  rewrite (cm_key _ Hm). apply held_key_rmr.
Qed.

Lemma rcv_update_idle c rc b :
  base_ok b → rcv_idle c →
  rcv_updated (rcv_bytes (c_offset c) (c_sge c)) b rc
    (ntrdma_rcv_cursor_update c rc (hold_rmr (c_rmr c) b)).
Proof.
  intros Hb (Hrem & Hok & Hoff & Hmr). unfold ntrdma_rcv_cursor_update. rewrite Hrem. simpl.
  pose proof (rcv_skip_spec (c_sge c) (c_offset c) Hok Hoff) as Hskip.
  destruct (rcv_skip_offset (c_sge c) (c_offset c)) as [l off].
  destruct Hskip as (Hok' & Hoff' & <- & Hpos).
  destruct l as [|s rest]; simpl.
  { split; [done|]. split; [by eapply is_Some_held_rmr|done]. }
  set (key := ntrdma_wr_rcv_sge_remote_key s).
  pose proof (rmr_switch (c_rmr c) (c_rmr_key c) key b Hb Hmr) as Hsw.
  destruct (rmr_release _ _ _) as [o1 w1]. destruct (rmr_acquire _ _ _) as [[found o'] w'].
  destruct Hsw as (-> & Hf & Ht). destruct found; simpl.
  2:{ rewrite Hf by done. by split. }
  destruct (Ht eq_refl) as [-> Hres]. clear Ht Hf.
  inversion Hok' as [|? ? Hs Hrest]; subst. pose proof Hs as [[? ?] ?].
  specialize (Hpos s rest eq_refl).
  rewrite (proj2 (Z.ltb_lt _ _) Hpos). rewrite u64_small by wsolve.
  set (c1 := match key_rmr key with Some m => _ | None => _ end).
  assert (c_rmr c1 = key_rmr key) as Hc1.
  { unfold c1. clear. destruct (key_rmr key); reflexivity. }
  assert (rcv_moving c1 ∧ rcv_rest c1 = rcv_sge_bytes off s ++ rcv_bytes 0 rest)
    as (Hmv & <-).
  { unfold c1, rcv_rest, rcv_cur, rcv_sge_bytes. fold key.
    destruct (key_rmr key) as [m|] eqn:Hk; simpl.
    - split; [|done]. split; simpl; try done; [wsolve|apply u64_range| |].
      + exists s, rest. split; [done|]. split; [done|]. intros ?. congruence.
      + intros _. pose proof (held_key_rmr _ _ Hk) as Hm. by eapply so_rmr.
    - split; [|done]. split; simpl; try done; [wsolve|wsolve| |].
      + exists s, rest. split; [done|]. split; [done|]. lia.
      + intros _. destruct (decide (key = NTRDMA_RESERVED_DMA_LEKY)); [done|].
        by destruct (Hres ltac:(done)). }
  rewrite <- Hc1. clearbody c1.
  pose proof (rcv_off_update_spec c1 rc Hmv) as Hu.
  destruct (rcv_next_io_off_update c1 rc) as [[more rc'] c']. simpl in *.
  destruct Hu as (-> & Hk & Hu). split; [done|]. split; [|done].
  rewrite Hc1. apply held_key_rmr.
Qed.

Definition rcv_base (c : ntrdma_rcv_cursor) : Z := rb_dma_addr (snd (rcv_target ntc c)).

Lemma rcv_next_bounds c :
  rcv_live c →
  0 < ntrdma_rcv_cursor_next_io_size c <= c_rem c
  ∧ ∀ len, 0 <= len <= ntrdma_rcv_cursor_next_io_size c →
      take (Z.to_nat len) (rcv_cur c) = seqZ (rcv_base c + c_next_io_off c) len.
Proof.
  intros [Hm Hl]. pose proof (cm_rem _ Hm). pose proof (cm_off _ Hm).
  unfold ntrdma_rcv_cursor_next_io_size, rcv_cur, rcv_base, rcv_target, rcv_flat_seg.
  destruct (c_rmr c) as [m|] eqn:Hmr.
  - destruct (Hl ltac:(eauto)) as (b & sg & Hsg & Hoff). rewrite Hsg. simpl.
    pose proof (cm_segs _ Hm ltac:(eauto)) as Hs. rewrite Hsg in Hs.
    inversion Hs as [|? ? [? ?] ?]; subst. rewrite u64_small by wsolve.
    split; [lia|]. intros len Hlen. apply seg_window_take; lia.
  - destruct (cm_sge _ Hm) as (s & rest & Hs & _ & Hlen). specialize (Hlen Hmr). rewrite Hs.
    split; [lia|]. intros len Hl'. fold (rcv_mapped s).
    rewrite drop_seqZ by lia. rewrite take_take.
    replace (Nat.min _ _) with (Z.to_nat len) by lia. by rewrite take_seqZ by lia.
Qed.

Lemma length_rcv_cur c len :
  rcv_live c → 0 <= len <= ntrdma_rcv_cursor_next_io_size c → len <= Z.of_nat (length (rcv_cur c)).
Proof.
  intros Hl Hlen. destruct (rcv_next_bounds c Hl) as [_ H]. specialize (H len Hlen).
  apply (f_equal length) in H. rewrite length_take, length_seqZ in H. lia.
Qed.

Lemma rcv_forward_spec c len rc b :
  base_ok b → rcv_live c → 0 < len <= ntrdma_rcv_cursor_next_io_size c →
  rcv_updated (drop (Z.to_nat len) (rcv_rest c)) b rc
    (ntrdma_rcv_cursor_forward c len rc (hold_rmr (c_rmr c) b)).
Proof.
  intros Hb Hl Hlen. destruct (rcv_next_bounds c Hl) as [Hsz _].
  pose proof (length_rcv_cur c len Hl ltac:(lia)) as Hcur.
  pose proof Hl as [Hm Hlive]. pose proof (cm_rem _ Hm). pose proof (cm_off _ Hm).
  unfold ntrdma_rcv_cursor_forward. rewrite (u64_small (c_rem c - len)) by wsolve.
  unfold rcv_rest. rewrite drop_app_le by lia.
  destruct (cm_sge _ Hm) as (s & rest & Hs & Hkey & Hflat).
  pose proof (cm_ok _ Hm) as Hok. rewrite Hs in Hok.
  inversion Hok as [|? ? [Hsl Hsm] Hok']; subst.
  assert (c_next_io_off c + len < 2 ^ 64) as Hno.
  { revert Hlen. unfold ntrdma_rcv_cursor_next_io_size. destruct (c_rmr c) as [m|] eqn:Hmr.
    - destruct (Hlive ltac:(eauto)) as (b' & sg & Hsg & Hoff). rewrite Hsg. simpl.
      pose proof (cm_segs _ Hm ltac:(eauto)) as Hss. rewrite Hsg in Hss.
      inversion Hss as [|? ? [? ?] ?]; subst. rewrite u64_small by wsolve. wsolve.
    - specialize (Hflat eq_refl). lia. }
  destruct (Z.eqb_spec (c_rem c - len) 0) as [Hz|Hz]; simpl.
  - set (c1 := mk_rcv _ _ _ _ _ _ _).
    pose proof (rcv_update_idle c1 rc b Hb) as Hu. simpl in Hu.
    unfold rcv_cur at 1. rewrite window_drop by lia. rewrite Hz. simpl.
    rewrite (cm_start _ Hm) in Hu.
    apply Hu. split; [done|]. unfold c1. simpl. rewrite Hs. split; [done|]. split.
    + rewrite (cm_start _ Hm). wsolve.
    + intros _. apply (cm_key _ Hm).
  - rewrite u64_small by wsolve. set (c1 := mk_rcv _ _ _ _ _ _ _).
    pose proof (rcv_update_moving c1 rc b) as Hu. simpl in Hu.
    unfold rcv_cur. rewrite window_drop by lia.
    apply Hu. destruct Hm. split; simpl; try done; [lia|lia|].
    exists s, rest. split; [done|]. split; [done|]. intros Hn. specialize (Hflat Hn). lia.
Qed.

Lemma rcv_target_ok c rc rb :
  rcv_live c → rcv_target ntc c = (rc, rb) → 0 <= rc → rb_ok rb ∧ rcv_base c = rb_dma_addr rb.
Proof.
  intros [Hm Hl] Ht Hrc. unfold rcv_base. rewrite Ht. split; [|done].
  unfold rcv_target in Ht. destruct (c_rmr c) as [m|] eqn:Hmr.
  - destruct (Hl ltac:(eauto)) as (b & sg & Hsg & _). rewrite Hsg in Ht.
    injection Ht as <- <-. pose proof (cm_segs _ Hm ltac:(eauto)) as Hs. rewrite Hsg in Hs.
    by inversion Hs.
  - destruct (cm_sge _ Hm) as (s & rest & Hs & Hk & _). rewrite Hs in Ht.
    pose proof (cm_ok _ Hm) as Hok. rewrite Hs in Hok. inversion Hok as [|? ? [_ Hmap] _]; subst.
    rewrite <- Hk in Hmap. specialize (Hmap (cm_none _ Hm Hmr)).
    unfold rcv_mapped in Hmap. by rewrite Ht in Hmap.
Qed.

(** ** One piece *)

(** What a request for a piece did: it was queued and copies [pairs], or it
    failed and the queue is as it was. *)
Definition piece_done (pairs : list (Z * Z)) (rc : Z) (s s' : dma_io) : Prop :=
  (rc = 0 ∧ ∃ q, io_log s' = io_log s ++ [q] ∧ req_pairs q = pairs)
  ∨ (- 4096 < rc < 0 ∧ io_log s' = io_log s).

Lemma snd_request_spec c rb dst_off len wait s rc s' :
  snd_live c → rb_ok rb → 0 <= dst_off < 2 ^ 64 →
  0 < len <= ntrdma_snd_cursor_next_io_size c →
  snd_request c rb dst_off len wait s = (rc, s') →
  piece_done (zip (seqZ (rb_dma_addr rb + dst_off) len)
                  (seqZ (snd_base c + s_next_io_off c) len)) rc s s'.
Proof.
  intros [Hm Hl] (Hrs & Hra & Hre) Hdo. pose proof (sm_rem _ Hm). pose proof (sm_off _ Hm).
  unfold ntrdma_snd_cursor_next_io_size, snd_request, snd_base.
  assert (∀ size dma off, 0 <= off < 2 ^ 64 → size <= 2 ^ 62 → 0 <= dma → dma + size < 2 ^ 64 →
    0 < len → ∀ fence,
    (if negb (ntc_segment_valid size off len) then (- EINVAL, s)
     else if negb (ntc_segment_valid (rb_size rb) dst_off len) then (- EINVAL, s)
     else ntc_req_memcpy (u64 (rb_dma_addr rb + dst_off)) (Mem (u64 (dma + off))) len fence wait s)
    = (rc, s') →
    piece_done (zip (seqZ (rb_dma_addr rb + dst_off) len) (seqZ (dma + off) len)) rc s s') as Hgen.
  { intros size dma off Ho Hsz Hd Hde Hlen fence.
    destruct (ntc_segment_valid size off len) eqn:H1; simpl; [|intros [= <- <-]; by right].
    destruct (ntc_segment_valid (rb_size rb) dst_off len) eqn:H2; simpl; [|intros [= <- <-]; by right].
    apply segment_valid_bounds in H1, H2; try lia. repeat wstep. intros Hr.
    apply req_memcpy_outcome in Hr as [(-> & _ & Hlog) | [Hneg Hlog]]; [left|by right].
    split; [done|]. eexists. by split. }
  destruct (s_mr c) as [m|] eqn:Hmr.
  - destruct (Hl ltac:(eauto)) as (b & sg & Hsg & Hoff). rewrite Hsg. simpl.
    pose proof (sm_segs _ Hm ltac:(eauto)) as Hs. rewrite Hsg in Hs.
    inversion Hs as [|? ? (? & ? & ?) ?]; subst. intros Hlen. apply Hgen; lia.
  - destruct (sm_sge _ Hm) as (sge & rest & Hs & _). pose proof (sm_ok _ Hm) as Hok.
    rewrite Hs in *. simpl. inversion Hok as [|? ? ((? & ?) & ? & ?) ?]; subst.
    unfold ntc_local_buf_map_dma. intros Hlen.
    replace (sge_length sge mod 2 ^ 62) with (sge_length sge) by (rewrite Z.mod_small; lia).
    rewrite Z.eqb_refl. simpl. unfold ntc_request_memcpy_fenced, ntc_request_memcpy. simpl.
    apply Hgen; lia.
Qed.

Definition next_len (snd : ntrdma_snd_cursor) (rcv : ntrdma_rcv_cursor) : Z :=
  Z.min (ntrdma_snd_cursor_next_io_size snd) (ntrdma_rcv_cursor_next_io_size rcv).

Definition next_pairs (snd : ntrdma_snd_cursor) (rcv : ntrdma_rcv_cursor) : list (Z * Z) :=
  zip (take (Z.to_nat (next_len snd rcv)) (rcv_rest rcv))
      (take (Z.to_nat (next_len snd rcv)) (snd_rest snd)).

Lemma map_rc_sign d rc rb : ntc_remote_buf_map ntc d = (rc, rb) → rc = 0 ∨ rc = - EIO.
Proof.
  unfold ntc_remote_buf_map. destruct (_ =? 0); [naive_solver|].
  destruct (ntc_peer_addr _ _) as [[? ?]|]; [|naive_solver].
  destruct (dma_map_resource _ _); naive_solver.
Qed.

Lemma rcv_target_rc c rc rb : rcv_target ntc c = (rc, rb) → rc = 0 ∨ rc = - EIO.
Proof.
  unfold rcv_target. destruct (c_rmr c); [naive_solver|].
  destruct (c_sge c); [naive_solver|]. apply map_rc_sign.
Qed.

Lemma next_io_spec rcv snd wait (w : zip_world W) :
  snd_live snd → rcv_live rcv →
  let '(r, w') := ntrdma_cursor_next_io ntc rcv snd wait w in
  zw_mem w' = zw_mem w
  ∧ ((r = next_len snd rcv ∧ 0 < r
      ∧ ∃ q, io_log (zw_io w') = io_log (zw_io w) ++ [q] ∧ req_pairs q = next_pairs snd rcv)
     ∨ (- 4096 < r < 0 ∧ io_log (zw_io w') = io_log (zw_io w))).
Proof.
  intros Hs Hr. unfold ntrdma_cursor_next_io. fold (next_len snd rcv).
  destruct (snd_next_bounds snd Hs) as [Hsb Hst]. destruct (rcv_next_bounds rcv Hr) as [Hrb Hrt].
  pose proof (length_snd_cur snd (next_len snd rcv) Hs ltac:(unfold next_len; lia)) as Hsl.
  pose proof (length_rcv_cur rcv (next_len snd rcv) Hr ltac:(unfold next_len; lia)) as Hrl.
  unfold next_pairs, snd_rest, rcv_rest. rewrite !take_app_le by lia.
  assert (0 < next_len snd rcv < 2 ^ 32) as Hn.
  { destruct Hs as [Hm _]. pose proof (sm_rem _ Hm). unfold next_len. lia. }
  rewrite Hst, Hrt by (unfold next_len; lia).
  rewrite s64_small by wsolve. rewrite (proj2 (Z.ltb_ge _ _)) by lia.
  destruct (rcv_target ntc rcv) as [rc rb] eqn:Ht.
  destruct (Z.ltb_spec rc 0).
  { split; [done|]. right. split; [|done]. pose proof (rcv_target_rc _ _ _ Ht). unfold EIO in *. lia. }
  destruct (rcv_target_ok _ _ _ Hr Ht ltac:(lia)) as [Hrbok ->].
  destruct (snd_request _ _ _ _ _ _) as [rc' io] eqn:Hreq.
  apply snd_request_spec in Hreq as [(-> & q & Hlog & Hq) | [Hneg Hlog]];
    [| |done|done|destruct Hr as [Hm _]; apply (cm_off _ Hm)|unfold next_len in *; lia].
  - simpl. split; [done|]. left. split; [done|]. split; [lia|]. eauto.
  - rewrite (proj2 (Z.ltb_lt _ _) (proj2 Hneg)). split; [by destruct (_ =? _)|]. right.
    split; [done|]. by destruct (_ =? _).
Qed.

(** ** The loop *)

Lemma live_base_rcv snd rcv : held_mr (s_mr snd) → held_rmr (c_rmr rcv) →
  base_ok (hold_rmr (c_rmr rcv) w0) ∧ base_ok (hold_mr (s_mr snd) w0).
Proof.
  intros. split; [by apply base_ok_hold_rmr|by apply base_ok_hold_mr].
Qed.

Lemma snd_live_held c : snd_live c → held_mr (s_mr c).
Proof. intros [Hm _]. rewrite (sm_key _ Hm). apply held_key_mr. Qed.

Lemma rcv_live_held c : rcv_live c → held_rmr (c_rmr c).
Proof. intros [Hm _]. rewrite (cm_key _ Hm). apply held_key_rmr. Qed.

Definition log_pairs (l : list dma_req) : list (Z * Z) := concat (req_pairs <$> l).

(** What the loop returns: the copies requested are a prefix of the pairing
    of the two byte sequences, and all of it when it succeeds. *)
Definition loop_post (R S : list Z) (left rc total : Z) (w : zip_world W)
    (out : Z * Z * ntrdma_snd_cursor * ntrdma_rcv_cursor * zip_world W) : Prop :=
  let '(rc', total', snd', rcv', w') := out in
  held_mr (s_mr snd') ∧ held_rmr (c_rmr rcv')
  ∧ zw_mem w' = hold_mr (s_mr snd') (hold_rmr (c_rmr rcv') w0)
  ∧ ∃ reqs, io_log (zw_io w') = io_log (zw_io w) ++ reqs
    ∧ log_pairs reqs `prefix_of` zip R S
    ∧ ((rc' = 0 ∧ log_pairs reqs = zip R S ∧ Z.of_nat (length (log_pairs reqs)) = left
        ∧ Z.of_nat (length S) = left ∧ total' = total + left ∧ total' < 2 ^ 32)
       ∨ rc' < 0).

Lemma next_pairs_length snd rcv :
  snd_live snd → rcv_live rcv →
  length (next_pairs snd rcv) = Z.to_nat (next_len snd rcv)
  ∧ (Z.to_nat (next_len snd rcv) <= length (rcv_rest rcv))%nat
  ∧ (Z.to_nat (next_len snd rcv) <= length (snd_rest snd))%nat.
Proof.
  intros Hs Hr.
  destruct (snd_next_bounds snd Hs) as [Hsb Hst]. destruct (rcv_next_bounds rcv Hr) as [Hrb Hrt].
  pose proof (length_snd_cur snd (next_len snd rcv) Hs ltac:(unfold next_len; lia)) as Hsl.
  pose proof (length_rcv_cur rcv (next_len snd rcv) Hr ltac:(unfold next_len; lia)) as Hrl.
  unfold next_pairs, snd_rest, rcv_rest. rewrite length_zip, !length_take, !length_app. lia.
Qed.

(** Adding the first piece to the outcome of the rest. *)
Lemma loop_post_step snd rcv left rc total len w w1 q out :
  snd_live snd → rcv_live rcv → len = next_len snd rcv → 0 <= len →
  io_log (zw_io w1) = io_log (zw_io w) ++ [q] → req_pairs q = next_pairs snd rcv →
  loop_post (drop (Z.to_nat len) (rcv_rest rcv)) (drop (Z.to_nat len) (snd_rest snd))
    (left - len) rc (total + len) w1 out →
  loop_post (rcv_rest rcv) (snd_rest snd) left rc total w out.
Proof.
  intros Hs Hr -> Hlen Hlog Hq. destruct out as [[[[rc' total'] snd'] rcv'] w'].
  intros (H1 & H2 & H3 & reqs & H4 & H5 & H6).
  destruct (next_pairs_length snd rcv Hs Hr) as (L1 & L2 & L3).
  split; [done|]. split; [done|]. split; [done|].
  exists (q :: reqs). rewrite H4, Hlog, <- app_assoc. split; [done|].
  change (log_pairs (q :: reqs)) with (req_pairs q ++ log_pairs reqs). rewrite Hq.
  rewrite (zip_split (rcv_rest rcv) (snd_rest snd) (Z.to_nat (next_len snd rcv))) by done.
  fold (next_pairs snd rcv). split; [by apply prefix_app|].
  destruct H6 as [(-> & H6 & H7 & H8 & H9 & H10)|H6]; [left|by right].
  rewrite H6. rewrite length_drop in H8. rewrite <- H6, length_app, L1. split_and!; try done; lia.
Qed.

Lemma loop_post_fail R S left rc total rc' total' snd rcv w w' :
  snd_live snd → rcv_live rcv →
  zw_mem w' = hold_mr (s_mr snd) (hold_rmr (c_rmr rcv) w0) →
  io_log (zw_io w') = io_log (zw_io w) → rc' < 0 →
  loop_post R S left rc total w (rc', total', snd, rcv, w').
Proof.
  intros Hs Hr Hm Hl Hrc. split; [by apply snd_live_held|]. split; [by apply rcv_live_held|].
  split; [done|]. exists []. rewrite app_nil_r. split; [done|]. split; [apply prefix_nil|by right].
Qed.

(** The loop, with enough fuel for the bytes that are left. *)
Lemma zip_loop_spec n wait snd rcv total (w : zip_world W) :
  snd_live snd → rcv_live rcv → 0 <= total < 2 ^ 32 →
  snd_left snd <= Z.of_nat n →
  zw_mem w = hold_mr (s_mr snd) (hold_rmr (c_rmr rcv) w0) →
  ∃ out, zip_loop n ntc wait snd rcv 0 total w = Some out
    ∧ loop_post (rcv_rest rcv) (snd_rest snd) (snd_left snd) 0 total w out.
Proof.
  revert snd rcv total w. induction n as [|n IH]; intros snd rcv total w Hs Hr Htot Hfuel Hmem.
  { exfalso. pose proof Hs as [Hm _]. pose proof (sm_rem _ Hm). unfold snd_left in Hfuel.
    pose proof (sm_ok _ Hm) as Hok. pose proof (snd_length_nonneg (tail (s_sge snd))) as Hl.
    destruct Hok; simpl in *; specialize (Hl ltac:(done)); lia. }
  simpl. pose proof (next_io_spec rcv snd wait w Hs Hr) as Hio.
  destruct (ntrdma_cursor_next_io ntc rcv snd wait w) as [len w1].
  destruct Hio as (Hmem1 & [(Hlen & Hpos & q & Hlog & Hq)|(Hneg & Hlog)]).
  2:{ rewrite (proj2 (Z.ltb_lt _ _)) by lia. eexists. split; [done|].
      apply loop_post_fail; try done; [congruence|]. rewrite s32_small by wsolve. lia. }
  rewrite (proj2 (Z.ltb_ge _ _)) by lia.
  destruct (snd_next_bounds snd Hs) as [Hsb _]. destruct (rcv_next_bounds rcv Hr) as [Hrb _].
  assert (len <= ntrdma_snd_cursor_next_io_size snd
          ∧ len <= ntrdma_rcv_cursor_next_io_size rcv) as [Hls Hlr] by (unfold next_len in Hlen; lia).
  assert (len < 2 ^ 32) as Hl32 by (destruct Hs as [Hm _]; pose proof (sm_rem _ Hm); lia).
  rewrite (s64_small (total + len)), (u32_small len) by wsolve.
  pose proof (loop_post_step snd rcv (snd_left snd) 0 total len w w1 q) as Hstep.
  destruct (Z.eqb_spec (total + len) (u32 (total + len))) as [Hov|Hov]; simpl.
  2:{ eexists. split; [done|]. apply Hstep; try done; [lia|].
      apply loop_post_fail; try done. congruence. }
  pose proof (u32_range (total + len)) as Hr32. rewrite <- Hov in *.
  rewrite Hmem1, Hmem.
  pose proof (snd_forward_spec snd len 0 _ (proj1 (live_base_rcv snd rcv (snd_live_held _ Hs) (rcv_live_held _ Hr)))
                Hs ltac:(lia)) as Hf.
  destruct (ntrdma_snd_cursor_forward _ _ _ _) as [[[more rc'] snd'] m'].
  destruct Hf as (-> & Hheld & Hf). destruct more; simpl.
  - destruct Hf as (-> & Hs' & Hrest' & Hleft').
    rewrite hold_comm.
    pose proof (rcv_forward_spec rcv len 0 _ (proj2 (live_base_rcv snd' rcv Hheld (rcv_live_held _ Hr)))
                  Hr ltac:(lia)) as Hg.
    destruct (ntrdma_rcv_cursor_forward _ _ _ _) as [[[more rc'] rcv'] m'].
    destruct Hg as (-> & Hheld' & Hg). rewrite <- hold_comm. destruct more; simpl.
    + destruct Hg as (-> & Hr' & Hrest2).
      destruct (IH snd' rcv' (total + len) (zw_set_mem (hold_mr (s_mr snd') (hold_rmr (c_rmr rcv') w0))
                  (zw_set_mem (hold_mr (s_mr snd') (hold_rmr (c_rmr rcv) w0)) w1))) as (out & Hout & Hpost);
        try done; [lia|].
      exists out. split; [done|]. apply Hstep; try done; [lia|].
      rewrite Hrest', Hrest2, Hleft' in Hpost. done.
    + subst rc'. eexists. split; [done|]. apply Hstep; try done; [lia|].
      split; [done|]. split; [done|]. split; [done|]. exists []. rewrite app_nil_r.
      split; [done|]. split; [apply prefix_nil|]. by right.
  - eexists. split; [done|]. apply Hstep; try done; [lia|].
    split; [done|]. split; [by apply rcv_live_held|]. split; [done|].
    exists []. rewrite app_nil_r. split; [done|]. split; [apply prefix_nil|].
    destruct Hf as [->|(-> & Hnil & Hz)]; [by right|]. left.
    rewrite Hnil, Hz, zip_with_nil_r. unfold is_u32 in *. split_and!; try done; lia.
Qed.

(** ** Immediate data *)

Definition imm_len (data : list Z) (rcv : ntrdma_rcv_cursor) : Z :=
  Z.min (Z.of_nat (length data)) (ntrdma_rcv_cursor_next_io_size rcv).

Definition log_imm_pairs (l : list dma_req) : list (Z * Z) := concat (req_imm_pairs <$> l).

Lemma next_imm_spec rcv data (w : zip_world W) :
  data ≠ [] → Z.of_nat (length data) < 2 ^ 32 → rcv_live rcv →
  let '(r, w') := ntrdma_cursor_next_imm_io ntc rcv data w in
  let n := Z.to_nat (imm_len data rcv) in
  zw_mem w' = zw_mem w
  ∧ ((r = imm_len data rcv ∧ 0 < r
      ∧ ∃ q, io_log (zw_io w') = io_log (zw_io w) ++ [q]
          ∧ req_imm_pairs q = zip (take n (rcv_rest rcv)) (take n data))
     ∨ (- 4096 < r < 0 ∧ io_log (zw_io w') = io_log (zw_io w))).
Proof.
  intros Hne Hd32 Hr. unfold ntrdma_cursor_next_imm_io. fold (imm_len data rcv).
  destruct (rcv_next_bounds rcv Hr) as [Hrb Hrt].
  assert (0 < Z.of_nat (length data)) by (destruct data; simpl; [done|lia]).
  assert (0 < imm_len data rcv < 2 ^ 32
    ∧ imm_len data rcv <= ntrdma_rcv_cursor_next_io_size rcv
    ∧ imm_len data rcv <= Z.of_nat (length data)) as (Hn & Hn1 & Hn2) by (unfold imm_len; lia).
  pose proof (length_rcv_cur rcv (imm_len data rcv) Hr ltac:(lia)) as Hrl.
  unfold rcv_rest. rewrite take_app_le by lia. rewrite Hrt by lia.
  rewrite s64_small by wsolve. rewrite (proj2 (Z.ltb_ge _ _)) by lia.
  destruct (rcv_target ntc rcv) as [rc rb] eqn:Ht.
  destruct (Z.ltb_spec rc 0).
  { split; [done|]. right. split; [|done]. pose proof (rcv_target_rc _ _ _ Ht). unfold EIO in *. lia. }
  destruct (rcv_target_ok _ _ _ Hr Ht ltac:(lia)) as [(Hb1 & Hb2 & Hb3) ->].
  unfold ntc_mr_request_memcpy_unfenced_imm. rewrite length_take.
  replace (Z.of_nat (Nat.min _ _)) with (imm_len data rcv) by lia.
  pose proof (cm_off _ (proj1 Hr)) as Hoff.
  destruct (ntc_segment_valid _ _ _) eqn:Hv; simpl.
  2:{ split; [done|]. right. done. }
  apply segment_valid_bounds in Hv; [|lia..]. rewrite u64_small by lia.
  destruct (ntc_req_imm _ _ _ _) as [rc' io] eqn:Hi.
  apply req_imm_outcome in Hi as [(-> & _ & Hlog) | [Hneg Hlog]].
  - simpl. split; [done|]. left. split; [done|]. split; [lia|]. eexists. split; [done|].
    unfold req_imm_pairs. simpl. rewrite length_take.
    by replace (Z.of_nat (Nat.min _ _)) with (imm_len data rcv) by lia.
  - rewrite (proj2 (Z.ltb_lt _ _) (proj2 Hneg)). split; [done|]. right. done.
Qed.

Definition imm_post (R : list Z) (data : list Z) (w : zip_world W)
    (out : Z * ntrdma_rcv_cursor * zip_world W) : Prop :=
  let '(rc', rcv', w') := out in
  held_rmr (c_rmr rcv') ∧ zw_mem w' = hold_rmr (c_rmr rcv') w0
  ∧ ∃ reqs, io_log (zw_io w') = io_log (zw_io w) ++ reqs
    ∧ log_imm_pairs reqs `prefix_of` zip R data
    ∧ ((rc' = 0 ∧ log_imm_pairs reqs = zip R data
        ∧ length (log_imm_pairs reqs) = length data) ∨ rc' < 0).

Lemma imm_post_step R data n w w1 q out :
  (n <= length R)%nat → (n <= length data)%nat →
  io_log (zw_io w1) = io_log (zw_io w) ++ [q] →
  req_imm_pairs q = zip (take n R) (take n data) →
  imm_post (drop n R) (drop n data) w1 out → imm_post R data w out.
Proof.
  intros Hn1 Hn2 Hlog Hq. destruct out as [[rc' rcv'] w'].
  intros (H1 & H2 & reqs & H3 & H4 & H5).
  split; [done|]. split; [done|]. exists (q :: reqs). rewrite H3, Hlog, <- app_assoc.
  split; [done|]. change (log_imm_pairs (q :: reqs)) with (req_imm_pairs q ++ log_imm_pairs reqs).
  rewrite Hq, (zip_split R data n) by done. split; [by apply prefix_app|].
  destruct H5 as [(-> & H5 & H6)|H5]; [left|by right]. rewrite length_drop in H6.
  split; [done|]. split; [by rewrite H5|].
  rewrite length_app, length_zip, !length_take. lia.
Qed.

Lemma imm_post_stop R data rc rcv (w w' : zip_world W) :
  held_rmr (c_rmr rcv) → zw_mem w' = hold_rmr (c_rmr rcv) w0 →
  io_log (zw_io w') = io_log (zw_io w) → rc < 0 ∨ (rc = 0 ∧ data = []) →
  imm_post R data w (rc, rcv, w').
Proof.
  intros H1 H2 H3 H4. split; [done|]. split; [done|]. exists []. rewrite app_nil_r.
  split; [done|]. split; [apply prefix_nil|].
  destruct H4 as [?|[-> ->]]; [by right|left]. by rewrite zip_with_nil_r.
Qed.

Lemma zip_imm_loop_spec n rcv data (w : zip_world W) :
  rcv_live rcv → data ≠ [] → Z.of_nat (length data) < 2 ^ 32 → (length data <= n)%nat →
  zw_mem w = hold_rmr (c_rmr rcv) w0 →
  ∃ out, zip_imm_loop n ntc rcv data 0 w = Some out ∧ imm_post (rcv_rest rcv) data w out.
Proof.
  revert rcv data w. induction n as [|n IH]; intros rcv data w Hr Hne H32 Hfuel Hmem.
  { destruct data; simpl in *; [done|lia]. }
  simpl. pose proof (next_imm_spec rcv data w Hne H32 Hr) as Hio.
  destruct (ntrdma_cursor_next_imm_io ntc rcv data w) as [len w1].
  destruct Hio as (Hmem1 & [(Hlen & Hpos & q & Hlog & Hq)|(Hneg & Hlog)]).
  2:{ rewrite (proj2 (Z.ltb_lt _ _)) by lia. eexists. split; [done|].
      apply imm_post_stop; [by apply rcv_live_held|congruence|done|].
      left. rewrite s32_small by wsolve. lia. }
  rewrite (proj2 (Z.ltb_ge _ _)) by lia. rewrite <- Hlen in Hq.
  destruct (rcv_next_bounds rcv Hr) as [Hrb _].
  assert (len <= ntrdma_rcv_cursor_next_io_size rcv ∧ len <= Z.of_nat (length data))
    as [Hlr Hld] by (unfold imm_len in Hlen; lia).
  pose proof (length_rcv_cur rcv len Hr ltac:(lia)) as Hrl.
  assert (Z.to_nat len <= length (rcv_rest rcv))%nat as HlR
    by (unfold rcv_rest; rewrite length_app; lia).
  pose proof (λ out, imm_post_step (rcv_rest rcv) data (Z.to_nat len) w w1 q out
    HlR ltac:(lia) Hlog Hq) as Hstep.
  assert (length (drop (Z.to_nat len) data) < length data)%nat as Hlt
    by (rewrite length_drop; lia).
  destruct (drop (Z.to_nat len) data) as [|d data'] eqn:Hdrop.
  { eexists. split; [done|]. apply Hstep. apply imm_post_stop; [by apply rcv_live_held|congruence|done|].
    by right. }
  rewrite Hmem1, Hmem.
  pose proof (rcv_forward_spec rcv len 0 w0 base_ok_refl Hr ltac:(lia)) as Hg.
  destruct (ntrdma_rcv_cursor_forward _ _ _ _) as [[[more rc'] rcv'] m'].
  destruct Hg as (-> & Hheld' & Hg). destruct more; simpl.
  - destruct Hg as (-> & Hr' & Hrest).
    destruct (IH rcv' (d :: data') (zw_set_mem (hold_rmr (c_rmr rcv') w0) w1)) as (out & Hout & Hpost);
      try done; [lia|lia|].
    exists out. split; [done|]. apply Hstep. by rewrite Hrest in Hpost.
  - subst rc'. eexists. split; [done|]. apply Hstep. apply imm_post_stop; try done. by left.
Qed.

End Proofs.

(** Giving back what the two cursors hold. *)
Lemma deinit_both `{MO : MemStoreOk W} (w0 : W) snd rcv :
  mem_wf w0 → held_mr w0 (s_mr snd) → held_rmr w0 (c_rmr rcv) →
  ntrdma_rcv_cursor_deinit rcv
    (ntrdma_snd_cursor_deinit snd (hold_mr (s_mr snd) (hold_rmr (c_rmr rcv) w0))) = w0.
Proof.
  intros Hwf Hs Hr. unfold ntrdma_snd_cursor_deinit, ntrdma_rcv_cursor_deinit.
  pose proof (mr_release_hold w0 (s_mr snd) false (hold_rmr (c_rmr rcv) w0)
                (base_ok_hold_rmr w0 _ _ Hr (base_ok_refl w0 Hwf)) Hs) as H.
  destruct (mr_release _ _ _) as [o m]. destruct H as [-> ->]. simpl.
  pose proof (rmr_release_hold w0 (c_rmr rcv) false w0 (base_ok_refl w0 Hwf) Hr) as H.
  destruct (rmr_release _ _ _) as [o m]. by destruct H as [-> ->].
Qed.

Lemma deinit_rcv `{MO : MemStoreOk W} (w0 : W) rcv :
  mem_wf w0 → held_rmr w0 (c_rmr rcv) →
  ntrdma_rcv_cursor_deinit rcv (hold_rmr (c_rmr rcv) w0) = w0.
Proof. intros Hwf Hr. apply (deinit_both w0 (ntrdma_snd_cursor_init []) rcv); done. Qed.

(** ** Whole transfers *)

(** What a whole transfer does: [out] is its result, the reported length and the
    world after it. *)
Definition rdma_post `{MO : MemStoreOk W} `{K : Kernel} ntc len0 rcvs snds off (w : zip_world W)
    (out : Z * Z * zip_world W) : Prop :=
  let '(rc, len, w') := out in
  let R := rcv_bytes (zw_mem w) ntc off rcvs in
  let S := snd_bytes (zw_mem w) snds in
  zw_mem w' = zw_mem w
  ∧ ∃ reqs, io_log (zw_io w') = io_log (zw_io w) ++ reqs
    ∧ log_pairs reqs `prefix_of` zip R S
    ∧ ((rc = 0 ∧ len = snd_length snds ∧ len < 2 ^ 32
        ∧ log_pairs reqs = zip R S
        ∧ Z.of_nat (length S) = len ∧ Z.of_nat (length (log_pairs reqs)) = len)
       ∨ (rc < 0 ∧ len = len0)).

Lemma zip_rdma_total `{MO : MemStoreOk W} `{K : Kernel} ntc len0 rcvs snds off wait (w : zip_world W) :
  mem_wf (zw_mem w) → store_ok (zw_mem w) →
  Forall snd_sge_ok snds → Forall (rcv_sge_ok ntc) rcvs → is_u32 off →
  ∃ out, ntrdma_zip_rdma ntc len0 rcvs snds off wait w = Some out ∧ rdma_post ntc len0 rcvs snds off w out.
Proof.
  intros Hwf Hst Hs Hr Ho. unfold ntrdma_zip_rdma.
  unfold rdma_post. cbv zeta. set (w0 := zw_mem w) in *.
  set (R := rcv_bytes w0 ntc off rcvs). set (S := snd_bytes w0 snds).
  pose proof (snd_update_idle w0 Hwf Hst (ntrdma_snd_cursor_init snds) 0 w0 (base_ok_refl w0 Hwf)) as Hu.
  simpl in Hu. specialize (Hu ltac:(split; [done|split; [done|by intros [? ?]]])).
  destruct (ntrdma_snd_cursor_update _ _ _) as [[[more rc] snd] m].
  destruct Hu as (-> & Hheld & Hu). fold S in Hu. destruct more; simpl.
  2:{ eexists. split; [done|]. simpl. split.
      { apply (deinit_both w0 snd (ntrdma_rcv_cursor_init rcvs off)); done. }
      exists []. rewrite app_nil_r. split; [done|]. split; [apply prefix_nil|].
      destruct Hu as [->|(-> & -> & ->)]; [by right|left]. by rewrite zip_with_nil_r. }
  destruct Hu as (-> & Hlive & HS & HL).
  pose proof (rcv_update_idle w0 Hwf ntc Hst (ntrdma_rcv_cursor_init rcvs off) 0 _
                (base_ok_hold_mr w0 _ _ Hheld (base_ok_refl w0 Hwf))) as Hv.
  simpl in Hv. specialize (Hv ltac:(split; [done|split; [done|split; [done|by intros [? ?]]]])).
  destruct (ntrdma_rcv_cursor_update _ _ _) as [[[more rc] rcv] m].
  destruct Hv as (-> & Hheld' & Hv). rewrite <- hold_comm. destruct more; simpl.
  2:{ subst rc. eexists. split; [done|]. simpl. split; [by apply deinit_both|].
      exists []. rewrite app_nil_r. split; [done|]. split; [apply prefix_nil|]. by right. }
  destruct Hv as (-> & Hlive' & HR). fold R in HR.
  match goal with |- context [zip_loop ?n ntc wait snd rcv 0 0 ?ww] =>
    destruct (zip_loop_spec w0 Hwf ntc Hst n wait snd rcv 0 ww Hlive Hlive') as (out & -> & Hp) end;
    [done|pose proof (snd_length_nonneg _ Hs); lia|done|].
  destruct out as [[[[rc total] snd'] rcv'] w']. destruct Hp as (H1 & H2 & H3 & reqs & H4 & H5 & H6).
  rewrite HR, HS, HL in *. eexists. split; [done|]. simpl. split.
  { rewrite H3. by apply deinit_both. }
  exists reqs. split; [done|]. split; [done|].
  destruct H6 as [(-> & ? & ? & ? & ? & ?)|Hneg]; [left|right].
  - simpl. split_and!; try done; lia.
  - split; [done|]. by destruct (Z.eqb_spec rc 0); [lia|].
Qed.

Definition rdma_imm_post `{MO : MemStoreOk W} `{K : Kernel} ntc rcvs data off (w : zip_world W)
    (out : Z * zip_world W) : Prop :=
  let '(rc, w') := out in
  let R := rcv_bytes (zw_mem w) ntc off rcvs in
  zw_mem w' = zw_mem w
  ∧ ∃ reqs, io_log (zw_io w') = io_log (zw_io w) ++ reqs
    ∧ log_imm_pairs reqs `prefix_of` zip R data
    ∧ ((rc = 0 ∧ log_imm_pairs reqs = zip R data
        ∧ length (log_imm_pairs reqs) = length data) ∨ rc < 0).

Lemma zip_rdma_imm_total `{MO : MemStoreOk W} `{K : Kernel} ntc rcvs data off (w : zip_world W) :
  mem_wf (zw_mem w) → store_ok (zw_mem w) →
  Forall (rcv_sge_ok ntc) rcvs → is_u32 off → is_u32 (Z.of_nat (length data)) →
  ∃ out, ntrdma_zip_rdma_imm ntc rcvs data off w = Some out ∧ rdma_imm_post ntc rcvs data off w out.
Proof.
  intros Hwf Hst Hr Ho Hd. unfold ntrdma_zip_rdma_imm, rdma_imm_post.
  cbv zeta. set (w0 := zw_mem w) in *. set (R := rcv_bytes w0 ntc off rcvs).
  destruct data as [|d data].
  { eexists. split; [done|]. split; [done|]. exists []. rewrite app_nil_r.
    split; [done|]. split; [apply prefix_nil|]. left. by rewrite zip_with_nil_r. }
  pose proof (rcv_update_idle w0 Hwf ntc Hst (ntrdma_rcv_cursor_init rcvs off) 0 _
                (base_ok_refl w0 Hwf)) as Hv.
  simpl in Hv. specialize (Hv ltac:(split; [done|split; [done|split; [done|by intros [? ?]]]])).
  destruct (ntrdma_rcv_cursor_update _ _ _) as [[[more rc] rcv] m].
  destruct Hv as (-> & Hheld & Hv). destruct more; cbn [negb].
  - destruct Hv as (-> & Hlive & HR). fold R in HR.
    match goal with |- context [zip_imm_loop ?n ntc rcv ?dd 0 ?ww] =>
      destruct (zip_imm_loop_spec w0 Hwf ntc Hst n rcv dd ww Hlive) as (out & -> & Hp) end;
      [done|apply Hd|done|done|].
    destruct out as [[rc rcv'] w']. destruct Hp as (H1 & H2 & reqs & H3 & H4 & H5).
    rewrite HR in *. eexists. split; [done|]. split.
    { simpl. rewrite H2. by apply deinit_rcv. }
    exists reqs. done.
  - subst rc. eexists. split; [done|]. split; [by apply deinit_rcv|]. exists [].
    rewrite app_nil_r. split; [done|]. split; [apply prefix_nil|]. by right.
Qed.

(** ** Properties *)

(** C7: [ntrdma_zip_rdma] always terminates, gives back every reference it
    takes, and whatever happens the copies it has requested are an initial
    part, in order, of the pairing of the bytes of the receive list with the
    bytes of the send list.  When it returns 0 the requested copies are exactly
    the whole send list onto the receive list, every byte of it lies inside
    the regions and buffers named, and the reported length is the length of
    the send list; otherwise the result is negative and the length is not
    written. *)
Theorem zip_rdma_moves_exact_bytes `{MO : MemStoreOk W} `{K : Kernel} ntc len0
    rcvs snds off wait (w : zip_world W) :
  mem_wf (zw_mem w) → store_ok (zw_mem w) →
  Forall snd_sge_ok snds → Forall (rcv_sge_ok ntc) rcvs → is_u32 off →
  let R := rcv_bytes (zw_mem w) ntc off rcvs in
  let S := snd_bytes (zw_mem w) snds in
  ∃ rc len w',
    ntrdma_zip_rdma ntc len0 rcvs snds off wait w = Some (rc, len, w')
    ∧ zw_mem w' = zw_mem w
    ∧ ∃ reqs, io_log (zw_io w') = io_log (zw_io w) ++ reqs
      ∧ log_pairs reqs `prefix_of` zip R S
      ∧ ((rc = 0 ∧ len = snd_length snds ∧ len < 2 ^ 32
          ∧ log_pairs reqs = zip R S
          ∧ Z.of_nat (length S) = len ∧ Z.of_nat (length (log_pairs reqs)) = len)
         ∨ (rc < 0 ∧ len = len0)).
Proof.
  intros Hwf Hst Hs Hr Ho R S.
  destruct (zip_rdma_total ntc len0 rcvs snds off wait w Hwf Hst Hs Hr Ho) as ([[rc len] w'] & H & Hp).
  by exists rc, len, w'.
Qed.

(** Split a [Forall] over a concrete list. *)
Ltac forall_split :=
  repeat first [apply List.Forall_nil | apply List.Forall_cons].

(** A device with one local and one remote region, each of two segments. *)
Definition ex_store : list_store :=
  mk_store [mk_mr 1 0 0 4096 16 [mk_mr_buf 8 None 65536 2; mk_mr_buf 8 None 131072 2]]
           [mk_rmr 2 0 0 8192 24 [mk_remote_buf 12 1048576 0; mk_remote_buf 12 2097152 0]] 0 0.
Definition ex_world : zip_world list_store :=
  mk_world ex_store (mk_io 0 (mk_dma_chan 0 0 0 0 0) [] 0 0) [] false.
Definition ex_snds : list ib_sge := [mk_sge 4100 10 1; mk_sge 262144 3 NTRDMA_RESERVED_DMA_LEKY].
Definition ex_rcvs : list ntrdma_wr_rcv_sge := [RcvSge (mk_sge 8200 6 2); RcvSge (mk_sge 8194 14 2)].

Lemma ex_store_ok : store_ok ex_store.
Proof.
  split; intros k m H; apply lookup_by_key in H as [_ H];
    apply list_elem_of_singleton in H as ->; forall_split; repeat split; simpl; wsolve.
Qed.

Lemma zip_rdma_moves_exact_bytes_witness :
  ∃ rc len w',
    ntrdma_zip_rdma (K := kernel_good) ex_ntc 7 ex_rcvs ex_snds 2 NTC_DMA_WAIT ex_world
      = Some (rc, len, w')
    ∧ zw_mem w' = ex_store
    ∧ ∃ reqs, io_log (zw_io w') = [] ++ reqs
      ∧ log_pairs reqs `prefix_of` zip (rcv_bytes (K := kernel_good) ex_store ex_ntc 2 ex_rcvs) (snd_bytes ex_store ex_snds)
      ∧ ((rc = 0 ∧ len = snd_length ex_snds ∧ len < 2 ^ 32
          ∧ log_pairs reqs = zip (rcv_bytes (K := kernel_good) ex_store ex_ntc 2 ex_rcvs) (snd_bytes ex_store ex_snds)
          ∧ Z.of_nat (length (snd_bytes ex_store ex_snds)) = len
          ∧ Z.of_nat (length (log_pairs reqs)) = len)
         ∨ (rc < 0 ∧ len = 7)).
Proof.
  apply (zip_rdma_moves_exact_bytes (K := kernel_good) ex_ntc 7 ex_rcvs ex_snds 2 NTC_DMA_WAIT ex_world).
  - exact I.
  - exact ex_store_ok.
  - forall_split; repeat split; (discriminate || reflexivity).
  - forall_split; (split; [split; (discriminate || reflexivity)|intros H; discriminate H]).
  - split; [discriminate|reflexivity].
Defined.

(** The same request, evaluated: four copies, thirteen bytes. *)
Example zip_rdma_run :
  match ntrdma_zip_rdma (K := kernel_good) ex_ntc 7 ex_rcvs ex_snds 2 NTC_DMA_WAIT ex_world with
  | Some (rc, len, w') =>
      rc = 0 ∧ len = 13
      ∧ io_log (zw_io w') =
          [mk_dma_req 1048586 (Mem 65540) 2 false; mk_dma_req 2097152 (Mem 65542) 2 false;
           mk_dma_req 1048578 (Mem 131072) 6 false; mk_dma_req 1048584 (Mem 262144) 3 true]
  | None => False
  end.
Proof. vm_compute. auto. Qed.


(** C8: [ntrdma_zip_rdma_imm] always terminates, gives back its reference, and
    the immediate writes it has requested are an initial part, in order, of
    the inline data on the bytes of the receive list; when it returns 0 they
    are the whole data, each byte inside the regions and buffers named. *)
Theorem zip_rdma_imm_moves_exact_bytes `{MO : MemStoreOk W} `{K : Kernel} ntc
    rcvs data off (w : zip_world W) :
  mem_wf (zw_mem w) → store_ok (zw_mem w) →
  Forall (rcv_sge_ok ntc) rcvs → is_u32 off → is_u32 (Z.of_nat (length data)) →
  let R := rcv_bytes (zw_mem w) ntc off rcvs in
  ∃ rc w',
    ntrdma_zip_rdma_imm ntc rcvs data off w = Some (rc, w')
    ∧ zw_mem w' = zw_mem w
    ∧ ∃ reqs, io_log (zw_io w') = io_log (zw_io w) ++ reqs
      ∧ log_imm_pairs reqs `prefix_of` zip R data
      ∧ ((rc = 0 ∧ log_imm_pairs reqs = zip R data
          ∧ length (log_imm_pairs reqs) = length data) ∨ rc < 0).
Proof.
  intros Hwf Hst Hr Ho Hd R.
  destruct (zip_rdma_imm_total ntc rcvs data off w Hwf Hst Hr Ho Hd) as ([rc w'] & H & Hp).
  by exists rc, w'.
Qed.

Lemma zip_rdma_imm_moves_exact_bytes_witness :
  ∃ rc w',
    ntrdma_zip_rdma_imm (K := kernel_good) ex_ntc ex_rcvs [1; 2; 3; 4; 5] 2 ex_world = Some (rc, w')
    ∧ zw_mem w' = ex_store
    ∧ ∃ reqs, io_log (zw_io w') = [] ++ reqs
      ∧ log_imm_pairs reqs `prefix_of` zip (rcv_bytes (K := kernel_good) ex_store ex_ntc 2 ex_rcvs) [1; 2; 3; 4; 5]
      ∧ ((rc = 0 ∧ log_imm_pairs reqs = zip (rcv_bytes (K := kernel_good) ex_store ex_ntc 2 ex_rcvs) [1; 2; 3; 4; 5]
          ∧ length (log_imm_pairs reqs) = 5%nat) ∨ rc < 0).
Proof.
  apply (zip_rdma_imm_moves_exact_bytes (K := kernel_good) ex_ntc ex_rcvs [1; 2; 3; 4; 5] 2 ex_world).
  - exact I.
  - exact ex_store_ok.
  - forall_split; (split; [split; (discriminate || reflexivity)|intros H; discriminate H]).
  - split; [discriminate|reflexivity].
  - split; [discriminate|reflexivity].
Defined.

(** *** Copies by the processor *)

Definition cpu_writes (ws : list (ntc_mr_buf * list Z)) : list cpu_op :=
  (λ x, CpuWrite (mb_dma_addr x.1) x.2) <$> ws.

Lemma zip_memcpy_loop_spec {W} sg off src (w : zip_world W) :
  Forall (λ b, 0 <= mb_size b < 2 ^ 64) sg →
  (∀ b sg', sg = b :: sg' → 0 <= off <= mb_size b) →
  let '(rest, w') := zip_memcpy_loop sg off src w in
  zw_mem w' = zw_mem w ∧
  ∃ ws, zw_cpu w' = zw_cpu w ++ cpu_writes ws
    ∧ Forall (λ x, x.1 ∈ sg ∧ Z.of_nat (length x.2) <= mb_size x.1) ws
    ∧ concat (snd <$> ws) ++ rest = src.
Proof.
  intros Hsg. revert off src w. induction Hsg as [|b sg Hb Hsg IH]; intros off src w Hoff; simpl.
  { split; [done|]. exists []. by rewrite app_nil_r. }
  destruct src as [|x src]; [split; [done|]; exists []; by rewrite app_nil_r|].
  set (s := x :: src) in *. specialize (Hoff b sg eq_refl). rewrite u64_small by lia.
  set (n := Z.to_nat _). set (w1 := zw_cpu_op _ _).
  specialize (IH 0 (drop n s) w1).
  destruct (zip_memcpy_loop sg 0 (drop n s) w1) as [rest w'].
  destruct IH as (Hm & ws & Hc & Hf & Hs).
  { intros b' sg' ->. inversion Hsg; subst. lia. }
  split; [done|]. exists ((b, take n s) :: ws). split; [|split].
  - rewrite Hc. unfold w1. simpl. by rewrite <- app_assoc.
  - constructor; simpl.
    + split; [constructor|]. rewrite length_take. lia.
    + eapply Forall_impl; [|exact Hf]. intros y [? ?]. split; [by constructor|done].
  - cbn. rewrite <- app_assoc, Hs. apply take_drop.
Qed.

(** [ntrdma_zip_memcpy] gives back its reference; each of its writes starts
    at a segment of the region and is no longer than the segment, and the
    written pieces in order are an initial part of the source: the whole
    source when it returns 0, otherwise it returns -EINVAL. *)
Theorem zip_memcpy_writes_in_segments `{MO : MemStoreOk W} key addr src (w : zip_world W) :
  mem_wf (zw_mem w) → store_ok (zw_mem w) →
  let '(rc, w') := ntrdma_zip_memcpy key addr src w in
  zw_mem w' = zw_mem w
  ∧ ∃ ws rest, zw_cpu w' = zw_cpu w ++ cpu_writes ws
    ∧ concat (snd <$> ws) ++ rest = src
    ∧ (∀ b bytes, (b, bytes) ∈ ws → ∃ m, mr_of (zw_mem w) key = Some m ∧ b ∈ mr_sg_list m
         ∧ Z.of_nat (length bytes) <= mb_size b)
    ∧ ((rc = 0 ∧ rest = []) ∨ (rc = - EINVAL ∧ rest ≠ [])).
Proof.
  intros Hwf Hst. unfold ntrdma_zip_memcpy, ntrdma_dev_mr_look.
  assert (∀ b (l : list Z), (b, l) ∉ (@nil (ntc_mr_buf * list Z))) as Hnil
    by (intros; apply not_elem_of_nil).
  destruct src as [|x src].
  { split; [done|]. exists [], []. rewrite app_nil_r. split_and!; try done; [|auto].
    intros b l Hin. by destruct (Hnil b l). }
  destruct (mr_of (zw_mem w) key) as [m|] eqn:Hm; simpl.
  2:{ split; [done|]. exists [], (x :: src). rewrite app_nil_r. split_and!; try done; [|auto].
      intros b l Hin. by destruct (Hnil b l). }
  pose proof (so_mr _ Hst _ _ Hm) as Hok.
  pose proof (sg_advance_spec mb_dma_addr mb_size (mr_sg_list m) (u64 (addr - mr_addr m))
                (mr_buf_ok_size _ Hok) (u64_range _)) as Ha.
  destruct (sg_advance _ _ _) as [sg off]. destruct Ha as (H1 & _ & H3 & H4).
  pose proof (Forall_suffix_of _ _ _ H4 Hok) as Hok'.
  set (w1 := zw_set_mem (mr_get key (zw_mem w)) w).
  pose proof (zip_memcpy_loop_spec sg off (x :: src) w1) as Hl.
  destruct (zip_memcpy_loop sg off (x :: src) w1) as [rest w'].
  destruct Hl as (Hm' & ws & Hc & Hf & Hs).
  { eapply Forall_impl; [|exact Hok']. intros b [? ?]. lia. }
  { intros b sg' ->. specialize (H3 b sg' eq_refl). lia. }
  simpl. split.
  { rewrite Hm'. simpl. rewrite (mr_of_key _ _ _ Hwf Hm). by eapply mr_put_get. }
  exists ws, rest. split; [done|]. split; [done|]. split.
  - intros b bytes Hin. rewrite list.Forall_forall in Hf. destruct (Hf _ Hin) as [Hin' ?].
    exists m. split; [done|]. split; [|done]. destruct H4 as [k ->]. apply elem_of_app. by right.
  - destruct rest; [by left|by right].
Qed.

Lemma zip_memcpy_writes_in_segments_witness :
  let '(rc, w') := ntrdma_zip_memcpy 1 4096 [1; 2; 3; 4; 5; 6; 7; 8; 9] ex_world in
  zw_mem w' = ex_store
  ∧ ∃ ws rest, zw_cpu w' = [] ++ cpu_writes ws
    ∧ concat (snd <$> ws) ++ rest = [1; 2; 3; 4; 5; 6; 7; 8; 9]
    ∧ (∀ b bytes, (b, bytes) ∈ ws → ∃ m, mr_of ex_store 1 = Some m ∧ b ∈ mr_sg_list m
         ∧ Z.of_nat (length bytes) <= mb_size b)
    ∧ ((rc = 0 ∧ rest = []) ∨ (rc = - EINVAL ∧ rest ≠ [])).
Proof.
  apply (zip_memcpy_writes_in_segments 1 4096 [1; 2; 3; 4; 5; 6; 7; 8; 9] ex_world);
    [exact I|exact ex_store_ok].
Defined.

(** The offset into the first segment does not reach the destination of the
    write: two bytes for the address three bytes into the region are written
    at its very beginning. *)
Lemma zip_memcpy_ignores_offset :
  zw_cpu (snd (ntrdma_zip_memcpy 1 4099 [7; 8] ex_world)) = [CpuWrite 65536 [7; 8]]
  ∧ take 2 (drop 3 (mr_addrs (mk_mr 1 0 0 4096 16
       [mk_mr_buf 8 None 65536 2; mk_mr_buf 8 None 131072 2]))) = [65539; 65540].
Proof. vm_compute. done. Qed.

End Zip.
