(* ===== verification/Vec.v ===== *)
(** * Lookup tables (ntrdma_util.h, ntrdma_util.c)

    A table is never changed in place: an operation builds a copy, publishes
    it and retires the old table.  [ntrdma_vec] maps the keys a peer chooses to
    remote resources, [ntrdma_kvec] also hands out the keys of local
    resources.  A [heap] counts the blocks of each kind that are allocated. *)

From S2P Require Import Prelude Kernel.

Module Vec.

Definition MAX_VEC_CAP : Z := 8388608.
Definition MAX_KVEC_CAP : Z := 8388608.

(** ** Memory *)

(** The live blocks: table headers, [look] arrays and [keys] bitmaps. *)
Record heap := mk_heap { h_time : nat; h_structs : Z; h_looks : Z; h_keys : Z }.

Inductive block := BStruct | BLook | BKeys.

Definition h_add (b : block) (d : Z) (h : heap) : heap :=
  match b with
  | BStruct => mk_heap (h_time h) (h_structs h + d) (h_looks h) (h_keys h)
  | BLook => mk_heap (h_time h) (h_structs h) (h_looks h + d) (h_keys h)
  | BKeys => mk_heap (h_time h) (h_structs h) (h_looks h) (h_keys h + d)
  end.

Definition h_tick (h : heap) : heap :=
  mk_heap (S (h_time h)) (h_structs h) (h_looks h) (h_keys h).

Definition kfree (b : block) (h : heap) : heap := h_add b (-1) h.

Section Alloc.
Context `{K : Kernel}.

Definition kzalloc (b : block) (h : heap) : bool * heap :=
  if kalloc (h_time h) then (true, h_add b 1 (h_tick h)) else (false, h_tick h).

End Alloc.

(** ** Plain tables *)

Section Tables.
Context {V : Type} `{K : Kernel}.

(** [cap] is the length of [look]; a null pointer is [None]. *)
Record ntrdma_rcu_vec := mk_rvec { rv_cap : Z; rv_look : list (option V) }.

Definition memcpy_look (cap : Z) (old : list (option V)) : list (option V) :=
  old ++ replicate (Z.to_nat cap - length old) None.

Definition ntrdma_vec_init (cap : Z) (h : heap) : Z * option ntrdma_rcu_vec * heap :=
  if cap =? 0 then (- EINVAL, None, h)
  else if MAX_VEC_CAP <=? cap then (- ENOMEM, None, h)
  else
    let '(ok, h) := kzalloc BStruct h in
    if negb ok then (- ENOMEM, None, h)
    else
      let '(ok, h) := kzalloc BLook h in
      if negb ok then (- ENOMEM, None, kfree BStruct h)
      else (0, Some (mk_rvec cap (replicate (Z.to_nat cap) None)), h).

Definition ntrdma_vec_deinit (v : ntrdma_rcu_vec) (h : heap) : heap :=
  kfree BStruct (kfree BLook h).

(** [look[key] = val] outside the array is [None]. *)
Definition look_set (key : Z) (val : option V) (l : list (option V)) : option (list (option V)) :=
  if (0 <=? key) && (key <? Z.of_nat (length l)) then Some (<[Z.to_nat key := val]> l) else None.

Definition ntrdma_vec_copy_assign (v : ntrdma_rcu_vec) (cap key : Z) (val : option V) (h : heap)
  : option (Z * ntrdma_rcu_vec * heap) :=
  if cap =? 0 then Some (- EINVAL, v, h)
  else if MAX_VEC_CAP <=? cap then Some (- ENOMEM, v, h)
  else
    let '(ok, h) := kzalloc BStruct h in
    if negb ok then Some (- ENOMEM, v, h)
    else
      let '(ok, h) := kzalloc BLook h in
      if negb ok then Some (- ENOMEM, v, kfree BStruct h)
      else
        match look_set key val (memcpy_look cap (rv_look v)) with
        | None => None
        | Some l => Some (0, mk_rvec cap l, h)
        end.

(** The kernel's [roundup_pow_of_two], whose result is undefined for 0. *)
Definition roundup_pow_of_two (n : Z) : option Z :=
  if n =? 0 then None else Some (2 ^ Z.log2_up n).

(** [remove_rcu_vec], run after the readers are gone. *)
Definition remove_rcu_vec (h : heap) : heap := kfree BStruct (kfree BLook h).

(** [None]: the capacity is undefined or a store is out of bounds. *)
Definition ntrdma_vec_set (v : ntrdma_rcu_vec) (key : Z) (val : option V) (h : heap)
  : option (Z * ntrdma_rcu_vec * heap) :=
  let new_cap :=
    if rv_cap v <=? key then u32 <$> roundup_pow_of_two (u32 (key + 1)) else Some (rv_cap v) in
  match new_cap with
  | None => None
  | Some new_cap =>
      match ntrdma_vec_copy_assign v new_cap key val h with
      | None => None
      | Some (rc, v', h) =>
          if rc <? 0 then Some (rc, v', h) else Some (0, v', remove_rcu_vec h)
      end
  end.

(** The table part of [ntrdma_rres_look]. *)
Definition vec_look (v : ntrdma_rcu_vec) (key : Z) : option V :=
  if key <? rv_cap v then mjoin (rv_look v !! Z.to_nat key) else None.

(** ** Tables that hand out keys *)

Record ntrdma_rcu_kvec := mk_rkvec {
  kv_cap : Z;
  kv_num_reserved_keys : Z;
  kv_next_key : Z;
  kv_keys : list bool;
  kv_look : list (option V) }.

(** [__set_bit] for the first [n] keys. *)
Definition reserved_keys (n cap : Z) : list bool :=
  replicate (Z.to_nat n) true ++ replicate (Z.to_nat (cap - n)) false.

Definition ntrdma_kvec_init (cap num_reserved_keys : Z) (h : heap)
  : Z * option ntrdma_rcu_kvec * heap :=
  if cap =? 0 then (- EINVAL, None, h)
  else if cap <=? num_reserved_keys then (- EINVAL, None, h)
  else if MAX_KVEC_CAP <=? cap then (- ENOMEM, None, h)
  else
    let '(ok, h) := kzalloc BStruct h in
    if negb ok then (- ENOMEM, None, h)
    else
      let '(ok, h) := kzalloc BKeys h in
      if negb ok then (- ENOMEM, None, kfree BStruct h)
      else
        let '(ok, h) := kzalloc BLook h in
        if negb ok then (- ENOMEM, None, kfree BStruct (kfree BKeys h))
        else (0, Some (mk_rkvec cap num_reserved_keys num_reserved_keys
                         (reserved_keys num_reserved_keys cap)
                         (replicate (Z.to_nat cap) None)), h).

Definition ntrdma_kvec_deinit (v : ntrdma_rcu_kvec) (h : heap) : heap :=
  kfree BStruct (kfree BKeys (kfree BLook h)).

Definition memcpy_keys (cap : Z) (old : list bool) : list bool :=
  old ++ replicate (Z.to_nat cap - length old) false.

Definition ntrdma_kvec_new_copy (v : ntrdma_rcu_kvec) (cap : Z) (h : heap)
  : Z * option ntrdma_rcu_kvec * heap :=
  if cap =? 0 then (- EINVAL, None, h)
  else if MAX_KVEC_CAP <=? cap then (- ENOMEM, None, h)
  else
    let '(ok, h) := kzalloc BStruct h in
    if negb ok then (- ENOMEM, None, h)
    else
      let '(ok, h) := kzalloc BKeys h in
      if negb ok then (- ENOMEM, None, kfree BStruct h)
      else
        let '(ok, h) := kzalloc BLook h in
        if negb ok then (- ENOMEM, None, kfree BStruct (kfree BKeys h))
        else (0, Some (mk_rkvec cap (kv_num_reserved_keys v) (kv_next_key v)
                         (memcpy_keys cap (kv_keys v)) (memcpy_look cap (kv_look v))), h).

(** [remove_rcu_kvec] gives back the lookup array and the header. *)
Definition remove_rcu_kvec (h : heap) : heap := kfree BStruct (kfree BLook h).

(** The kernel's [find_next_zero_bit]: the position of the first clear bit
    from [off] on, the length when there is none. *)
Fixpoint find_zero_from (l : list bool) (i : Z) : Z :=
  match l with
  | [] => i
  | b :: l => if b then find_zero_from l (i + 1) else i
  end.

Definition find_next_zero_bit (l : list bool) (size off : Z) : Z :=
  if size <=? off then size else find_zero_from (drop (Z.to_nat off) l) off.

(** The result is the key or a negative error. *)
Definition ntrdma_kvec_reserve_key (v : ntrdma_rcu_kvec) (h : heap)
  : Z * ntrdma_rcu_kvec * heap :=
  let key := find_next_zero_bit (kv_keys v) (kv_cap v) (kv_next_key v) in
  let cap := if kv_cap v <=? key then u32 (key * 2) else kv_cap v in
  let '(rc, new, h) := ntrdma_kvec_new_copy v cap h in
  match new with
  | None => (rc, v, h)
  | Some n =>
      let next := if key + 1 =? kv_cap n then kv_num_reserved_keys n else key + 1 in
      (key,
       mk_rkvec (kv_cap n) (kv_num_reserved_keys n) next
         (<[Z.to_nat key := true]> (kv_keys n)) (kv_look n),
       remove_rcu_kvec h)
  end.

Definition ntrdma_kvec_dispose_key (v : ntrdma_rcu_kvec) (key : Z) (h : heap)
  : ntrdma_rcu_kvec * heap :=
  if key <? kv_num_reserved_keys v then (v, h)
  else
    let '(_, new, h) := ntrdma_kvec_new_copy v (kv_cap v) h in
    match new with
    | None => (v, h)
    | Some n =>
        (mk_rkvec (kv_cap n) (kv_num_reserved_keys n) (kv_next_key n)
           (<[Z.to_nat key := false]> (kv_keys n)) (kv_look n),
         remove_rcu_kvec h)
    end.

(** [None]: the key is outside the table. *)
Definition ntrdma_kvec_set_key (v : ntrdma_rcu_kvec) (key : Z) (val : option V) (h : heap)
  : option (ntrdma_rcu_kvec * heap) :=
  let '(_, new, h) := ntrdma_kvec_new_copy v (kv_cap v) h in
  match new with
  | None => Some (v, h)
  | Some n =>
      match look_set key val (kv_look n) with
      | None => None
      | Some l =>
          Some (mk_rkvec (kv_cap n) (kv_num_reserved_keys n) (kv_next_key n) (kv_keys n) l,
                remove_rcu_kvec h)
      end
  end.

(** The table part of [ntrdma_res_look]. *)
Definition kvec_look (v : ntrdma_rcu_kvec) (key : Z) : option V :=
  if key <? kv_cap v then mjoin (kv_look v !! Z.to_nat key) else None.

(** ** Well-formed tables *)

Record vec_wf (v : ntrdma_rcu_vec) : Prop := {
  vw_cap : 0 < rv_cap v < MAX_VEC_CAP;
  vw_look : Z.of_nat (length (rv_look v)) = rv_cap v }.

Record kvec_wf (v : ntrdma_rcu_kvec) : Prop := {
  kw_cap : 0 < kv_cap v < MAX_KVEC_CAP;
  kw_res : 0 <= kv_num_reserved_keys v < kv_cap v;
  kw_next : kv_num_reserved_keys v <= kv_next_key v < kv_cap v;
  kw_keys : Z.of_nat (length (kv_keys v)) = kv_cap v;
  kw_look : Z.of_nat (length (kv_look v)) = kv_cap v;
  kw_reserved : ∀ i, 0 <= i < kv_num_reserved_keys v → kv_keys v !! Z.to_nat i = Some true }.

Lemma memcpy_look_lookup cap l (i : nat) :
  mjoin (memcpy_look cap l !! i) = mjoin (l !! i).
Proof.
  unfold memcpy_look. destruct (decide (i < length l)%nat).
  - by rewrite lookup_app_l.
  - rewrite lookup_app_r, (lookup_ge_None_2 l i) by lia.
    destruct (replicate _ _ !! _) as [o|] eqn:H; [|done].
    apply lookup_replicate in H as [-> _]. done.
Qed.

Lemma length_memcpy_look cap l :
  Z.of_nat (length l) <= cap → Z.of_nat (length (memcpy_look cap l)) = cap.
Proof. intros. unfold memcpy_look. rewrite length_app, length_replicate. lia. Qed.

Lemma length_memcpy_keys cap l :
  Z.of_nat (length l) <= cap → Z.of_nat (length (memcpy_keys cap l)) = cap.
Proof. intros. unfold memcpy_keys. rewrite length_app, length_replicate. lia. Qed.

Lemma memcpy_keys_true cap l (i : nat) :
  memcpy_keys cap l !! i = Some true ↔ l !! i = Some true.
Proof.
  unfold memcpy_keys. destruct (decide (i < length l)%nat).
  - by rewrite lookup_app_l.
  - rewrite lookup_app_r, (lookup_ge_None_2 l i) by lia.
    split; [|done]. intros H. apply lookup_replicate in H as [? _]. done.
Qed.

Lemma memcpy_keys_same l : memcpy_keys (Z.of_nat (length l)) l = l.
Proof. unfold memcpy_keys. rewrite Nat2Z.id, Nat.sub_diag. apply app_nil_r. Qed.

Lemma memcpy_look_same l : memcpy_look (Z.of_nat (length l)) l = l.
Proof. unfold memcpy_look. rewrite Nat2Z.id, Nat.sub_diag. apply app_nil_r. Qed.

(** A copy either fails and leaves the heap as it was, or has three more
    blocks. *)
Lemma new_copy_spec v cap h :
  let '(rc, new, h') := ntrdma_kvec_new_copy v cap h in
  match new with
  | None =>
      rc < 0 ∧ h_structs h' = h_structs h ∧ h_looks h' = h_looks h ∧ h_keys h' = h_keys h
      ∧ (cap = 0 ∨ MAX_KVEC_CAP <= cap ∨ ∃ t, kalloc t = false)
  | Some n =>
      rc = 0 ∧ cap < MAX_KVEC_CAP ∧ cap ≠ 0
      ∧ n = mk_rkvec cap (kv_num_reserved_keys v) (kv_next_key v)
              (memcpy_keys cap (kv_keys v)) (memcpy_look cap (kv_look v))
      ∧ h_structs h' = h_structs h + 1 ∧ h_looks h' = h_looks h + 1 ∧ h_keys h' = h_keys h + 1
  end.
Proof.
  unfold ntrdma_kvec_new_copy.
  destruct (Z.eqb_spec cap 0); [split_and!; first [done|auto]|]. destruct (Z.leb_spec MAX_KVEC_CAP cap); [split_and!; first [done|auto]|].
  unfold kzalloc. destruct (kalloc (h_time h)) eqn:E1; simpl; [|split_and!; first [done|eauto]].
  destruct (kalloc (S (h_time h))) eqn:E2; simpl; [|split_and!; first [done|lia|eauto]].
  destruct (kalloc (S (S (h_time h)))) eqn:E3; simpl; split_and!; first [done|lia|eauto].
Qed.

Lemma look_set_in key val l :
  0 <= key < Z.of_nat (length l) → look_set key val l = Some (<[Z.to_nat key := val]> l).
Proof. intros. unfold look_set. replace (_ && _) with true; [done|]. lia. Qed.

Lemma mjoin_insert (l : list (option V)) key k val :
  0 <= key < Z.of_nat (length l) → 0 <= k →
  mjoin (<[Z.to_nat key := val]> l !! Z.to_nat k)
  = if k =? key then val else mjoin (l !! Z.to_nat k).
Proof.
  intros Hk Hk'. destruct (Z.eqb_spec k key) as [->|].
  - rewrite list_lookup_insert_eq by lia. done.
  - rewrite list_lookup_insert_ne by lia. done.
Qed.

Lemma find_zero_from_spec l i :
  i <= find_zero_from l i <= i + Z.of_nat (length l)
  ∧ (find_zero_from l i < i + Z.of_nat (length l) →
     l !! Z.to_nat (find_zero_from l i - i) = Some false).
Proof.
  revert i. induction l as [|b l IH]; intros i; simpl; [split; lia|].
  destruct b.
  - destruct (IH (i + 1)) as [H1 H2]. split; [lia|]. intros H.
    specialize (H2 ltac:(lia)).
    replace (Z.to_nat (find_zero_from l (i + 1) - i))
      with (S (Z.to_nat (find_zero_from l (i + 1) - (i + 1)))) by lia. done.
  - split; [lia|]. by rewrite Z.sub_diag.
Qed.

Lemma find_next_zero_bit_spec v :
  kvec_wf v →
  let key := find_next_zero_bit (kv_keys v) (kv_cap v) (kv_next_key v) in
  kv_next_key v <= key <= kv_cap v
  ∧ (key < kv_cap v → kv_keys v !! Z.to_nat key = Some false).
Proof.
  intros [Hc Hr Hn Hk Hl _]. unfold find_next_zero_bit.
  rewrite (proj2 (Z.leb_gt _ _)) by lia.
  destruct (find_zero_from_spec (drop (Z.to_nat (kv_next_key v)) (kv_keys v)) (kv_next_key v))
    as [H1 H2]. rewrite length_drop in *. simpl. split; [lia|]. intros Hlt.
  specialize (H2 ltac:(lia)). rewrite lookup_drop in H2. rewrite <- H2. f_equal. lia.
Qed.

End Tables.

Arguments ntrdma_rcu_vec : clear implicits.
Arguments ntrdma_rcu_kvec : clear implicits.

Lemma roundup_bound key :
  0 <= key < 2 ^ 32 - 1 →
  ∃ n, roundup_pow_of_two (u32 (key + 1)) = Some n ∧ (u32 n = 0 ∨ (u32 n = n ∧ key < n)).
Proof.
  intros Hk. rewrite u32_small by lia. unfold roundup_pow_of_two.
  destruct (Z.eqb_spec (key + 1) 0); [lia|]. eexists. split; [done|].
  destruct (decide (key = 0)) as [->|]; [right; done|].
  destruct (Z.log2_up_spec (key + 1) ltac:(lia)) as [H1 H2].
  assert (Z.log2_up (key + 1) <= 32) as Hle.
  { rewrite <- (Z.log2_up_pow2 32) by lia. apply Z.log2_up_le_mono. lia. }
  destruct (decide (Z.log2_up (key + 1) = 32)) as [->|]; [by left|right].
  pose proof (Z.log2_up_nonneg (key + 1)).
  assert (2 ^ Z.log2_up (key + 1) < 2 ^ 32) by (apply Z.pow_lt_mono_r; lia).
  rewrite u32_small by lia. lia.
Qed.

Definition same_heap (h h' : heap) : Prop :=
  h_structs h' = h_structs h ∧ h_looks h' = h_looks h ∧ h_keys h' = h_keys h.

Lemma copy_assign_spec `{K : Kernel} {V} (v : ntrdma_rcu_vec V) cap key val h :
  vec_wf v → rv_cap v <= cap ∨ cap = 0 → 0 <= key → (cap ≠ 0 → key < cap) →
  ∃ rc v' h', ntrdma_vec_copy_assign v cap key val h = Some (rc, v', h')
    ∧ ((rc < 0 ∧ v' = v ∧ same_heap h h'
        ∧ (cap = 0 ∨ MAX_VEC_CAP <= cap ∨ ∃ t, kalloc t = false))
       ∨ (rc = 0 ∧ cap < MAX_VEC_CAP ∧ cap ≠ 0
          ∧ v' = mk_rvec cap (<[Z.to_nat key := val]> (memcpy_look cap (rv_look v)))
          ∧ same_heap h (remove_rcu_vec h'))).
Proof.
  intros [Hc Hl] Hcap Hk Hkc. unfold ntrdma_vec_copy_assign.
  destruct (Z.eqb_spec cap 0); [do 3 eexists; split; [done|left; split_and!; first [done|auto]]|].
  destruct (Z.leb_spec MAX_VEC_CAP cap);
    [do 3 eexists; split; [done|left; split_and!; first [done|auto]]|].
  unfold kzalloc, same_heap. destruct (kalloc (h_time h)) eqn:E1; simpl.
  2:{ do 3 eexists. split; [done|]. left. split_and!; first [done|eauto]. }
  destruct (kalloc (S (h_time h))) eqn:E2; simpl.
  2:{ do 3 eexists. split; [done|]. left. simpl. split_and!; first [done|lia|eauto]. }
  rewrite look_set_in by (rewrite length_memcpy_look; lia).
  do 3 eexists. split; [done|]. right. simpl. split_and!; done || lia.
Qed.

Ltac kv_simpl :=
  cbn [kv_cap kv_num_reserved_keys kv_next_key kv_keys kv_look rv_cap rv_look].

(** Setting an entry, with the only reasons for a failure: the table had to
    grow, or memory was short. *)
Lemma vec_set_spec `{K : Kernel} {V} (v : ntrdma_rcu_vec V) key val h :
  vec_wf v → 0 <= key < 2 ^ 32 - 1 →
  ∃ rc v' h',
    ntrdma_vec_set v key val h = Some (rc, v', h')
    ∧ vec_wf v' ∧ same_heap h h'
    ∧ ((rc = 0 ∧ ∀ k, 0 <= k → vec_look v' k = if k =? key then val else vec_look v k)
       ∨ (rc < 0 ∧ v' = v
          ∧ (rv_cap v <= key ∨ ∃ t, kalloc t = false))).
Proof.
  intros Hwf Hkey. unfold ntrdma_vec_set.
  assert (∃ cap, (if rv_cap v <=? key then u32 <$> roundup_pow_of_two (u32 (key + 1))
                  else Some (rv_cap v)) = Some cap
          ∧ (rv_cap v <= cap ∨ cap = 0) ∧ (cap ≠ 0 → key < cap)
          ∧ (key < rv_cap v → cap = rv_cap v)) as (cap & -> & Hge & Hlt & Hsame).
  { destruct (Z.leb_spec (rv_cap v) key).
    - destruct (roundup_bound key Hkey) as (n & -> & Hn). simpl. eexists. split; [done|].
      destruct Hn as [->|[-> ?]]; lia.
    - eexists. split; [done|]. lia. }
  destruct (copy_assign_spec v cap key val h Hwf Hge ltac:(lia) Hlt)
    as (rc & v' & h' & -> & [(Hneg & -> & Hh & Hwhy)|(-> & Hmax & Hne & -> & Hh)]).
  - rewrite (proj2 (Z.ltb_lt _ _) Hneg). do 3 eexists. split; [done|]. split; [done|]. split; [done|]. right.
    split; [done|]. split; [done|]. destruct (decide (rv_cap v <= key)); [by left|right].
    destruct (vw_cap _ Hwf). destruct Hwhy as [?|[?|?]]; [lia|lia|done].
  - do 3 eexists. split; [done|]. destruct Hwf as [Hc Hl].
    assert (rv_cap v <= cap) by lia.
    pose proof (length_memcpy_look cap (rv_look v) ltac:(lia)) as Hll.
    split; [|split; [done|left; split; [done|]]].
    + split; kv_simpl; [lia|]. by rewrite length_insert.
    + intros k Hk. unfold vec_look. kv_simpl. rewrite mjoin_insert by lia.
      rewrite memcpy_look_lookup.
      destruct (Z.ltb_spec k cap), (Z.ltb_spec k (rv_cap v)), (Z.eqb_spec k key); try done; try lia.
      rewrite lookup_ge_None_2 by lia. done.
Qed.

(** Setting a key, with the only reason for which the table stays as it was. *)
Lemma kvec_set_key_cases `{K : Kernel} {V} (v : ntrdma_rcu_kvec V) key val h :
  kvec_wf v → 0 <= key < kv_cap v →
  ∃ v' h',
    ntrdma_kvec_set_key v key val h = Some (v', h')
    ∧ kvec_wf v' ∧ kv_keys v' = kv_keys v
    ∧ h_structs h' = h_structs h ∧ h_looks h' = h_looks h
    ∧ (((∀ k, 0 <= k → kvec_look v' k = if k =? key then val else kvec_look v k)
        ∧ h_keys h' = h_keys h + 1)
       ∨ (v' = v ∧ h_keys h' = h_keys h ∧ ∃ t, kalloc t = false)).
Proof.
  intros Hwf Hkey. unfold ntrdma_kvec_set_key.
  pose proof (new_copy_spec v (kv_cap v) h) as Hcopy.
  destruct (ntrdma_kvec_new_copy v (kv_cap v) h) as [[rc new] h']. destruct new as [n|].
  2:{ do 2 eexists. split; [done|]. destruct Hcopy as (? & ? & ? & ? & Hwhy).
      split_and!; try done. right. split; [done|]. split; [done|].
      destruct (kw_cap _ Hwf). destruct Hwhy as [?|[?|?]]; [lia|lia|done]. }
  destruct Hcopy as (_ & Hmax & _ & -> & H1 & H2 & H3). kv_simpl.
  destruct Hwf as [Hc Hr Hn Hk Hl Hres]. 
  assert (memcpy_keys (kv_cap v) (kv_keys v) = kv_keys v) as -> by (rewrite <- Hk; apply memcpy_keys_same).
  assert (memcpy_look (kv_cap v) (kv_look v) = kv_look v) as -> by (rewrite <- Hl; apply memcpy_look_same).
  rewrite look_set_in by lia.
  do 2 eexists. split; [done|]. split; [split; kv_simpl; try done; by rewrite length_insert|].
  split; [done|]. simpl. split; [lia|]. split; [lia|]. left. split; [|lia].
  intros k Hk0. unfold kvec_look. kv_simpl. rewrite mjoin_insert by lia.
  destruct (Z.ltb_spec k (kv_cap v)), (Z.eqb_spec k key); done || lia.
Qed.

(** ** Properties *)

(** [ntrdma_kvec_reserve_key] keeps the table well formed and loses
    nothing that is stored; when it returns a key, the key was free, is not
    one of the preallocated keys, is inside the (possibly grown) table and is
    now taken, while every other key is as before; when it fails the table is
    unchanged. *)
Theorem kvec_reserve_key_fresh `{K : Kernel} {V} (v : ntrdma_rcu_kvec V) h :
  kvec_wf v →
  let '(key, v', h') := ntrdma_kvec_reserve_key v h in
  kvec_wf v'
  ∧ (∀ k, 0 <= k → kvec_look v' k = kvec_look v k)
  ∧ (key < 0 → v' = v)
  ∧ (0 <= key →
     kv_num_reserved_keys v <= key < kv_cap v'
     ∧ kv_keys v !! Z.to_nat key ≠ Some true
     ∧ (∀ k, 0 <= k → (kv_keys v' !! Z.to_nat k = Some true
          ↔ k = key ∨ kv_keys v !! Z.to_nat k = Some true))).
Proof.
  intros Hwf. pose proof (find_next_zero_bit_spec v Hwf) as [Hkey Hfree].
  unfold ntrdma_kvec_reserve_key. set (key := find_next_zero_bit _ _ _) in *.
  destruct Hwf as [Hc Hr Hn Hk Hl Hres]. unfold MAX_KVEC_CAP in *.
  set (cap := if kv_cap v <=? key then _ else _).
  assert (kv_cap v <= cap ∧ key < cap) as [Hcap Hkc].
  { unfold cap. destruct (Z.leb_spec (kv_cap v) key); [rewrite u32_small by wsolve|]; lia. }
  pose proof (new_copy_spec v cap h) as Hcopy.
  destruct (ntrdma_kvec_new_copy v cap h) as [[rc new] h']. destruct new as [n|].
  2:{ split; [by split|]. split; [done|]. split; [done|]. lia. }
  destruct Hcopy as (_ & Hmax & _ & -> & _). kv_simpl.
  pose proof (length_memcpy_keys cap (kv_keys v) ltac:(lia)) as Hlk.
  pose proof (length_memcpy_look cap (kv_look v) ltac:(lia)) as Hll.
  assert (∀ k, 0 <= k → (<[Z.to_nat key := true]> (memcpy_keys cap (kv_keys v)) !! Z.to_nat k = Some true
          ↔ k = key ∨ kv_keys v !! Z.to_nat k = Some true)) as Hbits.
  { intros k Hk0. destruct (decide (k = key)) as [->|Hne].
    - rewrite list_lookup_insert_eq by lia. split; [by left|done].
    - rewrite list_lookup_insert_ne by lia. rewrite memcpy_keys_true. split; [by right|]. by intros [?|?]. }
  split; [|split; [|split]].
  - split; kv_simpl; try done; try lia.
    + destruct (Z.eqb_spec (key + 1) cap); lia.
    + rewrite length_insert. done.
    + intros i Hi. apply Hbits; [lia|]. right. by apply Hres.
  - intros k Hk0. unfold kvec_look. kv_simpl. destruct (Z.ltb_spec k cap), (Z.ltb_spec k (kv_cap v));
      try lia; [by rewrite memcpy_look_lookup| |done].
    rewrite memcpy_look_lookup, lookup_ge_None_2 by lia. done.
  - lia.
  - intros _. split; [lia|]. split; [|done].
    destruct (Z.ltb_spec key (kv_cap v)).
    + rewrite Hfree by done. done.
    + rewrite lookup_ge_None_2 by lia. done.
Qed.


Lemma kvec_reserve_key_fresh_witness :
  let v := mk_rkvec 4 2 3 [true; true; false; true] [None; None; None; Some 7] in
  let '(key, v', h') := ntrdma_kvec_reserve_key (K := kernel_good) v (mk_heap 0 1 1 1) in
  kvec_wf v'
  ∧ (∀ k, 0 <= k → kvec_look v' k = kvec_look v k)
  ∧ (key < 0 → v' = v)
  ∧ (0 <= key →
     2 <= key < kv_cap v'
     ∧ kv_keys v !! Z.to_nat key ≠ Some true
     ∧ (∀ k, 0 <= k → (kv_keys v' !! Z.to_nat k = Some true
          ↔ k = key ∨ kv_keys v !! Z.to_nat k = Some true))).
Proof.
  apply (kvec_reserve_key_fresh (K := kernel_good)
           (mk_rkvec 4 2 3 [true; true; false; true] [None; None; None; Some 7])).
  split; simpl; try (split; (reflexivity || discriminate)); try reflexivity.
  intros i Hi. assert (i = 0 ∨ i = 1) as [-> | ->] by lia; reflexivity.
Defined.

(** [ntrdma_vec_set] on a key other than 2^32-1 makes no access out of
    bounds; it either updates the table as a map, the new value under the key
    and every other key as before, however the table grew, or it fails and
    leaves the table as it was; and it neither leaks nor loses memory. *)
Theorem vec_set_updates_map `{K : Kernel} {V} (v : ntrdma_rcu_vec V) key val h :
  vec_wf v → 0 <= key < 2 ^ 32 - 1 →
  ∃ rc v' h',
    ntrdma_vec_set v key val h = Some (rc, v', h')
    ∧ vec_wf v' ∧ same_heap h h'
    ∧ ((rc = 0 ∧ ∀ k, 0 <= k → vec_look v' k = if k =? key then val else vec_look v k)
       ∨ (rc < 0 ∧ v' = v)).
Proof.
  intros Hwf Hkey. destruct (vec_set_spec v key val h Hwf Hkey) as (rc & v' & h' & -> & H1 & H2 & H3).
  do 3 eexists. split; [done|]. split_and!; try done.
  destruct H3 as [?|(? & ? & _)]; [by left|by right].
Qed.

Lemma vec_set_updates_map_witness :
  ∃ rc v' h',
    ntrdma_vec_set (K := kernel_good) (mk_rvec 2 [Some 5; None]) 6 (Some 9) (mk_heap 0 1 1 0)
      = Some (rc, v', h')
    ∧ vec_wf v' ∧ same_heap (mk_heap 0 1 1 0) h'
    ∧ ((rc = 0 ∧ ∀ k, 0 <= k → vec_look v' k
           = if k =? 6 then Some 9 else vec_look (mk_rvec 2 [Some 5; None]) k)
       ∨ (rc < 0 ∧ v' = mk_rvec 2 [Some 5; None])).
Proof.
  apply (vec_set_updates_map (K := kernel_good)); split; (reflexivity || discriminate || split; reflexivity).
Defined.

(** A resource removed twice is set under the key 2^32-1, for which the
    rounding of the capacity is undefined. *)
Lemma vec_set_last_key `{K : Kernel} {V} (v : ntrdma_rcu_vec V) val h :
  rv_cap v < 2 ^ 32 - 1 → ntrdma_vec_set v (2 ^ 32 - 1) val h = None.
Proof. intros H. unfold ntrdma_vec_set. by rewrite (proj2 (Z.leb_le _ _)) by lia. Qed.

(** [ntrdma_kvec_set_key] on a key of the table makes no access out of
    bounds, keeps the table well formed and its keys as they are, and either
    updates the look-up as a map or, when memory is short, silently leaves the
    old value in place.  Of the retired table the header and the array are
    given back and the bitmap of keys is not. *)
Theorem kvec_set_key_spec `{K : Kernel} {V} (v : ntrdma_rcu_kvec V) key val h :
  kvec_wf v → 0 <= key < kv_cap v →
  ∃ v' h',
    ntrdma_kvec_set_key v key val h = Some (v', h')
    ∧ kvec_wf v' ∧ kv_keys v' = kv_keys v
    ∧ h_structs h' = h_structs h ∧ h_looks h' = h_looks h
    ∧ (((∀ k, 0 <= k → kvec_look v' k = if k =? key then val else kvec_look v k)
        ∧ h_keys h' = h_keys h + 1)
       ∨ (v' = v ∧ h_keys h' = h_keys h)).
Proof.
  intros Hwf Hkey. destruct (kvec_set_key_cases v key val h Hwf Hkey)
    as (v' & h' & -> & H1 & H2 & H3 & H4 & H5).
  do 2 eexists. split; [done|]. split_and!; try done.
  destruct H5 as [H5|(? & ? & _)]; [by left|by right].
Qed.

Lemma kvec_set_key_spec_witness :
  let v := mk_rkvec 4 2 3 [true; true; false; true] [None; None; None; Some 7] in
  ∃ v' h',
    ntrdma_kvec_set_key (K := kernel_good) v 3 None (mk_heap 0 1 1 1) = Some (v', h')
    ∧ kvec_wf v' ∧ kv_keys v' = kv_keys v
    ∧ h_structs h' = 1 ∧ h_looks h' = 1
    ∧ (((∀ k, 0 <= k → kvec_look v' k = if k =? 3 then None else kvec_look v k)
        ∧ h_keys h' = 1 + 1)
       ∨ (v' = v ∧ h_keys h' = 1)).
Proof.
  apply (kvec_set_key_spec (K := kernel_good)
           (mk_rkvec 4 2 3 [true; true; false; true] [None; None; None; Some 7])).
  - split; simpl; try (split; (reflexivity || discriminate)); try reflexivity.
    intros i Hi. assert (i = 0 ∨ i = 1) as [-> | ->] by lia; reflexivity.
  - split; (reflexivity || discriminate).
Defined.

(** One removal, one bitmap left behind. *)
Lemma kvec_set_key_leaks_keys :
  let v := mk_rkvec 2 0 0 [true; false] [Some 7; None] in
  match ntrdma_kvec_set_key (K := kernel_good) v 0 None (mk_heap 0 1 1 1) with
  | Some (v', h') => kvec_look v' 0 = None ∧ h_keys h' = 2
  | None => False
  end.
Proof. vm_compute. done. Qed.

(** A removal for which there is no memory leaves the pointer in the table. *)
Lemma kvec_set_key_stale (K : Kernel) :
  (∀ t, kalloc t = false) →
  let v := mk_rkvec 2 0 0 [true; false] [Some 7; None] in
  match ntrdma_kvec_set_key v 0 None (mk_heap 0 1 1 1) with
  | Some (v', h') => kvec_look v' 0 = Some 7
  | None => False
  end.
Proof. intros H. cbn. unfold ntrdma_kvec_set_key, ntrdma_kvec_new_copy, kzalloc. simpl. by rewrite H. Qed.

End Vec.
