(* ===== verification/Vbell.v ===== *)
(** * Virtual doorbells (ntrdma_dev.h, ntrdma_vbell.h, ntrdma_vbell.c)

    A peer rings by writing a new sequence number into an array of this side;
    the interrupt work compares each number with the one it has seen (the
    head's) and runs the callbacks of the doorbells armed on that head.  Each
    function holds the head's lock from beginning to end, so it is one step of
    the model; the callbacks it runs are logged in order. *)

From stdpp Require Import gmap.
From S2P Require Import Prelude Kernel Ntc.
Import Ntc.

Module Vbell.

Definition NTRDMA_DEV_VBELL_COUNT : Z := 1024.
Definition NTRDMA_DEV_VBELL_START : Z := 8.

(** ** Data *)

Record ntrdma_vbell := mk_vbell {
  vb_idx : nat;
  vb_seq : Z;
  vb_arm : bool;
  vb_enabled : bool;
  vb_alive : bool }.

(** [list] holds the names of the armed doorbells. *)
Record ntrdma_vbell_head := mk_head {
  vh_list : list nat;
  vh_seq : Z;
  vh_enabled : bool }.

Record ntrdma_peer_vbell := mk_peer { pv_seq : Z; pv_enabled : bool }.

(** The heads of a device, its doorbells by name, and the callbacks run. *)
Record vbells := mk_vbells {
  vs_heads : list ntrdma_vbell_head;
  vs_bells : gmap nat ntrdma_vbell;
  vs_fired : list nat }.

Definition ntrdma_vbell_init (idx : nat) : ntrdma_vbell := mk_vbell idx 0 false true true.
Definition ntrdma_vbell_head_init : ntrdma_vbell_head := mk_head [] 0 false.
Definition ntrdma_peer_vbell_init : ntrdma_peer_vbell := mk_peer 0 false.
Definition ntrdma_peer_vbell_enable (p : ntrdma_peer_vbell) : ntrdma_peer_vbell :=
  mk_peer (pv_seq p) true.
Definition ntrdma_peer_vbell_disable (p : ntrdma_peer_vbell) : ntrdma_peer_vbell :=
  mk_peer (pv_seq p) false.

(** ** One doorbell *)

Definition vs_set_bell (id : nat) (v : ntrdma_vbell) (s : vbells) : vbells :=
  mk_vbells (vs_heads s) (<[id := v]> (vs_bells s)) (vs_fired s).
Definition vs_set_head (i : nat) (h : ntrdma_vbell_head) (s : vbells) : vbells :=
  mk_vbells (<[i := h]> (vs_heads s)) (vs_bells s) (vs_fired s).
Definition vs_call (id : nat) (s : vbells) : vbells :=
  mk_vbells (vs_heads s) (vs_bells s) (vs_fired s ++ [id]).

Definition list_del (id : nat) (l : list nat) : list nat := filter (λ x, x ≠ id) l.
Definition head_del (id : nat) (h : ntrdma_vbell_head) : ntrdma_vbell_head :=
  mk_head (list_del id (vh_list h)) (vh_seq h) (vh_enabled h).
Definition head_add_tail (id : nat) (h : ntrdma_vbell_head) : ntrdma_vbell_head :=
  mk_head (vh_list h ++ [id]) (vh_seq h) (vh_enabled h).

Definition vb_set (seq : Z) (arm enabled alive : bool) (v : ntrdma_vbell) : ntrdma_vbell :=
  mk_vbell (vb_idx v) seq arm enabled alive.

(** A function on a doorbell and its head; a name that does not exist has no
    counterpart in the code. *)
Definition with_vbell (id : nat) (f : ntrdma_vbell → ntrdma_vbell_head → Z * vbells)
    (s : vbells) : Z * vbells :=
  match vs_bells s !! id with
  | None => (- EINVAL, s)
  | Some v =>
      match vs_heads s !! vb_idx v with
      | None => (- EINVAL, s)
      | Some h => f v h
      end
  end.

Definition ntrdma_vbell_enable (id : nat) (s : vbells) : vbells :=
  snd (with_vbell id (λ v _,
    (0, vs_set_bell id (vb_set (vb_seq v) (vb_arm v) true (vb_alive v) v) s)) s).

Definition ntrdma_vbell_disable (id : nat) (s : vbells) : vbells :=
  snd (with_vbell id (λ v _,
    (0, vs_set_bell id (vb_set (vb_seq v) (vb_arm v) false (vb_alive v) v) s)) s).

Definition ntrdma_vbell_del (id : nat) (s : vbells) : vbells :=
  snd (with_vbell id (λ v h,
    (0, if negb (vb_arm v) then vs_set_bell id (vb_set (vb_seq v) (vb_arm v) false false v) s
        else vs_set_head (vb_idx v) (head_del id h)
               (vs_set_bell id (vb_set (vb_seq v) false false false v) s))) s).

Definition ntrdma_vbell_clear (id : nat) (s : vbells) : vbells :=
  snd (with_vbell id (λ v h,
    (0, vs_set_bell id (vb_set (vh_seq h) (vb_arm v) (vb_enabled v) (vb_alive v) v) s)) s).

Definition ntrdma_vbell_readd (id : nat) (s : vbells) : Z * vbells :=
  with_vbell id (λ v h,
    if negb (vb_alive v) then (- EINVAL, s)
    else if vb_arm v then (0, s)
    else if negb (vb_seq v =? vh_seq h) then
      (0, vs_call id (vs_set_bell id (vb_set (vh_seq h) (vb_arm v) (vb_enabled v) (vb_alive v) v) s))
    else
      (0, vs_set_head (vb_idx v) (head_add_tail id h)
            (vs_set_bell id (vb_set (vb_seq v) true (vb_enabled v) (vb_alive v) v) s))) s.

Definition ntrdma_vbell_add_clear (id : nat) (s : vbells) : Z * vbells :=
  with_vbell id (λ v h,
    if negb (vb_alive v) then (- EINVAL, s)
    else if vb_arm v then (0, s)
    else
      (0, vs_set_head (vb_idx v) (head_add_tail id h)
            (vs_set_bell id (vb_set (vh_seq h) true (vb_enabled v) (vb_alive v) v) s))) s.

Definition ntrdma_vbell_trigger (id : nat) (s : vbells) : Z * vbells :=
  with_vbell id (λ v h,
    if negb (vb_enabled v) then (- EINVAL, s)
    else
      let s := if vb_arm v then vs_set_head (vb_idx v) (head_del id h) s else s in
      (0, vs_call id (vs_set_bell id (vb_set (vh_seq h) false (vb_enabled v) (vb_alive v) v) s))) s.

(** ** Heads *)

(** One turn of the loop of [ntrdma_vbell_head_fire_locked]. *)
Definition fire_one (i : nat) (id : nat) (s : vbells) : vbells :=
  match vs_bells s !! id, vs_heads s !! i with
  | Some v, Some h =>
      if negb (vb_enabled v) then s
      else
        vs_call id (vs_set_bell id (vb_set (vh_seq h) false (vb_enabled v) (vb_alive v) v)
                      (vs_set_head i (head_del id h) s))
  | _, _ => s
  end.

Definition ntrdma_vbell_head_fire_locked (i : nat) (s : vbells) : vbells :=
  match vs_heads s !! i with
  | None => s
  | Some h => foldl (λ s id, fire_one i id s) s (vh_list h)
  end.

Definition ntrdma_vbell_head_fire (i : nat) (vbell_val : Z) (s : vbells) : vbells :=
  match vs_heads s !! i with
  | None => s
  | Some h =>
      if negb (vh_enabled h) then s
      else if vh_seq h =? vbell_val then s
      else
        ntrdma_vbell_head_fire_locked i
          (vs_set_head i (mk_head (vh_list h) vbell_val (vh_enabled h)) s)
  end.

Definition ntrdma_vbell_head_enable (i : nat) (s : vbells) : vbells :=
  match vs_heads s !! i with
  | None => s
  | Some h =>
      ntrdma_vbell_head_fire_locked i (vs_set_head i (mk_head (vh_list h) (vh_seq h) true) s)
  end.

Definition ntrdma_vbell_head_disable (i : nat) (s : vbells) : vbells :=
  match vs_heads s !! i with
  | None => s
  | Some h =>
      ntrdma_vbell_head_fire_locked i (vs_set_head i (mk_head (vh_list h) 0 false) s)
  end.

(** ** The device *)

Record ntrdma_dev_vbell := mk_dev_vbell {
  dv_enable : bool;
  dv_count : Z;
  dv_start : Z;
  dv_next : Z;
  dv_vec : vbells;
  dv_buf : list Z;
  dv_peer : list ntrdma_peer_vbell;
  dv_peer_buf : ntc_remote_buf;
  dv_peer_count : Z }.

Definition dv_set_vec (s : vbells) (d : ntrdma_dev_vbell) : ntrdma_dev_vbell :=
  mk_dev_vbell (dv_enable d) (dv_count d) (dv_start d) (dv_next d) s (dv_buf d)
    (dv_peer d) (dv_peer_buf d) (dv_peer_count d).

Definition dv_set_next (n : Z) (d : ntrdma_dev_vbell) : ntrdma_dev_vbell :=
  mk_dev_vbell (dv_enable d) (dv_count d) (dv_start d) n (dv_vec d) (dv_buf d)
    (dv_peer d) (dv_peer_buf d) (dv_peer_count d).

Definition dv_set_peer (p : list ntrdma_peer_vbell) (d : ntrdma_dev_vbell) : ntrdma_dev_vbell :=
  mk_dev_vbell (dv_enable d) (dv_count d) (dv_start d) (dv_next d) (dv_vec d) (dv_buf d)
    p (dv_peer_buf d) (dv_peer_count d).

(** [alloc_vec] and [alloc_buf] are the outcomes of the two allocations. *)
Definition ntrdma_dev_vbell_init (vbell_count vbell_start : Z) (alloc_vec : bool) (alloc_buf : Z)
  : Z * option ntrdma_dev_vbell :=
  if negb alloc_vec then (- ENOMEM, None)
  else if alloc_buf <? 0 then (alloc_buf, None)
  else
    (0, Some (mk_dev_vbell false vbell_count vbell_start 0
                (mk_vbells (replicate (Z.to_nat vbell_count) ntrdma_vbell_head_init) ∅ [])
                (replicate (Z.to_nat vbell_count) 0)
                (replicate (Z.to_nat NTRDMA_DEV_VBELL_COUNT) ntrdma_peer_vbell_init)
                ntc_remote_buf_clear 0)).

(** [next] is a 32 bit atomic counter. *)
Definition ntrdma_dev_vbell_next (d : ntrdma_dev_vbell) : Z * ntrdma_dev_vbell :=
  let next := u32 (dv_next d + 1) in
  let idx := u32 (next - 1) in
  (u32 (dv_start d + idx mod u32 (dv_count d - dv_start d)), dv_set_next next d).

(** The loops over the heads. *)
Definition for_heads (f : nat → vbells → vbells) (count : Z) (s : vbells) : vbells :=
  foldl (λ s i, f i s) s (seq 0 (Z.to_nat count)).

(** The loops over the peer's doorbells; [None] is an index outside the array
    of [NTRDMA_DEV_VBELL_COUNT] elements. *)
Definition for_peers (f : ntrdma_peer_vbell → ntrdma_peer_vbell) (count : Z)
    (l : list ntrdma_peer_vbell) : option (list ntrdma_peer_vbell) :=
  if Z.of_nat (length l) <? count then None
  else Some ((f <$> take (Z.to_nat count) l) ++ drop (Z.to_nat count) l).

Section Device.
Context `{K : Kernel}.

Definition ntrdma_dev_vbell_enable (ntc : ntc_dev) (desc : ntc_remote_buf_desc)
    (peer_vbell_count : Z) (d : ntrdma_dev_vbell) : option (Z * ntrdma_dev_vbell) :=
  if dv_enable d then Some (0, d)
  else
    let '(rc, peer_vbell_buf) := ntc_remote_buf_map ntc desc in
    if rc <? 0 then Some (rc, d)
    else
      match for_peers ntrdma_peer_vbell_enable peer_vbell_count (dv_peer d) with
      | None => None
      | Some peer =>
          Some (0, mk_dev_vbell true (dv_count d) (dv_start d) (dv_next d)
                     (for_heads ntrdma_vbell_head_enable (dv_count d) (dv_vec d))
                     (dv_buf d) peer peer_vbell_buf peer_vbell_count)
      end.

Definition ntrdma_dev_vbell_disable (d : ntrdma_dev_vbell) : option ntrdma_dev_vbell :=
  if negb (dv_enable d) then Some d
  else
    match for_peers ntrdma_peer_vbell_disable (dv_peer_count d) (dv_peer d) with
    | None => None
    | Some peer =>
        Some (mk_dev_vbell false (dv_count d) (dv_start d) (dv_next d)
                (for_heads ntrdma_vbell_head_disable (dv_count d) (dv_vec d))
                (replicate (Z.to_nat (dv_count d)) 0) peer
                (fst (ntc_remote_buf_unmap (dv_peer_buf d))) 0)
    end.

(** One turn of the loop of the interrupt work. *)
Definition vbell_work_one (buf : list Z) (i : nat) (s : vbells) : vbells :=
  match vs_heads s !! i, buf !! i with
  | Some h, Some vbell_val =>
      if vh_seq h =? vbell_val then s else ntrdma_vbell_head_fire i vbell_val s
  | _, _ => s
  end.

(** Up to [ntc_clear_signal], which may schedule the work again. *)
Definition ntrdma_dev_vbell_work (d : ntrdma_dev_vbell) : ntrdma_dev_vbell :=
  dv_set_vec (for_heads (vbell_work_one (dv_buf d)) (dv_count d) (dv_vec d)) d.

(** Ringing the peer through the DMA channel; [None] when the index is outside
    the array. *)
Definition ntrdma_dev_vbell_peer (idx : Z) (d : ntrdma_dev_vbell) (io : dma_io)
  : option (Z * ntrdma_dev_vbell * dma_io) :=
  match dv_peer d !! Z.to_nat idx with
  | None => None
  | Some p =>
      if negb (pv_enabled p) then Some (- EINVAL, d, io)
      else
        let seq := u32 (pv_seq p + 1) in
        let '(rc, io) := ntc_request_imm32 (dv_peer_buf d) (u64 (idx * 4)) seq true io in
        Some (rc, dv_set_peer (<[Z.to_nat idx := mk_peer seq (pv_enabled p)]> (dv_peer d)) d, io)
  end.

(** Ringing the peer by a processor store; [imm32] is the channel's
    [ntc_imm32]. *)
Definition ntrdma_dev_vbell_peer_direct (imm32 : ntc_remote_buf → Z → Z → Z)
    (idx : Z) (d : ntrdma_dev_vbell) : option (Z * ntrdma_dev_vbell) :=
  match dv_peer d !! Z.to_nat idx with
  | None => None
  | Some p =>
      if negb (pv_enabled p) then Some (- EINVAL, d)
      else
        let seq := u32 (pv_seq p + 1) in
        Some (imm32 (dv_peer_buf d) (u64 (idx * 4)) seq,
              dv_set_peer (<[Z.to_nat idx := mk_peer seq (pv_enabled p)]> (dv_peer d)) d)
  end.

End Device.

(** The callbacks: what each kind of doorbell does when it is rung, and what
    stops it; the work itself is the kernel's. *)
Inductive vbell_kind := KTasklet | KWork | KNapi.
Inductive vbell_effect :=
  | ScheduleTasklet | QueueWork | ScheduleNapi | KillTasklet | FlushWork | DelNapi.

Definition vbell_cb (k : vbell_kind) : vbell_effect :=
  match k with KTasklet => ScheduleTasklet | KWork => QueueWork | KNapi => ScheduleNapi end.

Definition ntrdma_tasklet_vbell_kill (id : nat) (s : vbells) : vbells * list vbell_effect :=
  (ntrdma_vbell_del id s, [KillTasklet]).
Definition ntrdma_work_vbell_flush (id : nat) (s : vbells) : vbells * list vbell_effect :=
  (ntrdma_vbell_disable id s, [FlushWork; FlushWork]).
Definition ntrdma_work_vbell_kill (id : nat) (s : vbells) : vbells * list vbell_effect :=
  (ntrdma_vbell_del id s, [FlushWork; FlushWork]).
Definition ntrdma_napi_vbell_kill (id : nat) (s : vbells) : vbells * list vbell_effect :=
  (ntrdma_vbell_del id s, [DelNapi]).

(** ** Runs *)

Inductive vop :=
  | OpEnable (id : nat) | OpDisable (id : nat) | OpDel (id : nat) | OpClear (id : nat)
  | OpReadd (id : nat) | OpAddClear (id : nat) | OpTrigger (id : nat)
  | OpFire (i : nat) (val : Z) | OpHeadEnable (i : nat) | OpHeadDisable (i : nat).

Definition vop_step (o : vop) (s : vbells) : vbells :=
  match o with
  | OpEnable id => ntrdma_vbell_enable id s
  | OpDisable id => ntrdma_vbell_disable id s
  | OpDel id => ntrdma_vbell_del id s
  | OpClear id => ntrdma_vbell_clear id s
  | OpReadd id => snd (ntrdma_vbell_readd id s)
  | OpAddClear id => snd (ntrdma_vbell_add_clear id s)
  | OpTrigger id => snd (ntrdma_vbell_trigger id s)
  | OpFire i val => ntrdma_vbell_head_fire i val s
  | OpHeadEnable i => ntrdma_vbell_head_enable i s
  | OpHeadDisable i => ntrdma_vbell_head_disable i s
  end.

Definition vop_run (ops : list vop) (s : vbells) : vbells := foldl (λ s o, vop_step o s) s ops.

(** ** The invariant

    A doorbell is in the list of its head exactly when it is armed, once, and
    a doorbell that was deleted is not. *)

Record vbells_wf (s : vbells) : Prop := {
  vw_nodup i h : vs_heads s !! i = Some h → NoDup (vh_list h);
  vw_list i h id : vs_heads s !! i = Some h →
    id ∈ vh_list h ↔ ∃ v, vs_bells s !! id = Some v ∧ vb_idx v = i ∧ vb_arm v = true;
  vw_idx id v : vs_bells s !! id = Some v → is_Some (vs_heads s !! vb_idx v);
  vw_dead id v : vs_bells s !! id = Some v → vb_alive v = false → vb_arm v = false }.

Lemma vs_set_head_id i h s : vs_heads s !! i = Some h → vs_set_head i h s = s.
Proof. intros H. unfold vs_set_head. rewrite list_insert_id by done. by destruct s. Qed.

(** Every operation on a doorbell updates it and the list of its head. *)
Lemma wf_update s id v v' h h' :
  vbells_wf s → vs_bells s !! id = Some v → vs_heads s !! vb_idx v = Some h →
  vb_idx v' = vb_idx v → NoDup (vh_list h') →
  (∀ x, x ≠ id → x ∈ vh_list h' ↔ x ∈ vh_list h) →
  (id ∈ vh_list h' ↔ vb_arm v' = true) →
  (vb_alive v' = false → vb_arm v' = false) →
  vbells_wf (vs_set_head (vb_idx v) h' (vs_set_bell id v' s)).
Proof.
  intros [W1 W2 W3 W4] Hv Hh Hi Hnd Hx Hid Hdead.
  pose proof (lookup_lt_Some _ _ _ Hh) as Hlt.
  assert (∀ j g, <[vb_idx v := h']> (vs_heads s) !! j = Some g →
            (j = vb_idx v ∧ g = h') ∨ (j ≠ vb_idx v ∧ vs_heads s !! j = Some g)) as Hcase.
  { intros j g. destruct (decide (j = vb_idx v)) as [->|Hne].
    - rewrite list_lookup_insert_eq by done. intros [= ->]. by left.
    - rewrite list_lookup_insert_ne by done. by right. }
  split; simpl.
  - intros j g [[-> ->]|[? Hg]]%Hcase; [done|by eapply W1].
  - intros j g x [[-> ->]|[Hne Hg]]%Hcase; destruct (decide (x = id)) as [->|Hxi].
    + rewrite lookup_insert_eq, Hid. naive_solver.
    + rewrite lookup_insert_ne by done. rewrite Hx by done. by apply W2.
    + rewrite lookup_insert_eq, (W2 _ _ _ Hg). split.
      * intros (? & ? & ? & ?). simplify_eq.
      * intros (? & [= <-] & ? & ?). congruence.
    + rewrite lookup_insert_ne by done. by apply W2.
  - intros x y Hy. apply lookup_lt_is_Some. rewrite length_insert. apply lookup_lt_is_Some.
    apply lookup_insert_Some in Hy as [[<- <-]|[_ Hy]]; [rewrite Hi|]; eauto.
  - intros x y [[<- <-]|[_ Hy]]%lookup_insert_Some; [done|by eapply W4].
Qed.

Lemma wf_update_bell s id v v' :
  vbells_wf s → vs_bells s !! id = Some v →
  vb_idx v' = vb_idx v → vb_arm v' = vb_arm v → (vb_alive v' = false → vb_arm v' = false) →
  vbells_wf (vs_set_bell id v' s).
Proof.
  intros Hwf Hv Hi Ha Hd. pose proof Hwf as [W1 W2 W3 W4].
  destruct (W3 _ _ Hv) as [h Hh].
  rewrite <- (vs_set_head_id (vb_idx v) h (vs_set_bell id v' s)) by done.
  eapply wf_update; try done; [by eapply W1|].
  rewrite (W2 _ _ _ Hh). rewrite Ha. naive_solver.
Qed.

Lemma wf_head_seq s i h seq en :
  vbells_wf s → vs_heads s !! i = Some h →
  vbells_wf (vs_set_head i (mk_head (vh_list h) seq en) s).
Proof.
  intros [W1 W2 W3 W4] Hh. pose proof (lookup_lt_Some _ _ _ Hh) as Hlt.
  split; simpl.
  - intros j g. destruct (decide (j = i)) as [->|].
    + rewrite list_lookup_insert_eq by done. intros [= <-]. simpl. by apply (W1 i h).
    + rewrite list_lookup_insert_ne by done. apply W1.
  - intros j g x. destruct (decide (j = i)) as [->|].
    + rewrite list_lookup_insert_eq by done. intros [= <-]. by apply (W2 i h).
    + rewrite list_lookup_insert_ne by done. apply W2.
  - intros x y Hy. apply lookup_lt_is_Some. rewrite length_insert. apply lookup_lt_is_Some. eauto.
  - done.
Qed.

Lemma wf_call id s : vbells_wf s → vbells_wf (vs_call id s).
Proof. intros [? ? ? ?]. by split. Qed.

Lemma elem_of_list_del x id l : x ∈ list_del id l ↔ x ∈ l ∧ x ≠ id.
Proof. unfold list_del. rewrite list_elem_of_filter. tauto. Qed.

Lemma wf_del s id v h v' :
  vbells_wf s → vs_bells s !! id = Some v → vs_heads s !! vb_idx v = Some h →
  vb_idx v' = vb_idx v → vb_arm v' = false →
  vbells_wf (vs_set_head (vb_idx v) (head_del id h) (vs_set_bell id v' s)).
Proof.
  intros Hwf Hv Hh Hi Ha. eapply wf_update; try done; simpl.
  - apply list.NoDup_filter. by eapply vw_nodup.
  - intros x Hx. rewrite elem_of_list_del. naive_solver.
  - rewrite elem_of_list_del. naive_solver congruence.
Qed.

Lemma wf_add s id v h v' :
  vbells_wf s → vs_bells s !! id = Some v → vs_heads s !! vb_idx v = Some h →
  vb_idx v' = vb_idx v → vb_arm v = false → vb_arm v' = true → vb_alive v' = true →
  vbells_wf (vs_set_head (vb_idx v) (head_add_tail id h) (vs_set_bell id v' s)).
Proof.
  intros Hwf Hv Hh Hi Ha Ha' Hal. eapply wf_update; try done; simpl.
  - apply list.NoDup_app. split; [by eapply vw_nodup|]. split; [|apply list.NoDup_singleton].
    intros x Hx ->%list_elem_of_singleton. apply (vw_list _ Hwf _ _ _ Hh) in Hx.
    naive_solver congruence.
  - intros x Hx. rewrite elem_of_app, list_elem_of_singleton. naive_solver.
  - rewrite elem_of_app, list_elem_of_singleton. naive_solver.
  - congruence.
Qed.

Lemma wf_fire_one s i id v :
  vbells_wf s → vs_bells s !! id = Some v → vb_idx v = i → vbells_wf (fire_one i id s).
Proof.
  intros Hwf Hv <-. unfold fire_one. rewrite Hv.
  destruct (vw_idx _ Hwf _ _ Hv) as [h Hh]. rewrite Hh.
  destruct (vb_enabled v); simpl; [|done]. apply wf_call.
  change (vs_set_bell id ?v' (vs_set_head ?i ?h' s)) with (vs_set_head i h' (vs_set_bell id v' s)).
  by apply wf_del.
Qed.

(** What a fire makes of a doorbell of the list. *)
Definition fired_bell (seq : Z) (v : ntrdma_vbell) : ntrdma_vbell :=
  if vb_enabled v then vb_set seq false true (vb_alive v) v else v.

Definition bell_enabled (s : vbells) (id : nat) : bool :=
  match vs_bells s !! id with Some v => vb_enabled v | None => false end.

Definition on_head (s : vbells) (i : nat) (id : nat) : Prop :=
  ∃ v, vs_bells s !! id = Some v ∧ vb_idx v = i.


Lemma vs_set_head_twice i h h' s : vs_set_head i h (vs_set_head i h' s) = vs_set_head i h s.
Proof. unfold vs_set_head. simpl. by rewrite list_insert_insert_eq. Qed.

(** The loop over a list of doorbells of head [i]. *)
Lemma fire_list_spec l i s h :
  vs_heads s !! i = Some h → NoDup l → (∀ id, id ∈ l → on_head s i id) →
  let s' := foldl (λ s id, fire_one i id s) s l in
  vs_fired s' = vs_fired s ++ filter (λ id, bell_enabled s id = true) l
  ∧ (∀ id, vs_bells s' !! id =
       if decide (id ∈ l) then fired_bell (vh_seq h) <$> vs_bells s !! id else vs_bells s !! id)
  ∧ vs_heads s' = <[i := mk_head (filter (λ id, ¬ (id ∈ l ∧ bell_enabled s id = true)) (vh_list h))
                           (vh_seq h) (vh_enabled h)]> (vs_heads s).
Proof.
  intros Hh Hnd. revert s h Hh. induction Hnd as [|id l Hid Hnd IH]; intros s h Hh Hon; cbn [foldl].
  { split; [by rewrite app_nil_r|]. split; [done|].
    rewrite list_insert_id; [done|]. rewrite Hh. destruct h as [l q e]. simpl. f_equal. f_equal.
    symmetry. apply list_filter_all. intros x _ [Hx _]. by apply elem_of_nil in Hx. }
  destruct (Hon id ltac:(by left)) as (v & Hv & Hi).
  destruct (vb_enabled v) eqn:Hen.
  - assert (fire_one i id s =
      vs_call id (vs_set_bell id (fired_bell (vh_seq h) v) (vs_set_head i (head_del id h) s))) as ->.
    { unfold fire_one, fired_bell. rewrite Hv, Hh, Hen. done. }
    set (s1 := vs_call _ _).
    assert (∀ x, x ≠ id → vs_bells s1 !! x = vs_bells s !! x) as Hsame.
    { intros x Hx. simpl. by rewrite lookup_insert_ne. }
    assert (∀ x, x ∈ l → bell_enabled s1 x = bell_enabled s x) as Hben.
    { intros x Hx. unfold bell_enabled. rewrite Hsame; [done|]. by intros ->. }
    pose proof (lookup_lt_Some _ _ _ Hh) as Hlt.
    destruct (IH s1 (head_del id h)) as (F1 & F2 & F3).
    { simpl. by rewrite list_lookup_insert_eq. }
    { intros x Hx. destruct (Hon x ltac:(by right)) as (y & Hy & ?). exists y.
      rewrite Hsame; [done|]. by intros ->. }
    split; [|split].
    + rewrite F1. simpl. rewrite <- app_assoc. f_equal.
      rewrite filter_cons_True by (unfold bell_enabled; by rewrite Hv). simpl. f_equal.
      apply list_filter_iff_in. intros x Hx. by rewrite Hben.
    + intros x. rewrite F2. simpl. destruct (decide (x = id)) as [->|Hx].
      * rewrite lookup_insert_eq. rewrite decide_False by done.
        rewrite decide_True by (by left). by rewrite Hv.
      * rewrite lookup_insert_ne by done. destruct (decide (x ∈ l)).
        -- by rewrite decide_True by (by right).
        -- rewrite decide_False; [done|]. by intros [?|?]%elem_of_cons.
    + rewrite F3. simpl. rewrite list_insert_insert_eq. f_equal. f_equal.
      unfold list_del. rewrite list_filter_filter. apply list_filter_iff_in.
      intros x _. rewrite elem_of_cons. destruct (decide (x = id)) as [->|Hx].
      * assert (bell_enabled s id = true) by (unfold bell_enabled; by rewrite Hv). naive_solver.
      * destruct (decide (x ∈ l)) as [Hxl|Hxl]; [rewrite (Hben x Hxl)|]; naive_solver.
  - assert (fire_one i id s = s) as ->.
    { unfold fire_one. rewrite Hv, Hh, Hen. done. }
    destruct (IH s h Hh) as (F1 & F2 & F3).
    { intros x Hx. apply Hon. by right. }
    assert (bell_enabled s id = false) as Hbe by (unfold bell_enabled; by rewrite Hv).
    split; [|split].
    + rewrite F1. f_equal. rewrite filter_cons_False; [done|]. by rewrite Hbe.
    + intros x. rewrite F2. destruct (decide (x = id)) as [->|Hx].
      * rewrite decide_False by done. rewrite decide_True by (by left). rewrite Hv. simpl.
        unfold fired_bell. by rewrite Hen.
      * destruct (decide (x ∈ l)).
        -- by rewrite decide_True by (by right).
        -- rewrite decide_False; [done|]. by intros [?|?]%elem_of_cons.
    + rewrite F3. f_equal. f_equal. apply list_filter_iff_in.
      intros x _. rewrite elem_of_cons. destruct (decide (x = id)) as [->|Hx]; [|naive_solver].
      rewrite Hbe. naive_solver.
Qed.

Lemma list_on_head s i h id :
  vbells_wf s → vs_heads s !! i = Some h → id ∈ vh_list h → on_head s i id.
Proof. intros Hwf Hh Hid. apply (vw_list _ Hwf _ _ _ Hh) in Hid. destruct Hid as (v & ? & ? & ?). by exists v. Qed.

Lemma wf_fire_list l i s : vbells_wf s → (∀ id, id ∈ l → on_head s i id) →
  vbells_wf (foldl (λ s id, fire_one i id s) s l).
Proof.
  revert s. induction l as [|id l IH]; intros s Hwf Hon; simpl; [done|].
  destruct (Hon id ltac:(by left)) as (v & Hv & Hi). apply IH; [by eapply wf_fire_one|].
  intros x Hx. destruct (Hon x ltac:(by right)) as (y & Hy & Hyi).
  unfold fire_one, on_head. rewrite Hv. destruct (vs_heads s !! i); [|by exists y].
  destruct (vb_enabled v); simpl; [|by exists y].
  destruct (decide (x = id)) as [->|].
  - rewrite lookup_insert_eq. eexists. split; [done|]. by rewrite Hv in Hy; simplify_eq.
  - rewrite lookup_insert_ne by done. by exists y.
Qed.

Lemma wf_fire_locked i s : vbells_wf s → vbells_wf (ntrdma_vbell_head_fire_locked i s).
Proof.
  intros Hwf. unfold ntrdma_vbell_head_fire_locked. destruct (vs_heads s !! i) as [h|] eqn:Hh; [|done].
  apply wf_fire_list; [done|]. intros id. by apply list_on_head.
Qed.

(** The branches of an operation on a doorbell. *)
Lemma with_vbell_wf id f s :
  vbells_wf s →
  (∀ v h, vs_bells s !! id = Some v → vs_heads s !! vb_idx v = Some h → vbells_wf (snd (f v h))) →
  vbells_wf (snd (with_vbell id f s)).
Proof.
  intros Hwf Hf. unfold with_vbell. destruct (vs_bells s !! id) as [v|] eqn:Hv; [|done].
  destruct (vs_heads s !! vb_idx v) as [h|] eqn:Hh; [by apply Hf|done].
Qed.

Lemma vop_step_wf o s : vbells_wf s → vbells_wf (vop_step o s).
Proof.
  intros Hwf. destruct o as [id|id|id|id|id|id|id|i val|i|i]; simpl;
    try (apply with_vbell_wf; [done|]; intros v h Hv Hh; simpl).
  - eapply wf_update_bell; try done. apply (vw_dead _ Hwf _ _ Hv).
  - eapply wf_update_bell; try done. apply (vw_dead _ Hwf _ _ Hv).
  - destruct (vb_arm v) eqn:Ha; simpl; [by apply wf_del|].
    by eapply wf_update_bell.
  - eapply wf_update_bell; try done. apply (vw_dead _ Hwf _ _ Hv).
  - destruct (vb_alive v) eqn:Hal; simpl; [|done]. destruct (vb_arm v) eqn:Ha; simpl; [done|].
    destruct (_ =? _); simpl; [by apply wf_add|]. apply wf_call. by eapply wf_update_bell.
  - destruct (vb_alive v) eqn:Hal; simpl; [|done]. destruct (vb_arm v) eqn:Ha; simpl; [done|].
    by apply wf_add.
  - destruct (vb_enabled v); simpl; [|done]. apply wf_call.
    destruct (vb_arm v) eqn:Ha.
    + change (vs_set_bell id ?v' (vs_set_head ?i ?h' s)) with (vs_set_head i h' (vs_set_bell id v' s)).
      by apply wf_del.
    + by eapply wf_update_bell.
  - unfold ntrdma_vbell_head_fire. destruct (vs_heads s !! i) as [h|] eqn:Hh; [|done].
    destruct (vh_enabled h); simpl; [|done]. destruct (_ =? _); [done|].
    by apply wf_fire_locked, wf_head_seq.
  - unfold ntrdma_vbell_head_enable. destruct (vs_heads s !! i) as [h|] eqn:Hh; [|done].
    by apply wf_fire_locked, wf_head_seq.
  - unfold ntrdma_vbell_head_disable. destruct (vs_heads s !! i) as [h|] eqn:Hh; [|done].
    by apply wf_fire_locked, wf_head_seq.
Qed.


(** The outcome of a fire that gives head [i] the number [q]. *)
Lemma head_op_spec i h q en s :
  vbells_wf s → vs_heads s !! i = Some h →
  let s' := ntrdma_vbell_head_fire_locked i (vs_set_head i (mk_head (vh_list h) q en) s) in
  vs_fired s' = vs_fired s ++ filter (λ id, bell_enabled s id = true) (vh_list h)
  ∧ (∀ id, vs_bells s' !! id =
       if decide (id ∈ vh_list h) then fired_bell q <$> vs_bells s !! id else vs_bells s !! id)
  ∧ vs_heads s' = <[i := mk_head (filter (λ id, bell_enabled s id = false) (vh_list h)) q en]> (vs_heads s).
Proof.
  intros Hwf Hh. unfold ntrdma_vbell_head_fire_locked. simpl.
  pose proof (lookup_lt_Some _ _ _ Hh) as Hlt.
  rewrite list_lookup_insert_eq by done. simpl.
  destruct (fire_list_spec (vh_list h) i (vs_set_head i (mk_head (vh_list h) q en) s)
              (mk_head (vh_list h) q en)) as (F1 & F2 & F3).
  - simpl. by rewrite list_lookup_insert_eq.
  - by eapply vw_nodup.
  - intros id Hid. pose proof (list_on_head _ _ _ _ Hwf Hh Hid). done.
  - split; [exact F1|]. split; [exact F2|]. rewrite F3. simpl. rewrite list_insert_insert_eq.
    f_equal. f_equal. apply list_filter_iff_in. intros x Hx.
    change (bell_enabled (vs_set_head i (mk_head (vh_list h) q en) s) x) with (bell_enabled s x).
    destruct (bell_enabled s x); naive_solver.
Qed.

(** ** What other operations do to a doorbell *)

Definition seq_at (s : vbells) (i : nat) : option Z := vh_seq <$> vs_heads s !! i.

Definition op_target (o : vop) : option nat :=
  match o with
  | OpEnable id | OpDisable id | OpDel id | OpClear id | OpReadd id | OpAddClear id
  | OpTrigger id => Some id
  | OpFire _ _ | OpHeadEnable _ | OpHeadDisable _ => None
  end.

(** An operation on a doorbell leaves the numbers of the heads alone and the
    other doorbells as they are. *)
Definition local_to (id : nat) (s s' : vbells) : Prop :=
  (∀ i, seq_at s' i = seq_at s i)
  ∧ (∀ x, x ≠ id → vs_bells s' !! x = vs_bells s !! x)
  ∧ ∃ l, vs_fired s' = vs_fired s ++ l ∧ ∀ x, x ∈ l → x = id.

Lemma seq_at_set_head s i h h' j :
  vs_heads s !! i = Some h → vh_seq h' = vh_seq h → seq_at (vs_set_head i h' s) j = seq_at s j.
Proof.
  intros Hh Hs. unfold seq_at. simpl. pose proof (lookup_lt_Some _ _ _ Hh).
  destruct (decide (j = i)) as [->|].
  - rewrite list_lookup_insert_eq, Hh by done. simpl. by rewrite Hs.
  - by rewrite list_lookup_insert_ne.
Qed.

Lemma local_refl id s : local_to id s s.
Proof. split; [done|]. split; [done|]. exists []. rewrite app_nil_r. split; [done|]. by intros x ?%elem_of_nil. Qed.

Lemma local_bell id v s : local_to id s (vs_set_bell id v s).
Proof.
  split; [done|]. split; [intros x Hx; simpl; by rewrite lookup_insert_ne|].
  exists []. rewrite app_nil_r. split; [done|]. by intros x ?%elem_of_nil.
Qed.

Lemma local_head id i h h' s s' :
  vs_heads s' !! i = Some h → vh_seq h' = vh_seq h → local_to id s s' →
  local_to id s (vs_set_head i h' s').
Proof.
  intros Hh Hs (H1 & H2 & H3). split; [|split; [|done]]; [|done].
  intros j. rewrite (seq_at_set_head s' i h h') by done. apply H1.
Qed.

Lemma local_call id s s' : local_to id s s' → local_to id s (vs_call id s').
Proof.
  intros (H1 & H2 & l & H3 & H4). split; [done|]. split; [done|]. exists (l ++ [id]). simpl.
  rewrite H3, <- app_assoc. split; [done|].
  intros x [?|?%list_elem_of_singleton]%elem_of_app; auto.
Qed.

Lemma with_vbell_local id f s :
  (∀ v h, vs_bells s !! id = Some v → vs_heads s !! vb_idx v = Some h → local_to id s (snd (f v h))) →
  local_to id s (snd (with_vbell id f s)).
Proof.
  intros Hf. unfold with_vbell. destruct (vs_bells s !! id) as [v|] eqn:Hv; [|apply local_refl].
  destruct (vs_heads s !! vb_idx v) as [h|] eqn:Hh; [by apply Hf|apply local_refl].
Qed.

#[local] Hint Resolve local_refl local_bell local_call : core.

Lemma vop_step_local o id s : op_target o = Some id → local_to id s (vop_step o s).
Proof.
  intros Ho. destruct o; simpl in *; simplify_eq; apply with_vbell_local; intros v h Hv Hh; simpl; auto.
  - destruct (vb_arm v); simpl; [|auto]. eapply local_head; eauto.
  - destruct (vb_alive v); simpl; [|auto]. destruct (vb_arm v); simpl; [auto|].
    destruct (_ =? _); simpl; [|auto]. eapply local_head; eauto.
  - destruct (vb_alive v); simpl; [|auto]. destruct (vb_arm v); simpl; [auto|].
    eapply local_head; eauto.
  - destruct (vb_enabled v); simpl; [|auto]. apply local_call.
    destruct (vb_arm v); [|auto].
    change (vs_set_bell id ?v' (vs_set_head ?i ?h' s)) with (vs_set_head i h' (vs_set_bell id v' s)).
    eapply local_head; eauto.
Qed.

(** A head operation, in terms of one doorbell. *)
Definition head_op_bell (id : nat) (v : ntrdma_vbell) (s s' : vbells) : Prop :=
  s' = s ∨ ∃ i q l,
    (∀ j, seq_at s' j = if decide (j = i) then Some q else seq_at s j)
    ∧ vs_fired s' = vs_fired s ++ l
    ∧ if decide (vb_arm v = true ∧ vb_idx v = i)
      then vs_bells s' !! id = Some (fired_bell q v) ∧ (vb_enabled v = true → id ∈ l)
      else vs_bells s' !! id = Some v.

Lemma head_op_bell_intro id v s i h q en :
  vbells_wf s → vs_bells s !! id = Some v → vs_heads s !! i = Some h →
  head_op_bell id v s
    (ntrdma_vbell_head_fire_locked i (vs_set_head i (mk_head (vh_list h) q en) s)).
Proof.
  intros Hwf Hv Hh. destruct (head_op_spec i h q en s Hwf Hh) as (F1 & F2 & F3).
  right. exists i, q, (filter (λ id, bell_enabled s id = true) (vh_list h)).
  pose proof (lookup_lt_Some _ _ _ Hh) as Hlt. split; [|split; [done|]].
  - intros j. unfold seq_at. rewrite F3. destruct (decide (j = i)) as [->|].
    + by rewrite list_lookup_insert_eq.
    + by rewrite list_lookup_insert_ne.
  - rewrite F2. rewrite Hv. simpl.
    pose proof (vw_list _ Hwf i h id Hh) as Hin.
    destruct (decide (vb_arm v = true ∧ vb_idx v = i)) as [[Ha Hi]|Hn].
    + rewrite decide_True by (apply Hin; by exists v). split; [done|].
      intros Hen. apply list_elem_of_filter. split; [unfold bell_enabled; by rewrite Hv|].
      apply Hin. by exists v.
    + rewrite decide_False; [done|]. intros (x & Hx & ? & ?)%Hin. simplify_eq. by apply Hn.
Qed.

Lemma vop_step_head o id v s :
  vbells_wf s → op_target o = None → vs_bells s !! id = Some v →
  head_op_bell id v s (vop_step o s).
Proof.
  intros Hwf Ho Hv. destruct o as [| | | | | | |i val|i|i]; simpl in *; try done.
  - unfold ntrdma_vbell_head_fire. destruct (vs_heads s !! i) as [h|] eqn:Hh; [|by left].
    destruct (vh_enabled h); simpl; [|by left]. destruct (_ =? _); [by left|].
    by apply head_op_bell_intro.
  - unfold ntrdma_vbell_head_enable. destruct (vs_heads s !! i) as [h|] eqn:Hh; [|by left].
    by apply head_op_bell_intro.
  - unfold ntrdma_vbell_head_disable. destruct (vs_heads s !! i) as [h|] eqn:Hh; [|by left].
    by apply head_op_bell_intro.
Qed.

(** A doorbell that is never disabled is armed only at the number its head
    has. *)
Definition bell_synced (id : nat) (s : vbells) : Prop :=
  ∀ v, vs_bells s !! id = Some v →
    (vb_alive v = true → vb_enabled v = true)
    ∧ (vb_arm v = true → seq_at s (vb_idx v) = Some (vb_seq v)).

Lemma synced_own o id s :
  vbells_wf s → op_target o = Some id → o ≠ OpDisable id → bell_synced id s →
  bell_synced id (vop_step o s).
Proof.
  intros Hwf Ho Hne Hs. pose proof (vop_step_local o id s Ho) as (Hseq & _ & _).
  intros v' Hv'. rewrite Hseq. revert Hv'.
  destruct o; simpl in *; simplify_eq; unfold ntrdma_vbell_enable, ntrdma_vbell_del,
    ntrdma_vbell_clear, ntrdma_vbell_readd, ntrdma_vbell_add_clear, ntrdma_vbell_trigger, with_vbell.
  all: destruct (vs_bells s !! id) as [v|] eqn:Hv; simpl; [|intros ?; congruence].
  all: destruct (vs_heads s !! vb_idx v) as [h|] eqn:Hh; simpl;
    [|intros ?; destruct (vw_idx _ Hwf _ _ Hv); congruence].
  all: destruct (Hs v Hv) as [Hen Harm];
    assert (seq_at s (vb_idx v) = Some (vh_seq h)) as Hsq by (unfold seq_at; by rewrite Hh).
  all: repeat match goal with |- context [if ?b then _ else _] => destruct b eqn:?; simpl end;
    rewrite ?lookup_insert_eq, ?Hv; intros ?; simplify_eq;
    rewrite ?negb_true_iff, ?negb_false_iff in *; cbn [vb_set vb_idx vb_seq vb_arm vb_enabled vb_alive].
  all: split; intros ?; try congruence; try (by apply Hen); try (by apply Harm);
    rewrite Hsq; f_equal; lia.
Qed.

Lemma synced_step o id s :
  vbells_wf s → o ≠ OpDisable id → bell_synced id s → bell_synced id (vop_step o s).
Proof.
  intros Hwf Hne Hs. destruct (op_target o) as [x|] eqn:Ho.
  - destruct (decide (x = id)) as [->|Hx]; [by apply synced_own|].
    destruct (vop_step_local o x s Ho) as (Hseq & Hb & _). intros v.
    rewrite Hb, Hseq by done. apply Hs.
  - intros v' Hv'. destruct (vs_bells s !! id) as [v|] eqn:Hv.
    + destruct (vop_step_head o id v s Hwf Ho Hv) as [He|(i & q & l & Hseq & _ & Hb)].
      { rewrite He in *. by apply Hs. }
      destruct (Hs v Hv) as [Hen Harm].
      destruct (decide _) as [[Ha Hi]|Hn].
      * destruct Hb as [Hb _]. rewrite Hb in Hv'. simplify_eq. unfold fired_bell.
        destruct (vb_alive v) eqn:Hal; [|by rewrite (vw_dead _ Hwf _ _ Hv Hal) in Ha].
        by rewrite (Hen eq_refl).
      * rewrite Hb in Hv'. simplify_eq. split; [done|]. intros Ha. rewrite Hseq.
        rewrite decide_False; [by apply Harm|]. intros Hi. by apply Hn.
    + exfalso. destruct o as [| | | | | | |i val|i|i]; simpl in *; try done.
      all: revert Hv'; unfold ntrdma_vbell_head_fire, ntrdma_vbell_head_enable, ntrdma_vbell_head_disable;
        destruct (vs_heads s !! i) as [h|] eqn:Hh; [|congruence].
      1: destruct (vh_enabled h); simpl; [|congruence]; destruct (_ =? _); [congruence|].
      all: match goal with |- context [mk_head _ ?q ?en] =>
             destruct (head_op_spec i h q en s Hwf Hh) as (_ & F2 & _) end;
        rewrite F2, Hv; by destruct (decide _).
Qed.

(** While operations name other doorbells, a doorbell keeps its state until
    its callback runs. *)
Lemma step_other o id v s :
  vbells_wf s → op_target o ≠ Some id → vs_bells s !! id = Some v →
  ∃ l, vs_fired (vop_step o s) = vs_fired s ++ l
    ∧ (id ∈ l ∨ vs_bells (vop_step o s) !! id = Some v).
Proof.
  intros Hwf Hne Hv. destruct (op_target o) as [x|] eqn:Ho.
  - assert (x ≠ id) by congruence.
    destruct (vop_step_local o x s Ho) as (_ & Hb & l & Hl & _). exists l. split; [done|].
    right. by rewrite Hb.
  - destruct (vop_step_head o id v s Hwf Ho Hv) as [He|(i & q & l & _ & Hl & Hb)].
    + exists []. rewrite He, app_nil_r. split; [done|by right].
    + exists l. split; [done|]. destruct (decide _).
      * destruct Hb as [Hb Hin]. unfold fired_bell in Hb.
        destruct (vb_enabled v); [left; by apply Hin|by right].
      * by right.
Qed.

Lemma run_other ops id v s :
  vbells_wf s → Forall (λ o, op_target o ≠ Some id) ops → bell_synced id s →
  vs_bells s !! id = Some v →
  let s' := vop_run ops s in
  vbells_wf s' ∧ bell_synced id s'
  ∧ ∃ l, vs_fired s' = vs_fired s ++ l ∧ (id ∈ l ∨ vs_bells s' !! id = Some v).
Proof.
  intros Hwf Hops. revert v s Hwf. induction Hops as [|o ops Ho Hops IH]; intros v s Hwf Hs Hv; simpl.
  { split; [done|]. split; [done|]. exists []. rewrite app_nil_r. split; [done|by right]. }
  assert (vbells_wf (vop_step o s)) as Hwf1 by (by apply vop_step_wf).
  assert (bell_synced id (vop_step o s)) as Hs1.
  { apply synced_step; try done. intros ->. by apply Ho. }
  destruct (step_other o id v s Hwf Ho Hv) as (l1 & Hl1 & Hor).
  assert (∃ v1, vs_bells (vop_step o s) !! id = Some v1 ∧ (id ∈ l1 ∨ v1 = v)) as (v1 & Hv1 & Hor1).
  { destruct Hor as [Hin|Hb]; [|by eauto].
    destruct (vs_bells (vop_step o s) !! id) as [v1|] eqn:Hv1; [by eauto|exfalso].
    destruct (op_target o) as [x|] eqn:Hx.
    - destruct (vop_step_local o x s Hx) as (_ & Hb & _). rewrite Hb in Hv1; congruence.
    - destruct (vop_step_head o id v s Hwf Hx Hv) as [He|(i & q & l & _ & _ & Hb)]; [congruence|].
      destruct (decide _); [destruct Hb|]; congruence. }
  destruct (IH v1 _ Hwf1 Hs1 Hv1) as (W & S & l2 & Hl2 & Hor2).
  split; [done|]. split; [done|]. exists (l1 ++ l2). unfold vop_run in *.
  rewrite Hl2, Hl1, <- app_assoc. split; [done|]. rewrite elem_of_app.
  destruct Hor1 as [?| ->]; [by left; left|]. destruct Hor2; [left; by right|by right].
Qed.


(** ** Properties *)

(** The doorbells of a device after its initialization. *)
Definition vbells_fresh (s : vbells) : Prop :=
  (∀ i h, vs_heads s !! i = Some h → h = ntrdma_vbell_head_init)
  ∧ (∀ id v, vs_bells s !! id = Some v → ∃ i, v = ntrdma_vbell_init i ∧ is_Some (vs_heads s !! i)).

Lemma fresh_wf s : vbells_fresh s → vbells_wf s.
Proof.
  intros [Hh Hb]. split.
  - intros i h ->%Hh. constructor.
  - intros i h id ->%Hh. simpl. rewrite elem_of_nil. split; [done|].
    intros (v & (j & -> & _)%Hb & _ & ?). done.
  - intros id v (j & -> & ?)%Hb. done.
  - intros id v (j & -> & _)%Hb. done.
Qed.

Lemma vop_run_wf ops s : vbells_wf s → vbells_wf (vop_run ops s).
Proof.
  unfold vop_run. revert s. induction ops as [|o ops IH]; intros s Hwf; simpl; [done|].
  by apply IH, vop_step_wf.
Qed.

(** C13: whatever sequence of doorbell operations runs from the initial state, a
    doorbell is linked into the list of its head exactly when it is armed,
    never twice, and a deleted doorbell is in no list: no list ever holds a
    doorbell that has been freed. *)
Theorem vbell_lists_consistent ops s :
  vbells_fresh s →
  let s' := vop_run ops s in
  ∀ i h id, vs_heads s' !! i = Some h →
    NoDup (vh_list h)
    ∧ (id ∈ vh_list h ↔ ∃ v, vs_bells s' !! id = Some v ∧ vb_idx v = i ∧ vb_arm v = true)
    ∧ (∀ v, vs_bells s' !! id = Some v → vb_alive v = false → id ∉ vh_list h).
Proof.
  intros [Hh Hb] s'.
  pose proof (fresh_wf s (conj Hh Hb)) as Hwf0.
  assert (vbells_wf s') as Hwf by (by apply vop_run_wf).
  clearbody s'. intros i h id Hi. split; [by eapply vw_nodup|]. split; [by apply vw_list|].
  intros v Hv Hd Hin. apply (vw_list _ Hwf _ _ _ Hi) in Hin as (x & Hx & _ & Ha).
  rewrite Hv in Hx. simplify_eq. by rewrite (vw_dead _ Hwf _ _ Hv Hd) in Ha.
Qed.

Definition ex_vbells : vbells :=
  mk_vbells [ntrdma_vbell_head_init; ntrdma_vbell_head_init]
    {[ 7%nat := ntrdma_vbell_init 1; 9%nat := ntrdma_vbell_init 1 ]} [].

Lemma ex_vbells_fresh : vbells_fresh ex_vbells.
Proof.
  split.
  - intros [|[|i]] h; simpl; by intros [= <-].
  - intros id v. unfold ex_vbells, vs_bells.
    intros [[<- <-]|[_ [<- <-]%lookup_singleton_Some]]%lookup_insert_Some;
      exists 1%nat; split; try done; by exists ntrdma_vbell_head_init.
Qed.

Definition ex_vops : list vop :=
  [OpHeadEnable 1; OpReadd 7; OpReadd 9; OpFire 1 1; OpClear 7; OpReadd 7; OpDel 9].

Lemma vbell_lists_consistent_witness :
  vbells_fresh ex_vbells
  ∧ let s' := vop_run ex_vops ex_vbells in
    ∀ i h id, vs_heads s' !! i = Some h →
      NoDup (vh_list h)
      ∧ (id ∈ vh_list h ↔ ∃ v, vs_bells s' !! id = Some v ∧ vb_idx v = i ∧ vb_arm v = true)
      ∧ (∀ v, vs_bells s' !! id = Some v → vb_alive v = false → id ∉ vh_list h).
Proof.
  split; [exact ex_vbells_fresh|].
  apply (vbell_lists_consistent ex_vops ex_vbells ex_vbells_fresh).
Defined.

(** A ring with a new number on an enabled head runs the callback of every
    enabled doorbell of its list, once each and in order, and of no other
    doorbell; those are unlinked and marked with the new number, every other
    doorbell is untouched, and the head has the new number. *)
Theorem vbell_fire_wakes_armed i val s h :
  vbells_wf s → vs_heads s !! i = Some h → vh_enabled h = true → vh_seq h ≠ val →
  let s' := ntrdma_vbell_head_fire i val s in
  vs_fired s' = vs_fired s ++ filter (λ id, bell_enabled s id = true) (vh_list h)
  ∧ (∀ id v, vs_bells s !! id = Some v →
       vs_bells s' !! id =
         Some (if decide (id ∈ vh_list h ∧ vb_enabled v = true)
               then mk_vbell (vb_idx v) val false true (vb_alive v) else v))
  ∧ vs_heads s' !! i = Some (mk_head (filter (λ id, bell_enabled s id = false) (vh_list h)) val true)
  ∧ (∀ j, j ≠ i → vs_heads s' !! j = vs_heads s !! j).
Proof.
  intros Hwf Hh Hen Hne. unfold ntrdma_vbell_head_fire. rewrite Hh, Hen. simpl.
  rewrite (proj2 (Z.eqb_neq _ _)) by done.
  destruct (head_op_spec i h val true s Hwf Hh) as (F1 & F2 & F3).
  pose proof (lookup_lt_Some _ _ _ Hh). cbv zeta. rewrite F3.
  split; [exact F1|]. split; [|split].
  - intros id v Hv. rewrite F2, Hv. simpl. unfold fired_bell, vb_set.
    destruct (decide (id ∈ vh_list h)), (vb_enabled v); repeat case_decide; naive_solver.
  - by rewrite list_lookup_insert_eq.
  - intros j Hj. by rewrite list_lookup_insert_ne.
Qed.

Definition ex_armed : vbells := vop_run [OpHeadEnable 1; OpReadd 7; OpReadd 9; OpDisable 9] ex_vbells.

Lemma ex_armed_wf : vbells_wf ex_armed.
Proof.
  apply vop_run_wf, fresh_wf, ex_vbells_fresh.
Qed.

Lemma vbell_fire_wakes_armed_witness :
  let s' := ntrdma_vbell_head_fire 1 5 ex_armed in
  vs_fired s' = vs_fired ex_armed ++ filter (λ id, bell_enabled ex_armed id = true) [7; 9]%nat
  ∧ (∀ id v, vs_bells ex_armed !! id = Some v →
       vs_bells s' !! id =
         Some (if decide (id ∈ [7; 9]%nat ∧ vb_enabled v = true)
               then mk_vbell (vb_idx v) 5 false true (vb_alive v) else v))
  ∧ vs_heads s' !! 1%nat = Some (mk_head (filter (λ id, bell_enabled ex_armed id = false) [7; 9]%nat) 5 true)
  ∧ (∀ j, j ≠ 1%nat → vs_heads s' !! j = vs_heads ex_armed !! j).
Proof.
  apply (vbell_fire_wakes_armed 1 5 ex_armed (mk_head [7; 9]%nat 0 true) ex_armed_wf);
    [reflexivity|reflexivity|discriminate].
Defined.



(** The number a doorbell index is drawn from may wrap around; the index is in
    the range reserved for dynamic doorbells all the same. *)
Lemma vbell_next_in_range d :
  0 <= dv_start d → dv_start d < dv_count d → dv_count d < 2 ^ 32 →
  let '(idx, d') := ntrdma_dev_vbell_next d in
  dv_start d <= idx < dv_count d ∧ dv_next d' = u32 (dv_next d + 1).
Proof.
  intros H0 H1 H2. unfold ntrdma_dev_vbell_next. split; [|done].
  rewrite (u32_small (dv_count d - dv_start d)) by lia.
  pose proof (Z.mod_pos_bound (u32 (u32 (dv_next d + 1) - 1)) (dv_count d - dv_start d)).
  rewrite u32_small by lia. lia.
Qed.

(** A doorbell that is disabled while its head is rung stays armed with the old
    number; enabling it again does not make up for the ring. *)
Lemma disabled_bell_misses_ring :
  let s := vop_run [OpHeadEnable 1; OpReadd 7; OpDisable 7; OpFire 1 1; OpEnable 7; OpReadd 7] ex_vbells in
  vs_fired s = [] ∧ vs_bells s !! 7%nat = Some (mk_vbell 1 0 true true true)
  ∧ seq_at s 1 = Some 1.
Proof. vm_compute. done. Qed.

End Vbell.
