(* ===== verification/Res.v ===== *)
(** * Resources (ntrdma_obj.h, ntrdma_res.h, ntrdma_res.c, the references of
    ntrdma_mr.c)

    A resource is an object with a count of references, found by its key in a
    table of [Vec].  Local resources get their key from the table and live in
    [res_store]; remote ones live in [rres_store], in which a release unmaps
    and frees the object.  Pointers are names in a heap of objects. *)

From stdpp Require Import gmap.
From S2P Require Import Prelude Kernel Ntc Mem Vec.
Import Ntc Mem Vec.

Module Res.

Definition NTRDMA_RES_VEC_INIT_CAP : Z := 512.
Definition NTRDMA_QP_VEC_PREALLOCATED : Z := 2.
Definition NTRDMA_MR_VEC_PREALLOCATED : Z := 0.
Definition KEY_NONE : Z := 4294967295.

(** ** Objects *)

(** The embedded [ntrdma_obj] and key, with the value that embeds them. *)
Record object {V : Type} := mk_object {
  o_key : Z;
  o_kref : Z;
  o_in_list : bool;
  o_val : V }.
Arguments object : clear implicits.
Arguments mk_object {V} _ _ _ _.

(** [kref_init]. *)
Definition ntrdma_obj_init {V} (key : Z) (val : V) : object V := mk_object key 1 false val.

Definition o_set_kref {V} (n : Z) (o : object V) : object V :=
  mk_object (o_key o) n (o_in_list o) (o_val o).

(** [kref_get_unless_zero]. *)
Definition ntrdma_obj_get {V} (o : object V) : object V :=
  if o_kref o =? 0 then o else o_set_kref (o_kref o + 1) o.

(** [kref_put]: the object, and whether it is to be released. *)
Definition ntrdma_obj_put {V} (o : object V) : bool * object V :=
  (o_kref o - 1 =? 0, o_set_kref (o_kref o - 1) o).

Notation heap_of V := (gmap nat (object V)).

Definition heap_get {V} (p : nat) (h : heap_of V) : heap_of V :=
  match h !! p with Some o => <[p := ntrdma_obj_get o]> h | None => h end.

(** A put of the last reference removes the object; its value is returned. *)
Definition heap_put {V} (p : nat) (h : heap_of V) : option V * heap_of V :=
  match h !! p with
  | Some o =>
      let '(release, o') := ntrdma_obj_put o in
      if release then (Some (o_val o), delete p h) else (None, <[p := o']> h)
  | None => (None, h)
  end.

(** ** Remote resources *)

Section Remote.
Context {V : Type} `{K : Kernel}.

(** One table of the device with the list of its remote resources; [rs_freed]
    are the values released, in order. *)
Record rres_store := mk_rres_store {
  rs_vec : ntrdma_rcu_vec nat;
  rs_objs : heap_of V;
  rs_list : list nat;
  rs_freed : list V;
  rs_heap : heap }.

Definition rs_set_objs (h : heap_of V) (s : rres_store) : rres_store :=
  mk_rres_store (rs_vec s) h (rs_list s) (rs_freed s) (rs_heap s).

Definition rs_set_vec (v : ntrdma_rcu_vec nat) (h : heap) (s : rres_store) : rres_store :=
  mk_rres_store v (rs_objs s) (rs_list s) (rs_freed s) h.

Definition ntrdma_rres_look (key : Z) (s : rres_store) : option nat * rres_store :=
  match vec_look (rs_vec s) key with
  | Some p => (Some p, rs_set_objs (heap_get p (rs_objs s)) s)
  | None => (None, s)
  end.

Definition ntrdma_rres_put (p : nat) (s : rres_store) : rres_store :=
  let '(freed, objs) := heap_put p (rs_objs s) in
  mk_rres_store (rs_vec s) objs (rs_list s)
    (rs_freed s ++ match freed with Some v => [v] | None => [] end) (rs_heap s).

(** [ntrdma_rres_init] of a new object at [p]. *)
Definition ntrdma_rres_init (p : nat) (key : Z) (val : V) (s : rres_store) : rres_store :=
  rs_set_objs (<[p := ntrdma_obj_init key val]> (rs_objs s)) s.

Definition rs_mark (p : nat) (f : object V → object V) (s : rres_store) : rres_store :=
  rs_set_objs (alter f p (rs_objs s)) s.

(** [None] where the table's operation is undefined. *)
Definition ntrdma_rres_add (p : nat) (s : rres_store) : option (Z * rres_store) :=
  match rs_objs s !! p with
  | None => None
  | Some o =>
      match ntrdma_vec_set (rs_vec s) (o_key o) (Some p) (rs_heap s) with
      | None => None
      | Some (rc, v, h) =>
          let s := rs_set_vec v h s in
          if rc <? 0 then Some (rc, s)
          else
            let s := rs_mark p (λ o, mk_object (o_key o) (o_kref o) true (o_val o)) s in
            Some (0, mk_rres_store (rs_vec s) (rs_objs s) (rs_list s ++ [p]) (rs_freed s) (rs_heap s))
      end
  end.

Definition ntrdma_rres_remove_unsafe (p : nat) (s : rres_store) : option rres_store :=
  match rs_objs s !! p with
  | None => None
  | Some o =>
      match ntrdma_vec_set (rs_vec s) (o_key o) None (rs_heap s) with
      | None => None
      | Some (_, v, h) =>
          let s := rs_mark p (λ o, mk_object KEY_NONE (o_kref o) false (o_val o)) (rs_set_vec v h s) in
          Some (if o_in_list o
                then mk_rres_store (rs_vec s) (rs_objs s) (filter (λ x, x ≠ p) (rs_list s))
                       (rs_freed s) (rs_heap s)
                else s)
      end
  end.

Definition ntrdma_rres_remove (p : nat) (s : rres_store) : option rres_store :=
  ntrdma_rres_remove_unsafe p s.

(** The loop of [ntrdma_dev_rres_reset], over the list in reverse; the [free]
    function of a remote resource gives back one reference. *)
Fixpoint rres_reset_loop (l : list nat) (s : rres_store) : option rres_store :=
  match l with
  | [] => Some s
  | p :: l =>
      match ntrdma_rres_remove_unsafe p s with
      | None => None
      | Some s => rres_reset_loop l (ntrdma_rres_put p s)
      end
  end.

Definition ntrdma_dev_rres_reset (s : rres_store) : option rres_store :=
  match rres_reset_loop (rev (rs_list s)) s with
  | None => None
  | Some s => Some (mk_rres_store (rs_vec s) (rs_objs s) [] (rs_freed s) (rs_heap s))
  end.

End Remote.
Arguments rres_store : clear implicits.

(** ** Local resources *)

Section Local.
Context {V : Type} `{K : Kernel}.

Record res_store := mk_res_store {
  ls_vec : ntrdma_rcu_kvec nat;
  ls_objs : heap_of V;
  ls_list : list nat;
  ls_heap : heap;
  ls_unrecoverable : bool }.

Definition ls_set_objs (h : heap_of V) (s : res_store) : res_store :=
  mk_res_store (ls_vec s) h (ls_list s) (ls_heap s) (ls_unrecoverable s).

Definition ntrdma_res_look (key : Z) (s : res_store) : option nat * res_store :=
  match kvec_look (ls_vec s) key with
  | Some p => (Some p, ls_set_objs (heap_get p (ls_objs s)) s)
  | None => (None, s)
  end.

(** The release of a local resource completes a wait of its owner, which frees
    it; the model keeps the object. *)
Definition ntrdma_res_put (p : nat) (s : res_store) : bool * res_store :=
  match ls_objs s !! p with
  | Some o =>
      let '(release, o) := ntrdma_obj_put o in (release, ls_set_objs (<[p := o]> (ls_objs s)) s)
  | None => (false, s)
  end.

(** [ntrdma_kvec_set_key] on the store; [None] outside the table. *)
Definition ls_set_key (key : Z) (val : option nat) (s : res_store) : option res_store :=
  match ntrdma_kvec_set_key (ls_vec s) key val (ls_heap s) with
  | None => None
  | Some (v, h) => Some (mk_res_store v (ls_objs s) (ls_list s) h (ls_unrecoverable s))
  end.

Definition ls_list_del (p : nat) (s : res_store) : res_store :=
  mk_res_store (ls_vec s) (ls_objs s) (filter (λ x, x ≠ p) (ls_list s)) (ls_heap s)
    (ls_unrecoverable s).

Definition ls_list_add_tail (p : nat) (s : res_store) : res_store :=
  mk_res_store (ls_vec s) (ls_objs s) (ls_list s ++ [p]) (ls_heap s) (ls_unrecoverable s).

Definition ls_unrecoverable_err (s : res_store) : res_store :=
  mk_res_store (ls_vec s) (ls_objs s) (ls_list s) (ls_heap s) true.

(** What the rest of the driver answers during an addition or a removal: the
    results of the callback that queues the command and of the submission,
    the jiffies left when the wait for the answer ends, whether the command
    is still listed then, and the status the peer answered. *)
Record cmd_outcome := mk_outcome {
  oc_queued : Z;
  oc_submit : Z;
  oc_remaining : Z;
  oc_in_list : bool;
  oc_ret : Z }.

(** [ntrdma_cmd_cb_wait_out]: the result and the time left. *)
Definition ntrdma_cmd_cb_wait_out (timeout : Z) (oc : cmd_outcome) : Z * Z :=
  let t := if timeout =? 0 then timeout else oc_remaining oc in
  if (t =? 0) && oc_in_list oc then (- ETIME, 0) else (0, t + 1).

Definition ntrdma_res_wait_cmds (timeout : Z) (oc : cmd_outcome) : Z :=
  fst (ntrdma_cmd_cb_wait_out timeout oc).

Definition ntrdma_res_add (p : nat) (key timeout : Z) (oc : cmd_outcome) (s : res_store)
  : option (Z * res_store) :=
  match ls_set_key key (Some p) s with
  | None => None
  | Some s =>
      let s := ls_list_add_tail p s in
      if negb (oc_queued oc =? 0) then Some (0, s)
      else if negb (oc_submit oc =? 0) then Some (0, s)
      else
        let rc := ntrdma_res_wait_cmds timeout oc in
        let rc := if rc =? 0 then oc_ret oc else rc in
        if rc =? 0 then Some (0, s)
        else
          match ls_set_key key None (ls_list_del p s) with
          | None => None
          | Some s => Some (rc, ls_unrecoverable_err s)
          end
  end.

Definition ntrdma_res_del (p : nat) (key timeout : Z) (oc : cmd_outcome) (s : res_store)
  : option res_store :=
  match ls_set_key key None (ls_list_del p s) with
  | None => None
  | Some s =>
      if negb (oc_queued oc =? 0) then Some s
      else if negb (oc_submit oc =? 0) then Some s
      else
        let rc := ntrdma_res_wait_cmds timeout oc in
        let rc := if rc =? 0 then oc_ret oc else rc in
        Some (if rc =? 0 then s else ls_unrecoverable_err s)
  end.

End Local.
Arguments res_store : clear implicits.

(** ** The tables of the data path *)

(** The tables of memory regions of a device. *)
Record dev_mem := mk_dev_mem {
  dm_mr : res_store ntrdma_mr;
  dm_rmr : rres_store ntrdma_rmr }.

Definition dm_mr_of (w : dev_mem) (key : Z) : option ntrdma_mr :=
  match kvec_look (ls_vec (dm_mr w)) key with
  | Some p => o_val <$> ls_objs (dm_mr w) !! p
  | None => None
  end.

Definition dm_rmr_of (w : dev_mem) (key : Z) : option ntrdma_rmr :=
  match vec_look (rs_vec (dm_rmr w)) key with
  | Some p => o_val <$> rs_objs (dm_rmr w) !! p
  | None => None
  end.

Definition dm_mr_get (key : Z) (w : dev_mem) : dev_mem :=
  mk_dev_mem (snd (ntrdma_res_look key (dm_mr w))) (dm_rmr w).

Definition dm_rmr_get (key : Z) (w : dev_mem) : dev_mem :=
  mk_dev_mem (dm_mr w) (snd (ntrdma_rres_look key (dm_rmr w))).

Definition dm_mr_put (key : Z) (w : dev_mem) : dev_mem :=
  match kvec_look (ls_vec (dm_mr w)) key with
  | Some p => mk_dev_mem (snd (ntrdma_res_put p (dm_mr w))) (dm_rmr w)
  | None => w
  end.

Definition dm_rmr_put (key : Z) (w : dev_mem) : dev_mem :=
  match vec_look (rs_vec (dm_rmr w)) key with
  | Some p => mk_dev_mem (dm_mr w) (ntrdma_rres_put p (dm_rmr w))
  | None => w
  end.

(** Whatever a table finds is alive and carries the key it is found under. *)
Record dm_wf (w : dev_mem) : Prop := {
  dw_mr k p : kvec_look (ls_vec (dm_mr w)) k = Some p →
    ∃ o, ls_objs (dm_mr w) !! p = Some o ∧ 0 < o_kref o ∧ mr_key (o_val o) = k;
  dw_rmr k p : vec_look (rs_vec (dm_rmr w)) k = Some p →
    ∃ o, rs_objs (dm_rmr w) !! p = Some o ∧ 0 < o_kref o ∧ rmr_key (o_val o) = k }.

#[export] Instance dev_mem_store : MemStore dev_mem := {|
  mr_of := dm_mr_of;
  rmr_of := dm_rmr_of;
  mr_get := dm_mr_get;
  mr_put := dm_mr_put;
  rmr_get := dm_rmr_get;
  rmr_put := dm_rmr_put;
  mem_wf := dm_wf |}.

(** ** Lemmas *)

Lemma heap_get_val {V} p (h : heap_of V) q : o_val <$> heap_get p h !! q = o_val <$> h !! q.
Proof.
  unfold heap_get. destruct (h !! p) as [o|] eqn:Hp; [|done].
  destruct (decide (q = p)) as [->|].
  - rewrite lookup_insert_eq, Hp. unfold ntrdma_obj_get. simpl. by destruct (_ =? _).
  - by rewrite lookup_insert_ne.
Qed.

Lemma heap_get_alive {V} p (h : heap_of V) q o :
  h !! q = Some o → 0 < o_kref o →
  ∃ o', heap_get p h !! q = Some o' ∧ 0 < o_kref o' ∧ o_val o' = o_val o.
Proof.
  intros Hq Ho. unfold heap_get. destruct (h !! p) as [o1|] eqn:Hp; [|by exists o].
  destruct (decide (q = p)) as [->|].
  - rewrite lookup_insert_eq. simplify_eq. eexists. split; [done|]. unfold ntrdma_obj_get.
    destruct (Z.eqb_spec (o_kref o) 0); simpl; [lia|]. split; [lia|done].
  - rewrite lookup_insert_ne by done. by exists o.
Qed.

(** Taking a reference and giving it back. *)
Lemma heap_put_get {V} p (h : heap_of V) o :
  h !! p = Some o → 0 < o_kref o → heap_put p (heap_get p h) = (None, h).
Proof.
  intros Hp Ho. unfold heap_get, heap_put. rewrite Hp, lookup_insert_eq.
  unfold ntrdma_obj_get. destruct (Z.eqb_spec (o_kref o) 0); [lia|]. simpl.
  destruct (Z.eqb_spec (o_kref o + 1 - 1) 0); [lia|]. rewrite insert_insert_eq, insert_id; [done|].
  rewrite Hp. f_equal. destruct o as [ok on ol ov]. unfold o_set_kref. simpl. f_equal. lia.
Qed.

Lemma res_put_get {V} key p (s : res_store V) o :
  kvec_look (ls_vec s) key = Some p → ls_objs s !! p = Some o → 0 < o_kref o →
  snd (ntrdma_res_put p (snd (ntrdma_res_look key s))) = s.
Proof.
  intros Hk Hp Ho. unfold ntrdma_res_look. rewrite Hk. simpl.
  unfold ntrdma_res_put, heap_get. simpl. rewrite Hp, lookup_insert_eq.
  unfold ntrdma_obj_get. destruct (Z.eqb_spec (o_kref o) 0); [lia|]. simpl.
  destruct s as [v objs l h u]. unfold ls_set_objs. simpl in *. f_equal.
  rewrite insert_insert_eq. apply insert_id. rewrite Hp. f_equal.
  destruct o as [ok on ol ov]. unfold o_set_kref. simpl. f_equal. lia.
Qed.

Lemma rres_put_get {V} key p (s : rres_store V) o :
  vec_look (rs_vec s) key = Some p → rs_objs s !! p = Some o → 0 < o_kref o →
  ntrdma_rres_put p (snd (ntrdma_rres_look key s)) = s.
Proof.
  intros Hk Hp Ho. unfold ntrdma_rres_look. rewrite Hk. simpl.
  unfold ntrdma_rres_put. simpl. rewrite (heap_put_get p _ o) by done.
  destruct s. simpl. by rewrite app_nil_r.
Qed.

#[export] Instance dev_mem_store_ok : MemStoreOk dev_mem.
Proof.
  split; simpl.
  - intros w k j. unfold dm_mr_of, dm_mr_get, ntrdma_res_look. simpl.
    destruct (kvec_look (ls_vec (dm_mr w)) k) as [p|]; simpl; [|done].
    destruct (kvec_look (ls_vec (dm_mr w)) j); [|done]. apply heap_get_val.
  - done.
  - done.
  - intros w k j. unfold dm_rmr_of, dm_rmr_get, ntrdma_rres_look. simpl.
    destruct (vec_look (rs_vec (dm_rmr w)) k) as [p|]; simpl; [|done].
    destruct (vec_look (rs_vec (dm_rmr w)) j); [|done]. apply heap_get_val.
  - intros w k m Hwf Hm. unfold dm_mr_of in Hm.
    destruct (kvec_look (ls_vec (dm_mr w)) k) as [p|] eqn:Hk; [|done].
    destruct (dw_mr _ Hwf _ _ Hk) as (o & Ho & Hpos & _).
    pose proof (res_put_get k p (dm_mr w) o Hk Ho Hpos) as Hpg.
    unfold dm_mr_put, dm_mr_get. unfold ntrdma_res_look in *. rewrite Hk in *. simpl in *. rewrite Hk.
    rewrite Hpg. by destruct w.
  - intros w k m Hwf Hm. unfold dm_rmr_of in Hm.
    destruct (vec_look (rs_vec (dm_rmr w)) k) as [p|] eqn:Hk; [|done].
    destruct (dw_rmr _ Hwf _ _ Hk) as (o & Ho & Hpos & _).
    pose proof (rres_put_get k p (dm_rmr w) o Hk Ho Hpos) as Hpg.
    unfold dm_rmr_put, dm_rmr_get. unfold ntrdma_rres_look in *. rewrite Hk in *. simpl in *. rewrite Hk.
    rewrite Hpg. by destruct w.
  - done.
  - intros w k m Hwf Hm. unfold dm_mr_of in Hm.
    destruct (kvec_look (ls_vec (dm_mr w)) k) as [p|] eqn:Hk; [|done].
    destruct (dw_mr _ Hwf _ _ Hk) as (o & Ho & _ & Hkey). rewrite Ho in Hm. by simplify_eq/=.
  - intros w k m Hwf Hm. unfold dm_rmr_of in Hm.
    destruct (vec_look (rs_vec (dm_rmr w)) k) as [p|] eqn:Hk; [|done].
    destruct (dw_rmr _ Hwf _ _ Hk) as (o & Ho & _ & Hkey). rewrite Ho in Hm. by simplify_eq/=.
  - intros w k m [W1 W2] _. split; [|exact W2]. unfold dm_mr_get, ntrdma_res_look. simpl.
    destruct (kvec_look (ls_vec (dm_mr w)) k) as [p|]; simpl; [|exact W1].
    intros j q (o & Ho & Hpos & Hkey)%W1.
    destruct (heap_get_alive p _ _ _ Ho Hpos) as (o' & Ho' & Hpos' & Hv).
    exists o'. by rewrite Hv.
  - intros w k m [W1 W2] _. split; [exact W1|]. unfold dm_rmr_get, ntrdma_rres_look. simpl.
    destruct (vec_look (rs_vec (dm_rmr w)) k) as [p|]; simpl; [|exact W2].
    intros j q (o & Ho & Hpos & Hkey)%W2.
    destruct (heap_get_alive p _ _ _ Ho Hpos) as (o' & Ho' & Hpos' & Hv).
    exists o'. by rewrite Hv.
Qed.

(** *** Tables *)

Lemma ls_set_key_spec `{K : Kernel} {V} key val (s : res_store V) :
  kvec_wf (ls_vec s) → 0 <= key < kv_cap (ls_vec s) →
  ∃ s', ls_set_key key val s = Some s'
    ∧ kvec_wf (ls_vec s') ∧ kv_cap (ls_vec s') = kv_cap (ls_vec s)
    ∧ ls_objs s' = ls_objs s ∧ ls_list s' = ls_list s
    ∧ ls_unrecoverable s' = ls_unrecoverable s
    ∧ ((∀ k, 0 <= k → kvec_look (ls_vec s') k = if k =? key then val else kvec_look (ls_vec s) k)
       ∨ (ls_vec s' = ls_vec s ∧ ∃ t, kalloc t = false)).
Proof.
  intros Hwf Hk. unfold ls_set_key.
  destruct (kvec_set_key_cases (ls_vec s) key val (ls_heap s) Hwf Hk)
    as (v' & h' & -> & H1 & H2 & _ & _ & H5).
  eexists. split; [done|]. simpl. split; [done|]. split.
  { pose proof (kw_keys _ H1). pose proof (kw_keys _ Hwf). rewrite H2 in *. lia. }
  split_and!; try done. destruct H5 as [[H5 _]|(-> & _ & H5)]; [by left|by right].
Qed.

(** The entry of a key in the table of remote resources is an object of the
    heap with that key, listed once. *)
Record rres_wf {V} (s : rres_store V) : Prop := {
  rw_vec : vec_wf (rs_vec s);
  rw_look k p : 0 <= k → vec_look (rs_vec s) k = Some p →
    ∃ o, rs_objs s !! p = Some o ∧ o_key o = k ∧ 0 < o_kref o ∧ o_in_list o = true;
  rw_list p : p ∈ rs_list s ↔ ∃ o, rs_objs s !! p = Some o ∧ o_in_list o = true;
  rw_key p o : rs_objs s !! p = Some o → 0 <= o_key o }.

(** ** Properties *)

(** An addition that returns 0 has put the resource at the end of the
    device's list and under its key, and of no other key; one that fails has
    taken it off the list and out of the table again and reports the error as
    unrecoverable.  A command that could not be queued or submitted is not an
    error: the resource is added and will be announced when the link is up.
    The table can only miss the update when memory was short. *)
Theorem res_add_spec `{K : Kernel} {V} p key timeout oc (s : res_store V) :
  kvec_wf (ls_vec s) → 0 <= key < kv_cap (ls_vec s) → p ∉ ls_list s →
  (∀ t, kalloc t = true) →
  ∃ rc s', ntrdma_res_add p key timeout oc s = Some (rc, s')
    ∧ kvec_wf (ls_vec s') ∧ ls_objs s' = ls_objs s
    ∧ (∀ k, 0 <= k → k ≠ key → kvec_look (ls_vec s') k = kvec_look (ls_vec s) k)
    ∧ (oc_queued oc ≠ 0 ∨ oc_submit oc ≠ 0 → rc = 0)
    ∧ ((rc = 0 ∧ kvec_look (ls_vec s') key = Some p ∧ ls_list s' = ls_list s ++ [p]
        ∧ ls_unrecoverable s' = ls_unrecoverable s)
       ∨ (rc ≠ 0 ∧ kvec_look (ls_vec s') key = None ∧ ls_list s' = ls_list s
          ∧ ls_unrecoverable s' = true)).
Proof.
  intros Hwf Hk Hp Hall. unfold ntrdma_res_add.
  destruct (ls_set_key_spec key (Some p) s Hwf Hk) as (s1 & -> & W1 & C1 & O1 & L1 & U1 & T1).
  destruct T1 as [T1|(_ & t & Ht)]; [|by rewrite Hall in Ht].
  assert (kvec_look (ls_vec s1) key = Some p) as Hkey by (rewrite T1, Z.eqb_refl by lia; done).
  assert (∀ k, 0 <= k → k ≠ key → kvec_look (ls_vec s1) k = kvec_look (ls_vec s) k) as Hother.
  { intros k H0 Hne. rewrite T1 by done. by rewrite (proj2 (Z.eqb_neq _ _)). }
  destruct (Z.eqb_spec (oc_queued oc) 0) as [Hq|Hq]; simpl.
  2:{ do 2 eexists. split; [done|]. simpl. split_and!; try done. left. by rewrite L1. }
  destruct (Z.eqb_spec (oc_submit oc) 0) as [Hs|Hs]; simpl.
  2:{ do 2 eexists. split; [done|]. simpl. split_and!; try done. left. by rewrite L1. }
  set (rc := if ntrdma_res_wait_cmds timeout oc =? 0 then _ else _).
  destruct (Z.eqb_spec rc 0) as [Hrc|Hrc].
  { do 2 eexists. split; [done|]. simpl. split_and!; try done. left. by rewrite L1. }
  destruct (ls_set_key_spec key None (ls_list_del p (ls_list_add_tail p s1)))
    as (s2 & -> & W2 & C2 & O2 & L2 & U2 & T2); [done|simpl; lia|].
  destruct T2 as [T2|(_ & t & Ht)]; [|by rewrite Hall in Ht].
  do 2 eexists. split; [done|]. simpl in *. split_and!; try done.
  - by rewrite O2.
  - intros k H0 Hne. rewrite T2 by done. rewrite (proj2 (Z.eqb_neq _ _)) by done. by apply Hother.
  - lia.
  - right. split; [done|]. split; [rewrite T2, Z.eqb_refl by lia; done|]. split; [|done].
    rewrite L2, L1, list.filter_app, list.filter_cons_False by tauto. rewrite list.filter_nil, app_nil_r.
    apply list_filter_all. intros x Hx ->. done.
Qed.

Lemma res_add_spec_witness :
  let s := mk_res_store (mk_rkvec 4 0 1 [true; false; false; false] [None; None; None; None])
             (∅ : heap_of Z) [] (mk_heap 0 1 1 1) false in
  ∃ rc s', ntrdma_res_add (K := kernel_good) 5 0 1000 (mk_outcome 0 0 0 true 0) s = Some (rc, s')
    ∧ kvec_wf (ls_vec s') ∧ ls_objs s' = ls_objs s
    ∧ (∀ k, 0 <= k → k ≠ 0 → kvec_look (ls_vec s') k = kvec_look (ls_vec s) k)
    ∧ (0 ≠ 0 ∨ 0 ≠ 0 → rc = 0)
    ∧ ((rc = 0 ∧ kvec_look (ls_vec s') 0 = Some 5%nat ∧ ls_list s' = [] ++ [5%nat]
        ∧ ls_unrecoverable s' = false)
       ∨ (rc ≠ 0 ∧ kvec_look (ls_vec s') 0 = None ∧ ls_list s' = []
          ∧ ls_unrecoverable s' = true)).
Proof.
  apply (res_add_spec (K := kernel_good) 5 0 1000 (mk_outcome 0 0 0 true 0)
           (mk_res_store (mk_rkvec 4 0 1 [true; false; false; false] [None; None; None; None])
             (∅ : heap_of Z) [] (mk_heap 0 1 1 1) false)).
  - split; simpl; try (split; (reflexivity || discriminate)); try reflexivity. intros i Hi. lia.
  - split; (reflexivity || discriminate).
  - apply not_elem_of_nil.
  - reflexivity.
Defined.

(** The puts that follow a removal. *)
Lemma rres_puts {V} p o (s : rres_store V) n :
  rs_objs s !! p = Some o → (n < Z.to_nat (o_kref o))%nat →
  let s' := Nat.iter n (ntrdma_rres_put p) s in
  rs_freed s' = rs_freed s
  ∧ ∃ o', rs_objs s' !! p = Some o' ∧ o_kref o' = o_kref o - Z.of_nat n ∧ o_val o' = o_val o.
Proof.
  intros Hp. induction n as [|n IH]; intros Hn; simpl.
  { split; [done|]. exists o. split; [done|]. split; [lia|done]. }
  destruct (IH ltac:(lia)) as (F & o' & Ho & Hk & Hv).
  set (s1 := Nat.iter n (ntrdma_rres_put p) s) in *.
  unfold ntrdma_rres_put, heap_put, ntrdma_obj_put. rewrite Ho.
  destruct (Z.eqb_spec (o_kref o' - 1) 0); [lia|]. simpl. rewrite app_nil_r. split; [done|].
  rewrite lookup_insert_eq. eexists. split; [done|]. simpl. split; [lia|done].
Qed.

(** Removing a remote resource makes it unreachable under its key and off
    the list at once, leaves every other resource as it is, and does not free
    the object: the object lives on with the references that are held, and is
    released, once, by the put that gives back the last of them. *)
Theorem rres_remove_then_put `{K : Kernel} {V} p o (s : rres_store V) :
  rres_wf s → rs_objs s !! p = Some o → o_key o < rv_cap (rs_vec s) → 0 < o_kref o →
  (∀ t, kalloc t = true) →
  ∃ s', ntrdma_rres_remove p s = Some s'
    ∧ vec_look (rs_vec s') (o_key o) = None
    ∧ (∀ k, 0 <= k → k ≠ o_key o → vec_look (rs_vec s') k = vec_look (rs_vec s) k)
    ∧ p ∉ rs_list s' ∧ (∀ q, q ≠ p → q ∈ rs_list s' ↔ q ∈ rs_list s)
    ∧ (∀ n : nat, (n < Z.to_nat (o_kref o))%nat →
         rs_freed (Nat.iter n (ntrdma_rres_put p) s') = rs_freed s)
    ∧ rs_freed (Nat.iter (Z.to_nat (o_kref o)) (ntrdma_rres_put p) s') = rs_freed s ++ [o_val o].
Proof.
  intros Hwf Hp Hkey Hk Hall. unfold ntrdma_rres_remove, ntrdma_rres_remove_unsafe. rewrite Hp.
  pose proof (rw_key _ Hwf _ _ Hp) as Hkey0. pose proof (vw_cap _ (rw_vec _ Hwf)) as Hcap.
  unfold MAX_VEC_CAP in Hcap.
  destruct (vec_set_spec (rs_vec s) (o_key o) None (rs_heap s) (rw_vec _ Hwf))
    as (rc & v' & h' & -> & Hwf' & _ & H); [lia|].
  destruct H as [(-> & H)|(_ & _ & [?|(t & Ht)])]; [|lia|by rewrite Hall in Ht].
  set (f := λ o : object V, mk_object KEY_NONE (o_kref o) false (o_val o)).
  eexists. split; [done|].
  set (s1 := rs_mark p f (rs_set_vec v' h' s)).
  set (s' := if o_in_list o then _ else s1).
  assert (rs_vec s' = v' ∧ rs_freed s' = rs_freed s ∧ rs_objs s' = alter f p (rs_objs s))
    as (Hv & Hfr & Hob) by (unfold s'; by destruct (o_in_list o)).
  assert (∀ q, q ∈ rs_list s' ↔ q ∈ rs_list s ∧ q ≠ p) as Hlist.
  { intros q. unfold s'. pose proof (rw_list _ Hwf p) as Hin. destruct (o_in_list o) eqn:Hil; simpl.
    - rewrite list_elem_of_filter. tauto.
    - split; [|tauto]. intros Hq. split; [done|]. intros ->. apply Hin in Hq as (x & Hx & ?).
      rewrite Hp in Hx. simplify_eq. congruence. }
  clearbody s'. clear s1.
  assert (rs_objs s' !! p = Some (f o)) as Ho'.
  { rewrite Hob, lookup_alter_eq, Hp. done. }
  rewrite Hv, <- Hfr. split; [by rewrite H, Z.eqb_refl by done|]. split.
  { intros k H0 Hne. rewrite H by done. by rewrite (proj2 (Z.eqb_neq _ _)). }
  split; [rewrite Hlist; tauto|]. split; [intros q Hq; rewrite Hlist; tauto|]. split.
  - intros n Hn. apply (rres_puts p (f o) s' n Ho'). done.
  - replace (Z.to_nat (o_kref o)) with (S (Z.to_nat (o_kref o - 1))) by lia. simpl.
    destruct (rres_puts p (f o) s' (Z.to_nat (o_kref o - 1)) Ho') as (F & o2 & Ho2 & Hk2 & Hv2);
      [simpl; lia|]. simpl in Hk2, Hv2.
    unfold ntrdma_rres_put at 1, heap_put, ntrdma_obj_put. rewrite Ho2.
    destruct (Z.eqb_spec (o_kref o2 - 1) 0); [|lia]. simpl. by rewrite F, Hv2.
Qed.

Definition ex_rres : rres_store Z :=
  mk_rres_store (mk_rvec 4 [None; Some 7%nat; None; Some 8%nat])
    (<[7%nat := mk_object 1 3 true 70]> {[8%nat := mk_object 3 1 true 80]})
    [7%nat; 8%nat] [] (mk_heap 0 1 1 0).

Lemma ex_rres_wf : rres_wf ex_rres.
Proof.
  split.
  - split; simpl; [split; reflexivity|reflexivity].
  - intros k p Hk. unfold vec_look. simpl.
    destruct (Z.ltb_spec k 4); [|done].
    assert (k = 0 ∨ k = 1 ∨ k = 2 ∨ k = 3) as [->|[->|[->| ->]]] by lia; intros [=]; subst;
      eexists; (split; [reflexivity|]); split_and!; done.
  - intros p. unfold ex_rres, rs_list, rs_objs. split.
    + intros [->|[->|?%elem_of_nil]%elem_of_cons]%elem_of_cons; [| |done]; by eexists.
    + intros (o & [[<- <-]|[_ [<- <-]%lookup_singleton_Some]]%lookup_insert_Some & _).
      * left.
      * right. left.
  - intros p o. unfold ex_rres, rs_objs.
    intros [[<- <-]|[_ [<- <-]%lookup_singleton_Some]]%lookup_insert_Some; simpl; lia.
Qed.

Lemma rres_remove_then_put_witness :
  ∃ s', ntrdma_rres_remove (K := kernel_good) 7 ex_rres = Some s'
    ∧ vec_look (rs_vec s') 1 = None
    ∧ (∀ k, 0 <= k → k ≠ 1 → vec_look (rs_vec s') k = vec_look (rs_vec ex_rres) k)
    ∧ 7%nat ∉ rs_list s' ∧ (∀ q, q ≠ 7%nat → q ∈ rs_list s' ↔ q ∈ rs_list ex_rres)
    ∧ (∀ n : nat, (n < Z.to_nat 3)%nat →
         rs_freed (Nat.iter n (ntrdma_rres_put 7) s') = [])
    ∧ rs_freed (Nat.iter (Z.to_nat 3) (ntrdma_rres_put 7) s') = [] ++ [70].
Proof.
  apply (rres_remove_then_put (K := kernel_good) 7 (mk_object 1 3 true 70) ex_rres ex_rres_wf);
    reflexivity.
Defined.

End Res.
