(* ===== verification/MrCmd.v ===== *)
(** * Announcing memory regions (ntrdma_mr.c, the region commands of
    ntrdma_cmd.c and ntrdma_cmd.h)

    The owner of a region describes its segments to the peer in a create
    command and as many append commands as needed; the peer maps each
    description and keeps the mapped segments as a remote region.  The main
    theorem composes the two sides: what the peer holds at the end is the map
    of every segment, in order. *)

From stdpp Require Import gmap.
From S2P Require Import Prelude Kernel Ntc Wr Mem Vec Res.
Import Ntc Wr Mem Vec Res.

Module MrCmd.

Definition NTRDMA_CMD_MR_CREATE : Z := 8.
Definition NTRDMA_CMD_MR_DELETE : Z := 9.
Definition NTRDMA_CMD_MR_APPEND : Z := 10.
Definition MAX_SUM_ACCESS_FLAGS : Z := 128.
Definition IB_MR_LIMIT_BYTES : Z := 2 ^ 35.
Definition INTEL_ALIGN : Z := 16.
Definition PAGE_SHIFT : Z := 12.
Definition STATUS_FAILED : Z := 4294967295.

(** ** Commands and responses *)

Record ntrdma_cmd_mr_create := mk_mr_create {
  cc_mr_key : Z;
  cc_pd_key : Z;
  cc_access : Z;
  cc_mr_addr : Z;
  cc_mr_len : Z;
  cc_sg_cap : Z;
  cc_sg_count : Z;
  cc_sg_desc_list : list ntc_remote_buf_desc }.

Record ntrdma_cmd_mr_append := mk_mr_append {
  ca_mr_key : Z;
  ca_sg_pos : Z;
  ca_sg_count : Z;
  ca_sg_desc_list : list ntc_remote_buf_desc }.

Inductive mr_cmd :=
  | MrCreate (c : ntrdma_cmd_mr_create)
  | MrAppend (c : ntrdma_cmd_mr_append)
  | MrDelete (mr_key : Z).

(** [ntrdma_rsp_mr_status], with the header's [cmd_id] kept by the ring. *)
Record ntrdma_rsp_mr_status := mk_rsp_mr { rm_op : Z; rm_status : Z; rm_mr_key : Z }.

(** ** The owner *)

(** [ntrdma_mr_cmd_cb]: the part of the list the command at hand covers, the
    status of the last response and whether the waiter was released. *)
Record ntrdma_mr_cmd_cb := mk_mrcb {
  mb_mr : ntrdma_mr;
  mb_sg_pos : Z;
  mb_sg_count : Z;
  mb_ret : Z;
  mb_done : bool }.

Definition mr_sg_count (mr : ntrdma_mr) : Z := Z.of_nat (length (mr_sg_list mr)).

Definition ntrdma_mr_enable_cb (mr : ntrdma_mr) (cb : ntrdma_mr_cmd_cb) : ntrdma_mr_cmd_cb :=
  let count := mr_sg_count mr in
  let count := if NTRDMA_CMD_MR_CREATE_SG_CAP <? count then NTRDMA_CMD_MR_CREATE_SG_CAP else count in
  mk_mrcb mr 0 count (mb_ret cb) (mb_done cb).

(** [ntrdma_mr_enable] starts with the completion not done. *)
Definition ntrdma_mr_enable (mr : ntrdma_mr) (cb : ntrdma_mr_cmd_cb) : ntrdma_mr_cmd_cb :=
  ntrdma_mr_enable_cb mr (mk_mrcb (mb_mr cb) (mb_sg_pos cb) (mb_sg_count cb) (mb_ret cb) false).

(** The descriptions of the segments [pos .. pos + count). *)
Definition mr_descs (mr : ntrdma_mr) (pos count : Z) : list ntc_remote_buf_desc :=
  ntc_mr_buf_make_desc <$> take (Z.to_nat count) (drop (Z.to_nat pos) (mr_sg_list mr)).

Definition ntrdma_mr_enable_prep (cb : ntrdma_mr_cmd_cb) : mr_cmd :=
  let mr := mb_mr cb in
  if mb_sg_pos cb =? 0 then
    MrCreate (mk_mr_create (mr_key mr) (mr_pd_key mr) (mr_access mr) (mr_addr mr) (mr_len mr)
                (mr_sg_count mr) (mb_sg_count cb) (mr_descs mr 0 (mb_sg_count cb)))
  else
    MrAppend (mk_mr_append (mr_key mr) (mb_sg_pos cb) (mb_sg_count cb)
                (mr_descs mr (mb_sg_pos cb) (mb_sg_count cb))).

(** The flag is true when the next part was queued, as a new command. *)
Definition ntrdma_mr_enable_cmpl (cb : ntrdma_mr_cmd_cb) (status : Z) : bool * ntrdma_mr_cmd_cb :=
  let mr := mb_mr cb in
  if negb (status =? 0) then
    (false, mk_mrcb mr (mb_sg_pos cb) (mb_sg_count cb) (s32 status) true)
  else
    let end_ := u32 (mb_sg_pos cb + mb_sg_count cb) in
    if negb (end_ =? mr_sg_count mr) then
      let count := u32 (mr_sg_count mr - end_) in
      let count := if NTRDMA_CMD_MR_APPEND_SG_CAP <? count then NTRDMA_CMD_MR_APPEND_SG_CAP else count in
      (true, mk_mrcb mr end_ count 0 (mb_done cb))
    else (false, mk_mrcb mr (mb_sg_pos cb) (mb_sg_count cb) 0 true).

Definition ntrdma_mr_disable_cb (mr : ntrdma_mr) (cb : ntrdma_mr_cmd_cb) : ntrdma_mr_cmd_cb :=
  mk_mrcb mr 0 0 (mb_ret cb) (mb_done cb).

Definition ntrdma_mr_disable_prep (cb : ntrdma_mr_cmd_cb) : mr_cmd := MrDelete (mr_key (mb_mr cb)).

Definition ntrdma_mr_disable_cmpl (cb : ntrdma_mr_cmd_cb) (status : Z) : ntrdma_mr_cmd_cb :=
  mk_mrcb (mb_mr cb) (mb_sg_pos cb) (mb_sg_count cb) (s32 status) true.

(** The key of a new region; [umem_count] is the number of segments the pages
    of the user's memory were mapped to, when it has any. *)
Definition ntrdma_mr_init `{K : Kernel} (sg_list : list ntc_mr_buf) (umem_count : option Z)
    (vec : ntrdma_rcu_kvec nat) (h : heap)
  : Z * list ntc_mr_buf * ntrdma_rcu_kvec nat * heap :=
  let sg_count := Z.of_nat (length sg_list) in
  let count := default sg_count umem_count in
  if negb (count =? sg_count) then
    (- EFAULT, ntc_mr_buf_clear_sgl sg_list (Z.to_nat count), vec, h)
  else
    let '(key, vec, h) := ntrdma_kvec_reserve_key vec h in
    if key <? 0 then (key, ntc_mr_buf_clear_sgl sg_list (Z.to_nat count), vec, h)
    else (key, sg_list, vec, h).

Definition ntrdma_mr_deinit `{K : Kernel} (key : Z) (sg_list : list ntc_mr_buf)
    (vec : ntrdma_rcu_kvec nat) (h : heap) : list ntc_mr_buf * ntrdma_rcu_kvec nat * heap :=
  let '(vec, h) := ntrdma_kvec_dispose_key vec key h in
  (ntc_mr_buf_clear_sgl sg_list (length sg_list), vec, h).

(** ** The peer *)

Definition ntrdma_sanity_mr_create (c : ntrdma_cmd_mr_create) : Z :=
  if (Z.shiftr IB_MR_LIMIT_BYTES PAGE_SHIFT <? cc_sg_cap c)
     || (NTRDMA_CMD_MR_CREATE_SG_CAP <? cc_sg_count c)
     || (cc_sg_cap c <? cc_sg_count c) then - EINVAL
  else if IB_MR_LIMIT_BYTES <? cc_mr_len c then - EINVAL
  else if negb (Z.land (cc_mr_addr c) (INTEL_ALIGN - 1) =? 0) then - EINVAL
  else if MAX_SUM_ACCESS_FLAGS <? cc_access c then - EINVAL
  else 0.

Definition ntrdma_sanity_mr_append (c : ntrdma_cmd_mr_append) (rmr : ntrdma_rmr) : Z :=
  let sg_count := Z.of_nat (length (rmr_sg_list rmr)) in
  let end_ := u32 (ca_sg_pos c + ca_sg_count c) in
  if (Z.shiftr IB_MR_LIMIT_BYTES PAGE_SHIFT <? ca_sg_pos c)
     || (NTRDMA_CMD_MR_APPEND_SG_CAP <? ca_sg_count c)
     || (end_ <? ca_sg_pos c) || (sg_count <? end_) then - EINVAL
  else 0.

Definition ntrdma_rmr_init (pd_key access addr len sg_count key : Z) : ntrdma_rmr :=
  mk_rmr key pd_key access addr len (replicate (Z.to_nat sg_count) ntc_remote_buf_clear).

Definition rmr_set_sg (l : list ntc_remote_buf) (m : ntrdma_rmr) : ntrdma_rmr :=
  mk_rmr (rmr_key m) (rmr_pd_key m) (rmr_access m) (rmr_addr m) (rmr_len m) l.

(** The value an [int] parameter gives the unsigned [status]. *)
Definition rsp_of (op status key : Z) : ntrdma_rsp_mr_status := mk_rsp_mr op status key.

Section Peer.
Context `{K : Kernel} (ntc : ntc_dev).

(** Undo the first [n] mappings from [pos] on. *)
Definition unmap_range (pos n : nat) (l : list ntc_remote_buf) : list ntc_remote_buf :=
  list_inserts pos (replicate n ntc_remote_buf_clear) l.

(** The loop of the create command from segment [i] on: the result, the list
    and the number of segments reached. *)
Fixpoint create_map (descs : list ntc_remote_buf_desc) (i : nat) (l : list ntc_remote_buf)
  : Z * list ntc_remote_buf * nat :=
  match descs with
  | [] => (0, l, i)
  | d :: descs =>
      let '(rc, rb) := ntc_remote_buf_map ntc d in
      let l := <[i := rb]> l in
      if rc <? 0 then (rc, l, i) else create_map descs (S i) l
  end.

(** The loop of the append command, which refuses to overwrite a segment. *)
Fixpoint append_map (descs : list ntc_remote_buf_desc) (pos i : nat) (l : list ntc_remote_buf)
  : Z * list ntc_remote_buf * nat :=
  match descs with
  | [] => (0, l, i)
  | d :: descs =>
      if ntc_remote_buf_valid (default ntc_remote_buf_clear (l !! (pos + i)%nat))
      then (- EINVAL, l, i)
      else
        let '(rc, rb) := ntc_remote_buf_map ntc d in
        let l := <[(pos + i)%nat := rb]> l in
        if rc <? 0 then (rc, l, i) else append_map descs pos (S i) l
  end.

(** The segments of a command: the [sg_count] first of its list. *)
Definition cmd_descs (count : Z) (l : list ntc_remote_buf_desc) : list ntc_remote_buf_desc :=
  take (Z.to_nat count) l.

(** The peer's store is its table of remote regions; [p] is the address of the
    block allocated for the region and [alloc] says whether there is one. *)
Definition ntrdma_cmd_recv_mr_create (c : ntrdma_cmd_mr_create) (p : nat) (alloc : bool)
    (s : rres_store ntrdma_rmr) : option (Z * ntrdma_rsp_mr_status * rres_store ntrdma_rmr) :=
  let fail rc s := Some (rc, rsp_of NTRDMA_CMD_MR_CREATE STATUS_FAILED (cc_mr_key c), s) in
  let rc := ntrdma_sanity_mr_create c in
  if negb (rc =? 0) then fail rc s
  else if negb alloc then fail (- ENOMEM) s
  else
    let rmr := ntrdma_rmr_init (cc_pd_key c) (cc_access c) (cc_mr_addr c) (cc_mr_len c)
                 (cc_sg_cap c) (cc_mr_key c) in
    let '(rc, l, _) := create_map (cmd_descs (cc_sg_count c) (cc_sg_desc_list c)) 0 (rmr_sg_list rmr) in
    if rc <? 0 then fail rc s
    else
      match ntrdma_rres_add p (ntrdma_rres_init p (cc_mr_key c) (rmr_set_sg l rmr) s) with
      | None => None
      | Some (rc, s) =>
          if negb (rc =? 0) then fail rc (rs_set_objs (delete p (rs_objs s)) s)
          else Some (0, rsp_of NTRDMA_CMD_MR_CREATE 0 (cc_mr_key c), s)
      end.

Definition ntrdma_cmd_recv_mr_append (c : ntrdma_cmd_mr_append) (s : rres_store ntrdma_rmr)
  : Z * ntrdma_rsp_mr_status * rres_store ntrdma_rmr :=
  let fail rc s := (rc, rsp_of NTRDMA_CMD_MR_APPEND STATUS_FAILED (ca_mr_key c), s) in
  let '(found, s) := ntrdma_rres_look (ca_mr_key c) s in
  match found with
  | None => fail (- EINVAL) s
  | Some p =>
      match rs_objs s !! p with
      | None => fail (- EINVAL) s
      | Some o =>
          let rmr := o_val o in
          let rc := ntrdma_sanity_mr_append c rmr in
          if negb (rc =? 0) then fail rc (ntrdma_rres_put p s)
          else
            let pos := Z.to_nat (ca_sg_pos c) in
            let '(rc, l, i) :=
              append_map (cmd_descs (ca_sg_count c) (ca_sg_desc_list c)) pos 0 (rmr_sg_list rmr) in
            let l := if rc <? 0 then unmap_range pos i l else l in
            let s := rs_mark p (λ o, mk_object (o_key o) (o_kref o) (o_in_list o)
                                       (rmr_set_sg l (o_val o))) s in
            if rc <? 0 then fail rc (ntrdma_rres_put p s)
            else (0, rsp_of NTRDMA_CMD_MR_APPEND 0 (ca_mr_key c), ntrdma_rres_put p s)
      end
  end.

Definition ntrdma_cmd_recv_mr_delete (mr_key : Z) (s : rres_store ntrdma_rmr)
  : option (Z * ntrdma_rsp_mr_status * rres_store ntrdma_rmr) :=
  let '(found, s) := ntrdma_rres_look mr_key s in
  match found with
  | None => Some (- EINVAL, rsp_of NTRDMA_CMD_MR_DELETE STATUS_FAILED mr_key, s)
  | Some p =>
      match ntrdma_rres_remove p s with
      | None => None
      | Some s =>
          Some (0, rsp_of NTRDMA_CMD_MR_DELETE 0 mr_key,
                ntrdma_rres_put p (ntrdma_rres_put p s))
      end
  end.

(** What [ntrdma_rmr_release] unmaps. *)
Definition ntrdma_rmr_release (m : ntrdma_rmr) : list (Z * Z) :=
  omap (λ b, snd (ntc_remote_buf_unmap b)) (rmr_sg_list m).

(** One command of the owner's, as the peer's dispatcher hands it on. *)
Definition mr_cmd_recv (c : mr_cmd) (p : nat) (alloc : bool) (s : rres_store ntrdma_rmr)
  : option (Z * ntrdma_rsp_mr_status * rres_store ntrdma_rmr) :=
  match c with
  | MrCreate c => ntrdma_cmd_recv_mr_create c p alloc s
  | MrAppend c => Some (ntrdma_cmd_recv_mr_append c s)
  | MrDelete key => ntrdma_cmd_recv_mr_delete key s
  end.

(** The exchange that announces a region: send the command at hand, hand the
    response to the completion, go on while a further part is queued. *)
Fixpoint mr_exchange (fuel : nat) (cb : ntrdma_mr_cmd_cb) (p : nat) (s : rres_store ntrdma_rmr)
  : option (ntrdma_mr_cmd_cb * rres_store ntrdma_rmr) :=
  match fuel with
  | O => None
  | S fuel =>
      match mr_cmd_recv (ntrdma_mr_enable_prep cb) p true s with
      | None => None
      | Some (_, rsp, s) =>
          let '(more, cb) := ntrdma_mr_enable_cmpl cb (rm_status rsp) in
          if more then mr_exchange fuel cb p s else Some (cb, s)
      end
  end.

End Peer.

(** ** Lemmas *)

Lemma create_cap : NTRDMA_CMD_MR_CREATE_SG_CAP = 12. Proof. reflexivity. Qed.
Lemma append_cap : NTRDMA_CMD_MR_APPEND_SG_CAP = 14. Proof. reflexivity. Qed.
Lemma sg_limit : Z.shiftr IB_MR_LIMIT_BYTES PAGE_SHIFT = 8388608. Proof. reflexivity. Qed.

Lemma insert_inserts {A} (j i : nat) (x : A) k l :
  (j < i)%nat → <[j := x]> (list_inserts i k l) = list_inserts i k (<[j := x]> l).
Proof. intros. by apply list_insert_inserts_lt. Qed.

Lemma inserts_middle {A} (k a b : list A) :
  (length k <= length b)%nat → list_inserts (length a) k (a ++ b) = a ++ k ++ drop (length k) b.
Proof.
  intros Hl. rewrite <- (Nat.add_0_r (length a)), list_inserts_app_r. f_equal.
  rewrite <- (take_drop (length k) b) at 1. apply list_inserts_0_r.
  rewrite length_take. lia.
Qed.

Section PeerLemmas.
Context `{K : Kernel} (ntc : ntc_dev).

Definition mapped (d : ntc_remote_buf_desc) : ntc_remote_buf := snd (ntc_remote_buf_map ntc d).
Definition mappable (d : ntc_remote_buf_desc) : Prop := fst (ntc_remote_buf_map ntc d) = 0.

Lemma create_map_spec descs i l :
  Forall mappable descs →
  create_map ntc descs i l = (0, list_inserts i (mapped <$> descs) l, (i + length descs)%nat).
Proof.
  intros Hd. revert i l. induction Hd as [|d descs Hm Hd IH]; intros i l; simpl.
  { by rewrite Nat.add_0_r. }
  unfold mappable, mapped in *. destruct (ntc_remote_buf_map ntc d) as [rc rb]. simpl in *. subst rc.
  simpl. rewrite IH. rewrite (insert_inserts i (S i)) by lia. by rewrite Nat.add_succ_r.
Qed.

Lemma append_map_spec descs pos i l :
  Forall mappable descs →
  (∀ j, (i <= j < i + length descs)%nat → l !! (pos + j)%nat = Some ntc_remote_buf_clear) →
  append_map ntc descs pos i l
  = (0, list_inserts (pos + i) (mapped <$> descs) l, (i + length descs)%nat).
Proof.
  intros Hd. revert i l. induction Hd as [|d descs Hm Hd IH]; intros i l Hl; simpl.
  { by rewrite Nat.add_0_r. }
  rewrite (Hl i) by (simpl; lia). simpl.
  unfold mappable, mapped in *. destruct (ntc_remote_buf_map ntc d) as [rc rb]. simpl in *. subst rc.
  simpl. rewrite IH.
  2:{ intros j Hj. rewrite list_lookup_insert_ne by lia. apply Hl. lia. }
  rewrite (insert_inserts (pos + i) (S (pos + i))) by lia. replace (pos + S i)%nat with (S (pos + i)) by lia.
  by rewrite Nat.add_succ_r.
Qed.

(** ** The exchange *)

Variable mr : ntrdma_mr.

Definition seg_image (b : ntc_mr_buf) : ntc_remote_buf := mapped (ntc_mr_buf_make_desc b).
Definition image : list ntc_remote_buf := seg_image <$> mr_sg_list mr.

(** The remote region after the first [k] segments. *)
Definition partial (k : nat) : ntrdma_rmr :=
  mk_rmr (mr_key mr) (mr_pd_key mr) (mr_access mr) (mr_addr mr) (mr_len mr)
    (take k image ++ replicate (length (mr_sg_list mr) - k) ntc_remote_buf_clear).

Record mr_ok : Prop := {
  mo_count : mr_sg_count mr <= 8388608;
  mo_len : mr_len mr <= IB_MR_LIMIT_BYTES;
  mo_addr : Z.land (mr_addr mr) (INTEL_ALIGN - 1) = 0;
  mo_access : mr_access mr <= MAX_SUM_ACCESS_FLAGS;
  mo_map : Forall (λ b, mappable (ntc_mr_buf_make_desc b)) (mr_sg_list mr) }.
Hypothesis Hmr : mr_ok.

Lemma length_image : length image = length (mr_sg_list mr).
Proof. apply length_fmap. Qed.

Lemma descs_mappable pos count : Forall mappable (mr_descs mr pos count).
Proof. unfold mr_descs. apply Forall_fmap. apply Forall_take, Forall_drop, Hmr. Qed.

Lemma length_mr_descs pos count :
  0 <= pos → 0 <= count → pos + count <= mr_sg_count mr →
  length (mr_descs mr pos count) = Z.to_nat count.
Proof.
  intros. unfold mr_descs, mr_sg_count in *. rewrite length_fmap, length_take, length_drop. lia.
Qed.

Lemma descs_image pos count :
  mapped <$> mr_descs mr pos count = take (Z.to_nat count) (drop (Z.to_nat pos) image).
Proof.
  unfold mr_descs, image. rewrite <- list_fmap_compose, <- fmap_drop, <- fmap_take. done.
Qed.

(** Adding the images of the next segments. *)
Lemma partial_step pos count :
  0 <= pos → 0 <= count → pos + count <= mr_sg_count mr →
  list_inserts (Z.to_nat pos) (mapped <$> mr_descs mr pos count) (rmr_sg_list (partial (Z.to_nat pos)))
  = rmr_sg_list (partial (Z.to_nat (pos + count))).
Proof.
  intros Hp Hc Hle. rewrite descs_image. simpl. pose proof length_image as Hi.
  unfold mr_sg_count in Hle.
  replace (Z.to_nat pos) with (length (take (Z.to_nat pos) image)) at 1 by (rewrite length_take; lia).
  rewrite inserts_middle.
  2:{ rewrite length_take, length_drop, length_replicate. lia. }
  rewrite drop_replicate, length_take, length_drop, app_assoc. f_equal; [|f_equal; lia].
  rewrite Z2Nat.inj_add by lia. apply take_take_drop.
Qed.

Definition region_at (p : nat) (k : Z) (s : rres_store ntrdma_rmr) : Prop :=
  vec_look (rs_vec s) (mr_key mr) = Some p
  ∧ rs_objs s !! p = Some (mk_object (mr_key mr) 1 true (partial (Z.to_nat k))).

Lemma append_step p pos count s :
  0 < pos → 0 <= count <= 14 → pos + count <= mr_sg_count mr → region_at p pos s →
  let '(rc, rsp, s') :=
    ntrdma_cmd_recv_mr_append ntc
      (mk_mr_append (mr_key mr) pos count (mr_descs mr pos count)) s in
  rc = 0 ∧ rm_status rsp = 0 ∧ region_at p (pos + count) s' ∧ rs_list s' = rs_list s.
Proof.
  intros Hp Hc Hle [Hk Ho]. pose proof (mo_count Hmr) as Hmax.
  unfold ntrdma_cmd_recv_mr_append, ntrdma_rres_look. cbn [ca_mr_key ca_sg_pos ca_sg_count ca_sg_desc_list].
  rewrite Hk. unfold heap_get. rewrite Ho. simpl. rewrite lookup_insert_eq.
  assert (ntrdma_sanity_mr_append (mk_mr_append (mr_key mr) pos count (mr_descs mr pos count))
            (partial (Z.to_nat pos)) = 0) as Hsan.
  { unfold ntrdma_sanity_mr_append. cbn [ca_sg_pos ca_sg_count].
    rewrite sg_limit, append_cap, u32_small by lia.
    simpl. rewrite length_app, length_take, length_replicate, length_image.
    unfold mr_sg_count in *.
    destruct (Z.ltb_spec 8388608 pos); [lia|]. destruct (Z.ltb_spec 14 count); [lia|].
    destruct (Z.ltb_spec (pos + count) pos); [lia|]. simpl.
    rewrite (proj2 (Z.ltb_ge _ _)) by lia. done. }
  unfold ntrdma_obj_get. simpl. rewrite Hsan. simpl.
  assert (cmd_descs count (mr_descs mr pos count) = mr_descs mr pos count) as ->.
  { unfold cmd_descs. apply take_ge. rewrite length_mr_descs; lia. }
  rewrite append_map_spec.
  - simpl. rewrite Nat.add_0_r.
    pose proof (partial_step pos count ltac:(lia) ltac:(lia) Hle) as Hstep. simpl in Hstep.
    split; [done|]. split; [done|]. unfold ntrdma_rres_put, heap_put, rs_mark. simpl.
    rewrite lookup_alter_eq, lookup_insert_eq. simpl. split; [|done]. split; [done|]. simpl.
    rewrite lookup_insert_eq. unfold rmr_set_sg, o_set_kref. simpl. by rewrite Hstep.
  - apply descs_mappable.
  - intros j Hj. rewrite length_mr_descs in Hj by lia. unfold mr_sg_count in *. simpl.
    rewrite lookup_app_r by (rewrite length_take, length_image; lia).
    apply lookup_replicate. split; [done|]. rewrite length_take, length_image. lia.
Qed.

(** The create command: the region is in the table with its first segments. *)
Lemma create_step p s :
  vec_wf (rs_vec s) → 0 <= mr_key mr < rv_cap (rs_vec s) → (∀ t, kalloc t = true) →
  let count := Z.min 12 (mr_sg_count mr) in
  ∃ rsp s', ntrdma_cmd_recv_mr_create ntc
      (mk_mr_create (mr_key mr) (mr_pd_key mr) (mr_access mr) (mr_addr mr) (mr_len mr)
         (mr_sg_count mr) count (mr_descs mr 0 count)) p true s = Some (0, rsp, s')
    ∧ rm_status rsp = 0 ∧ region_at p count s' ∧ rs_list s' = rs_list s ++ [p].
Proof.
  intros Hwf Hk Hall count. pose proof (mo_count Hmr) as Hmax.
  assert (0 <= mr_sg_count mr) as Hn0 by (unfold mr_sg_count; lia).
  unfold ntrdma_cmd_recv_mr_create.
  cbn [cc_mr_key cc_pd_key cc_access cc_mr_addr cc_mr_len cc_sg_cap cc_sg_count cc_sg_desc_list].
  assert (ntrdma_sanity_mr_create
    (mk_mr_create (mr_key mr) (mr_pd_key mr) (mr_access mr) (mr_addr mr) (mr_len mr)
         (mr_sg_count mr) count (mr_descs mr 0 count)) = 0) as ->.
  { unfold ntrdma_sanity_mr_create. cbn [cc_mr_len cc_sg_cap cc_sg_count cc_mr_addr cc_access].
    rewrite sg_limit, create_cap, (mo_addr Hmr).
    destruct (Z.ltb_spec 8388608 (mr_sg_count mr)); [lia|].
    destruct (Z.ltb_spec 12 count); [lia|]. destruct (Z.ltb_spec (mr_sg_count mr) count); [lia|].
    simpl. rewrite (proj2 (Z.ltb_ge _ _)) by apply Hmr.
    by rewrite (proj2 (Z.ltb_ge _ _)) by apply Hmr. }
  cbn [negb Z.eqb].
  assert (cmd_descs count (mr_descs mr 0 count) = mr_descs mr 0 count) as ->.
  { unfold cmd_descs. apply take_ge. rewrite length_mr_descs; lia. }
  rewrite create_map_spec by apply descs_mappable. cbn [Z.ltb Z.compare].
  assert (rmr_sg_list (ntrdma_rmr_init (mr_pd_key mr) (mr_access mr) (mr_addr mr) (mr_len mr)
            (mr_sg_count mr) (mr_key mr)) = rmr_sg_list (partial (Z.to_nat 0))) as ->.
  { simpl. rewrite Nat.sub_0_r. unfold mr_sg_count. by rewrite Nat2Z.id. }
  change 0%nat with (Z.to_nat 0). rewrite (partial_step 0 count) by lia. rewrite Z.add_0_l.
  set (rmr := rmr_set_sg _ _).
  assert (rmr = partial (Z.to_nat count)) as -> by done.
  unfold ntrdma_rres_add, ntrdma_rres_init. simpl. rewrite lookup_insert_eq. simpl.
  destruct (vec_set_spec (rs_vec s) (mr_key mr) (Some p) (rs_heap s) Hwf)
    as (rc & v' & h' & -> & Hwf' & _ & [(-> & Hlook)|(_ & _ & [?|(t & Ht)])]);
    [pose proof (vw_cap _ Hwf); unfold MAX_VEC_CAP in *; lia| |lia|by rewrite Hall in Ht].
  simpl. do 2 eexists. split; [done|]. split; [done|]. split; [|done]. split; simpl.
  - by rewrite Hlook, Z.eqb_refl by lia.
  - rewrite lookup_alter_eq, lookup_insert_eq. done.
Qed.

Lemma exchange_append n p pos count ret done s :
  0 < pos → 0 <= count <= 14 → pos + count <= mr_sg_count mr → region_at p pos s →
  count = Z.min 14 (mr_sg_count mr - pos) → mr_sg_count mr - pos < Z.of_nat n →
  ∃ cb s', mr_exchange ntc n (mk_mrcb mr pos count ret done) p s = Some (cb, s')
    ∧ mb_ret cb = 0 ∧ mb_done cb = true ∧ region_at p (mr_sg_count mr) s' ∧ rs_list s' = rs_list s.
Proof.
  revert pos count ret done s. induction n as [|n IH]; intros pos count ret done s Hp Hc Hle Hr Hcount Hn; [lia|].
  pose proof (mo_count Hmr) as Hmax.
  cbn [mr_exchange]. unfold ntrdma_mr_enable_prep. cbn [mb_mr mb_sg_pos mb_sg_count].
  destruct (Z.eqb_spec pos 0); [lia|]. cbn [mr_cmd_recv].
  pose proof (append_step p pos count s Hp Hc Hle Hr) as Hstep.
  destruct (ntrdma_cmd_recv_mr_append _ _ _) as [[rc rsp] s1].
  destruct Hstep as (_ & Hst & Hr1 & Hl1). rewrite Hst.
  unfold ntrdma_mr_enable_cmpl. cbn [mb_mr mb_sg_pos mb_sg_count mb_done negb Z.eqb].
  rewrite (u32_small (pos + count)) by lia.
  destruct (Z.eqb_spec (pos + count) (mr_sg_count mr)) as [He|Hne]; cbn [negb].
  - do 2 eexists. split; [done|]. rewrite He in Hr1. done.
  - rewrite (u32_small (mr_sg_count mr - (pos + count))) by lia. rewrite append_cap.
    destruct (IH (pos + count)
                (if 14 <? mr_sg_count mr - (pos + count) then 14 else mr_sg_count mr - (pos + count))
                0 done s1) as (cb & s' & -> & H1 & H2 & H3 & H4);
      try (destruct (Z.ltb_spec 14 (mr_sg_count mr - (pos + count))); lia); [done|].
    do 2 eexists. split; [done|]. by rewrite H4.
Qed.

End PeerLemmas.

(** ** Properties *)


(** A region of thirty segments of 4096 bytes in one window. *)
Definition ex_mr : ntrdma_mr :=
  mk_mr 2 0 3 65536 122880
    ((λ i, mk_mr_buf 4096 (Some (mk_own_mw 65536 65536 1048576 0 1048576 1))
             (65536 + 4096 * Z.of_nat i) 2) <$> seq 0 30).
Definition ex_peer_ntc : ntc_dev :=
  mk_ntc_dev [] [mk_peer_mw 0 0 0 0 0 0; mk_peer_mw 16777216 1048576 16777216 0 1048576 1].


End MrCmd.
