(* ===== verification/CmdRing.v ===== *)
(** * The command channel (ntrdma_cmd.c: send and receive work)

    Each side owns a ring of commands; the peer executes the commands in place
    and writes the responses and its index back.  The module translates the
    two work functions, over the type of commands and responses and the
    functions that prepare, complete and execute them, and then couples two
    devices by the copies they make into each other's memory. *)

From stdpp Require Import gmap.
From S2P Require Import Prelude Ring Wire.
Import Ring Wire.

Module CmdRing.

Definition MAX_CMDS : Z := 16.

(** The contents of the channel: commands [C], responses [R], the state of the
    sender's callbacks [X] and of the executing device [Y]. *)
Class CmdEnv (C R X Y : Type) := {
  (** [cb->cmd_prep], on the slot with its header filled in *)
  cmd_prep : nat → C → X → Z * C * X;
  (** [cb->rsp_cmpl]; true when the callback queued itself again *)
  rsp_cmpl : nat → R → X → bool * X;
  rsp_cmd_id : R → Z;
  (** the header's [cmd_id] and [cb_p] *)
  set_hdr : Z → nat → C → C;
  (** [ntrdma_cmd_recv], on the response slot *)
  cmd_recv : C → R → Y → Z * R * Y }.

(** ** Data *)

Record ntrdma_cmd_cb := mk_cb { cb_in_list : bool; cb_cmd_id : Z }.

(** The doorbells a work function touches, the calls it makes, the copies it
    asks for. *)
Inductive cmd_event {C R : Type} :=
  | EvClear | EvTrigger | EvReadd
  | EvComplete (cb : nat) (r : R)
  | EvPost (cb : nat) (c : C)
  | EvHandle (c : C) (r : R) (rc : Z)
  | EvCopyCmds (start : Z) (cs : list C)
  | EvCopyRsps (start : Z) (rs : list R)
  | EvIndex (shift idx : Z)
  | EvPeerVbell (idx : Z)
  | EvSignal
  | EvDone (cb : nat)
  | EvLinkDisable
  | EvUnrecoverable.
Arguments cmd_event : clear implicits.

(** The results of the four transfers of a run: [ntc_memcpy], [ntc_imm32],
    [ntrdma_dev_vbell_peer_direct], [ntc_signal]. *)
Record xfers := mk_xfers { xf_memcpy : Z; xf_imm32 : Z; xf_vbell : Z; xf_signal : Z }.

Section Code.
Context {C R X Y : Type} `{E : CmdEnv C R X Y}.

(** [cs_cons] is the word after the responses, written by the peer. *)
Record ntrdma_dev_cmd_send := mk_cmd_send {
  cs_ready : bool;
  cs_pend : list nat;
  cs_post : list nat;
  cs_cap : Z;
  cs_prod : Z;
  cs_cmpl : Z;
  cs_buf : list C;
  cs_rsp_buf : list R;
  cs_cons : Z;
  cs_cbs : gmap nat ntrdma_cmd_cb;
  cs_peer_recv_prod_shift : Z;
  cs_peer_recv_vbell_idx : Z }.

(** [cr_prod] is the word after the commands, written by the peer. *)
Record ntrdma_dev_cmd_recv := mk_cmd_recv {
  cr_ready : bool;
  cr_cap : Z;
  cr_cons : Z;
  cr_buf : list C;
  cr_prod : Z;
  cr_rsp_buf : list R;
  cr_peer_send_cons_shift : Z;
  cr_peer_send_vbell_idx : Z }.

(** ** Sending *)

Definition cs_set_lists (pend post : list nat) (cbs : gmap nat ntrdma_cmd_cb)
    (s : ntrdma_dev_cmd_send) : ntrdma_dev_cmd_send :=
  mk_cmd_send (cs_ready s) pend post (cs_cap s) (cs_prod s) (cs_cmpl s) (cs_buf s)
    (cs_rsp_buf s) (cs_cons s) cbs (cs_peer_recv_prod_shift s) (cs_peer_recv_vbell_idx s).

Definition cs_set_indices (prod cmpl : Z) (s : ntrdma_dev_cmd_send) : ntrdma_dev_cmd_send :=
  mk_cmd_send (cs_ready s) (cs_pend s) (cs_post s) (cs_cap s) prod cmpl (cs_buf s)
    (cs_rsp_buf s) (cs_cons s) (cs_cbs s) (cs_peer_recv_prod_shift s) (cs_peer_recv_vbell_idx s).

Definition cs_set_buf (buf : list C) (s : ntrdma_dev_cmd_send) : ntrdma_dev_cmd_send :=
  mk_cmd_send (cs_ready s) (cs_pend s) (cs_post s) (cs_cap s) (cs_prod s) (cs_cmpl s) buf
    (cs_rsp_buf s) (cs_cons s) (cs_cbs s) (cs_peer_recv_prod_shift s) (cs_peer_recv_vbell_idx s).

Definition cs_set_ready (b : bool) (s : ntrdma_dev_cmd_send) : ntrdma_dev_cmd_send :=
  mk_cmd_send b (cs_pend s) (cs_post s) (cs_cap s) (cs_prod s) (cs_cmpl s) (cs_buf s)
    (cs_rsp_buf s) (cs_cons s) (cs_cbs s) (cs_peer_recv_prod_shift s) (cs_peer_recv_vbell_idx s).

Definition cb_set_in_list (b : bool) (c : ntrdma_cmd_cb) : ntrdma_cmd_cb := mk_cb b (cb_cmd_id c).
Definition cb_set_id (id : Z) (c : ntrdma_cmd_cb) : ntrdma_cmd_cb := mk_cb (cb_in_list c) id.

Definition ntrdma_dev_cmd_add_unsafe (cb : nat) (s : ntrdma_dev_cmd_send) : ntrdma_dev_cmd_send :=
  cs_set_lists (cs_pend s ++ [cb]) (cs_post s) (alter (cb_set_in_list true) cb (cs_cbs s)) s.

Definition ntrdma_dev_cmd_add (cb : nat) (s : ntrdma_dev_cmd_send) : Z * ntrdma_dev_cmd_send :=
  if cs_ready s then (0, ntrdma_dev_cmd_add_unsafe cb s) else (-1, s).

(** [ntrdma_cmd_cb_unlink]; its result, and the end of the wait. *)
Definition ntrdma_cmd_cb_unlink (cb : nat) (s : ntrdma_dev_cmd_send)
  : bool * ntrdma_dev_cmd_send * list (cmd_event C R) :=
  match cs_cbs s !! cb with
  | Some c =>
      if cb_in_list c then
        (true,
         cs_set_lists (filter (λ x, x ≠ cb) (cs_pend s)) (filter (λ x, x ≠ cb) (cs_post s))
           (<[cb := cb_set_in_list false c]> (cs_cbs s)) s,
         [EvDone cb])
      else (false, s, [EvDone cb])
  | None => (false, s, [EvDone cb])
  end.

Definition ntrdma_cmd_done (s : ntrdma_dev_cmd_send) : bool :=
  match cs_post s, cs_pend s with [], [] => true | _, _ => false end.

(** The state of a run: the device, the callbacks, what was done. *)
Definition send_run : Type := ntrdma_dev_cmd_send * X * list (cmd_event C R).

(** One turn of the loop over the responses; [None] outside the buffer. *)
Definition complete_one (pos : Z) (r : send_run) : option send_run :=
  let '(s, x, evs) := r in
  match cs_rsp_buf s !! Z.to_nat pos with
  | None => None
  | Some rsp =>
      let evs := if pos =? rsp_cmd_id rsp then evs else evs ++ [EvLinkDisable] in
      Some
        match cs_post s with
        | [] => (s, x, evs)
        | cb :: post =>
            match cs_cbs s !! cb with
            | None => (s, x, evs)
            | Some c =>
                if negb (cb_cmd_id c =? pos) then (s, x, evs)
                else
                  let s := cs_set_lists (cs_pend s) post (<[cb := cb_set_in_list false c]> (cs_cbs s)) s in
                  let '(again, x) := rsp_cmpl cb rsp x in
                  (if again then ntrdma_dev_cmd_add_unsafe cb s else s, x, evs ++ [EvComplete cb rsp])
            end
        end
  end.

Fixpoint complete_loop (n : nat) (pos : Z) (r : send_run) : option send_run :=
  match n with
  | O => Some r
  | S n =>
      match complete_one pos r with
      | None => None
      | Some r => complete_loop n (pos + 1) r
      end
  end.

(** One turn of the loop over the free slots. *)
Definition issue_one (pos : Z) (cb : nat) (pend : list nat) (r : send_run) : option send_run :=
  let '(s, x, evs) := r in
  match cs_buf s !! Z.to_nat pos with
  | None => None
  | Some slot =>
      let s := cs_set_lists pend (cs_post s ++ [cb]) (alter (cb_set_id pos) cb (cs_cbs s)) s in
      let '(_, c, x) := cmd_prep cb (set_hdr pos cb slot) x in
      Some (cs_set_buf (<[Z.to_nat pos := c]> (cs_buf s)) s, x, evs ++ [EvPost cb c])
  end.

(** The position reached and the run. *)
Fixpoint issue_loop (n : nat) (pos : Z) (r : send_run) : option (Z * send_run) :=
  match n with
  | O => Some (pos, r)
  | S n =>
      match cs_pend (fst (fst r)) with
      | [] => Some (pos, r)
      | cb :: pend =>
          match issue_one pos cb pend r with
          | None => None
          | Some r => issue_loop n (pos + 1) r
          end
      end
  end.

(** The transfers after a run of commands or responses, up to the first
    failure. *)
Definition xfer_events (xf : xfers) (copy : cmd_event C R) (shift idx vbell : Z)
  : Z * list (cmd_event C R) :=
  if xf_memcpy xf <? 0 then (xf_memcpy xf, [])
  else if xf_imm32 xf <? 0 then (xf_imm32 xf, [copy])
  else if xf_vbell xf <? 0 then (xf_vbell xf, [copy; EvIndex shift idx])
  else if xf_signal xf <? 0 then (xf_signal xf, [copy; EvIndex shift idx; EvPeerVbell vbell])
  else (0, [copy; EvIndex shift idx; EvPeerVbell vbell; EvSignal]).

Definition ntrdma_cmd_send_work (xf : xfers) (s : ntrdma_dev_cmd_send) (x : X) : option send_run :=
  let r := ntrdma_ring_consume (cs_cons s) (cs_cmpl s) (cs_cap s) in
  let n := Z.to_nat (r_end r - r_idx r) in
  match complete_loop n (r_idx r) (s, x, [EvClear]) with
  | None => None
  | Some (s, x, evs) =>
      let s := if (n =? 0)%nat then s
               else cs_set_indices (cs_prod s)
                      (ntrdma_ring_update (r_idx r + Z.of_nat n) (r_base r) (cs_cap s)) s in
      let p := snd (ntrdma_ring_produce (cs_prod s) (cs_cmpl s) (cs_cap s)) in
      let start := r_idx p in
      match issue_loop (Z.to_nat (r_end p - start)) start (s, x, evs) with
      | None => None
      | Some (pos, (s, x, evs)) =>
          let issued := negb (pos =? start) in
          let more := negb (n =? 0)%nat || issued in
          let s := if issued
                   then cs_set_indices (ntrdma_ring_update pos (r_base p) (cs_cap s)) (cs_cmpl s) s
                   else s in
          let '(rc, sent) :=
            if issued
            then xfer_events xf
                   (EvCopyCmds start (take (Z.to_nat (pos - start)) (drop (Z.to_nat start) (cs_buf s))))
                   (cs_peer_recv_prod_shift s) (cs_prod s) (cs_peer_recv_vbell_idx s)
            else (0, []) in
          let last :=
            if rc <? 0 then [EvUnrecoverable]
            else if ntrdma_cmd_done s then []
            else if more then [EvTrigger] else [EvReadd] in
          Some (s, x, evs ++ sent ++ last)
      end
  end.

Definition ntrdma_cmd_send_work_cb (xf : xfers) (s : ntrdma_dev_cmd_send) (x : X) : option send_run :=
  if negb (cs_ready s) then Some (s, x, []) else ntrdma_cmd_send_work xf s x.

(** ** Receiving *)

Definition recv_run : Type := ntrdma_dev_cmd_recv * Y * list (cmd_event C R).

Definition cr_set_rsp_buf (b : list R) (s : ntrdma_dev_cmd_recv) : ntrdma_dev_cmd_recv :=
  mk_cmd_recv (cr_ready s) (cr_cap s) (cr_cons s) (cr_buf s) (cr_prod s) b
    (cr_peer_send_cons_shift s) (cr_peer_send_vbell_idx s).

Definition cr_set_cons (i : Z) (s : ntrdma_dev_cmd_recv) : ntrdma_dev_cmd_recv :=
  mk_cmd_recv (cr_ready s) (cr_cap s) i (cr_buf s) (cr_prod s) (cr_rsp_buf s)
    (cr_peer_send_cons_shift s) (cr_peer_send_vbell_idx s).

Definition cr_set_ready (b : bool) (s : ntrdma_dev_cmd_recv) : ntrdma_dev_cmd_recv :=
  mk_cmd_recv b (cr_cap s) (cr_cons s) (cr_buf s) (cr_prod s) (cr_rsp_buf s)
    (cr_peer_send_cons_shift s) (cr_peer_send_vbell_idx s).

Definition recv_one (pos : Z) (r : recv_run) : option recv_run :=
  let '(s, y, evs) := r in
  match cr_buf s !! Z.to_nat pos, cr_rsp_buf s !! Z.to_nat pos with
  | Some c, Some old =>
      let '(rc, rsp, y) := cmd_recv c old y in
      Some (cr_set_rsp_buf (<[Z.to_nat pos := rsp]> (cr_rsp_buf s)) s, y, evs ++ [EvHandle c rsp rc])
  | _, _ => None
  end.

Fixpoint recv_loop (n : nat) (pos : Z) (r : recv_run) : option recv_run :=
  match n with
  | O => Some r
  | S n =>
      match recv_one pos r with
      | None => None
      | Some r => recv_loop n (pos + 1) r
      end
  end.

Definition ntrdma_cmd_recv_work (xf : xfers) (s : ntrdma_dev_cmd_recv) (y : Y) : option recv_run :=
  let r := ntrdma_ring_consume (cr_prod s) (cr_cons s) (cr_cap s) in
  let start := r_idx r in
  let n := Z.to_nat (r_end r - start) in
  match recv_loop n start (s, y, [EvClear]) with
  | None => None
  | Some (s, y, evs) =>
      if (n =? 0)%nat then Some (s, y, evs ++ [EvReadd])
      else
        let s := cr_set_cons (ntrdma_ring_update (start + Z.of_nat n) (r_base r) (cr_cap s)) s in
        let '(rc, sent) :=
          xfer_events xf (EvCopyRsps start (take n (drop (Z.to_nat start) (cr_rsp_buf s))))
            (cr_peer_send_cons_shift s) (cr_cons s) (cr_peer_send_vbell_idx s) in
        Some (s, y, evs ++ sent ++ (if rc <? 0 then [EvUnrecoverable] else [EvTrigger]))
  end.

Definition ntrdma_cmd_recv_work_cb (xf : xfers) (s : ntrdma_dev_cmd_recv) (y : Y) : option recv_run :=
  if negb (cr_ready s) then Some (s, y, []) else ntrdma_cmd_recv_work xf s y.

(** ** Starting and stopping *)

Definition ntrdma_dev_cmd_enable (s : ntrdma_dev_cmd_send) (r : ntrdma_dev_cmd_recv)
  : ntrdma_dev_cmd_send * ntrdma_dev_cmd_recv :=
  (cs_set_ready true s, cr_set_ready true r).

Definition ntrdma_dev_cmd_disable (s : ntrdma_dev_cmd_send) (r : ntrdma_dev_cmd_recv)
  : ntrdma_dev_cmd_send * ntrdma_dev_cmd_recv :=
  (cs_set_ready false s, cr_set_ready false r).

(** The two loops of [ntrdma_dev_cmd_quiesce], after the doorbells were
    flushed and enabled again. *)
Definition quiesce_list (l : list nat) (cbs : gmap nat ntrdma_cmd_cb) : gmap nat ntrdma_cmd_cb :=
  foldr (λ cb m, alter (cb_set_in_list false) cb m) cbs l.

Definition ntrdma_dev_cmd_quiesce (s : ntrdma_dev_cmd_send)
  : ntrdma_dev_cmd_send * list (cmd_event C R) :=
  (cs_set_lists [] [] (quiesce_list (cs_pend s) (quiesce_list (cs_post s) (cs_cbs s))) s,
   (EvDone <$> cs_post s) ++ (EvDone <$> cs_pend s)).

End Code.

Arguments ntrdma_dev_cmd_send : clear implicits.
Arguments ntrdma_dev_cmd_recv : clear implicits.

(** ** The callbacks of the sender *)

(** What the headers carry: the slot number travels in the command, its
    preparation leaves it alone, and every handler echoes it. *)
Class CmdLaws (C R X Y : Type) `{E : CmdEnv C R X Y} := {
  hdr_id : C → Z;
  hdr_id_set pos cb c : hdr_id (set_hdr pos cb c) = pos;
  hdr_id_prep cb c x : hdr_id (snd (fst (cmd_prep cb c x))) = hdr_id c;
  rsp_id_recv c old y : rsp_cmd_id (snd (fst (cmd_recv c old y))) = hdr_id c }.

Section Sender.
Context {C R X Y : Type} `{E : CmdEnv C R X Y} `{L : !CmdLaws C R X Y}.

Definition posted_of (evs : list (cmd_event C R)) : list (nat * C) :=
  omap (λ e, match e with EvPost cb c => Some (cb, c) | _ => None end) evs.
Definition handled_of (evs : list (cmd_event C R)) : list (C * R) :=
  omap (λ e, match e with EvHandle c r _ => Some (c, r) | _ => None end) evs.
Definition completed_of (evs : list (cmd_event C R)) : list (nat * R) :=
  omap (λ e, match e with EvComplete cb r => Some (cb, r) | _ => None end) evs.
Definition disables_of (evs : list (cmd_event C R)) : list unit :=
  omap (λ e, match e with EvLinkDisable => Some tt | _ => None end) evs.

(** Every callback is in at most one place of the two lists, and its flag
    tells whether it is in one. *)
Definition lists_ok (s : ntrdma_dev_cmd_send C R) : Prop :=
  NoDup (cs_post s ++ cs_pend s)
  ∧ ∀ cb, cb ∈ cs_post s ++ cs_pend s ↔ ∃ c, cs_cbs s !! cb = Some c ∧ cb_in_list c = true.

(** The posted callbacks are, in order, those of commands number [lo] and
    above; each knows the slot of its own command. *)
Inductive posts_from (posted : list (nat * C)) (cap : Z) (cbs : gmap nat ntrdma_cmd_cb)
  : nat → list nat → Prop :=
  | posts_nil lo : posts_from posted cap cbs lo []
  | posts_cons lo n cb c k post :
      (lo ≤ n)%nat → posted !! n = Some (cb, c) →
      cbs !! cb = Some k → cb_cmd_id k = nslot cap n →
      posts_from posted cap cbs (S n) post → posts_from posted cap cbs lo (cb :: post).

Definition snd_inv (posted : list (nat * C)) (lo : nat) (s : ntrdma_dev_cmd_send C R) : Prop :=
  lists_ok s ∧ posts_from posted (cs_cap s) (cs_cbs s) lo (cs_post s).

Definition same_frame (s s' : ntrdma_dev_cmd_send C R) : Prop :=
  cs_ready s' = cs_ready s ∧ cs_cap s' = cs_cap s ∧ cs_prod s' = cs_prod s
  ∧ cs_cmpl s' = cs_cmpl s ∧ cs_rsp_buf s' = cs_rsp_buf s ∧ cs_cons s' = cs_cons s.

Lemma same_frame_refl s : same_frame s s.
Proof. by repeat split. Qed.

Lemma same_frame_trans s1 s2 s3 : same_frame s1 s2 → same_frame s2 s3 → same_frame s1 s3.
Proof. intros (?&?&?&?&?&?) (?&?&?&?&?&?). repeat split; congruence. Qed.

Lemma posts_lower posted cap cbs lo lo' post :
  posts_from posted cap cbs lo post → (lo' ≤ lo)%nat → posts_from posted cap cbs lo' post.
Proof.
  intros H Hlo. destruct H as [|lo n cb c k post]; [constructor|].
  apply (posts_cons _ _ _ _ n cb c k); try done. lia.
Qed.

(** Changes to other callbacks, or to the flag, do not matter. *)
Lemma posts_frame posted cap cbs cbs' lo post :
  (∀ cb k, cb ∈ post → cbs !! cb = Some k → ∃ k', cbs' !! cb = Some k' ∧ cb_cmd_id k' = cb_cmd_id k) →
  posts_from posted cap cbs lo post → posts_from posted cap cbs' lo post.
Proof.
  intros H Hp. induction Hp as [|lo n cb c k post Hlo Hn Hk Hid Hp IH]; [constructor|].
  destruct (H cb k ltac:(left) Hk) as (k' & Hk' & Hid').
  apply (posts_cons _ _ _ _ n _ c k'); try done; [congruence|].
  apply IH. intros cb' k2 Hin. apply H. by right.
Qed.

Lemma posts_filter posted cap cbs lo post (P : nat → Prop) `{∀ x, Decision (P x)} :
  posts_from posted cap cbs lo post → posts_from posted cap cbs lo (filter P post).
Proof.
  intros Hp. induction Hp as [|lo n cb c k post Hlo Hn Hk Hid Hp IH]; [constructor|].
  rewrite filter_cons. case_decide; [by econstructor; eauto|].
  eapply posts_lower; [exact IH|lia].
Qed.

Lemma posts_snoc posted cap cbs lo post cb c k :
  posts_from posted cap cbs lo post → (lo ≤ length posted)%nat →
  cbs !! cb = Some k → cb_cmd_id k = nslot cap (length posted) →
  posts_from (posted ++ [(cb, c)]) cap cbs lo (post ++ [cb]).
Proof.
  intros Hp Hlo Hk Hid. induction Hp as [lo|lo n cb' c' k' post Hlo' Hn Hk' Hid' Hp IH].
  - apply (posts_cons _ _ _ _ (length posted) _ c k); try done; [|constructor].
    by rewrite lookup_app_r, Nat.sub_diag by lia.
  - apply lookup_lt_Some in Hn as Hlt.
    apply (posts_cons _ _ _ _ n _ c' k'); try done; [by apply lookup_app_l_Some|].
    apply IH. lia.
Qed.

(** Adding a callback that is in no list. *)
Lemma add_inv posted lo s cb c :
  snd_inv posted lo s → cs_cbs s !! cb = Some c → cb_in_list c = false →
  snd_inv posted lo (ntrdma_dev_cmd_add_unsafe cb s).
Proof.
  intros [[Hnd Hin] Hp] Hc Hfalse.
  assert (cb ∉ cs_post s ++ cs_pend s) as Hnot.
  { rewrite Hin. intros (c' & Hc' & ?). simplify_eq. congruence. }
  unfold snd_inv, lists_ok, ntrdma_dev_cmd_add_unsafe.
  cbn [cs_set_lists cs_post cs_pend cs_cbs cs_cap]. split; [split|].
  - rewrite (assoc_L (++)). apply list.NoDup_app. split; [done|].
    split; [|apply list.NoDup_singleton]. by intros y Hy ->%list_elem_of_singleton.
  - intros y. rewrite (assoc_L (++)), elem_of_app, list_elem_of_singleton, Hin.
    destruct (decide (y = cb)) as [->|Hne].
    + rewrite lookup_alter_eq, Hc. split; [|by right]. intros _. by eexists.
    + rewrite lookup_alter_ne by done. split; [by intros [?|?]|by left].
  - revert Hp. apply posts_frame. intros y k Hy Hk.
    destruct (decide (y = cb)) as [->|Hne].
    + rewrite lookup_alter_eq, Hk. by eexists.
    + rewrite lookup_alter_ne by done. by eexists.
Qed.

(** Taking a callback out of the lists. *)
Lemma unlink_inv posted lo s cb c :
  snd_inv posted lo s → cs_cbs s !! cb = Some c →
  snd_inv posted lo
    (cs_set_lists (filter (λ x, x ≠ cb) (cs_pend s)) (filter (λ x, x ≠ cb) (cs_post s))
       (<[cb := cb_set_in_list false c]> (cs_cbs s)) s).
Proof.
  intros [[Hnd Hin] Hp] Hc. unfold snd_inv, lists_ok.
  cbn [cs_set_lists cs_post cs_pend cs_cbs cs_cap]. split; [split|].
  - rewrite <- list.filter_app. by apply list.NoDup_filter.
  - intros y. rewrite <- list.filter_app, list_elem_of_filter, Hin.
    destruct (decide (y = cb)) as [->|Hne].
    + rewrite lookup_insert_eq. split; [by intros []|]. by intros (c' & [= <-] & ?).
    + rewrite lookup_insert_ne by done. naive_solver.
  - apply posts_filter. revert Hp. apply posts_frame. intros y k Hy Hk.
    destruct (decide (y = cb)) as [->|Hne].
    + rewrite lookup_insert_eq. eexists. split; [done|]. by simplify_eq.
    + rewrite lookup_insert_ne by done. by eexists.
Qed.

Lemma head_filter (cb : nat) (post : list nat) :
  NoDup (cb :: post) → filter (λ x, x ≠ cb) (cb :: post) = post.
Proof.
  rewrite list.NoDup_cons, filter_cons_False by tauto. intros [Hn _].
  apply list_filter_all. by intros x Hx ->.
Qed.

(** The head of the list is taken out when its response is processed. *)
Lemma complete_head_inv posted lo s cb post k :
  snd_inv posted lo s → cs_post s = cb :: post → cs_cbs s !! cb = Some k →
  posts_from posted (cs_cap s) (cs_cbs s) (S lo) post →
  snd_inv posted (S lo)
    (cs_set_lists (cs_pend s) post (<[cb := cb_set_in_list false k]> (cs_cbs s)) s).
Proof.
  intros Hs Hpost Hk Hp'. pose proof (unlink_inv posted lo s cb k Hs Hk) as [Hu _].
  destruct Hs as [[Hnd _] _]. rewrite Hpost in Hu, Hnd.
  rewrite head_filter in Hu by (apply list.NoDup_app in Hnd; tauto).
  rewrite (list_filter_all _ (cs_pend s)) in Hu.
  2:{ intros y Hy ->. apply list.NoDup_app in Hnd as (_ & Hnd & _). apply (Hnd cb); [left|done]. }
  split; [done|]. cbn [cs_set_lists cs_cap cs_cbs cs_post].
  revert Hp'. apply posts_frame. intros y k' Hy Hk'. destruct (decide (y = cb)) as [->|].
  - rewrite lookup_insert_eq. eexists. split; [done|]. by simplify_eq.
  - rewrite lookup_insert_ne by done. by eexists.
Qed.

(** One response: the callback at the head of the list gets it when it is the
    one that posted the command. *)
Lemma complete_one_inv posted lo s x evs rsp :
  cap_ok (cs_cap s) → snd_inv posted lo s →
  Z.of_nat (length posted) <= Z.of_nat lo + cs_cap s →
  cs_rsp_buf s !! Z.to_nat (nslot (cs_cap s) lo) = Some rsp →
  rsp_cmd_id rsp = nslot (cs_cap s) lo →
  ∃ s' x' new, complete_one (nslot (cs_cap s) lo) (s, x, evs) = Some (s', x', evs ++ new)
    ∧ snd_inv posted (S lo) s' ∧ same_frame s s' ∧ cs_buf s' = cs_buf s
    ∧ (new = [] ∨ ∃ cb c, new = [EvComplete cb rsp] ∧ posted !! lo = Some (cb, c)).
Proof.
  intros Hcap [Hl Hp] Hw Hr Hid. unfold complete_one. rewrite Hr, Hid, Z.eqb_refl.
  destruct (cs_post s) as [|cb post] eqn:Hpost.
  { exists s, x, []. rewrite app_nil_r. split; [done|].
    split; [split; [done|rewrite Hpost; constructor]|]. repeat split. by left. }
  inversion Hp as [|? n ? c k ? Hlo Hn Hk Hids Hp']; subst. rewrite Hk, Hids.
  apply lookup_lt_Some in Hn as Hlt.
  destruct (Z.eqb_spec (nslot (cs_cap s) n) (nslot (cs_cap s) lo)) as [He|He]; cbn [negb].
  - apply (nslot_inj _ _ _ lo) in He as ->; try lia.
    pose proof (complete_head_inv posted lo s cb post k
      ltac:(split; [done|by rewrite Hpost]) Hpost Hk Hp') as Hs1.
    set (s1 := cs_set_lists _ _ _ _) in *.
    destruct (rsp_cmpl cb rsp x) as [again x'].
    exists (if again then ntrdma_dev_cmd_add_unsafe cb s1 else s1), x', [EvComplete cb rsp].
    split; [done|]. split; [|split; [by destruct again; repeat split|split; [by destruct again|]]].
    + destruct again; [|done]. eapply add_inv; [done|apply lookup_insert_eq|done].
    + right. by exists cb, c.
  - exists s, x, []. rewrite app_nil_r. split; [done|].
    split; [split; [done|]|]; [|repeat split; by left].
    rewrite Hpost. apply (posts_cons _ _ _ _ n _ c k); try done.
    destruct (decide (n = lo)) as [->|]; [done|lia].
Qed.

Definition compl_ev (p : nat * R) : cmd_event C R := EvComplete (fst p) (snd p).
Definition post_ev (p : nat * C) : cmd_event C R := EvPost (fst p) (snd p).
Definition hand_ev (h : C * R * Z) : cmd_event C R := EvHandle (fst (fst h)) (snd (fst h)) (snd h).

Lemma complete_loop_inv posted rsps n lo pos s x evs :
  cap_ok (cs_cap s) → snd_inv posted lo s →
  Z.of_nat (length posted) <= Z.of_nat lo + cs_cap s →
  (lo + n ≤ length posted)%nat → run_at (cs_cap s) lo pos n →
  (∀ i, (lo ≤ i < lo + n)%nat → ∃ r, rsps !! i = Some r
     ∧ cs_rsp_buf s !! Z.to_nat (nslot (cs_cap s) i) = Some r ∧ rsp_cmd_id r = nslot (cs_cap s) i) →
  ∃ s' x' l, complete_loop n pos (s, x, evs) = Some (s', x', evs ++ (compl_ev <$> l))
    ∧ snd_inv posted (lo + n) s' ∧ same_frame s s' ∧ cs_buf s' = cs_buf s
    ∧ l `sublist_of` take n (drop lo (zip posted.*1 rsps)).
Proof.
  revert lo pos s x evs. induction n as [|n IH]; intros lo pos s x evs Hcap Hs Hw Hl Hrun Hr.
  { exists s, x, []. rewrite app_nil_r, Nat.add_0_r. do 4 (split; [done|]). constructor. }
  apply run_at_S in Hrun as [-> Hrun]; [|done].
  destruct (Hr lo ltac:(lia)) as (r & Hrs & Hb & Hid). cbn [complete_loop].
  destruct (complete_one_inv posted lo s x evs r Hcap Hs Hw Hb Hid)
    as (s1 & x1 & new & -> & Hs1 & Hf1 & Hbuf1 & Hnew).
  pose proof Hf1 as (_ & Hc1 & _ & _ & Hrb1 & _).
  destruct (IH (S lo) (nslot (cs_cap s) lo + 1) s1 x1 (evs ++ new))
    as (s' & x' & l & -> & Hs' & Hf' & Hbuf' & Hsub); try (rewrite Hc1; done); try done; try lia.
  { intros i Hi. rewrite Hc1, Hrb1. apply Hr. lia. }
  replace (lo + S n)%nat with (S lo + n)%nat by lia.
  assert (lo < length posted)%nat as Hlo by lia.
  apply lookup_lt_is_Some in Hlo as ([cb0 c0] & Hp0).
  assert (zip posted.*1 rsps !! lo = Some (cb0, r)) as Hz.
  { apply lookup_zip_with_Some. exists cb0, r. rewrite list_lookup_fmap, Hp0. done. }
  rewrite (drop_S _ _ _ Hz). cbn [take].
  destruct Hnew as [->|(cb & c & -> & Hp)].
  - exists s', x', l. rewrite app_nil_r. split; [done|]. split; [done|].
    split; [by eapply same_frame_trans|]. split; [congruence|]. by constructor.
  - simplify_eq. exists s', x', ((cb, r) :: l). rewrite <- (assoc_L (++)). split; [done|].
    split; [done|]. split; [by eapply same_frame_trans|]. split; [congruence|]. by constructor.
Qed.

(** Posting one command. *)
Lemma issue_one_inv posted lo s x evs cb pend pos old :
  cs_pend s = cb :: pend → cs_buf s !! Z.to_nat pos = Some old →
  pos = nslot (cs_cap s) (length posted) → (lo ≤ length posted)%nat → snd_inv posted lo s →
  ∃ s' x' c, issue_one pos cb pend (s, x, evs) = Some (s', x', evs ++ [EvPost cb c])
    ∧ snd_inv (posted ++ [(cb, c)]) lo s' ∧ same_frame s s'
    ∧ cs_buf s' = <[Z.to_nat pos := c]> (cs_buf s) ∧ hdr_id c = pos.
Proof.
  intros Hpend Hold Hpos Hlo [[Hnd Hin] Hp]. unfold issue_one. rewrite Hold.
  pose proof (hdr_id_prep cb (set_hdr pos cb old) x) as Hid.
  rewrite hdr_id_set in Hid. rewrite Hpend in Hnd, Hin.
  destruct (proj1 (Hin cb)) as (k & Hk & Hkin); [apply elem_of_app; right; left|].
  destruct (cmd_prep _ _ _) as [[rc c] x'] eqn:Hprep. cbn [fst snd] in Hid.
  eexists _, x', c. split; [reflexivity|].
  assert (∀ y, y ∈ (cs_post s ++ [cb]) ++ pend ↔ y ∈ cs_post s ++ cb :: pend) as Hperm.
  { intros y. by rewrite <- (assoc_L (++)). }
  split; [split; [split|]|split; [by repeat split|done]];
    cbn [cs_set_lists cs_set_buf cs_post cs_pend cs_cbs cs_cap].
  - by rewrite <- (assoc_L (++)).
  - intros y. rewrite Hperm, Hin. destruct (decide (y = cb)) as [->|].
    + rewrite lookup_alter_eq, Hk. split; intros _; eexists; done.
    + by rewrite lookup_alter_ne by done.
  - apply posts_snoc with (cb_set_id pos k); [|done|by rewrite lookup_alter_eq, Hk|done].
    revert Hp. apply posts_frame. intros y k' Hy Hk'. rewrite lookup_alter_ne; [by eexists|].
    intros <-. apply list.NoDup_app in Hnd as (_ & Hnd & _). apply (Hnd cb Hy). left.
Qed.

Lemma issue_loop_inv n posted lo pos s x evs :
  cap_ok (cs_cap s) → Z.of_nat (length (cs_buf s)) = cs_cap s →
  (lo ≤ length posted)%nat → run_at (cs_cap s) (length posted) pos n → 0 <= pos →
  snd_inv posted lo s →
  ∃ s' x' l, issue_loop n pos (s, x, evs) = Some (pos + Z.of_nat (length l), (s', x', evs ++ (post_ev <$> l)))
    ∧ (length l ≤ n)%nat ∧ snd_inv (posted ++ l) lo s' ∧ same_frame s s'
    ∧ cs_buf s' = list_inserts (Z.to_nat pos) l.*2 (cs_buf s)
    ∧ ∀ i p, l !! i = Some p → hdr_id (snd p) = pos + Z.of_nat i.
Proof.
  revert posted pos s x evs. induction n as [|n IH]; intros posted pos s x evs Hcap Hb Hlo Hrun Hpos Hs.
  { exists s, x, []. rewrite !app_nil_r, Z.add_0_r. by do 5 (split; [done|]). }
  cbn [issue_loop fst]. destruct (cs_pend s) as [|cb pend] eqn:Hpend.
  { exists s, x, []. rewrite !app_nil_r, Z.add_0_r. split; [done|]. split; [cbn; lia|]. by do 3 (split; [done|]). }
  apply run_at_S in Hrun as [Hp Hrun]; [|done].
  pose proof (nslot_range (cs_cap s) Hcap (length posted)) as Hrange.
  assert (Z.to_nat pos < length (cs_buf s))%nat as Hlt by lia.
  apply lookup_lt_is_Some in Hlt as [old Hold].
  destruct (issue_one_inv posted lo s x evs cb pend pos old Hpend Hold Hp Hlo Hs)
    as (s1 & x1 & c & -> & Hs1 & Hf1 & Hbuf1 & Hid).
  pose proof Hf1 as (_ & Hc1 & _).
  destruct (IH (posted ++ [(cb, c)]) (pos + 1) s1 x1 (evs ++ [EvPost cb c]))
    as (s' & x' & l & -> & Hl & Hs' & Hf' & Hbuf' & Hids); try done; try lia.
  { by rewrite Hc1. }
  { by rewrite Hbuf1, length_insert, Hc1. }
  { rewrite length_app. lia. }
  { rewrite length_app, Nat.add_1_r, Hc1. done. }
  exists s', x', ((cb, c) :: l). rewrite <- !(assoc_L (++)) in *.
  split.
  { by replace (pos + 1 + Z.of_nat (length l)) with (pos + Z.of_nat (length ((cb, c) :: l)))
      by (cbn [length]; lia). }
  split; [cbn [length]; lia|]. split; [done|].
  split; [by eapply same_frame_trans|]. split.
  - rewrite Hbuf', Hbuf1. cbn [fmap list_fmap list_inserts snd].
    replace (Z.to_nat (pos + 1)) with (S (Z.to_nat pos)) by lia.
    by rewrite list_insert_inserts_lt by lia.
  - intros [|i] p Hi; [by simplify_eq/=; lia|]. rewrite (Hids i p Hi). lia.
Qed.

(** The commands of a run are executed in place, in order. *)
Lemma recv_loop_inv n (cmds : list C) lo pos s y evs :
  cap_ok (cr_cap s) → Z.of_nat (length (cr_rsp_buf s)) = cr_cap s →
  run_at (cr_cap s) lo pos n → 0 <= pos →
  (∀ i, (lo ≤ i < lo + n)%nat → ∃ c, cmds !! i = Some c
     ∧ cr_buf s !! Z.to_nat (nslot (cr_cap s) i) = Some c) →
  ∃ s' y' l, recv_loop n pos (s, y, evs) = Some (s', y', evs ++ (hand_ev <$> l))
    ∧ l.*1.*1 = take n (drop lo cmds) ∧ length l = n
    ∧ s' = cr_set_rsp_buf (list_inserts (Z.to_nat pos) l.*1.*2 (cr_rsp_buf s)) s
    ∧ Forall (λ h, rsp_cmd_id (snd (fst h)) = hdr_id (fst (fst h))) l.
Proof.
  revert lo pos s y evs. induction n as [|n IH]; intros lo pos s y evs Hcap Hb Hrun Hpos Hc.
  { exists s, y, []. rewrite app_nil_r. by destruct s. }
  apply run_at_S in Hrun as [Hp Hrun]; [|done]. cbn [recv_loop].
  destruct (Hc lo ltac:(lia)) as (c & Hcmd & Hcb). unfold recv_one. rewrite <- Hp in Hcb.
  pose proof (nslot_range (cr_cap s) Hcap lo) as Hrange.
  assert (Z.to_nat pos < length (cr_rsp_buf s))%nat as Hlt by lia.
  apply lookup_lt_is_Some in Hlt as [old Hold]. rewrite Hcb, Hold.
  pose proof (rsp_id_recv c old y) as Hid.
  destruct (cmd_recv c old y) as [[rc r] y1]. cbn [fst snd] in Hid.
  set (s1 := cr_set_rsp_buf _ s).
  destruct (IH (S lo) (pos + 1) s1 y1 (evs ++ [EvHandle c r rc]))
    as (s' & y' & l & -> & Hl & Hlen & Hs' & Hids); try done; try lia.
  { cbn [s1 cr_set_rsp_buf cr_rsp_buf cr_cap]. by rewrite length_insert. }
  { intros i Hi. apply Hc. lia. }
  exists s', y', ((c, r, rc) :: l). rewrite <- (assoc_L (++)). split; [done|].
  rewrite (drop_S _ _ _ Hcmd). cbn [take fmap list_fmap fst snd]. split; [by f_equal|].
  split; [cbn; by f_equal|]. split; [|by constructor].
  rewrite Hs'. cbn [s1 cr_set_rsp_buf cr_rsp_buf cr_ready cr_cap cr_cons cr_buf cr_prod
                    cr_peer_send_cons_shift cr_peer_send_vbell_idx list_inserts].
  unfold cr_set_rsp_buf. cbn. f_equal.
  replace (Z.to_nat (pos + 1)) with (S (Z.to_nat pos)) by lia.
  by rewrite list_insert_inserts_lt by lia.
Qed.

Lemma take_drop_inserts {A} (i : nat) (k l : list A) :
  (i + length k ≤ length l)%nat → take (length k) (drop i (list_inserts i k l)) = k.
Proof.
  intros Hl. apply list_eq. intros j. destruct (decide (j < length k)%nat) as [Hj|Hj].
  - rewrite lookup_take_lt, lookup_drop, list_lookup_inserts by lia. f_equal. lia.
  - rewrite lookup_ge_None_2 by (rewrite length_take; lia). by rewrite lookup_ge_None_2 by lia.
Qed.

(** The transfers all succeed. *)
Definition xfers_ok (xf : xfers) : Prop :=
  0 <= xf_memcpy xf ∧ 0 <= xf_imm32 xf ∧ 0 <= xf_vbell xf ∧ 0 <= xf_signal xf.

Lemma xfer_events_ok xf (copy : cmd_event C R) shift idx vbell :
  xfers_ok xf →
  xfer_events xf copy shift idx vbell = (0, [copy; EvIndex shift idx; EvPeerVbell vbell; EvSignal]).
Proof.
  intros (H1 & H2 & H3 & H4). unfold xfer_events.
  by rewrite !(proj2 (Z.ltb_ge _ _)) by done.
Qed.

Definition sent_events (copy : cmd_event C R) (shift idx vbell : Z) (n : nat) : list (cmd_event C R) :=
  if (n =? 0)%nat then [] else [copy; EvIndex shift idx; EvPeerVbell vbell; EvSignal].

(** The doorbell events that may end a run. *)
Definition bell_events (evs : list (cmd_event C R)) : Prop :=
  evs = [] ∨ evs = [EvTrigger] ∨ evs = [EvReadd].

Lemma set_indices_id (s : ntrdma_dev_cmd_send C R) : cs_set_indices (cs_prod s) (cs_cmpl s) s = s.
Proof. by destruct s. Qed.

Lemma snd_inv_indices posted lo s prod cmpl :
  snd_inv posted lo s → snd_inv posted lo (cs_set_indices prod cmpl s).
Proof. done. Qed.

(** A whole run of the send work: [lo] commands were completed before, [D]
    responses are visible. *)
Lemma send_work_spec xf posted rsps lo D cap n s x :
  cs_cap s = cap → cap_ok cap → xfers_ok xf → snd_inv posted lo s →
  Z.of_nat (length (cs_buf s)) = cap →
  cs_prod s = nenc cap (length posted) → cs_cmpl s = nenc cap lo → cs_cons s = nenc cap D →
  (lo ≤ D ≤ length posted)%nat → Z.of_nat (length posted) <= Z.of_nat lo + cap →
  (∀ i, (lo ≤ i < D)%nat → ∃ r, rsps !! i = Some r
     ∧ cs_rsp_buf s !! Z.to_nat (nslot cap i) = Some r ∧ rsp_cmd_id r = nslot cap i) →
  Z.of_nat n = Z.min (Z.of_nat (D - lo)) (cap - nslot cap lo) →
  ∃ s' x' l1 l2 bells,
    ntrdma_cmd_send_work xf s x =
      Some (s', x', [EvClear] ++ (compl_ev <$> l1) ++ (post_ev <$> l2)
        ++ sent_events (EvCopyCmds (nslot cap (length posted)) l2.*2) (cs_peer_recv_prod_shift s')
             (nenc cap (length posted + length l2)) (cs_peer_recv_vbell_idx s') (length l2)
        ++ bells)
    ∧ bell_events bells
    ∧ l1 `sublist_of` take n (drop lo (zip posted.*1 rsps))
    ∧ snd_inv (posted ++ l2) (lo + n) s'
    ∧ Z.of_nat (length l2) <= cap - nslot cap (length posted)
    ∧ Z.of_nat (length posted + length l2) <= Z.of_nat (lo + n) + cap
    ∧ (∀ i p, l2 !! i = Some p → hdr_id (snd p) = nslot cap (length posted) + Z.of_nat i)
    ∧ cs_cap s' = cap ∧ cs_prod s' = nenc cap (length posted + length l2)
    ∧ cs_cmpl s' = nenc cap (lo + n)
    ∧ cs_rsp_buf s' = cs_rsp_buf s ∧ cs_cons s' = cs_cons s
    ∧ Z.of_nat (length (cs_buf s')) = cap.
Proof.
  intros Hsc Hcap Hxf Hs Hbuf Hprod Hcmpl Hcons HD HP Hr Hn.
  pose proof (nslot_range cap Hcap lo) as Hsl.
  pose proof (nslot_range cap Hcap (length posted)) as HsP.
  unfold ntrdma_cmd_send_work. rewrite Hcons, Hcmpl, Hsc.
  rewrite consume_nenc by (try done; lia). cbn [r_idx r_end r_base].
  replace (Z.to_nat (nslot cap lo + Z.min (Z.of_nat (D - lo)) (cap - nslot cap lo) - nslot cap lo))
    with n by lia.
  destruct (complete_loop_inv posted rsps n lo (nslot cap lo) s x [EvClear])
    as (s1 & x1 & l1 & -> & Hs1 & Hf1 & Hbuf1 & Hsub); try (rewrite Hsc; done); try done; try lia.
  { rewrite Hsc. right. split; [done|]. lia. }
  { intros i Hi. rewrite Hsc. apply Hr. lia. }
  destruct Hf1 as (_ & Hc1 & Hp1 & Hm1 & Hrb1 & Hcn1). rewrite Hc1, Hsc.
  rewrite moved_index by (try done; lia).
  assert ((if (n =? 0)%nat then s1 else cs_set_indices (cs_prod s1) (nenc cap (lo + n)) s1)
    = cs_set_indices (cs_prod s1) (nenc cap (lo + n)) s1) as Hif.
  { destruct n; [|done]. cbn. rewrite Nat.add_0_r, <- Hcmpl, <- Hm1. by rewrite set_indices_id. }
  rewrite Hif. set (s2 := cs_set_indices _ _ s1). cbn [s2 cs_set_indices cs_prod cs_cmpl cs_cap].
  rewrite Hp1, Hprod, Hc1, Hsc.
  rewrite !produce_nenc by (try done; lia). cbn [r_idx r_end r_base].
  set (m := Z.to_nat _).
  assert (Z.of_nat m = Z.min (cap - Z.of_nat (length posted - (lo + n)))
                         (cap - nslot cap (length posted))) as Hm by (unfold m; lia).
  destruct (issue_loop_inv m posted (lo + n) (nslot cap (length posted)) s2 x1
              ([EvClear] ++ (compl_ev <$> l1)))
    as (s3 & x2 & l2 & -> & Hl2 & Hs3 & Hf3 & Hbuf3 & Hids);
    try (cbn [s2 cs_set_indices cs_cap cs_buf]; rewrite ?Hc1, ?Hsc, ?Hbuf1; done); try done; try lia.
  { cbn [s2 cs_set_indices cs_cap]. rewrite Hc1, Hsc. right. split; [done|]. lia. }
  destruct Hf3 as (_ & Hc3 & Hp3 & Hm3 & Hrb3 & Hcn3).
  cbn [s2 cs_set_indices cs_cap cs_prod cs_cmpl cs_rsp_buf cs_cons cs_buf] in Hc3, Hp3, Hm3, Hrb3, Hcn3, Hbuf3.
  replace (nslot cap (length posted) + Z.of_nat (length l2) =? nslot cap (length posted))
    with (length l2 =? 0)%nat by (destruct (Nat.eqb_spec (length l2) 0); lia).
  replace (nslot cap (length posted) + Z.of_nat (length l2) - nslot cap (length posted))
    with (Z.of_nat (length l2)) by lia.
  rewrite Nat2Z.id, Hc3, Hc1, Hsc, moved_index by (try done; lia).
  assert ((if negb (length l2 =? 0)%nat
           then cs_set_indices (nenc cap (length posted + length l2)) (cs_cmpl s3) s3 else s3)
          = cs_set_indices (nenc cap (length posted + length l2)) (cs_cmpl s3) s3) as Hif3.
  { destruct (length l2); [|done]. cbn. by rewrite Nat.add_0_r, <- Hprod, <- Hp1, <- Hp3, set_indices_id. }
  rewrite Hif3. set (s4 := cs_set_indices _ _ s3).
  cbn [s4 cs_set_indices cs_buf cs_prod]. rewrite Hbuf3, Hbuf1.
  assert (length l2.*2 = length l2) as Hlen by apply length_fmap.
  rewrite <- Hlen, take_drop_inserts, Hlen by (rewrite Hlen; lia).
  rewrite xfer_events_ok by done. unfold sent_events.
  assert (∀ b : bool, ∃ bells, bell_events bells ∧
     (if ntrdma_cmd_done s4 then [] else if b then [EvTrigger] else [EvReadd]) = bells) as Hbells.
  { intros b. eexists. split; [|done]. unfold bell_events.
    destruct (ntrdma_cmd_done s4), b; tauto. }
  destruct (Hbells (negb (n =? 0)%nat || negb (length l2 =? 0)%nat)) as (bells & Hbell & Hb).
  exists s4, x2, l1, l2, bells. split.
  { rewrite <- Hb. destruct (length l2 =? 0)%nat; cbn [negb]; by rewrite <- !(assoc_L (++)). }
  split; [done|]. split; [done|]. split; [done|]. split; [lia|]. split; [lia|]. split; [done|].
  cbn [s4 cs_set_indices cs_cap cs_prod cs_cmpl cs_rsp_buf cs_cons cs_buf].
  rewrite Hbuf3, length_inserts. repeat split; congruence.
Qed.

(** A whole run of the receive work: [Q] commands were executed before, [V]
    are visible. *)
Lemma recv_work_spec xf (cmds : list C) Q V cap n s y :
  cr_cap s = cap → cap_ok cap → xfers_ok xf →
  Z.of_nat (length (cr_rsp_buf s)) = cap →
  cr_cons s = nenc cap Q → cr_prod s = nenc cap V →
  (Q ≤ V)%nat → Z.of_nat V <= Z.of_nat Q + cap →
  (∀ i, (Q ≤ i < V)%nat → ∃ c, cmds !! i = Some c
     ∧ cr_buf s !! Z.to_nat (nslot cap i) = Some c) →
  Z.of_nat n = Z.min (Z.of_nat (V - Q)) (cap - nslot cap Q) →
  ∃ s' y' l bells,
    ntrdma_cmd_recv_work xf s y =
      Some (s', y', [EvClear] ++ (hand_ev <$> l)
        ++ sent_events (EvCopyRsps (nslot cap Q) l.*1.*2) (cr_peer_send_cons_shift s')
             (nenc cap (Q + n)) (cr_peer_send_vbell_idx s') n
        ++ bells)
    ∧ bell_events bells
    ∧ l.*1.*1 = take n (drop Q cmds) ∧ length l = n
    ∧ Forall (λ h, rsp_cmd_id (snd (fst h)) = hdr_id (fst (fst h))) l
    ∧ cr_cap s' = cap ∧ cr_cons s' = nenc cap (Q + n)
    ∧ cr_buf s' = cr_buf s ∧ cr_prod s' = cr_prod s
    ∧ Z.of_nat (length (cr_rsp_buf s')) = cap.
Proof.
  intros Hsc Hcap Hxf Hbuf Hcons Hprod HV HP Hc Hn.
  pose proof (nslot_range cap Hcap Q) as HQ.
  unfold ntrdma_cmd_recv_work. rewrite Hcons, Hprod, Hsc, consume_nenc by (try done; lia).
  cbn [r_idx r_end r_base].
  replace (Z.to_nat (nslot cap Q + Z.min (Z.of_nat (V - Q)) (cap - nslot cap Q) - nslot cap Q))
    with n by lia.
  destruct (recv_loop_inv n cmds Q (nslot cap Q) s y [EvClear])
    as (s' & y' & l & -> & Hl & Hlen & -> & Hids); try (rewrite Hsc; done); try done; try lia.
  { rewrite Hsc. right. split; [done|]. lia. }
  { intros i Hi. rewrite Hsc. apply Hc. lia. }
  set (s1 := cr_set_rsp_buf _ s). change (cr_cap s1) with (cr_cap s).
  rewrite Hsc, moved_index by (try done; lia).
  destruct (Nat.eqb_spec n 0) as [Hn0|Hn0].
  { exists s1, y', l, [EvReadd]. unfold sent_events. rewrite (proj2 (Nat.eqb_eq n 0)) by done.
    rewrite <- !(assoc_L (++)). split; [done|]. split; [by right; right|].
    repeat split; try done; cbn [s1 cr_set_rsp_buf cr_cons cr_rsp_buf].
    - by rewrite Hcons, Hn0, Nat.add_0_r.
    - by rewrite length_inserts. }
  set (s2 := cr_set_cons _ s1). cbn [s2 s1 cr_set_cons cr_set_rsp_buf cr_rsp_buf cr_cons].
  assert (length l.*1.*2 = n) as Hlen' by (by rewrite !length_fmap).
  pose proof (take_drop_inserts (Z.to_nat (nslot cap Q)) l.*1.*2 (cr_rsp_buf s) ltac:(lia)) as Htd.
  rewrite Hlen' in Htd. rewrite Htd, xfer_events_ok by done.
  exists s2, y', l, [EvTrigger]. unfold sent_events. rewrite (proj2 (Nat.eqb_neq n 0)) by done.
  rewrite <- !(assoc_L (++)). split; [done|]. split; [by right; left|].
  repeat split; try done; cbn [s2 s1 cr_set_cons cr_set_rsp_buf cr_rsp_buf].
  by rewrite length_inserts.
Qed.

(** ** Two devices

    Device A sends commands to device B.  The transfers of each are delivered
    to the other in the order they were asked for, at any later time; the work
    functions run when they like (a superset of the runs the doorbells cause).
    The log is everything the work functions did. *)

Definition wire_cmds (evs : list (cmd_event C R)) : list (wire_op C) :=
  omap (λ e, match e with
             | EvCopyCmds start cs => Some (WCopy start cs)
             | EvIndex _ idx => Some (WIndex idx)
             | _ => None end) evs.

Definition wire_rsps (evs : list (cmd_event C R)) : list (wire_op R) :=
  omap (λ e, match e with
             | EvCopyRsps start rs => Some (WCopy start rs)
             | EvIndex _ idx => Some (WIndex idx)
             | _ => None end) evs.

Definition cs_set_mem (m : list R * Z) (s : ntrdma_dev_cmd_send C R) : ntrdma_dev_cmd_send C R :=
  mk_cmd_send (cs_ready s) (cs_pend s) (cs_post s) (cs_cap s) (cs_prod s) (cs_cmpl s) (cs_buf s)
    (fst m) (snd m) (cs_cbs s) (cs_peer_recv_prod_shift s) (cs_peer_recv_vbell_idx s).

Definition cr_set_mem (m : list C * Z) (s : ntrdma_dev_cmd_recv C R) : ntrdma_dev_cmd_recv C R :=
  mk_cmd_recv (cr_ready s) (cr_cap s) (cr_cons s) (fst m) (snd m) (cr_rsp_buf s)
    (cr_peer_send_cons_shift s) (cr_peer_send_vbell_idx s).

Record channel := mk_channel {
  ch_snd : ntrdma_dev_cmd_send C R;
  ch_x : X;
  ch_rcv : ntrdma_dev_cmd_recv C R;
  ch_y : Y;
  ch_cmds : list (wire_op C);
  ch_rsps : list (wire_op R);
  ch_log : list (cmd_event C R) }.

Inductive ch_step : channel → channel → Prop :=
  | step_send xf s x s' x' r y wc wr log evs :
      xfers_ok xf → ntrdma_cmd_send_work_cb xf s x = Some (s', x', evs) →
      ch_step (mk_channel s x r y wc wr log)
              (mk_channel s' x' r y (wc ++ wire_cmds evs) wr (log ++ evs))
  | step_recv xf s x r r' y y' wc wr log evs :
      xfers_ok xf → ntrdma_cmd_recv_work_cb xf r y = Some (r', y', evs) →
      ch_step (mk_channel s x r y wc wr log)
              (mk_channel s x r' y' wc (wr ++ wire_rsps evs) (log ++ evs))
  | step_deliver_cmd s x r y e wc wr log :
      ch_step (mk_channel s x r y (e :: wc) wr log)
              (mk_channel s x (cr_set_mem (deliver e (cr_buf r, cr_prod r)) r) y wc wr log)
  | step_deliver_rsp s x r y wc e wr log :
      ch_step (mk_channel s x r y wc (e :: wr) log)
              (mk_channel (cs_set_mem (deliver e (cs_rsp_buf s, cs_cons s)) s) x r y wc wr log)
  | step_add s x r y wc wr log cb c :
      cs_cbs s !! cb = Some c → cb_in_list c = false →
      ch_step (mk_channel s x r y wc wr log)
              (mk_channel (snd (ntrdma_dev_cmd_add cb s)) x r y wc wr log)
  | step_unlink s x r y wc wr log cb :
      ch_step (mk_channel s x r y wc wr log)
              (mk_channel (snd (fst (ntrdma_cmd_cb_unlink cb s))) x r y wc wr log)
  | step_enable s x r y wc wr log :
      ch_step (mk_channel s x r y wc wr log)
              (mk_channel (fst (ntrdma_dev_cmd_enable s r)) x (snd (ntrdma_dev_cmd_enable s r)) y wc wr log)
  | step_disable s x r y wc wr log :
      ch_step (mk_channel s x r y wc wr log)
              (mk_channel (fst (ntrdma_dev_cmd_disable s r)) x (snd (ntrdma_dev_cmd_disable s r)) y wc wr log).

(** A channel that has carried nothing yet, as the initialisation and the
    hello exchange leave it. *)
Definition ch_init (ch : channel) : Prop :=
  let s := ch_snd ch in let r := ch_rcv ch in
  cap_ok (cs_cap s) ∧ cr_cap r = cs_cap s
  ∧ Z.of_nat (length (cs_buf s)) = cs_cap s ∧ Z.of_nat (length (cs_rsp_buf s)) = cs_cap s
  ∧ Z.of_nat (length (cr_buf r)) = cs_cap s ∧ Z.of_nat (length (cr_rsp_buf r)) = cs_cap s
  ∧ cs_prod s = 0 ∧ cs_cmpl s = 0 ∧ cs_cons s = 0 ∧ cr_cons r = 0 ∧ cr_prod r = 0
  ∧ cs_pend s = [] ∧ cs_post s = []
  ∧ map_Forall (λ _ c, cb_in_list c = false) (cs_cbs s)
  ∧ ch_cmds ch = [] ∧ ch_rsps ch = [] ∧ ch_log ch = [].

(** The invariant: [lo] completed, [D] responses visible to A, [V] commands
    visible to B. *)
Record ch_inv_at (cap : Z) (ch : channel) (lo D V : nat) : Prop := {
  ci_cap : cap_ok cap;
  ci_scap : cs_cap (ch_snd ch) = cap;
  ci_rcap : cr_cap (ch_rcv ch) = cap;
  ci_snd : snd_inv (posted_of (ch_log ch)) lo (ch_snd ch);
  ci_sbuf : Z.of_nat (length (cs_buf (ch_snd ch))) = cap;
  ci_rbuf : Z.of_nat (length (cr_rsp_buf (ch_rcv ch))) = cap;
  ci_prod : cs_prod (ch_snd ch) = nenc cap (length (posted_of (ch_log ch)));
  ci_cmpl : cs_cmpl (ch_snd ch) = nenc cap lo;
  ci_cons : cr_cons (ch_rcv ch) = nenc cap (length (handled_of (ch_log ch)));
  ci_cmds : chan_ok cap (posted_of (ch_log ch)).*2 (length (handled_of (ch_log ch))) V
              (cr_buf (ch_rcv ch), cr_prod (ch_rcv ch)) (ch_cmds ch);
  ci_rsps : chan_ok cap (handled_of (ch_log ch)).*2 lo D
              (cs_rsp_buf (ch_snd ch), cs_cons (ch_snd ch)) (ch_rsps ch);
  ci_window : Z.of_nat (length (posted_of (ch_log ch))) <= Z.of_nat lo + cap;
  ci_order : (handled_of (ch_log ch)).*1
             = take (length (handled_of (ch_log ch))) (posted_of (ch_log ch)).*2;
  ci_ids : ∀ n p, posted_of (ch_log ch) !! n = Some p → hdr_id (snd p) = nslot cap n;
  ci_rids : Forall (λ h, rsp_cmd_id (snd h) = hdr_id (fst h)) (handled_of (ch_log ch));
  ci_done : completed_of (ch_log ch)
            `sublist_of` take lo (zip (posted_of (ch_log ch)).*1 (handled_of (ch_log ch)).*2);
  ci_link : disables_of (ch_log ch) = [] }.

Definition ch_inv (ch : channel) : Prop :=
  ∃ lo D V, ch_inv_at (cs_cap (ch_snd ch)) ch lo D V.

Lemma ch_init_inv ch : ch_init ch → ch_inv ch.
Proof.
  destruct ch as [s x r y wc wr log]. unfold ch_init. cbn [ch_snd ch_rcv ch_cmds ch_rsps ch_log].
  intros (Hc & Hrc & Hb1 & Hb2 & Hb3 & Hb4 & Hp & Hm & Hk & Hrk & Hrp & Hpe & Hpo & Hcb & -> & -> & ->).
  exists 0%nat, 0%nat, 0%nat. assert (nenc (cs_cap s) 0 = 0) as H0 by apply Zmod_0_l.
  constructor; cbn [ch_snd ch_rcv ch_cmds ch_rsps ch_log posted_of handled_of completed_of omap list_omap length fmap list_fmap];
    rewrite ?H0; try done; try (by apply chan_init); try rsolve.
  - split; [split|].
    + rewrite Hpe, Hpo. constructor.
    + intros cb. rewrite Hpe, Hpo. split; [by intros ?%elem_of_nil|].
      intros (c & Hcc & Ht). specialize (Hcb cb c Hcc). cbn in Hcb. congruence.
    + rewrite Hpo. constructor.
Qed.

(** What the events of a run contain. *)
Lemma omap_fmap_none {A B D} (f : B → option D) (g : A → B) (l : list A) :
  (∀ x, f (g x) = None) → omap f (g <$> l) = [].
Proof. intros H. induction l as [|x l IH]; [done|]. cbn. by rewrite H. Qed.

Lemma omap_fmap_some {A B D} (f : B → option D) (g : A → B) (h : A → D) (l : list A) :
  (∀ x, f (g x) = Some (h x)) → omap f (g <$> l) = h <$> l.
Proof. intros H. induction l as [|x l IH]; [done|]. cbn. rewrite H. by f_equal. Qed.

Lemma fmap_pair_id {A B} (l : list (A * B)) : (λ p, (fst p, snd p)) <$> l = l.
Proof. induction l as [|[a b] l IH]; [done|]. cbn. by f_equal. Qed.

Lemma bell_events_omap {D} (f : cmd_event C R → option D) bells :
  bell_events bells → f EvTrigger = None → f EvReadd = None → omap f bells = [].
Proof. intros [->|[->| ->]] H1 H2; cbn; by rewrite ?H1, ?H2. Qed.

Ltac omap_runs :=
  rewrite !omap_app;
  repeat first
    [ rewrite omap_fmap_none by done
    | erewrite omap_fmap_some by (intros; reflexivity)
    | match goal with Hb : bell_events ?b |- _ => rewrite (bell_events_omap _ b Hb) by done end ].

Lemma send_run_events (l1 : list (nat * R)) l2 start shift idx vb bells :
  bell_events bells →
  let evs := [EvClear] ++ (compl_ev <$> l1) ++ (post_ev <$> l2)
             ++ sent_events (EvCopyCmds start l2.*2) shift idx vb (length l2) ++ bells in
  posted_of evs = l2 ∧ handled_of evs = [] ∧ completed_of evs = l1 ∧ disables_of evs = []
  ∧ wire_cmds evs = if (length l2 =? 0)%nat then [] else [WCopy start l2.*2; WIndex idx].
Proof.
  intros Hb evs. unfold evs, posted_of, handled_of, completed_of, disables_of, wire_cmds, sent_events.
  omap_runs. destruct (length l2 =? 0)%nat; cbn [omap list_omap app];
    rewrite ?app_nil_r, ?fmap_pair_id; repeat split; done.
Qed.

Lemma recv_run_events l n start shift idx vb bells :
  bell_events bells →
  let evs := [EvClear] ++ (hand_ev <$> l)
             ++ sent_events (EvCopyRsps start l.*1.*2) shift idx vb n ++ bells in
  posted_of evs = [] ∧ handled_of evs = l.*1 ∧ completed_of evs = [] ∧ disables_of evs = []
  ∧ wire_rsps evs = if (n =? 0)%nat then [] else [WCopy start l.*1.*2; WIndex idx].
Proof.
  intros Hb evs. unfold evs, posted_of, handled_of, completed_of, disables_of, wire_rsps, sent_events.
  omap_runs.
  assert ((λ x : C * R * Z, (fst (fst x), snd (fst x))) <$> l = l.*1) as Hl.
  { clear. induction l as [|[[c r] z] l IH]; [done|]. cbn. by f_equal. }
  destruct (n =? 0)%nat; cbn [omap list_omap app];
    rewrite ?app_nil_r, ?Hl; repeat split; done.
Qed.

Lemma handled_ids cap ch lo D V i h :
  ch_inv_at cap ch lo D V → handled_of (ch_log ch) !! i = Some h →
  rsp_cmd_id (snd h) = nslot cap i.
Proof.
  intros H Hi. pose proof (ci_rids _ _ _ _ _ H) as Hr. rewrite list.Forall_forall in Hr.
  rewrite (Hr h) by (by eapply list_elem_of_lookup_2).
  assert ((handled_of (ch_log ch)).*1 !! i = Some (fst h)) as Hc by (by rewrite list_lookup_fmap, Hi).
  rewrite (ci_order _ _ _ _ _ H) in Hc. apply lookup_take_Some in Hc as [Hc _].
  rewrite list_lookup_fmap in Hc. destruct (posted_of (ch_log ch) !! i) as [p|] eqn:Hp; [|done].
  cbn in Hc. simplify_eq. rewrite <- Hc. by apply (ci_ids _ _ _ _ _ H).
Qed.

(** The responses A can see are those of its own commands. *)
Lemma visible_rsps cap ch lo D V i :
  ch_inv_at cap ch lo D V → (lo ≤ i < D)%nat →
  ∃ r, (handled_of (ch_log ch)).*2 !! i = Some r
    ∧ cs_rsp_buf (ch_snd ch) !! Z.to_nat (nslot cap i) = Some r ∧ rsp_cmd_id r = nslot cap i.
Proof.
  intros H Hi. pose proof (ci_rsps _ _ _ _ _ H) as Hc.
  destruct (chan_bounds _ _ _ _ _ _ Hc) as [Hb _]. rewrite length_fmap in Hb.
  assert (i < length (handled_of (ch_log ch)))%nat as Hlt by lia.
  apply lookup_lt_is_Some in Hlt as [h Hh].
  exists (snd h). rewrite <- (handled_ids cap ch lo D V i h) by done.
  rewrite list_lookup_fmap, Hh. split; [done|]. split; [|done].
  pose proof (chan_lookup _ _ _ _ _ _ i Hc Hi) as Hl. cbn [fst] in Hl.
  by rewrite (handled_ids cap ch lo D V i h), Hl, list_lookup_fmap, Hh by done.
Qed.

Lemma visible_cmds cap ch lo D V i :
  ch_inv_at cap ch lo D V → (length (handled_of (ch_log ch)) ≤ i < V)%nat →
  ∃ c, (posted_of (ch_log ch)).*2 !! i = Some c
    ∧ cr_buf (ch_rcv ch) !! Z.to_nat (nslot cap i) = Some c.
Proof.
  intros H Hi. pose proof (ci_cmds _ _ _ _ _ H) as Hc.
  destruct (chan_bounds _ _ _ _ _ _ Hc) as [Hb _].
  assert (i < length (posted_of (ch_log ch)).*2)%nat as Hlt by lia.
  apply lookup_lt_is_Some in Hlt as [c Hcc]. exists c. split; [done|].
  by rewrite <- Hcc, <- (chan_lookup _ _ _ _ _ _ i Hc Hi).
Qed.

Lemma posted_of_app a b : posted_of (a ++ b) = posted_of a ++ posted_of b.
Proof. apply omap_app. Qed.
Lemma handled_of_app a b : handled_of (a ++ b) = handled_of a ++ handled_of b.
Proof. apply omap_app. Qed.
Lemma completed_of_app a b : completed_of (a ++ b) = completed_of a ++ completed_of b.
Proof. apply omap_app. Qed.
Lemma disables_of_app a b : disables_of (a ++ b) = disables_of a ++ disables_of b.
Proof. apply omap_app. Qed.

(** The invariant is kept by a run of each work function ... *)
Lemma inv_send_work cap ch lo D V xf s' x' evs :
  ch_inv_at cap ch lo D V → xfers_ok xf →
  ntrdma_cmd_send_work xf (ch_snd ch) (ch_x ch) = Some (s', x', evs) →
  ∃ n, ch_inv_at cap
    (mk_channel s' x' (ch_rcv ch) (ch_y ch) (ch_cmds ch ++ wire_cmds evs) (ch_rsps ch)
       (ch_log ch ++ evs)) (lo + n) D V.
Proof.
  intros H Hxf Hrun. destruct (chan_bounds _ _ _ _ _ _ (ci_rsps _ _ _ _ _ H)) as [HD Hcons].
  destruct (chan_bounds _ _ _ _ _ _ (ci_cmds _ _ _ _ _ H)) as [HV _].
  rewrite length_fmap in HD. rewrite length_fmap in HV. cbn [snd] in Hcons.
  set (posted := posted_of (ch_log ch)) in *. set (handled := handled_of (ch_log ch)) in *.
  set (n := Z.to_nat (Z.min (Z.of_nat (D - lo)) (cap - nslot cap lo))).
  pose proof (nslot_range cap (ci_cap _ _ _ _ _ H) lo) as Hsl.
  destruct (send_work_spec xf posted handled.*2 lo D cap n (ch_snd ch) (ch_x ch))
    as (s1 & x1 & l1 & l2 & bells & Hok & Hbell & Hsub & Hinv & Hlen & Hwin & Hids & Hcap1 & Hprod1
        & Hcmpl1 & Hrb1 & Hcn1 & Hbuf1);
    [apply H|apply H|done|apply H|apply H|apply H|apply H|done|lia|apply H| |unfold n; lia|].
  { intros i Hi. by apply (visible_rsps cap ch lo D V). }
  rewrite Hok in Hrun. apply (inj Some) in Hrun. apply (inj2 pair) in Hrun as [Hrun Hevs].
  apply (inj2 pair) in Hrun as [<- <-].
  destruct (send_run_events l1 l2 (nslot cap (length posted)) (cs_peer_recv_prod_shift s1)
    (nenc cap (length posted + length l2)) (cs_peer_recv_vbell_idx s1) bells Hbell)
    as (He1 & He2 & He3 & He4 & He5).
  cbv zeta in He1, He2, He3, He4, He5. rewrite Hevs in He1, He2, He3, He4, He5. clear Hevs Hok.
  exists n. unfold posted, handled in *.
  constructor; cbn [ch_snd ch_rcv ch_cmds ch_rsps ch_log];
    rewrite ?posted_of_app, ?handled_of_app, ?completed_of_app, ?disables_of_app,
      ?He1, ?He2, ?He3, ?He4, ?He5, ?app_nil_r, ?length_app, ?fmap_app;
    try (by apply H); try done; try lia.
  - pose proof (chan_send_run cap _ _ _ _ _ l2.*2 (ci_cmds _ _ _ _ _ H)) as Hc.
    rewrite !length_fmap in Hc. apply Hc; [done|]. lia.
  - rewrite Hrb1, Hcn1. eapply chan_consume; [apply H|]. unfold n. lia.
  - rewrite take_app_le by (rewrite length_fmap; lia). apply H.
  - intros i p Hp. apply lookup_app_Some in Hp as [Hp|[Hge Hp]]; [by apply (ci_ids _ _ _ _ _ H)|].
    rewrite (Hids _ _ Hp), <- nslot_add.
    + f_equal. lia.
    + apply H.
    + apply lookup_lt_Some in Hp. lia.
  - rewrite zip_with_app_l, length_fmap, drop_ge by (rewrite length_fmap; lia).
    rewrite zip_with_nil_r, app_nil_r, (take_ge (handled_of _).*2) by (rewrite length_fmap; lia).
    rewrite <- take_take_drop. apply sublist_app; [apply H|done].
Qed.

Lemma inv_recv_work cap ch lo D V xf r' y' evs :
  ch_inv_at cap ch lo D V → xfers_ok xf →
  ntrdma_cmd_recv_work xf (ch_rcv ch) (ch_y ch) = Some (r', y', evs) →
  ch_inv_at cap
    (mk_channel (ch_snd ch) (ch_x ch) r' y' (ch_cmds ch) (ch_rsps ch ++ wire_rsps evs)
       (ch_log ch ++ evs)) lo D V.
Proof.
  intros H Hxf Hrun. destruct (chan_bounds _ _ _ _ _ _ (ci_rsps _ _ _ _ _ H)) as [HD _].
  destruct (chan_bounds _ _ _ _ _ _ (ci_cmds _ _ _ _ _ H)) as [HV Hprod].
  rewrite length_fmap in HD. rewrite length_fmap in HV. cbn [snd] in Hprod.
  pose proof (ci_window _ _ _ _ _ H) as Hwin. pose proof (ci_order _ _ _ _ _ H) as Hord.
  set (Q := length (handled_of (ch_log ch))) in *.
  pose proof (nslot_range cap (ci_cap _ _ _ _ _ H) Q) as Hsl.
  set (n := Z.to_nat (Z.min (Z.of_nat (V - Q)) (cap - nslot cap Q))).
  destruct (recv_work_spec xf (posted_of (ch_log ch)).*2 Q V cap n (ch_rcv ch) (ch_y ch))
    as (r1 & y1 & l & bells & Hok & Hbell & Hl & Hlen & Hrid & Hcap1 & Hcons1 & Hbuf1 & Hprod1 & Hrb1);
    [apply H|apply H|done|apply H|apply H|done|lia|lia| |unfold n; lia|].
  { intros i Hi. by apply (visible_cmds cap ch lo D V). }
  rewrite Hok in Hrun. apply (inj Some) in Hrun. apply (inj2 pair) in Hrun as [Hrun Hevs].
  apply (inj2 pair) in Hrun as [<- <-].
  destruct (recv_run_events l n (nslot cap Q) (cr_peer_send_cons_shift r1) (nenc cap (Q + n))
    (cr_peer_send_vbell_idx r1) bells Hbell) as (He1 & He2 & He3 & He4 & He5).
  cbv zeta in He1, He2, He3, He4, He5. rewrite Hevs in He1, He2, He3, He4, He5. clear Hevs Hok.
  assert (length l.*1 = n) as Hln by (by rewrite length_fmap).
  assert ((n ≤ V - Q)%nat ∧ Z.of_nat n <= cap - nslot cap Q) as [HnV HnS] by (unfold n; lia).
  constructor; cbn [ch_snd ch_rcv ch_cmds ch_rsps ch_log];
    rewrite ?posted_of_app, ?handled_of_app, ?completed_of_app, ?disables_of_app,
      ?He1, ?He2, ?He3, ?He4, ?He5, ?app_nil_r, ?length_app, ?fmap_app, ?Hln;
    try (by apply H); try done; try lia; fold Q.
  - rewrite Hbuf1, Hprod1. eapply chan_consume; [apply H|]. lia.
  - pose proof (chan_send_run cap _ _ _ _ _ l.*1.*2 (ci_rsps _ _ _ _ _ H)) as Hc.
    rewrite !length_fmap, Hlen in Hc. apply Hc; [done|]. fold Q. lia.
  - rewrite Hord, Hl. apply take_take_drop.
  - apply list.Forall_app. split; [apply H|]. by apply list.Forall_fmap.
  - pose proof (ci_done _ _ _ _ _ H) as Hdone. rewrite zip_with_app_r, take_app_le.
    + by rewrite zip_with_take_l by done.
    + rewrite length_zip_with, length_take, !length_fmap. fold Q. lia.
Qed.

(** ... and by every other step. *)
Lemma inv_sender cap ch lo D V s' x' :
  ch_inv_at cap ch lo D V → snd_inv (posted_of (ch_log ch)) lo s' →
  cs_cap s' = cs_cap (ch_snd ch) → cs_prod s' = cs_prod (ch_snd ch) →
  cs_cmpl s' = cs_cmpl (ch_snd ch) → cs_buf s' = cs_buf (ch_snd ch) →
  cs_rsp_buf s' = cs_rsp_buf (ch_snd ch) → cs_cons s' = cs_cons (ch_snd ch) →
  ch_inv_at cap
    (mk_channel s' x' (ch_rcv ch) (ch_y ch) (ch_cmds ch) (ch_rsps ch) (ch_log ch)) lo D V.
Proof.
  intros H Hs E1 E2 E3 E4 E5 E6.
  constructor; cbn [ch_snd ch_rcv ch_cmds ch_rsps ch_log]; rewrite ?E1, ?E2, ?E3, ?E4, ?E5, ?E6;
    first [done | by apply H].
Qed.

Lemma inv_deliver_cmd cap ch lo D V e w :
  ch_inv_at cap ch lo D V → ch_cmds ch = e :: w →
  ∃ V', ch_inv_at cap
    (mk_channel (ch_snd ch) (ch_x ch)
       (cr_set_mem (deliver e (cr_buf (ch_rcv ch), cr_prod (ch_rcv ch))) (ch_rcv ch)) (ch_y ch)
       w (ch_rsps ch) (ch_log ch)) lo D V'.
Proof.
  intros H He. pose proof (ci_cmds _ _ _ _ _ H) as Hc. rewrite He in Hc.
  apply chan_deliver in Hc as (V' & HV & Hc); [|apply H]. exists V'.
  constructor; cbn [ch_snd ch_rcv ch_cmds ch_rsps ch_log cr_set_mem cr_cap cr_rsp_buf cr_cons cr_buf cr_prod];
    rewrite <- ?surjective_pairing; first [done | by apply H].
Qed.

Lemma inv_deliver_rsp cap ch lo D V e w :
  ch_inv_at cap ch lo D V → ch_rsps ch = e :: w →
  ∃ D', ch_inv_at cap
    (mk_channel (cs_set_mem (deliver e (cs_rsp_buf (ch_snd ch), cs_cons (ch_snd ch))) (ch_snd ch))
       (ch_x ch) (ch_rcv ch) (ch_y ch) (ch_cmds ch) w (ch_log ch)) lo D' V.
Proof.
  intros H He. pose proof (ci_rsps _ _ _ _ _ H) as Hc. rewrite He in Hc.
  apply chan_deliver in Hc as (D' & HD & Hc); [|apply H]. exists D'.
  constructor; cbn [ch_snd ch_rcv ch_cmds ch_rsps ch_log cs_set_mem cs_cap cs_buf cs_prod cs_cmpl
                    cs_rsp_buf cs_cons];
    rewrite <- ?surjective_pairing; first [done | by apply H].
Qed.

Lemma unlink_step_inv posted lo s cb :
  snd_inv posted lo s → snd_inv posted lo (snd (fst (ntrdma_cmd_cb_unlink cb s))).
Proof.
  intros H. unfold ntrdma_cmd_cb_unlink. destruct (cs_cbs s !! cb) as [c|] eqn:Hc; [|done].
  destruct (cb_in_list c); [|done]. by apply unlink_inv.
Qed.

Lemma add_step_inv posted lo s cb c :
  snd_inv posted lo s → cs_cbs s !! cb = Some c → cb_in_list c = false →
  snd_inv posted lo (snd (ntrdma_dev_cmd_add cb s)).
Proof.
  intros H Hc Hf. unfold ntrdma_dev_cmd_add. destruct (cs_ready s); [|done]. by eapply add_inv.
Qed.

Lemma ch_step_inv ch ch' : ch_inv ch → ch_step ch ch' → ch_inv ch'.
Proof.
  intros (lo & D & V & H) Hstep.
  assert (∀ ch2 lo2 D2 V2, ch_inv_at (cs_cap (ch_snd ch)) ch2 lo2 D2 V2 → ch_inv ch2) as Hin.
  { intros ch2 lo2 D2 V2 H2. exists lo2, D2, V2. by rewrite (ci_scap _ _ _ _ _ H2). }
  destruct Hstep as [xf s x s' x' r y wc wr log evs Hxf Hrun|xf s x r r' y y' wc wr log evs Hxf Hrun
    |s x r y e wc wr log|s x r y wc e wr log|s x r y wc wr log cb c Hc Hf|s x r y wc wr log cb
    |s x r y wc wr log|s x r y wc wr log].
  - unfold ntrdma_cmd_send_work_cb in Hrun. destruct (cs_ready s); cbn [negb] in Hrun.
    + apply (inv_send_work _ _ lo D V) with (1 := H) in Hrun as [n Hn]; [|done]. eapply Hin, Hn.
    + simplify_eq. cbn. rewrite !app_nil_r. eapply Hin, H.
  - unfold ntrdma_cmd_recv_work_cb in Hrun. destruct (cr_ready r); cbn [negb] in Hrun.
    + apply (inv_recv_work _ _ lo D V) with (1 := H) in Hrun; [|done]. eapply Hin, Hrun.
    + simplify_eq. cbn. rewrite !app_nil_r. eapply Hin, H.
  - destruct (inv_deliver_cmd _ _ _ _ _ e wc H eq_refl) as [V' HV]. eapply Hin, HV.
  - destruct (inv_deliver_rsp _ _ _ _ _ e wr H eq_refl) as [D' HD]. eapply Hin, HD.
  - eapply Hin, (inv_sender _ _ _ _ _ _ _ H);
      [by eapply add_step_inv; [apply H| |]|..]; unfold ntrdma_dev_cmd_add; by destruct (cs_ready _).
  - eapply Hin, (inv_sender _ _ _ _ _ _ _ H);
      [by apply unlink_step_inv, H|..]; unfold ntrdma_cmd_cb_unlink; cbn [ch_snd];
      destruct (cs_cbs s !! cb) as [c|]; try done; by destruct (cb_in_list c).
  - eapply Hin. destruct H; constructor; try done.
  - eapply Hin. destruct H; constructor; try done.
Qed.

Lemma reachable_inv ch0 ch : ch_init ch0 → rtc ch_step ch0 ch → ch_inv ch.
Proof.
  intros H0 Hr. apply ch_init_inv in H0. induction Hr; [done|]. eauto using ch_step_inv.
Qed.

(** ** Theorems *)

(** C19: the commands are executed exactly once, in the order in which they
    were posted, with the contents they were prepared with, however the
    indices wrap, the runs are split and the transfers are delayed; and at
    most the capacity of the ring is outstanding. *)
Theorem cmd_channel_in_order ch0 ch :
  ch_init ch0 → rtc ch_step ch0 ch →
  (handled_of (ch_log ch)).*1
    = take (length (handled_of (ch_log ch))) (posted_of (ch_log ch)).*2
  ∧ Z.of_nat (length (posted_of (ch_log ch)))
    <= Z.of_nat (length (handled_of (ch_log ch))) + cs_cap (ch_snd ch).
Proof.
  intros H0 Hr. destruct (reachable_inv _ _ H0 Hr) as (lo & D & V & H).
  split; [apply H|]. destruct (chan_bounds _ _ _ _ _ _ (ci_rsps _ _ _ _ _ H)) as [HD _].
  rewrite length_fmap in HD. pose proof (ci_window _ _ _ _ _ H). lia.
Qed.


Lemma bells_no_error bells : bell_events bells → EvUnrecoverable ∉ bells.
Proof. intros [->|[->| ->]]; set_solver. Qed.

Lemma sent_no_error (copy : cmd_event C R) shift idx vb n :
  copy ≠ EvUnrecoverable → EvUnrecoverable ∉ sent_events copy shift idx vb n.
Proof. intros H. unfold sent_events. destruct (n =? 0)%nat; set_solver. Qed.

(** C21: from every reachable state both work functions run to the end
    without an access outside the rings, and declare no error as long as the
    transfers succeed. *)
Theorem cmd_work_never_faults ch0 ch xf :
  ch_init ch0 → rtc ch_step ch0 ch → xfers_ok xf →
  (∃ s x evs, ntrdma_cmd_send_work_cb xf (ch_snd ch) (ch_x ch) = Some (s, x, evs)
     ∧ EvUnrecoverable ∉ evs)
  ∧ (∃ r y evs, ntrdma_cmd_recv_work_cb xf (ch_rcv ch) (ch_y ch) = Some (r, y, evs)
     ∧ EvUnrecoverable ∉ evs).
Proof.
  intros H0 Hr Hxf. destruct (reachable_inv _ _ H0 Hr) as (lo & D & V & H).
  set (cap := cs_cap (ch_snd ch)) in *. pose proof (ci_cap _ _ _ _ _ H) as Hcap.
  destruct (chan_bounds _ _ _ _ _ _ (ci_rsps _ _ _ _ _ H)) as [HD Hcons].
  destruct (chan_bounds _ _ _ _ _ _ (ci_cmds _ _ _ _ _ H)) as [HV Hprod].
  rewrite length_fmap in HD. rewrite length_fmap in HV. cbn [snd] in Hcons, Hprod.
  pose proof (ci_window _ _ _ _ _ H) as Hwin.
  set (Q := length (handled_of (ch_log ch))) in *.
  unfold ntrdma_cmd_send_work_cb, ntrdma_cmd_recv_work_cb. split.
  - destruct (cs_ready (ch_snd ch)); cbn [negb]; [|by eexists _, _, []; split; [|set_solver]].
    pose proof (nslot_range cap Hcap lo) as Hsl.
    destruct (send_work_spec xf (posted_of (ch_log ch)) (handled_of (ch_log ch)).*2 lo D cap
                (Z.to_nat (Z.min (Z.of_nat (D - lo)) (cap - nslot cap lo))) (ch_snd ch) (ch_x ch))
      as (s1 & x1 & l1 & l2 & bells & Hok & Hbell & _);
      [apply H|apply H|done|apply H|apply H|apply H|apply H|done|lia|lia| |lia|].
    { intros i Hi. by apply (visible_rsps cap ch lo D V). }
    eexists _, _, _. split; [exact Hok|]. apply bells_no_error in Hbell.
    rewrite !elem_of_app, !list_elem_of_fmap. pose proof (sent_no_error) as Hse. set_solver.
  - destruct (cr_ready (ch_rcv ch)); cbn [negb]; [|by eexists _, _, []; split; [|set_solver]].
    pose proof (nslot_range cap Hcap Q) as Hsl.
    destruct (recv_work_spec xf (posted_of (ch_log ch)).*2 Q V cap
                (Z.to_nat (Z.min (Z.of_nat (V - Q)) (cap - nslot cap Q))) (ch_rcv ch) (ch_y ch))
      as (r1 & y1 & l & bells & Hok & Hbell & _);
      [apply H|apply H|done|apply H|apply H|done|lia|lia| |lia|].
    { intros i Hi. by apply (visible_cmds cap ch lo D V). }
    eexists _, _, _. split; [exact Hok|]. apply bells_no_error in Hbell.
    rewrite !elem_of_app, !list_elem_of_fmap. pose proof (sent_no_error) as Hse. set_solver.
Qed.

(** A callback is on one of the two lists at most, once at most, and its
    [in_list] flag says exactly whether it is. *)
Theorem cmd_callback_flags ch0 ch :
  ch_init ch0 → rtc ch_step ch0 ch →
  NoDup (cs_post (ch_snd ch) ++ cs_pend (ch_snd ch))
  ∧ ∀ cb c, cs_cbs (ch_snd ch) !! cb = Some c →
      cb_in_list c = bool_decide (cb ∈ cs_post (ch_snd ch) ++ cs_pend (ch_snd ch)).
Proof.
  intros H0 Hr. destruct (reachable_inv _ _ H0 Hr) as (lo & D & V & H).
  destruct (ci_snd _ _ _ _ _ H) as [[Hnd Hin] _]. split; [done|]. intros cb c Hc.
  case_bool_decide as Hb; rewrite Hin in Hb.
  - destruct Hb as (c' & Hc' & Ht). by simplify_eq.
  - destruct (cb_in_list c) eqn:Ht; [|done]. exfalso. apply Hb. by exists c.
Qed.

End Sender.

Arguments channel : clear implicits.

(** *** A run, used by the witnesses

    A ring of two slots and three callbacks: the first two are posted, the
    first times out before its response is back, the third takes its slot. *)

Definition demo_env : CmdEnv (Z * Z) (Z * Z) unit Z := {|
  cmd_prep := λ cb c x, (0, (fst c, 10 * Z.of_nat cb), x);
  rsp_cmpl := λ cb r x, (false, x);
  rsp_cmd_id := fst;
  set_hdr := λ pos cb c, (pos, snd c);
  cmd_recv := λ c old y, (0, (fst c, snd c + y), y + 1) |}.

Lemma demo_laws : @CmdLaws (Z * Z) (Z * Z) unit Z demo_env.
Proof. by exists fst. Defined.

#[local] Existing Instance demo_env.
#[local] Existing Instance demo_laws.

Definition demo_channel : channel (Z * Z) (Z * Z) unit Z :=
  mk_channel
    (mk_cmd_send false [] [] 2 0 0 [(0, 0); (0, 0)] [(0, 0); (0, 0)] 0
       (list_to_map [(1%nat, mk_cb false 0); (2%nat, mk_cb false 0); (3%nat, mk_cb false 0)]) 0 0)
    tt
    (mk_cmd_recv false 2 0 [(0, 0); (0, 0)] 0 [(0, 0); (0, 0)] 0 0)
    5 [] [] [].

Lemma demo_init : ch_init demo_channel.
Proof.
  repeat split; try reflexivity.
  apply (bool_decide_unpack _). vm_compute. exact I.
Qed.

Definition demo_xfers : xfers := mk_xfers 0 0 0 0.

Lemma demo_run :
  ∃ ch, rtc ch_step demo_channel ch
    ∧ (posted_of (ch_log ch)).*1 = [1; 2; 3]%nat
    ∧ (handled_of (ch_log ch)).*2 = [(0, 15); (1, 26)]
    ∧ completed_of (ch_log ch) = [(2%nat, (1, 26))].
Proof.
  eexists. split.
  { eapply rtc_l; [apply step_enable|].
    eapply rtc_l; [apply (step_add _ _ _ _ _ _ _ 1%nat (mk_cb false 0)); reflexivity|].
    eapply rtc_l; [apply (step_add _ _ _ _ _ _ _ 2%nat (mk_cb false 0)); reflexivity|].
    eapply rtc_l; [apply (step_add _ _ _ _ _ _ _ 3%nat (mk_cb false 0)); reflexivity|].
    eapply rtc_l; [eapply (step_send demo_xfers); [by repeat split|vm_compute; reflexivity]|].
    eapply rtc_l; [apply step_deliver_cmd|]. eapply rtc_l; [apply step_deliver_cmd|].
    eapply rtc_l; [apply (step_unlink _ _ _ _ _ _ _ 1%nat)|].
    eapply rtc_l; [eapply (step_recv demo_xfers); [by repeat split|vm_compute; reflexivity]|].
    eapply rtc_l; [apply step_deliver_rsp|]. eapply rtc_l; [apply step_deliver_rsp|].
    eapply rtc_l; [eapply (step_send demo_xfers); [by repeat split|vm_compute; reflexivity]|].
    apply rtc_refl. }
  vm_compute. repeat split.
Qed.

Lemma cmd_channel_in_order_witness :
  ∃ ch, rtc ch_step demo_channel ch ∧ (handled_of (ch_log ch)).*2 = [(0, 15); (1, 26)]
    ∧ (handled_of (ch_log ch)).*1 = take 2 (posted_of (ch_log ch)).*2.
Proof.
  destruct demo_run as (ch & Hr & _ & Hh & _). exists ch. split; [exact Hr|]. split; [exact Hh|].
  pose proof (proj1 (cmd_channel_in_order demo_channel ch demo_init Hr)) as H.
  rewrite <- (length_fmap snd), Hh in H. exact H.
Defined.


Lemma cmd_work_never_faults_witness :
  ∃ ch, rtc ch_step demo_channel ch ∧ completed_of (ch_log ch) = [(2%nat, (1, 26))]
    ∧ ∃ s x evs, ntrdma_cmd_send_work_cb demo_xfers (ch_snd ch) (ch_x ch) = Some (s, x, evs)
        ∧ EvUnrecoverable ∉ evs.
Proof.
  destruct demo_run as (ch & Hr & _ & _ & Hc). exists ch. split; [exact Hr|]. split; [exact Hc|].
  exact (proj1 (cmd_work_never_faults demo_channel ch demo_xfers demo_init Hr
    ltac:(repeat split; discriminate))).
Defined.

Lemma cmd_callback_flags_witness :
  ∃ ch, rtc ch_step demo_channel ch ∧ completed_of (ch_log ch) = [(2%nat, (1, 26))]
    ∧ NoDup (cs_post (ch_snd ch) ++ cs_pend (ch_snd ch)).
Proof.
  destruct demo_run as (ch & Hr & _ & _ & Hc). exists ch. split; [exact Hr|]. split; [exact Hc|].
  exact (proj1 (cmd_callback_flags demo_channel ch demo_init Hr)).
Defined.

End CmdRing.
