(* ===== verification/Mm.v ===== *)
(** * The buffer allocator (ntc_mm.h)

    A region of memory is handed out in chunks whose sizes are powers of two.
    A freed chunk goes to the free list of its size, which is threaded through
    the chunks themselves; new chunks are cut off the end of the used part.
    The module models the words of the region, so that the free lists live in
    memory that its users could overwrite. *)

From stdpp Require Import gmap functions.
From S2P Require Import Prelude.

Module Mm.

(** ** The code *)

Definition FREE_MAGIC : Z := 0xdeadc0de.
Definition FIXED_MAGIC : Z := 0xbed00bad.
Definition ENOSPC : Z := 28.
Definition sizeof_free_entry : Z := 16.

Definition ALIGN16 (z : Z) : Z := Z.land (z + (sizeof_free_entry - 1)) (Z.lnot (sizeof_free_entry - 1)).

(** [__builtin_clz] of a 32 bit value; undefined for 0. *)
Definition builtin_clz (v : Z) : option Z :=
  let v := u32 v in if v =? 0 then None else Some (31 - Z.log2 v).

(** [None] is undefined behaviour. *)
Definition _ntc_mm_chunk_size (size : Z) : option Z :=
  if size =? 0 then Some 0
  else
    let size := s32 (ALIGN16 size) in
    match builtin_clz size with
    | None => None
    | Some clz =>
        Some
          (if clz <? 2 then 0
           else if negb (s32 (Z.shiftl size (clz + 1)) =? 0) then s32 (Z.shiftl 1 (8 * 4 - clz))
           else s32 (Z.shiftl 1 (8 * 4 - clz - 1)))
    end.

Definition _ntc_mm_round_up_ptr (ptr : Z) : Z := u64 (ALIGN16 ptr).

Record ntc_fixed_mm := mk_fixed { fm_free : Z; fm_magic : Z }.

(** [mm_words] is the memory of the region: the word at each address. *)
Record ntc_mm := mk_mm {
  mm_memory : Z;
  mm_end : Z;
  mm_brk : Z;
  mm_fixed : gmap Z ntc_fixed_mm;
  mm_words : Z → Z }.

(** A pointer or an [ERR_PTR]. *)
Inductive err_ptr := Ptr (p : Z) | Err (e : Z).

Definition set_word (a v : Z) (w : Z → Z) : Z → Z := λ b, if b =? a then v else w b.
Definition memset0 (p size : Z) (w : Z → Z) : Z → Z :=
  λ b, if (p <=? b) && (b <? p + size) then 0 else w b.

Definition mm_set_fixed (size : Z) (f : ntc_fixed_mm) (mm : ntc_mm) : ntc_mm :=
  mk_mm (mm_memory mm) (mm_end mm) (mm_brk mm) (<[size := f]> (mm_fixed mm)) (mm_words mm).
Definition mm_set_words (w : Z → Z) (mm : ntc_mm) : ntc_mm :=
  mk_mm (mm_memory mm) (mm_end mm) (mm_brk mm) (mm_fixed mm) w.
Definition mm_set_brk (b : Z) (mm : ntc_mm) : ntc_mm :=
  mk_mm (mm_memory mm) (mm_end mm) b (mm_fixed mm) (mm_words mm).

(** The fields of a [struct ntc_mm_free_entry] at [p]. *)
Definition entry_next (w : Z → Z) (p : Z) : Z := w p.
Definition entry_magic (w : Z → Z) (p : Z) : Z := w (p + 8).

Definition ntc_mm_fixed_init : ntc_fixed_mm := mk_fixed 0 FIXED_MAGIC.

(** [None] is a [BUG_ON]. *)
Definition ntc_mm_fixed_alloc (fixed : ntc_fixed_mm) (w : Z → Z) : option (err_ptr * ntc_fixed_mm) :=
  let free := fm_free fixed in
  if negb (free =? 0) then
    if negb (entry_magic w free =? FREE_MAGIC) then None
    else Some (Ptr free, mk_fixed (entry_next w free) (fm_magic fixed))
  else Some (Err (- ENOMEM), fixed).

Definition ntc_mm_fixed_free (fixed : ntc_fixed_mm) (ptr : Z) (w : Z → Z) : ntc_fixed_mm * (Z → Z) :=
  (mk_fixed ptr (fm_magic fixed),
   set_word (ptr + 8) FREE_MAGIC (set_word ptr (fm_free fixed) w)).

Definition ntc_mm_init (memory size : Z) (w : Z → Z) : option ntc_mm :=
  let m := _ntc_mm_round_up_ptr memory in
  let size := if size =? 0 then size else u64 (size - (m - memory)) in
  let e := u64 (m + size) in
  if e <? m then None else Some (mk_mm m e m ∅ w).

Definition ntc_mm_sbrk (inc : Z) (mm : ntc_mm) : err_ptr * ntc_mm :=
  if inc <? 0 then (Err (- EINVAL), mm)
  else
    let result := mm_brk mm in
    let brk := u64 (result + inc) in
    if brk <? result then (Err (- ENOMEM), mm)
    else if mm_end mm <? brk then (Err (- ENOMEM), mm)
    else (Ptr result, mm_set_brk brk mm).

(** [idr_alloc] of exactly the key [size]; [idr_ok] tells whether it finds
    memory for its node. *)
Definition idr_alloc (idr_ok : bool) (size : Z) (f : ntc_fixed_mm) (mm : ntc_mm) : Z * ntc_mm :=
  if negb idr_ok then (- ENOMEM, mm)
  else if decide (is_Some (mm_fixed mm !! size)) then (- ENOSPC, mm)
  else (size, mm_set_fixed size f mm).

(** The result is the error, or 0 and the list found or made. *)
Definition _ntc_mm_get_fixed (kmalloc_ok idr_ok : bool) (size : Z) (mm : ntc_mm)
  : option ((Z + ntc_fixed_mm) * ntc_mm) :=
  match mm_fixed mm !! size with
  | Some f => if negb (fm_magic f =? FIXED_MAGIC) then None else Some (inr f, mm)
  | None =>
      if size <=? 0 then Some (inl (- EINVAL), mm)
      else if negb kmalloc_ok then Some (inl (- ENOMEM), mm)
      else
        let fixed := ntc_mm_fixed_init in
        let '(rc, mm) := idr_alloc idr_ok size fixed mm in
        if rc <? 0 then
          if rc =? - ENOSPC then
            match mm_fixed mm !! size with
            | Some f => if negb (fm_magic f =? FIXED_MAGIC) then None else Some (inr f, mm)
            | None => Some (inl (- EFAULT), mm)
            end
          else Some (inl rc, mm)
        else Some (inr fixed, mm)
  end.

Fixpoint preinit_loop (n : nat) (i num_els size : Z) (mm : ntc_mm) : option (Z * ntc_mm) :=
  match n with
  | O => Some (num_els, mm)
  | S n =>
      match ntc_mm_sbrk size mm with
      | (Err e, mm) => Some (if 0 <? i then i else e, mm)
      | (Ptr p, mm) =>
          match mm_fixed mm !! size with
          | None => None
          | Some f =>
              let '(f, w) := ntc_mm_fixed_free f p (mm_words mm) in
              preinit_loop n (i + 1) num_els size (mm_set_words w (mm_set_fixed size f mm))
          end
      end
  end.

Definition ntc_mm_preinit (kmalloc_ok idr_ok : bool) (size num_els : Z) (mm : ntc_mm)
  : option (Z * ntc_mm) :=
  match _ntc_mm_chunk_size size with
  | None => None
  | Some size =>
      match _ntc_mm_get_fixed kmalloc_ok idr_ok size mm with
      | None => None
      | Some (inl e, mm) => Some (e, mm)
      | Some (inr _, mm) => preinit_loop (Z.to_nat num_els) 0 num_els size mm
      end
  end.

Definition zero_chunk (zero : bool) (p size : Z) (mm : ntc_mm) : ntc_mm :=
  if zero then mm_set_words (memset0 p size (mm_words mm)) mm else mm.

(** [zero] is [__GFP_ZERO] in the flags. *)
Definition ntc_mm_alloc (kmalloc_ok idr_ok zero : bool) (size : Z) (mm : ntc_mm)
  : option (err_ptr * ntc_mm) :=
  match _ntc_mm_chunk_size size with
  | None => None
  | Some size =>
      match _ntc_mm_get_fixed kmalloc_ok idr_ok size mm with
      | None => None
      | Some (inl e, mm) => Some (Err e, mm)
      | Some (inr f, mm) =>
          match ntc_mm_fixed_alloc f (mm_words mm) with
          | None => None
          | Some (Ptr p, f) => Some (Ptr p, zero_chunk zero p size (mm_set_fixed size f mm))
          | Some (Err _, _) =>
              match ntc_mm_sbrk size mm with
              | (Err e, mm) => Some (Err e, mm)
              | (Ptr p, mm) => Some (Ptr p, zero_chunk zero p size mm)
              end
          end
      end
  end.

Definition ntc_mm_free (ptr size : Z) (mm : ntc_mm) : option ntc_mm :=
  match _ntc_mm_chunk_size size with
  | None => None
  | Some size =>
      match mm_fixed mm !! size with
      | Some f =>
          if negb (fm_magic f =? FIXED_MAGIC) then None
          else
            let '(f, w) := ntc_mm_fixed_free f ptr (mm_words mm) in
            Some (mm_set_words w (mm_set_fixed size f mm))
      | None => Some mm
      end
  end.

(** ** Chunk sizes *)

Lemma ALIGN16_eq z : ALIGN16 z = 16 * ((z + 15) / 16).
Proof.
  unfold ALIGN16, sizeof_free_entry.
  change (16 - 1) with (Z.ones 4). rewrite <- Z.ldiff_land, Z.ldiff_ones_r by lia.
  rewrite Z.shiftl_mul_pow2, Z.shiftr_div_pow2 by lia. change (2 ^ 4) with 16.
  change (Z.ones 4) with 15. lia.
Qed.

Lemma s32_zero z : s32 z = 0 ↔ u32 z = 0.
Proof.
  unfold s32. pose proof (u32_range z) as Hr. cbv zeta. zcase; [done|]. wsolve.
Qed.

Lemma clz_pos v : 0 < v < 2 ^ 31 → builtin_clz v = Some (31 - Z.log2 v).
Proof.
  intros Hv. unfold builtin_clz. rewrite u32_small by wsolve.
  by rewrite (proj2 (Z.eqb_neq _ _)) by lia.
Qed.

(** The bits below the leading one, shifted to the top of the word. *)
Lemma low_bits_zero a l :
  0 <= l <= 30 → 2 ^ l <= a < 2 ^ (l + 1) →
  (s32 (Z.shiftl a (32 - l)) = 0 ↔ a = 2 ^ l).
Proof.
  intros Hl Ha. rewrite s32_zero. unfold u32. rewrite Z.shiftl_mul_pow2 by lia.
  assert (2 ^ 32 = 2 ^ l * 2 ^ (32 - l)) as Hp.
  { rewrite <- Z.pow_add_r by lia. f_equal. lia. }
  rewrite Hp, Z.mul_mod_distr_r by (apply Z.pow_nonzero; lia).
  pose proof (Z.pow_pos_nonneg 2 (32 - l) ltac:(lia) ltac:(lia)).
  replace (2 ^ (l + 1)) with (2 * 2 ^ l) in Ha by (rewrite Z.pow_add_r by lia; lia).
  assert (a mod 2 ^ l = a - 2 ^ l) as ->; [|nia].
  symmetry. apply (Z.mod_unique _ _ 1); lia.
Qed.

Lemma chunk_size_spec size :
  0 < size <= 2 ^ 30 - 16 →
  ∃ k, _ntc_mm_chunk_size size = Some (2 ^ k)
    ∧ 4 <= k <= 30 ∧ size <= 2 ^ k ∧ (16 < size → 2 ^ (k - 1) < size).
Proof.
  intros Hs. change (2 ^ 30 - 16) with 1073741808 in Hs. unfold _ntc_mm_chunk_size.
  rewrite (proj2 (Z.eqb_neq _ _)) by lia. rewrite ALIGN16_eq.
  set (q := (size + 15) / 16).
  assert (size <= 16 * q < size + 16 ∧ 0 < q) as [Hq Hq0].
  { subst q. Z.to_euclidean_division_equations. lia. }
  rewrite s32_small by wsolve. cbv zeta. rewrite clz_pos by wsolve.
  set (a := 16 * q) in *. assert (0 < a <= 1073741808) as Ha by lia.
  pose proof (Z.log2_spec a ltac:(lia)) as Hl. replace (Z.succ (Z.log2 a)) with (Z.log2 a + 1) in Hl by lia.
  set (l := Z.log2 a) in *.
  assert (4 <= l) as Hl4 by (apply Z.log2_le_pow2; change (2 ^ 4) with 16; lia).
  assert (l < 30) as Hl30 by (apply Z.log2_lt_pow2; change (2 ^ 30) with 1073741824; lia).
  rewrite (proj2 (Z.ltb_ge _ _)) by lia.
  replace (31 - l + 1) with (32 - l) by lia.
  assert (∀ k, 0 <= k <= 30 → s32 (Z.shiftl 1 k) = 2 ^ k) as Hsh.
  { intros k Hk. rewrite Z.shiftl_1_l. apply s32_small.
    pose proof (Z.pow_le_mono_r 2 k 30 ltac:(lia) ltac:(lia)).
    pose proof (Z.pow_pos_nonneg 2 k ltac:(lia) ltac:(lia)).
    change (2 ^ 30) with 1073741824 in *. wsolve. }
  replace (8 * 4 - (31 - l) - 1) with l by lia. replace (8 * 4 - (31 - l)) with (l + 1) by lia.
  rewrite !Hsh by lia.
  pose proof (low_bits_zero a l ltac:(lia) Hl) as Hz.
  assert (∃ m, 2 ^ l = 16 * m) as [m Hm].
  { exists (2 ^ (l - 4)). change 16 with (2 ^ 4). rewrite <- Z.pow_add_r by lia. f_equal. lia. }
  destruct (Z.eqb_spec (s32 (Z.shiftl a (32 - l))) 0) as [He|He]; cbn [negb].
  - apply Hz in He. exists l. split; [done|]. split; [lia|]. split; [lia|]. intros H16.
    assert (2 ^ l = 2 * 2 ^ (l - 1)) as Hp.
    { rewrite <- Z.pow_succ_r by lia. f_equal. lia. }
    assert (4 < l) as Hl5 by (apply (Z.pow_lt_mono_r_iff 2); try lia; change (2 ^ 4) with 16; lia).
    assert (2 ^ l = 32 * 2 ^ (l - 5)) as Hp5.
    { change 32 with (2 ^ 5). rewrite <- Z.pow_add_r by lia. f_equal. lia. }
    lia.
  - exists (l + 1). split; [done|]. split; [lia|]. split; [lia|]. intros _.
    replace (l + 1 - 1) with l by lia. assert (a ≠ 2 ^ l) by tauto. lia.
Qed.

Lemma chunk_size_other size :
  size = 0 ∨ 2 ^ 30 - 16 < size < 2 ^ 31 → _ntc_mm_chunk_size size = Some 0.
Proof.
  intros [->|Hs]; [done|]. change (2 ^ 30 - 16) with 1073741808 in Hs. rewrite pow2_31 in Hs.
  unfold _ntc_mm_chunk_size. rewrite (proj2 (Z.eqb_neq _ _)) by lia. rewrite ALIGN16_eq.
  set (q := (size + 15) / 16).
  assert (67108864 <= q <= 134217728) as Hq.
  { subst q. Z.to_euclidean_division_equations. lia. }
  cbv zeta. destruct (decide (q = 134217728)) as [->|]; [vm_compute; reflexivity|].
  rewrite s32_small, clz_pos by wsolve.
  assert (30 <= Z.log2 (16 * q)) by (apply Z.log2_le_pow2; [lia|]; change (2 ^ 30) with 1073741824; lia).
  by rewrite (proj2 (Z.ltb_lt _ _)) by lia.
Qed.

(** ** The chunks

    [live] lists the chunks in use, as pointer and chunk size; [fl c] is the
    free list of the chunks of size [c]. *)

Definition chunks_disjoint (x y : Z * Z) : Prop :=
  fst x + snd x <= fst y ∨ fst y + snd y <= fst x.

(** The free list that starts at [h]. *)
Fixpoint chain (w : Z → Z) (h : Z) (l : list Z) : Prop :=
  match l with
  | [] => h = 0
  | p :: l => h = p ∧ p ≠ 0 ∧ entry_magic w p = FREE_MAGIC ∧ chain w (entry_next w p) l
  end.

Definition is_chunk (live : list (Z * Z)) (fl : Z → list Z) (x : Z * Z) : Prop :=
  x ∈ live ∨ fst x ∈ fl (snd x).

Section Inv.
(** A property of the bounds of the region, which no operation moves. *)
Context (P : Z → Z → Prop).

Record mm_inv (mm : ntc_mm) (live : list (Z * Z)) (fl : Z → list Z) : Prop := {
  mi_region : 0 < mm_memory mm <= mm_brk mm ∧ mm_brk mm <= mm_end mm < 2 ^ 64 ∧ (16 | mm_brk mm)
    ∧ P (mm_memory mm) (mm_end mm);
  mi_chunk x : is_chunk live fl x →
    (16 | fst x) ∧ 16 <= snd x ∧ mm_memory mm <= fst x ∧ fst x + snd x <= mm_brk mm;
  mi_disj x y : is_chunk live fl x → is_chunk live fl y → x = y ∨ chunks_disjoint x y;
  mi_excl x : x ∈ live → fst x ∉ fl (snd x);
  mi_live : NoDup live;
  mi_free c : NoDup (fl c);
  mi_fixed c f : mm_fixed mm !! c = Some f →
    0 < c ∧ fm_magic f = FIXED_MAGIC ∧ chain (mm_words mm) (fm_free f) (fl c);
  mi_none c : mm_fixed mm !! c = None → fl c = [];
  mi_known x : x ∈ live → is_Some (mm_fixed mm !! snd x) }.

Lemma chain_frame w w' h l :
  (∀ q, q ∈ l → w' q = w q ∧ w' (q + 8) = w (q + 8)) → chain w h l → chain w' h l.
Proof.
  revert h. induction l as [|p l IH]; intros h Hw H; [done|].
  destruct H as (-> & Hp & Hm & H). unfold chain, entry_magic, entry_next in *. fold chain in *.
  destruct (Hw p ltac:(left)) as [H1 H2]. rewrite H1, H2. do 3 (split; [done|]).
  apply IH; [|done]. intros q Hq. apply Hw. by right.
Qed.

(** Writing outside the free chunks is harmless. *)
Lemma words_inv mm live fl w' :
  mm_inv mm live fl →
  (∀ c q, q ∈ fl c → w' q = mm_words mm q ∧ w' (q + 8) = mm_words mm (q + 8)) →
  mm_inv (mm_set_words w' mm) live fl.
Proof.
  intros H Hw. constructor; try apply H.
  intros c f Hf. destruct (mi_fixed _ _ _ H c f Hf) as (Hc & Hm & Hch).
  do 2 (split; [done|]). eapply chain_frame; [|exact Hch]. intros q Hq. by apply (Hw c).
Qed.

(** A word of a live chunk is not part of a free one. *)
Lemma live_apart mm live fl x c q a :
  mm_inv mm live fl → x ∈ live → q ∈ fl c → fst x <= a < fst x + snd x → a ≠ q ∧ a ≠ q + 8.
Proof.
  intros H Hx Hq Ha. assert (is_chunk live fl (q, c)) as Hqc by (by right).
  destruct (mi_disj _ _ _ H x (q, c)) as [->|Hd]; [by left|done| |].
  - by destruct (mi_excl _ _ _ H _ Hx).
  - destruct (mi_chunk _ _ _ H _ Hqc) as (_ & H16 & _). unfold chunks_disjoint in Hd.
    cbn [fst snd] in *. lia.
Qed.

Lemma write_inv mm live fl x a v :
  mm_inv mm live fl → x ∈ live → fst x <= a < fst x + snd x →
  mm_inv (mm_set_words (set_word a v (mm_words mm)) mm) live fl.
Proof.
  intros H Hx Ha. apply words_inv; [done|]. intros c q Hq. unfold set_word.
  destruct (live_apart mm live fl x c q a H Hx Hq Ha) as [H1 H2].
  by rewrite !(proj2 (Z.eqb_neq _ _)) by done.
Qed.

Lemma zero_inv mm live fl x zero :
  mm_inv mm live fl → x ∈ live → mm_inv (zero_chunk zero (fst x) (snd x) mm) live fl.
Proof.
  intros H Hx. destruct zero; [|done]. apply words_inv; [done|]. intros c q Hq. unfold memset0.
  pose proof (live_apart mm live fl x c q) as Ha.
  split; destruct (Z.leb_spec (fst x) q), (Z.ltb_spec q (fst x + snd x)),
    (Z.leb_spec (fst x) (q + 8)), (Z.ltb_spec (q + 8) (fst x + snd x)); cbn [andb]; try done; exfalso.
  all: first [by destruct (Ha q H Hx Hq ltac:(lia)) | by destruct (Ha (q + 8) H Hx Hq ltac:(lia))].
Qed.

(** A new free list. *)
Lemma get_fixed_inv mm live fl ka ik c :
  mm_inv mm live fl → 0 <= c →
  ∃ r mm', _ntc_mm_get_fixed ka ik c mm = Some (r, mm') ∧ mm_inv mm' live fl
    ∧ mm_words mm' = mm_words mm ∧ mm_brk mm' = mm_brk mm ∧ mm_end mm' = mm_end mm
    ∧ mm_memory mm' = mm_memory mm
    ∧ match r with inl e => e < 0 | inr f => mm_fixed mm' !! c = Some f ∧ 0 < c end.
Proof.
  intros H Hc. unfold _ntc_mm_get_fixed. destruct (mm_fixed mm !! c) as [f|] eqn:Hf.
  { destruct (mi_fixed _ _ _ H c f Hf) as (Hc0 & Hm & _). rewrite Hm. cbn.
    exists (inr f), mm. by split_and!. }
  destruct (Z.leb_spec c 0); [by exists (inl (- EINVAL)), mm|].
  destruct ka; cbn [negb]; [|by exists (inl (- ENOMEM)), mm].
  unfold idr_alloc. destruct ik; cbn [negb].
  2:{ cbn. by exists (inl (- ENOMEM)), mm. }
  destruct (decide (is_Some (mm_fixed mm !! c))) as [[f Hs]|_]; [congruence|].
  rewrite (proj2 (Z.ltb_ge _ _)) by lia.
  exists (inr ntc_mm_fixed_init), (mm_set_fixed c ntc_mm_fixed_init mm).
  cbn [mm_set_fixed mm_words mm_brk mm_end mm_memory mm_fixed].
  rewrite lookup_insert_eq. split; [done|]. split; [|by split_and!].
  constructor; try apply H; cbn [mm_set_fixed mm_words mm_fixed].
  - intros c' f'. destruct (decide (c' = c)) as [->|].
    + rewrite lookup_insert_eq. intros [= <-]. split; [lia|]. split; [done|].
      by rewrite (mi_none _ _ _ H c Hf).
    + rewrite lookup_insert_ne by done. apply H.
  - intros c'. destruct (decide (c' = c)) as [->|]; [by rewrite lookup_insert_eq|].
    rewrite lookup_insert_ne by done. apply H.
  - intros x Hx. destruct (decide (snd x = c)) as [->|]; [rewrite lookup_insert_eq; by eexists|].
    rewrite lookup_insert_ne by done. by apply (mi_known _ _ _ H).
Qed.

(** A chunk cut off the end of the used part. *)
Lemma sbrk_inv mm live fl c :
  mm_inv mm live fl → 16 <= c < 2 ^ 31 → (16 | c) → is_Some (mm_fixed mm !! c) →
  match ntc_mm_sbrk c mm with
  | (Err e, mm') => e < 0 ∧ mm' = mm
  | (Ptr p, mm') => p = mm_brk mm ∧ mm_inv mm' ((p, c) :: live) fl ∧ mm_fixed mm' = mm_fixed mm
                    ∧ mm_words mm' = mm_words mm
  end.
Proof.
  intros H Hc Hc16 Hf. destruct (mi_region _ _ _ H) as (Hm & He & Hb & HP). unfold ntc_mm_sbrk.
  rewrite (proj2 (Z.ltb_ge _ _)) by lia.
  destruct (Z.ltb_spec (u64 (mm_brk mm + c)) (mm_brk mm)) as [|Hov]; [done|].
  destruct (Z.ltb_spec (mm_end mm) (u64 (mm_brk mm + c))) as [|Hend]; [done|].
  assert (u64 (mm_brk mm + c) = mm_brk mm + c) as Hu.
  { unfold u64 in *. rewrite pow2_64, pow2_31 in *. Z.to_euclidean_division_equations. lia. }
  rewrite Hu in *.
  assert (∀ x, is_chunk ((mm_brk mm, c) :: live) fl x → x = (mm_brk mm, c) ∨ is_chunk live fl x) as Hcases.
  { intros x [Hx|Hx]; [|by right; right]. apply list.elem_of_cons in Hx as [->|]; [by left|by right; left]. }
  assert (∀ x, is_chunk live fl x → fst x + snd x <= mm_brk mm ∧ 16 <= snd x) as Hbelow.
  { intros x Hx. by destruct (mi_chunk _ _ _ H x Hx) as (_ & ? & _ & ?). }
  split; [done|]. split; [|done]. constructor; cbn [mm_set_brk mm_memory mm_brk mm_end mm_fixed mm_words].
  - split; [lia|]. split; [lia|]. split; [by apply Z.divide_add_r|done].
  - intros x [->|Hx]%Hcases; [cbn [fst snd]; repeat split; try done; lia|].
    destruct (mi_chunk _ _ _ H x Hx) as (? & ? & ? & ?). repeat split; try done; lia.
  - intros x y [->|Hx]%Hcases [->|Hy]%Hcases; [by left| | |by apply H].
    + right. right. cbn [fst snd]. by apply Hbelow.
    + right. left. cbn [fst snd]. by apply Hbelow.
  - intros x [->|Hx]%list.elem_of_cons; [|by apply H]. cbn [fst snd]. intros Hq.
    destruct (Hbelow (mm_brk mm, c) ltac:(by right)) as [Hlt _]. cbn [fst snd] in Hlt. lia.
  - constructor; [|apply H]. intros Hq.
    destruct (Hbelow (mm_brk mm, c) ltac:(by left)) as [Hlt _]. cbn [fst snd] in Hlt. lia.
  - apply H.
  - apply H.
  - apply H.
  - intros x [->|Hx]%list.elem_of_cons; [done|]. by apply (mi_known _ _ _ H).
Qed.

(** Taking the first chunk of a free list. *)
Lemma pop_inv mm live fl c f p l :
  mm_inv mm live fl → mm_fixed mm !! c = Some f → fl c = p :: l →
  fm_free f = p ∧ p ≠ 0 ∧ entry_magic (mm_words mm) p = FREE_MAGIC
  ∧ mm_inv (mm_set_fixed c (mk_fixed (entry_next (mm_words mm) p) (fm_magic f)) mm)
      ((p, c) :: live) (<[c := l]> fl).
Proof.
  intros H Hf Hl. destruct (mi_fixed _ _ _ H c f Hf) as (Hc & Hmg & Hch).
  rewrite Hl in Hch. destruct Hch as (Hp & Hp0 & Hm & Hch).
  pose proof (mi_free _ _ _ H c) as Hnd. rewrite Hl in Hnd. apply list.NoDup_cons in Hnd as [Hpl Hnd].
  do 3 (split; [done|]).
  assert (∀ x, is_chunk ((p, c) :: live) (<[c := l]> fl) x → is_chunk live fl x) as Hcases.
  { intros [q c'] [Hx|Hx].
    - apply list.elem_of_cons in Hx as [[= -> ->]|]; [right; cbn; rewrite Hl; left|by left].
    - cbn [fst snd] in Hx. right. cbn [fst snd]. destruct (decide (c' = c)) as [->|].
      + rewrite fn_lookup_insert in Hx. rewrite Hl. by right.
      + by rewrite fn_lookup_insert_ne in Hx. }
  constructor; cbn [mm_set_fixed mm_memory mm_brk mm_end mm_fixed mm_words].
  - apply H.
  - intros x Hx. by apply (mi_chunk _ _ _ H), Hcases.
  - intros x y Hx Hy. apply (mi_disj _ _ _ H); by apply Hcases.
  - intros [q c'] [[= -> ->]|Hx]%list.elem_of_cons; cbn [fst snd]; [by rewrite fn_lookup_insert|].
    pose proof (mi_excl _ _ _ H _ Hx) as Hn. cbn [fst snd] in Hn.
    destruct (decide (c' = c)) as [->|]; [|by rewrite fn_lookup_insert_ne].
    rewrite fn_lookup_insert. rewrite Hl in Hn. intros ?. apply Hn. by right.
  - constructor; [|apply H]. intros Hx. apply (mi_excl _ _ _ H) in Hx. cbn in Hx.
    rewrite Hl in Hx. apply Hx. left.
  - intros c'. destruct (decide (c' = c)) as [->|]; [by rewrite fn_lookup_insert|].
    rewrite fn_lookup_insert_ne by done. apply H.
  - intros c' f'. destruct (decide (c' = c)) as [->|].
    + rewrite lookup_insert_eq, fn_lookup_insert. by intros [= <-].
    + rewrite lookup_insert_ne, fn_lookup_insert_ne by done. apply H.
  - intros c'. destruct (decide (c' = c)) as [->|]; [by rewrite lookup_insert_eq|].
    rewrite lookup_insert_ne, fn_lookup_insert_ne by done. apply H.
  - intros [q c'] [[= -> ->]|Hx]%list.elem_of_cons; cbn [snd]; [rewrite lookup_insert_eq; by eexists|].
    destruct (decide (c' = c)) as [->|]; [rewrite lookup_insert_eq; by eexists|].
    rewrite lookup_insert_ne by done. by apply (mi_known _ _ _ H _ Hx).
Qed.

(** Giving a chunk back to its free list. *)
Definition drop_chunk (x : Z * Z) (live : list (Z * Z)) : list (Z * Z) := filter (λ y, y ≠ x) live.

Lemma push_inv mm live fl p c f f' w' :
  mm_inv mm live fl → (p, c) ∈ live → mm_fixed mm !! c = Some f →
  ntc_mm_fixed_free f p (mm_words mm) = (f', w') →
  mm_inv (mm_set_words w' (mm_set_fixed c f' mm)) (drop_chunk (p, c) live) (<[c := p :: fl c]> fl).
Proof.
  intros H Hx Hf [= <- <-]. destruct (mi_fixed _ _ _ H c f Hf) as (Hc & Hmg & Hch).
  destruct (mi_chunk _ _ _ H (p, c)) as (_ & Hc16 & Hp & _); [by left|].
  destruct (mi_region _ _ _ H) as (Hm & _). cbn [fst snd] in Hc16, Hp.
  assert (∀ x, is_chunk (drop_chunk (p, c) live) (<[c := p :: fl c]> fl) x → is_chunk live fl x) as Hcases.
  { intros [q c'] [Hy|Hy].
    - apply list_elem_of_filter in Hy as [_ Hy]. by left.
    - cbn [fst snd] in Hy. destruct (decide (c' = c)) as [->|].
      + rewrite fn_lookup_insert in Hy. apply list.elem_of_cons in Hy as [->|]; [by left|by right].
      + rewrite fn_lookup_insert_ne in Hy by done. by right. }
  set (w' := set_word (p + 8) FREE_MAGIC (set_word p (fm_free f) (mm_words mm))).
  assert (∀ c' q, q ∈ fl c' → w' q = mm_words mm q ∧ w' (q + 8) = mm_words mm (q + 8)) as Hw.
  { intros c' q Hq. unfold w', set_word.
    destruct (live_apart mm live fl (p, c) c' q p H Hx Hq) as [? ?]; [cbn [fst snd]; lia|].
    destruct (live_apart mm live fl (p, c) c' q (p + 8) H Hx Hq) as [? ?]; [cbn [fst snd]; lia|].
    by rewrite !(proj2 (Z.eqb_neq _ _)) by lia. }
  constructor; cbn [mm_set_words mm_set_fixed mm_memory mm_brk mm_end mm_fixed mm_words].
  - apply H.
  - intros x Hy. by apply (mi_chunk _ _ _ H), Hcases.
  - intros x y Hy Hz. apply (mi_disj _ _ _ H); by apply Hcases.
  - intros [q c'] [Hne Hy]%list_elem_of_filter. pose proof (mi_excl _ _ _ H _ Hy) as Hn.
    cbn [fst snd] in *. destruct (decide (c' = c)) as [->|]; [|by rewrite fn_lookup_insert_ne].
    rewrite fn_lookup_insert. by intros [->|]%list.elem_of_cons.
  - apply list.NoDup_filter, H.
  - intros c'. destruct (decide (c' = c)) as [->|].
    + rewrite fn_lookup_insert. constructor; [by apply (mi_excl _ _ _ H (p, c))|apply H].
    + rewrite fn_lookup_insert_ne by done. apply H.
  - intros c' f'. destruct (decide (c' = c)) as [->|].
    + rewrite lookup_insert_eq, fn_lookup_insert. intros [= <-]. split; [done|]. split; [done|].
      cbn [chain fm_free]. split; [done|]. split; [lia|]. unfold entry_magic, entry_next, w', set_word.
      rewrite Z.eqb_refl. split; [done|]. rewrite (proj2 (Z.eqb_neq p (p + 8))), Z.eqb_refl by lia.
      eapply chain_frame; [|exact Hch]. intros q Hq. by apply (Hw c).
    + rewrite lookup_insert_ne, fn_lookup_insert_ne by done. intros Hf'.
      destruct (mi_fixed _ _ _ H c' f' Hf') as (? & ? & Hch'). do 2 (split; [done|]).
      eapply chain_frame; [|exact Hch']. intros q Hq. by apply (Hw c').
  - intros c'. destruct (decide (c' = c)) as [->|]; [by rewrite lookup_insert_eq|].
    rewrite lookup_insert_ne, fn_lookup_insert_ne by done. apply H.
  - intros [q c'] [_ Hy]%list_elem_of_filter. cbn [snd].
    destruct (decide (c' = c)) as [->|]; [rewrite lookup_insert_eq; by eexists|].
    rewrite lookup_insert_ne by done. by apply (mi_known _ _ _ H _ Hy).
Qed.

(** ** The operations *)

(** The sizes a chunk can have. *)
Definition size_ok (c : Z) : Prop := c = 0 ∨ (16 <= c < 2 ^ 31 ∧ (16 | c)).

Lemma chunk_size_ok size :
  0 < size < 2 ^ 31 → ∃ c, _ntc_mm_chunk_size size = Some c ∧ size_ok c ∧ (c ≠ 0 → size <= c).
Proof.
  intros Hs. destruct (decide (size <= 2 ^ 30 - 16)).
  - destruct (chunk_size_spec size) as (k & -> & Hk & Hle & _); [lia|].
    exists (2 ^ k). split; [done|]. split; [|done]. right.
    assert (2 ^ k = 16 * 2 ^ (k - 4)) as Hp.
    { change 16 with (2 ^ 4). rewrite <- Z.pow_add_r by lia. f_equal. lia. }
    pose proof (Z.pow_pos_nonneg 2 (k - 4) ltac:(lia) ltac:(lia)).
    pose proof (Z.pow_le_mono_r 2 k 30 ltac:(lia) ltac:(lia)).
    change (2 ^ 30) with 1073741824 in *. rewrite pow2_31. split; [lia|].
    exists (2 ^ (k - 4)). lia.
  - exists 0. rewrite chunk_size_other by lia. split; [done|]. split; [by left|done].
Qed.

Lemma alloc_inv ka ik zero size c mm live fl :
  mm_inv mm live fl → _ntc_mm_chunk_size size = Some c → size_ok c →
  ∃ r mm', ntc_mm_alloc ka ik zero size mm = Some (r, mm')
    ∧ match r with
      | Err e => e < 0 ∧ mm_inv mm' live fl
      | Ptr p => c ≠ 0 ∧ (∃ fl', mm_inv mm' ((p, c) :: live) fl')
          ∧ (zero = true → ∀ a, p <= a < p + c → mm_words mm' a = 0)
          ∧ (∀ x a, x ∈ live → fst x <= a < fst x + snd x → mm_words mm' a = mm_words mm a)
      end.
Proof.
  intros H Hc Hok. unfold ntc_mm_alloc. rewrite Hc.
  destruct (get_fixed_inv mm live fl ka ik c H) as (r & mm1 & -> & H1 & Hw1 & _ & _ & _ & Hr);
    [destruct Hok; lia|].
  destruct r as [e|f]; [by exists (Err e), mm1|]. destruct Hr as [Hf Hc0].
  destruct Hok as [|[Hc16 Hdiv]]; [lia|].
  destruct (mi_fixed _ _ _ H1 c f Hf) as (_ & _ & Hch).
  assert (∀ mm2 p fl2, mm_inv mm2 ((p, c) :: live) fl2 → mm_words mm2 = mm_words mm1 →
    c ≠ 0 ∧ (∃ fl', mm_inv (zero_chunk zero p c mm2) ((p, c) :: live) fl')
    ∧ (zero = true → ∀ a, p <= a < p + c → mm_words (zero_chunk zero p c mm2) a = 0)
    ∧ (∀ x a, x ∈ live → fst x <= a < fst x + snd x →
         mm_words (zero_chunk zero p c mm2) a = mm_words mm a)) as Hdone.
  { intros mm2 p fl2 H2 Hw2. split; [lia|]. split.
    { exists fl2. apply (zero_inv _ _ _ (p, c)); [done|left]. }
    split.
    - intros -> a Ha. cbn. unfold memset0.
      by rewrite (proj2 (Z.leb_le _ _)), (proj2 (Z.ltb_lt _ _)) by lia.
    - intros x a Hx Ha. rewrite <- Hw1, <- Hw2. destruct zero; [|done]. cbn. unfold memset0.
      pose proof (mi_live _ _ _ H2) as Hnd. apply list.NoDup_cons in Hnd as [Hn _].
      destruct (mi_disj _ _ _ H2 x (p, c)) as [->|Hd]; [left; by right|left; left|done|].
      unfold chunks_disjoint in Hd. cbn [fst snd] in Hd.
      destruct (Z.leb_spec p a), (Z.ltb_spec a (p + c)); cbn; try done. lia. }
  unfold ntc_mm_fixed_alloc. destruct (fl c) as [|p l] eqn:Hl.
  - cbn in Hch. rewrite Hch. cbn [Z.eqb negb].
    pose proof (sbrk_inv mm1 live fl c H1 Hc16 Hdiv ltac:(by eexists)) as Hs.
    destruct (ntc_mm_sbrk c mm1) as [[p|e] mm2].
    + destruct Hs as (Hp & H2 & _ & Hw2). eexists (Ptr p), _. split; [done|]. by eapply Hdone.
    + destruct Hs as [He ->]. by exists (Err e), mm1.
  - destruct (pop_inv mm1 live fl c f p l H1 Hf Hl) as (-> & Hp0 & Hm & H2).
    rewrite (proj2 (Z.eqb_neq _ _)), Hm, Z.eqb_refl by done. cbn [negb].
    eexists (Ptr p), _. split; [done|]. by eapply Hdone.
Qed.

Lemma free_inv size c p mm live fl :
  mm_inv mm live fl → _ntc_mm_chunk_size size = Some c → (p, c) ∈ live →
  ∃ mm' fl', ntc_mm_free p size mm = Some mm' ∧ mm_inv mm' (drop_chunk (p, c) live) fl'.
Proof.
  intros H Hc Hx. unfold ntc_mm_free. rewrite Hc.
  destruct (mi_known _ _ _ H _ Hx) as [f Hf]. cbn [snd] in Hf. rewrite Hf.
  destruct (mi_fixed _ _ _ H c f Hf) as (_ & -> & _). cbn [negb Z.eqb].
  rewrite Z.eqb_refl. cbn [negb].
  destruct (ntc_mm_fixed_free f p (mm_words mm)) as [f' w'] eqn:He.
  eexists _, _. split; [done|]. by eapply push_inv.
Qed.

Lemma preinit_loop_inv n i num c mm live fl :
  mm_inv mm live fl → 16 <= c < 2 ^ 31 → (16 | c) → is_Some (mm_fixed mm !! c) →
  ∃ rc mm' fl', preinit_loop n i num c mm = Some (rc, mm') ∧ mm_inv mm' live fl'.
Proof.
  revert i mm fl. induction n as [|n IH]; intros i mm fl H Hc Hdiv Hf; cbn [preinit_loop].
  { by exists num, mm, fl. }
  pose proof (sbrk_inv mm live fl c H Hc Hdiv Hf) as Hs.
  destruct (ntc_mm_sbrk c mm) as [[p|e] mm1].
  2:{ destruct Hs as [_ ->]. by eexists _, mm, fl. }
  destruct Hs as (_ & H1 & Hf1 & _). destruct Hf as [f Hf]. rewrite Hf1, Hf.
  destruct (ntc_mm_fixed_free f p (mm_words mm1)) as [f' w'] eqn:He.
  assert (drop_chunk (p, c) ((p, c) :: live) = live) as Hdrop.
  { unfold drop_chunk. rewrite filter_cons_False by tauto. apply list_filter_all.
    intros x Hx ->. pose proof (mi_live _ _ _ H1) as Hnd. by apply list.NoDup_cons in Hnd as [? _]. }
  eapply IH; try done.
  - rewrite <- Hdrop. eapply push_inv; [exact H1|left|by rewrite Hf1|exact He].
  - cbn [mm_set_words mm_set_fixed mm_fixed]. rewrite lookup_insert_eq. by eexists.
Qed.

Lemma preinit_inv ka ik size c num mm live fl :
  mm_inv mm live fl → _ntc_mm_chunk_size size = Some c → size_ok c →
  ∃ rc mm' fl', ntc_mm_preinit ka ik size num mm = Some (rc, mm') ∧ mm_inv mm' live fl'.
Proof.
  intros H Hc Hok. unfold ntc_mm_preinit. rewrite Hc.
  destruct (get_fixed_inv mm live fl ka ik c H) as (r & mm1 & -> & H1 & _ & _ & _ & _ & Hr);
    [destruct Hok; lia|].
  destruct r as [e|f]; [by exists e, mm1, fl|]. destruct Hr as [Hf Hc0].
  destruct Hok as [|[Hc16 Hdiv]]; [lia|]. eapply preinit_loop_inv; done.
Qed.

End Inv.

(** ** Runs

    Users allocate, free what they hold, and write to it as they like. *)

Definition size_arg (size : Z) : Prop := 0 < size < 2 ^ 31.

Inductive mm_step : ntc_mm * list (Z * Z) → ntc_mm * list (Z * Z) → Prop :=
  | step_alloc ka ik zero size c mm p mm' live :
      size_arg size → _ntc_mm_chunk_size size = Some c →
      ntc_mm_alloc ka ik zero size mm = Some (Ptr p, mm') →
      mm_step (mm, live) (mm', (p, c) :: live)
  | step_alloc_err ka ik zero size mm e mm' live :
      size_arg size → ntc_mm_alloc ka ik zero size mm = Some (Err e, mm') →
      mm_step (mm, live) (mm', live)
  | step_preinit ka ik size num mm rc mm' live :
      size_arg size → ntc_mm_preinit ka ik size num mm = Some (rc, mm') →
      mm_step (mm, live) (mm', live)
  | step_free size c p mm mm' live :
      _ntc_mm_chunk_size size = Some c → (p, c) ∈ live → ntc_mm_free p size mm = Some mm' →
      mm_step (mm, live) (mm', drop_chunk (p, c) live)
  | step_write mm live p c a v :
      (p, c) ∈ live → p <= a < p + c →
      mm_step (mm, live) (mm_set_words (set_word a v (mm_words mm)) mm, live).

Definition within (lo hi : Z) (m e : Z) : Prop := lo <= m ∧ (lo < hi → e <= hi).

Lemma mm_init_inv memory size w mm :
  0 < memory → 0 <= size → memory + size + 16 < 2 ^ 64 →
  ntc_mm_init memory size w = Some mm →
  mm_inv (within memory (memory + size)) mm [] (λ _, []).
Proof.
  intros Hm Hs Hms Hinit. unfold ntc_mm_init, _ntc_mm_round_up_ptr in Hinit.
  rewrite ALIGN16_eq in Hinit. rewrite pow2_64 in Hms.
  assert (memory <= 16 * ((memory + 15) / 16) < memory + 16) as Hq by (Z.to_euclidean_division_equations; lia).
  set (q := (memory + 15) / 16) in *. rewrite (u64_small (16 * q)) in Hinit by wsolve.
  match type of Hinit with (if u64 (_ + ?x) <? _ then _ else _) = _ => set (sz := x) in * end.
  destruct (Z.ltb_spec (u64 (16 * q + sz)) (16 * q)) as [|Hge]; [done|].
  apply (inj Some) in Hinit. subst mm.
  assert (0 <= u64 (16 * q + sz) < 2 ^ 64) as Hr by apply u64_range.
  assert (0 < size → u64 (16 * q + sz) = memory + size) as Hend.
  { intros Hpos. unfold sz in *. rewrite (proj2 (Z.eqb_neq _ _)) in * by lia.
    unfold u64 in *. rewrite Zplus_mod_idemp_r in *.
    replace (16 * q + (size - (16 * q - memory))) with (memory + size) in * by lia.
    by rewrite Z.mod_small by (rewrite pow2_64; lia). }
  constructor; cbn [mm_memory mm_brk mm_end mm_fixed mm_words].
  - split; [lia|]. split; [lia|]. split; [exists q; lia|].
    split; [lia|]. intros ?. rewrite Hend; lia.
  - intros x [Hx|Hx]; by apply elem_of_nil in Hx.
  - intros x y [Hx|Hx]; by apply elem_of_nil in Hx.
  - intros x Hx. by apply elem_of_nil in Hx.
  - constructor.
  - constructor.
  - intros c f. by rewrite lookup_empty.
  - done.
  - intros x Hx. by apply elem_of_nil in Hx.
Qed.

Lemma mm_step_inv P s s' fl :
  mm_step s s' → mm_inv P (fst s) (snd s) fl → ∃ fl', mm_inv P (fst s') (snd s') fl'.
Proof.
  intros Hstep H. destruct Hstep as [ka ik zero size c mm p mm' live Hs Hc Hr
    |ka ik zero size mm e mm' live Hs Hr|ka ik size num mm rc mm' live Hs Hr
    |size c p mm mm' live Hc Hx Hr|mm live p c a v Hx Ha]; cbn [fst snd] in *.
  - destruct (chunk_size_ok size Hs) as (c' & Hc' & Hok & _). simplify_eq.
    destruct (alloc_inv P ka ik zero size c mm live fl H Hc Hok) as (r & mm2 & Hr' & Hres).
    rewrite Hr in Hr'. simplify_eq. by destruct Hres as (_ & ? & _).
  - destruct (chunk_size_ok size Hs) as (c & Hc & Hok & _).
    destruct (alloc_inv P ka ik zero size c mm live fl H Hc Hok) as (r & mm2 & Hr' & Hres).
    rewrite Hr in Hr'. simplify_eq. destruct Hres. by exists fl.
  - destruct (chunk_size_ok size Hs) as (c & Hc & Hok & _).
    destruct (preinit_inv P ka ik size c num mm live fl H Hc Hok) as (r & mm2 & fl' & Hr' & Hres).
    rewrite Hr in Hr'. simplify_eq. by exists fl'.
  - destruct (free_inv P size c p mm live fl H Hc Hx) as (mm2 & fl' & Hr' & Hres).
    rewrite Hr in Hr'. simplify_eq. by exists fl'.
  - exists fl. by apply (write_inv _ _ _ _ (p, c)).
Qed.

Definition mm_reaches (memory size : Z) (w : Z → Z) (mm : ntc_mm) (live : list (Z * Z)) : Prop :=
  0 < memory ∧ 0 <= size ∧ memory + size + 16 < 2 ^ 64
  ∧ ∃ mm0, ntc_mm_init memory size w = Some mm0 ∧ rtc mm_step (mm0, []) (mm, live).

Lemma reaches_inv memory size w mm live :
  mm_reaches memory size w mm live →
  ∃ fl, mm_inv (within memory (memory + size)) mm live fl.
Proof.
  intros (Hm & Hs & Hms & mm0 & Hinit & Hr).
  pose proof (mm_init_inv memory size w mm0 Hm Hs Hms Hinit) as H0.
  assert (∀ s s', rtc mm_step s s' → ∀ fl, mm_inv (within memory (memory + size)) (fst s) (snd s) fl →
    ∃ fl', mm_inv (within memory (memory + size)) (fst s') (snd s') fl') as Hind.
  { induction 1 as [s|s1 s2 s3 H12 H23 IH]; intros fl H; [by exists fl|].
    destruct (mm_step_inv _ _ _ _ H12 H) as [fl' H']. by apply (IH fl'). }
  by apply (Hind _ _ Hr (λ _, [])).
Qed.

(** ** Theorems *)

(** A chunk is the smallest power of two that is at least 16 and at least
    the size asked for, for every size up to 2^30 - 16; larger sizes and 0 get
    the chunk size 0, which the allocator refuses. *)
Theorem mm_chunk_size_correct size :
  0 <= size < 2 ^ 31 →
  (0 < size <= 2 ^ 30 - 16 → ∃ k, _ntc_mm_chunk_size size = Some (2 ^ k)
     ∧ 4 <= k <= 30 ∧ size <= 2 ^ k ∧ ∀ j, 4 <= j → size <= 2 ^ j → k <= j)
  ∧ (size = 0 ∨ 2 ^ 30 - 16 < size → _ntc_mm_chunk_size size = Some 0).
Proof.
  intros Hs. split.
  - intros Hsz. destruct (chunk_size_spec size Hsz) as (k & Hk & Hk4 & Hle & Hmin).
    exists k. do 3 (split; [done|]). intros j Hj Hj'.
    destruct (decide (16 < size)) as [H16|H16].
    + specialize (Hmin H16). destruct (decide (k <= j)); [done|].
      pose proof (Z.pow_le_mono_r 2 j (k - 1) ltac:(lia) ltac:(lia)). lia.
    + destruct (decide (k = 4)); [lia|]. exfalso.
      assert (_ntc_mm_chunk_size size = Some 16) as H; [|rewrite H in Hk; simplify_eq].
      { assert (size = 1 ∨ size = 2 ∨ size = 3 ∨ size = 4 ∨ size = 5 ∨ size = 6 ∨ size = 7 ∨ size = 8
          ∨ size = 9 ∨ size = 10 ∨ size = 11 ∨ size = 12 ∨ size = 13 ∨ size = 14 ∨ size = 15 ∨ size = 16)
          as Hcases by lia.
        by repeat destruct Hcases as [-> | Hcases]; [vm_compute..|subst size; vm_compute]. }
      pose proof (Z.pow_le_mono_r 2 5 k ltac:(lia) ltac:(lia)). change (2 ^ 5) with 32 in *. lia.
  - intros Hz. apply chunk_size_other. lia.
Qed.

Lemma mm_chunk_size_correct_witness :
  _ntc_mm_chunk_size 33 = Some 64
  ∧ ∃ k, _ntc_mm_chunk_size 33 = Some (2 ^ k) ∧ 4 <= k <= 30 ∧ 33 <= 2 ^ k.
Proof.
  split; [reflexivity|].
  destruct (proj1 (mm_chunk_size_correct 33 ltac:(split; [discriminate|reflexivity]))
    ltac:(split; [reflexivity|discriminate])) as (k & H1 & H2 & H3 & _).
  exists k. split; [exact H1|]. split; [exact H2|exact H3].
Defined.

(** C24: whatever was allocated, freed, preallocated and written before, within
    what was held, the chunks in use lie in the region, do not overlap, are
    aligned; and the next allocation neither hits a [BUG_ON] nor touches them:
    it is refused, or returns a chunk that is large enough, disjoint from all
    of them, and cleared when asked for. *)
Theorem mm_alloc_safe memory region w mm live ka ik zero size :
  mm_reaches memory region w mm live → 0 < size < 2 ^ 31 →
  (∀ x, x ∈ live → (16 | fst x) ∧ memory <= fst x ∧ (0 < region → fst x + snd x <= memory + region))
  ∧ (∀ x y, x ∈ live → y ∈ live → x = y ∨ chunks_disjoint x y)
  ∧ ∃ r mm', ntc_mm_alloc ka ik zero size mm = Some (r, mm')
    ∧ match r with
      | Err e => e < 0
      | Ptr p => ∃ c, _ntc_mm_chunk_size size = Some c ∧ size <= c ∧ (16 | p)
          ∧ (0 < region → memory <= p ∧ p + c <= memory + region)
          ∧ (∀ x, x ∈ live → chunks_disjoint x (p, c))
          ∧ (zero = true → ∀ a, p <= a < p + c → mm_words mm' a = 0)
          ∧ (∀ x a, x ∈ live → fst x <= a < fst x + snd x → mm_words mm' a = mm_words mm a)
      end.
Proof.
  intros Hr Hsize. destruct (reaches_inv _ _ _ _ _ Hr) as [fl H].
  assert (∀ mm1 l1 fl1 x, mm_inv (within memory (memory + region)) mm1 l1 fl1 → x ∈ l1 →
    (16 | fst x) ∧ memory <= fst x ∧ (0 < region → fst x + snd x <= memory + region)) as Hin.
  { intros mm1 l1 fl1 x H1 Hx. destruct (mi_chunk _ _ _ _ H1 x) as (Ha & _ & Hlo & Hhi); [by left|].
    destruct (mi_region _ _ _ _ H1) as (_ & Hb & _ & [Hw1 Hw2]). repeat split; [done|lia|lia]. }
  split; [by intros x; apply (Hin mm live fl)|].
  split; [intros x y Hx Hy; apply (mi_disj _ _ _ _ H); by left|].
  destruct (chunk_size_ok size Hsize) as (c & Hc & Hok & Hle).
  destruct (alloc_inv _ ka ik zero size c mm live fl H Hc Hok) as (r & mm' & Ha & Hres).
  exists r, mm'. split; [done|]. destruct r as [p|e]; [|tauto].
  destruct Hres as (Hc0 & [fl' H'] & Hz & Hsame). exists c. split; [done|].
  destruct (Hin mm' _ fl' (p, c) H' ltac:(left)) as (Hp16 & Hlo & Hhi). cbn [fst snd] in *.
  split; [by apply Hle|]. split; [done|]. split; [by intros Hpos; split; [|apply Hhi]|].
  split; [|by split]. intros x Hx.
  destruct (mi_disj _ _ _ _ H' x (p, c)) as [->|]; [left; by right|left; left| |done].
  pose proof (mi_live _ _ _ _ H') as Hnd. by apply list.NoDup_cons in Hnd as [? _].
Qed.

(** What was freed is used again: freeing a chunk and allocating the same
    size returns the same chunk and leaves the end of the used part alone. *)
Theorem mm_free_then_alloc memory region w mm live p c size size' ka ik :
  mm_reaches memory region w mm live → (p, c) ∈ live →
  _ntc_mm_chunk_size size = Some c → _ntc_mm_chunk_size size' = Some c →
  ∃ mm1 mm2, ntc_mm_free p size mm = Some mm1
    ∧ ntc_mm_alloc ka ik false size' mm1 = Some (Ptr p, mm2)
    ∧ mm_brk mm2 = mm_brk mm ∧ mm_fixed mm2 = mm_fixed mm.
Proof.
  intros Hr Hx Hc Hc'. destruct (reaches_inv _ _ _ _ _ Hr) as [fl H].
  destruct (mi_known _ _ _ _ H _ Hx) as [f Hf]. cbn [snd] in Hf.
  destruct (mi_fixed _ _ _ _ H c f Hf) as (_ & Hm & _).
  destruct (mi_chunk _ _ _ _ H (p, c)) as (_ & _ & Hp & _); [by left|].
  destruct (mi_region _ _ _ _ H) as (Hpos & _). cbn [fst] in Hp.
  unfold ntc_mm_free, ntc_mm_alloc, _ntc_mm_get_fixed. rewrite Hc, Hc', Hf, Hm, Z.eqb_refl.
  cbn [negb ntc_mm_fixed_free mm_set_words mm_set_fixed mm_fixed mm_words].
  eexists _, _. split; [reflexivity|]. cbn [mm_set_words mm_set_fixed mm_fixed mm_words]. rewrite lookup_insert_eq. cbn [fm_magic].
  rewrite Hm, Z.eqb_refl. cbn [negb].
  unfold ntc_mm_fixed_alloc, entry_magic, entry_next, set_word. cbn [fm_free fm_magic mm_words mm_set_words].
  cbv beta.
  rewrite (proj2 (Z.eqb_neq p 0)), !Z.eqb_refl by lia. cbn [negb].
  rewrite (proj2 (Z.eqb_neq p (p + 8))) by lia. split; [reflexivity|].
  cbn [zero_chunk mm_set_fixed mm_set_words mm_brk mm_fixed]. split; [done|].
  rewrite insert_insert_eq. rewrite insert_id; [done|]. rewrite Hf, <- Hm. by destruct f.
Qed.

(** *** A run, used by the witnesses *)

Lemma demo_mm :
  ∃ mm, mm_reaches 4100 256 (λ _, 7) mm [(4112, 64)]
    ∧ ntc_mm_alloc true true false 40 mm ≠ None ∧ _ntc_mm_chunk_size 40 = Some 64.
Proof.
  eexists. split; [|split; [|reflexivity]].
  { split; [lia|]. split; [lia|]. split; [rewrite pow2_64; lia|].
    eexists. split; [vm_compute; reflexivity|].
    eapply rtc_l; [eapply (step_alloc true true false 40 64); [by split| |]; vm_compute; reflexivity|].
    apply rtc_refl. }
  vm_compute. discriminate.
Qed.

Lemma mm_alloc_safe_witness :
  ∃ mm, mm_reaches 4100 256 (λ _, 7) mm [(4112, 64)]
    ∧ (16 | 4112) ∧ ∃ r mm', ntc_mm_alloc true true true 40 mm = Some (r, mm').
Proof.
  destruct demo_mm as (mm & Hr & _). exists mm. split; [exact Hr|].
  destruct (mm_alloc_safe 4100 256 (λ _, 7) mm [(4112, 64)] true true true 40 Hr ltac:(split; reflexivity))
    as (H1 & _ & r & mm' & H2 & _).
  split; [exact (proj1 (H1 (4112, 64) ltac:(left)))|]. exists r, mm'. exact H2.
Defined.

Lemma mm_free_then_alloc_witness :
  ∃ mm mm1 mm2, mm_reaches 4100 256 (λ _, 7) mm [(4112, 64)]
    ∧ ntc_mm_free 4112 40 mm = Some mm1
    ∧ ntc_mm_alloc true true false 50 mm1 = Some (Ptr 4112, mm2).
Proof.
  destruct demo_mm as (mm & Hr & _).
  destruct (mm_free_then_alloc 4100 256 (λ _, 7) mm [(4112, 64)] 4112 64 40 50 true true Hr
    ltac:(left) eq_refl eq_refl) as (mm1 & mm2 & H1 & H2 & _).
  exists mm, mm1, mm2. split; [exact Hr|]. split; [exact H1|exact H2].
Defined.

End Mm.
