(* ===== verification/Buf.v ===== *)
(** * Local and export buffers (ntc.h)

    A local buffer is memory the DMA engine can read; an export buffer is
    memory the peer can write, taken from the allocator of the memory window
    ([Mm]) or, when the whole memory is mapped flat, from the kernel.  The
    module translates their allocation and release and ties the allocator to
    the descriptors of [Ntc]. *)

From stdpp Require Import gmap.
From S2P Require Import Prelude Kernel Ntc Mm.
Import Ntc Mm.

Module Buf.

(** The allocator of the information window, the memory and the DMA mappings
    held from the kernel, the moment. *)
Record buf_world := mk_bw { bw_mm : ntc_mm; bw_kmem : Z; bw_dma : Z; bw_time : nat }.

Definition bw_set_mm (mm : ntc_mm) (w : buf_world) : buf_world :=
  mk_bw mm (bw_kmem w) (bw_dma w) (bw_time w).
Definition bw_add (kmem dma : Z) (w : buf_world) : buf_world :=
  mk_bw (bw_mm w) (bw_kmem w + kmem) (bw_dma w + dma) (bw_time w).
Definition bw_tick (w : buf_world) : buf_world :=
  mk_bw (bw_mm w) (bw_kmem w) (bw_dma w) (S (bw_time w)).

Section Code.
Context `{K : Kernel}.

Definition kmalloc_node (w : buf_world) : Z * buf_world :=
  if kalloc (bw_time w) then (kaddr (bw_time w), bw_tick (bw_add 1 0 w)) else (0, bw_tick w).

Definition kfree_ptr (ptr : Z) (w : buf_world) : buf_world :=
  if ptr =? 0 then w else bw_add (- 1) 0 w.

Definition map_single (w : buf_world) : option Z * buf_world :=
  match dma_map_single (bw_time w) with
  | Some a => (Some a, bw_tick (bw_add 0 1 w))
  | None => (None, bw_tick w)
  end.

(** ** Local buffers *)

Definition ntc_phys_local_buf_map (b : ntc_local_buf) (w : buf_world) : Z * ntc_local_buf * buf_world :=
  match map_single w with
  | (None, w) => (- EIO, b, w)
  | (Some a, w) => (0, mk_local_buf (lb_size b) (lb_owned b) (lb_mapped b) (lb_ptr b) a, w)
  end.

Definition ntc_phys_local_buf_unmap (w : buf_world) : buf_world := bw_add 0 (- 1) w.

Definition ntc_local_buf_clear (b : ntc_local_buf) : ntc_local_buf :=
  mk_local_buf (lb_size b) (lb_owned b) (lb_mapped b) (if lb_owned b then 0 else lb_ptr b) 0.

Definition ntc_local_buf_alloc (size : Z) (w : buf_world) : Z * ntc_local_buf * buf_world :=
  let '(ptr, w) := kmalloc_node w in
  let b := mk_local_buf size true true ptr 0 in
  if ptr =? 0 then (- ENOMEM, ntc_local_buf_clear b, w)
  else
    let '(rc, b, w) := ntc_phys_local_buf_map b w in
    if rc <? 0 then (rc, ntc_local_buf_clear b, kfree_ptr (lb_ptr b) w) else (rc, b, w).

(** [__GFP_ZERO] concerns the contents, which the world does not carry. *)
Definition ntc_local_buf_zalloc := ntc_local_buf_alloc.

Definition ntc_local_buf_map_prealloced (size ptr : Z) (w : buf_world)
  : Z * ntc_local_buf * buf_world :=
  let b := mk_local_buf size false true ptr 0 in
  let '(rc, b, w) := ntc_phys_local_buf_map b w in
  if rc <? 0 then (rc, ntc_local_buf_clear b, w) else (rc, b, w).

Definition ntc_local_buf_free (b : ntc_local_buf) (w : buf_world) : ntc_local_buf * buf_world :=
  let w := if lb_mapped b then ntc_phys_local_buf_unmap w else w in
  let w := if lb_owned b then kfree_ptr (lb_ptr b) w else w in
  (ntc_local_buf_clear b, w).

Definition ntc_local_buf_disown (b : ntc_local_buf) (w : buf_world) : Z * ntc_local_buf * buf_world :=
  let ptr := lb_ptr b in
  let b := mk_local_buf (lb_size b) false (lb_mapped b) (lb_ptr b) (lb_dma_addr b) in
  let '(b, w) := ntc_local_buf_free b w in
  (ptr, b, w).

(** ** Export buffers *)

Definition own_mw (ntc : ntc_dev) (i : Z) : option ntc_own_mw := own_mws ntc !! Z.to_nat i.

(** Is the whole memory mapped? *)
Definition is_flat (dram : ntc_own_mw) : bool := om_base dram =? om_dead_zone_size dram.

Definition ntc_export_buf_clear (b : ntc_export_buf) : ntc_export_buf :=
  mk_export_buf (eb_size b) 0 (eb_own_mw b) 0 (eb_is_flat b).

(** [ntc_mm_alloc] takes an [int]; [None] is a [BUG_ON] or a missing window. *)
Definition _ntc_export_buf_alloc (ntc : ntc_dev) (size : Z) (zero : bool) (w : buf_world)
  : option (Z * ntc_export_buf * buf_world) :=
  match own_mw ntc NTC_DRAM_MW_IDX, own_mw ntc NTC_INFO_MW_IDX with
  | Some dram, Some info =>
      if negb (is_flat dram) then
        let t := bw_time w in
        match ntc_mm_alloc (kalloc t) (kalloc (S t)) zero (s32 size) (bw_mm w) with
        | None => None
        | Some (r, mm) =>
            let w := bw_tick (bw_tick (bw_set_mm mm w)) in
            Some
              match r with
              | Err rc => (rc, mk_export_buf size 0 info 0 false, w)
              | Ptr p =>
                  (0, mk_export_buf size p info (u64 (om_base info + (p - om_base_ptr info))) false, w)
              end
        end
      else
        let '(ptr, w) := kmalloc_node w in
        if ptr =? 0 then Some (- ENOMEM, mk_export_buf size 0 dram 0 true, w)
        else
          Some
            match map_single w with
            | (None, w) => (- EIO, mk_export_buf size ptr dram 0 true, kfree_ptr ptr w)
            | (Some a, w) => (0, mk_export_buf size ptr dram a true, w)
            end
  | _, _ => None
  end.

Definition _ntc_export_buf_zalloc (ntc : ntc_dev) (size : Z) (w : buf_world) :=
  _ntc_export_buf_alloc ntc size true w.

(** The last component is the segment filled with the initial data. *)
Definition with_init (init_size init_offset size : Z)
    (alloc : option (Z * ntc_export_buf * buf_world)) (b : ntc_export_buf) (w : buf_world)
  : option (Z * ntc_export_buf * buf_world * option (Z * Z)) :=
  if negb (ntc_segment_valid size init_offset init_size) then Some (- EINVAL, b, w, None)
  else
    match alloc with
    | None => None
    | Some (rc, b, w) =>
        if rc <? 0 then Some (rc, b, w, None)
        else Some (rc, b, w, Some (eb_ptr b + init_offset, init_size))
    end.

Definition _ntc_export_buf_alloc_init (ntc : ntc_dev) (size init_size init_offset : Z)
    (b : ntc_export_buf) (w : buf_world) :=
  with_init init_size init_offset size (_ntc_export_buf_alloc ntc size false w) b w.

Definition _ntc_export_buf_zalloc_init (ntc : ntc_dev) (size init_size init_offset : Z)
    (b : ntc_export_buf) (w : buf_world) :=
  with_init init_size init_offset size (_ntc_export_buf_zalloc ntc size w) b w.

Definition ntc_export_buf_free (ntc : ntc_dev) (b : ntc_export_buf) (w : buf_world)
  : option (ntc_export_buf * buf_world) :=
  match own_mw ntc NTC_DRAM_MW_IDX with
  | None => None
  | Some dram =>
      let w := if negb (eb_dma_addr b =? 0) && is_flat dram then bw_add 0 (- 1) w else w in
      if negb (eb_ptr b =? 0) then
        if negb (is_flat dram) then
          match ntc_mm_free (eb_ptr b) (s32 (eb_size b)) (bw_mm w) with
          | None => None
          | Some mm => Some (ntc_export_buf_clear b, bw_set_mm mm w)
          end
        else Some (ntc_export_buf_clear b, kfree_ptr (eb_ptr b) w)
      else Some (ntc_export_buf_clear b, w)
  end.

(** ** Access to export buffers *)

(** The pointer, or [None] for NULL. *)
Definition ntc_export_buf_const_deref (b : ntc_export_buf) (offset len : Z) : option Z :=
  if negb (ntc_segment_valid (eb_size b) offset len) then None
  else if eb_dma_addr b =? 0 then None
  else Some (eb_ptr b + offset).

(** The error, or 0 and the segment written. *)
Definition ntc_export_buf_reinit (b : ntc_export_buf) (offset len : Z) : Z * option (Z * Z) :=
  if negb (ntc_segment_valid (eb_size b) offset len) then (- EINVAL, None)
  else if eb_dma_addr b =? 0 then (- EINVAL, None)
  else (0, Some (eb_ptr b + offset, len)).

Definition ntc_export_buf_reinit_by_zeroes := ntc_export_buf_reinit.

End Code.

(** ** Properties *)

Section Props.
Context `{K : Kernel} `{KO : !KernelOk K}.

Definition same_counts (w w' : buf_world) : Prop := bw_kmem w' = bw_kmem w ∧ bw_dma w' = bw_dma w.

Lemma kmalloc_cases w :
  kmalloc_node w = (0, bw_tick w)
  ∨ ∃ p, 0 < p ∧ kmalloc_node w = (p, bw_tick (bw_add 1 0 w)).
Proof.
  unfold kmalloc_node. destruct (kalloc (bw_time w)); [right|by left].
  eexists. split; [apply kaddr_pos|done].
Qed.

(** A local buffer is either mapped memory of its own or nothing. *)
Lemma local_alloc_cases size w :
  ∃ rc b w1, ntc_local_buf_alloc size w = (rc, b, w1) ∧ lb_size b = size
    ∧ ((rc < 0 ∧ same_counts w w1 ∧ lb_ptr b = 0 ∧ lb_dma_addr b = 0)
       ∨ (rc = 0 ∧ bw_kmem w1 = bw_kmem w + 1 ∧ bw_dma w1 = bw_dma w + 1
          ∧ lb_owned b = true ∧ lb_mapped b = true ∧ 0 < lb_ptr b ∧ 0 < lb_dma_addr b)).
Proof.
  unfold ntc_local_buf_alloc, ntc_phys_local_buf_map, map_single, same_counts.
  destruct (kmalloc_cases w) as [->|(p & Hp & ->)].
  { cbn. eexists _, _, _. split; [done|]. split; [done|]. left. by repeat split. }
  rewrite (proj2 (Z.eqb_neq p 0)) by lia.
  destruct (dma_map_single _) as [a|] eqn:Ha; cbn.
  - eexists _, _, _. split; [done|]. split; [done|]. right. apply dma_map_single_pos in Ha.
    repeat split; first [done | lia | cbn; lia].
  - unfold kfree_ptr. rewrite (proj2 (Z.eqb_neq p 0)) by lia. cbn.
    eexists _, _, _. split; [done|]. split; [done|]. left. repeat split; first [done | lia | cbn; lia].
Qed.

(** Flat export buffers come from the kernel. *)
Lemma export_flat_cases ntc dram info size zero w :
  own_mw ntc NTC_DRAM_MW_IDX = Some dram → own_mw ntc NTC_INFO_MW_IDX = Some info →
  is_flat dram = true →
  ∃ rc b w1, _ntc_export_buf_alloc ntc size zero w = Some (rc, b, w1) ∧ eb_size b = size
    ∧ ((rc < 0 ∧ same_counts w w1 ∧ eb_dma_addr b = 0)
       ∨ (rc = 0 ∧ bw_kmem w1 = bw_kmem w + 1 ∧ bw_dma w1 = bw_dma w + 1
          ∧ 0 < eb_ptr b ∧ 0 < eb_dma_addr b)).
Proof.
  intros Hd Hi Hf. unfold _ntc_export_buf_alloc, map_single, same_counts. rewrite Hd, Hi, Hf. cbn [negb].
  destruct (kmalloc_cases w) as [->|(p & Hp & ->)].
  { cbn. eexists _, _, _. split; [done|]. split; [done|]. left. by repeat split. }
  rewrite (proj2 (Z.eqb_neq p 0)) by lia.
  destruct (dma_map_single _) as [a|] eqn:Ha; cbn.
  - eexists _, _, _. split; [done|]. split; [done|]. right. apply dma_map_single_pos in Ha.
    repeat split; first [done | lia | cbn; lia].
  - unfold kfree_ptr. rewrite (proj2 (Z.eqb_neq p 0)) by lia. cbn.
    eexists _, _, _. split; [done|]. split; [done|]. left. repeat split; first [done | lia | cbn; lia].
Qed.

(** When the mapping of a flat buffer fails its memory is freed but the
    pointer is kept, so that releasing the buffer frees it again. *)
Lemma export_map_failure_dangles ntc dram info size zero w :
  own_mw ntc NTC_DRAM_MW_IDX = Some dram → own_mw ntc NTC_INFO_MW_IDX = Some info →
  is_flat dram = true → kalloc (bw_time w) = true → dma_map_single (S (bw_time w)) = None →
  ∃ b w1 b2 w2, _ntc_export_buf_alloc ntc size zero w = Some (- EIO, b, w1)
    ∧ same_counts w w1
    ∧ ntc_export_buf_free ntc b w1 = Some (b2, w2) ∧ bw_kmem w2 = bw_kmem w - 1.
Proof.
  intros Hd Hi Hf Hk Hm. pose proof (kaddr_pos (bw_time w)) as Hp.
  unfold _ntc_export_buf_alloc, kmalloc_node, map_single, ntc_export_buf_free, same_counts, kfree_ptr.
  rewrite Hd, Hi, Hf, Hk. cbn [negb]. rewrite (proj2 (Z.eqb_neq (kaddr _) 0)) by lia.
  cbn [bw_tick bw_add bw_time]. rewrite Hm.
  eexists _, _, _, _. split; [reflexivity|]. cbn [bw_kmem bw_dma bw_tick bw_add].
  split; [lia|]. cbn [eb_dma_addr eb_ptr Z.eqb negb andb].
  rewrite (proj2 (Z.eqb_neq (kaddr _) 0)) by lia. cbn. split; [reflexivity|]. cbn. lia.
Qed.

(** C26: every buffer the allocator hands out for the peer lies inside the
    memory window, apart from all others in use, so that the descriptor sent
    to the peer is well-formed (the hypothesis under which a descriptor
    reaches its buffer); a refused one is left invalid.  The allocation never
    hits a [BUG_ON] and the buffer can be released. *)
Theorem export_buf_alloc_wf ntc dram info memory region words live size zero w :
  own_mw ntc NTC_DRAM_MW_IDX = Some dram → own_mw ntc NTC_INFO_MW_IDX = Some info →
  is_flat dram = false →
  mm_reaches memory region words (bw_mm w) live → 0 < region →
  om_base_ptr info <= memory → memory + region <= om_base_ptr info + om_size info →
  0 < om_base info → om_base info + om_size info < 2 ^ 64 → 0 < size < 2 ^ 31 →
  ∃ rc b w1, _ntc_export_buf_alloc ntc size zero w = Some (rc, b, w1)
    ∧ ((rc < 0 ∧ ntc_export_buf_valid b = false ∧ eb_ptr b = 0)
       ∨ (rc = 0 ∧ export_wf b ∧ eb_size b = size ∧ eb_own_mw b = info
          ∧ (∀ x, x ∈ live → chunks_disjoint x (eb_ptr b, size))
          ∧ ∃ c w2, mm_reaches memory region words (bw_mm w1) ((eb_ptr b, c) :: live)
              ∧ ntc_export_buf_free ntc b w1 = Some (ntc_export_buf_clear b, w2))).
Proof.
  intros Hd Hi Hf Hr Hreg Hlo Hhi Hb0 Hb1 Hs. destruct (reaches_inv _ _ _ _ _ Hr) as [fl H].
  destruct (chunk_size_ok size Hs) as (c & Hc & Hok & Hle).
  unfold _ntc_export_buf_alloc. rewrite Hd, Hi, Hf. cbn [negb].
  rewrite (s32_small size) by wsolve.
  destruct (alloc_inv _ (kalloc (bw_time w)) (kalloc (S (bw_time w))) zero size c (bw_mm w) live fl H Hc Hok)
    as (r & mm' & Ha & Hres). rewrite Ha. destruct r as [p|e].
  2:{ eexists _, _, _. split; [reflexivity|]. left. by destruct Hres. }
  destruct Hres as (Hc0 & [fl' H'] & _). specialize (Hle Hc0).
  destruct (mi_chunk _ _ _ _ H' (p, c)) as (_ & _ & Hplo & Hphi); [left; left|].
  destruct (mi_region _ _ _ _ H') as (_ & Hbrk & _ & [Hw1 Hw2]). cbn [fst snd] in *.
  specialize (Hw2 ltac:(lia)).
  assert (u64 (om_base info + (p - om_base_ptr info)) = om_base info + (p - om_base_ptr info)) as Hu
    by (apply u64_small; wsolve).
  eexists _, _, _. split; [reflexivity|]. right. split; [done|]. cbn [eb_size eb_own_mw eb_ptr].
  split; [constructor; cbn [eb_is_flat eb_dma_addr eb_own_mw eb_size]; rewrite ?Hu; done || lia|].
  do 2 (split; [done|]). split.
  { intros x Hx. destruct (mi_disj _ _ _ _ H' x (p, c)) as [->|Hdj]; [left; by right|left; left| |].
    - pose proof (mi_live _ _ _ _ H') as Hnd. by apply list.NoDup_cons in Hnd as [? _].
    - unfold chunks_disjoint in *. cbn [fst snd] in *. lia. }
  assert (mm_reaches memory region words mm' ((p, c) :: live)) as Hr'.
  { destruct Hr as (? & ? & ? & mm0 & ? & Hrtc). do 3 (split; [done|]). exists mm0. split; [done|].
    eapply rtc_r; [exact Hrtc|]. by eapply step_alloc. }
  destruct (free_inv _ size c p mm' ((p, c) :: live) fl' H' Hc ltac:(left)) as (mm2 & fl2 & Hfree & _).
  exists c, (bw_set_mm mm2 (bw_tick (bw_tick (bw_set_mm mm' w)))). split; [done|].
  destruct (mi_region _ _ _ _ H) as (Hpos & _).
  destruct Hr' as (Hm0 & _). unfold ntc_export_buf_free. rewrite Hd, Hf, andb_false_r.
  cbn [eb_ptr eb_size bw_mm bw_tick bw_set_mm]. rewrite (proj2 (Z.eqb_neq p 0)) by lia. cbn [negb].
  by rewrite (s32_small size), Hfree by wsolve.
Qed.

(** Both kinds of export buffers; the release may come later. *)
Lemma export_balanced ntc size zero w rc b w1 :
  _ntc_export_buf_alloc ntc size zero w = Some (rc, b, w1) →
  (rc < 0 → same_counts w w1)
  ∧ (0 <= rc → ∀ wx b2 w2, same_counts w1 wx → ntc_export_buf_free ntc b wx = Some (b2, w2) →
       same_counts w w2 ∧ ntc_export_buf_valid b2 = false ∧ eb_ptr b2 = 0).
Proof.
  intros Ha. destruct (own_mw ntc NTC_DRAM_MW_IDX) as [dram|] eqn:Hd;
    [|unfold _ntc_export_buf_alloc in Ha; by rewrite Hd in Ha].
  destruct (own_mw ntc NTC_INFO_MW_IDX) as [info|] eqn:Hi;
    [|unfold _ntc_export_buf_alloc in Ha; by rewrite Hd, Hi in Ha].
  unfold ntc_export_buf_free, ntc_export_buf_clear, ntc_export_buf_valid, same_counts.
  rewrite Hd. destruct (is_flat dram) eqn:Hf.
  - destruct (export_flat_cases ntc dram info size zero w Hd Hi Hf) as (rc' & b' & w' & Ha' & _ & Hcases).
    rewrite Ha in Ha'. apply (inj Some) in Ha'. apply (inj2 pair) in Ha' as [Ha' ->].
    apply (inj2 pair) in Ha' as [-> ->].
    destruct Hcases as [(Hrc & Hsame & _)|(-> & Hk & Hm & Hp & Hdma)]; [split; [done|lia]|].
    split; [lia|]. intros _ wx b2 w2 [Hx1 Hx2]. rewrite (proj2 (Z.eqb_neq (eb_dma_addr b') 0)) by lia.
    rewrite (proj2 (Z.eqb_neq (eb_ptr b') 0)) by lia. cbn [negb andb]. intros [= <- <-].
    unfold kfree_ptr. rewrite (proj2 (Z.eqb_neq (eb_ptr b') 0)) by lia. cbn. rewrite Hx1, Hx2, Hk, Hm.
    repeat split; lia.
  - rewrite andb_false_r. cbn [negb]. revert Ha. unfold _ntc_export_buf_alloc. rewrite Hd, Hi, Hf. cbn [negb].
    destruct (ntc_mm_alloc _ _ _ _ _) as [[r mm]|]; [|done].
    destruct r as [p|e]; intros [= <- <- <-]; (split; [done|intros _ wx b2 w2 [Hx1 Hx2]]); cbn [eb_ptr eb_size].
    + destruct (negb (p =? 0)); [|by intros [= <- <-]].
      destruct (ntc_mm_free _ _ _); [|done]. by intros [= <- <-].
    + by intros [= <- <-].
Qed.

Lemma local_balanced size w rc b w1 :
  ntc_local_buf_alloc size w = (rc, b, w1) →
  (rc < 0 → same_counts w w1)
  ∧ (0 <= rc → ∀ wx, same_counts w1 wx →
       same_counts w (snd (ntc_local_buf_free b wx)) ∧ lb_ptr (fst (ntc_local_buf_free b wx)) = 0).
Proof.
  destruct (local_alloc_cases size w) as (rc' & b' & w1' & -> & _ & Hcases). intros [= <- <- <-].
  destruct Hcases as [(Hrc & Hsame & _)|(-> & Hk & Hm & Ho & Hmp & Hp & _)].
  - split; [done|lia].
  - split; [lia|]. intros _ wx [Hx1 Hx2]. unfold ntc_local_buf_free, ntc_local_buf_clear, kfree_ptr, same_counts.
    rewrite Ho, Hmp, (proj2 (Z.eqb_neq _ 0)) by lia. cbn. rewrite Hx1, Hx2, Hk, Hm. repeat split; lia.
Qed.

(** Allocation and release balance: a failed allocation holds no memory
    and no mapping, and a buffer that was allocated and released leaves the
    kernel's memory and the mappings as they were; for local buffers, for
    export buffers in the window and for flat ones. *)
Theorem buf_alloc_free_balanced ntc size zero w :
  (∃ rc b w1, ntc_local_buf_alloc size w = (rc, b, w1)
     ∧ (rc < 0 → same_counts w w1)
     ∧ (0 <= rc → same_counts w (snd (ntc_local_buf_free b w1))
          ∧ lb_ptr (fst (ntc_local_buf_free b w1)) = 0))
  ∧ (∀ rc b w1, _ntc_export_buf_alloc ntc size zero w = Some (rc, b, w1) →
      (rc < 0 → same_counts w w1)
      ∧ (0 <= rc → ∀ b2 w2, ntc_export_buf_free ntc b w1 = Some (b2, w2) →
           same_counts w w2 ∧ ntc_export_buf_valid b2 = false ∧ eb_ptr b2 = 0)).
Proof.
  split.
  2:{ intros rc b w1 Ha. destruct (export_balanced _ _ _ _ _ _ _ Ha) as [H1 H2].
      split; [done|]. intros Hrc b2 w2. by apply H2. }
  destruct (ntc_local_buf_alloc size w) as [[rc b] w1] eqn:Ha. exists rc, b, w1. split; [done|].
  destruct (local_balanced _ _ _ _ _ Ha) as [H1 H2]. split; [done|]. intros Hrc. by apply H2.
Qed.

End Props.

(** *** Examples, used by the witnesses *)

#[local] Existing Instance kernel_good.

Definition ex_info : ntc_own_mw := mk_own_mw 65536 4096 512 0 512 0.
Definition ex_dram : ntc_own_mw := mk_own_mw 131072 0 4096 0 4096 1.
Definition ex_dev : ntc_dev := mk_ntc_dev [ex_info; ex_dram] [].

Lemma ex_reaches : ∃ mm, mm_reaches 4100 256 (λ _, 7) mm [].
Proof.
  eexists. split; [lia|]. split; [lia|]. split; [rewrite pow2_64; lia|].
  eexists. split; [vm_compute; reflexivity|apply rtc_refl].
Qed.

Lemma export_buf_alloc_wf_witness :
  ∃ w rc b w1, _ntc_export_buf_alloc ex_dev 40 true w = Some (rc, b, w1)
    ∧ (rc < 0 ∧ ntc_export_buf_valid b = false ∧ eb_ptr b = 0 ∨ rc = 0 ∧ export_wf b).
Proof.
  destruct ex_reaches as [mm Hr].
  destruct (export_buf_alloc_wf ex_dev ex_dram ex_info 4100 256 (λ _, 7) [] 40 true (mk_bw mm 0 0 0)
    eq_refl eq_refl eq_refl Hr eq_refl ltac:(discriminate) ltac:(discriminate) eq_refl eq_refl
    ltac:(split; reflexivity)) as (rc & b & w1 & Ha & Hcases).
  exists (mk_bw mm 0 0 0), rc, b, w1. split; [exact Ha|].
  destruct Hcases as [Hc|(Hrc & Hwf & _)]; [left; exact Hc|right; split; [exact Hrc|exact Hwf]].
Defined.

Lemma buf_alloc_free_balanced_witness :
  ∃ rc b w1, ntc_local_buf_alloc 64 (mk_bw (mk_mm 0 0 0 ∅ (λ _, 0)) 5 3 0) = (rc, b, w1)
    ∧ rc = 0 ∧ bw_kmem w1 = 6 ∧ bw_kmem (snd (ntc_local_buf_free b w1)) = 5.
Proof.
  destruct (proj1 (buf_alloc_free_balanced ex_dev 64 true
    (mk_bw (mk_mm 0 0 0 ∅ (λ _, 0)) 5 3 0))) as (rc & b & w1 & Ha & _ & Hok).
  exists rc, b, w1. split; [exact Ha|]. injection Ha as <- <- <-.
  split; [reflexivity|]. split; [reflexivity|]. exact (proj1 (proj1 (Hok ltac:(discriminate)))).
Defined.

End Buf.
