(* ===== verification/Hello.v ===== *)
(** * Setting up the command channel (ntrdma_hello.c, ntrdma_cmd.c)

    When the link comes up the two devices exchange three messages, in four
    phases: the protocol versions, the buffers each side exports, and the
    receive ring each side allocated for the other's commands.  The module
    translates the phases and the set-up and tear-down of the command rings
    that they drive, and shows that they establish the initial state that the
    theorems of [CmdRing] start from, in both directions. *)

From stdpp Require Import gmap.
From S2P Require Import Prelude Kernel Ring Ntc Wr Mm Buf Vbell CmdRing.
Import Ring Ntc Wr Mm Buf Vbell CmdRing.

Module Hello.

Definition NTRDMA_VER_NONE : Z := 0.
Definition NTRDMA_VER_FIRST : Z := 1.
Definition NTRDMA_V1_MAGIC : Z := 0x3ce4dbd8.
Definition NTRDMA_V1_P2_MAGIC : Z := 0x1a1530f1.
Definition NTRDMA_V1_P3_MAGIC : Z := 0xe09005ed.
Definition MAX_SUPPORTED_VERSIONS : Z := 32.
Definition NOT_DONE : Z := 0.
Definition DONE : Z := 1.
Definition supported_versions : list Z := [NTRDMA_VER_FIRST].

(** ** The messages *)

Record ntrdma_cmd_hello_info := mk_hello_info {
  hi_send_rsp_buf_desc : ntc_remote_buf_desc;
  hi_send_cons_shift : Z;
  hi_send_cap : Z;
  hi_send_idx : Z;
  hi_send_vbell_idx : Z;
  hi_recv_vbell_idx : Z }.

Record ntrdma_cmd_hello_prep := mk_hello_prep {
  hp_recv_buf_desc : ntc_remote_buf_desc;
  hp_recv_prod_shift : Z }.

Record ntrdma_hello_phase1 := mk_phase1 { h1_versions : list Z; h1_version_num : Z }.

(** The part of the message for the ethernet device is empty in the default
    build, without NTRDMA_FULL_ETH. *)
Record ntrdma_hello_phase2 := mk_phase2 {
  h2_version_magic : Z;
  h2_phase_magic : Z;
  h2_vbell_desc : ntc_remote_buf_desc;
  h2_vbell_count : Z;
  h2_cmd_info : ntrdma_cmd_hello_info }.

Record ntrdma_hello_phase3 := mk_phase3 {
  h3_version_magic : Z;
  h3_phase_magic : Z;
  h3_cmd_prep : ntrdma_cmd_hello_prep }.

Definition l_hello_info : list (Z * Z) :=
  [f_struct l_remote_buf_desc; f_u64; f_u32; f_u32; f_u32; f_u32].
Definition l_hello_prep : list (Z * Z) := [f_struct l_remote_buf_desc; f_u64].
Definition l_eth_info : list (Z * Z) :=
  [f_u32; f_u32; f_struct l_remote_buf_desc; f_struct l_remote_buf_desc; f_u32].
Definition l_eth_prep : list (Z * Z) := [f_struct l_remote_buf_desc; f_struct l_remote_buf_desc].
Definition sizeof_phase1 : Z := struct_size (replicate 33 f_u32).
Definition sizeof_phase2 : Z :=
  struct_size [f_u32; f_u32; f_struct l_remote_buf_desc; f_u32; f_u32;
               f_struct l_hello_info; f_struct l_eth_info].
Definition sizeof_phase3 : Z :=
  struct_size [f_u32; f_u32; f_struct l_hello_prep; f_struct l_eth_prep].

(** ** The choice of the version *)

Fixpoint version_in (v : Z) (i : nat) (v2 : list Z) : bool :=
  match i with
  | O => false
  | S i => if v =? nth i v2 0 then true else version_in v i v2
  end.

Fixpoint version_search (j : nat) (v1 v2 : list Z) (n2 : nat) : Z :=
  match j with
  | O => NTRDMA_VER_NONE
  | S j => if version_in (nth j v1 0) n2 v2 then nth j v1 0 else version_search j v1 v2 n2
  end.

Definition ntrdma_version_choose (v1 v2 : ntrdma_hello_phase1) : Z :=
  version_search (Z.to_nat (h1_version_num v1)) (h1_versions v1) (h1_versions v2)
    (Z.to_nat (h1_version_num v2)).

Definition ntrdma_buff_supported_versions : ntrdma_hello_phase1 :=
  mk_phase1 supported_versions (Z.of_nat (length supported_versions)).

(** ** The command rings *)

Section Cmd.
Context `{K : Kernel} {C R X Y : Type} `{E : CmdEnv C R X Y}.

(** The contents of zeroed memory. *)
Context (zero_cmd : C) (zero_rsp : R) (ntc : ntc_dev).

Record cmd_dev := mk_cmd_dev {
  cd_send : ntrdma_dev_cmd_send C R;
  cd_recv : ntrdma_dev_cmd_recv C R;
  cd_send_buf : ntc_local_buf;
  cd_rsp_buf : ntc_export_buf;
  cd_recv_buf : ntc_export_buf;
  cd_recv_rsp_buf : ntc_local_buf;
  cd_peer_cmd_recv_buf : ntc_remote_buf;
  cd_peer_cmd_send_rsp_buf : ntc_remote_buf;
  cd_send_vbell_idx : Z;
  cd_recv_vbell_idx : Z;
  is_cmd_hello_done : bool;
  is_cmd_prep : bool }.

Definition cd_set_rings (s : ntrdma_dev_cmd_send C R) (r : ntrdma_dev_cmd_recv C R) (d : cmd_dev) : cmd_dev :=
  mk_cmd_dev s r (cd_send_buf d) (cd_rsp_buf d) (cd_recv_buf d) (cd_recv_rsp_buf d)
    (cd_peer_cmd_recv_buf d) (cd_peer_cmd_send_rsp_buf d) (cd_send_vbell_idx d)
    (cd_recv_vbell_idx d) (is_cmd_hello_done d) (is_cmd_prep d).

Definition cd_set_recv_bufs (b : ntc_export_buf) (rb : ntc_local_buf) (p : ntc_remote_buf) (d : cmd_dev) : cmd_dev :=
  mk_cmd_dev (cd_send d) (cd_recv d) (cd_send_buf d) (cd_rsp_buf d) b rb
    (cd_peer_cmd_recv_buf d) p (cd_send_vbell_idx d)
    (cd_recv_vbell_idx d) (is_cmd_hello_done d) (is_cmd_prep d).

Definition cd_set_prep (b : bool) (d : cmd_dev) : cmd_dev :=
  mk_cmd_dev (cd_send d) (cd_recv d) (cd_send_buf d) (cd_rsp_buf d) (cd_recv_buf d) (cd_recv_rsp_buf d)
    (cd_peer_cmd_recv_buf d) (cd_peer_cmd_send_rsp_buf d) (cd_send_vbell_idx d)
    (cd_recv_vbell_idx d) (is_cmd_hello_done d) b.

Definition cd_set_done (p : ntc_remote_buf) (b : bool) (d : cmd_dev) : cmd_dev :=
  mk_cmd_dev (cd_send d) (cd_recv d) (cd_send_buf d) (cd_rsp_buf d) (cd_recv_buf d) (cd_recv_rsp_buf d)
    p (cd_peer_cmd_send_rsp_buf d) (cd_send_vbell_idx d)
    (cd_recv_vbell_idx d) b (is_cmd_prep d).

Definition cd_set_send_bufs (b : ntc_local_buf) (rb : ntc_export_buf) (d : cmd_dev) : cmd_dev :=
  mk_cmd_dev (cd_send d) (cd_recv d) b rb (cd_recv_buf d) (cd_recv_rsp_buf d)
    (cd_peer_cmd_recv_buf d) (cd_peer_cmd_send_rsp_buf d) (cd_send_vbell_idx d)
    (cd_recv_vbell_idx d) (is_cmd_hello_done d) (is_cmd_prep d).

(** The words after the rings, 0 when they cannot be read. *)
Definition ntrdma_dev_cmd_send_cons (d : cmd_dev) : Z :=
  match ntc_export_buf_const_deref (cd_rsp_buf d)
          (u64 (sizeof_ntrdma_rsp * cs_cap (cd_send d))) 4 with
  | None => 0
  | Some _ => cs_cons (cd_send d)
  end.

Definition ntrdma_dev_cmd_recv_prod (d : cmd_dev) : Z :=
  match ntc_export_buf_const_deref (cd_recv_buf d)
          (u64 (sizeof_ntrdma_cmd * cr_cap (cd_recv d))) 4 with
  | None => 0
  | Some _ => cr_prod (cd_recv d)
  end.

Definition ntrdma_dev_clear_cmd_send_cons (d : cmd_dev) : cmd_dev :=
  let s := cd_send d in
  let '(rc, _) := ntc_export_buf_reinit (cd_rsp_buf d) (u64 (sizeof_ntrdma_rsp * cs_cap s)) 4 in
  if rc <? 0 then d
  else cd_set_rings (cs_set_mem (cs_rsp_buf s, 0) s) (cd_recv d) d.

(** The state before any buffer is allocated. *)
Definition cmd_dev_blank (recv_vbell_idx send_vbell_idx send_cap : Z)
    (cbs : gmap nat ntrdma_cmd_cb) (dram : ntc_own_mw) : cmd_dev :=
  let nolocal := mk_local_buf 0 false false 0 0 in
  let noexport := mk_export_buf 0 0 dram 0 false in
  mk_cmd_dev
    (mk_cmd_send false [] [] send_cap 0 0 [] [] 0 cbs 0 0)
    (mk_cmd_recv false 0 0 [] 0 [] 0 0)
    nolocal noexport noexport nolocal ntc_remote_buf_clear ntc_remote_buf_clear
    send_vbell_idx recv_vbell_idx false false.

Definition zeroes {T} (z : T) (n : Z) : list T := replicate (Z.to_nat n) z.

Definition ntrdma_dev_cmd_init_deinit (recv_vbell_idx send_vbell_idx send_cap : Z)
    (cbs : gmap nat ntrdma_cmd_cb) (dram : ntc_own_mw) (w : buf_world)
  : option (Z * cmd_dev * buf_world) :=
  let d := cmd_dev_blank recv_vbell_idx send_vbell_idx send_cap cbs dram in
  let '(rc, buf, w) := ntc_local_buf_zalloc (u64 (send_cap * sizeof_ntrdma_cmd)) w in
  if rc <? 0 then Some (rc, cd_set_send_bufs buf (cd_rsp_buf d) d, w)
  else
    match _ntc_export_buf_zalloc ntc (u64 (send_cap * sizeof_ntrdma_rsp + 4)) w with
    | None => None
    | Some (rc, rsp_buf, w) =>
        if rc <? 0 then
          let '(buf, w) := ntc_local_buf_free buf w in Some (rc, cd_set_send_bufs buf rsp_buf d, w)
        else
          let s := mk_cmd_send false [] [] send_cap 0 0 (zeroes zero_cmd send_cap)
                     (zeroes zero_rsp send_cap) 0 cbs 0 0 in
          Some (0, cd_set_rings s (cd_recv d) (cd_set_send_bufs buf rsp_buf d), w)
    end.

Definition ntrdma_dev_cmd_init (recv_vbell_idx send_vbell_idx send_cap : Z)
    (cbs : gmap nat ntrdma_cmd_cb) (dram : ntc_own_mw) (w : buf_world)
  : option (Z * cmd_dev * buf_world) :=
  let d := cmd_dev_blank recv_vbell_idx send_vbell_idx send_cap cbs dram in
  if NTRDMA_DEV_VBELL_COUNT <=? recv_vbell_idx then Some (- EINVAL, d, w)
  else if NTRDMA_DEV_VBELL_COUNT <=? send_vbell_idx then Some (- EINVAL, d, w)
  else ntrdma_dev_cmd_init_deinit recv_vbell_idx send_vbell_idx send_cap cbs dram w.

Definition ntrdma_dev_cmd_hello_info (d : cmd_dev) : ntrdma_cmd_hello_info :=
  mk_hello_info (ntc_export_buf_make_desc (cd_rsp_buf d))
    (u64 (cs_cap (cd_send d) * sizeof_ntrdma_rsp)) (cs_cap (cd_send d))
    (ntrdma_dev_cmd_send_cons d) (cd_send_vbell_idx d) (cd_recv_vbell_idx d).

(** From the label [err_recv_buf] on; the receive ring is gone. *)
Definition cmd_prep_undo (d : cmd_dev) : cmd_dev :=
  let d := ntrdma_dev_clear_cmd_send_cons d in
  let s := cd_send d in let r := cd_recv d in
  cd_set_recv_bufs (cd_recv_buf d) (cd_recv_rsp_buf d)
    (fst (ntc_remote_buf_unmap (cd_peer_cmd_send_rsp_buf d)))
    (cd_set_rings
       (mk_cmd_send (cs_ready s) (cs_pend s) (cs_post s) (cs_cap s) 0 0 (cs_buf s) (cs_rsp_buf s)
          (cs_cons s) (cs_cbs s) (cs_peer_recv_prod_shift s) 0)
       (mk_cmd_recv (cr_ready r) 0 0 [] 0 [] (cr_peer_send_cons_shift r) 0) d).

Definition cmd_hello_prep (info : ntrdma_cmd_hello_info) (d : cmd_dev) (w : buf_world)
  : option (Z * cmd_dev * buf_world) :=
  if (NTRDMA_DEV_VBELL_COUNT <? hi_send_vbell_idx info)
     || (NTRDMA_DEV_VBELL_COUNT <? hi_recv_vbell_idx info) then Some (- EIO, d, w)
  else if MAX_CMDS <? hi_send_cap info then Some (- EIO, d, w)
  else
    let '(rc, peer) := ntc_remote_buf_map ntc (hi_send_rsp_buf_desc info) in
    let d := cd_set_recv_bufs (cd_recv_buf d) (cd_recv_rsp_buf d) peer d in
    if rc <? 0 then Some (rc, d, w)
    else
      let s := cd_send d in let r := cd_recv d in
      let cap := hi_send_cap info in
      let s := mk_cmd_send (cs_ready s) (cs_pend s) (cs_post s) (cs_cap s) (cs_prod s) (cs_cmpl s)
                 (cs_buf s) (cs_rsp_buf s) (cs_cons s) (cs_cbs s) (cs_peer_recv_prod_shift s)
                 (hi_recv_vbell_idx info) in
      let r := mk_cmd_recv (cr_ready r) cap (hi_send_idx info) (cr_buf r) (cr_prod r) (cr_rsp_buf r)
                 (hi_send_cons_shift info) (hi_send_vbell_idx info) in
      let d := cd_set_rings s r d in
      match _ntc_export_buf_zalloc ntc (u64 (cap * sizeof_ntrdma_cmd + 4)) w with
      | None => None
      | Some (rc, buf, w) =>
          let d := cd_set_recv_bufs buf (cd_recv_rsp_buf d) (cd_peer_cmd_send_rsp_buf d) d in
          if rc <? 0 then Some (rc, cmd_prep_undo d, w)
          else
            let '(rc, rsp, w) := ntc_local_buf_zalloc (u64 (cap * sizeof_ntrdma_rsp)) w in
            let d := cd_set_recv_bufs buf rsp (cd_peer_cmd_send_rsp_buf d) d in
            if rc <? 0 then
              match ntc_export_buf_free ntc buf w with
              | None => None
              | Some (buf, w) =>
                  Some (rc, cmd_prep_undo (cd_set_recv_bufs buf rsp (cd_peer_cmd_send_rsp_buf d) d), w)
              end
            else
              let r := mk_cmd_recv (cr_ready r) cap (hi_send_idx info) (zeroes zero_cmd cap) 0
                         (zeroes zero_rsp cap) (hi_send_cons_shift info) (hi_send_vbell_idx info) in
              Some (0, cd_set_prep true (cd_set_rings s r d), w)
      end.

Definition cmd_hello_unprep (d : cmd_dev) (w : buf_world) : option (cmd_dev * buf_world) :=
  if negb (is_cmd_prep d) then Some (d, w)
  else
    let '(rsp, w) := ntc_local_buf_free (cd_recv_rsp_buf d) w in
    match ntc_export_buf_free ntc (cd_recv_buf d) w with
    | None => None
    | Some (buf, w) =>
        Some (cmd_prep_undo (cd_set_prep false (cd_set_recv_bufs buf rsp (cd_peer_cmd_send_rsp_buf d) d)), w)
    end.

Definition ntrdma_dev_cmd_hello_prep (info : ntrdma_cmd_hello_info) (d : cmd_dev) (w : buf_world)
  : option (Z * option ntrdma_cmd_hello_prep * cmd_dev * buf_world) :=
  match cmd_hello_prep info d w with
  | None => None
  | Some (rc, d, w) =>
      if negb (rc =? 0) then Some (rc, None, d, w)
      else
        Some (0, Some (mk_hello_prep (ntc_export_buf_make_desc (cd_recv_buf d))
                         (u64 (cr_cap (cd_recv d) * sizeof_ntrdma_cmd))), d, w)
  end.

Definition ntrdma_dev_cmd_hello_done (prep : ntrdma_cmd_hello_prep) (d : cmd_dev) : Z * cmd_dev :=
  let '(rc, peer) := ntc_remote_buf_map ntc (hp_recv_buf_desc prep) in
  if rc <? 0 then (rc, cd_set_done peer (is_cmd_hello_done d) d)
  else
    let s := cd_send d in
    let s := mk_cmd_send (cs_ready s) (cs_pend s) (cs_post s) (cs_cap s) (cs_prod s) (cs_cmpl s)
               (cs_buf s) (cs_rsp_buf s) (cs_cons s) (cs_cbs s) (hp_recv_prod_shift prep)
               (cs_peer_recv_vbell_idx s) in
    (0, cd_set_done peer true (cd_set_rings s (cd_recv d) d)).

Definition cmd_hello_undone (d : cmd_dev) : cmd_dev :=
  if negb (is_cmd_hello_done d) then d
  else cd_set_done (fst (ntc_remote_buf_unmap (cd_peer_cmd_recv_buf d))) false d.

Definition ntrdma_dev_cmd_reset (d : cmd_dev) (w : buf_world) : option (cmd_dev * buf_world) :=
  cmd_hello_unprep (cmd_hello_undone d) w.

Definition ntrdma_dev_cmd_deinit (d : cmd_dev) (w : buf_world) : option (cmd_dev * buf_world) :=
  match ntc_export_buf_free ntc (cd_rsp_buf d) w with
  | None => None
  | Some (rsp, w) =>
      let '(buf, w) := ntc_local_buf_free (cd_send_buf d) w in
      Some (cd_set_send_bufs buf rsp d, w)
  end.

End Cmd.

Arguments cmd_dev : clear implicits.

(** ** The phases *)

Section Phases.
Context `{K : Kernel} {C R : Type} (zero_cmd : C) (zero_rsp : R) (ntc : ntc_dev).

(** A message in one half of a hello buffer. *)
Inductive hello_msg :=
  | MsgNone
  | Msg1 (m : ntrdma_hello_phase1)
  | Msg2 (m : ntrdma_hello_phase2)
  | Msg3 (m : ntrdma_hello_phase3).

(** [hd_lo] and [hd_hi] are the halves of the local buffer, which the peer
    writes; [hd_vbell_desc] describes the exported doorbell buffer. *)
Record hello_dev := mk_hello_dev {
  hd_cmd : cmd_dev C R;
  hd_vbell : ntrdma_dev_vbell;
  hd_vbell_buf : ntc_export_buf;
  hd_mem : buf_world;
  hd_version : Z;
  hd_latest_version : Z;
  hd_cq_resyncs : nat;
  hd_lo : hello_msg;
  hd_hi : hello_msg;
  hd_local_buf_size : Z;
  hd_peer_buf_size : Z }.

Definition hd_set_version (v latest : Z) (d : hello_dev) : hello_dev :=
  mk_hello_dev (hd_cmd d) (hd_vbell d) (hd_vbell_buf d) (hd_mem d) v latest (hd_cq_resyncs d)
    (hd_lo d) (hd_hi d) (hd_local_buf_size d) (hd_peer_buf_size d).
Definition hd_set_cmd (c : cmd_dev C R) (w : buf_world) (d : hello_dev) : hello_dev :=
  mk_hello_dev c (hd_vbell d) (hd_vbell_buf d) w (hd_version d) (hd_latest_version d) (hd_cq_resyncs d)
    (hd_lo d) (hd_hi d) (hd_local_buf_size d) (hd_peer_buf_size d).
Definition hd_set_vbell (v : ntrdma_dev_vbell) (d : hello_dev) : hello_dev :=
  mk_hello_dev (hd_cmd d) v (hd_vbell_buf d) (hd_mem d) (hd_version d) (hd_latest_version d)
    (hd_cq_resyncs d) (hd_lo d) (hd_hi d) (hd_local_buf_size d) (hd_peer_buf_size d).
Definition hd_resync_cqs (d : hello_dev) : hello_dev :=
  mk_hello_dev (hd_cmd d) (hd_vbell d) (hd_vbell_buf d) (hd_mem d) (hd_version d) (hd_latest_version d)
    (S (hd_cq_resyncs d)) (hd_lo d) (hd_hi d) (hd_local_buf_size d) (hd_peer_buf_size d).

(** The result, the message written and the device; [None] is undefined
    behaviour (a message of another kind is read, an array is overrun). *)
Definition phase_result : Type := option (Z * hello_msg * hello_dev).

Definition ntrdma_dev_hello_phase0 (out_size : Z) (d : hello_dev) : phase_result :=
  if out_size <? sizeof_phase1 then Some (- EINVAL, MsgNone, d)
  else Some (NOT_DONE, Msg1 ntrdma_buff_supported_versions, d).

Definition ntrdma_dev_hello_phase1 (in_buf : hello_msg) (in_size out_size : Z) (d : hello_dev)
  : phase_result :=
  if (in_size <? sizeof_phase1) || (out_size <? sizeof_phase2) then Some (- EINVAL, MsgNone, d)
  else
    match in_buf with
    | Msg1 inm =>
        let local := ntrdma_buff_supported_versions in
        let latest := nth (Z.to_nat (h1_version_num local - 1)) (h1_versions local) 0 in
        let d := hd_set_version (hd_version d) latest d in
        if MAX_SUPPORTED_VERSIONS <? h1_version_num inm then Some (- EINVAL, MsgNone, d)
        else
          let v := ntrdma_version_choose inm local in
          let d := hd_set_version v latest d in
          if v =? NTRDMA_VER_NONE then Some (- EINVAL, MsgNone, d)
          else
            Some (NOT_DONE,
                  Msg2 (mk_phase2 NTRDMA_V1_MAGIC NTRDMA_V1_P2_MAGIC
                          (ntc_export_buf_make_desc (hd_vbell_buf d)) (dv_count (hd_vbell d))
                          (ntrdma_dev_cmd_hello_info (hd_cmd d))), d)
    | _ => None
    end.

Definition ntrdma_dev_hello_phase2 (in_buf : hello_msg) (in_size out_size : Z) (d : hello_dev)
  : phase_result :=
  if (in_size <? sizeof_phase2) || (out_size <? sizeof_phase3) then Some (- EINVAL, MsgNone, d)
  else
    match in_buf with
    | Msg2 inm =>
        if negb (h2_version_magic inm =? NTRDMA_V1_MAGIC) then Some (- EINVAL, MsgNone, d)
        else if negb (h2_phase_magic inm =? NTRDMA_V1_P2_MAGIC) then Some (- EINVAL, MsgNone, d)
        else if NTRDMA_DEV_VBELL_COUNT <? h2_vbell_count inm then Some (- EINVAL, MsgNone, d)
        else if rd_size (h2_vbell_desc inm) / 4 <? h2_vbell_count inm then Some (- EINVAL, MsgNone, d)
        else
          match ntrdma_dev_vbell_enable ntc (h2_vbell_desc inm) (h2_vbell_count inm) (hd_vbell d) with
          | None => None
          | Some (rc, vb) =>
              let d := hd_set_vbell vb d in
              if negb (rc =? 0) then Some (rc, MsgNone, d)
              else
                match ntrdma_dev_cmd_hello_prep zero_cmd zero_rsp ntc (h2_cmd_info inm) (hd_cmd d) (hd_mem d) with
                | None => None
                | Some (rc, prep, c, w) =>
                    let d := hd_set_cmd c w d in
                    match prep with
                    | Some prep =>
                        Some (NOT_DONE, Msg3 (mk_phase3 NTRDMA_V1_MAGIC NTRDMA_V1_P3_MAGIC prep), d)
                    | None => Some (rc, MsgNone, d)
                    end
                end
          end
    | _ => None
    end.

Definition ntrdma_dev_hello_phase3 (in_buf : hello_msg) (in_size : Z) (d : hello_dev) : phase_result :=
  if in_size <? sizeof_phase3 then Some (- EINVAL, MsgNone, d)
  else
    match in_buf with
    | Msg3 inm =>
        if negb (h3_version_magic inm =? NTRDMA_V1_MAGIC) || negb (h3_phase_magic inm =? NTRDMA_V1_P3_MAGIC)
        then Some (- EINVAL, MsgNone, d)
        else
          let '(rc, c) := ntrdma_dev_cmd_hello_done ntc (h3_cmd_prep inm) (hd_cmd d) in
          let d := hd_set_cmd c (hd_mem d) d in
          if negb (rc =? 0) then Some (rc, MsgNone, d)
          else Some (DONE, MsgNone, hd_resync_cqs d)
    | _ => None
    end.

(** In odd phases the first half is read and the second half of the peer's
    buffer written, in even phases the other way around. *)
Definition ntrdma_dev_hello (phase : Z) (d : hello_dev) : phase_result :=
  let in_size := hd_local_buf_size d / 2 in
  let out_size := hd_peer_buf_size d / 2 in
  let in_buf := if Z.odd phase then hd_lo d else hd_hi d in
  if phase =? 0 then ntrdma_dev_hello_phase0 out_size d
  else if phase =? 1 then ntrdma_dev_hello_phase1 in_buf in_size out_size d
  else if phase =? 2 then ntrdma_dev_hello_phase2 in_buf in_size out_size d
  else if phase =? 3 then ntrdma_dev_hello_phase3 in_buf in_size d
  else Some (- EINVAL, MsgNone, d).

(** The write of a phase into the peer's buffer. *)
Definition hello_receive (phase : Z) (m : hello_msg) (d : hello_dev) : hello_dev :=
  match m with
  | MsgNone => d
  | _ =>
      mk_hello_dev (hd_cmd d) (hd_vbell d) (hd_vbell_buf d) (hd_mem d) (hd_version d)
        (hd_latest_version d) (hd_cq_resyncs d)
        (if Z.odd phase then hd_lo d else m) (if Z.odd phase then m else hd_hi d)
        (hd_local_buf_size d) (hd_peer_buf_size d)
  end.

End Phases.

Arguments hello_dev : clear implicits.

(** ** The rings a hello exchange starts from *)

Section Idle.
Context `{K : Kernel} `{KO : !KernelOk K} {C R : Type} (zero_cmd : C) (zero_rsp : R) (ntc : ntc_dev).

(** The parts of the sender that no exchange changes. *)
Record cmd_quiet (d : cmd_dev C R) : Prop := {
  cq_cap : cap_ok (cs_cap (cd_send d));
  cq_buf : Z.of_nat (length (cs_buf (cd_send d))) = cs_cap (cd_send d);
  cq_rsp : Z.of_nat (length (cs_rsp_buf (cd_send d))) = cs_cap (cd_send d);
  cq_pend : cs_pend (cd_send d) = [];
  cq_post : cs_post (cd_send d) = [];
  cq_cbs : map_Forall (λ _ c, cb_in_list c = false) (cs_cbs (cd_send d));
  cq_size : eb_size (cd_rsp_buf d) = cs_cap (cd_send d) * sizeof_ntrdma_rsp + 4;
  cq_valid : ntc_export_buf_valid (cd_rsp_buf d) = true }.

Record cmd_idle (d : cmd_dev C R) : Prop := {
  cid_quiet : cmd_quiet d;
  cid_prod : cs_prod (cd_send d) = 0;
  cid_cmpl : cs_cmpl (cd_send d) = 0;
  cid_cons : cs_cons (cd_send d) = 0 }.

Lemma sizeof_rsp_eq : sizeof_ntrdma_rsp = 72. Proof. reflexivity. Qed.

Lemma index_word_valid (cap sz : Z) :
  cap_ok cap → 0 <= sz <= 4096 → ntc_segment_valid (cap * sz + 4) (u64 (sz * cap)) 4 = true.
Proof.
  intros Hc Hs. unfold cap_ok in Hc. rewrite pow2_30 in Hc.
  assert (0 <= sz * cap < 2 ^ 43) as Hp by (change (2 ^ 43) with (4096 * 2147483648); nia).
  change (2 ^ 43) with 8796093022208 in Hp.
  unfold ntc_segment_valid. rewrite !u64_small by (rewrite ?(u64_small (sz * cap)); wsolve).
  destruct (Z.leb_spec (cap * sz + 4) (sz * cap)); [lia|].
  destruct (Z.ltb_spec (cap * sz + 4) 4); [lia|].
  destruct (Z.ltb_spec (cap * sz + 4) (sz * cap + 4)); [lia|done].
Qed.

Lemma quiet_deref d : cmd_quiet d → ntrdma_dev_cmd_send_cons d = cs_cons (cd_send d).
Proof.
  intros H. unfold ntrdma_dev_cmd_send_cons, ntc_export_buf_const_deref.
  rewrite (cq_size d H), index_word_valid by (apply H || (rewrite sizeof_rsp_eq; lia)).
  pose proof (cq_valid d H) as Hv. unfold ntc_export_buf_valid in Hv.
  by destruct (eb_dma_addr (cd_rsp_buf d) =? 0).
Qed.

Lemma quiet_clear d :
  cmd_quiet d →
  ntrdma_dev_clear_cmd_send_cons d
    = cd_set_rings (cs_set_mem (cs_rsp_buf (cd_send d), 0) (cd_send d)) (cd_recv d) d.
Proof.
  intros H. unfold ntrdma_dev_clear_cmd_send_cons, ntc_export_buf_reinit.
  rewrite (cq_size d H), index_word_valid by (apply H || (rewrite sizeof_rsp_eq; lia)).
  pose proof (cq_valid d H) as Hv. unfold ntc_export_buf_valid in Hv.
  by destruct (eb_dma_addr (cd_rsp_buf d) =? 0).
Qed.

(** The error path and the tear-down leave the rings idle. *)
Lemma undo_idle d : cmd_quiet d → cmd_idle (cmd_prep_undo d).
Proof.
  intros H. unfold cmd_prep_undo. rewrite (quiet_clear d H). by destruct H.
Qed.

Lemma undo_recv (d : cmd_dev C R) : cr_cap (cd_recv (cmd_prep_undo d)) = 0 ∧ cr_cons (cd_recv (cmd_prep_undo d)) = 0.
Proof. done. Qed.

(** What a successful preparation does to the rings. *)
Lemma prep_ok info (d : cmd_dev C R) w d' w' :
  cmd_hello_prep zero_cmd zero_rsp ntc info d w = Some (0, d', w') →
  hi_send_cap info <= MAX_CMDS ∧ is_cmd_prep d' = true
  ∧ cd_rsp_buf d' = cd_rsp_buf d
  ∧ cr_cap (cd_recv d') = hi_send_cap info ∧ cr_cons (cd_recv d') = hi_send_idx info
  ∧ cr_buf (cd_recv d') = zeroes zero_cmd (hi_send_cap info) ∧ cr_prod (cd_recv d') = 0
  ∧ cr_rsp_buf (cd_recv d') = zeroes zero_rsp (hi_send_cap info)
  ∧ cs_set_mem (cs_rsp_buf (cd_send d), cs_cons (cd_send d)) (cd_send d')
    = mk_cmd_send (cs_ready (cd_send d)) (cs_pend (cd_send d)) (cs_post (cd_send d)) (cs_cap (cd_send d))
        (cs_prod (cd_send d)) (cs_cmpl (cd_send d)) (cs_buf (cd_send d)) (cs_rsp_buf (cd_send d))
        (cs_cons (cd_send d)) (cs_cbs (cd_send d)) (cs_peer_recv_prod_shift (cd_send d))
        (hi_recv_vbell_idx info)
  ∧ cs_cons (cd_send d') = cs_cons (cd_send d) ∧ cs_rsp_buf (cd_send d') = cs_rsp_buf (cd_send d).
Proof.
  unfold cmd_hello_prep. destruct (_ || _); [done|].
  destruct (Z.ltb_spec MAX_CMDS (hi_send_cap info)); [done|].
  destruct (ntc_remote_buf_map _ _) as [rc peer].
  destruct (Z.ltb_spec rc 0); [intros [= -> _ _]; lia|].
  destruct (_ntc_export_buf_zalloc _ _ _) as [[[rc1 buf] w1]|]; [|done].
  destruct (Z.ltb_spec rc1 0); [intros [= -> _ _]; lia|].
  destruct (ntc_local_buf_zalloc _ _) as [[rc2 rsp] w2].
  destruct (Z.ltb_spec rc2 0).
  { destruct (ntc_export_buf_free _ _ _) as [[b2 w3]|]; [|done]. intros [= -> _ _]. lia. }
  intros [= <- <-]. by split_and!.
Qed.

(** What the completion does. *)
Lemma done_ok prep (d d' : cmd_dev C R) :
  ntrdma_dev_cmd_hello_done ntc prep d = (0, d') →
  is_cmd_hello_done d' = true ∧ cd_recv d' = cd_recv d ∧ cd_recv_buf d' = cd_recv_buf d
  ∧ cd_rsp_buf d' = cd_rsp_buf d ∧ is_cmd_prep d' = is_cmd_prep d
  ∧ cd_send d' = mk_cmd_send (cs_ready (cd_send d)) (cs_pend (cd_send d)) (cs_post (cd_send d))
      (cs_cap (cd_send d)) (cs_prod (cd_send d)) (cs_cmpl (cd_send d)) (cs_buf (cd_send d))
      (cs_rsp_buf (cd_send d)) (cs_cons (cd_send d)) (cs_cbs (cd_send d))
      (hp_recv_prod_shift prep) (cs_peer_recv_vbell_idx (cd_send d)).
Proof.
  unfold ntrdma_dev_cmd_hello_done. destruct (ntc_remote_buf_map _ _) as [rc peer].
  destruct (Z.ltb_spec rc 0); [intros [= -> _]; lia|]. intros [= <-]. by split_and!.
Qed.

End Idle.

(** ** Version choice *)

Lemma version_in_spec v i v2 :
  (i ≤ length v2)%nat → version_in v i v2 = true ↔ v ∈ take i v2.
Proof.
  induction i as [|i IH]; intros Hi; cbn [version_in].
  { rewrite take_0, elem_of_nil. done. }
  destruct (nth_lookup_or_length v2 i 0) as [Hn|]; [|lia].
  rewrite (take_S_r _ _ _ Hn), elem_of_app, list_elem_of_singleton.
  destruct (Z.eqb_spec v (nth i v2 0)); [by split; [right|]|]. rewrite IH by lia. tauto.
Qed.

(** The search finds the last version of the first list that is in the
    second, or reports that there is none. *)
Lemma version_search_spec j v1 v2 n2 :
  (j ≤ length v1)%nat → (n2 ≤ length v2)%nat →
  (version_search j v1 v2 n2 = NTRDMA_VER_NONE ∧ ∀ v, v ∈ take j v1 → v ∉ take n2 v2)
  ∨ (∃ i, (i < j)%nat ∧ v1 !! i = Some (version_search j v1 v2 n2)
       ∧ version_search j v1 v2 n2 ∈ take n2 v2
       ∧ ∀ k v, (i < k < j)%nat → v1 !! k = Some v → v ∉ take n2 v2).
Proof.
  induction j as [|j IH]; intros Hj Hn; cbn [version_search].
  { left. split; [done|]. intros v. rewrite take_0, elem_of_nil. done. }
  destruct (nth_lookup_or_length v1 j 0) as [Hv|]; [|lia].
  destruct (version_in (nth j v1 0) n2 v2) eqn:Hin.
  - right. exists j. apply version_in_spec in Hin; [|done]. split; [lia|]. split; [done|].
    split; [done|]. intros k v Hk. lia.
  - assert (nth j v1 0 ∉ take n2 v2) as Hout.
    { rewrite <- version_in_spec by done. congruence. }
    destruct (IH ltac:(lia) Hn) as [[-> Hnone]|(i & Hi & Hl & Hm & Hlast)].
    + left. split; [done|]. intros v. rewrite (take_S_r _ _ _ Hv), elem_of_app, list_elem_of_singleton.
      intros [?| ->]; [by apply Hnone|done].
    + right. exists i. split; [lia|]. split; [done|]. split; [done|]. intros k v Hk Hkv.
      destruct (decide (k = j)) as [->|]; [rewrite Hv in Hkv; by simplify_eq|].
      apply (Hlast k v); [lia|done].
Qed.

(** A message that lists its versions in increasing order, none of them 0. *)
Definition versions_ok (m : ntrdma_hello_phase1) : Prop :=
  Z.of_nat (length (h1_versions m)) = h1_version_num m
  ∧ (∀ i k v v', (i < k)%nat → h1_versions m !! i = Some v → h1_versions m !! k = Some v' → v < v')
  ∧ (∀ v, v ∈ h1_versions m → v ≠ NTRDMA_VER_NONE).

Lemma version_choose_max m1 m2 :
  versions_ok m1 → versions_ok m2 →
  (ntrdma_version_choose m1 m2 = NTRDMA_VER_NONE ∧ ∀ v, v ∈ h1_versions m1 → v ∉ h1_versions m2)
  ∨ (ntrdma_version_choose m1 m2 ∈ h1_versions m1 ∧ ntrdma_version_choose m1 m2 ∈ h1_versions m2
     ∧ ∀ v, v ∈ h1_versions m1 → v ∈ h1_versions m2 → v <= ntrdma_version_choose m1 m2).
Proof.
  intros (Hn1 & Hs1 & _) (Hn2 & _ & _). unfold ntrdma_version_choose.
  rewrite <- Hn1, <- Hn2, !Nat2Z.id.
  destruct (version_search_spec (length (h1_versions m1)) (h1_versions m1) (h1_versions m2)
    (length (h1_versions m2))) as [[-> Hnone]|(i & Hi & Hl & Hm & Hlast)]; [lia|lia| |].
  - left. split; [done|]. intros v. specialize (Hnone v). by rewrite !take_ge in Hnone by lia.
  - right. rewrite take_ge in Hm by lia. split; [by eapply list_elem_of_lookup_2|]. split; [done|].
    intros v Hv1 Hv2. apply list_elem_of_lookup_1 in Hv1 as [k Hk].
    destruct (lt_eq_lt_dec k i) as [[Hki| ->]|Hki].
    + specialize (Hs1 _ _ _ _ Hki Hk Hl). lia.
    + rewrite Hl in Hk. by simplify_eq.
    + exfalso. apply lookup_lt_Some in Hk as Hlt. apply (Hlast k v); [lia|done|].
      by rewrite take_ge by lia.
Qed.

(** ** The exchange

    Two devices run the phases; neither can be more than one phase ahead, as
    the link waits for the peer before each phase.  A step is one phase that
    did not fail, and the delivery of its message. *)

Section Exchange.
Context `{K : Kernel} `{KO : !KernelOk K} {C R : Type} (zero_cmd : C) (zero_rsp : R).
Context (ntc_a ntc_b : ntc_dev).

Record exchange := mk_exchange { ex_a : hello_dev C R; ex_na : nat; ex_b : hello_dev C R; ex_nb : nat }.

Inductive hello_step : exchange → exchange → Prop :=
  | step_a a na b nb rc m a' :
      (na < 4)%nat → (na ≤ nb)%nat →
      ntrdma_dev_hello zero_cmd zero_rsp ntc_a (Z.of_nat na) a = Some (rc, m, a') → 0 <= rc →
      hello_step (mk_exchange a na b nb) (mk_exchange a' (S na) (hello_receive (Z.of_nat na) m b) nb)
  | step_b a na b nb rc m b' :
      (nb < 4)%nat → (nb ≤ na)%nat →
      ntrdma_dev_hello zero_cmd zero_rsp ntc_b (Z.of_nat nb) b = Some (rc, m, b') → 0 <= rc →
      hello_step (mk_exchange a na b nb) (mk_exchange (hello_receive (Z.of_nat nb) m a) na b' (S nb)).

(** A device that has run [n] phases, from the rings [c0] with the peer's [p0]. *)
Definition dev_ok (ntc : ntc_dev) (n : nat) (d : hello_dev C R) (c0 p0 : cmd_dev C R) : Prop :=
  ((n ≤ 2)%nat → hd_cmd d = c0)
  ∧ ((2 ≤ n)%nat → hd_version d = NTRDMA_VER_FIRST)
  ∧ (n = 3%nat → ∃ w w', cmd_hello_prep zero_cmd zero_rsp ntc (ntrdma_dev_cmd_hello_info p0) c0 w
                   = Some (0, hd_cmd d, w'))
  ∧ ((4 ≤ n)%nat → n = 4%nat ∧ ∃ w w' c1 prep,
       cmd_hello_prep zero_cmd zero_rsp ntc (ntrdma_dev_cmd_hello_info p0) c0 w = Some (0, c1, w')
       ∧ ntrdma_dev_cmd_hello_done ntc prep c1 = (0, hd_cmd d)).

(** What the peer's [m] phases have put into the buffer of [d]. *)
Definition box_ok (m : nat) (d : hello_dev C R) (p0 : cmd_dev C R) : Prop :=
  ((1 ≤ m ≤ 2)%nat → hd_lo d = Msg1 ntrdma_buff_supported_versions)
  ∧ ((2 ≤ m)%nat → ∃ msg, hd_hi d = Msg2 msg ∧ h2_cmd_info msg = ntrdma_dev_cmd_hello_info p0)
  ∧ ((3 ≤ m)%nat → ∃ msg, hd_lo d = Msg3 msg).

Lemma vbell_enable_rc ntc desc n vb rc vb' :
  ntrdma_dev_vbell_enable ntc desc n vb = Some (rc, vb') → rc <= 0.
Proof.
  unfold ntrdma_dev_vbell_enable. destruct (dv_enable vb); [intros [= <- _]; lia|].
  destruct (ntc_remote_buf_map _ _) as [r p]. destruct (Z.ltb_spec r 0); [intros [= <- _]; lia|].
  destruct (for_peers _ _ _); [|done]. intros [= <- _]. lia.
Qed.

Lemma cmd_hello_prep_rc ntc info (d : cmd_dev C R) w rc d' w' :
  cmd_hello_prep zero_cmd zero_rsp ntc info d w = Some (rc, d', w') → rc <= 0.
Proof.
  unfold cmd_hello_prep. destruct (_ || _); [intros [= <- _ _]; unfold EIO; lia|].
  destruct (_ <? _); [intros [= <- _ _]; unfold EIO; lia|].
  destruct (ntc_remote_buf_map _ _) as [r peer]. destruct (Z.ltb_spec r 0); [intros [= <- _ _]; lia|].
  destruct (_ntc_export_buf_zalloc _ _ _) as [[[rc1 buf] w1]|]; [|done].
  destruct (Z.ltb_spec rc1 0); [intros [= <- _ _]; lia|].
  destruct (ntc_local_buf_zalloc _ _) as [[rc2 rsp] w2]. destruct (Z.ltb_spec rc2 0).
  { destruct (ntc_export_buf_free _ _ _) as [[b2 w3]|]; [|done]. intros [= <- _ _]. lia. }
  intros [= <- _ _]. lia.
Qed.

Lemma cmd_hello_done_rc ntc prep (d : cmd_dev C R) rc d' :
  ntrdma_dev_cmd_hello_done ntc prep d = (rc, d') → rc <= 0.
Proof.
  unfold ntrdma_dev_cmd_hello_done. destruct (ntc_remote_buf_map _ _) as [r peer].
  destruct (Z.ltb_spec r 0); intros [= <- _]; lia.
Qed.

Ltac err_case := simplify_eq; unfold EINVAL, EIO in *; lia.

Ltac run_eqs H :=
  apply (inj Some) in H; apply (inj2 pair) in H as [H <-]; apply (inj2 pair) in H as [<- <-].

Lemma phase_step ntc n m a b a0 b0 rc msg a' :
  dev_ok ntc n a a0 b0 → box_ok m a b0 → box_ok n b a0 → (n < 4)%nat → (n ≤ m)%nat → (m ≤ S n)%nat →
  ntrdma_dev_hello zero_cmd zero_rsp ntc (Z.of_nat n) a = Some (rc, msg, a') → 0 <= rc →
  dev_ok ntc (S n) a' a0 b0 ∧ box_ok m a' b0 ∧ box_ok (S n) (hello_receive (Z.of_nat n) msg b) a0.
Proof.
  intros (H1 & H2 & H3 & H4) (B1 & B2 & B3) (P1 & P2 & P3) Hn Hnm Hmn Hrun Hrc.
  unfold ntrdma_dev_hello in Hrun.
  destruct n as [|[|[|[|n]]]]; [| | | |lia];
    [change (Z.of_nat 0) with 0 in *|change (Z.of_nat 1) with 1 in *
    |change (Z.of_nat 2) with 2 in *|change (Z.of_nat 3) with 3 in *];
    cbn [Z.odd Z.eqb Pos.eqb] in Hrun.
  - unfold ntrdma_dev_hello_phase0 in Hrun. destruct (_ <? _); [err_case|].
    run_eqs Hrun.
    split; [|split].
    + split_and!; try lia. intros _. by apply H1; lia.
    + done.
    + split_and!; try lia. intros _. done.
  - unfold ntrdma_dev_hello_phase1 in Hrun. destruct (_ || _); [err_case|].
    rewrite B1 in Hrun by lia. cbv zeta in Hrun. cbn in Hrun.
    run_eqs Hrun.
    split; [|split].
    + split_and!; try lia; cbn. * intros _. by apply H1; lia. * done.
    + split_and!; cbn; done.
    + split_and!; try lia; cbn.
      * intros _. apply P1. lia.
      * intros _. eexists. split; [done|]. cbn. by rewrite H1 by lia.
  - unfold ntrdma_dev_hello_phase2 in Hrun. destruct (_ || _); [err_case|].
    destruct (B2 ltac:(lia)) as (msg2 & Hhi & Hinfo). rewrite Hhi in Hrun.
    repeat (match type of Hrun with (if ?b then Some (- EINVAL, _, _) else _) = _ =>
      destruct b; [err_case|] end).
    destruct (ntrdma_dev_vbell_enable _ _ _ _) as [[rcv vb]|] eqn:Hvb; [|done].
    apply vbell_enable_rc in Hvb.
    destruct (Z.eqb_spec rcv 0) as [->|]; cbn [negb] in Hrun; [|err_case].
    unfold ntrdma_dev_cmd_hello_prep in Hrun. cbn [hd_set_vbell hd_cmd hd_mem] in Hrun.
    rewrite Hinfo, H1 in Hrun by lia.
    destruct (cmd_hello_prep _ _ _ _ _ _) as [[[rcp c1] w1]|] eqn:Hp; [|done].
    pose proof (cmd_hello_prep_rc _ _ _ _ _ _ _ Hp) as Hrcp.
    destruct (Z.eqb_spec rcp 0) as [->|]; cbn [negb] in Hrun; [|err_case].
    run_eqs Hrun. split; [|split].
    + split_and!; try lia; cbn; [by intros _; apply H2; lia|]. intros _. by eexists _, _.
    + split_and!; cbn; done.
    + split_and!; try lia; cbn.
      * intros _. apply P2. lia.
      * intros _. by eexists.
  - unfold ntrdma_dev_hello_phase3 in Hrun. destruct (_ <? _); [err_case|].
    destruct (B3 ltac:(lia)) as (msg3 & Hlo). rewrite Hlo in Hrun.
    destruct (_ || _); [err_case|].
    destruct (ntrdma_dev_cmd_hello_done _ _ _) as [rcd c2] eqn:Hd.
    pose proof (cmd_hello_done_rc _ _ _ _ _ Hd) as Hrcd.
    destruct (Z.eqb_spec rcd 0) as [->|]; cbn [negb] in Hrun; [|err_case].
    run_eqs Hrun. split; [|split].
    + split_and!; try lia; cbn; [by intros _; apply H2; lia|].
      intros _. split; [done|]. destruct (H3 eq_refl) as (w & w' & Hp). by eexists _, _, _, _.
    + split_and!; cbn; try lia; [apply B2|apply B3].
    + split_and!; try lia; cbn; [intros _; apply P2; lia|intros _; apply P3; lia].
Qed.

Definition exchange_inv (a0 b0 : cmd_dev C R) (e : exchange) : Prop :=
  dev_ok ntc_a (ex_na e) (ex_a e) a0 b0 ∧ dev_ok ntc_b (ex_nb e) (ex_b e) b0 a0
  ∧ box_ok (ex_nb e) (ex_a e) b0 ∧ box_ok (ex_na e) (ex_b e) a0
  ∧ (ex_na e ≤ S (ex_nb e))%nat ∧ (ex_nb e ≤ S (ex_na e))%nat.

Lemma dev_ok_receive ntc n phase m (d : hello_dev C R) c0 p0 :
  dev_ok ntc n d c0 p0 → dev_ok ntc n (hello_receive phase m d) c0 p0.
Proof. intros H. destruct m; exact H. Qed.

Lemma hello_step_inv a0 b0 e e' : hello_step e e' → exchange_inv a0 b0 e → exchange_inv a0 b0 e'.
Proof.
  intros Hstep (Ha & Hb & Hba & Hbb & H1 & H2). destruct Hstep as
    [a na b nb rc m a' Hn Hle Hrun Hrc|a na b nb rc m b' Hn Hle Hrun Hrc]; cbn [ex_a ex_na ex_b ex_nb] in *.
  - destruct (phase_step _ _ _ _ _ _ _ _ _ _ Ha Hba Hbb Hn Hle ltac:(lia) Hrun Hrc) as (? & ? & ?).
    unfold exchange_inv. cbn [ex_a ex_na ex_b ex_nb]. split_and!; try done; try lia.
    by apply dev_ok_receive.
  - destruct (phase_step _ _ _ _ _ _ _ _ _ _ Hb Hbb Hba Hn Hle ltac:(lia) Hrun Hrc) as (? & ? & ?).
    unfold exchange_inv. cbn [ex_a ex_na ex_b ex_nb]. split_and!; try done; try lia.
    by apply dev_ok_receive.
Qed.

(** The two rings of one direction after the exchange. *)
Lemma exchange_init {X Y} (x : X) (y : Y) (a0 b0 a b' a' b'' : cmd_dev C R) wa wb wa' wb' pb infob n1 n2 :
  cmd_idle a0 → cmd_hello_prep zero_cmd zero_rsp n1 infob a0 wa = Some (0, a, wa') →
  ntrdma_dev_cmd_hello_done n1 pb a = (0, a') →
  cmd_hello_prep zero_cmd zero_rsp n2 (ntrdma_dev_cmd_hello_info a0) b0 wb = Some (0, b', wb') →
  cd_recv b'' = cd_recv b' →
  ch_init (mk_channel (cd_send a') x (cd_recv b'') y [] [] []).
Proof.
  intros Ha Hpa Hda Hpb Hrb.
  destruct (prep_ok _ _ _ _ _ _ _ _ Hpa) as (_ & _ & _ & _ & _ & _ & _ & _ & Hs & Hcons & Hrsp).
  destruct (done_ok _ _ _ _ Hda) as (_ & _ & _ & _ & _ & Hsa).
  destruct (prep_ok _ _ _ _ _ _ _ _ Hpb) as (_ & _ & _ & Hcap & Hrcons & Hbuf & Hprod & Hrsps & _).
  destruct Ha as [Hq Hp Hc Hk].
  cbn [hi_send_cap hi_send_idx ntrdma_dev_cmd_hello_info] in *. rewrite (quiet_deref a0 Hq) in Hrcons.
  destruct Hq. destruct (cd_send a) as [ready pend post cap prod cmpl buf rsp cons cbs shift vb].
  unfold cs_set_mem in Hs. cbn in Hs, Hcons, Hrsp. injection Hs as -> -> -> -> -> -> -> -> -> ->. subst cons rsp.
  unfold ch_init. cbn [ch_snd ch_rcv ch_cmds ch_rsps ch_log]. rewrite Hrb, Hsa. cbn.
  rewrite Hcap, Hbuf, Hrsps, Hrcons, Hprod. unfold zeroes. rewrite !length_replicate.
  unfold cap_ok in *. split_and!; try done; lia.
Qed.

(** When both devices complete the exchange, in any interleaving of
    their phases, they run the same version of the protocol and both
    directions of the command channel are in the initial state that the
    theorems on the channel start from. *)
Theorem hello_opens_channels {X Y} (x : X) (y : Y) a b a' b' :
  cmd_idle (hd_cmd a) → cmd_idle (hd_cmd b) →
  rtc hello_step (mk_exchange a 0 b 0) (mk_exchange a' 4 b' 4) →
  hd_version a' = hd_version b' ∧ hd_version a' ∈ supported_versions
  ∧ ch_init (mk_channel (cd_send (hd_cmd a')) x (cd_recv (hd_cmd b')) y [] [] [])
  ∧ ch_init (mk_channel (cd_send (hd_cmd b')) x (cd_recv (hd_cmd a')) y [] [] []).
Proof.
  intros Ha Hb Hr.
  assert (exchange_inv (hd_cmd a) (hd_cmd b) (mk_exchange a 0 b 0)) as H0.
  { unfold exchange_inv, dev_ok, box_ok. cbn. split_and!; try done; lia. }
  assert (∀ e e', rtc hello_step e e' → exchange_inv (hd_cmd a) (hd_cmd b) e →
    exchange_inv (hd_cmd a) (hd_cmd b) e') as Hind.
  { induction 1; eauto using hello_step_inv. }
  destruct (Hind _ _ Hr H0) as ((_ & Hva & _ & Hda) & (_ & Hvb & _ & Hdb) & _).
  cbn [ex_a ex_na ex_b ex_nb] in *. rewrite Hva, Hvb by lia.
  destruct (Hda ltac:(lia)) as (_ & wa & wa' & ca & pa & Hpa & Hdonea).
  destruct (Hdb ltac:(lia)) as (_ & wb & wb' & cb & pb & Hpb & Hdoneb).
  split; [done|]. split; [left|]. split.
  - destruct (done_ok _ _ _ _ Hdoneb) as (_ & Hrecv & _).
    eapply exchange_init; [exact Ha|exact Hpa|exact Hdonea|exact Hpb|exact Hrecv].
  - destruct (done_ok _ _ _ _ Hdonea) as (_ & Hrecv & _).
    eapply exchange_init; [exact Hb|exact Hpb|exact Hdoneb|exact Hpa|exact Hrecv].
Qed.

End Exchange.

(** ** Choosing the version, cleaning up *)

(** C29: two devices that list their versions in increasing order choose the
    same one although each searches the other's list first: the latest version
    they share, or none when they share none. *)
Theorem version_choice_agrees m1 m2 :
  versions_ok m1 → versions_ok m2 →
  ntrdma_version_choose m1 m2 = ntrdma_version_choose m2 m1
  ∧ (ntrdma_version_choose m1 m2 = NTRDMA_VER_NONE
     ↔ ∀ v, v ∈ h1_versions m1 → v ∉ h1_versions m2)
  ∧ (∀ v, v ∈ h1_versions m1 → v ∈ h1_versions m2 → v <= ntrdma_version_choose m1 m2).
Proof.
  intros H1 H2. pose proof (proj2 (proj2 H1)) as Hnz.
  destruct (version_choose_max m1 m2 H1 H2) as [[Hc1 Hn1]|(Ha1 & Hb1 & Hm1)],
    (version_choose_max m2 m1 H2 H1) as [[Hc2 Hn2]|(Ha2 & Hb2 & Hm2)].
  - rewrite Hc1, Hc2. split; [done|]. split; [done|]. intros v Hv1 Hv2. by destruct (Hn1 v).
  - by destruct (Hn1 _ Hb2).
  - by destruct (Hn2 _ Hb1).
  - split; [|split; [|done]].
    + specialize (Hm1 _ Hb2 Ha2). specialize (Hm2 _ Hb1 Ha1). lia.
    + split; [intros Hz; by destruct (Hnz _ Ha1)|intros Hno; by destruct (Hno _ Ha1)].
Qed.

Section Cleanup.
Context `{K : Kernel} `{KO : !KernelOk K} {C R : Type} (zero_cmd : C) (zero_rsp : R) (ntc : ntc_dev).

Lemma idle_frame (d : cmd_dev C R) rb r p : cmd_idle d → cmd_idle (cd_set_recv_bufs rb r p d).
Proof. intros [[] ? ? ?]. by constructor; [constructor|..]. Qed.

Lemma undo_fields (d : cmd_dev C R) :
  is_cmd_prep (cmd_prep_undo d) = is_cmd_prep d
  ∧ is_cmd_hello_done (cmd_prep_undo d) = is_cmd_hello_done d
  ∧ cr_cap (cd_recv (cmd_prep_undo d)) = 0
  ∧ cd_recv_buf (cmd_prep_undo d) = cd_recv_buf d
  ∧ cd_peer_cmd_send_rsp_buf (cmd_prep_undo d) = ntc_remote_buf_clear.
Proof.
  unfold cmd_prep_undo, ntrdma_dev_clear_cmd_send_cons.
  destruct (ntc_export_buf_reinit _ _ _) as [rc seg]. by destruct (rc <? 0).
Qed.

(** Releasing an export buffer leaves it invalid. *)
Lemma free_invalid b w b' w' :
  ntc_export_buf_free ntc b w = Some (b', w') → ntc_export_buf_valid b' = false.
Proof.
  unfold ntc_export_buf_free. destruct (own_mw ntc NTC_DRAM_MW_IDX); [|done].
  destruct (negb (eb_ptr b =? 0)); [|by intros [= <- _]].
  destruct (negb (is_flat n)); [|by intros [= <- _]].
  destruct (ntc_mm_free _ _ _); [|done]. by intros [= <- _].
Qed.

(** Whatever goes wrong while the receive ring is set up for the peer,
    the rings are left as they were, ready for another exchange, and neither
    memory nor a mapping is lost. *)
Theorem cmd_prep_failure_clean info (d : cmd_dev C R) w rc d' w' :
  cmd_idle d → is_cmd_prep d = false →
  cmd_hello_prep zero_cmd zero_rsp ntc info d w = Some (rc, d', w') → rc ≠ 0 →
  rc < 0 ∧ cmd_idle d' ∧ is_cmd_prep d' = false ∧ same_counts w w'.
Proof.
  intros [Hq Hp Hc Hk] Hnp Hrun Hrc.
  pose proof (cmd_hello_prep_rc zero_cmd zero_rsp ntc info d w rc d' w' Hrun).
  split; [lia|]. revert Hrun. unfold cmd_hello_prep.
  destruct (_ || _); [intros [= <- <- <-]; by split_and!|].
  destruct (_ <? _); [intros [= <- <- <-]; by split_and!|].
  destruct (ntc_remote_buf_map _ _) as [r peer]. destruct (Z.ltb_spec r 0).
  { intros [= <- <- <-]. split_and!; [by apply idle_frame|done..]. }
  destruct (_ntc_export_buf_zalloc _ _ _) as [[[rc1 buf] w1]|] eqn:He; [|done].
  apply export_balanced in He as [He1 He2]. destruct (Z.ltb_spec rc1 0).
  { intros [= <- <- <-]. split_and!; [apply undo_idle; by destruct Hq|by rewrite (proj1 (undo_fields _))|by apply He1]. }
  destruct (local_alloc_cases (u64 (hi_send_cap info * sizeof_ntrdma_rsp)) w1)
    as (rc2 & rsp & w2 & Hl & _ & Hcases).
  unfold ntc_local_buf_zalloc. rewrite Hl.
  destruct (Z.ltb_spec rc2 0); [|intros [= <- _ _]; lia].
  destruct (ntc_export_buf_free ntc buf w2) as [[b2 w3]|] eqn:Hfree; [|done].
  intros [= <- <- <-].
  split_and!; [apply undo_idle; by destruct Hq|by rewrite (proj1 (undo_fields _))|].
  destruct Hcases as [(_ & Hsame & _)|]; [|lia]. by destruct (He2 ltac:(lia) _ _ _ Hsame Hfree).
Qed.

(** Taking the link down after a quiesce, whatever the state of the
    rings, releases the peer's ring and leaves the rings idle: the next
    exchange starts as the first one did. *)
Theorem cmd_reset_then_idle (d : cmd_dev C R) w d' w' :
  cmd_quiet d → is_cmd_prep d = true →
  ntrdma_dev_cmd_reset ntc d w = Some (d', w') →
  cmd_idle d' ∧ is_cmd_prep d' = false ∧ is_cmd_hello_done d' = false
  ∧ cr_cap (cd_recv d') = 0 ∧ ntc_export_buf_valid (cd_recv_buf d') = false
  ∧ ntc_remote_buf_valid (cd_peer_cmd_send_rsp_buf d') = false.
Proof.
  intros Hq Hp. unfold ntrdma_dev_cmd_reset, cmd_hello_unprep, cmd_hello_undone.
  set (d1 := if negb (is_cmd_hello_done d) then d else _).
  assert (cmd_quiet d1 ∧ is_cmd_prep d1 = true ∧ is_cmd_hello_done d1 = false) as (Hq1 & Hp1 & Hd1).
  { unfold d1. destruct (is_cmd_hello_done d) eqn:Hd; cbn [negb]; split_and!; try done. by destruct Hq. }
  clearbody d1. rewrite Hp1. cbn [negb]. destruct (ntc_local_buf_free _ _) as [rsp w1].
  destruct (ntc_export_buf_free ntc (cd_recv_buf d1) w1) as [[buf w2]|] eqn:Hf; [|done].
  intros [= <- <-]. split; [apply undo_idle; by destruct Hq1|].
  set (d2 := cd_set_prep false _). destruct (undo_fields d2) as (-> & -> & -> & -> & ->).
  split; [done|]. split; [exact Hd1|]. split; [done|]. split; [|done]. by eapply free_invalid.
Qed.

End Cleanup.

(** *** A run, used by the witnesses *)

#[local] Existing Instance kernel_good.

Definition demo_ntc : ntc_dev :=
  mk_ntc_dev [mk_own_mw 65536 65536 8192 0 8192 0; mk_own_mw 0 0 (2 ^ 40) 0 (2 ^ 40) 1]
    [mk_peer_mw (2 ^ 41) 8192 (2 ^ 41) 0 8192 0; mk_peer_mw (2 ^ 42) (2 ^ 40) (2 ^ 42) 0 (2 ^ 40) 1].

Definition demo_world : buf_world := mk_bw (mk_mm 0 0 0 ∅ (λ _, 0)) 0 0 0.

(** A device after its initialisation, with a ring of two commands. *)
Definition demo_dev : hello_dev (Z * Z) (Z * Z) :=
  match ntrdma_dev_cmd_init (0, 0) (0, 0) demo_ntc 1 2 2 ∅ (mk_own_mw 0 0 (2 ^ 40) 0 (2 ^ 40) 1) demo_world with
  | Some (_, c, w) =>
      mk_hello_dev c
        (mk_dev_vbell false 4 3 0 (mk_vbells (replicate 4 ntrdma_vbell_head_init) ∅ [])
           (replicate 4 0) (replicate (Z.to_nat NTRDMA_DEV_VBELL_COUNT) ntrdma_peer_vbell_init)
           ntc_remote_buf_clear 0)
        (mk_export_buf 4096 4096 (mk_own_mw 0 0 (2 ^ 40) 0 (2 ^ 40) 1) 4096 true)
        w 0 0 0 MsgNone MsgNone 4096 4096
  | None =>
      mk_hello_dev (cmd_dev_blank 0 0 0 ∅ (mk_own_mw 0 0 0 0 0 0))
        (mk_dev_vbell false 0 0 0 (mk_vbells [] ∅ []) [] [] ntc_remote_buf_clear 0)
        (mk_export_buf 0 0 (mk_own_mw 0 0 0 0 0 0) 0 true) demo_world 0 0 0 MsgNone MsgNone 0 0
  end.

Lemma demo_idle : cmd_idle (hd_cmd demo_dev).
Proof.
  constructor; [constructor|..]; try (vm_compute; reflexivity).
  - by split.
  - apply (bool_decide_unpack _). vm_compute. exact I.
Qed.

(** A complete exchange of two such devices, B ahead of A in every phase. *)
Lemma demo_exchange :
  ∃ a b, rtc (hello_step (0, 0) (0, 0) demo_ntc demo_ntc)
           (mk_exchange demo_dev 0 demo_dev 0) (mk_exchange a 4 b 4).
Proof.
  eexists _, _.
  do 4 (eapply rtc_l; [eapply step_b; [lia|lia|vm_compute; reflexivity|vm_compute; discriminate]|];
        eapply rtc_l; [eapply step_a; [lia|lia|vm_compute; reflexivity|vm_compute; discriminate]|]).
  apply rtc_refl.
Qed.

Lemma hello_opens_channels_witness :
  ∃ a b, rtc (hello_step (0, 0) (0, 0) demo_ntc demo_ntc)
           (mk_exchange demo_dev 0 demo_dev 0) (mk_exchange a 4 b 4)
    ∧ hd_version a = hd_version b
    ∧ ch_init (mk_channel (cd_send (hd_cmd a)) tt (cd_recv (hd_cmd b)) 5 [] [] []).
Proof.
  destruct demo_exchange as (a & b & Hr). exists a, b. split; [exact Hr|].
  destruct (hello_opens_channels (0, 0) (0, 0) demo_ntc demo_ntc tt 5 demo_dev demo_dev a b
    demo_idle demo_idle Hr) as (Hv & _ & Hab & _).
  split; [exact Hv|exact Hab].
Defined.

Lemma version_choice_agrees_witness :
  ntrdma_version_choose (mk_phase1 [1; 2; 5] 3) (mk_phase1 [2; 5; 7] 3) = 5
  ∧ ntrdma_version_choose (mk_phase1 [1; 2; 5] 3) (mk_phase1 [2; 5; 7] 3)
    = ntrdma_version_choose (mk_phase1 [2; 5; 7] 3) (mk_phase1 [1; 2; 5] 3).
Proof.
  split; [reflexivity|].
  assert (∀ x y z, 0 < x < y → y < z → versions_ok (mk_phase1 [x; y; z] 3)) as Hok.
  { intros x y z Hx Hy. split; [reflexivity|]. cbn [h1_versions]. split.
    - intros [|[|[|i]]] [|[|[|k]]] v v' Hik H H'; cbn in H, H'; try lia; try discriminate;
        injection H as <-; injection H' as <-; lia.
    - intros v Hv. apply elem_of_cons in Hv as [->|Hv]; [unfold NTRDMA_VER_NONE; lia|].
      apply elem_of_cons in Hv as [->|Hv]; [unfold NTRDMA_VER_NONE; lia|].
      apply list_elem_of_singleton in Hv as ->. unfold NTRDMA_VER_NONE. lia. }
  exact (proj1 (version_choice_agrees (mk_phase1 [1; 2; 5] 3) (mk_phase1 [2; 5; 7] 3)
    (Hok 1 2 5 ltac:(split; reflexivity) eq_refl) (Hok 2 5 7 ltac:(split; reflexivity) eq_refl))).
Defined.

(** A peer that announces a ring larger than the limit. *)
Lemma cmd_prep_failure_clean_witness :
  ∃ d' w', cmd_hello_prep (0, 0) (0, 0) demo_ntc (mk_hello_info ntc_remote_buf_desc_clear 0 17 0 1 2)
             (hd_cmd demo_dev) demo_world = Some (- EIO, d', w')
    ∧ cmd_idle d' ∧ same_counts demo_world w'.
Proof.
  eexists _, _. split; [reflexivity|].
  destruct (cmd_prep_failure_clean (0, 0) (0, 0) demo_ntc
    (mk_hello_info ntc_remote_buf_desc_clear 0 17 0 1 2) (hd_cmd demo_dev) demo_world (- EIO)
    (hd_cmd demo_dev) demo_world demo_idle eq_refl eq_refl ltac:(discriminate)) as (_ & Hi & _ & Hs).
  split; [exact Hi|exact Hs].
Defined.

Definition demo_prepped : cmd_dev (Z * Z) (Z * Z) * buf_world :=
  match cmd_hello_prep (0, 0) (0, 0) demo_ntc (ntrdma_dev_cmd_hello_info (hd_cmd demo_dev))
          (hd_cmd demo_dev) (hd_mem demo_dev) with
  | Some (_, d, w) => (d, w)
  | None => (hd_cmd demo_dev, hd_mem demo_dev)
  end.

Lemma cmd_reset_then_idle_witness :
  is_cmd_prep (fst demo_prepped) = true
  ∧ ∃ d' w', ntrdma_dev_cmd_reset demo_ntc (fst demo_prepped) (snd demo_prepped) = Some (d', w')
      ∧ cmd_idle d'.
Proof.
  assert (is_cmd_prep (fst demo_prepped) = true) as Hp by (vm_compute; reflexivity).
  split; [exact Hp|].
  destruct (ntrdma_dev_cmd_reset demo_ntc (fst demo_prepped) (snd demo_prepped)) as [[d' w']|] eqn:Hr;
    [|vm_compute in Hr; discriminate].
  exists d', w'. split; [reflexivity|].
  refine (proj1 (cmd_reset_then_idle demo_ntc (fst demo_prepped) (snd demo_prepped) d' w' _ Hp Hr)).
  constructor; try (vm_compute; reflexivity).
  - split; reflexivity.
  - apply (bool_decide_unpack _). vm_compute. exact I.
Defined.

End Hello.
