(* ===== verification/Qp.v ===== *)
(** * Queue pairs (ntrdma_qp.h, ntrdma_qp.c)

    A queue pair owns a send ring and a receive ring; the peer holds an image
    of both, the remote queue pair.  Sending on one side consumes receives of
    the image of the other side's queue pair, moves the data, and copies the
    send entries to the peer, which consumes the same receives, completes them
    and copies the completions back.  The module translates these functions,
    the abort of a queue pair, and the polling of its completions. *)

From stdpp Require Import gmap.
From S2P Require Import Prelude Kernel Ring Wire Ntc Wr Mem Zip Vbell Mm Buf.
Import Ring Wire Ntc Wr Mem Zip Vbell Mm Buf.

Module Qp.

Definition NTRDMA_QP_BATCH_SIZE : Z := 16.

(** [enum ib_qp_state] of the kernel's rdma/ib_verbs.h. *)
Definition IB_QPS_RESET : Z := 0.
Definition IB_QPS_INIT : Z := 1.
Definition IB_QPS_RTR : Z := 2.
Definition IB_QPS_RTS : Z := 3.
Definition IB_QPS_SQD : Z := 4.
Definition IB_QPS_SQE : Z := 5.
Definition IB_QPS_ERR : Z := 6.

Definition is_state_valid (state : Z) : bool :=
  (IB_QPS_RESET <=? state) && (state <=? IB_QPS_ERR).

Definition is_state_send_ready (state : Z) : bool :=
  (state =? IB_QPS_RTR) || (state =? IB_QPS_RTS).

Definition is_state_recv_ready (state : Z) : bool :=
  (state =? IB_QPS_RTR) || (state =? IB_QPS_RTS) || (state =? IB_QPS_SQE).

Definition is_state_error (state : Z) : bool :=
  (state =? IB_QPS_ERR) || (state =? IB_QPS_SQE).

Definition is_state_out_of_reset (state : Z) : bool :=
  is_state_valid state && negb (is_state_error state) && negb (state =? IB_QPS_RESET).

(** ** Data *)

(** The two rings of a queue pair: capacity, indices, the entries, and the
    completions.  [sq_cqes] and [sq_cons] are the memory the peer writes. *)
Record send_ring := mk_send_ring {
  sq_cap : Z; sq_post : Z; sq_prod : Z; sq_cmpl : Z;
  sq_wqes : list ntrdma_send_wqe;
  sq_cqes : list ntrdma_cqe;
  sq_cons : Z }.

Record recv_ring := mk_recv_ring {
  rq_cap : Z; rq_post : Z; rq_prod : Z; rq_cons : Z; rq_cmpl : Z;
  rq_wqes : list ntrdma_recv_wqe;
  rq_cqes : list ntrdma_cqe }.

(** [recv_abort] ... [send_abort_first]. *)
Record abort_flags := mk_flags {
  recv_abort : bool; recv_aborting : bool; recv_abort_first : bool;
  send_abort : bool; send_aborting : bool; send_abort_first : bool }.

(** The buffers of the rings, those of their images at the peer, and the sizes
    of the entries. *)
Record qp_bufs := mk_qp_bufs {
  send_wqe_size : Z; recv_wqe_size : Z;
  send_wqe_sg_cap : Z; send_wqe_inline_cap : Z; recv_wqe_sg_cap : Z;
  send_wqe_buf : ntc_local_buf;
  recv_wqe_buf : ntc_local_buf;
  peer_send_wqe_buf : ntc_remote_buf;
  peer_send_prod_shift : Z;
  peer_send_vbell_idx : Z;
  peer_recv_wqe_buf : ntc_remote_buf;
  peer_recv_prod_shift : Z }.

Record ntrdma_qp := mk_qp {
  qp_key : Z;
  qp_rqp_key : Z;
  qp_access : Z;
  qp_state : Z;
  dma_chan_init : bool;
  qp_flags : abort_flags;
  qp_send : send_ring;
  qp_recv : recv_ring;
  qp_buf : qp_bufs }.

(** The image of the peer's queue pair.  [rs_wqes], [rs_prod], [rr_wqes] and
    [rr_prod] are the memory the peer writes. *)
Record rqp_send_ring := mk_rqp_send {
  rs_cap : Z; rs_cons : Z;
  rs_wqes : list ntrdma_send_wqe; rs_prod : Z;
  rs_cqes : list ntrdma_cqe }.

Record rqp_recv_ring := mk_rqp_recv {
  rr_cap : Z; rr_cons : Z;
  rr_wqes : list ntrdma_recv_wqe; rr_prod : Z;
  rr_wqe_size : Z }.

Record rqp_bufs := mk_rqp_bufs {
  rqp_send_cqe_buf : ntc_local_buf;
  rqp_peer_send_cqe_buf : ntc_remote_buf;
  rqp_peer_send_cons_shift : Z;
  rqp_peer_cmpl_vbell_idx : Z }.

Record ntrdma_rqp := mk_rqp {
  rqp_key : Z;
  rqp_qp_key : Z;
  rqp_state : Z;
  rqp_send : rqp_send_ring;
  rqp_recv : rqp_recv_ring;
  rqp_buf : rqp_bufs }.

(** What a run does besides changing the queue pairs, in order: the transfers
    of entries and indices, the doorbell operations, and for the specification
    the receive that a send was given at the sender ([EvUse]) and at the
    receiver ([EvFill]), and the [WARN_ON] of the receiver. *)
Inductive qp_event :=
  | EvWqes (start : Z) (l : list ntrdma_send_wqe)
  | EvSendProd (idx : Z)
  | EvRecvWqes (start : Z) (l : list ntrdma_recv_wqe)
  | EvRecvProd (idx : Z)
  | EvCqes (start : Z) (l : list ntrdma_cqe)
  | EvSendCons (idx : Z)
  | EvPeerVbell (idx : Z)
  | EvSignal
  | EvClear | EvReadd | EvTrigger
  | EvCueRecv
  | EvUse (wqe : ntrdma_send_wqe) (recv : ntrdma_recv_wqe)
  | EvFill (wqe : ntrdma_send_wqe) (recv : ntrdma_recv_wqe)
  | EvWarnRecvKey.

(** *** Setters *)

Definition sq_set_post (i : Z) (s : send_ring) : send_ring :=
  mk_send_ring (sq_cap s) i (sq_prod s) (sq_cmpl s) (sq_wqes s) (sq_cqes s) (sq_cons s).
Definition sq_set_prod (i : Z) (s : send_ring) : send_ring :=
  mk_send_ring (sq_cap s) (sq_post s) i (sq_cmpl s) (sq_wqes s) (sq_cqes s) (sq_cons s).
Definition sq_set_cmpl (i : Z) (s : send_ring) : send_ring :=
  mk_send_ring (sq_cap s) (sq_post s) (sq_prod s) i (sq_wqes s) (sq_cqes s) (sq_cons s).
Definition sq_set_wqes (l : list ntrdma_send_wqe) (s : send_ring) : send_ring :=
  mk_send_ring (sq_cap s) (sq_post s) (sq_prod s) (sq_cmpl s) l (sq_cqes s) (sq_cons s).
Definition sq_set_mem (m : list ntrdma_cqe * Z) (s : send_ring) : send_ring :=
  mk_send_ring (sq_cap s) (sq_post s) (sq_prod s) (sq_cmpl s) (sq_wqes s) (fst m) (snd m).

Definition rq_set_post (i : Z) (s : recv_ring) : recv_ring :=
  mk_recv_ring (rq_cap s) i (rq_prod s) (rq_cons s) (rq_cmpl s) (rq_wqes s) (rq_cqes s).
Definition rq_set_prod (i : Z) (s : recv_ring) : recv_ring :=
  mk_recv_ring (rq_cap s) (rq_post s) i (rq_cons s) (rq_cmpl s) (rq_wqes s) (rq_cqes s).
Definition rq_set_cons (i : Z) (s : recv_ring) : recv_ring :=
  mk_recv_ring (rq_cap s) (rq_post s) (rq_prod s) i (rq_cmpl s) (rq_wqes s) (rq_cqes s).
Definition rq_set_cmpl (i : Z) (s : recv_ring) : recv_ring :=
  mk_recv_ring (rq_cap s) (rq_post s) (rq_prod s) (rq_cons s) i (rq_wqes s) (rq_cqes s).
Definition rq_set_entries (w : list ntrdma_recv_wqe) (c : list ntrdma_cqe) (s : recv_ring) : recv_ring :=
  mk_recv_ring (rq_cap s) (rq_post s) (rq_prod s) (rq_cons s) (rq_cmpl s) w c.

Definition qp_set_send (r : send_ring) (q : ntrdma_qp) : ntrdma_qp :=
  mk_qp (qp_key q) (qp_rqp_key q) (qp_access q) (qp_state q) (dma_chan_init q) (qp_flags q) r
    (qp_recv q) (qp_buf q).
Definition qp_set_recv (r : recv_ring) (q : ntrdma_qp) : ntrdma_qp :=
  mk_qp (qp_key q) (qp_rqp_key q) (qp_access q) (qp_state q) (dma_chan_init q) (qp_flags q)
    (qp_send q) r (qp_buf q).
Definition qp_set_flags (f : abort_flags) (q : ntrdma_qp) : ntrdma_qp :=
  mk_qp (qp_key q) (qp_rqp_key q) (qp_access q) (qp_state q) (dma_chan_init q) f (qp_send q)
    (qp_recv q) (qp_buf q).
Definition qp_set_state (st : Z) (chan : bool) (q : ntrdma_qp) : ntrdma_qp :=
  mk_qp (qp_key q) (qp_rqp_key q) (qp_access q) st chan (qp_flags q) (qp_send q) (qp_recv q) (qp_buf q).
Definition qp_set_buf (b : qp_bufs) (q : ntrdma_qp) : ntrdma_qp :=
  mk_qp (qp_key q) (qp_rqp_key q) (qp_access q) (qp_state q) (dma_chan_init q) (qp_flags q)
    (qp_send q) (qp_recv q) b.

Definition set_recv_aborting (f : abort_flags) : abort_flags :=
  mk_flags (recv_abort f) true (recv_abort_first f) (send_abort f) (send_aborting f) (send_abort_first f).
Definition set_send_aborting (f : abort_flags) : abort_flags :=
  mk_flags (recv_abort f) (recv_aborting f) (recv_abort_first f) (send_abort f) true (send_abort_first f).

Definition wqe_set_recv_key (k : Z) (w : ntrdma_send_wqe) : ntrdma_send_wqe :=
  mk_send_wqe (sw_ulp_handle w) (sw_op_code w) (sw_op_status w) k (sw_rdma_sge w) (sw_imm_data w)
    (sw_flags w) (sw_sg_count w) (sw_snd_sg_list w) (sw_inline_data w).
Definition wqe_set_status (st : Z) (w : ntrdma_send_wqe) : ntrdma_send_wqe :=
  mk_send_wqe (sw_ulp_handle w) (sw_op_code w) st (sw_recv_key w) (sw_rdma_sge w) (sw_imm_data w)
    (sw_flags w) (sw_sg_count w) (sw_snd_sg_list w) (sw_inline_data w).
Definition wqe_set_length (n : Z) (w : ntrdma_send_wqe) : ntrdma_send_wqe :=
  mk_send_wqe (sw_ulp_handle w) (sw_op_code w) (sw_op_status w) (sw_recv_key w)
    (mk_sge (sge_addr (sw_rdma_sge w)) n (sge_lkey (sw_rdma_sge w))) (sw_imm_data w)
    (sw_flags w) (sw_sg_count w) (sw_snd_sg_list w) (sw_inline_data w).

Definition rs_set_cons (i : Z) (s : rqp_send_ring) : rqp_send_ring :=
  mk_rqp_send (rs_cap s) i (rs_wqes s) (rs_prod s) (rs_cqes s).
Definition rs_set_cqes (l : list ntrdma_cqe) (s : rqp_send_ring) : rqp_send_ring :=
  mk_rqp_send (rs_cap s) (rs_cons s) (rs_wqes s) (rs_prod s) l.
Definition rs_set_mem (m : list ntrdma_send_wqe * Z) (s : rqp_send_ring) : rqp_send_ring :=
  mk_rqp_send (rs_cap s) (rs_cons s) (fst m) (snd m) (rs_cqes s).
Definition rr_set_cons (i : Z) (s : rqp_recv_ring) : rqp_recv_ring :=
  mk_rqp_recv (rr_cap s) i (rr_wqes s) (rr_prod s) (rr_wqe_size s).
Definition rr_set_mem (m : list ntrdma_recv_wqe * Z) (s : rqp_recv_ring) : rqp_recv_ring :=
  mk_rqp_recv (rr_cap s) (rr_cons s) (fst m) (snd m) (rr_wqe_size s).
Definition rqp_set_send (s : rqp_send_ring) (r : ntrdma_rqp) : ntrdma_rqp :=
  mk_rqp (rqp_key r) (rqp_qp_key r) (rqp_state r) s (rqp_recv r) (rqp_buf r).
Definition rqp_set_recv (s : rqp_recv_ring) (r : ntrdma_rqp) : ntrdma_rqp :=
  mk_rqp (rqp_key r) (rqp_qp_key r) (rqp_state r) (rqp_send r) s (rqp_buf r).

(** ** The world of a run

    The data path's world, the doorbells rung at the peer, and the memory that
    shadows of receive entries hold. *)
Record qp_world {W : Type} := mk_qw {
  qw_zip : zip_world W;
  qw_vb : ntrdma_dev_vbell;
  qw_bufs : buf_world;
  qw_shadows : Z }.
Arguments qp_world : clear implicits.
Arguments mk_qw {W} _ _ _ _.

Definition qw_set_zip {W} (z : zip_world W) (w : qp_world W) : qp_world W :=
  mk_qw z (qw_vb w) (qw_bufs w) (qw_shadows w).

Definition qw_unrecoverable_err {W} (w : qp_world W) : qp_world W :=
  qw_set_zip (ntrdma_unrecoverable_err (qw_zip w)) w.

(** A request to the DMA channel. *)
Definition qw_request {W} (f : dma_io → Z * dma_io) (w : qp_world W) : Z * qp_world W :=
  let '(rc, io) := f (zw_io (qw_zip w)) in (rc, qw_set_zip (zw_set_io io (qw_zip w)) w).

(** The doorbell registers of the peer. *)
Record ntc_irq := mk_irq {
  peer_irq_num : Z;
  peer_irq_base : ntc_remote_buf;
  peer_irq_shift : list Z;
  peer_irq_data : list Z }.

Section Code.
Context {W : Type} `{M : MemStore W} `{K : Kernel}.

(** [vec] is what [NTB_DEFAULT_VEC] chose; [None]: outside the arrays. *)
Definition ntc_req_signal (irq : ntc_irq) (vec : Z) (s : dma_io) : option (Z * dma_io) :=
  if Z.of_nat (length (peer_irq_shift irq)) <? vec then Some (- EFAULT, s)
  else if peer_irq_num irq <? vec then Some (- EFAULT, s)
  else
    match peer_irq_shift irq !! Z.to_nat vec, peer_irq_data irq !! Z.to_nat vec with
    | Some shift, Some data => Some (ntc_request_imm32 (peer_irq_base irq) shift data false s)
    | _, _ => None
    end.

(** ** Ranges of the rings *)

Definition ntrdma_qp_recv_prod_get (r : recv_ring) : range :=
  ntrdma_ring_consume (rq_post r) (rq_prod r) (rq_cap r).
Definition ntrdma_qp_recv_prod_put (pos base : Z) (r : recv_ring) : recv_ring :=
  rq_set_prod (ntrdma_ring_update pos base (rq_cap r)) r.
Definition ntrdma_qp_recv_cons_get (r : recv_ring) : range :=
  ntrdma_ring_consume (rq_prod r) (rq_cons r) (rq_cap r).
Definition ntrdma_qp_recv_cons_put (pos base : Z) (r : recv_ring) : recv_ring :=
  rq_set_cons (ntrdma_ring_update pos base (rq_cap r)) r.
Definition ntrdma_qp_send_prod_get (s : send_ring) : range :=
  ntrdma_ring_consume (sq_post s) (sq_prod s) (sq_cap s).
Definition ntrdma_qp_send_prod_put (pos base : Z) (s : send_ring) : send_ring :=
  sq_set_prod (ntrdma_ring_update pos base (sq_cap s)) s.
Definition ntrdma_rqp_recv_cons_get (r : rqp_recv_ring) : range :=
  ntrdma_ring_consume (rr_prod r) (rr_cons r) (rr_cap r).
Definition ntrdma_rqp_recv_cons_put (pos base : Z) (r : rqp_recv_ring) : rqp_recv_ring :=
  rr_set_cons (ntrdma_ring_update pos base (rr_cap r)) r.
Definition ntrdma_rqp_send_cons_get (s : rqp_send_ring) : range :=
  ntrdma_ring_consume (rs_prod s) (rs_cons s) (rs_cap s).
Definition ntrdma_rqp_send_cons_put (pos base : Z) (s : rqp_send_ring) : rqp_send_ring :=
  rs_set_cons (ntrdma_ring_update pos base (rs_cap s)) s.

Definition r_empty (r : range) : bool := r_idx r =? r_end r.

(** ** Completion entries *)

Definition ntrdma_send_fail (w : ntrdma_send_wqe) (op_status : Z) : ntrdma_cqe :=
  mk_cqe (sw_ulp_handle w) (sw_op_code w) op_status 0 0 (sw_flags w).

Definition ntrdma_send_done (w : ntrdma_send_wqe) (rdma_len : Z) : ntrdma_cqe :=
  mk_cqe (sw_ulp_handle w) (sw_op_code w) NTRDMA_WC_SUCCESS rdma_len 0 (sw_flags w).

Definition ntrdma_send_recv_opcode (w : ntrdma_send_wqe) : Z :=
  if sw_op_code w =? NTRDMA_WR_SEND_INV then NTRDMA_WR_RECV_INV
  else if sw_op_code w =? IB_WR_SEND_WITH_IMM then NTRDMA_WR_RECV_IMM
  else if sw_op_code w =? IB_WR_RDMA_WRITE_WITH_IMM then NTRDMA_WR_RECV_RDMA
  else NTRDMA_WR_RECV.

Definition ntrdma_send_recv_len (w : ntrdma_send_wqe) : Z :=
  if (sw_op_code w =? IB_WR_SEND) || (sw_op_code w =? NTRDMA_WR_SEND_INV)
     || (sw_op_code w =? IB_WR_SEND_WITH_IMM)
  then sge_length (sw_rdma_sge w) else 0.

Definition ntrdma_send_recv_imm (w : ntrdma_send_wqe) : Z :=
  if (sw_op_code w =? NTRDMA_WR_SEND_INV) || (sw_op_code w =? IB_WR_SEND_WITH_IMM)
     || (sw_op_code w =? IB_WR_RDMA_WRITE_WITH_IMM)
  then sw_imm_data w else 0.

(** The entries of the gather and scatter lists, and the inline data. *)
Definition wqe_sges (w : ntrdma_send_wqe) : list ib_sge :=
  take (Z.to_nat (sw_sg_count w)) (sw_snd_sg_list w).
Definition wqe_inline (w : ntrdma_send_wqe) : list Z :=
  take (Z.to_nat (sw_sg_count w)) (sw_inline_data w).
Definition recv_sges (r : ntrdma_recv_wqe) : list ntrdma_wr_rcv_sge :=
  take (Z.to_nat (rw_sg_count r)) (rw_rcv_sg_list r).

(** ** Shadows of receive buffers *)

(** The other members of the unions, should they be read. *)
Definition shadow_addr (l : shadow_local) : Z :=
  match l with LocalAddr a => a | RcvDmaBuf b => lb_size b end.
Definition shadow_buf_ptr (l : shadow_local) : Z :=
  match l with RcvDmaBuf b => lb_ptr b | LocalAddr _ => 0 end.
Definition sge_of_desc (d : ntc_remote_buf_desc) : ib_sge :=
  mk_sge (chan_addr_value (rd_chan_addr d)) (u32 (rd_size d)) (Z.shiftr (rd_size d) 32).

(** [bytes ptr size] is the content of local memory when the copy is made. *)
Fixpoint recv_sync_loop (bytes : Z → Z → list Z) (l : list ntrdma_wr_rcv_sge) (rc : Z)
    (z : zip_world W) : Z * zip_world W :=
  match l with
  | [] => (rc, z)
  | RcvSge _ :: l => recv_sync_loop bytes l rc z
  | RcvShadow sh _ :: l =>
      let src := bytes (eb_ptr (sh_exp_buf sh)) (eb_size (sh_exp_buf sh)) in
      if sh_local_key sh =? NTRDMA_RESERVED_DMA_LEKY then
        recv_sync_loop bytes l rc (zw_cpu_op (CpuWrite (shadow_buf_ptr (sh_local sh)) src) z)
      else
        let '(rc1, z) := ntrdma_zip_memcpy (sh_local_key sh) (shadow_addr (sh_local sh)) src z in
        recv_sync_loop bytes l (Z.min rc rc1) z
  end.

Definition ntrdma_recv_wqe_sync (bytes : Z → Z → list Z) (r : ntrdma_recv_wqe) (z : zip_world W)
  : Z * zip_world W :=
  recv_sync_loop bytes (recv_sges r) 0 z.

Fixpoint recv_cleanup_loop (ntc : ntc_dev) (l : list ntrdma_wr_rcv_sge) (w : qp_world W)
  : option (list ntrdma_wr_rcv_sge * qp_world W) :=
  match l with
  | [] => Some ([], w)
  | RcvSge s :: l =>
      match recv_cleanup_loop ntc l w with
      | Some (l, w) => Some (RcvSge s :: l, w)
      | None => None
      end
  | RcvShadow sh d :: l =>
      match ntc_export_buf_free ntc (sh_exp_buf sh) (qw_bufs w) with
      | None => None
      | Some (_, b) =>
          match recv_cleanup_loop ntc l (mk_qw (qw_zip w) (qw_vb w) b (qw_shadows w - 1)) with
          | Some (l, w) => Some (RcvSge (sge_of_desc d) :: l, w)
          | None => None
          end
      end
  end.

Definition ntrdma_recv_wqe_cleanup (ntc : ntc_dev) (r : ntrdma_recv_wqe) (w : qp_world W)
  : option (ntrdma_recv_wqe * qp_world W) :=
  match recv_cleanup_loop ntc (recv_sges r) w with
  | None => None
  | Some (l, w) =>
      Some (mk_recv_wqe (rw_ulp_handle r) (rw_op_code r) (rw_op_status r) 0
              (l ++ drop (Z.to_nat (rw_sg_count r)) (rw_rcv_sg_list r)), w)
  end.

(** The completion keeps the [flags] that the entry had. *)
Definition ntrdma_recv_fail (ntc : ntc_dev) (old : ntrdma_cqe) (r : ntrdma_recv_wqe) (op_status : Z)
    (w : qp_world W) : option (ntrdma_cqe * ntrdma_recv_wqe * qp_world W) :=
  match ntrdma_recv_wqe_cleanup ntc r w with
  | None => None
  | Some (r', w) =>
      Some (mk_cqe (rw_ulp_handle r) (rw_op_code r) op_status 0 0 (cqe_flags old), r', w)
  end.

Definition ntrdma_recv_done (ntc : ntc_dev) (bytes : Z → Z → list Z) (old : ntrdma_cqe)
    (r : ntrdma_recv_wqe) (s : ntrdma_send_wqe) (w : qp_world W)
  : option (Z * ntrdma_cqe * ntrdma_recv_wqe * qp_world W) :=
  let cqe := mk_cqe (rw_ulp_handle r) (ntrdma_send_recv_opcode s) NTRDMA_WC_SUCCESS
               (ntrdma_send_recv_len s) (ntrdma_send_recv_imm s) (cqe_flags old) in
  let '(rc, z) := ntrdma_recv_wqe_sync bytes r (qw_zip w) in
  match ntrdma_recv_wqe_cleanup ntc r (qw_set_zip z w) with
  | None => None
  | Some (r', w) => Some (rc, cqe, r', w)
  end.

(** ** Receives are produced to the peer *)

(** What the transfers did to the world, and the events. *)
Definition qp_run : Type := ntrdma_qp * qp_world W * list qp_event.

Definition slots {A} (start end_ : Z) (l : list A) : list A :=
  take (Z.to_nat (end_ - start)) (drop (Z.to_nat start) l).

(** One copy per pass; the range is taken anew until it is empty. *)
Fixpoint recv_work_loop (fuel : nat) (r : range) (q : ntrdma_qp) (w : qp_world W) (evs : list qp_event)
  : option (Z * qp_run) :=
  match fuel with
  | O => None
  | S fuel =>
      let q := qp_set_recv (ntrdma_qp_recv_prod_put (r_end r) (r_base r) (qp_recv q)) q in
      let b := qp_buf q in
      let off := u64 (r_idx r * recv_wqe_size b) in
      let len := u64 ((r_end r - r_idx r) * recv_wqe_size b) in
      let '(rc, w) := qw_request
        (ntc_request_memcpy_fenced (peer_recv_wqe_buf b) off (recv_wqe_buf b) off len NTC_DMA_WAIT) w in
      if rc <? 0 then Some (rc, (q, w, evs))
      else
        let evs := evs ++ [EvRecvWqes (r_idx r) (slots (r_idx r) (r_end r) (rq_wqes (qp_recv q)))] in
        let r := ntrdma_qp_recv_prod_get (qp_recv q) in
        if r_empty r then Some (rc, (q, w, evs)) else recv_work_loop fuel r q w evs
  end.

(** A ring crosses the end of its buffer at most once, hence two passes. *)
Definition ntrdma_qp_recv_work (q : ntrdma_qp) (w : qp_world W) : option qp_run :=
  if negb (is_state_recv_ready (qp_state q)) then
    Some (qp_set_flags (set_recv_aborting (qp_flags q)) q, w, [])
  else
    let r := ntrdma_qp_recv_prod_get (qp_recv q) in
    if r_empty r then Some (q, w, [])
    else
      match recv_work_loop 2 r q w [] with
      | None => None
      | Some (rc, (q, w, evs)) =>
          let b := qp_buf q in
          let '(rc, w, evs) :=
            if rc <? 0 then (rc, w, evs)
            else
              let '(rc, w) := qw_request
                (ntc_request_imm32 (peer_recv_wqe_buf b) (peer_recv_prod_shift b)
                   (rq_prod (qp_recv q)) true) w in
              (rc, w, if rc <? 0 then evs else evs ++ [EvRecvProd (rq_prod (qp_recv q))]) in
          let '(_, w) := qw_request (λ s, (0, ntc_req_submit s)) w in
          Some (q, if rc <? 0 then qw_unrecoverable_err w else w, evs)
      end.

(** ** Sends are produced to the peer *)

Definition check_recv_wqe_sanity (wqe_size : Z) (r : ntrdma_recv_wqe) : bool :=
  u64 (sizeof_recv_wqe + u64 (rw_sg_count r * sizeof_wr_rcv_sge)) <=? wqe_size.

(** [rdma_len] is undefined when the copy fails and is not used then. *)
Definition ntrdma_qp_rdma_write (ntc : ntc_dev) (wqe : ntrdma_send_wqe) (z : zip_world W)
  : option (Z * ntrdma_send_wqe * zip_world W) :=
  let wait := if negb (Z.land (sw_flags wqe) IB_SEND_SIGNALED =? 0) then NTC_DMA_WAIT
              else NTC_DMA_DONT_WAIT in
  if ntrdma_ib_sge_reserved (sw_rdma_sge wqe) then Some (- EINVAL, wqe, z)
  else
    let rdma_sge := RcvSge (mk_sge (sge_addr (sw_rdma_sge wqe)) (2 ^ 32 - 1) (sge_lkey (sw_rdma_sge wqe))) in
    let out :=
      if negb (Z.land (sw_flags wqe) IB_SEND_INLINE =? 0) then
        match ntrdma_zip_rdma_imm ntc [rdma_sge] (wqe_inline wqe) 0 z with
        | Some (rc, z) => Some (rc, sw_sg_count wqe, z)
        | None => None
        end
      else ntrdma_zip_rdma ntc 0 [rdma_sge] (wqe_sges wqe) 0 wait z in
    match out with
    | None => None
    | Some (rc, rdma_len, z) =>
        Some (rc, if 0 <=? rc then wqe_set_length rdma_len wqe else wqe, z)
    end.

(** The variables of the loop of [ntrdma_qp_send_work]. *)
Record send_run := mk_send_run {
  sn_pos : Z;
  sn_recv : range;
  sn_wqes : list ntrdma_send_wqe;
  sn_rr : rqp_recv_ring;
  sn_zip : zip_world W;
  sn_evs : list qp_event }.

(** How an iteration ends: with the next entry, or by a [break]. *)
Inductive send_next := SendNext | SendStop (abort reschedule : bool).

Definition status_unless (old new : Z) : Z := if old =? 0 then new else old.

(** Taking a receive for a send: the entry with its [recv_key], and the receive
    or the status of a failure. *)
Definition send_take_recv (wqe : ntrdma_send_wqe) (rr : rqp_recv_ring) (r : range)
  : option (ntrdma_send_wqe * rqp_recv_ring * range * (ntrdma_recv_wqe + Z)) :=
  let wqe := wqe_set_recv_key (u32 (r_idx r + r_base r)) wqe in
  if r_idx r =? r_end r then Some (wqe, rr, r, inr NTRDMA_WC_ERR_RECV_MISSING)
  else
    match rr_wqes rr !! Z.to_nat (r_idx r) with
    | None => None
    | Some recv =>
        let r := mk_range (r_idx r + 1) (r_end r) (r_base r) in
        if negb (rw_op_status recv =? 0) then Some (wqe, rr, r, inr (rw_op_status recv))
        else if r_idx r =? r_end r then
          let rr := ntrdma_rqp_recv_cons_put (r_idx r) (r_base r) rr in
          Some (wqe, rr, ntrdma_rqp_recv_cons_get rr, inl recv)
        else Some (wqe, rr, r, inl recv)
    end.

(** Moving the data of one entry: the code, the entry with the length moved. *)
Definition send_push (ntc : ntc_dev) (wqe : ntrdma_send_wqe) (recv : option ntrdma_recv_wqe)
    (wqe_size : Z) (z : zip_world W) : option (Z * ntrdma_send_wqe * zip_world W) :=
  if negb (ntrdma_wr_code_push_data (sw_op_code wqe)) then Some (0, wqe, z)
  else if ntrdma_wr_code_is_rdma (sw_op_code wqe) then ntrdma_qp_rdma_write ntc wqe z
  else
    match recv with
    | None => None
    | Some recv =>
        if check_recv_wqe_sanity wqe_size recv then
          match ntrdma_zip_rdma ntc 0 (recv_sges recv) (wqe_sges wqe) 0 NTC_DMA_WAIT z with
          | None => None
          | Some (rc, rdma_len, z) =>
              Some (rc, if 0 <=? rc then wqe_set_length rdma_len wqe else wqe, z)
          end
        else Some (- EINVAL, wqe, z)
    end.

(** The state after an iteration that stores [wqe]. *)
Definition send_store (s : send_run) (wqe : ntrdma_send_wqe) (rr : rqp_recv_ring) (r : range)
    (z : zip_world W) (evs : list qp_event) : send_run :=
  mk_send_run (sn_pos s + 1) r (<[Z.to_nat (sn_pos s) := wqe]> (sn_wqes s)) rr z (sn_evs s ++ evs).

(** From the check of the entry's own status to the end of an iteration. *)
Definition send_move (ntc : ntc_dev) (end_ : Z) (s : send_run) (wqe : ntrdma_send_wqe)
    (rr : rqp_recv_ring) (r : range) (recv : option ntrdma_recv_wqe) : option (send_run * send_next) :=
  let use wqe := match recv with Some recv => [EvUse wqe recv] | None => [] end in
  if negb (sw_op_status wqe =? 0) then Some (send_store s wqe rr r (sn_zip s) [], SendStop true false)
  else
    match send_push ntc wqe recv (rr_wqe_size rr) (sn_zip s) with
    | None => None
    | Some (rc, wqe, z) =>
        if negb (rc =? 0) then
          if rc =? - EAGAIN then
            let wqe := wqe_set_status NTRDMA_WC_ERR_LOC_PORT wqe in
            Some (send_store s wqe rr r z (use wqe), SendStop false false)
          else
            let wqe := wqe_set_status NTRDMA_WC_ERR_RDMA_RANGE wqe in
            Some (send_store s wqe rr r z [], SendStop true false)
        else
          Some (send_store s wqe rr r z (use wqe),
                if sn_pos s + 1 =? end_ then SendStop false true else SendNext)
    end.

Definition send_iter (ntc : ntc_dev) (end_ : Z) (s : send_run) : option (send_run * send_next) :=
  match sn_wqes s !! Z.to_nat (sn_pos s) with
  | None => None
  | Some wqe =>
      if ntrdma_wr_code_is_send (sw_op_code wqe) then
        match send_take_recv wqe (sn_rr s) (sn_recv s) with
        | None => None
        | Some (wqe, rr, r, inr st) =>
            let wqe := wqe_set_status (status_unless (sw_op_status wqe) st) wqe in
            Some (send_store s wqe rr r (sn_zip s) [], SendStop true false)
        | Some (wqe, rr, r, inl recv) => send_move ntc end_ s wqe rr r (Some recv)
        end
      else send_move ntc end_ s wqe (sn_rr s) (sn_recv s) None
  end.

(** [n] bounds the passes by the number of entries of the range; the last one
    stops. *)
Fixpoint send_loop (n : nat) (ntc : ntc_dev) (end_ : Z) (s : send_run)
  : option (send_run * bool * bool) :=
  match n with
  | O => None
  | S n =>
      match send_iter ntc end_ s with
      | None => None
      | Some (s, SendStop abort resched) => Some (s, abort, resched)
      | Some (s, SendNext) => send_loop n ntc end_ s
      end
  end.

(** The entries, the index, the doorbell and the signal go out in order; the
    first failure ends the sequence with an error. *)
Definition send_transfers (irq : ntc_irq) (vec : Z) (start pos : Z) (b : qp_bufs) (s : send_ring)
    (w : qp_world W) : option (Z * qp_world W * list qp_event) :=
  let off := u64 (start * send_wqe_size b) in
  let len := u64 ((pos - start) * send_wqe_size b) in
  let '(rc, w) := qw_request
    (ntc_request_memcpy_fenced (peer_send_wqe_buf b) off (send_wqe_buf b) off len NTC_DMA_WAIT) w in
  if (rc <? 0) && negb (rc =? - EAGAIN) then Some (rc, w, [])
  else
    let evs := if rc <? 0 then [] else [EvWqes start (slots start pos (sq_wqes s))] in
    let '(rc, w) := qw_request
      (ntc_request_imm32 (peer_send_wqe_buf b) (peer_send_prod_shift b) (sq_prod s) true) w in
    if rc <? 0 then Some (rc, w, evs)
    else
      let evs := evs ++ [EvSendProd (sq_prod s)] in
      match ntrdma_dev_vbell_peer (peer_send_vbell_idx b) (qw_vb w) (zw_io (qw_zip w)) with
      | None => None
      | Some (rc, vb, io) =>
          let w := mk_qw (zw_set_io io (qw_zip w)) vb (qw_bufs w) (qw_shadows w) in
          if rc <? 0 then Some (rc, w, evs)
          else
            let evs := evs ++ [EvPeerVbell (peer_send_vbell_idx b)] in
            match ntc_req_signal irq vec (zw_io (qw_zip w)) with
            | None => None
            | Some (rc, io) =>
                let w := qw_set_zip (zw_set_io io (qw_zip w)) w in
                Some (rc, w, if rc <? 0 then evs else evs ++ [EvSignal])
            end
      end.

(** [rqp] is what the look-up under [rqp_key] finds; the reference it takes is
    given back on every path.  The result is [reschedule]. *)
Definition ntrdma_qp_send_work (ntc : ntc_dev) (irq : ntc_irq) (vec : Z) (q : ntrdma_qp)
    (rqp : option ntrdma_rqp) (w : qp_world W)
  : option (bool * ntrdma_qp * option ntrdma_rqp * qp_world W * list qp_event) :=
  let r := ntrdma_qp_send_prod_get (qp_send q) in
  if r_empty r then Some (false, q, rqp, w, [])
  else if send_abort (qp_flags q) || send_aborting (qp_flags q) then Some (false, q, rqp, w, [])
  else
    match rqp with
    | None => Some (false, q, rqp, w, [])
    | Some p =>
        if negb (is_state_recv_ready (rqp_state p)) then Some (false, q, rqp, w, [])
        else
          let start := r_idx r in
          let q := qp_set_state (qp_state q) true q in
          let s := mk_send_run start (ntrdma_rqp_recv_cons_get (rqp_recv p)) (sq_wqes (qp_send q))
                     (rqp_recv p) (qw_zip w) [] in
          match send_loop (Z.to_nat (r_end r - start)) ntc (r_end r) s with
          | None => None
          | Some (s, abort, resched) =>
              let rr := ntrdma_rqp_recv_cons_put (r_idx (sn_recv s)) (r_base (sn_recv s)) (sn_rr s) in
              let p := rqp_set_recv rr p in
              let w := qw_set_zip (sn_zip s) w in
              let sq := ntrdma_qp_send_prod_put (sn_pos s) (r_base r) (sq_set_wqes (sn_wqes s) (qp_send q)) in
              let q := qp_set_send sq q in
              if abort then Some (resched, q, Some p, qw_unrecoverable_err w, sn_evs s)
              else if sn_pos s =? start then Some (resched, q, Some p, w, sn_evs s)
              else
                match send_transfers irq vec start (sn_pos s) (qp_buf q) sq w with
                | None => None
                | Some (rc, w, evs) =>
                    Some (resched, q, Some p, if rc <? 0 then qw_unrecoverable_err w else w,
                          sn_evs s ++ evs)
                end
          end
    end.

(** ** Sends are consumed from the peer *)

(** The variables of the loop of [ntrdma_rqp_send_work]. *)
Record rqp_run := mk_rqp_run {
  cn_pos : Z;
  cn_recv : range;
  cn_cqes : list ntrdma_cqe;
  cn_rq : recv_ring;
  cn_world : qp_world W;
  cn_signal : bool;
  cn_cue : bool;
  cn_evs : list qp_event }.

(** How an iteration ends. *)
Inductive rqp_next := RqpNext | RqpAbort | RqpDone.

(** The receive a send consumes: none with a status for the send when that is
    an error. *)
Inductive rqp_take :=
  | TakeNone
  | TakeFail (st : Z) (warn : bool)
  | TakeRecv (old : ntrdma_cqe) (recv : ntrdma_recv_wqe).

Definition rqp_take_recv (wqe : ntrdma_send_wqe) (rq : recv_ring) (r : range) : option rqp_take :=
  if negb (ntrdma_wr_code_is_send (sw_op_code wqe)) then Some TakeNone
  else if ntrdma_wr_status_no_recv (sw_op_status wqe) then Some (TakeFail (sw_op_status wqe) false)
  else if negb (sw_recv_key wqe =? u32 (r_idx r + r_base r)) then
    Some (TakeFail (status_unless (sw_op_status wqe) NTRDMA_WC_ERR_CORRUPT) true)
  else if r_idx r =? r_end r then
    Some (TakeFail (status_unless (sw_op_status wqe) NTRDMA_WC_ERR_RECV_MISSING) false)
  else
    match rq_cqes rq !! Z.to_nat (r_idx r), rq_wqes rq !! Z.to_nat (r_idx r) with
    | Some old, Some recv => Some (TakeRecv old recv)
    | _, _ => None
    end.

(** Completing the send, and the receive when there is one: the completion of
    the send ([old] when none is written) and that of the receive. *)
Definition rqp_push (ntc : ntc_dev) (bytes : Z → Z → list Z) (wqe : ntrdma_send_wqe)
    (recv : option (ntrdma_cqe * ntrdma_recv_wqe)) (w : qp_world W)
  : option (option (ntrdma_cqe * ntrdma_recv_wqe) * qp_world W) :=
  let synced :=
    if ntrdma_wr_code_is_rdma (sw_op_code wqe) then
      if negb (ntrdma_ib_sge_reserved (sw_rdma_sge wqe)) then
        match ntrdma_zip_sync [RcvSge (sw_rdma_sge wqe)] (qw_zip w) with
        | Some (_, z) => Some (qw_set_zip z w)
        | None => None
        end
      else Some w
    else
      match recv with
      | None => None
      | Some (_, rw) =>
          match ntrdma_zip_sync (recv_sges rw) (qw_zip w) with
          | Some (_, z) => Some (qw_set_zip z w)
          | None => None
          end
      end in
  match synced with
  | None => None
  | Some w =>
      match recv with
      | None => Some (None, w)
      | Some (old, rw) =>
          match ntrdma_recv_done ntc bytes old rw wqe w with
          | None => None
          | Some (_, cqe, rw', w) => Some (Some (cqe, rw'), w)
          end
      end
  end.

Definition rq_store (i : Z) (o : option (ntrdma_cqe * ntrdma_recv_wqe)) (rq : recv_ring) : recv_ring :=
  match o with
  | Some (c, r) =>
      rq_set_entries (<[Z.to_nat i := r]> (rq_wqes rq)) (<[Z.to_nat i := c]> (rq_cqes rq)) rq
  | None => rq
  end.

(** The state after an iteration with the completion [cqe]. *)
Definition rqp_state_after (s : rqp_run) (wqe : ntrdma_send_wqe) (cqe : ntrdma_cqe) (r : range)
    (rq : recv_ring) (w : qp_world W) (cue : bool) (evs : list qp_event) : rqp_run :=
  mk_rqp_run (cn_pos s + 1) r (<[Z.to_nat (cn_pos s) := cqe]> (cn_cqes s)) rq w
    (cn_signal s || negb (Z.land (sw_flags wqe) IB_SEND_SIGNALED =? 0)) (cn_cue s || cue)
    (cn_evs s ++ evs).

(** The send or its receive carries an error. *)
Definition rqp_reject (ntc : ntc_dev) (wqe : ntrdma_send_wqe) (r : range) (recv_status : Z)
    (recv : option (ntrdma_cqe * ntrdma_recv_wqe)) (s : rqp_run) : option (rqp_run * rqp_next) :=
  let cqe := ntrdma_send_fail wqe (status_unless (sw_op_status wqe) recv_status) in
  match recv with
  | None => Some (rqp_state_after s wqe cqe r (cn_rq s) (cn_world s) false [], RqpAbort)
  | Some (old, rw) =>
      let st := if recv_status =? 0 then sw_op_status wqe else recv_status in
      match ntrdma_recv_fail ntc old rw st (cn_world s) with
      | None => None
      | Some (c, rw', w) =>
          Some (rqp_state_after s wqe cqe r (rq_store (r_idx (cn_recv s)) (Some (c, rw')) (cn_rq s)) w true [],
                RqpAbort)
      end
  end.

(** Completing the send in good order, to the end of the iteration. *)
Definition rqp_complete (ntc : ntc_dev) (bytes : Z → Z → list Z) (end_ : Z) (wqe : ntrdma_send_wqe)
    (old_cqe : ntrdma_cqe) (r : range) (recv : option (ntrdma_cqe * ntrdma_recv_wqe)) (s : rqp_run)
  : option (rqp_run * rqp_next) :=
  match (if ntrdma_wr_code_push_data (sw_op_code wqe) then
           match rqp_push ntc bytes wqe recv (cn_world s) with
           | Some (o, w) => Some (o, w, ntrdma_send_done wqe (sge_length (sw_rdma_sge wqe)))
           | None => None
           end
         else
           Some (None, cn_world s,
             if ntrdma_wr_code_pull_data (sw_op_code wqe)
             then ntrdma_send_fail wqe NTRDMA_WC_ERR_RDMA_ACCESS else old_cqe)) with
  | None => None
  | Some (o, w, cqe) =>
      let rq := rq_store (r_idx (cn_recv s)) o (cn_rq s) in
      let '(rq, r) :=
        if r_idx r =? r_end r then
          let rq := ntrdma_qp_recv_cons_put (r_idx r) (r_base r) rq in
          (rq, ntrdma_qp_recv_cons_get rq)
        else (rq, r) in
      let fin := cn_pos s + 1 =? end_ in
      let evs := match recv with Some (_, rw) => [EvFill wqe rw] | None => [] end in
      Some (rqp_state_after s wqe cqe r rq w (match recv with Some _ => true | None => false end)
              (evs ++ if fin then [EvTrigger] else []),
            if fin then RqpDone else RqpNext)
  end.

Definition rqp_iter (ntc : ntc_dev) (bytes : Z → Z → list Z) (wqes : list ntrdma_send_wqe) (end_ : Z)
    (s : rqp_run) : option (rqp_run * rqp_next) :=
  match wqes !! Z.to_nat (cn_pos s), cn_cqes s !! Z.to_nat (cn_pos s) with
  | Some wqe, Some old_cqe =>
      match rqp_take_recv wqe (cn_rq s) (cn_recv s) with
      | None => None
      | Some (TakeFail st warn) =>
          Some (rqp_state_after s wqe (ntrdma_send_fail wqe st) (cn_recv s) (cn_rq s) (cn_world s) false
                  (if warn then [EvWarnRecvKey] else []), RqpAbort)
      | Some TakeNone =>
          if negb (sw_op_status wqe =? 0) then rqp_reject ntc wqe (cn_recv s) 0 None s
          else rqp_complete ntc bytes end_ wqe old_cqe (cn_recv s) None s
      | Some (TakeRecv old rw) =>
          let r := mk_range (r_idx (cn_recv s) + 1) (r_end (cn_recv s)) (r_base (cn_recv s)) in
          if negb (rw_op_status rw =? 0) || negb (sw_op_status wqe =? 0)
          then rqp_reject ntc wqe r (rw_op_status rw) (Some (old, rw)) s
          else rqp_complete ntc bytes end_ wqe old_cqe r (Some (old, rw)) s
      end
  | _, _ => None
  end.

Fixpoint rqp_loop (n : nat) (ntc : ntc_dev) (bytes : Z → Z → list Z) (wqes : list ntrdma_send_wqe)
    (end_ : Z) (s : rqp_run) : option (rqp_run * bool) :=
  match n with
  | O => None
  | S n =>
      match rqp_iter ntc bytes wqes end_ s with
      | None => None
      | Some (s, RqpAbort) => Some (s, true)
      | Some (s, RqpDone) => Some (s, false)
      | Some (s, RqpNext) => rqp_loop n ntc bytes wqes end_ s
      end
  end.

(** The completions, the index and, when one of the sends asked for it, the
    doorbell and the signal. *)
Definition rqp_transfers (irq : ntc_irq) (vec : Z) (start pos : Z) (signal : bool) (b : rqp_bufs)
    (s : rqp_send_ring) (w : qp_world W) : option (Z * qp_world W * list qp_event) :=
  let off := u64 (start * sizeof_cqe) in
  let len := u64 ((pos - start) * sizeof_cqe) in
  let '(rc, w) := qw_request
    (ntc_request_memcpy_fenced (rqp_peer_send_cqe_buf b) off (rqp_send_cqe_buf b) off len NTC_DMA_WAIT) w in
  if rc <? 0 then Some (rc, w, [])
  else
    let evs := [EvCqes start (slots start pos (rs_cqes s))] in
    let '(rc, w) := qw_request
      (ntc_request_imm32 (rqp_peer_send_cqe_buf b) (rqp_peer_send_cons_shift b) (rs_cons s) true) w in
    if rc <? 0 then Some (rc, w, evs)
    else
      let evs := evs ++ [EvSendCons (rs_cons s)] in
      if negb signal then Some (0, w, evs)
      else
        match ntrdma_dev_vbell_peer (rqp_peer_cmpl_vbell_idx b) (qw_vb w) (zw_io (qw_zip w)) with
        | None => None
        | Some (rc, vb, io) =>
            let w := mk_qw (zw_set_io io (qw_zip w)) vb (qw_bufs w) (qw_shadows w) in
            if rc <? 0 then Some (rc, snd (qw_request (λ s, (0, ntc_req_submit s)) w), evs)
            else
              let evs := evs ++ [EvPeerVbell (rqp_peer_cmpl_vbell_idx b)] in
              match ntc_req_signal irq vec (zw_io (qw_zip w)) with
              | None => None
              | Some (rc, io) =>
                  let w := qw_set_zip (zw_set_io io (qw_zip w)) w in
                  Some (rc, w, if rc <? 0 then evs else evs ++ [EvSignal])
              end
        end.

(** [qp] is what the look-up under [qp_key] finds, [chan] whether there is a
    DMA channel for it. *)
Definition ntrdma_rqp_send_work (ntc : ntc_dev) (irq : ntc_irq) (vec : Z) (bytes : Z → Z → list Z)
    (chan : bool) (p : ntrdma_rqp) (qp : option ntrdma_qp) (w : qp_world W)
  : option (ntrdma_rqp * option ntrdma_qp * qp_world W * list qp_event) :=
  if negb (is_state_send_ready (rqp_state p)) then Some (p, qp, w, [])
  else
    let r := ntrdma_rqp_send_cons_get (rqp_send p) in
    if r_empty r then Some (p, qp, w, [EvClear; EvReadd])
    else
      let start := r_idx r in
      let end_ := Z.min (r_end r) (start + NTRDMA_QP_BATCH_SIZE) in
      match qp with
      | None => Some (p, qp, w, [EvClear])
      | Some q =>
          if negb chan then Some (p, qp, w, [EvClear])
          else if negb (is_state_recv_ready (qp_state q)) then Some (p, qp, w, [EvClear])
          else
            let s := mk_rqp_run start (ntrdma_qp_recv_cons_get (qp_recv q)) (rs_cqes (rqp_send p))
                       (qp_recv q) w false false [] in
            match rqp_loop (Z.to_nat (end_ - start)) ntc bytes (rs_wqes (rqp_send p)) end_ s with
            | None => None
            | Some (s, abort) =>
                let rq := ntrdma_qp_recv_cons_put (r_idx (cn_recv s)) (r_base (cn_recv s)) (cn_rq s) in
                let q := qp_set_recv rq q in
                let evs := [EvClear] ++ cn_evs s ++ if cn_cue s then [EvCueRecv] else [] in
                let rs := ntrdma_rqp_send_cons_put (cn_pos s) (r_base r) (rs_set_cqes (cn_cqes s) (rqp_send p)) in
                let p := rqp_set_send rs p in
                if abort then Some (p, Some q, qw_unrecoverable_err (cn_world s), evs)
                else
                  match rqp_transfers irq vec start (cn_pos s) (cn_signal s) (rqp_buf p) rs (cn_world s) with
                  | None => None
                  | Some (rc, w, sent) =>
                      let '(_, w) := qw_request (λ s, (0, ntc_req_submit s)) w in
                      Some (p, Some q, if rc <? 0 then qw_unrecoverable_err w else w, evs ++ sent)
                  end
            end
      end.

End Code.

(** ** Completions are polled *)

Definition ntrdma_qp_send_cmpl_get (q : ntrdma_qp) : range * ntrdma_qp :=
  let f := qp_flags q in let s := qp_send q in
  let s := if send_abort f then sq_set_mem (sq_cqes s, sq_post s) (sq_set_prod (sq_post s) s) else s in
  let r := ntrdma_ring_consume (sq_cons s) (sq_cmpl s) (sq_cap s) in
  let f := if send_aborting f && r_empty r && negb (send_abort f)
           then mk_flags (recv_abort f) (recv_aborting f) (recv_abort_first f) true (send_aborting f) true
           else f in
  (r, qp_set_flags f (qp_set_send s q)).

Definition ntrdma_qp_recv_cmpl_get (q : ntrdma_qp) : range * ntrdma_qp :=
  let f := qp_flags q in let s := qp_recv q in
  let s := if recv_abort f then rq_set_cons (rq_post s) s else s in
  let r := ntrdma_ring_consume (rq_cons s) (rq_cmpl s) (rq_cap s) in
  let f := if recv_aborting f && r_empty r && negb (recv_abort f)
           then mk_flags true (recv_aborting f) true (send_abort f) (send_aborting f) (send_abort_first f)
           else f in
  (r, qp_set_flags f (qp_set_recv s q)).

Definition batch (r : range) : range :=
  mk_range (r_idx r) (Z.min (r_end r) (r_idx r + NTRDMA_QP_BATCH_SIZE)) (r_base r).

Definition ntrdma_qp_poll_send_start_and_get (q : ntrdma_qp) : Z * range * ntrdma_qp :=
  let '(r, q) := ntrdma_qp_send_cmpl_get q in
  if negb (r_empty r) then (0, batch r, q)
  else
    let '(r, q) := if send_abort_first (qp_flags q) then ntrdma_qp_send_cmpl_get q else (r, q) in
    ((if r_empty r then - EAGAIN else 0), batch r, q).

Definition ntrdma_qp_poll_recv_start_and_get (q : ntrdma_qp) : Z * range * ntrdma_qp :=
  let '(r, q) := ntrdma_qp_recv_cmpl_get q in
  if negb (r_empty r) then (0, batch r, q)
  else
    let '(r, q) := if recv_abort_first (qp_flags q) then ntrdma_qp_recv_cmpl_get q else (r, q) in
    ((if r_empty r then - EAGAIN else 0), batch r, q).

Definition ntrdma_qp_poll_send_put_and_done (pos base : Z) (q : ntrdma_qp) : ntrdma_qp :=
  let s := qp_send q in qp_set_send (sq_set_cmpl (ntrdma_ring_update pos base (sq_cap s)) s) q.

Definition ntrdma_qp_poll_recv_put_and_done (pos base : Z) (q : ntrdma_qp) : ntrdma_qp :=
  let s := qp_recv q in qp_set_recv (rq_set_cmpl (ntrdma_ring_update pos base (rq_cap s)) s) q.

Definition ntrdma_qp_poll_send_cqe (pos : Z) (q : ntrdma_qp) : option (ntrdma_cqe * ntrdma_qp) :=
  let f := qp_flags q in
  match sq_wqes (qp_send q) !! Z.to_nat pos, sq_cqes (qp_send q) !! Z.to_nat pos with
  | Some wqe, Some cqe =>
      Some
        (if send_abort f then
           (ntrdma_send_fail wqe (if send_abort_first f then NTRDMA_WC_ERR_LOC_PORT else NTRDMA_WC_ERR_ABORTED),
            qp_set_flags (mk_flags (recv_abort f) (recv_aborting f) (recv_abort_first f)
                            (send_abort f) (send_aborting f) false) q)
         else if negb (sw_op_status wqe =? 0) then
           (ntrdma_send_fail wqe (sw_op_status wqe), qp_set_flags (set_send_aborting f) q)
         else if negb (cqe_op_status cqe =? 0) then (cqe, qp_set_flags (set_send_aborting f) q)
         else (cqe, q))
  | _, _ => None
  end.

(** [out] is the caller's entry, which a failure does not fill completely. *)
Definition ntrdma_qp_poll_recv_cqe {W} (ntc : ntc_dev) (out : ntrdma_cqe) (pos : Z) (q : ntrdma_qp)
    (w : qp_world W) : option (ntrdma_cqe * ntrdma_qp * qp_world W) :=
  let f := qp_flags q in let s := qp_recv q in
  match rq_wqes s !! Z.to_nat pos, rq_cqes s !! Z.to_nat pos with
  | Some wqe, Some cqe =>
      let fail st f :=
        match ntrdma_recv_fail ntc out wqe st w with
        | None => None
        | Some (c, wqe, w) =>
            Some (c, qp_set_flags f (qp_set_recv
              (rq_set_entries (<[Z.to_nat pos := wqe]> (rq_wqes s)) (rq_cqes s) s) q), w)
        end in
      if recv_abort f then
        fail (if recv_abort_first f then NTRDMA_WC_ERR_LOC_PORT else NTRDMA_WC_ERR_ABORTED)
          (mk_flags (recv_abort f) (recv_aborting f) false (send_abort f) (send_aborting f)
             (send_abort_first f))
      else if negb (rw_op_status wqe =? 0) then fail (rw_op_status wqe) (set_recv_aborting f)
      else if negb (cqe_op_status cqe =? 0) then Some (cqe, qp_set_flags (set_recv_aborting f) q, w)
      else Some (cqe, q, w)
  | _, _ => None
  end.

(** The completions of one range, as [ntrdma_poll_cq] takes them: [k] of them,
    or all of the range when it has fewer. *)
Fixpoint poll_send_loop (k : nat) (pos : Z) (q : ntrdma_qp) : option (list ntrdma_cqe * ntrdma_qp) :=
  match k with
  | O => Some ([], q)
  | S k =>
      match ntrdma_qp_poll_send_cqe pos q with
      | None => None
      | Some (c, q) =>
          match poll_send_loop k (pos + 1) q with
          | Some (l, q) => Some (c :: l, q)
          | None => None
          end
      end
  end.

Definition qp_poll_send (k : nat) (q : ntrdma_qp) : option (list ntrdma_cqe * ntrdma_qp) :=
  let '(rc, r, q) := ntrdma_qp_poll_send_start_and_get q in
  if negb (rc =? 0) then Some ([], q)
  else
    let n := Z.min (Z.of_nat k) (r_end r - r_idx r) in
    match poll_send_loop (Z.to_nat n) (r_idx r) q with
    | Some (l, q) => Some (l, ntrdma_qp_poll_send_put_and_done (r_idx r + n) (r_base r) q)
    | None => None
    end.

Fixpoint poll_recv_loop {W} (ntc : ntc_dev) (k : nat) (out : ntrdma_cqe) (pos : Z) (q : ntrdma_qp)
    (w : qp_world W) : option (list ntrdma_cqe * ntrdma_qp * qp_world W) :=
  match k with
  | O => Some ([], q, w)
  | S k =>
      match ntrdma_qp_poll_recv_cqe ntc out pos q w with
      | None => None
      | Some (c, q, w) =>
          match poll_recv_loop ntc k c (pos + 1) q w with
          | Some (l, q, w) => Some (c :: l, q, w)
          | None => None
          end
      end
  end.

Definition qp_poll_recv {W} (ntc : ntc_dev) (k : nat) (out : ntrdma_cqe) (q : ntrdma_qp) (w : qp_world W)
  : option (list ntrdma_cqe * ntrdma_qp * qp_world W) :=
  let '(rc, r, q) := ntrdma_qp_poll_recv_start_and_get q in
  if negb (rc =? 0) then Some ([], q, w)
  else
    let n := Z.min (Z.of_nat k) (r_end r - r_idx r) in
    match poll_recv_loop ntc (Z.to_nat n) out (r_idx r) q w with
    | Some (l, q, w) => Some (l, ntrdma_qp_poll_recv_put_and_done (r_idx r + n) (r_base r) q, w)
    | None => None
    end.

(** ** Work requests are posted *)

Definition ntrdma_qp_send_post_get (s : send_ring) : bool * range :=
  ntrdma_ring_produce (sq_post s) (sq_cmpl s) (sq_cap s).
Definition ntrdma_qp_send_post_put (pos base : Z) (s : send_ring) : send_ring :=
  sq_set_post (ntrdma_ring_update pos base (sq_cap s)) s.
Definition ntrdma_qp_recv_post_get (r : recv_ring) : bool * range :=
  ntrdma_ring_produce (rq_post r) (rq_cmpl r) (rq_cap r).
Definition ntrdma_qp_recv_post_put (pos base : Z) (r : recv_ring) : recv_ring :=
  rq_set_post (ntrdma_ring_update pos base (rq_cap r)) r.

(** One entry written into its slot; [None] when the ring is full. *)
Definition post_send_entry (wqe : ntrdma_send_wqe) (q : ntrdma_qp) : option ntrdma_qp :=
  let s := qp_send q in
  let '(more, r) := ntrdma_qp_send_post_get s in
  if negb more then None
  else Some (qp_set_send (ntrdma_qp_send_post_put (r_idx r + 1) (r_base r)
               (sq_set_wqes (<[Z.to_nat (r_idx r) := wqe]> (sq_wqes s)) s)) q).

Definition post_recv_entry (wqe : ntrdma_recv_wqe) (q : ntrdma_qp) : option ntrdma_qp :=
  let s := qp_recv q in
  let '(more, r) := ntrdma_qp_recv_post_get s in
  if negb more then None
  else Some (qp_set_recv (ntrdma_qp_recv_post_put (r_idx r + 1) (r_base r)
               (rq_set_entries (<[Z.to_nat (r_idx r) := wqe]> (rq_wqes s)) (rq_cqes s) s)) q).

(** ** Aborting *)

Definition move_to_err_state (q : ntrdma_qp) : ntrdma_qp := qp_set_state IB_QPS_ERR false q.

(** Of the remote queue pair only its lock is taken and released. *)
Definition ntrdma_qp_send_stall (q : ntrdma_qp) : ntrdma_qp :=
  let f := qp_flags q in
  if negb (is_state_send_ready (qp_state q)) then
    let f := if negb (send_abort f) then set_send_aborting f else f in
    qp_set_flags (if negb (recv_abort f) then set_recv_aborting f else f) q
  else qp_set_flags (set_recv_aborting (set_send_aborting f)) (move_to_err_state q).

(** Up to the connection manager's part.  The remote queue pair is the one
    under [rqp_key], if there is one. *)
Definition ntrdma_qp_reset (q : ntrdma_qp) (rqp : option ntrdma_rqp) : ntrdma_qp * option ntrdma_rqp :=
  let b := qp_buf q in
  let b := mk_qp_bufs (send_wqe_size b) (recv_wqe_size b) (send_wqe_sg_cap b) (send_wqe_inline_cap b)
             (recv_wqe_sg_cap b) (send_wqe_buf b) (recv_wqe_buf b) ntc_remote_buf_clear
             (peer_send_prod_shift b) 0 ntc_remote_buf_clear (peer_recv_prod_shift b) in
  (qp_set_flags (set_recv_aborting (set_send_aborting (qp_flags q)))
     (qp_set_buf b (move_to_err_state q)),
   match rqp with
   | Some p => Some (mk_rqp (rqp_key p) (rqp_qp_key p) IB_QPS_ERR (rqp_send p) (rqp_recv p) (rqp_buf p))
   | None => None
   end).

End Qp.
