(* ===== verification/QpRun.v ===== *)
(** * What the work of a queue pair does to its rings

    Lemmas on the loops of [Qp]: the entries are numbered from 0, and each
    loop is described by what it does to the numbered entries: which receive
    every send is given, which entries are copied, which completions are
    written.  The errors of the loops end in an unrecoverable error; they are
    followed as far as the flag that records it. *)

From stdpp Require Import gmap.
From S2P Require Import Prelude Kernel Ring Wire Ntc Wr Mem Zip Vbell Mm Buf Qp.
Import Ring Wire Ntc Wr Mem Zip Vbell Mm Buf Qp.

Module QpRun.

(** ** The range at entry [n] of a ring in which [V] entries are visible *)

Definition cur (cap : Z) (V n : nat) : range :=
  mk_range (nslot cap n) (nslot cap n + Z.min (Z.of_nat (V - n)) (cap - nslot cap n))
    (nenc cap n - nslot cap n).

Section Cur.
Context (cap : Z) (Hcap : cap_ok cap).

Lemma cur_get V n :
  (n ≤ V)%nat → Z.of_nat V <= Z.of_nat n + cap →
  ntrdma_ring_consume (nenc cap V) (nenc cap n) cap = cur cap V n.
Proof. apply consume_nenc. done. Qed.

Lemma nenc_range n : 0 <= nenc cap n < 2 * cap.
Proof. apply enc_range. rsolve. Qed.

Lemma cur_key V n : u32 (r_idx (cur cap V n) + r_base (cur cap V n)) = nenc cap n.
Proof.
  pose proof (nenc_range n). cbn. rewrite u32_small by rsolve. lia.
Qed.

Lemma cur_put V n : ntrdma_ring_update (r_idx (cur cap V n)) (r_base (cur cap V n)) cap = nenc cap n.
Proof.
  pose proof (nslot_range cap Hcap n) as Hs. cbn.
  pose proof (moved_index cap n 0 Hcap ltac:(lia)) as Hm.
  by rewrite Z.add_0_r, Nat.add_0_r in Hm.
Qed.

Lemma cur_empty V n : (n ≤ V)%nat → (r_idx (cur cap V n) =? r_end (cur cap V n)) = (V =? n)%nat.
Proof.
  pose proof (nslot_range cap Hcap n). intros Hn. cbn. apply eq_true_iff_eq.
  rewrite Z.eqb_eq, Nat.eqb_eq. lia.
Qed.

(** One entry on: within the range, or the range taken anew. *)
Lemma cur_next V n :
  (n < V)%nat →
  let r := mk_range (nslot cap n + 1) (r_end (cur cap V n)) (r_base (cur cap V n)) in
  if r_idx r =? r_end r then ntrdma_ring_update (r_idx r) (r_base r) cap = nenc cap (S n)
  else r = cur cap V (S n).
Proof.
  intros Hn. pose proof (nslot_range cap Hcap n) as Hs. cbn [r_idx r_end r_base cur].
  destruct (Z.eqb_spec (nslot cap n + 1)
    (nslot cap n + Z.min (Z.of_nat (V - n)) (cap - nslot cap n))) as [He|Hne].
  - replace (S n) with (n + 1)%nat by lia. rewrite <- moved_index by (done || lia). f_equal.
  - assert (nslot cap (S n) = nslot cap n + 1) as E1.
    { replace (S n) with (n + 1)%nat by lia. rewrite nslot_add by (done || lia). lia. }
    assert (nenc cap (S n) = nenc cap n + 1) as E2.
    { replace (S n) with (n + 1)%nat by lia. rewrite <- moved_index by (done || lia).
      pose proof (nenc_range n) as Hr.
      unfold ntrdma_ring_update. zcase; [lia|]. rewrite ?u32_small by rsolve. lia. }
    unfold cur. rewrite E1, E2. f_equal; lia.
Qed.

End Cur.

(** ** Sends and the receives they are given *)

Definition is_send (e : ntrdma_send_wqe) : bool := ntrdma_wr_code_is_send (sw_op_code e).

(** The number of sends among [l] that take a receive. *)
Definition ns (l : list ntrdma_send_wqe) : nat := length (filter (λ e, is_send e = true) l).

Lemma ns_app l l' : ns (l ++ l') = (ns l + ns l')%nat.
Proof. unfold ns. by rewrite list.filter_app, length_app. Qed.

Lemma ns_snoc l e : ns (l ++ [e]) = if is_send e then S (ns l) else ns l.
Proof.
  rewrite ns_app. unfold ns at 2. rewrite filter_cons.
  destruct (is_send e); [rewrite decide_True by done|rewrite decide_False by done]; cbn; lia.
Qed.

Lemma ns_prefix l l' : l `prefix_of` l' → (ns l ≤ ns l')%nat.
Proof. intros [k ->]. rewrite ns_app. lia. Qed.

(** What identifies an entry and does not change once it is posted. *)
Definition same_wqe (a b : ntrdma_send_wqe) : Prop :=
  sw_ulp_handle b = sw_ulp_handle a ∧ sw_op_code b = sw_op_code a ∧ sw_flags b = sw_flags a.

#[export] Instance same_wqe_refl : Reflexive same_wqe.
Proof. by intros a. Qed.
#[export] Instance same_wqe_trans : Transitive same_wqe.
Proof. intros a b c (? & ? & ?) (? & ? & ?). repeat split; congruence. Qed.

(** The sends of [l] in order, each with the receive of its number. *)
Definition pairs_ok (l : list ntrdma_send_wqe) (rents : list ntrdma_recv_wqe)
    (u : list (ntrdma_send_wqe * ntrdma_recv_wqe)) : Prop :=
  fst <$> u = filter (λ e, is_send e = true) l ∧ snd <$> u = take (ns l) rents.

Lemma pairs_length l rents u : pairs_ok l rents u → length u = ns l.
Proof. intros [H _]. apply (f_equal length) in H. by rewrite length_fmap in H. Qed.

Lemma pairs_nil rents : pairs_ok [] rents [].
Proof. by split. Qed.

Lemma pairs_other l rents u e : pairs_ok l rents u → is_send e = false → pairs_ok (l ++ [e]) rents u.
Proof.
  intros [H1 H2] He. unfold pairs_ok. rewrite list.filter_app, H1, H2, ns_snoc, He.
  rewrite filter_cons_False by congruence. cbn. by rewrite app_nil_r.
Qed.

Lemma pairs_send l rents u e r :
  pairs_ok l rents u → is_send e = true → rents !! ns l = Some r →
  pairs_ok (l ++ [e]) rents (u ++ [(e, r)]).
Proof.
  intros [H1 H2] He Hr. unfold pairs_ok. rewrite list.filter_app, !fmap_app, H1, H2, ns_snoc, He.
  rewrite filter_cons_True by done. split; [done|]. by rewrite (take_S_r _ _ r).
Qed.

Lemma pairs_mono l rents rents' u : pairs_ok l rents u → pairs_ok l (rents ++ rents') u.
Proof.
  intros [H1 H2]. split; [done|]. rewrite H2.
  assert (length (fst <$> u) = length (snd <$> u)) as Hl by by rewrite !length_fmap.
  rewrite H1, H2, length_take in Hl. change (length (filter _ l)) with (ns l) in Hl.
  rewrite take_app_le by lia. done.
Qed.

(** Two runs over a common prefix agree. *)
Lemma pairs_prefix l l' rents u u' :
  pairs_ok l rents u → pairs_ok l' rents u' → l `prefix_of` l' → u = take (length u) u'.
Proof.
  intros H H' [k ->]. pose proof (pairs_length _ _ _ H) as Hl.
  destruct H as [H1 H2], H' as [H1' H2'].
  apply (list_eq_same_length _ _ (length u)); [|done|].
  - rewrite length_take. apply (f_equal length) in H1'.
    rewrite length_fmap, list.filter_app, length_app in H1'. fold (ns l) in H1'.
    rewrite ?length_fmap in *. lia.
  - intros i [e r] [e' r'] Hi Hx Hy. rewrite lookup_take_lt in Hy by lia.
    assert ((fst <$> u) !! i = Some e ∧ (snd <$> u) !! i = Some r) as [E1 E2].
    { by rewrite !list_lookup_fmap, Hx. }
    assert ((fst <$> u') !! i = Some e' ∧ (snd <$> u') !! i = Some r') as [E1' E2'].
    { by rewrite !list_lookup_fmap, Hy. }
    rewrite H1 in E1. rewrite H1', list.filter_app, lookup_app_l in E1' by by eapply lookup_lt_Some.
    rewrite H2, lookup_take_lt in E2 by lia.
    rewrite H2', lookup_take_lt in E2' by (rewrite ns_app; lia). congruence.
Qed.

(** Every send carries the index of its receive. *)
Definition keys_ok (rcap : Z) (l : list ntrdma_send_wqe) : Prop :=
  ∀ n e, l !! n = Some e → is_send e = true → sw_recv_key e = nenc rcap (ns (take n l)).

Lemma keys_snoc rcap l e :
  keys_ok rcap l → (is_send e = true → sw_recv_key e = nenc rcap (ns l)) → keys_ok rcap (l ++ [e]).
Proof.
  intros H He n x Hn Hx. destruct (decide (n < length l)%nat).
  - rewrite lookup_app_l in Hn by done. rewrite take_app_le by lia. by apply H.
  - apply lookup_app_Some in Hn. destruct Hn as [Hn|[Hl Hn]].
    { apply lookup_lt_Some in Hn. lia. }
    apply list_lookup_singleton_Some in Hn. destruct Hn as [Hn <-].
    rewrite take_app_le by lia. rewrite take_ge by lia. by apply He.
Qed.

(** ** The loop of sends *)

Definition uses_of (evs : list qp_event) : list (ntrdma_send_wqe * ntrdma_recv_wqe) :=
  omap (λ ev, match ev with EvUse e r => Some (e, r) | _ => None end) evs.
Definition fills_of (evs : list qp_event) : list (ntrdma_send_wqe * ntrdma_recv_wqe) :=
  omap (λ ev, match ev with EvFill e r => Some (e, r) | _ => None end) evs.

(** The transfers that a run asks for. *)
Definition swire (evs : list qp_event) : list (wire_op ntrdma_send_wqe) :=
  omap (λ ev, match ev with EvWqes i l => Some (WCopy i l) | EvSendProd i => Some (WIndex i) | _ => None end) evs.
Definition rwire (evs : list qp_event) : list (wire_op ntrdma_recv_wqe) :=
  omap (λ ev, match ev with EvRecvWqes i l => Some (WCopy i l) | EvRecvProd i => Some (WIndex i) | _ => None end) evs.
Definition cwire (evs : list qp_event) : list (wire_op ntrdma_cqe) :=
  omap (λ ev, match ev with EvCqes i l => Some (WCopy i l) | EvSendCons i => Some (WIndex i) | _ => None end) evs.

Lemma swire_app l l' : swire (l ++ l') = swire l ++ swire l'.
Proof. apply omap_app. Qed.
Lemma cwire_app l l' : cwire (l ++ l') = cwire l ++ cwire l'.
Proof. apply omap_app. Qed.
Lemma uses_of_app l l' : uses_of (l ++ l') = uses_of l ++ uses_of l'.
Proof. apply omap_app. Qed.
Lemma fills_of_app l l' : fills_of (l ++ l') = fills_of l ++ fills_of l'.
Proof. apply omap_app. Qed.

Section Loops.
Context {W : Type} `{M : MemStore W} `{K : Kernel}.
Context (scap rcap : Z) (Hscap : cap_ok scap) (Hrcap : cap_ok rcap).

(** Moving the data of an entry changes the length of its target at most. *)
Lemma rdma_write_same ntc e z rc e' (z' : zip_world W) :
  ntrdma_qp_rdma_write ntc e z = Some (rc, e', z') → e' = e ∨ ∃ n, e' = wqe_set_length n e.
Proof.
  unfold ntrdma_qp_rdma_write. intros H.
  destruct (ntrdma_ib_sge_reserved _); [naive_solver|].
  destruct (if negb _ then _ else _) as [[[rc0 n] z0]|]; [|done].
  injection H as <- <- _. destruct (0 <=? rc0); [right; by eexists|by left].
Qed.

Lemma send_push_same ntc e recv sz z rc e' (z' : zip_world W) :
  send_push ntc e recv sz z = Some (rc, e', z') → e' = e ∨ ∃ n, e' = wqe_set_length n e.
Proof.
  unfold send_push. intros H.
  destruct (negb _); [injection H as <- <- <-; by left|].
  destruct (ntrdma_wr_code_is_rdma _); [by eapply rdma_write_same|].
  destruct recv as [recv|]; [|done]. destruct (check_recv_wqe_sanity _ _).
  - destruct (ntrdma_zip_rdma _ _ _ _ _ _ _) as [[[rc0 n] z0]|]; [|done].
    injection H as <- <- _. destruct (0 <=? rc0); [right; by eexists|by left].
  - injection H as <- <- <-. by left.
Qed.

(** The receives visible to the sender: [V] of them, in the ring [rr]. *)
Definition sees (V n : nat) (rents : list ntrdma_recv_wqe) (lo : nat) (rw : list ntrdma_recv_wqe)
    (rr : rqp_recv_ring) (r : range) : Prop :=
  rr_cap rr = rcap ∧ rr_wqes rr = rw ∧ rr_prod rr = nenc rcap V ∧ r = cur rcap V n
  ∧ (lo ≤ n ≤ V)%nat ∧ Z.of_nat V <= Z.of_nat lo + rcap
  ∧ (∀ i, (lo ≤ i < V)%nat → rw !! Z.to_nat (nslot rcap i) = rents !! i).

Lemma send_take_recv_ok e rr r e' rr' r' recv V n rents lo rw :
  sees V n rents lo rw rr r →
  send_take_recv e rr r = Some (e', rr', r', inl recv) →
  e' = wqe_set_recv_key (nenc rcap n) e ∧ rents !! n = Some recv
  ∧ sees V (S n) rents lo rw rr' r'.
Proof.
  intros (Hc & Hrw & Hp & -> & Hn & HV & Hl) H. unfold send_take_recv in H. rewrite Hrw in H.
  rewrite cur_key in H by done. rewrite cur_empty in H by (done || lia).
  destruct (Nat.eqb_spec V n) as [|Hne]; [done|].
  destruct (rw !! _) as [recv0|] eqn:Hw; [|done]. cbn [r_idx cur] in Hw.
  rewrite Hl in Hw by lia.
  destruct (negb (rw_op_status recv0 =? 0)); [done|].
  pose proof (cur_next rcap Hrcap V n ltac:(lia)) as Hnext. cbv zeta in Hnext.
  destruct (_ =? _).
  - injection H as <- <- <- <-. repeat split; try done; try lia.
    + unfold ntrdma_rqp_recv_cons_get, ntrdma_rqp_recv_cons_put. cbn [rr_cap rr_prod rr_cons rr_set_cons].
      rewrite Hc, Hp. cbn [r_idx r_base cur] in Hnext |- *. rewrite Hnext. apply cur_get; [done|lia|lia].
  - injection H as <- <- <- <-. cbn [r_idx r_base r_end cur] in Hnext |- *. rewrite Hnext.
    repeat split; try done; lia.
Qed.

(** The end of an iteration that does not abort. *)
Lemma send_move_ok ntc end_ (s s' : @send_run W) stop e1 rr r recv :
  send_move ntc end_ s e1 rr r recv = Some (s', stop) → (∀ b, stop ≠ SendStop true b) →
  ∃ e', same_wqe e1 e' ∧ sw_recv_key e' = sw_recv_key e1
    ∧ sn_wqes s' = <[Z.to_nat (sn_pos s) := e']> (sn_wqes s) ∧ sn_pos s' = sn_pos s + 1
    ∧ (stop = SendNext → sn_pos s' ≠ end_) ∧ sn_rr s' = rr ∧ sn_recv s' = r
    ∧ uses_of (sn_evs s')
      = uses_of (sn_evs s) ++ match recv with Some recv => [(e', recv)] | None => [] end
    ∧ swire (sn_evs s') = swire (sn_evs s).
Proof.
  unfold send_move. intros H Hstop.
  destruct (negb (sw_op_status e1 =? 0)); [injection H as <- <-; by destruct (Hstop false)|].
  destruct (send_push _ _ _ _ _) as [[[rc e2] z]|] eqn:Hpush; [|done].
  assert (same_wqe e1 e2 ∧ sw_recv_key e2 = sw_recv_key e1) as [Hs2 Hk2].
  { apply send_push_same in Hpush as [->|[k ->]]; [done|]. done. }
  destruct (negb (rc =? 0)); [destruct (rc =? - EAGAIN)|]; injection H as <- <-.
  - exists (wqe_set_status NTRDMA_WC_ERR_LOC_PORT e2).
    repeat split; try apply Hs2; try done. all: cbn [sn_evs send_store]; rewrite ?uses_of_app, ?swire_app; destruct recv; rewrite ?app_nil_r; done.
  - by destruct (Hstop false).
  - exists e2. repeat split; try apply Hs2; try done.
    + intros Hnx. cbn [sn_pos send_store]. destruct (Z.eqb_spec (sn_pos s + 1) end_); [done|lia].
    + cbn [sn_evs send_store]. rewrite uses_of_app. by destruct recv.
    + cbn [sn_evs send_store]. rewrite swire_app. destruct recv; by rewrite app_nil_r.
Qed.

(** One iteration that does not abort. *)
Lemma send_iter_ok ntc end_ (s s' : @send_run W) stop V n rents lo rw :
  send_iter ntc end_ s = Some (s', stop) → (∀ b, stop ≠ SendStop true b) →
  sees V n rents lo rw (sn_rr s) (sn_recv s) →
  ∃ e e', sn_wqes s !! Z.to_nat (sn_pos s) = Some e ∧ same_wqe e e'
    ∧ sn_wqes s' = <[Z.to_nat (sn_pos s) := e']> (sn_wqes s) ∧ sn_pos s' = sn_pos s + 1
    ∧ (stop = SendNext → sn_pos s' ≠ end_) ∧ swire (sn_evs s') = swire (sn_evs s)
    ∧ if is_send e
      then sees V (S n) rents lo rw (sn_rr s') (sn_recv s') ∧ sw_recv_key e' = nenc rcap n
           ∧ ∃ recv, rents !! n = Some recv ∧ uses_of (sn_evs s') = uses_of (sn_evs s) ++ [(e', recv)]
      else sees V n rents lo rw (sn_rr s') (sn_recv s') ∧ uses_of (sn_evs s') = uses_of (sn_evs s).
Proof.
  unfold send_iter. intros H Hstop Hsee.
  destruct (sn_wqes s !! Z.to_nat (sn_pos s)) as [e|] eqn:He; [|done].
  exists e. unfold is_send. destruct (ntrdma_wr_code_is_send (sw_op_code e)) eqn:Hsend.
  - destruct (send_take_recv e (sn_rr s) (sn_recv s)) as [[[[e1 rr] r] [recv|st]]|] eqn:Ht; try done.
    2:{ injection H as <- <-. by destruct (Hstop false). }
    destruct (send_take_recv_ok _ _ _ _ _ _ _ _ _ _ _ _ Hsee Ht) as (-> & Hr & Hsee').
    apply send_move_ok in H; [|done]. destruct H as (e' & Hs & Hk & Hw & Hp & Hnx & -> & -> & Hu & Hsw).
    exists e'. repeat (split; [done|]). by exists recv.
  - apply send_move_ok in H; [|done]. destruct H as (e' & Hs & Hk & Hw & Hp & Hnx & -> & -> & Hu & Hsw).
    exists e'. repeat (split; [done|]). by rewrite Hu, app_nil_r.
Qed.

(** The entries [sent] have been produced and [rest] are still to come: what
    the loop of sends keeps. *)
Record send_inv (CM V lo : nat) (rents rw : list ntrdma_recv_wqe)
    (u : list (ntrdma_send_wqe * ntrdma_recv_wqe)) (sent rest : list ntrdma_send_wqe)
    (s : @send_run W) : Prop := {
  si_len : Z.of_nat (length (sn_wqes s)) = scap;
  si_holds : holds scap (sn_wqes s) (sent ++ rest) CM (length (sent ++ rest));
  si_low : (CM ≤ length sent)%nat;
  si_win : Z.of_nat (length (sent ++ rest)) <= Z.of_nat CM + scap;
  si_sees : sees V (ns sent) rents lo rw (sn_rr s) (sn_recv s);
  si_keys : keys_ok rcap sent;
  si_pairs : pairs_ok sent rents (u ++ uses_of (sn_evs s));
  si_wire : swire (sn_evs s) = [] }.

Lemma send_inv_iter ntc end_ (s s' : @send_run W) stop CM V lo rents rw u sent e rest :
  send_iter ntc end_ s = Some (s', stop) → (∀ b, stop ≠ SendStop true b) →
  sn_pos s = nslot scap (length sent) → send_inv CM V lo rents rw u sent (e :: rest) s →
  ∃ e', same_wqe e e' ∧ sn_pos s' = sn_pos s + 1 ∧ (stop = SendNext → sn_pos s' ≠ end_)
    ∧ send_inv CM V lo rents rw u (sent ++ [e']) rest s'.
Proof.
  intros H Hstop Hpos [Hlen Hh Hlow Hwin Hsee Hk Hu Hwi].
  destruct (send_iter_ok _ _ _ _ _ _ _ _ _ _ H Hstop Hsee)
    as (e0 & e' & He0 & Hsame & Hw & Hp & Hnx & Hws & Hrest).
  assert (e0 = e) as ->.
  { destruct Hh as [_ Hh]. rewrite Hpos, Hh, list_lookup_middle in He0 by
      (done || rewrite length_app in *; cbn in *; lia). congruence. }
  assert (is_send e' = is_send e) as Hse.
  { destruct Hsame as (_ & Ho & _). unfold is_send. by rewrite Ho. }
  assert (sn_wqes s' = <[Z.to_nat (nslot scap (length sent)) := e']> (sn_wqes s)) as Hw'.
  { by rewrite Hw, Hpos. }
  exists e'. split; [done|]. split; [done|]. split; [done|].
  assert (length ((sent ++ [e']) ++ rest) = length (sent ++ e :: rest)) as Hll.
  { rewrite !length_app. cbn. lia. }
  assert (send_inv CM V lo rents rw u sent (e' :: rest)
    (mk_send_run (sn_pos s') (sn_recv s) (sn_wqes s') (sn_rr s) (sn_zip s) (sn_evs s))) as Hmid.
  { constructor; cbn [sn_wqes sn_rr sn_recv sn_evs]; try done.
    - by rewrite Hw, length_insert.
    - rewrite Hw'. replace (sent ++ e' :: rest) with (<[length sent := e']> (sent ++ e :: rest)).
      + rewrite length_insert. apply holds_insert; try done. rewrite length_app in *; cbn in *; lia.
      + by rewrite <- (Nat.add_0_r (length sent)), insert_app_r.
    - rewrite length_app in *; cbn in *; lia. }
  destruct Hmid as [Mlen Mh _ Mwin _ _ _ _]. cbn [sn_wqes] in *.
  assert ((sent ++ [e']) ++ rest = sent ++ e' :: rest) as Happ by by rewrite <- (assoc_L (++)).
  destruct (is_send e) eqn:Hsd.
  - destruct Hrest as (Hsee' & Hkey & recv & Hr & Hu'). constructor; rewrite ?Happ, ?Hws; try done.
    + rewrite length_app. lia.
    + by rewrite ns_snoc, Hse.
    + by apply keys_snoc.
    + rewrite Hu', (assoc_L (++)). by apply pairs_send.
  - destruct Hrest as (Hsee' & Hu'). constructor; rewrite ?Happ, ?Hws; try done.
    + rewrite length_app. lia.
    + by rewrite ns_snoc, Hse.
    + apply keys_snoc; [done|]. congruence.
    + rewrite Hu'. by apply pairs_other.
Qed.

(** The loop produces a non-empty run of entries. *)
Lemma send_loop_ok ntc end_ CM V lo rents rw u k :
  ∀ (s s' : @send_run W) resched sent rest,
  send_loop k ntc end_ s = Some (s', false, resched) →
  k = Z.to_nat (end_ - sn_pos s) → run_at scap (length sent) (sn_pos s) k → (k ≤ length rest)%nat →
  send_inv CM V lo rents rw u sent rest s →
  ∃ new rest', (0 < length new ≤ k)%nat ∧ sn_pos s' = sn_pos s + Z.of_nat (length new)
    ∧ Forall2 same_wqe rest (new ++ rest') ∧ send_inv CM V lo rents rw u (sent ++ new) rest' s'.
Proof.
  induction k as [|k IH]; intros s s' resched sent rest H Hk Hrun Hle Hinv; [done|].
  destruct rest as [|e rest]; [cbn in Hle; lia|]. cbn [send_loop] in H.
  apply run_at_S in Hrun as [Hpos Hrun]; [|done].
  destruct (send_iter ntc end_ s) as [[s1 stop]|] eqn:Hit; [|done].
  assert (∀ b, stop ≠ SendStop true b) as Hstop by (intros b ->; done).
  destruct (send_inv_iter _ _ _ _ _ _ _ _ _ _ _ _ _ _ Hit Hstop Hpos Hinv)
    as (e' & Hsame & Hp & Hnx & Hinv').
  destruct stop as [|abort rs].
  - specialize (Hnx eq_refl).
    destruct (IH s1 s' resched (sent ++ [e']) rest H) as (new & rest' & Hn & Hp' & Hf & Hi').
    + lia.
    + rewrite length_app, Hp. cbn. by rewrite Nat.add_1_r.
    + cbn in Hle. lia.
    + done.
    + exists (e' :: new), rest'. rewrite <- (assoc_L (++)) in Hi'. cbn in *.
      repeat (split; [lia || by constructor|]). done.
  - injection H as <- -> _. exists [e'], rest. cbn. split; [lia|]. split; [done|]. split; [|done].
    constructor; [done|]. reflexivity.
Qed.

(** ** The transfers *)

(** A request that waits is never told to come back. *)
Lemma request_wait_code dst doff src soff len fence s rc s' :
  ntc_request_memcpy dst doff src soff len fence NTC_DMA_WAIT s = (rc, s') → rc ≠ - EAGAIN.
Proof.
  assert (∀ d x l f s rc s', req_submit_tx d x l f s = (rc, s') → rc ≠ - EAGAIN) as Hsub.
  { unfold req_submit_tx. intros d x l f s0 rc0 s0' H. destruct (_ <? 0); injection H as <- _; done. }
  unfold ntc_request_memcpy, ntc_req_memcpy, ntc_req_memcpy_n. intros H.
  destruct (negb _); [by injection H as <- _|]. destruct (negb _); [by injection H as <- _|].
  destruct (len =? 0); [by injection H as <- _|]. cbn [andb] in H.
  destruct (prep s) as [[] s1]; [by eapply Hsub|].
  destruct (prep_retry _ _) as [[] s2]; [by eapply Hsub|].
  destruct (prep _) as [[] s3]; [by eapply Hsub|]. by injection H as <- _.
Qed.

Lemma send_transfers_ok irq vec start pos b s (w w' : qp_world W) rc evs :
  send_transfers irq vec start pos b s w = Some (rc, w', evs) → 0 <= rc →
  swire evs = [WCopy start (slots start pos (sq_wqes s)); WIndex (sq_prod s)] ∧ uses_of evs = [].
Proof.
  unfold send_transfers, qw_request. intros H Hrc.
  destruct (ntc_request_memcpy_fenced _ _ _ _ _ _ _) as [rc1 io1] eqn:Hm.
  apply request_wait_code in Hm.
  destruct (Z.ltb_spec rc1 0) as [Hneg|_].
  { destruct (Z.eqb_spec rc1 (- EAGAIN)); [done|]. injection H as -> _ _. lia. }
  cbn [andb] in H. destruct (ntc_request_imm32 _ _ _ _ _) as [rc2 io2].
  destruct (Z.ltb_spec rc2 0); [injection H as -> _ _; lia|].
  destruct (ntrdma_dev_vbell_peer _ _ _) as [[[rc3 vb] io3]|]; [|done].
  destruct (Z.ltb_spec rc3 0); [injection H as -> _ _; lia|].
  destruct (ntc_req_signal _ _ _) as [[rc4 io4]|]; [|done].
  injection H as -> _ <-. destruct (Z.ltb_spec rc 0); [lia|]. done.
Qed.

Lemma unrecoverable_set (w : qp_world W) : zw_unrecoverable (qw_zip (qw_unrecoverable_err w)) = true.
Proof. done. Qed.

(** ** The sender

    The ring of sends and the image of the peer's receives, when [sent] have
    been produced, [rest] are to come, [CM] completions have been polled and
    [V] receives are visible. *)
Record sender (CM V : nat) (rents : list ntrdma_recv_wqe)
    (u : list (ntrdma_send_wqe * ntrdma_recv_wqe)) (sent rest : list ntrdma_send_wqe)
    (s : send_ring) (rr : rqp_recv_ring) : Prop := {
  sd_cap : sq_cap s = scap;
  sd_len : Z.of_nat (length (sq_wqes s)) = scap;
  sd_post : sq_post s = nenc scap (length (sent ++ rest));
  sd_prod : sq_prod s = nenc scap (length sent);
  sd_holds : holds scap (sq_wqes s) (sent ++ rest) CM (length (sent ++ rest));
  sd_low : (CM ≤ length sent)%nat;
  sd_win : Z.of_nat (length (sent ++ rest)) <= Z.of_nat CM + scap;
  sd_keys : keys_ok rcap sent;
  sd_pairs : pairs_ok sent rents u;
  sd_rcap : rr_cap rr = rcap;
  sd_rprod : rr_prod rr = nenc rcap V;
  sd_rcons : rr_cons rr = nenc rcap (ns sent);
  sd_rlow : (ns sent ≤ V)%nat;
  sd_rwin : Z.of_nat V <= Z.of_nat (ns sent) + rcap;
  sd_recvs : ∀ i, (ns sent ≤ i < V)%nat → rr_wqes rr !! Z.to_nat (nslot rcap i) = rents !! i }.

(** What the loop of sends starts with. *)
Lemma sender_run CM V rents u sent rest s rr pos z :
  sender CM V rents u sent rest s rr →
  send_inv CM V (ns sent) rents (rr_wqes rr) u sent rest
    (mk_send_run pos (ntrdma_rqp_recv_cons_get rr) (sq_wqes s) rr z []).
Proof.
  intros [Hc Hl Hpo Hpr Hh Hlo Hw Hk Hu Hrc Hrp Hrs Hrl Hrw Hr]. constructor; cbn; try done.
  - repeat split; try done; try lia. unfold ntrdma_rqp_recv_cons_get.
    rewrite Hrc, Hrp, Hrs. by apply cur_get.
  - by rewrite app_nil_r.
Qed.

Lemma sender_range CM V rents u sent rest s rr :
  sender CM V rents u sent rest s rr →
  ntrdma_qp_send_prod_get s = cur scap (length (sent ++ rest)) (length sent).
Proof.
  intros [Hc Hl Hpo Hpr Hh Hlo Hw _ _ _ _ _ _ _ _]. unfold ntrdma_qp_send_prod_get.
  rewrite Hc, Hpo, Hpr. apply cur_get; [done|rewrite length_app|]; lia.
Qed.

(** After the loop the indices are put. *)
Lemma sender_put CM V rents u sent rest new rest' s rr n pos (sr : @send_run W) :
  sender CM V rents u sent rest s rr →
  sn_pos sr = nslot scap (length sent) + Z.of_nat (length new) →
  Z.of_nat (length new) <= scap - nslot scap (length sent) →
  Forall2 same_wqe rest (new ++ rest') →
  n = cur scap (length (sent ++ rest)) (length sent) →
  send_inv CM V (ns sent) rents (rr_wqes rr) u (sent ++ new) rest' sr → pos = sn_pos sr →
  sender CM V rents (u ++ uses_of (sn_evs sr)) (sent ++ new) rest'
    (ntrdma_qp_send_prod_put pos (r_base n) (sq_set_wqes (sn_wqes sr) s))
    (ntrdma_rqp_recv_cons_put (r_idx (sn_recv sr)) (r_base (sn_recv sr)) (sn_rr sr)).
Proof.
  intros Hsd Hpos Hn Hf -> [Hl Hh Hlo Hw Hsee Hk Hu _] ->.
  destruct Hsee as (Hc & Hrw & Hp & Hr & HnV & HV & Hrv).
  assert (length ((sent ++ new) ++ rest') = length (sent ++ rest)) as Hlen.
  { apply Forall2_length in Hf. rewrite !length_app in *. lia. }
  constructor; cbn; try done; try apply Hsd.
  - by rewrite (sd_post _ _ _ _ _ _ _ _ Hsd), Hlen.
  - rewrite (sd_cap _ _ _ _ _ _ _ _ Hsd), Hpos, moved_index by done. by rewrite length_app.
  - by rewrite Hr, Hc, cur_put.
  - lia.
  - lia.
  - intros i Hi. rewrite Hrw. apply Hrv. lia.
Qed.

(** What leaves the rest of a queue pair alone. *)
Definition send_frame (q q' : ntrdma_qp) : Prop :=
  qp_recv q' = qp_recv q ∧ qp_flags q' = qp_flags q ∧ qp_state q' = qp_state q
  ∧ sq_cqes (qp_send q') = sq_cqes (qp_send q) ∧ sq_cons (qp_send q') = sq_cons (qp_send q)
  ∧ sq_cmpl (qp_send q') = sq_cmpl (qp_send q).

Definition run_wire {T} (cap : Z) (n : nat) (new : list T) : list (wire_op T) :=
  if (length new =? 0)%nat then [] else [WCopy (nslot cap n) new; WIndex (nenc cap (n + length new))].

(** A run of the rest is given its receives and is copied. *)
Definition sends_produced (CM V : nat) (rents : list ntrdma_recv_wqe)
    (u : list (ntrdma_send_wqe * ntrdma_recv_wqe)) (sent rest : list ntrdma_send_wqe)
    (q : ntrdma_qp) (p : ntrdma_rqp) (q' : ntrdma_qp) (op : option ntrdma_rqp) (evs : list qp_event) : Prop :=
  ∃ p' new rest', op = Some p' ∧ Forall2 same_wqe rest (new ++ rest')
    ∧ Z.of_nat (length new) <= scap - nslot scap (length sent)
    ∧ sender CM V rents (u ++ uses_of evs) (sent ++ new) rest' (qp_send q') (rqp_recv p')
    ∧ swire evs = run_wire scap (length sent) new ∧ send_frame q q'
    ∧ rr_wqes (rqp_recv p') = rr_wqes (rqp_recv p) ∧ rqp_send p' = rqp_send p.

Lemma sends_produced_none CM V rents u sent rest q p :
  sender CM V rents u sent rest (qp_send q) (rqp_recv p) →
  sends_produced CM V rents u sent rest q p q (Some p) [].
Proof.
  intros Hsd. pose proof (nslot_range scap Hscap (length sent)) as Hsl.
  exists p, [], rest. cbn. rewrite !app_nil_r. repeat (split; [done || lia|]). done.
Qed.

Lemma send_work_ok ntc irq vec q p (w w' : qp_world W) resched q' op evs CM V rents u sent rest :
  ntrdma_qp_send_work ntc irq vec q (Some p) w = Some (resched, q', op, w', evs) →
  zw_unrecoverable (qw_zip w') = false →
  sender CM V rents u sent rest (qp_send q) (rqp_recv p) →
  sends_produced CM V rents u sent rest q p q' op evs.
Proof.
  intros H Hun Hsd. unfold ntrdma_qp_send_work in H.
  pose proof (nslot_range scap Hscap (length sent)) as Hsl.
  assert (∀ rs, Some (rs, q, Some p, w, []) = Some (resched, q', op, w', evs) →
    sends_produced CM V rents u sent rest q p q' op evs) as Hno.
  { intros rs E. injection E as _ <- <- _ <-. by apply sends_produced_none. }
  rewrite (sender_range _ _ _ _ _ _ _ _ Hsd) in H. set (r := cur scap _ _) in *.
  unfold r_empty in H. destruct (Z.eqb_spec (r_idx r) (r_end r)) as [|Hne]; [by eapply Hno|].
  destruct (send_abort (qp_flags q) || send_aborting (qp_flags q)); [by eapply Hno|].
  destruct (negb (is_state_recv_ready (rqp_state p))); [by eapply Hno|]. clear Hno.
  destruct (send_loop _ _ _ _) as [[[sr abort] rs]|] eqn:Hloop; [|done].
  destruct abort; [injection H as _ _ _ <- _; done|].
  cbn [qp_send qp_set_state] in Hloop.
  destruct (send_loop_ok ntc (r_end r) CM V (ns sent) rents (rr_wqes (rqp_recv p)) u _ _ _ _ sent rest Hloop) as
    (new & rest' & Hn & Hp & Hf & Hinv).
  - done.
  - right. split; [done|]. subst r. cbn in *. rewrite length_app in *. lia.
  - subst r. cbn in *. rewrite length_app in *. lia.
  - by apply sender_run.
  - cbn [sn_pos] in Hp. assert (Z.of_nat (length new) <= scap - nslot scap (length sent)) as Hfit.
    { subst r. cbn in *. rewrite length_app in *. lia. }
    rewrite (proj2 (Z.eqb_neq (sn_pos sr) (r_idx r))) in H by lia.
    pose proof (si_wire _ _ _ _ _ _ _ _ _ Hinv) as Hw0.
    pose proof (si_holds _ _ _ _ _ _ _ _ _ Hinv) as Hh. pose proof (si_len _ _ _ _ _ _ _ _ _ Hinv) as Hl.
    pose proof (sd_low _ _ _ _ _ _ _ _ Hsd) as Hlow.
    pose proof (sender_put _ _ _ _ _ _ new rest' _ _ r _ sr Hsd Hp Hfit Hf eq_refl Hinv eq_refl) as Hput.
    cbn [r_idx cur r] in H.
    destruct (send_transfers _ _ _ _ _ _ _) as [[[rc w1] evs1]|] eqn:Htr; [|done].
    destruct (Z.ltb_spec rc 0); [injection H as _ _ _ <- _; done|].
    injection H as _ <- <- _ <-. apply send_transfers_ok in Htr as [Hsw Hu]; [|lia].
    exists (rqp_set_recv (ntrdma_rqp_recv_cons_put (r_idx (sn_recv sr)) (r_base (sn_recv sr)) (sn_rr sr)) p),
      new, rest'.
    split; [done|]. split; [done|]. split; [done|]. split.
    { rewrite uses_of_app, Hu, app_nil_r. exact Hput. }
    split; [|split; [done|split; [|done]]].
    + rewrite swire_app, Hw0, Hsw. unfold run_wire. destruct (Nat.eqb_spec (length new) 0); [lia|].
      cbn [app]. unfold slots. f_equal.
      * f_equal. rewrite Hp. cbn [r_idx cur r].
        replace (Z.to_nat _) with (length new) by lia. cbn [sq_wqes ntrdma_qp_send_prod_put sq_set_prod sq_set_wqes].
        rewrite (holds_run scap Hscap _ _ _ _ (length sent) (length new) Hl Hh) by
          (rewrite ?length_app; lia).
        by rewrite <- (assoc_L (++)), drop_app_length, take_app_length.
      * f_equal. f_equal. pose proof (sd_prod _ _ _ _ _ _ _ _ Hput) as Hpp. rewrite length_app in Hpp. done.
    + apply (si_sees _ _ _ _ _ _ _ _ _ Hinv).
Qed.

(** ** The loop that consumes sends *)

Definition cqe_of (e : ntrdma_send_wqe) (c : ntrdma_cqe) : Prop :=
  cqe_ulp_handle c = sw_ulp_handle e ∧ cqe_op_code c = sw_op_code e ∧ cqe_flags c = sw_flags e.

(** A receive and its completion are told by the handle; it succeeded. *)
Definition cqe_id (c : ntrdma_cqe) : Z * Z := (cqe_ulp_handle c, cqe_op_status c).
Definition recv_id (r : ntrdma_recv_wqe) : Z * Z := (rw_ulp_handle r, rw_op_status r).

Definition known_op (e : ntrdma_send_wqe) : Prop :=
  ntrdma_wr_code_push_data (sw_op_code e) || ntrdma_wr_code_pull_data (sw_op_code e) = true.

Lemma is_send_push e : is_send e = true → ntrdma_wr_code_push_data (sw_op_code e) = true.
Proof.
  unfold is_send, ntrdma_wr_code_is_send, ntrdma_wr_code_push_data. intros H.
  apply orb_true_iff. by left.
Qed.

Lemma cleanup_id ntc r (w w' : qp_world W) r' :
  ntrdma_recv_wqe_cleanup ntc r w = Some (r', w') → recv_id r' = recv_id r.
Proof.
  unfold ntrdma_recv_wqe_cleanup. intros H. destruct (recv_cleanup_loop _ _ _) as [[l w1]|]; [|done].
  by injection H as <- <-.
Qed.

Lemma recv_fail_id ntc old r st (w w' : qp_world W) c r' :
  ntrdma_recv_fail ntc old r st w = Some (c, r', w') →
  recv_id r' = recv_id r ∧ cqe_ulp_handle c = rw_ulp_handle r.
Proof.
  unfold ntrdma_recv_fail. intros H. destruct (ntrdma_recv_wqe_cleanup ntc r w) as [[r1 w1]|] eqn:Hc; [|done].
  injection H as <- <- <-. split; [by eapply cleanup_id|done].
Qed.

Lemma recv_done_id ntc bytes old r e (w w' : qp_world W) rc c r' :
  ntrdma_recv_done ntc bytes old r e w = Some (rc, c, r', w') →
  recv_id r' = recv_id r ∧ cqe_id c = (rw_ulp_handle r, 0).
Proof.
  unfold ntrdma_recv_done. intros H. destruct (ntrdma_recv_wqe_sync _ _ _) as [rc1 z].
  destruct (ntrdma_recv_wqe_cleanup _ _ _) as [[r1 w1]|] eqn:Hc; [|done].
  injection H as <- <- <- <-. split; [by eapply cleanup_id|done].
Qed.

Lemma rqp_push_id ntc bytes e recv (w w' : qp_world W) o :
  rqp_push ntc bytes e recv w = Some (o, w') →
  match recv with
  | None => o = None
  | Some (_, rw) => ∃ c rw', o = Some (c, rw') ∧ recv_id rw' = recv_id rw ∧ cqe_id c = (rw_ulp_handle rw, 0)
  end.
Proof.
  unfold rqp_push. cbv zeta. intros H.
  match type of H with match ?x with _ => _ end = _ => destruct x as [w1|]; [|done] end.
  destruct recv as [[old rw]|]; [|by injection H as <- <-].
  destruct (ntrdma_recv_done _ _ _ _ _ _) as [[[[rc c] rw'] w2]|] eqn:Hd; [|done].
  injection H as <- <-. eexists _, _. split; [done|]. by eapply recv_done_id.
Qed.

(** The ring of receives: [RB] have been consumed, [RS] produced, [RM] polled. *)
Record recvq (RM RB RS : nat) (rents : list ntrdma_recv_wqe) (rq : recv_ring) : Prop := {
  rv_cap : rq_cap rq = rcap;
  rv_len : Z.of_nat (length (rq_wqes rq)) = rcap;
  rv_clen : Z.of_nat (length (rq_cqes rq)) = rcap;
  rv_post : rq_post rq = nenc rcap (length rents);
  rv_prod : rq_prod rq = nenc rcap RS;
  rv_cmpl : rq_cmpl rq = nenc rcap RM;
  rv_order : (RM ≤ RB ≤ RS)%nat ∧ (RS ≤ length rents)%nat;
  rv_win : Z.of_nat (length rents) <= Z.of_nat RM + rcap;
  rv_new : holds rcap (rq_wqes rq) rents RB (length rents);
  rv_ids : holds rcap (recv_id <$> rq_wqes rq) (recv_id <$> rents) RM (length rents);
  rv_cqes : holds rcap (cqe_id <$> rq_cqes rq) (recv_id <$> rents) RM RB;
  rv_status : Forall (λ r, rw_op_status r = 0) rents }.

Lemma recvq_cons RM RB RS rents rq i :
  recvq RM RB RS rents rq → recvq RM RB RS rents (rq_set_cons i rq).
Proof. by intros []. Qed.

(** Receive number [RB] is completed. *)
Lemma recvq_store RM RB RS rents rq rw c rw' :
  recvq RM RB RS rents rq → (RB < RS)%nat → rents !! RB = Some rw →
  recv_id rw' = recv_id rw → cqe_id c = (rw_ulp_handle rw, 0) →
  recvq RM (S RB) RS rents (rq_store (nslot rcap RB) (Some (c, rw')) rq).
Proof.
  intros [Hc Hl Hcl Hpo Hpr Hcm Ho Hw Hn Hid Hcq Hst] Hlt Hrw Hi Hci.
  pose proof (nslot_range rcap Hrcap RB) as Hr.
  assert (rw_op_status rw = 0) as Hst0 by by apply (Forall_lookup_1 _ _ _ _ Hst Hrw).
  constructor; cbn; try done; try (by rewrite length_insert); try lia.
  - apply holds_leave; [done|done|lia].
  - rewrite list_fmap_insert. rewrite list_insert_id; [done|].
    destruct Hid as [_ Hid]. rewrite Hid, list_lookup_fmap, Hrw by lia. cbn. by rewrite Hi.
  - rewrite list_fmap_insert. apply holds_put; try done; try lia.
    + by rewrite length_fmap.
    + rewrite list_lookup_fmap, Hrw, Hci. unfold recv_id. cbn. by rewrite Hst0.
Qed.

Lemma rqp_take_ok RM RB RS rents rq e t :
  recvq RM RB RS rents rq → (is_send e = true → sw_recv_key e = nenc rcap RB ∧ (RB < RS)%nat) →
  rqp_take_recv e rq (cur rcap RS RB) = Some t →
  match t with
  | TakeNone => is_send e = false
  | TakeFail _ warn => warn = false
  | TakeRecv _ rw => is_send e = true ∧ rents !! RB = Some rw
  end.
Proof.
  unfold rqp_take_recv, is_send. intros Hq Hkey H.
  pose proof (rv_order _ _ _ _ _ Hq) as Ho.
  destruct (ntrdma_wr_code_is_send (sw_op_code e)) eqn:He; cbn [negb] in H; [|by injection H as <-].
  destruct (Hkey eq_refl) as [Hk Hlt].
  destruct (ntrdma_wr_status_no_recv _); [by injection H as <-|].
  rewrite cur_key, Hk, Z.eqb_refl, cur_empty in H by (done || lia). cbn [negb] in H.
  destruct (Nat.eqb_spec RS RB); [lia|].
  destruct (rq_cqes rq !! _) as [old|]; [|done]. destruct (rq_wqes rq !! _) as [rw|] eqn:Hrw; [|done].
  injection H as <-. split; [done|]. destruct (rv_new _ _ _ _ _ Hq) as [_ Hn].
  rewrite <- Hn by lia. done.
Qed.

(** [lo] is where the run started and [sent] the sends known to the peer; the
    first [CB] have been consumed, with the completions [cqes]. *)
Record rqp_inv (RM RS lo CB : nat) (rents : list ntrdma_recv_wqe) (sent : list ntrdma_send_wqe)
    (cqes : list ntrdma_cqe) (f : list (ntrdma_send_wqe * ntrdma_recv_wqe)) (s : @rqp_run W) : Prop := {
  ri_rq : recvq RM (ns (take CB sent)) RS rents (cn_rq s);
  ri_recv : cn_recv s = cur rcap RS (ns (take CB sent));
  ri_clen : Z.of_nat (length (cn_cqes s)) = scap;
  ri_cqes : holds scap (cn_cqes s) cqes lo CB;
  ri_match : Forall2 cqe_of (take CB sent) cqes;
  ri_ok : Forall (λ e, sw_op_status e = 0) (take CB sent);
  ri_pairs : pairs_ok (take CB sent) rents (f ++ fills_of (cn_evs s));
  ri_wire : cwire (cn_evs s) = [] }.

(** What [sent] has to be for the run to be right. *)
Record sends_known (RS : nat) (sent : list ntrdma_send_wqe) : Prop := {
  sk_keys : keys_ok rcap sent;
  sk_uses : (ns sent ≤ RS)%nat;
  sk_ops : Forall known_op sent }.

Lemma sends_known_next RS sent n e :
  sends_known RS sent → sent !! n = Some e → is_send e = true →
  sw_recv_key e = nenc rcap (ns (take n sent)) ∧ (ns (take n sent) < RS)%nat.
Proof.
  intros [Hk Hu Ho] Hn He. split; [by apply Hk|].
  assert (S (ns (take n sent)) ≤ ns sent)%nat; [|lia].
  pose proof (ns_snoc (take n sent) e) as Hs. rewrite He in Hs. rewrite <- Hs, <- (take_S_r _ _ _ Hn).
  apply ns_prefix. apply prefix_take.
Qed.

(** What [rqp_complete] does, with the receive it was given. *)
Lemma rqp_complete_ok ntc bytes end_ e oldc r recv (s s' : @rqp_run W) nx :
  rqp_complete ntc bytes end_ e oldc r recv s = Some (s', nx) → known_op e →
  match recv with Some _ => is_send e = true | None => is_send e = false end →
  ∃ c o, cqe_of e c ∧ cn_cqes s' = <[Z.to_nat (cn_pos s) := c]> (cn_cqes s)
    ∧ cn_pos s' = cn_pos s + 1 ∧ (nx = RqpNext → cn_pos s' ≠ end_) ∧ nx ≠ RqpAbort
    ∧ cwire (cn_evs s') = cwire (cn_evs s)
    ∧ fills_of (cn_evs s') = fills_of (cn_evs s) ++ match recv with Some (_, rw) => [(e, rw)] | None => [] end
    ∧ match recv with
      | None => o = None
      | Some (_, rw) => ∃ c rw', o = Some (c, rw') ∧ recv_id rw' = recv_id rw ∧ cqe_id c = (rw_ulp_handle rw, 0)
      end
    ∧ let rq := rq_store (r_idx (cn_recv s)) o (cn_rq s) in
      (cn_rq s', cn_recv s')
      = if r_idx r =? r_end r
        then (ntrdma_qp_recv_cons_put (r_idx r) (r_base r) rq,
              ntrdma_qp_recv_cons_get (ntrdma_qp_recv_cons_put (r_idx r) (r_base r) rq))
        else (rq, r).
Proof.
  unfold rqp_complete. intros H Hop Hr.
  match type of H with match ?x with _ => _ end = _ => destruct x as [[[o w] c]|] eqn:Hx; [|done] end.
  assert (cqe_of e c ∧ match recv with
    | None => o = None
    | Some (_, rw) => ∃ c rw', o = Some (c, rw') ∧ recv_id rw' = recv_id rw ∧ cqe_id c = (rw_ulp_handle rw, 0)
    end) as [Hc Ho].
  { destruct (ntrdma_wr_code_push_data _) eqn:Hpd.
    - destruct (rqp_push _ _ _ _ _) as [[o1 w1]|] eqn:Hp; [|done]. injection Hx as <- <- <-.
      split; [done|]. by eapply rqp_push_id.
    - unfold known_op in Hop. rewrite Hpd in Hop. cbn in Hop. rewrite Hop in Hx.
      injection Hx as <- <- <-. split; [done|]. destruct recv as [[??]|]; [|done].
      rewrite is_send_push in Hpd; done. }
  exists c, o. split; [done|].
  destruct (if r_idx r =? r_end r then _ else _) as [rq1 r1] eqn:Hi.
  injection H as <- <-. cbn [rqp_state_after cn_cqes cn_pos cn_evs cn_rq cn_recv].
  split; [done|]. split; [done|]. split.
  { intros Hnx. destruct (Z.eqb_spec (cn_pos s + 1) end_); [done|lia]. }
  split; [destruct (cn_pos s + 1 =? end_); discriminate|].
  split; [rewrite cwire_app|split; [rewrite fills_of_app|split; [done|]]].
  - destruct recv as [[??]|], (cn_pos s + 1 =? end_); apply app_nil_r.
  - by destruct recv as [[??]|], (cn_pos s + 1 =? end_).
  - cbv zeta. rewrite <- Hi. by destruct (cn_pos s + 1 =? end_).
Qed.

(** The range after an iteration, taken anew when it is used up. *)
Lemma recv_cursor RM RB RS rents rq r rq' r' :
  recvq RM RB RS rents rq →
  r = cur rcap RS RB ∨ (∃ k, RB = S k ∧ (k < RS)%nat
    ∧ r = mk_range (nslot rcap k + 1) (r_end (cur rcap RS k)) (r_base (cur rcap RS k))) →
  (rq', r') = (if r_idx r =? r_end r
               then (ntrdma_qp_recv_cons_put (r_idx r) (r_base r) rq,
                     ntrdma_qp_recv_cons_get (ntrdma_qp_recv_cons_put (r_idx r) (r_base r) rq))
               else (rq, r)) →
  recvq RM RB RS rents rq' ∧ r' = cur rcap RS RB.
Proof.
  intros Hq Hr He. pose proof (rv_order _ _ _ _ _ Hq) as Ho. pose proof (rv_win _ _ _ _ _ Hq) as Hw.
  assert (r_idx r =? r_end r = true → ntrdma_ring_update (r_idx r) (r_base r) rcap = nenc rcap RB)
    as Hput.
  { intros Hee. destruct Hr as [->|(k & -> & Hk & ->)]; [by apply cur_put|].
    pose proof (cur_next rcap Hrcap RS k Hk) as Hn. cbv zeta in Hn. by rewrite Hee in Hn. }
  destruct (r_idx r =? r_end r) eqn:Hee; injection He as -> ->.
  - split; [by apply recvq_cons|].
    unfold ntrdma_qp_recv_cons_get, ntrdma_qp_recv_cons_put. cbn [rq_cap rq_prod rq_cons rq_set_cons].
    rewrite (rv_prod _ _ _ _ _ Hq), (rv_cap _ _ _ _ _ Hq), Hput by done. apply cur_get; [done|lia|lia].
  - split; [done|]. destruct Hr as [->|(k & -> & Hk & ->)]; [done|].
    pose proof (cur_next rcap Hrcap RS k Hk) as Hn. cbv zeta in Hn. by rewrite Hee in Hn.
Qed.

Lemma rqp_complete_inv ntc bytes end_ e oldc recv (s s' : @rqp_run W) nx RM RS lo CB rents sent cqes f :
  let r := match recv with
           | Some _ => mk_range (r_idx (cn_recv s) + 1) (r_end (cn_recv s)) (r_base (cn_recv s))
           | None => cn_recv s end in
  rqp_complete ntc bytes end_ e oldc r recv s = Some (s', nx) → sw_op_status e = 0 →
  match recv with
  | Some (_, rw) => is_send e = true ∧ rents !! ns (take CB sent) = Some rw
  | None => is_send e = false
  end →
  sends_known RS sent → sent !! CB = Some e → cn_pos s = nslot scap CB →
  (lo ≤ CB)%nat → Z.of_nat CB < Z.of_nat lo + scap →
  rqp_inv RM RS lo CB rents sent cqes f s →
  cn_pos s' = cn_pos s + 1 ∧ (nx = RqpNext → cn_pos s' ≠ end_)
  ∧ ∃ c, rqp_inv RM RS lo (S CB) rents sent (cqes ++ [c]) f s'.
Proof.
  intros r H Hst Hrecv Hsk Hs Hpos Hlo Hwin Hinv.
  pose proof (sk_ops _ _ Hsk) as Hops. pose proof (Forall_lookup_1 _ _ _ _ Hops Hs) as Hop.
  destruct (rqp_complete_ok _ _ _ _ _ _ _ _ _ _ H Hop) as
    (c & o & Hc & Hcq & Hp & Hnx & _ & Hcw & Hfl & Ho & Hcur).
  { destruct recv as [[??]|]; [apply Hrecv|done]. }
  split; [done|]. split; [done|]. exists c.
  destruct Hinv as [Hrq Hrc Hcl Hh Hm Hok Hpa Hwi].
  pose proof (take_S_r _ _ _ Hs) as Ht. pose proof (Forall2_length Hm) as Hml.
  assert (length (take CB sent) = CB) as HCB.
  { apply lookup_lt_Some in Hs. rewrite length_take. lia. }
  assert (recvq RM (ns (take (S CB) sent)) RS rents (cn_rq s')
          ∧ cn_recv s' = cur rcap RS (ns (take (S CB) sent))) as [Hq' Hr'].
  { eapply recv_cursor; [| |exact Hcur]; rewrite Ht, ns_snoc; destruct recv as [[old rw]|].
    - destruct Hrecv as [Hse Hrw], Ho as (c' & rw' & -> & Hid & Hci). rewrite Hse, Hrc.
      eapply recvq_store; try done. by apply (sends_known_next _ _ _ _ Hsk Hs Hse).
    - rewrite Hrecv, Ho. done.
    - right. destruct Hrecv as [Hse Hrw]. rewrite Hse. eexists. split; [done|].
      split; [by apply (sends_known_next _ _ _ _ Hsk Hs Hse)|]. subst r. by rewrite Hrc.
    - left. subst r. by rewrite Hrecv. }
  constructor; try done.
  - by rewrite Hcq, length_insert.
  - rewrite Hcq, Hpos. assert (CB = length cqes) as HE by lia. rewrite HE.
    apply holds_put; try done; try lia.
    + rewrite <- HE. by apply holds_app.
    + by rewrite lookup_app_r, Nat.sub_diag.
  - rewrite Ht. apply Forall2_app; [done|]. by constructor.
  - rewrite Ht. apply Forall_app. split; [done|]. by constructor.
  - rewrite Ht, Hfl, (assoc_L (++)). destruct recv as [[old rw]|].
    + apply pairs_send; [done|apply Hrecv|apply Hrecv].
    + rewrite app_nil_r. by apply pairs_other.
  - by rewrite Hcw.
Qed.

(** One iteration: no warning, and the state when it does not abort. *)
Lemma rqp_iter_ok ntc bytes wqes end_ (s s' : @rqp_run W) nx RM RS lo CB rents sent cqes f :
  rqp_iter ntc bytes wqes end_ s = Some (s', nx) →
  wqes !! Z.to_nat (nslot scap CB) = sent !! CB → sends_known RS sent → cn_pos s = nslot scap CB →
  (lo ≤ CB)%nat → Z.of_nat CB < Z.of_nat lo + scap →
  rqp_inv RM RS lo CB rents sent cqes f s → EvWarnRecvKey ∉ cn_evs s →
  EvWarnRecvKey ∉ cn_evs s' ∧
  (nx ≠ RqpAbort → cn_pos s' = cn_pos s + 1 ∧ (nx = RqpNext → cn_pos s' ≠ end_)
    ∧ ∃ c, rqp_inv RM RS lo (S CB) rents sent (cqes ++ [c]) f s').
Proof.
  unfold rqp_iter. intros H He Hsk Hpos Hlo Hwin Hinv Hnw. rewrite Hpos, He in H.
  destruct (sent !! CB) as [e|] eqn:Hs; [|done].
  destruct (cn_cqes s !! _) as [oldc|]; [|done].
  destruct (rqp_take_recv _ _ _) as [t|] eqn:Ht; [|done].
  rewrite (ri_recv _ _ _ _ _ _ _ _ _ Hinv) in Ht.
  apply (rqp_take_ok _ _ _ _ _ _ _ (ri_rq _ _ _ _ _ _ _ _ _ Hinv)) in Ht.
  2:{ intros Hse. by apply (sends_known_next _ _ _ _ Hsk Hs Hse). }
  assert (∀ r st recv, rqp_reject ntc e r st recv s = Some (s', nx) →
    EvWarnRecvKey ∉ cn_evs s' ∧ nx = RqpAbort) as Hrej.
  { unfold rqp_reject. intros r st [[old rw]|] HR.
    - destruct (ntrdma_recv_fail _ _ _ _ _) as [[[? ?] ?]|]; [|done].
      injection HR as <- <-. cbn. by rewrite app_nil_r.
    - injection HR as <- <-. cbn. by rewrite app_nil_r. }
  assert (∀ r recv, rqp_complete ntc bytes end_ e oldc r recv s = Some (s', nx) →
    EvWarnRecvKey ∉ cn_evs s') as Hcmp.
  { unfold rqp_complete. intros r recv HC.
    match type of HC with match ?x with _ => _ end = _ => destruct x as [[[o w] c]|]; [|done] end.
    destruct (if r_idx r =? r_end r then _ else _) as [rq1 r1]. injection HC as <- <-. cbn [cn_evs rqp_state_after].
    rewrite elem_of_app. intros [?|Hin]; [done|].
    destruct recv as [[??]|], (cn_pos s + 1 =? end_); cbn in Hin; set_solver. }
  destruct t as [|st warn|old rw].
  - destruct (negb _) eqn:Hst.
    + apply Hrej in H as [? ->]. done.
    + split; [by eapply Hcmp|]. intros _.
      eapply (rqp_complete_inv _ _ _ _ _ None); try done. lia.
  - subst warn. injection H as <- <-. split; [|done]. cbn. by rewrite app_nil_r.
  - destruct (negb _ || negb _) eqn:Hst.
    + apply Hrej in H as [? ->]. done.
    + split; [by eapply Hcmp|]. intros _. apply orb_false_iff in Hst as [_ Hst].
      eapply (rqp_complete_inv _ _ _ _ _ (Some (old, rw))); try done. lia.
Qed.

(** The loop: never a warning, and a run of completions. *)
Lemma rqp_loop_ok ntc bytes wqes end_ RM RS lo rents sent f k :
  ∀ (s s' : @rqp_run W) abort CB cqes,
  rqp_loop k ntc bytes wqes end_ s = Some (s', abort) →
  k = Z.to_nat (end_ - cn_pos s) → run_at scap CB (cn_pos s) k →
  (∀ i, (CB ≤ i < CB + k)%nat → wqes !! Z.to_nat (nslot scap i) = sent !! i) →
  sends_known RS sent → (lo ≤ CB)%nat → Z.of_nat (CB + k) <= Z.of_nat lo + scap →
  rqp_inv RM RS lo CB rents sent cqes f s → EvWarnRecvKey ∉ cn_evs s →
  EvWarnRecvKey ∉ cn_evs s' ∧
  (abort = false → ∃ new, (0 < length new ≤ k)%nat ∧ cn_pos s' = cn_pos s + Z.of_nat (length new)
    ∧ rqp_inv RM RS lo (CB + length new) rents sent (cqes ++ new) f s').
Proof.
  induction k as [|k IH]; intros s s' abort CB cqes H Hk Hrun Hw Hsk Hlo Hwin Hinv Hnw; [done|].
  apply run_at_S in Hrun as [Hpos Hrun]; [|done]. cbn [rqp_loop] in H.
  destruct (rqp_iter _ _ _ _ _) as [[s1 nx]|] eqn:Hit; [|done].
  destruct (rqp_iter_ok _ _ _ _ _ _ _ _ _ _ _ _ _ _ _ Hit (Hw CB ltac:(lia)) Hsk Hpos Hlo
    ltac:(lia) Hinv Hnw) as [Hnw' Hok].
  destruct nx; [|injection H as <- <-; done|].
  - destruct (Hok ltac:(discriminate)) as (Hp & Hnx & c & Hinv'). specialize (Hnx eq_refl).
    destruct (IH s1 s' abort (S CB) (cqes ++ [c]) H) as [Hnw'' Hok']; try done; try lia.
    + by rewrite Hp.
    + intros i Hi. apply Hw. lia.
    + split; [done|]. intros Ha. destruct (Hok' Ha) as (new & Hn & Hp' & Hi').
      exists (c :: new). rewrite <- (assoc_L (++)) in Hi'. cbn [length app] in *.
      split; [lia|]. split; [lia|]. by replace (CB + S (length new))%nat with (S CB + length new)%nat by lia.
  - injection H as <- <-. destruct (Hok ltac:(discriminate)) as (Hp & _ & c & Hinv').
    split; [done|]. intros _. exists [c]. cbn. split; [lia|]. split; [lia|]. by rewrite Nat.add_1_r.
Qed.

Lemma rqp_transfers_ok irq vec start pos signal b s (w w' : qp_world W) rc evs :
  rqp_transfers irq vec start pos signal b s w = Some (rc, w', evs) →
  EvWarnRecvKey ∉ evs ∧ (0 <= rc →
  cwire evs = [WCopy start (slots start pos (rs_cqes s)); WIndex (rs_cons s)] ∧ fills_of evs = []).
Proof.
  unfold rqp_transfers, qw_request. intros H.
  destruct (ntc_request_memcpy_fenced _ _ _ _ _ _ _) as [rc1 io1].
  destruct (Z.ltb_spec rc1 0) as [Hneg|_]; [injection H as <- _ <-; split; [set_solver|lia]|].
  destruct (ntc_request_imm32 _ _ _ _ _) as [rc2 io2].
  destruct (Z.ltb_spec rc2 0); [injection H as <- _ <-; split; [set_solver|lia]|].
  destruct signal; cbn [negb] in H; [|injection H as <- _ <-; split; [set_solver|done]].
  destruct (ntrdma_dev_vbell_peer _ _ _) as [[[rc3 vb] io3]|]; [|done].
  destruct (Z.ltb_spec rc3 0); [injection H as <- _ <-; split; [set_solver|lia]|].
  destruct (ntc_req_signal _ _ _) as [[rc4 io4]|]; [|done].
  injection H as <- _ <-. destruct (Z.ltb_spec rc4 0); (split; [set_solver|done || lia]).
Qed.

(** ** The receiver

    The ring of receives and the image of the peer's sends: [CB] of the sends
    have been consumed, with the completions [cqes], [V] of [sent] are visible. *)
Record receiver (RM RS CB V : nat) (rents : list ntrdma_recv_wqe) (sent : list ntrdma_send_wqe)
    (cqes : list ntrdma_cqe) (f : list (ntrdma_send_wqe * ntrdma_recv_wqe))
    (rq : recv_ring) (rs : rqp_send_ring) : Prop := {
  rc_rq : recvq RM (ns (take CB sent)) RS rents rq;
  rc_rcons : rq_cons rq = nenc rcap (ns (take CB sent));
  rc_cap : rs_cap rs = scap;
  rc_cons : rs_cons rs = nenc scap CB;
  rc_prod : rs_prod rs = nenc scap V;
  rc_order : (CB ≤ V ≤ length sent)%nat;
  rc_win : Z.of_nat V <= Z.of_nat CB + scap;
  rc_sends : ∀ i, (CB ≤ i < V)%nat → rs_wqes rs !! Z.to_nat (nslot scap i) = sent !! i;
  rc_clen : Z.of_nat (length (rs_cqes rs)) = scap;
  rc_match : Forall2 cqe_of (take CB sent) cqes;
  rc_ok : Forall (λ e, sw_op_status e = 0) (take CB sent);
  rc_pairs : pairs_ok (take CB sent) rents f }.

Lemma receiver_run RM RS CB V rents sent cqes f rq rs w b1 b2 :
  receiver RM RS CB V rents sent cqes f rq rs →
  rqp_inv RM RS CB CB rents sent cqes f
    (mk_rqp_run (nslot scap CB) (ntrdma_qp_recv_cons_get rq) (rs_cqes rs) rq w b1 b2 []).
Proof.
  intros [Hq Hrc Hc Hco Hp Ho Hw Hs Hcl Hm Hok Hpa]. constructor; cbn; try done.
  - unfold ntrdma_qp_recv_cons_get. rewrite (rv_cap _ _ _ _ _ Hq), (rv_prod _ _ _ _ _ Hq), Hrc.
    pose proof (rv_order _ _ _ _ _ Hq). pose proof (rv_win _ _ _ _ _ Hq).
    apply cur_get; [done|lia|lia].
  - split; [|intros; lia]. rewrite <- (Forall2_length Hm), length_take. lia.
  - by rewrite app_nil_r.
Qed.

(** After the loop the indices are put. *)
Lemma receiver_put RM RS CB V rents sent cqes new f rq rs (s : @rqp_run W) :
  receiver RM RS CB V rents sent cqes f rq rs →
  rqp_inv RM RS CB (CB + length new) rents sent (cqes ++ new) f s →
  (CB + length new ≤ V)%nat → Z.of_nat (length new) <= scap - nslot scap CB →
  cn_pos s = nslot scap CB + Z.of_nat (length new) →
  receiver RM RS (CB + length new) V rents sent (cqes ++ new) (f ++ fills_of (cn_evs s))
    (ntrdma_qp_recv_cons_put (r_idx (cn_recv s)) (r_base (cn_recv s)) (cn_rq s))
    (ntrdma_rqp_send_cons_put (cn_pos s) (nenc scap CB - nslot scap CB) (rs_set_cqes (cn_cqes s) rs)).
Proof.
  intros [Hq Hrc Hc Hco Hp Ho Hw Hs Hcl Hm Hok Hpa] [Iq Ir Il Ih Im Iok Ip Iw] HV Hn Hpos.
  constructor; cbn; try done.
  - by apply recvq_cons.
  - rewrite Ir, (rv_cap _ _ _ _ _ Iq). by apply cur_put.
  - rewrite Hc, Hpos. by apply moved_index.
  - lia.
  - lia.
  - intros i Hi. apply Hs. lia.
Qed.

Definition recv_frame (q q' : ntrdma_qp) (p p' : ntrdma_rqp) : Prop :=
  qp_send q' = qp_send q ∧ qp_flags q' = qp_flags q ∧ qp_state q' = qp_state q
  ∧ rqp_recv p' = rqp_recv p ∧ rs_wqes (rqp_send p') = rs_wqes (rqp_send p)
  ∧ rqp_state p' = rqp_state p.

(** A run of the visible sends is completed and the completions are copied. *)
Definition sends_consumed (RM RS CB V : nat) (rents : list ntrdma_recv_wqe) (sent : list ntrdma_send_wqe)
    (cqes : list ntrdma_cqe) (f : list (ntrdma_send_wqe * ntrdma_recv_wqe))
    (q : ntrdma_qp) (p : ntrdma_rqp) (oq : option ntrdma_qp) (p' : ntrdma_rqp) (evs : list qp_event) : Prop :=
  ∃ q' new, oq = Some q' ∧ Z.of_nat (length new) <= scap - nslot scap CB
    ∧ receiver RM RS (CB + length new) V rents sent (cqes ++ new) (f ++ fills_of evs)
        (qp_recv q') (rqp_send p')
    ∧ cwire evs = run_wire scap CB new ∧ recv_frame q q' p p'.

Lemma sends_consumed_none RM RS CB V rents sent cqes f q p evs :
  receiver RM RS CB V rents sent cqes f (qp_recv q) (rqp_send p) → cwire evs = [] → fills_of evs = [] →
  sends_consumed RM RS CB V rents sent cqes f q p (Some q) p evs.
Proof.
  intros Hrc Hw Hf. pose proof (nslot_range scap Hscap CB).
  exists q, []. rewrite Hw, Hf, Nat.add_0_r, !app_nil_r. cbn.
  split; [done|]. split; [lia|]. done.
Qed.

(** Without a queue pair that can receive nothing is done. *)
Lemma rqp_send_work_idle ntc irq vec bytes chan p q (w w' : qp_world W) oq p' evs :
  ntrdma_rqp_send_work ntc irq vec bytes chan p (Some q) w = Some (p', oq, w', evs) →
  is_state_recv_ready (qp_state q) = false →
  p' = p ∧ oq = Some q ∧ cwire evs = [] ∧ fills_of evs = [] ∧ EvWarnRecvKey ∉ evs.
Proof.
  unfold ntrdma_rqp_send_work. intros H Hr. rewrite Hr in H. cbn [negb] in H.
  destruct (negb _); [injection H as <- <- _ <-; split_and!; try done; set_solver|].
  destruct (r_empty _); [injection H as <- <- _ <-; split_and!; try done; set_solver|].
  destruct (negb _); injection H as <- <- _ <-; split_and!; try done; set_solver.
Qed.

Lemma rqp_send_work_ok ntc irq vec bytes chan p q (w w' : qp_world W) oq p' evs
    RM RS CB V rents sent cqes f :
  ntrdma_rqp_send_work ntc irq vec bytes chan p (Some q) w = Some (p', oq, w', evs) →
  receiver RM RS CB V rents sent cqes f (qp_recv q) (rqp_send p) → sends_known RS sent →
  EvWarnRecvKey ∉ evs
  ∧ (zw_unrecoverable (qw_zip w') = false → sends_consumed RM RS CB V rents sent cqes f q p oq p' evs).
Proof.
  intros H Hrc Hsk. pose proof Hrc as [Hq Hrco Hc Hco Hp Ho Hw Hs Hcl Hm Hok Hpa].
  pose proof (nslot_range scap Hscap CB) as Hsl.
  assert (∀ ev, ev = [] ∨ ev = [EvClear] ∨ ev = [EvClear; EvReadd] →
    Some (p, Some q, w, ev) = Some (p', oq, w', evs) → EvWarnRecvKey ∉ evs
    ∧ (zw_unrecoverable (qw_zip w') = false → sends_consumed RM RS CB V rents sent cqes f q p oq p' evs))
    as Hno.
  { intros ev Hev E. injection E as <- <- _ <-. split; [destruct Hev as [->|[->| ->]]; set_solver|].
    intros _. apply sends_consumed_none; [done| |]; by destruct Hev as [->|[->| ->]]. }
  unfold ntrdma_rqp_send_work in H.
  destruct (negb _); [apply (Hno []); tauto|].
  unfold ntrdma_rqp_send_cons_get in H. rewrite Hc, Hco, Hp, cur_get in H by (done || lia).
  set (r := cur scap V CB) in *. unfold r_empty in H.
  destruct (Z.eqb_spec (r_idx r) (r_end r)) as [|Hne]; [apply (Hno [EvClear; EvReadd]); tauto|].
  destruct (negb chan); [apply (Hno [EvClear]); tauto|].
  destruct (negb (is_state_recv_ready _)); [apply (Hno [EvClear]); tauto|]. clear Hno.
  set (end_ := Z.min (r_end r) (r_idx r + NTRDMA_QP_BATCH_SIZE)) in *.
  destruct (rqp_loop _ _ _ _ _ _) as [[s abort]|] eqn:Hloop; [|done].
  change (r_idx r) with (nslot scap CB) in *.
  assert (r_end r = nslot scap CB + Z.min (Z.of_nat (V - CB)) (scap - nslot scap CB)) as Hend by done.
  assert (NTRDMA_QP_BATCH_SIZE = 16) as Hb by done.
  destruct (rqp_loop_ok ntc bytes _ _ RM RS CB rents sent f _ _ _ _ CB cqes Hloop) as [Hnw Hok'].
  - done.
  - right. cbn [cn_pos]. split; [done|]. subst end_. lia.
  - intros i Hi. apply Hs. subst end_. lia.
  - done.
  - done.
  - subst end_. lia.
  - by apply receiver_run with V.
  - apply not_elem_of_nil.
  - destruct abort.
    { injection H as _ _ <- <-. split; [|done]. destruct (cn_cue s); set_solver. }
    destruct (Hok' eq_refl) as (new & Hn & Hpos & Hinv). cbn [cn_pos] in Hpos.
    destruct (rqp_transfers _ _ _ _ _ _ _ _) as [[[rc w1] sev]|] eqn:Htr; [|done].
    apply rqp_transfers_ok in Htr as [Hnw' Htr].
    injection H as <- <- Hw' <-. split.
    { destruct (cn_cue s); set_solver. }
    intros Hun. rewrite <- Hw' in Hun. destruct (Z.ltb_spec rc 0); [done|].
    destruct (Htr ltac:(lia)) as [Hcw Hfi].
    assert (CB + length new ≤ V)%nat as HV by (subst end_; lia).
    assert (Z.of_nat (length new) <= scap - nslot scap CB) as Hfit by (subst end_; lia).
    pose proof (receiver_put _ _ _ _ _ _ _ _ _ _ _ _ Hrc Hinv HV Hfit Hpos) as Hput.
    eexists _, new. split; [done|]. split; [done|]. split; [|split; [|done]].
    + match goal with |- context [fills_of ?x] => replace (fills_of x) with (fills_of (cn_evs s)) end;
        [exact Hput|].
      change (fills_of (cn_evs s) = fills_of ((cn_evs s ++ if cn_cue s then [EvCueRecv] else []) ++ sev)).
      rewrite !fills_of_app, Hfi. destruct (cn_cue s); cbn; by rewrite !app_nil_r.
    + change (cwire ((cn_evs s ++ if cn_cue s then [EvCueRecv] else []) ++ sev) = run_wire scap CB new).
      rewrite !cwire_app, (ri_wire _ _ _ _ _ _ _ _ _ Hinv), Hcw. unfold run_wire.
      destruct (Nat.eqb_spec (length new) 0); [lia|].
      replace (cwire (if cn_cue s then [EvCueRecv] else [])) with ([] : list (wire_op ntrdma_cqe))
        by by destruct (cn_cue s).
      cbn [app cwire omap list_omap]. f_equal.
      * f_equal. unfold slots. rewrite Hpos. replace (Z.to_nat _) with (length new) by lia.
        cbn [rs_cqes ntrdma_rqp_send_cons_put rs_set_cons rs_set_cqes].
        pose proof (Forall2_length Hm) as Hml. rewrite length_take in Hml.
        rewrite (holds_run scap Hscap _ _ CB (CB + length new) CB (length new)
          (ri_clen _ _ _ _ _ _ _ _ _ Hinv) (ri_cqes _ _ _ _ _ _ _ _ _ Hinv)) by lia.
        assert (CB = length cqes) as -> by lia. by rewrite drop_app_length, take_ge.
      * f_equal. f_equal. apply (rc_cons _ _ _ _ _ _ _ _ _ _ Hput).
Qed.

(** ** Receives are produced *)

Definition prod_frame (q q' : ntrdma_qp) : Prop :=
  qp_send q' = qp_send q ∧ qp_flags q' = qp_flags q ∧ qp_state q' = qp_state q ∧ qp_buf q' = qp_buf q
  ∧ rq_cons (qp_recv q') = rq_cons (qp_recv q).

Lemma rwire_app l l' : rwire (l ++ l') = rwire l ++ rwire l'.
Proof. apply omap_app. Qed.

Lemma recvq_range RM RB RS rents rq :
  recvq RM RB RS rents rq → ntrdma_qp_recv_prod_get rq = cur rcap (length rents) RS.
Proof.
  intros Hq. pose proof (rv_order _ _ _ _ _ Hq). pose proof (rv_win _ _ _ _ _ Hq).
  unfold ntrdma_qp_recv_prod_get. rewrite (rv_cap _ _ _ _ _ Hq), (rv_post _ _ _ _ _ Hq), (rv_prod _ _ _ _ _ Hq).
  apply cur_get; [done|lia|lia].
Qed.

(** The entries of a range are produced: [k] of them. *)
Lemma recvq_produce RM RB RS rents rq :
  recvq RM RB RS rents rq →
  let r := cur rcap (length rents) RS in
  let k := Z.to_nat (r_end r - r_idx r) in
  recvq RM RB (RS + k) rents (ntrdma_qp_recv_prod_put (r_end r) (r_base r) rq)
  ∧ slots (r_idx r) (r_end r) (rq_wqes rq) = take k (drop RS rents)
  ∧ Z.of_nat k <= rcap - nslot rcap RS ∧ (RS + k ≤ length rents)%nat.
Proof.
  intros Hq r k. pose proof (nslot_range rcap Hrcap RS) as Hsl.
  pose proof (rv_order _ _ _ _ _ Hq) as Ho. pose proof (rv_win _ _ _ _ _ Hq) as Hw.
  assert (Z.of_nat k = Z.min (Z.of_nat (length rents - RS)) (rcap - nslot rcap RS)) as Hk.
  { subst k r. cbn. lia. }
  assert (r_end r = nslot rcap RS + Z.of_nat k) as He by (subst r; cbn in *; lia).
  split; [|split; [|lia]].
  - destruct Hq as [Hc Hl Hcl Hpo Hpr Hcm Ho' Hw' Hn Hid Hcq Hst]. constructor; cbn [ntrdma_qp_recv_prod_put rq_set_prod rq_cap rq_wqes rq_cqes rq_post rq_prod rq_cmpl]; try done; try lia.
    rewrite Hc, He. apply moved_index; [done|lia].
  - unfold slots. subst k. apply (holds_run rcap Hrcap _ _ _ _ _ _ (rv_len _ _ _ _ _ Hq) (rv_new _ _ _ _ _ Hq)); lia.
Qed.

Lemma recv_work_loop_ok fuel :
  ∀ RM RB RS rents lo V m w0 q (w w' : qp_world W) evs rc q' evs',
  recv_work_loop fuel (cur rcap (length rents) RS) q w evs = Some (rc, (q', w', evs')) → 0 <= rc →
  recvq RM RB RS rents (qp_recv q) → Z.of_nat (length rents) <= Z.of_nat lo + rcap →
  chan_ok rcap (take RS rents) lo V m (w0 ++ rwire evs) →
  ∃ RS', recvq RM RB RS' rents (qp_recv q') ∧ (RS ≤ RS')%nat
    ∧ chan_ok rcap (take RS' rents) lo V m (w0 ++ rwire evs') ∧ prod_frame q q'.
Proof.
  induction fuel as [|fuel IH]; intros RM RB RS rents lo V m w0 q w w' evs rc q' evs' H Hrc Hq Hwin Hch; [done|].
  cbn [recv_work_loop] in H.
  destruct (recvq_produce _ _ _ _ _ Hq) as (Hq' & Hsl & Hk & Hle).
  set (r := cur rcap (length rents) RS) in *. set (k := Z.to_nat (r_end r - r_idx r)) in *.
  destruct (qw_request _ _) as [rc1 w1].
  destruct (Z.ltb_spec rc1 0); [injection H as <- _ _ _; lia|].
  cbn [qp_recv qp_set_recv] in H.
  change (rq_wqes (ntrdma_qp_recv_prod_put (r_end r) (r_base r) (qp_recv q))) with (rq_wqes (qp_recv q)) in H.
  rewrite Hsl in H.
  assert (length (take RS rents) = RS) as HRS by (rewrite length_take; lia).
  assert (length (take k (drop RS rents)) = k) as Hkl by (rewrite length_take, length_drop; lia).
  assert (chan_ok rcap (take (RS + k) rents) lo V m
    (w0 ++ rwire (evs ++ [EvRecvWqes (r_idx r) (take k (drop RS rents))]))) as Hch'.
  { rewrite rwire_app, (assoc_L (++)), <- take_take_drop.
    pose proof (chan_copy rcap _ _ _ _ _ (take k (drop RS rents)) Hch) as Hc.
    rewrite HRS, Hkl in Hc. apply Hc; lia. }
  rewrite (recvq_range _ _ _ _ _ Hq') in H.
  destruct (r_empty _).
  - injection H as <- <- _ <-. exists (RS + k)%nat. split; [exact Hq'|]. split; [lia|]. split; [exact Hch'|].
    done.
  - destruct (IH _ _ _ _ _ _ _ _ _ _ _ _ _ _ _ H Hrc Hq' Hwin Hch') as (RS' & Hq2 & Hle2 & Hch2 & Hf).
    exists RS'. split; [done|]. split; [lia|]. split; [done|].
    destruct Hf as (? & ? & ? & ? & ?). done.
Qed.

Lemma recv_work_ok q (w w' : qp_world W) q' evs RM RB RS rents lo V m w0 :
  ntrdma_qp_recv_work q w = Some (q', w', evs) → is_state_recv_ready (qp_state q) = true →
  zw_unrecoverable (qw_zip w') = false →
  recvq RM RB RS rents (qp_recv q) → Z.of_nat (length rents) <= Z.of_nat lo + rcap →
  chan_ok rcap (take RS rents) lo V m w0 →
  ∃ RS', recvq RM RB RS' rents (qp_recv q') ∧ (RS ≤ RS')%nat
    ∧ chan_ok rcap (take RS' rents) lo V m (w0 ++ rwire evs) ∧ prod_frame q q'.
Proof.
  unfold ntrdma_qp_recv_work. intros H Hst Hun Hq Hwin Hch. rewrite Hst in H. cbn [negb] in H.
  rewrite (recvq_range _ _ _ _ _ Hq) in H.
  destruct (r_empty _).
  { injection H as <- _ <-. exists RS. rewrite app_nil_r. split; [done|]. split; [done|]. by split. }
  destruct (recv_work_loop _ _ _ _ _) as [[rc [[q1 w1] evs1]]|] eqn:Hl; [|done].
  destruct (Z.ltb_spec rc 0) as [Hn|Hn].
  { destruct (qw_request _ _) as [rc2 w2]. injection H as _ <- _. rewrite (proj2 (Z.ltb_lt rc 0)) in Hun by done.
    done. }
  destruct (recv_work_loop_ok 2 RM RB RS rents lo V m w0 _ _ _ _ _ _ _ Hl Hn Hq Hwin) as (RS' & Hq' & Hle & Hch' & Hf).
  { by rewrite app_nil_r. }
  destruct (qw_request _ w1) as [rc2 w2]. destruct (qw_request _ w2) as [rc3 w3].
  injection H as <- <- <-. destruct (Z.ltb_spec rc2 0); [done|].
  exists RS'. split; [done|]. split; [done|]. split; [|done].
  rewrite rwire_app, (assoc_L (++)). cbn [rwire omap list_omap].
  rewrite (rv_prod _ _ _ _ _ Hq').
  pose proof (chan_index rcap _ _ _ _ _ Hch') as Hi. rewrite length_take in Hi.
  pose proof (rv_order _ _ _ _ _ Hq'). by rewrite Nat.min_l in Hi by lia.
Qed.

End Loops.

End QpRun.
