(* ===== verification/QpPoll.v ===== *)
(** * Polling and posting on a queue pair

    Lemmas on the functions of [Qp] that the verbs call: a completion is found
    for every entry in posting order, from the peer or, when the queue pair is
    aborted, from the entry itself; and an aborted send queue is emptied by
    polling. *)

From stdpp Require Import gmap.
From S2P Require Import Prelude Kernel Ring Wire Ntc Wr Mem Zip Vbell Mm Buf Qp QpRun.
Import Ring Wire Ntc Wr Mem Zip Vbell Mm Buf Qp QpRun.

Module QpPoll.

Section Sends.
Context (scap : Z) (Hscap : cap_ok scap).

(** ** Completions of sends

    [ents] have been posted, [CM] of them polled; [X] completions can be
    polled now: those of the peer or, after the abort, all. *)
Record spoll (CM X : nat) (ents : list ntrdma_send_wqe) (q : ntrdma_qp) : Prop := {
  sp_cap : sq_cap (qp_send q) = scap;
  sp_len : Z.of_nat (length (sq_wqes (qp_send q))) = scap;
  sp_clen : Z.of_nat (length (sq_cqes (qp_send q))) = scap;
  sp_post : sq_post (qp_send q) = nenc scap (length ents);
  sp_cmpl : sq_cmpl (qp_send q) = nenc scap CM;
  sp_holds : holds scap (sq_wqes (qp_send q)) ents CM (length ents);
  sp_order : (CM ≤ X ≤ length ents)%nat;
  sp_win : Z.of_nat (length ents) <= Z.of_nat CM + scap;
  sp_avail : if send_abort (qp_flags q) then X = length ents
             else sq_cons (qp_send q) = nenc scap X
                  ∧ ∀ i e c, (CM ≤ i < X)%nat → ents !! i = Some e →
                      sq_cqes (qp_send q) !! Z.to_nat (nslot scap i) = Some c → cqe_of e c }.

(** What polling leaves alone. *)
Definition poll_frame (q q' : ntrdma_qp) : Prop :=
  qp_recv q' = qp_recv q ∧ qp_state q' = qp_state q
  ∧ recv_abort (qp_flags q') = recv_abort (qp_flags q)
  ∧ recv_aborting (qp_flags q') = recv_aborting (qp_flags q)
  ∧ (send_abort (qp_flags q) = true → send_abort (qp_flags q') = true)
  ∧ (send_aborting (qp_flags q) = true → send_aborting (qp_flags q') = true)
  ∧ sq_wqes (qp_send q') = sq_wqes (qp_send q) ∧ sq_cqes (qp_send q') = sq_cqes (qp_send q)
  ∧ sq_cap (qp_send q') = sq_cap (qp_send q) ∧ sq_post (qp_send q') = sq_post (qp_send q)
  ∧ (send_abort (qp_flags q') = false →
     sq_cons (qp_send q') = sq_cons (qp_send q) ∧ sq_prod (qp_send q') = sq_prod (qp_send q)).

#[export] Instance poll_frame_refl : Reflexive poll_frame.
Proof. intros q. by repeat split. Qed.

#[export] Instance poll_frame_trans : Transitive poll_frame.
Proof.
  intros q1 q2 q3 (?&?&?&?&A1&B1&?&?&?&?&C1) (?&?&?&?&A2&B2&?&?&?&?&C2).
  split_and!; try congruence; try tauto.
  intros Hab. destruct (send_abort (qp_flags q2)) eqn:E2; [by rewrite A2 in Hab|].
  destruct (C2 Hab), (C1 eq_refl). split; congruence.
Qed.

(** The status of the [n] next completions of an aborted queue. *)
Definition flush_status (first : bool) (n : nat) : list Z :=
  match n with
  | O => []
  | S n => (if first then NTRDMA_WC_ERR_LOC_PORT else NTRDMA_WC_ERR_ABORTED) :: replicate n NTRDMA_WC_ERR_ABORTED
  end.

Lemma flush_status_S first n :
  flush_status first (S n)
  = (if first then NTRDMA_WC_ERR_LOC_PORT else NTRDMA_WC_ERR_ABORTED) :: flush_status false n.
Proof. by destruct n. Qed.

Lemma flush_status_app first n m :
  flush_status first (n + m) = flush_status first n ++ flush_status (first && (n =? 0)%nat) m.
Proof.
  destruct n as [|n]; cbn [Nat.add]; [by destruct first|].
  rewrite andb_false_r. cbn [flush_status app]. f_equal. rewrite replicate_add. f_equal. by destruct m.
Qed.

(** Taking the range. *)
Lemma send_cmpl_get_ok CM X ents q r q' :
  spoll CM X ents q → ntrdma_qp_send_cmpl_get q = (r, q') →
  r = cur scap X CM ∧ poll_frame q q'
  ∧ send_abort_first (qp_flags q')
    = (if send_abort (qp_flags q) then send_abort_first (qp_flags q)
       else if send_aborting (qp_flags q) && (X =? CM)%nat then true else send_abort_first (qp_flags q))
  ∧ send_abort (qp_flags q') = send_abort (qp_flags q) || (send_aborting (qp_flags q) && (X =? CM)%nat)
  ∧ spoll CM (if send_abort (qp_flags q') then length ents else X) ents q'
  ∧ send_aborting (qp_flags q') = send_aborting (qp_flags q).
Proof.
  intros Hs H. pose proof Hs as [Hc Hl Hcl Hpo Hcm Hh Ho Hw Hav]. unfold ntrdma_qp_send_cmpl_get in H.
  destruct (send_abort (qp_flags q)) eqn:Hab.
  - cbn [sq_cons sq_cmpl sq_cap sq_set_mem sq_set_prod negb snd fst] in H.
    rewrite Hpo, Hcm, Hc, cur_get in H by (done || lia). rewrite andb_false_r in H.
    injection H as <- <-. subst X. split; [done|]. cbn. rewrite Hab.
    split; [|split; [done|split; [done|split; [|done]]]].
    + split_and!; try done; cbn; congruence.
    + constructor; cbn; try done. by rewrite Hab.
  - destruct Hav as [Hco Hav]. rewrite Hco, Hcm, Hc, cur_get in H by (done || lia).
    unfold r_empty in H. rewrite cur_empty in H by (done || lia).
    cbn [negb] in H. rewrite andb_true_r in H. injection H as <- <-. split; [done|].
    destruct (send_aborting (qp_flags q)) eqn:Hing, (Nat.eqb_spec X CM); cbn; rewrite ?Hab, ?Hing.
    all: split; [|split; [done|split; [done|split; [|done]]]].
    all: try (split_and!; done || (cbn; congruence)).
    all: constructor; cbn; rewrite ?Hab; try done; lia.
Qed.

(** The completions that can be polled after the start of a poll. *)
Definition avail (X : nat) (ents : list ntrdma_send_wqe) (q : ntrdma_qp) : nat :=
  if send_abort (qp_flags q) then length ents else X.

Lemma spoll_avail CM X ents q : spoll CM X ents q → spoll CM (avail X ents q) ents q ∧ avail X ents q = X.
Proof.
  intros Hs. unfold avail. pose proof (sp_avail _ _ _ _ Hs) as Hav.
  destruct (send_abort (qp_flags q)); [by subst X|done].
Qed.

(** Is the abort found to be due: the queue is aborting and everything was polled. *)
Definition abort_due (CM X : nat) (q : ntrdma_qp) : bool :=
  negb (send_abort (qp_flags q)) && send_aborting (qp_flags q) && (X =? CM)%nat.

(** The range a poll starts with: not empty, or nothing can be polled. *)
Lemma poll_send_start_ok CM X ents q rc r q' :
  spoll CM X ents q → ntrdma_qp_poll_send_start_and_get q = (rc, r, q') →
  spoll CM (avail X ents q') ents q' ∧ poll_frame q q' ∧ r = batch (cur scap (avail X ents q') CM)
  ∧ rc = (if (avail X ents q' =? CM)%nat then - EAGAIN else 0)
  ∧ send_abort_first (qp_flags q') = abort_due CM X q || send_abort_first (qp_flags q)
  ∧ send_abort (qp_flags q') = send_abort (qp_flags q) || abort_due CM X q.
Proof.
  intros Hs H. unfold ntrdma_qp_poll_send_start_and_get in H.
  destruct (ntrdma_qp_send_cmpl_get q) as [r1 q1] eqn:Hg.
  destruct (send_cmpl_get_ok _ _ _ _ _ _ Hs Hg) as (-> & Hf & Hfirst & Hab & Hs1 & Hing).
  fold (avail X ents q1) in Hs1.
  assert (send_abort_first (qp_flags q1) = abort_due CM X q || send_abort_first (qp_flags q)) as Hfirst1.
  { rewrite Hfirst. unfold abort_due. 
    by destruct (send_abort (qp_flags q)), (send_aborting (qp_flags q)), (X =? CM)%nat. }
  assert (send_abort (qp_flags q1) = send_abort (qp_flags q) || abort_due CM X q) as Hab1.
  { rewrite Hab. unfold abort_due. by destruct (send_abort (qp_flags q)). }
  pose proof (sp_order _ _ _ _ Hs) as Ho. unfold r_empty in H. rewrite cur_empty in H by (done || lia).
  destruct (Nat.eqb_spec X CM) as [->|Hne]; cbn [negb] in H.
  - destruct (send_abort_first (qp_flags q1)) eqn:Hf1.
    + destruct (ntrdma_qp_send_cmpl_get q1) as [r2 q2] eqn:Hg2.
      destruct (send_cmpl_get_ok _ _ _ _ _ _ Hs1 Hg2) as (-> & Hf2 & Hfirst2 & Hab2 & Hs2 & _).
      pose proof (sp_order _ _ _ _ Hs1). rewrite cur_empty in H by (done || lia).
      injection H as <- <- <-.
      assert (send_abort (qp_flags q2) = send_abort (qp_flags q1)) as Habq.
      { rewrite Hab2, Hab, Hing, andb_true_r. by destruct (send_abort (qp_flags q)), (send_aborting (qp_flags q)). }
      assert (avail CM ents q2 = avail CM ents q1) as Hav by (unfold avail; by rewrite Habq).
      split; [|split; [by etrans|split; [by rewrite Hav|split; [by rewrite Hav|split; [|congruence]]]]].
      * rewrite Habq in Hs2. rewrite Hav. revert Hs2. unfold avail. by destruct (send_abort (qp_flags q1)).
      * rewrite Hfirst2, Hf1, <- Hfirst1.
        by destruct (send_abort (qp_flags q1)), (send_aborting (qp_flags q1)), (avail CM ents q1 =? CM)%nat.
    + assert (avail CM ents q1 = CM) as Hav.
      { unfold avail. rewrite Hab1. destruct (abort_due CM CM q) eqn:Hd; [done|]. rewrite orb_false_r.
        apply spoll_avail in Hs as [_ Hs]. done. }
      injection H as <- <- <-. rewrite Hav in *. rewrite Nat.eqb_refl.
      split; [done|]. split; [done|]. split; [done|]. split; [|by rewrite Hf1].
      pose proof (nslot_range scap Hscap CM). cbn. zcase; [done|lia].
  - injection H as <- <- <-.
    assert (avail X ents q1 = X) as Hav.
    { unfold avail. rewrite Hab. rewrite andb_false_r, orb_false_r. by apply spoll_avail in Hs as [_ Hs]. }
    rewrite Hav in *. rewrite (proj2 (Nat.eqb_neq X CM)) by done. done.
Qed.

(** One completion. *)
Lemma poll_send_cqe_ok CM X ents q i :
  spoll CM X ents q → (CM ≤ i < X)%nat →
  ∃ c q' e, ntrdma_qp_poll_send_cqe (nslot scap i) q = Some (c, q') ∧ ents !! i = Some e ∧ cqe_of e c
    ∧ spoll CM X ents q' ∧ poll_frame q q' ∧ send_abort (qp_flags q') = send_abort (qp_flags q)
    ∧ if send_abort (qp_flags q)
      then cqe_op_status c = (if send_abort_first (qp_flags q) then NTRDMA_WC_ERR_LOC_PORT else NTRDMA_WC_ERR_ABORTED)
           ∧ send_abort_first (qp_flags q') = false
      else send_abort_first (qp_flags q') = send_abort_first (qp_flags q).
Proof.
  intros Hs Hi. pose proof Hs as [Hc Hl Hcl Hpo Hcm Hh Ho Hw Hav].
  pose proof (nslot_range scap Hscap i) as Hr.
  destruct (lookup_lt_is_Some_2 ents i ltac:(lia)) as [e He].
  destruct (lookup_lt_is_Some_2 (sq_cqes (qp_send q)) (Z.to_nat (nslot scap i)) ltac:(lia)) as [c Hcq].
  assert (sq_wqes (qp_send q) !! Z.to_nat (nslot scap i) = Some e) as Hwq.
  { destruct Hh as [_ Hh]. rewrite Hh by lia. done. }
  unfold ntrdma_qp_poll_send_cqe. rewrite Hwq, Hcq.
  destruct (send_abort (qp_flags q)) eqn:Hab.
  - eexists _, _, e. split; [done|]. split; [done|]. split; [done|].
    split; [constructor; cbn; rewrite ?Hab; done|].
    split; [split_and!; done|]. done.
  - destruct Hav as [Hco Hav].
    assert (∀ f, send_abort f = false → recv_abort f = recv_abort (qp_flags q) →
      recv_aborting f = recv_aborting (qp_flags q) → (send_aborting (qp_flags q) = true → send_aborting f = true) →
      spoll CM X ents (qp_set_flags f q) ∧ poll_frame q (qp_set_flags f q)) as Hset.
    { intros f Hf ???. split; [constructor; cbn; rewrite ?Hf; done|]. split_and!; try done. cbn. congruence. }
    assert (cqe_of e c) as Hec by by apply (Hav i).
    destruct (negb (sw_op_status e =? 0)); [|destruct (negb (cqe_op_status c =? 0))].
    + eexists _, _, e. split; [done|]. split; [done|]. split; [done|].
      split; [by apply Hset|]. split; [by apply Hset|done].
    + eexists _, _, e. split; [done|]. split; [done|]. split; [done|].
      split; [by apply Hset|]. split; [by apply Hset|done].
    + eexists _, _, e. split; [done|]. by repeat (split; [done|]).
Qed.

(** What a poll gives: the completions of the next entries; after the abort
    their statuses are those of a flush. *)
Definition flushed (q q' : ntrdma_qp) (l : list ntrdma_cqe) : Prop :=
  if send_abort (qp_flags q)
  then cqe_op_status <$> l = flush_status (send_abort_first (qp_flags q)) (length l)
       ∧ send_abort_first (qp_flags q') = send_abort_first (qp_flags q) && (length l =? 0)%nat
  else send_abort_first (qp_flags q') = send_abort_first (qp_flags q).

Lemma poll_send_loop_ok CM X ents n : ∀ q i pos,
  spoll CM X ents q → (CM ≤ i)%nat → (i + n ≤ X)%nat → run_at scap i pos n →
  ∃ l q', poll_send_loop n pos q = Some (l, q') ∧ length l = n
    ∧ Forall2 cqe_of (take n (drop i ents)) l
    ∧ spoll CM X ents q' ∧ poll_frame q q' ∧ send_abort (qp_flags q') = send_abort (qp_flags q)
    ∧ flushed q q' l.
Proof.
  induction n as [|n IH]; intros q i pos Hs Hi Hn Hrun.
  - exists [], q. cbn. split; [done|]. split; [done|]. split; [done|]. split; [done|]. split; [done|].
    split; [done|]. unfold flushed. destruct (send_abort (qp_flags q)); [|done]. cbn. by rewrite andb_true_r.
  - apply run_at_S in Hrun as [-> Hrun]; [|done].
    destruct (poll_send_cqe_ok _ _ _ _ i Hs ltac:(lia)) as (c & q1 & e & Hq1 & He & Hec & Hs1 & Hf1 & Hab1 & Hst1).
    destruct (IH q1 (S i) _ Hs1 ltac:(lia) ltac:(lia) Hrun) as (l & q2 & Hq2 & Hl & Hm & Hs2 & Hf2 & Hab2 & Hst2).
    exists (c :: l), q2. cbn [poll_send_loop]. rewrite Hq1, Hq2. split; [done|]. cbn [length].
    split; [by rewrite Hl|]. split.
    { rewrite (drop_S _ _ _ He). by constructor. }
    split; [done|]. split; [by etrans|]. split; [congruence|].
    unfold flushed in *. rewrite Hab1 in Hst2. destruct (send_abort (qp_flags q)).
    + destruct Hst1 as [Hc Hf], Hst2 as [Hl2 Hf3]. cbn [fmap list_fmap length]. rewrite flush_status_S, Hc, Hl2, Hf3, Hf.
      split; [done|]. by rewrite andb_false_r.
    + congruence.
Qed.

(** Giving the range back. *)
Lemma poll_send_put_ok CM X ents q n :
  spoll CM X ents q → (CM + n ≤ X)%nat → Z.of_nat n <= scap - nslot scap CM →
  spoll (CM + n) X ents
    (ntrdma_qp_poll_send_put_and_done (nslot scap CM + Z.of_nat n) (nenc scap CM - nslot scap CM) q).
Proof.
  intros [Hc Hle Hcl Hpo Hcm Hh Ho Hw Hav] Hn Hr. constructor; cbn; try done.
  - rewrite Hc. by apply moved_index.
  - eapply holds_mono; [done|lia|lia].
  - lia.
  - lia.
  - destruct (send_abort (qp_flags q)); [done|]. destruct Hav as [Hco Hav]. split; [done|].
    intros i e c Hi. apply Hav. lia.
Qed.

(** ** A whole poll of the send queue *)

Lemma qp_poll_send_ok CM X ents q k :
  spoll CM X ents q →
  ∃ l q1 q', qp_poll_send k q = Some (l, q')
    ∧ Forall2 cqe_of (take (length l) (drop CM ents)) l
    ∧ spoll (CM + length l) (avail X ents q') ents q' ∧ poll_frame q q'
    ∧ (0 < k → CM < avail X ents q' → 0 < length l)%nat
    ∧ send_abort (qp_flags q1) = send_abort (qp_flags q) || abort_due CM X q
    ∧ send_abort_first (qp_flags q1) = abort_due CM X q || send_abort_first (qp_flags q)
    ∧ send_abort (qp_flags q') = send_abort (qp_flags q1) ∧ flushed q1 q' l.
Proof.
  intros Hs. unfold qp_poll_send.
  destruct (ntrdma_qp_poll_send_start_and_get q) as [[rc r] q1] eqn:Hg.
  destruct (poll_send_start_ok _ _ _ _ _ _ _ Hs Hg) as (Hs1 & Hf1 & -> & Hrc & Hfirst & Hab).
  pose proof (sp_order _ _ _ _ Hs1) as Ho1. pose proof (nslot_range scap Hscap CM) as Hsl.
  set (X' := avail X ents q1) in *.
  destruct (Nat.eqb_spec X' CM) as [HX|HX]; subst rc; cbn [Z.eqb negb].
  - change (- EAGAIN =? 0) with false. cbn [negb]. exists [], q1, q1. rewrite Nat.add_0_r.
    split; [done|]. split; [done|]. split; [done|]. split; [done|]. split; [cbn; lia|].
    split; [done|]. split; [done|]. split; [done|].
    unfold flushed. destruct (send_abort (qp_flags q1)); [|done]. by rewrite andb_true_r.
  - cbn [batch r_idx r_end r_base cur].
    set (n := Z.min _ _). assert (NTRDMA_QP_BATCH_SIZE = 16) as Hb by done.
    assert (0 <= n <= Z.min (Z.of_nat (X' - CM)) (scap - nslot scap CM)) as Hn by (subst n; lia).
    destruct (poll_send_loop_ok CM X' ents (Z.to_nat n) q1 CM (nslot scap CM) Hs1) as
      (l & q2 & Hq2 & Hl & Hm & Hs2 & Hf2 & Hab2 & Hst); [done|lia| |].
    { right. split; [done|lia]. }
    rewrite Hq2. exists l, q1, (ntrdma_qp_poll_send_put_and_done (nslot scap CM + n) (nenc scap CM - nslot scap CM) q2).
    split; [done|]. rewrite Hl. split; [done|].
    change (avail X ents (ntrdma_qp_poll_send_put_and_done (nslot scap CM + n) (nenc scap CM - nslot scap CM) q2))
      with (avail X ents q2).
    assert (avail X ents q2 = X') as HX2 by (unfold X', avail; by rewrite Hab2).
    rewrite HX2. split; [|split; [|split; [subst n; lia|split; [done|split; [done|split; [done|done]]]]]].
    + rewrite <- (Z2Nat.id n) at 2 by lia. apply poll_send_put_ok; [done|lia|lia].
    + etrans; [done|]. etrans; [done|]. split_and!; done.
Qed.

(** Polling again and again, [k] completions at a time. *)
Fixpoint poll_sends (n k : nat) (q : ntrdma_qp) : option (list ntrdma_cqe * ntrdma_qp) :=
  match n with
  | O => Some ([], q)
  | S n =>
      match qp_poll_send k q with
      | None => None
      | Some (l, q) =>
          match poll_sends n k q with
          | Some (l', q) => Some (l ++ l', q)
          | None => None
          end
      end
  end.

(** The statuses that an aborting queue is left to report: those of the peer's
    completions, then those of the flush. *)
Definition flush_rest (CM X : nat) (ents : list ntrdma_send_wqe) (q : ntrdma_qp) (l : list ntrdma_cqe) : Prop :=
  if send_abort (qp_flags q)
  then cqe_op_status <$> l = flush_status (send_abort_first (qp_flags q)) (length l)
  else cqe_op_status <$> drop (X - CM) l = flush_status true (length ents - X).

(** A poll makes one step of the flush. *)
Lemma flush_rest_app CM X ents q q1 q' l1 l2 :
  spoll CM X ents q → send_aborting (qp_flags q) = true →
  spoll (CM + length l1) (avail X ents q') ents q' →
  send_abort (qp_flags q1) = send_abort (qp_flags q) || abort_due CM X q →
  send_abort_first (qp_flags q1) = abort_due CM X q || send_abort_first (qp_flags q) →
  send_abort (qp_flags q') = send_abort (qp_flags q1) → flushed q1 q' l1 →
  length (l1 ++ l2) = (length ents - CM)%nat →
  flush_rest (CM + length l1) (avail X ents q') ents q' l2 → flush_rest CM X ents q (l1 ++ l2).
Proof.
  intros Hs Hing Hs' Hab1 Hf1 Hab' Hfl Hlen Hrest.
  assert (send_abort (qp_flags q1) = true →
    cqe_op_status <$> l1 ++ l2 = flush_status (send_abort_first (qp_flags q1)) (length (l1 ++ l2))) as Hflush.
  { intros Ha. unfold flush_rest in Hrest. rewrite Hab', Ha in Hrest. unfold flushed in Hfl. rewrite Ha in Hfl.
    destruct Hfl as [Hfl Hfirst]. by rewrite fmap_app, Hfl, Hrest, Hfirst, length_app, flush_status_app. }
  unfold flush_rest, abort_due in *. destruct (send_abort (qp_flags q)) eqn:Ha; cbn [negb andb orb] in *.
  - rewrite <- Hf1. by apply Hflush.
  - rewrite Hing in *. cbn [andb] in *. destruct (Nat.eqb_spec X CM) as [->|Hne].
    + rewrite Nat.sub_diag, drop_0, <- Hlen, Hflush by done. by rewrite Hf1.
    + rewrite Hab', Hab1 in Hrest. unfold avail in Hrest, Hs'. rewrite Hab', Hab1 in Hrest, Hs'.
      pose proof (sp_order _ _ _ _ Hs'). rewrite drop_app_ge by lia.
      by replace (X - CM - length l1)%nat with (X - (CM + length l1))%nat by lia.
Qed.

(** An aborting send queue is emptied by as many polls as it has entries. *)
Lemma poll_sends_flush k ents n : ∀ CM X q,
  (0 < k)%nat → spoll CM X ents q → send_aborting (qp_flags q) = true → (length ents - CM ≤ n)%nat →
  ∃ l q', poll_sends n k q = Some (l, q') ∧ Forall2 cqe_of (drop CM ents) l
    ∧ sq_cmpl (qp_send q') = sq_post (qp_send q') ∧ flush_rest CM X ents q l.
Proof.
  induction n as [|n IH]; intros CM X q Hk Hs Hing Hn; pose proof (sp_order _ _ _ _ Hs) as Ho.
  - exists [], q. split; [done|]. rewrite drop_ge by lia. split; [done|].
    rewrite (sp_cmpl _ _ _ _ Hs), (sp_post _ _ _ _ Hs). split; [f_equal; lia|].
    unfold flush_rest. destruct (send_abort (qp_flags q)); [done|].
    rewrite drop_nil. by replace (length ents - X)%nat with 0%nat by lia.
  - destruct (qp_poll_send_ok CM X ents q k Hs) as (l1 & q1 & q2 & Hq & Hm & Hs2 & Hf & Hprog & Hab1 & Hf1 & Hab2 & Hfl).
    pose proof (sp_order _ _ _ _ Hs2) as Ho2.
    assert (send_aborting (qp_flags q2) = true) as Hing2.
    { by destruct Hf as (_&_&_&_&_&Hi&_); apply Hi. }
    assert (CM < length ents → CM < avail X ents q2)%nat as Hav.
    { intros Hlt. unfold avail. destruct (send_abort (qp_flags q2)) eqn:Ha2; [done|].
      rewrite Hab1 in Hab2. symmetry in Hab2. apply orb_false_iff in Hab2 as [Ha Hd].
      unfold abort_due in Hd. rewrite Ha, Hing in Hd. cbn in Hd. apply Nat.eqb_neq in Hd. lia. }
    destruct (IH _ _ q2 Hk Hs2 Hing2 ltac:(lia)) as (l2 & q3 & Hq3 & Hm3 & Hend & Hrest).
    exists (l1 ++ l2), q3. cbn [poll_sends]. rewrite Hq, Hq3. split; [done|].
    assert (Forall2 cqe_of (drop CM ents) (l1 ++ l2)) as Hall.
    { rewrite <- (take_drop (length l1) (drop CM ents)), drop_drop. by apply Forall2_app. }
    split; [done|]. split; [done|].
    eapply flush_rest_app; try done. rewrite <- (Forall2_length Hall), length_drop. done.
Qed.

End Sends.
(** ** Completions of receives *)

Section Recvs.
Context {W : Type} (rcap : Z) (Hrcap : cap_ok rcap).

(** [rents] have been posted, [RM] of them polled; [X] can be polled now. *)
Record rpoll (RM X : nat) (rents : list ntrdma_recv_wqe) (q : ntrdma_qp) : Prop := {
  rp_cap : rq_cap (qp_recv q) = rcap;
  rp_len : Z.of_nat (length (rq_wqes (qp_recv q))) = rcap;
  rp_post : rq_post (qp_recv q) = nenc rcap (length rents);
  rp_cmpl : rq_cmpl (qp_recv q) = nenc rcap RM;
  rp_ids : holds rcap (recv_id <$> rq_wqes (qp_recv q)) (recv_id <$> rents) RM (length rents);
  rp_order : (RM ≤ X ≤ length rents)%nat;
  rp_win : Z.of_nat (length rents) <= Z.of_nat RM + rcap;
  rp_status : Forall (λ r, rw_op_status r = 0) rents;
  rp_avail : if recv_abort (qp_flags q) then X = length rents
             else rq_cons (qp_recv q) = nenc rcap X
                  ∧ holds rcap (cqe_id <$> rq_cqes (qp_recv q)) (recv_id <$> rents) RM X }.

Definition ravail (X : nat) (rents : list ntrdma_recv_wqe) (q : ntrdma_qp) : nat :=
  if recv_abort (qp_flags q) then length rents else X.

(** What polling leaves alone; without an abort the queue only moves on. *)
Definition rpoll_frame (q q' : ntrdma_qp) : Prop :=
  qp_send q' = qp_send q ∧ qp_state q' = qp_state q
  ∧ send_abort (qp_flags q') = send_abort (qp_flags q)
  ∧ send_aborting (qp_flags q') = send_aborting (qp_flags q)
  ∧ send_abort_first (qp_flags q') = send_abort_first (qp_flags q)
  ∧ (recv_abort (qp_flags q) = true → recv_abort (qp_flags q') = true)
  ∧ recv_aborting (qp_flags q') = recv_aborting (qp_flags q)
  ∧ (recv_abort (qp_flags q') = true → recv_abort (qp_flags q) = true ∨ recv_aborting (qp_flags q) = true)
  ∧ (recv_abort (qp_flags q') = false → ∃ i, qp_recv q' = rq_set_cmpl i (qp_recv q)).

#[export] Instance rpoll_frame_trans : Transitive rpoll_frame.
Proof.
  intros q1 q2 q3 (?&?&?&?&?&A1&B1&D1&C1) (?&?&?&?&?&A2&B2&D2&C2).
  split_and!; try congruence; try tauto.
  - intros Hab. rewrite B1 in D2. tauto.
  - intros Hab. destruct (recv_abort (qp_flags q2)) eqn:E2; [by rewrite A2 in Hab|].
    destruct (C2 Hab) as [i Hi], (C1 eq_refl) as [j Hj]. exists i. rewrite Hi, Hj. done.
Qed.

Lemma rpoll_frame_refl q : rpoll_frame q q.
Proof. split_and!; try done; [by left|]. exists (rq_cmpl (qp_recv q)). by destruct (qp_recv q). Qed.

Lemma recv_cmpl_get_ok RM X rents q r q' :
  rpoll RM X rents q → ntrdma_qp_recv_cmpl_get q = (r, q') →
  r = cur rcap X RM ∧ rpoll_frame q q'
  ∧ recv_abort (qp_flags q') = recv_abort (qp_flags q) || (recv_aborting (qp_flags q) && (X =? RM)%nat)
  ∧ (recv_abort (qp_flags q) = false → recv_abort (qp_flags q') = true → recv_abort_first (qp_flags q') = true)
  ∧ rpoll RM (ravail X rents q') rents q'.
Proof.
  intros Hs H. pose proof Hs as [Hc Hl Hpo Hcm Hh Ho Hw Hst Hav]. unfold ntrdma_qp_recv_cmpl_get in H.
  destruct (recv_abort (qp_flags q)) eqn:Hab.
  - cbn [rq_cons rq_cmpl rq_cap rq_set_cons negb] in H.
    rewrite Hpo, Hcm, Hc, cur_get in H by (done || lia). rewrite andb_false_r in H.
    injection H as <- <-. subst X. split; [done|]. split.
    + split_and!; try done; cbn; [by left|congruence].
    + split; [done|]. split; [done|]. unfold ravail. cbn. rewrite Hab. constructor; cbn; rewrite ?Hab; done.
  - destruct Hav as [Hco Hav]. rewrite Hco, Hcm, Hc, cur_get in H by (done || lia).
    unfold r_empty in H. rewrite cur_empty in H by (done || lia).
    cbn [negb] in H. rewrite andb_true_r in H. injection H as <- <-. split; [done|].
    unfold ravail.
    destruct (recv_aborting (qp_flags q)) eqn:Hing, (Nat.eqb_spec X RM); cbn; rewrite ?Hab, ?Hing.
    all: split; [split_and!; try done; cbn; try congruence|split; [rewrite ?orb_false_r, ?andb_false_r; done|split; [done|constructor; cbn; rewrite ?Hab; try done; lia]]].
    all: try (by right); intros _; exists (rq_cmpl (qp_recv q)); by destruct (qp_recv q).
Qed.

Lemma poll_recv_start_ok RM X rents q rc r q' :
  rpoll RM X rents q → ntrdma_qp_poll_recv_start_and_get q = (rc, r, q') →
  rpoll RM (ravail X rents q') rents q' ∧ rpoll_frame q q'
  ∧ r = batch (cur rcap (ravail X rents q') RM)
  ∧ rc = (if (ravail X rents q' =? RM)%nat then - EAGAIN else 0).
Proof.
  intros Hs H. unfold ntrdma_qp_poll_recv_start_and_get in H.
  destruct (ntrdma_qp_recv_cmpl_get q) as [r1 q1] eqn:Hg.
  destruct (recv_cmpl_get_ok _ _ _ _ _ _ Hs Hg) as (-> & Hf & Hab & Hfirst & Hs1).
  pose proof (rp_order _ _ _ _ Hs) as Ho. unfold r_empty in H. rewrite cur_empty in H by (done || lia).
  assert (recv_abort (qp_flags q) = true → X = length rents) as Hall.
  { intros Ha. pose proof (rp_avail _ _ _ _ Hs) as Hv. by rewrite Ha in Hv. }
  destruct (Nat.eqb_spec X RM) as [->|Hne]; cbn [negb] in H.
  - destruct (recv_abort_first (qp_flags q1)) eqn:Hf1.
    + destruct (ntrdma_qp_recv_cmpl_get q1) as [r2 q2] eqn:Hg2.
      destruct (recv_cmpl_get_ok _ _ _ _ _ _ Hs1 Hg2) as (-> & Hf2 & Hab2 & _ & Hs2).
      pose proof (rp_order _ _ _ _ Hs1). rewrite cur_empty in H by (done || lia).
      injection H as <- <- <-.
      assert (recv_abort (qp_flags q2) = recv_abort (qp_flags q1)) as Habq.
      { destruct Hf as (_&_&_&_&_&_&Hing&_). rewrite Hab2, Hab, Hing, andb_true_r.
        by destruct (recv_abort (qp_flags q)), (recv_aborting (qp_flags q)). }
      assert (ravail RM rents q2 = ravail RM rents q1) as Hav by (unfold ravail; by rewrite Habq).
      split; [|split; [by etrans|split; by rewrite Hav]].
      rewrite Hav. revert Hs2. unfold ravail. rewrite Habq. by destruct (recv_abort (qp_flags q1)).
    + injection H as <- <- <-.
      assert (ravail RM rents q1 = RM) as Hav.
      { unfold ravail. destruct (recv_abort (qp_flags q1)) eqn:Ha1; [|done].
        destruct (recv_abort (qp_flags q)); [by rewrite <- Hall|by specialize (Hfirst eq_refl eq_refl)]. }
      rewrite Hav in *. rewrite Nat.eqb_refl. split; [done|]. split; [done|]. split; [done|].
      pose proof (nslot_range rcap Hrcap RM). cbn. zcase; [done|lia].
  - injection H as <- <- <-.
    assert (ravail X rents q1 = X) as Hav.
    { unfold ravail. rewrite Hab, andb_false_r, orb_false_r.
      destruct (recv_abort (qp_flags q)); [by rewrite <- Hall|done]. }
    rewrite Hav in *. rewrite (proj2 (Nat.eqb_neq X RM)) by done. done.
Qed.

(** One completion, and those of a run. *)
Lemma poll_recv_cqe_ok ntc out RM X rents q i c q' (w w' : qp_world W) :
  ntrdma_qp_poll_recv_cqe ntc out (nslot rcap i) q w = Some (c, q', w') →
  rpoll RM X rents q → (RM ≤ i < X)%nat →
  rpoll RM X rents q' ∧ rpoll_frame q q' ∧ recv_abort (qp_flags q') = recv_abort (qp_flags q)
  ∧ rw_ulp_handle <$> rents !! i = Some (cqe_ulp_handle c).
Proof.
  intros H Hs Hi. pose proof Hs as [Hc Hl Hpo Hcm Hh Ho Hw Hst Hav].
  pose proof (nslot_range rcap Hrcap i) as Hr.
  destruct (lookup_lt_is_Some_2 rents i ltac:(lia)) as [e He].
  unfold ntrdma_qp_poll_recv_cqe in H.
  destruct (rq_wqes (qp_recv q) !! Z.to_nat (nslot rcap i)) as [wqe|] eqn:Hwq; [|done].
  assert (recv_id wqe = recv_id e) as Hid.
  { destruct Hh as [_ Hh]. specialize (Hh i ltac:(lia)). rewrite !list_lookup_fmap, Hwq, He in Hh. by apply (inj Some). }
  destruct (rq_cqes (qp_recv q) !! Z.to_nat (nslot rcap i)) as [cqe|] eqn:Hcq; [|done].
  rewrite He. cbn [fmap option_fmap option_map].
  destruct (recv_abort (qp_flags q)) eqn:Hab.
  - destruct (ntrdma_recv_fail _ _ _ _ _) as [[[c1 wqe'] w1]|] eqn:Hf; [|done].
    apply recv_fail_id in Hf as [Hid' Hh']. injection H as <- <- <-.
    split; [|split; [|split; [done|injection Hid as Hwh _; by rewrite Hh', Hwh]]].
    + constructor; cbn; rewrite ?Hab, ?length_insert; try done.
      rewrite list_fmap_insert, list_insert_id; [done|]. by rewrite list_lookup_fmap, Hwq, Hid'.
    + split_and!; try done; cbn; first [by left | congruence].
  - destruct Hav as [Hco [_ Hcv]]. specialize (Hcv i Hi). rewrite !list_lookup_fmap, Hcq, He in Hcv.
    injection Hcv as Hch Hcs. injection Hid as Hwh Hws.
    pose proof (Forall_lookup_1 _ _ _ _ Hst He) as Hs0. cbn in Hs0.
    rewrite Hws, Hs0 in H. cbn [Z.eqb negb] in H. rewrite Hcs, Hs0 in H. cbn [Z.eqb negb] in H.
    injection H as <- <- <-. split; [done|]. split; [apply rpoll_frame_refl|]. split; [done|]. by rewrite Hch.
Qed.

Lemma poll_recv_loop_ok ntc RM X rents n : ∀ out q i pos l q' (w w' : qp_world W),
  poll_recv_loop ntc n out pos q w = Some (l, q', w') →
  rpoll RM X rents q → (RM ≤ i)%nat → (i + n ≤ X)%nat → run_at rcap i pos n →
  length l = n ∧ cqe_ulp_handle <$> l = rw_ulp_handle <$> take n (drop i rents)
  ∧ rpoll RM X rents q' ∧ rpoll_frame q q' ∧ recv_abort (qp_flags q') = recv_abort (qp_flags q).
Proof.
  induction n as [|n IH]; intros out q i pos l q' w w' H Hs Hi Hn Hrun; cbn [poll_recv_loop] in H.
  - injection H as <- <- <-. split; [done|]. split; [done|]. split; [done|]. split; [apply rpoll_frame_refl|done].
  - apply run_at_S in Hrun as [-> Hrun]; [|done].
    destruct (ntrdma_qp_poll_recv_cqe _ _ _ _ _) as [[[c q1] w1]|] eqn:Hc; [|done].
    destruct (poll_recv_loop _ _ _ _ _ _) as [[[l1 q2] w2]|] eqn:Hl; [|done]. injection H as <- <- <-.
    destruct (poll_recv_cqe_ok _ _ _ _ _ _ _ _ _ _ _ Hc Hs ltac:(lia)) as (Hs1 & Hf1 & Hab1 & Hh1).
    destruct (IH _ _ (S i) _ _ _ _ _ Hl Hs1 ltac:(lia) ltac:(lia) Hrun) as (Hlen & Hh2 & Hs2 & Hf2 & Hab2).
    split; [by cbn; rewrite Hlen|]. split.
    { destruct (rents !! i) as [e|] eqn:He; [|done]. injection Hh1 as Hh1.
      rewrite (drop_S _ _ _ He). cbn [fmap list_fmap firstn]. by rewrite Hh1, Hh2. }
    split; [done|]. split; [by etrans|congruence].
Qed.

Lemma poll_recv_put_ok RM X rents q n :
  rpoll RM X rents q → (RM + n ≤ X)%nat → Z.of_nat n <= rcap - nslot rcap RM →
  rpoll (RM + n) X rents
    (ntrdma_qp_poll_recv_put_and_done (nslot rcap RM + Z.of_nat n) (nenc rcap RM - nslot rcap RM) q).
Proof.
  intros [Hc Hle Hpo Hcm Hh2 Ho Hw Hst Hav] Hn Hr. constructor; cbn; try done.
  - rewrite Hc. by apply moved_index.
  - eapply holds_mono; [done|lia|lia].
  - lia.
  - lia.
  - destruct (recv_abort (qp_flags q)); [done|]. destruct Hav as [Hco Hav]. split; [done|].
    eapply holds_mono; [done|lia|lia].
Qed.

Lemma qp_poll_recv_ok ntc k out RM X rents q l q' (w w' : qp_world W) :
  qp_poll_recv ntc k out q w = Some (l, q', w') → rpoll RM X rents q →
  cqe_ulp_handle <$> l = rw_ulp_handle <$> take (length l) (drop RM rents)
  ∧ rpoll (RM + length l) (ravail X rents q') rents q' ∧ rpoll_frame q q'.
Proof.
  unfold qp_poll_recv. intros H Hs.
  destruct (ntrdma_qp_poll_recv_start_and_get q) as [[rc r] q1] eqn:Hg.
  destruct (poll_recv_start_ok _ _ _ _ _ _ _ Hs Hg) as (Hs1 & Hf1 & -> & Hrc).
  pose proof (rp_order _ _ _ _ Hs1) as Ho1. pose proof (nslot_range rcap Hrcap RM) as Hsl.
  set (X' := ravail X rents q1) in *.
  destruct (Nat.eqb_spec X' RM) as [HX|HX]; subst rc; cbn [Z.eqb negb] in H.
  - change (- EAGAIN =? 0) with false in H. cbn [negb] in H. injection H as <- <- <-.
    rewrite Nat.add_0_r. done.
  - cbn [batch r_idx r_end r_base cur] in H.
    set (n := Z.min _ _) in H. assert (NTRDMA_QP_BATCH_SIZE = 16) as Hb by done.
    assert (0 <= n <= Z.min (Z.of_nat (X' - RM)) (rcap - nslot rcap RM)) as Hn by (subst n; lia).
    destruct (poll_recv_loop _ _ _ _ _ _) as [[[l1 q2] w2]|] eqn:Hl; [|done]. injection H as <- <- <-.
    destruct (poll_recv_loop_ok _ RM X' _ _ _ _ RM _ _ _ _ _ Hl Hs1) as (Hlen & Hh & Hs2 & Hf2 & Hab2).
    { done. } { lia. } { right. split; [done|lia]. }
    rewrite Hlen. split; [done|].
    match goal with |- rpoll _ (ravail _ _ ?q) _ _ ∧ _ =>
      assert (ravail X rents q = X') as -> by (unfold X', ravail; cbn; by rewrite Hab2) end.
    split.
    + rewrite <- (Z2Nat.id n) at 2 by lia. apply poll_recv_put_ok; [done|lia|lia].
    + etrans; [done|]. etrans; [done|]. split_and!; try done; [by left|]. by eexists.
Qed.
End Recvs.


(** ** Posting *)

Section Posts.
Context (cap : Z) (Hcap : cap_ok cap).

Lemma post_get_ok P C :
  (C ≤ P)%nat → Z.of_nat P <= Z.of_nat C + cap →
  ∃ e, ntrdma_ring_produce (nenc cap P) (nenc cap C) cap
       = (negb (Z.of_nat P - Z.of_nat C =? cap), mk_range (nslot cap P) e (nenc cap P - nslot cap P)).
Proof.
  intros HC HP. pose proof (produce_nenc cap P C Hcap HC HP) as Hr.
  pose proof (produce_enc cap (Z.of_nat P) (Z.of_nat C) Hcap ltac:(rsolve)) as He.
  unfold nenc in *. destruct (ntrdma_ring_produce _ _ _) as [more r]. cbn [snd] in Hr. subst r.
  destruct He as [-> _]. by eexists.
Qed.

Lemma post_put_ok P : ntrdma_ring_update (nslot cap P + 1) (nenc cap P - nslot cap P) cap = nenc cap (S P).
Proof.
  pose proof (nslot_range cap Hcap P). replace (S P) with (P + 1)%nat by lia.
  rewrite <- moved_index by (done || lia). f_equal.
Qed.

Lemma post_send_ok wqe q q' CM P :
  post_send_entry wqe q = Some q' → sq_cap (qp_send q) = cap →
  sq_post (qp_send q) = nenc cap P → sq_cmpl (qp_send q) = nenc cap CM →
  (CM ≤ P)%nat → Z.of_nat P <= Z.of_nat CM + cap →
  Z.of_nat P < Z.of_nat CM + cap
  ∧ q' = qp_set_send (sq_set_post (nenc cap (S P))
           (sq_set_wqes (<[Z.to_nat (nslot cap P) := wqe]> (sq_wqes (qp_send q))) (qp_send q))) q.
Proof.
  unfold post_send_entry, ntrdma_qp_send_post_get, ntrdma_qp_send_post_put. intros H Hc Hp Hm HC HP.
  destruct (post_get_ok P CM HC HP) as [e He]. rewrite Hc, Hp, Hm, He in H.
  destruct (Z.eqb_spec (Z.of_nat P - Z.of_nat CM) cap); [done|]. cbn [negb r_idx r_base] in H.
  injection H as <-. split; [lia|]. cbn [sq_cap sq_set_wqes]. by rewrite Hc, post_put_ok.
Qed.

Lemma post_recv_ok wqe q q' RM P :
  post_recv_entry wqe q = Some q' → rq_cap (qp_recv q) = cap →
  rq_post (qp_recv q) = nenc cap P → rq_cmpl (qp_recv q) = nenc cap RM →
  (RM ≤ P)%nat → Z.of_nat P <= Z.of_nat RM + cap →
  Z.of_nat P < Z.of_nat RM + cap
  ∧ q' = qp_set_recv (rq_set_post (nenc cap (S P))
           (rq_set_entries (<[Z.to_nat (nslot cap P) := wqe]> (rq_wqes (qp_recv q))) (rq_cqes (qp_recv q))
              (qp_recv q))) q.
Proof.
  unfold post_recv_entry, ntrdma_qp_recv_post_get, ntrdma_qp_recv_post_put. intros H Hc Hp Hm HC HP.
  destruct (post_get_ok P RM HC HP) as [e He]. rewrite Hc, Hp, Hm, He in H.
  destruct (Z.eqb_spec (Z.of_nat P - Z.of_nat RM) cap); [done|]. cbn [negb r_idx r_base] in H.
  injection H as <-. split; [lia|]. cbn [rq_cap rq_set_entries]. by rewrite Hc, post_put_ok.
Qed.

End Posts.

(** ** Flushing *)

(** C33. A stalled queue pair leaves no send without a completion: polling it,
    [k] completions at a time, empties the send queue within as many polls as
    there are entries; every entry still in the queue is completed once, in
    posting order, with its own handle, operation and flags; and those the
    peer had not completed ([X] of them it had) fail, the first with
    NTRDMA_WC_ERR_LOC_PORT and the others with NTRDMA_WC_ERR_ABORTED. *)
Theorem stalled_sends_are_flushed cap CM X ents q n k :
  cap_ok cap → spoll cap CM X ents q → send_abort (qp_flags q) = false →
  (0 < k)%nat → (length ents - CM ≤ n)%nat →
  ∃ l q', poll_sends n k (ntrdma_qp_send_stall q) = Some (l, q')
    ∧ Forall2 cqe_of (drop CM ents) l
    ∧ cqe_op_status <$> drop (X - CM) l = flush_status true (length ents - X)
    ∧ sq_cmpl (qp_send q') = sq_post (qp_send q').
Proof.
  intros Hcap Hs Hab Hk Hn.
  assert (send_abort (qp_flags (ntrdma_qp_send_stall q)) = false
    ∧ send_aborting (qp_flags (ntrdma_qp_send_stall q)) = true
    ∧ qp_send (ntrdma_qp_send_stall q) = qp_send q) as (Hab' & Hing & Hsend).
  { unfold ntrdma_qp_send_stall. rewrite Hab. cbn [negb].
    destruct (negb (is_state_send_ready _)); [|done]. by destruct (negb (recv_abort _)). }
  assert (spoll cap CM X ents (ntrdma_qp_send_stall q)) as Hs'.
  { destruct Hs. constructor; rewrite ?Hsend, ?Hab'; try done. by rewrite Hab in *. }
  destruct (poll_sends_flush cap Hcap k ents n CM X _ Hk Hs' Hing Hn) as (l & q' & Hq & Hm & Hend & Hrest).
  exists l, q'. unfold flush_rest in Hrest. rewrite Hab' in Hrest. done.
Qed.

(** A queue with two sends, none of them completed. *)
Definition ex_send (h : Z) : ntrdma_send_wqe :=
  mk_send_wqe h IB_WR_RDMA_WRITE 0 0 (mk_sge 0 0 0) 0 0 0 [] [].
Definition ex_cqe : ntrdma_cqe := mk_cqe 0 0 0 0 0 0.
Definition ex_bufs : qp_bufs :=
  let lb := mk_local_buf 4096 true true 65536 65536 in let rb := mk_remote_buf 4096 1048576 0 in
  mk_qp_bufs 64 40 1 16 1 lb lb rb 2048 0 rb 2048.
Definition ex_qp : ntrdma_qp :=
  mk_qp 1 1 0 IB_QPS_RTS true (mk_flags false false false false false false)
    (mk_send_ring 4 2 2 0 [ex_send 7; ex_send 8; ex_send 0; ex_send 0] (replicate 4 ex_cqe) 0)
    (mk_recv_ring 4 0 0 0 0 [] []) ex_bufs.

Lemma ex_spoll : spoll 4 0 0 [ex_send 7; ex_send 8] ex_qp.
Proof.
  constructor; try reflexivity; cbn; try lia.
  - split; [reflexivity|]. intros n Hn. destruct n as [|[|n]]; [reflexivity|reflexivity|cbn in Hn; lia].
  - split; [reflexivity|]. intros i e c Hi. lia.
Qed.

Lemma stalled_sends_are_flushed_witness :
  spoll 4 0 0 [ex_send 7; ex_send 8] ex_qp
  ∧ ∃ l q', poll_sends 2 1 (ntrdma_qp_send_stall ex_qp) = Some (l, q')
    ∧ Forall2 cqe_of [ex_send 7; ex_send 8] l
    ∧ cqe_op_status <$> drop 0 l = flush_status true 2
    ∧ sq_cmpl (qp_send q') = sq_post (qp_send q').
Proof.
  split; [exact ex_spoll|].
  apply (stalled_sends_are_flushed 4 0 0 [ex_send 7; ex_send 8] ex_qp 2 1).
  - split; reflexivity.
  - exact ex_spoll.
  - reflexivity.
  - lia.
  - cbn. lia.
Defined.

(** The same, evaluated. *)
Example stall_run :
  match poll_sends 2 1 (ntrdma_qp_send_stall ex_qp) with
  | Some (l, _) => (λ c, (cqe_ulp_handle c, cqe_op_status c)) <$> l
      = [(7, NTRDMA_WC_ERR_LOC_PORT); (8, NTRDMA_WC_ERR_ABORTED)]
  | None => False
  end.
Proof. vm_compute. done. Qed.

End QpPoll.
