(* ===== verification/QpChan.v ===== *)
(** * Two connected queue pairs

    The sending half of one queue pair and the receiving half of its peer:
    the sends, their completions and the receives travel over the link as
    runs of entries followed by an index.  The steps of the system are the
    functions of [Qp], the deliveries of the link, and everything that leaves
    this direction alone; its invariant gives the theorems on the channel. *)

From stdpp Require Import gmap.
From S2P Require Import Prelude Kernel Ring Wire Ntc Wr Mem Zip Vbell Mm Buf Qp QpRun QpPoll.
Import Ring Wire Ntc Wr Mem Zip Vbell Mm Buf Qp QpRun QpPoll.

Module QpChan.

(** The two sides, the transfers under way, and what has happened: the work
    requests posted, the receives that sends were given at the sender and at
    the receiver, the completions polled. *)
Record qchan := mk_qchan {
  a_q : ntrdma_qp; a_p : ntrdma_rqp;
  b_q : ntrdma_qp; b_p : ntrdma_rqp;
  w_sends : list (wire_op ntrdma_send_wqe);
  w_cqes : list (wire_op ntrdma_cqe);
  w_recvs : list (wire_op ntrdma_recv_wqe);
  h_posted : list ntrdma_send_wqe;
  h_recvs : list ntrdma_recv_wqe;
  h_uses : list (ntrdma_send_wqe * ntrdma_recv_wqe);
  h_fills : list (ntrdma_send_wqe * ntrdma_recv_wqe);
  h_spolled : list ntrdma_cqe;
  h_rpolled : list ntrdma_cqe }.

Definition sq_mem (q : ntrdma_qp) : list ntrdma_cqe * Z := (sq_cqes (qp_send q), sq_cons (qp_send q)).
Definition rs_mem (p : ntrdma_rqp) : list ntrdma_send_wqe * Z := (rs_wqes (rqp_send p), rs_prod (rqp_send p)).
Definition rr_mem (p : ntrdma_rqp) : list ntrdma_recv_wqe * Z := (rr_wqes (rqp_recv p), rr_prod (rqp_recv p)).

(** What does not touch the sending half, and the receiving half: the other
    direction's work, changes of the state.  An aborted receiving half stays
    in a state in which nothing is received. *)
Definition sender_env (q q' : ntrdma_qp) (p p' : ntrdma_rqp) : Prop :=
  qp_send q' = qp_send q ∧ send_abort (qp_flags q') = send_abort (qp_flags q) ∧ rqp_recv p' = rqp_recv p.

Definition stopped (q : ntrdma_qp) : Prop :=
  recv_abort (qp_flags q) = true ∨ recv_aborting (qp_flags q) = true → is_state_recv_ready (qp_state q) = false.

Definition receiver_env (q q' : ntrdma_qp) (p p' : ntrdma_rqp) : Prop :=
  qp_recv q' = qp_recv q ∧ recv_abort (qp_flags q') = recv_abort (qp_flags q) ∧ stopped q'
  ∧ rqp_send p' = rqp_send p.

Section Steps.
Context {W : Type} `{M : MemStore W} `{K : Kernel}.

(** The outcomes of the transfers, and the data, are those of any world [w];
    a run that ends in an unrecoverable error is the end of the channel. *)
Inductive qstep : qchan → qchan → Prop :=
  | step_post_send aq ap bq bp ws wc wr po re us fi sp rp wqe aq' :
      known_op wqe → post_send_entry wqe aq = Some aq' →
      qstep (mk_qchan aq ap bq bp ws wc wr po re us fi sp rp)
            (mk_qchan aq' ap bq bp ws wc wr (po ++ [wqe]) re us fi sp rp)
  | step_send_work aq ap bq bp ws wc wr po re us fi sp rp ntc irq vec (w w' : qp_world W) resched aq' ap' evs :
      ntrdma_qp_send_work ntc irq vec aq (Some ap) w = Some (resched, aq', Some ap', w', evs) →
      zw_unrecoverable (qw_zip w') = false →
      qstep (mk_qchan aq ap bq bp ws wc wr po re us fi sp rp)
            (mk_qchan aq' ap' bq bp (ws ++ swire evs) wc wr po re (us ++ uses_of evs) fi sp rp)
  | step_rqp_work aq ap bq bp ws wc wr po re us fi sp rp ntc irq vec bytes chan (w w' : qp_world W) bq' bp' evs :
      ntrdma_rqp_send_work ntc irq vec bytes chan bp (Some bq) w = Some (bp', Some bq', w', evs) →
      zw_unrecoverable (qw_zip w') = false →
      qstep (mk_qchan aq ap bq bp ws wc wr po re us fi sp rp)
            (mk_qchan aq ap bq' bp' ws (wc ++ cwire evs) wr po re us (fi ++ fills_of evs) sp rp)
  | step_post_recv aq ap bq bp ws wc wr po re us fi sp rp wqe bq' :
      rw_op_status wqe = 0 → post_recv_entry wqe bq = Some bq' →
      qstep (mk_qchan aq ap bq bp ws wc wr po re us fi sp rp)
            (mk_qchan aq ap bq' bp ws wc wr po (re ++ [wqe]) us fi sp rp)
  | step_recv_work aq ap bq bp ws wc wr po re us fi sp rp (w w' : qp_world W) bq' evs :
      ntrdma_qp_recv_work bq w = Some (bq', w', evs) →
      zw_unrecoverable (qw_zip w') = false →
      qstep (mk_qchan aq ap bq bp ws wc wr po re us fi sp rp)
            (mk_qchan aq ap bq' bp ws wc (wr ++ rwire evs) po re us fi sp rp)
  | step_send_arrives aq ap bq bp e ws wc wr po re us fi sp rp :
      qstep (mk_qchan aq ap bq bp (e :: ws) wc wr po re us fi sp rp)
            (mk_qchan aq ap bq (rqp_set_send (rs_set_mem (deliver e (rs_mem bp)) (rqp_send bp)) bp)
               ws wc wr po re us fi sp rp)
  | step_cqe_arrives aq ap bq bp ws e wc wr po re us fi sp rp :
      qstep (mk_qchan aq ap bq bp ws (e :: wc) wr po re us fi sp rp)
            (mk_qchan (qp_set_send (sq_set_mem (deliver e (sq_mem aq)) (qp_send aq)) aq) ap bq bp
               ws wc wr po re us fi sp rp)
  | step_recv_arrives aq ap bq bp ws wc e wr po re us fi sp rp :
      qstep (mk_qchan aq ap bq bp ws wc (e :: wr) po re us fi sp rp)
            (mk_qchan aq (rqp_set_recv (rr_set_mem (deliver e (rr_mem ap)) (rqp_recv ap)) ap) bq bp
               ws wc wr po re us fi sp rp)
  | step_poll_send aq ap bq bp ws wc wr po re us fi sp rp k l aq' :
      qp_poll_send k aq = Some (l, aq') →
      qstep (mk_qchan aq ap bq bp ws wc wr po re us fi sp rp)
            (mk_qchan aq' ap bq bp ws wc wr po re us fi (sp ++ l) rp)
  | step_poll_recv aq ap bq bp ws wc wr po re us fi sp rp ntc k out l bq' (w w' : qp_world W) :
      qp_poll_recv ntc k out bq w = Some (l, bq', w') →
      qstep (mk_qchan aq ap bq bp ws wc wr po re us fi sp rp)
            (mk_qchan aq ap bq' bp ws wc wr po re us fi sp (rp ++ l))
  | step_env aq ap bq bp ws wc wr po re us fi sp rp aq' ap' bq' bp' :
      sender_env aq aq' ap ap' → receiver_env bq bq' bp bp' →
      qstep (mk_qchan aq ap bq bp ws wc wr po re us fi sp rp)
            (mk_qchan aq' ap' bq' bp' ws wc wr po re us fi sp rp).

(** The channel when both sides have been connected. *)
Definition qstart (scap rcap : Z) (s : qchan) : Prop :=
  cap_ok scap ∧ cap_ok rcap
  ∧ (let r := qp_send (a_q s) in
     sq_cap r = scap ∧ sq_post r = 0 ∧ sq_prod r = 0 ∧ sq_cmpl r = 0 ∧ sq_cons r = 0
     ∧ Z.of_nat (length (sq_wqes r)) = scap ∧ Z.of_nat (length (sq_cqes r)) = scap)
  ∧ send_abort (qp_flags (a_q s)) = false
  ∧ (let r := rqp_recv (a_p s) in
     rr_cap r = rcap ∧ rr_cons r = 0 ∧ rr_prod r = 0 ∧ Z.of_nat (length (rr_wqes r)) = rcap)
  ∧ (let r := qp_recv (b_q s) in
     rq_cap r = rcap ∧ rq_post r = 0 ∧ rq_prod r = 0 ∧ rq_cons r = 0 ∧ rq_cmpl r = 0
     ∧ Z.of_nat (length (rq_wqes r)) = rcap ∧ Z.of_nat (length (rq_cqes r)) = rcap)
  ∧ recv_abort (qp_flags (b_q s)) = false ∧ recv_aborting (qp_flags (b_q s)) = false
  ∧ (let r := rqp_send (b_p s) in
     rs_cap r = scap ∧ rs_cons r = 0 ∧ rs_prod r = 0
     ∧ Z.of_nat (length (rs_wqes r)) = scap ∧ Z.of_nat (length (rs_cqes r)) = scap)
  ∧ s = mk_qchan (a_q s) (a_p s) (b_q s) (b_p s) [] [] [] [] [] [] [] [] [].

Definition qreach (scap rcap : Z) (s : qchan) : Prop := ∃ s0, qstart scap rcap s0 ∧ rtc qstep s0 s.

(** ** The invariant *)

Section Inv.
Context (scap rcap : Z) (Hscap : cap_ok scap) (Hrcap : cap_ok rcap).

(** [sent] have been produced and [rest] are to come, [CM] completions have
    been polled, [X] can be; [CB] sends have been consumed, with the
    completions [cqes], and [VS] are visible; of the receives, [RM] have been
    polled, [Y] can be, [RS] have been produced and [VR] are visible. *)
Record qinv (s : qchan) (sent rest : list ntrdma_send_wqe) (cqes : list ntrdma_cqe)
    (CM X CB VS RM Y RS VR : nat) : Prop := {
  qi_posted : Forall2 same_wqe (h_posted s) (sent ++ rest);
  qi_ops : Forall known_op (sent ++ rest);
  qi_sp : spoll scap CM X (sent ++ rest) (a_q s);
  qi_spolled : Forall2 cqe_of (take CM (sent ++ rest)) (h_spolled s);
  qi_prod : send_abort (qp_flags (a_q s)) = false → sq_prod (qp_send (a_q s)) = nenc scap (length sent);
  qi_known : sends_known rcap RS sent;
  qi_uses : pairs_ok sent (h_recvs s) (h_uses s);
  qi_recvs : chan_ok rcap (take RS (h_recvs s)) (ns sent) VR (rr_mem (a_p s)) (w_recvs s);
  qi_rr : rr_cap (rqp_recv (a_p s)) = rcap ∧ rr_cons (rqp_recv (a_p s)) = nenc rcap (ns sent);
  qi_sends : chan_ok scap sent CB VS (rs_mem (b_p s)) (w_sends s);
  qi_cqes : send_abort (qp_flags (a_q s)) = false → chan_ok scap cqes CM X (sq_mem (a_q s)) (w_cqes s);
  qi_match : Forall2 cqe_of (take CB sent) cqes;
  qi_fills : pairs_ok (take CB sent) (h_recvs s) (h_fills s);
  qi_rp : rpoll rcap RM Y (h_recvs s) (b_q s);
  qi_rpolled : cqe_ulp_handle <$> h_rpolled s = rw_ulp_handle <$> take RM (h_recvs s);
  qi_stopped : stopped (b_q s);
  qi_RS : (RS ≤ length (h_recvs s))%nat;
  qi_rcv : recv_abort (qp_flags (b_q s)) = false → Y = ns (take CB sent)
    ∧ receiver scap rcap RM RS CB VS (h_recvs s) sent cqes (h_fills s) (qp_recv (b_q s)) (rqp_send (b_p s)) }.

(** *** Transport along the versions of the entries *)

Lemma cqe_of_same l l' c : Forall2 same_wqe l l' → Forall2 cqe_of l c → Forall2 cqe_of l' c.
Proof.
  intros Hs Hc. revert l' Hs. induction Hc as [|e x l c He Hc IH]; intros l' Hs; inversion Hs; subst; constructor.
  - destruct He as (? & ? & ?), H1 as (? & ? & ?). repeat split; congruence.
  - by apply IH.
Qed.

Lemma known_op_same l l' : Forall2 same_wqe l l' → Forall known_op l → Forall known_op l'.
Proof.
  induction 1 as [|e e' l l' He Hl IH]; intros Hk; [constructor|]. inversion Hk; subst. constructor; [|by apply IH].
  destruct He as (_ & Ho & _). unfold known_op. by rewrite Ho.
Qed.

Lemma same_refl l : Forall2 same_wqe l l.
Proof. induction l; by constructor. Qed.

Lemma same_trans l1 l2 l3 : Forall2 same_wqe l1 l2 → Forall2 same_wqe l2 l3 → Forall2 same_wqe l1 l3.
Proof.
  intros H12. revert l3. induction H12; intros l3 H23; inversion H23; subst; constructor; [by etrans|auto].
Qed.

(** *** The pieces of the invariant under the changes of a step *)

Lemma spoll_post CM X ents q q' wqe :
  spoll scap CM X ents q → post_send_entry wqe q = Some q' →
  spoll scap CM (avail X (ents ++ [wqe]) q') (ents ++ [wqe]) q'
  ∧ qp_flags q' = qp_flags q ∧ sq_prod (qp_send q') = sq_prod (qp_send q) ∧ sq_mem q' = sq_mem q.
Proof.
  intros [Hc Hl Hcl Hpo Hcm Hh Ho Hw Hav] H.
  destruct (post_send_ok scap Hscap wqe q q' CM (length ents) H Hc Hpo Hcm) as [Hlt ->]; [lia|lia|].
  split; [|done]. unfold avail. constructor; cbn; rewrite ?length_insert; try done.
  - by rewrite length_app, Nat.add_1_r.
  - rewrite length_app, Nat.add_1_r. apply holds_snoc; try done; lia.
  - rewrite length_app. cbn. destruct (send_abort (qp_flags q)); lia.
  - rewrite length_app. cbn. lia.
  - destruct (send_abort (qp_flags q)); [done|]. destruct Hav as [Hco Hav]. split; [done|].
    intros i e c Hi He. rewrite lookup_app_l in He by lia. by apply Hav.
Qed.

Lemma receiver_rpoll RM RS CB VS rents sent cqes f q p :
  receiver scap rcap RM RS CB VS rents sent cqes f (qp_recv q) p → recv_abort (qp_flags q) = false →
  rpoll rcap RM (ns (take CB sent)) rents q.
Proof.
  intros [[Hc Hl Hcl Hpo Hpr Hcm Ho Hw Hn Hid Hcq Hst] Hrc _ _ _ _ _ _ _ _ _ _] Hab.
  constructor; try done; [lia|]. by rewrite Hab.
Qed.

Lemma receiver_more RM RS CB VS rents sent more cqes f rq rs :
  receiver scap rcap RM RS CB VS rents sent cqes f rq rs →
  receiver scap rcap RM RS CB VS rents (sent ++ more) cqes f rq rs.
Proof.
  intros [Hq Hrc Hc Hco Hp Ho Hw Hs Hcl Hm Hok Hpa].
  assert (take CB (sent ++ more) = take CB sent) as Ht by (apply take_app_le; lia).
  constructor; rewrite ?Ht; try done.
  - rewrite length_app. lia.
  - intros i Hi. rewrite Hs by done. by rewrite lookup_app_l by lia.
Qed.

(** New contents of the memory the peer writes. *)
Lemma receiver_mem RM RS CB VS VS' rents sent cqes f rq rs m w :
  receiver scap rcap RM RS CB VS rents sent cqes f rq rs → chan_ok scap sent CB VS' m w →
  receiver scap rcap RM RS CB VS' rents sent cqes f rq (rs_set_mem m rs).
Proof.
  intros [Hq Hrc Hc Hco Hp Ho Hw Hs Hcl Hm Hok Hpa] Hch.
  pose proof (chan_bounds _ _ _ _ _ _ Hch) as [Hb Hi]. destruct Hch as (Hml & _ & _ & Hwin & Hx).
  constructor; cbn; try done; try lia.
  intros i Hi'. eapply (chan_lookup scap); [|done]. by split; [|split; [|split; [|split]]].
Qed.

Lemma receiver_post RM RS CB VS rents sent cqes f q q' rs wqe :
  receiver scap rcap RM RS CB VS rents sent cqes f (qp_recv q) rs → rw_op_status wqe = 0 →
  post_recv_entry wqe q = Some q' →
  receiver scap rcap RM RS CB VS (rents ++ [wqe]) sent cqes f (qp_recv q') rs.
Proof.
  intros [[Hc Hl Hcl Hpo Hpr Hcm Ho Hw Hn Hid Hcq Hst] Hrc Hc' Hco Hp Ho' Hw' Hs Hcl' Hm Hok Hpa] Hz H.
  destruct (post_recv_ok rcap Hrcap wqe q q' RM (length rents) H Hc Hpo Hcm) as [Hlt ->]; [lia|lia|].
  constructor; try done; [|by apply pairs_mono].
  constructor; cbn; rewrite ?length_insert; try done.
  - by rewrite length_app, Nat.add_1_r.
  - rewrite length_app. cbn. lia.
  - rewrite length_app. cbn. lia.
  - rewrite length_app, Nat.add_1_r. apply holds_snoc; try done; lia.
  - rewrite list_fmap_insert, fmap_app, length_app, Nat.add_1_r.
    rewrite <- (length_fmap recv_id rents) at 1 2. apply holds_snoc; rewrite ?length_fmap; try done; lia.
  - rewrite fmap_app. by apply holds_app.
  - apply Forall_app. split; [done|]. by constructor.
Qed.

Lemma rpoll_post RM Y rents q q' wqe :
  rpoll rcap RM Y rents q → rw_op_status wqe = 0 → post_recv_entry wqe q = Some q' →
  rpoll rcap RM (ravail Y (rents ++ [wqe]) q') (rents ++ [wqe]) q'
  ∧ qp_flags q' = qp_flags q ∧ qp_state q' = qp_state q.
Proof.
  intros [Hc Hl Hpo Hcm Hh Ho Hw Hst Hav] Hz H.
  destruct (post_recv_ok rcap Hrcap wqe q q' RM (length rents) H Hc Hpo Hcm) as [Hlt ->]; [lia|lia|].
  split; [|done]. unfold ravail. constructor; cbn; rewrite ?length_insert; try done.
  - by rewrite length_app, Nat.add_1_r.
  - rewrite list_fmap_insert, fmap_app, length_app, Nat.add_1_r.
    rewrite <- (length_fmap recv_id rents) at 1 2. apply holds_snoc; rewrite ?length_fmap; try done; lia.
  - rewrite length_app. cbn. destruct (recv_abort (qp_flags q)); lia.
  - rewrite length_app. cbn. lia.
  - apply Forall_app. split; [done|]. by constructor.
  - destruct (recv_abort (qp_flags q)); [done|]. destruct Hav as [Hco Hav]. split; [done|].
    rewrite fmap_app. by apply holds_app.
Qed.

(** Without an abort, polling receives only moves the index. *)
Lemma receiver_polled RM RM' RS CB VS Y rents sent cqes f q q' rs :
  receiver scap rcap RM RS CB VS rents sent cqes f (qp_recv q) rs →
  rpoll rcap RM' Y rents q' → (∃ i, qp_recv q' = rq_set_cmpl i (qp_recv q)) →
  recv_abort (qp_flags q') = false → Y = ns (take CB sent) → (RM ≤ RM')%nat →
  receiver scap rcap RM' RS CB VS rents sent cqes f (qp_recv q') rs.
Proof.
  intros [[Hc Hl Hcl Hpo Hpr Hcm Ho Hw Hn Hid Hcq Hst] Hrc Hc' Hco Hp Ho' Hw' Hs Hcl' Hm Hok Hpa]
    [Rc Rl Rpo Rcm Rh Ro Rw Rst Rav] [i Hi] Hab HY HRM.
  constructor; try done; [|by rewrite Hi].
  rewrite Hab in Rav. destruct Rav as [_ Rav]. rewrite HY in *.
  constructor; rewrite ?Hi in *; cbn in *; try done; lia.
Qed.

(** *** The steps *)

(** The counters of the invariant are in order. *)
Lemma qinv_order s sent rest cqes CM X CB VS RM Y RS VR :
  qinv s sent rest cqes CM X CB VS RM Y RS VR →
  length cqes = CB ∧ (CB ≤ VS ≤ length sent)%nat ∧ (ns sent ≤ VR ≤ RS)%nat
  ∧ (ns (take CB sent) ≤ ns sent)%nat
  ∧ (send_abort (qp_flags (a_q s)) = false → CM ≤ X ≤ CB)%nat.
Proof.
  intros H. pose proof (chan_bounds _ _ _ _ _ _ (qi_sends _ _ _ _ _ _ _ _ _ _ _ _ H)) as [Hs _].
  pose proof (chan_bounds _ _ _ _ _ _ (qi_recvs _ _ _ _ _ _ _ _ _ _ _ _ H)) as [Hr _].
  pose proof (Forall2_length (qi_match _ _ _ _ _ _ _ _ _ _ _ _ H)) as Hm.
  rewrite length_take in Hr. rewrite length_take in Hm. pose proof (qi_RS _ _ _ _ _ _ _ _ _ _ _ _ H).
  split; [lia|]. split; [done|]. split; [lia|]. split; [apply ns_prefix, prefix_take|].
  intros Ha. pose proof (chan_bounds _ _ _ _ _ _ (qi_cqes _ _ _ _ _ _ _ _ _ _ _ _ H Ha)) as [Hc _]. lia.
Qed.

Definition good (s : qchan) : Prop :=
  ∃ sent rest cqes CM X CB VS RM Y RS VR, qinv s sent rest cqes CM X CB VS RM Y RS VR.

Lemma good_post_send aq ap bq bp ws wc wr po re us fi sp rp wqe aq' :
  good (mk_qchan aq ap bq bp ws wc wr po re us fi sp rp) → known_op wqe →
  post_send_entry wqe aq = Some aq' →
  good (mk_qchan aq' ap bq bp ws wc wr (po ++ [wqe]) re us fi sp rp).
Proof.
  intros (sent & rest & cqes & CM & X & CB & VS & RM & Y & RS & VR & H) Hop Hp.
  destruct H as [Po Op Sp Spo Pr Kn Us Rc Rr Se Cq Ma Fi Rp Rpo St RSl Rcv]. cbn in *.
  destruct (spoll_post _ _ _ _ _ _ Sp Hp) as (Sp' & Hf & Hpr & Hme).
  assert (avail X ((sent ++ rest) ++ [wqe]) aq' = X ∨ send_abort (qp_flags aq) = true) as HX.
  { unfold avail. rewrite Hf. destruct (send_abort (qp_flags aq)); [by right|by left]. }
  exists sent, (rest ++ [wqe]), cqes, CM, (avail X ((sent ++ rest) ++ [wqe]) aq'), CB, VS, RM, Y, RS, VR.
  constructor; cbn; rewrite ?(assoc_L (++)), ?Hf, ?Hpr, ?Hme; try done.
  - apply Forall2_app; [done|apply same_refl].
  - apply Forall_app. split; [done|]. by constructor.
  - pose proof (sp_order _ _ _ _ _ Sp). by rewrite take_app_le by lia.
  - intros Ha. destruct HX as [->|]; [by apply Cq|congruence].
Qed.

Lemma good_send_work aq ap bq bp ws wc wr po re us fi sp rp ntc irq vec (w w' : qp_world W) resched aq' ap' evs :
  good (mk_qchan aq ap bq bp ws wc wr po re us fi sp rp) →
  ntrdma_qp_send_work ntc irq vec aq (Some ap) w = Some (resched, aq', Some ap', w', evs) →
  zw_unrecoverable (qw_zip w') = false →
  good (mk_qchan aq' ap' bq bp (ws ++ swire evs) wc wr po re (us ++ uses_of evs) fi sp rp).
Proof.
  intros (sent & rest & cqes & CM & X & CB & VS & RM & Y & RS & VR & H) Hw Hun.
  pose proof (qinv_order _ _ _ _ _ _ _ _ _ _ _ _ H) as (Hlc & HCB & Hns & Hnt & Hlow).
  destruct (send_abort (qp_flags aq)) eqn:Hab.
  { assert (aq' = aq ∧ ap' = ap ∧ evs = []) as (-> & -> & ->).
    { unfold ntrdma_qp_send_work in Hw. rewrite Hab in Hw. by destruct (r_empty _); injection Hw as _ <- <- _ <-. }
    rewrite !app_nil_r. by exists sent, rest, cqes, CM, X, CB, VS, RM, Y, RS, VR. }
  destruct H as [Po Op Sp Spo Pr Kn Us Rc Rr Se Cq Ma Fi Rp Rpo St RSl Rcv]. cbn in *. rewrite Hab in *.
  specialize (Hlow eq_refl). pose proof Sp as [SC SL SCL SPO SCM SH SO SW SAV]. rewrite Hab in SAV.
  destruct Rr as [Rr1 Rr2]. pose proof Rc as (_ & _ & _ & Hrw & _). rewrite length_take in Hrw.
  assert (sender scap rcap CM VR re us sent rest (qp_send aq) (rqp_recv ap)) as Hsd.
  { constructor; try done; try lia;
      try (by apply Pr); try (by apply Kn); try (by apply chan_bounds in Rc as [_ Rc]).
    intros i Hi. pose proof (chan_lookup rcap _ _ _ _ _ _ Rc Hi) as Hl. rewrite lookup_take_lt in Hl by lia. done. }
  destruct (send_work_ok scap rcap Hscap Hrcap _ _ _ _ _ _ _ _ _ _ _ _ _ _ _ _ _ Hw Hun Hsd) as
    (p' & new & rest' & [= <-] & Hf & Hfit & Hsd' & Hsw & Hfr & Hrw' & Hrs).
  destruct Hfr as (Fr1 & Fr2 & Fr3 & Fr4 & Fr5 & Fr6).
  assert (Forall2 same_wqe (sent ++ rest) ((sent ++ new) ++ rest')) as Hsame.
  { rewrite <- (assoc_L (++)). apply Forall2_app; [apply same_refl|done]. }
  pose proof Hsd' as [D1 D2 D3 D4 D5 D6 D7 D8 D9 D10 D11 D12 D13 D14 D15].
  assert (take CB (sent ++ new) = take CB sent) as Htk by (apply take_app_le; lia).
  pose proof (Forall2_length Hsame) as Hlen.
  exists (sent ++ new), rest', cqes, CM, X, CB, VS, RM, Y, RS, VR.
  constructor; cbn; rewrite ?Htk, ?Fr2, ?Hab; try done.
  - by eapply same_trans.
  - by eapply known_op_same.
  - constructor; rewrite ?Fr2, ?Fr4, ?Fr5, ?Fr6, ?Hab, <- ?Hlen; try done.
    { by rewrite D3, Hlen. } { by rewrite Hlen. }
    destruct SAV as [SAV1 SAV2]. split; [done|]. intros i e c Hi He Hc.
    destruct (Forall2_lookup_r _ _ _ _ _ Hsame He) as (e0 & He0 & Hs0).
    specialize (SAV2 i e0 c Hi He0 Hc). destruct SAV2 as (? & ? & ?), Hs0 as (? & ? & ?). repeat split; congruence.
  - eapply cqe_of_same; [|done]. by apply Forall2_take.
  - constructor; [done|lia|]. apply known_op_same in Hsame; [|done]. by apply Forall_app in Hsame as [? _].
  - unfold rr_mem. rewrite Hrw', D11. pose proof Rc as Rc'. apply chan_bounds in Rc' as [_ Rc'].
    unfold rr_mem in Rc, Rc'. cbn [snd] in Rc'. rewrite <- Rc'. eapply chan_consume; [done|].
    split; [apply ns_prefix; by exists new|lia].
  - rewrite Hsw. apply (chan_send_run scap sent CB VS _ ws new); [by unfold rs_mem in *; rewrite ?Hrs|done|].
    rewrite !length_app in *. lia.
  - unfold sq_mem in *. rewrite Fr4, Fr5. done.
  - intros Hra. destruct (Rcv Hra) as [HY Hr]. split; [done|]. by apply receiver_more.
Qed.

Lemma good_rqp_work aq ap bq bp ws wc wr po re us fi sp rp ntc irq vec bytes chan (w w' : qp_world W) bq' bp' evs :
  good (mk_qchan aq ap bq bp ws wc wr po re us fi sp rp) →
  ntrdma_rqp_send_work ntc irq vec bytes chan bp (Some bq) w = Some (bp', Some bq', w', evs) →
  zw_unrecoverable (qw_zip w') = false →
  good (mk_qchan aq ap bq' bp' ws (wc ++ cwire evs) wr po re us (fi ++ fills_of evs) sp rp).
Proof.
  intros (sent & rest & cqes & CM & X & CB & VS & RM & Y & RS & VR & H) Hw Hun.
  pose proof (qinv_order _ _ _ _ _ _ _ _ _ _ _ _ H) as (Hlc & HCB & Hns & Hnt & Hlow).
  destruct (is_state_recv_ready (qp_state bq)) eqn:Hst.
  2:{ assert (bp' = bp ∧ Some bq' = Some bq ∧ cwire evs = [] ∧ fills_of evs = []) as (-> & [= ->] & -> & ->).
      { destruct (rqp_send_work_idle scap rcap Hscap Hrcap _ _ _ _ _ _ _ _ _ _ _ _ Hw Hst) as (?&?&?&?&_). done. }
      rewrite !app_nil_r. by exists sent, rest, cqes, CM, X, CB, VS, RM, Y, RS, VR. }
  destruct H as [Po Op Sp Spo Pr Kn Us Rc Rr Se Cq Ma Fi Rp Rpo St RSl Rcv]. cbn in *.
  assert (recv_abort (qp_flags bq) = false) as Hra.
  { destruct (recv_abort (qp_flags bq)) eqn:E; [|done]. by rewrite St in Hst by by left. }
  destruct (Rcv Hra) as [HY Hr].
  destruct (rqp_send_work_ok scap rcap Hscap Hrcap _ _ _ _ _ _ _ _ _ _ _ _ _ _ _ _ _ _ _ _ Hw Hr Kn) as [_ Hok].
  destruct (Hok Hun) as (q' & new & [= <-] & Hfit & Hr' & Hcw & Hfr).
  destruct Hfr as (Fr1 & Fr2 & Fr3 & Fr4 & Fr5 & Fr6).
  assert (rs_prod (rqp_send bp') = nenc scap VS ∧ rs_prod (rqp_send bp) = nenc scap VS) as [Hp' Hp].
  { split; [apply Hr'|apply Hr]. }
  pose proof (rc_order _ _ _ _ _ _ _ _ _ _ _ _ Hr') as Ho'.
  exists sent, rest, (cqes ++ new), CM, X, (CB + length new)%nat, VS, RM, (ns (take (CB + length new) sent)), RS, VR.
  constructor; cbn; rewrite ?Fr2, ?Hra; try done.
  - unfold rs_mem in *. rewrite Fr5, Hp', <- Hp. eapply chan_consume; [done|lia].
  - intros Ha. specialize (Cq Ha). specialize (Hlow Ha). rewrite Hcw, <- Hlc.
    apply (chan_send_run scap cqes CM X _ wc new); [done|by rewrite Hlc|].
    pose proof (sp_win _ _ _ _ _ Sp). rewrite length_app in *. lia.
  - apply Hr'.
  - apply Hr'.
  - eapply receiver_rpoll; [done|]. by rewrite Fr2.
  - intros Hab. unfold stopped in St. rewrite Fr3. apply St. by rewrite <- Fr2.
Qed.

Lemma good_post_recv aq ap bq bp ws wc wr po re us fi sp rp wqe bq' :
  good (mk_qchan aq ap bq bp ws wc wr po re us fi sp rp) → rw_op_status wqe = 0 →
  post_recv_entry wqe bq = Some bq' →
  good (mk_qchan aq ap bq' bp ws wc wr po (re ++ [wqe]) us fi sp rp).
Proof.
  intros (sent & rest & cqes & CM & X & CB & VS & RM & Y & RS & VR & H) Hz Hp.
  destruct H as [Po Op Sp Spo Pr Kn Us Rc Rr Se Cq Ma Fi Rp Rpo St RSl Rcv]. cbn in *.
  destruct (rpoll_post _ _ _ _ _ _ Rp Hz Hp) as (Rp' & Hf & Hs).
  exists sent, rest, cqes, CM, X, CB, VS, RM, (ravail Y (re ++ [wqe]) bq'), RS, VR.
  constructor; cbn; try done.
  - by apply pairs_mono.
  - by rewrite take_app_le by lia.
  - by apply pairs_mono.
  - pose proof (rp_order _ _ _ _ _ Rp). by rewrite take_app_le by lia.
  - unfold stopped. by rewrite Hf, Hs.
  - rewrite length_app. lia.
  - rewrite Hf. intros Ha. unfold ravail. rewrite Hf, Ha. destruct (Rcv Ha) as [HY Hr]. split; [done|].
    by eapply receiver_post.
Qed.

Lemma good_recv_work aq ap bq bp ws wc wr po re us fi sp rp (w w' : qp_world W) bq' evs :
  good (mk_qchan aq ap bq bp ws wc wr po re us fi sp rp) →
  ntrdma_qp_recv_work bq w = Some (bq', w', evs) → zw_unrecoverable (qw_zip w') = false →
  good (mk_qchan aq ap bq' bp ws wc (wr ++ rwire evs) po re us fi sp rp).
Proof.
  intros (sent & rest & cqes & CM & X & CB & VS & RM & Y & RS & VR & H) Hw Hun.
  pose proof (qinv_order _ _ _ _ _ _ _ _ _ _ _ _ H) as (Hlc & HCB & Hns & Hnt & Hlow).
  destruct H as [Po Op Sp Spo Pr Kn Us Rc Rr Se Cq Ma Fi Rp Rpo St RSl Rcv]. cbn in *.
  destruct (is_state_recv_ready (qp_state bq)) eqn:Hst.
  2:{ unfold ntrdma_qp_recv_work in Hw. rewrite Hst in Hw. cbn [negb] in Hw. injection Hw as <- <- <-.
      rewrite app_nil_r. exists sent, rest, cqes, CM, X, CB, VS, RM, Y, RS, VR.
      constructor; cbn; try done; [by destruct Rp|by intros _]. }
  assert (recv_abort (qp_flags bq) = false) as Hra.
  { destruct (recv_abort (qp_flags bq)) eqn:E; [|done]. by rewrite St in Hst by by left. }
  destruct (Rcv Hra) as [HY Hr]. pose proof (rc_rq _ _ _ _ _ _ _ _ _ _ _ _ Hr) as Hq.
  pose proof (rv_order _ _ _ _ _ _ Hq) as Ho. pose proof (rv_win _ _ _ _ _ _ Hq) as Hwin.
  assert (Z.of_nat (length re) <= Z.of_nat (ns sent) + rcap) as Hlo by lia.
  destruct (recv_work_ok rcap Hrcap _ _ _ _ _ _ _ _ _ _ _ _ _ Hw Hst Hun Hq Hlo Rc) as
    (RS' & Hq' & Hle & Rc' & Fr).
  destruct Fr as (Fr1 & Fr2 & Fr3 & Fr4 & Fr5).
  assert (receiver scap rcap RM RS' CB VS re sent cqes fi (qp_recv bq') (rqp_send bp)) as Hr'.
  { destruct Hr. constructor; try done. by rewrite Fr5. }
  pose proof (rv_order _ _ _ _ _ _ Hq') as Ho'.
  exists sent, rest, cqes, CM, X, CB, VS, RM, (ns (take CB sent)), RS', VR.
  constructor; cbn; rewrite ?Fr2; try done.
  - destruct Kn. constructor; try done. lia.
  - eapply receiver_rpoll; [done|]. by rewrite Fr2.
  - intros Hab. unfold stopped in St. rewrite Fr3. apply St. by rewrite <- Fr2.
  - lia.
Qed.

Lemma good_send_arrives aq ap bq bp e ws wc wr po re us fi sp rp :
  good (mk_qchan aq ap bq bp (e :: ws) wc wr po re us fi sp rp) →
  good (mk_qchan aq ap bq (rqp_set_send (rs_set_mem (deliver e (rs_mem bp)) (rqp_send bp)) bp)
          ws wc wr po re us fi sp rp).
Proof.
  intros (sent & rest & cqes & CM & X & CB & VS & RM & Y & RS & VR & H).
  destruct H as [Po Op Sp Spo Pr Kn Us Rc Rr Se Cq Ma Fi Rp Rpo St RSl Rcv]. cbn in *.
  destruct (chan_deliver scap Hscap _ _ _ _ _ _ Se) as (VS' & Hle & Se').
  exists sent, rest, cqes, CM, X, CB, VS', RM, Y, RS, VR. constructor; cbn; try done.
  - intros Ha. destruct (Rcv Ha) as [HY Hr]. split; [done|]. by eapply receiver_mem.
Qed.

Lemma good_recv_arrives aq ap bq bp ws wc e wr po re us fi sp rp :
  good (mk_qchan aq ap bq bp ws wc (e :: wr) po re us fi sp rp) →
  good (mk_qchan aq (rqp_set_recv (rr_set_mem (deliver e (rr_mem ap)) (rqp_recv ap)) ap) bq bp
          ws wc wr po re us fi sp rp).
Proof.
  intros (sent & rest & cqes & CM & X & CB & VS & RM & Y & RS & VR & H).
  destruct H as [Po Op Sp Spo Pr Kn Us Rc Rr Se Cq Ma Fi Rp Rpo St RSl Rcv]. cbn in *.
  destruct (chan_deliver rcap Hrcap _ _ _ _ _ _ Rc) as (VR' & Hle & Rc').
  exists sent, rest, cqes, CM, X, CB, VS, RM, Y, RS, VR'. constructor; cbn; try done.
Qed.

(** The completions that the sender sees are those of its sends. *)
Lemma spoll_cqes s sent rest cqes CM X X' CB VS RM Y RS VR m w :
  qinv s sent rest cqes CM X CB VS RM Y RS VR → send_abort (qp_flags (a_q s)) = false →
  chan_ok scap cqes CM X' m w →
  spoll scap CM X' (sent ++ rest) (qp_set_send (sq_set_mem m (qp_send (a_q s))) (a_q s)).
Proof.
  intros H Ha Hch. pose proof (qinv_order _ _ _ _ _ _ _ _ _ _ _ _ H) as (Hlc & HCB & _).
  pose proof (chan_bounds _ _ _ _ _ _ Hch) as [Hb Hi].
  destruct (qi_sp _ _ _ _ _ _ _ _ _ _ _ _ H) as [SC SL SCL SPO SCM SH SO SW SAV].
  constructor; cbn; rewrite ?Ha; try done.
  - by destruct Hch.
  - rewrite length_app. lia.
  - split; [done|]. intros i e c Hi' He Hc.
    rewrite (chan_lookup scap _ _ _ _ _ _ Hch Hi') in Hc.
    rewrite lookup_app_l in He by lia.
    pose proof (qi_match _ _ _ _ _ _ _ _ _ _ _ _ H) as Hm.
    apply (Forall2_lookup_lr _ _ _ i e c Hm); [|done]. by rewrite lookup_take_lt by lia.
Qed.

Lemma good_cqe_arrives aq ap bq bp ws e wc wr po re us fi sp rp :
  good (mk_qchan aq ap bq bp ws (e :: wc) wr po re us fi sp rp) →
  good (mk_qchan (qp_set_send (sq_set_mem (deliver e (sq_mem aq)) (qp_send aq)) aq) ap bq bp
          ws wc wr po re us fi sp rp).
Proof.
  intros (sent & rest & cqes & CM & X & CB & VS & RM & Y & RS & VR & H).
  pose proof H as [Po Op Sp Spo Pr Kn Us Rc Rr Se Cq Ma Fi Rp Rpo St RSl Rcv]. cbn in *.
  assert (length (fst (deliver e (sq_mem aq))) = length (sq_cqes (qp_send aq))) as Hlen.
  { destruct e; cbn; [by rewrite length_inserts|done]. }
  destruct (send_abort (qp_flags aq)) eqn:Ha.
  - exists sent, rest, cqes, CM, X, CB, VS, RM, Y, RS, VR. constructor; cbn; rewrite ?Ha; try done.
    destruct Sp as [SC SL SCL SPO SCM SH SO SW SAV]. rewrite Ha in SAV.
    constructor; cbn; rewrite ?Ha, ?Hlen; done.
  - destruct (chan_deliver scap Hscap _ _ _ _ _ _ (Cq eq_refl)) as (X' & Hle & Cq').
    exists sent, rest, cqes, CM, X', CB, VS, RM, Y, RS, VR.
    pose proof (spoll_cqes _ _ _ _ _ _ _ _ _ _ _ _ _ _ _ H Ha Cq') as Sp'.
    constructor; cbn; rewrite ?Ha; try done.
Qed.

Lemma good_poll_send aq ap bq bp ws wc wr po re us fi sp rp k l aq' :
  good (mk_qchan aq ap bq bp ws wc wr po re us fi sp rp) → qp_poll_send k aq = Some (l, aq') →
  good (mk_qchan aq' ap bq bp ws wc wr po re us fi (sp ++ l) rp).
Proof.
  intros (sent & rest & cqes & CM & X & CB & VS & RM & Y & RS & VR & H) Hp.
  destruct H as [Po Op Sp Spo Pr Kn Us Rc Rr Se Cq Ma Fi Rp Rpo St RSl Rcv]. cbn in *.
  destruct (qp_poll_send_ok scap Hscap CM X (sent ++ rest) aq k Sp) as
    (l1 & q1 & q' & Hq & Hm & Sp' & Hf & _). rewrite Hp in Hq. injection Hq as <- <-.
  destruct Hf as (F1 & F2 & F3 & F4 & F5 & F6 & F7 & F8 & F9 & F10 & F11).
  exists sent, rest, cqes, (CM + length l)%nat, (avail X (sent ++ rest) aq'), CB, VS, RM, Y, RS, VR.
  constructor; cbn; try done.
  - rewrite <- take_take_drop. by apply Forall2_app.
  - intros Ha. destruct (F11 Ha) as [_ ->]. apply Pr.
    destruct (send_abort (qp_flags aq)); [by rewrite F5 in Ha|done].
  - intros Ha. destruct (F11 Ha) as [Hco _]. unfold sq_mem. rewrite F8, Hco.
    destruct (send_abort (qp_flags aq)) eqn:E; [by rewrite F5 in Ha|].
    pose proof (sp_order _ _ _ _ _ Sp') as Ho. unfold avail in *. rewrite Ha in *.
    eapply chan_consume; [by apply Cq|lia].
Qed.

Lemma good_poll_recv aq ap bq bp ws wc wr po re us fi sp rp ntc k out l bq' (w w' : qp_world W) :
  good (mk_qchan aq ap bq bp ws wc wr po re us fi sp rp) → qp_poll_recv ntc k out bq w = Some (l, bq', w') →
  good (mk_qchan aq ap bq' bp ws wc wr po re us fi sp (rp ++ l)).
Proof.
  intros (sent & rest & cqes & CM & X & CB & VS & RM & Y & RS & VR & H) Hp.
  destruct H as [Po Op Sp Spo Pr Kn Us Rc Rr Se Cq Ma Fi Rp Rpo St RSl Rcv]. cbn in *.
  destruct (qp_poll_recv_ok rcap Hrcap _ _ _ _ _ _ _ _ _ _ _ Hp Rp) as (Hh & Rp' & Hf).
  destruct Hf as (F1 & F2 & F3 & F4 & F5 & F6 & F7 & F8 & F9).
  exists sent, rest, cqes, CM, X, CB, VS, (RM + length l)%nat, (ravail Y re bq'), RS, VR.
  constructor; cbn; try done.
  - rewrite <- take_take_drop, !fmap_app. by rewrite Rpo, Hh.
  - unfold stopped in *. rewrite F2, F7. intros [Hab|Hab]; apply St; [by apply F8|by right].
  - intros Ha. assert (recv_abort (qp_flags bq) = false) as Hab.
    { destruct (recv_abort (qp_flags bq)); [by rewrite F6 in Ha|done]. }
    destruct (Rcv Hab) as [HY Hr].
    assert (ravail Y re bq' = ns (take CB sent)) as HY' by (unfold ravail; by rewrite Ha).
    split; [done|]. eapply receiver_polled; try done; [by apply F9|lia].
Qed.

Lemma good_env aq ap bq bp ws wc wr po re us fi sp rp aq' ap' bq' bp' :
  good (mk_qchan aq ap bq bp ws wc wr po re us fi sp rp) →
  sender_env aq aq' ap ap' → receiver_env bq bq' bp bp' →
  good (mk_qchan aq' ap' bq' bp' ws wc wr po re us fi sp rp).
Proof.
  intros (sent & rest & cqes & CM & X & CB & VS & RM & Y & RS & VR & H) (A1 & A2 & A3) (B1 & B2 & B3 & B4).
  destruct H as [Po Op Sp Spo Pr Kn Us Rc Rr Se Cq Ma Fi Rp Rpo St RSl Rcv]. cbn in *.
  exists sent, rest, cqes, CM, X, CB, VS, RM, Y, RS, VR.
  constructor; cbn; unfold rr_mem, rs_mem, sq_mem; rewrite ?A1, ?A2, ?A3, ?B1, ?B2, ?B4; try done.
  - destruct Sp. constructor; rewrite ?A1, ?A2; done.
  - destruct Rp. constructor; rewrite ?B1, ?B2; done.
Qed.

Lemma good_step s s' : qstep s s' → good s → good s'.
Proof.
  intros Hs Hg. destruct Hs.
  - by eapply good_post_send.
  - by eapply good_send_work.
  - by eapply good_rqp_work.
  - by eapply good_post_recv.
  - by eapply good_recv_work.
  - by apply good_send_arrives.
  - by apply good_cqe_arrives.
  - by apply good_recv_arrives.
  - by eapply good_poll_send.
  - by eapply good_poll_recv.
  - by eapply good_env.
Qed.

Lemma good_start s : qstart scap rcap s → good s.
Proof.
  intros (_ & _ & (C1&C2&C3&C4&C5&C6&C7) & Ha & (D1&D2&D3&D4) & (E1&E2&E3&E4&E5&E6&E7) & Hb & Hb' & (F1&F2&F3&F4&F5) & ->).
  cbn in *. exists [], [], [], 0%nat, 0%nat, 0%nat, 0%nat, 0%nat, 0%nat, 0%nat, 0%nat.
  assert (∀ cap, cap_ok cap → nenc cap 0 = 0) as H0.
  { intros cap Hc. unfold nenc, enc. apply Z.mod_0_l. rsolve. }
  assert (∀ {T} cap (buf : list T), holds cap buf [] 0 0) as Hh by (intros; split; [done|intros; lia]).
  assert (stopped (b_q s)) as Hst by (unfold stopped; rewrite Hb, Hb'; by intros []).
  constructor; cbn; rewrite ?Ha, ?Hb, ?H0 by done; try done; try (intros _);
    try (by apply chan_init); try (by constructor).
  - constructor; cbn; rewrite ?Ha, ?H0 by done; try done; try rsolve.
  - constructor; cbn; rewrite ?Hb, ?H0 by done; try done; rsolve.
  - split; [done|]. constructor; cbn; rewrite ?H0 by done; try done; try rsolve; try (intros; lia).
    constructor; cbn; rewrite ?H0 by done; try done; rsolve.
Qed.

Lemma good_reach s : qreach scap rcap s → good s.
Proof.
  intros (s0 & H0 & Hr). apply good_start in H0. induction Hr as [|x y z Hxy Hyz IH]; [done|].
  by apply IH, good_step with x.
Qed.

End Inv.
End Steps.

(** ** What the channel guarantees *)

Lemma filter_same l l' :
  Forall2 same_wqe l l' →
  sw_ulp_handle <$> filter (λ e, is_send e = true) l = sw_ulp_handle <$> filter (λ e, is_send e = true) l'.
Proof.
  induction 1 as [|e e' l l' (Hh & Ho & _) Hl IH]; [done|].
  assert (is_send e' = is_send e) as He by (unfold is_send; by rewrite Ho).
  rewrite !filter_cons, He. destruct (decide (is_send e = true)); [|done]. cbn. by rewrite Hh, IH.
Qed.

(** ** What the rest of the driver does to this direction *)

Section Env.
Context {W : Type} `{M : MemStore W} `{K : Kernel}.

(** The error paths: a stall in the states other than IB_QPS_SQE, a reset. *)
Lemma stall_is_env q p :
  qp_state q ≠ IB_QPS_SQE →
  sender_env q (ntrdma_qp_send_stall q) p p ∧ receiver_env q (ntrdma_qp_send_stall q) p p.
Proof.
  intros Hst. unfold ntrdma_qp_send_stall, sender_env, receiver_env, stopped.
  unfold is_state_send_ready, is_state_recv_ready.
  destruct (Z.eqb_spec (qp_state q) IB_QPS_RTR) as [_|H1]; [done|].
  destruct (Z.eqb_spec (qp_state q) IB_QPS_RTS) as [_|H2]; [done|]. cbn [orb negb].
  apply Z.eqb_neq in H1, H2, Hst.
  destruct (send_abort (qp_flags q)) eqn:E1, (recv_abort (qp_flags q)) eqn:E2; cbn;
    rewrite ?E1, ?E2, ?H1, ?H2, ?Hst; done.
Qed.

Lemma reset_is_env q p op :
  sender_env q (fst (ntrdma_qp_reset q op)) p p ∧ receiver_env q (fst (ntrdma_qp_reset q op)) p p.
Proof. done. Qed.

(** The other direction's work does not touch the sending half ... *)
Lemma recv_work_is_env q (w w' : qp_world W) q' evs p :
  ntrdma_qp_recv_work q w = Some (q', w', evs) → sender_env q q' p p.
Proof.
  assert (∀ fuel r q w evs rc q' w' evs', recv_work_loop (W := W) fuel r q w evs = Some (rc, (q', w', evs')) →
    qp_send q' = qp_send q ∧ qp_flags q' = qp_flags q) as Hloop.
  { induction fuel as [|fuel IH]; intros r q0 w0 evs0 rc q0' w0' evs0' H; [done|]. cbn [recv_work_loop] in H.
    destruct (qw_request _ _) as [rc1 w1]. destruct (rc1 <? 0); [by injection H as <- <- <- <-|].
    destruct (r_empty _); [by injection H as <- <- <- <-|]. apply IH in H as [-> ->]. done. }
  unfold ntrdma_qp_recv_work. intros H. destruct (negb _); [by injection H as <- <- <-|].
  destruct (r_empty _); [by injection H as <- <- <-|].
  destruct (recv_work_loop _ _ _ _ _) as [[rc [[q1 w1] evs1]]|] eqn:Hl; [|done].
  apply Hloop in Hl as [Hs Hf].
  destruct (if rc <? 0 then _ else _) as [[rc2 w2] evs2]. destruct (qw_request _ _) as [rc3 w3].
  injection H as <- <- <-. unfold sender_env. by rewrite Hs, Hf.
Qed.

Lemma rqp_work_is_env ntc irq vec bytes chan p q (w w' : qp_world W) p' q' evs :
  ntrdma_rqp_send_work ntc irq vec bytes chan p (Some q) w = Some (p', Some q', w', evs) → sender_env q q' p p'.
Proof.
  unfold ntrdma_rqp_send_work. intros H. destruct (negb _); [by injection H as <- <- <- <-|].
  destruct (r_empty _); [by injection H as <- <- <- <-|]. destruct (negb _); [by injection H as <- <- <- <-|].
  destruct (negb _); [by injection H as <- <- <- <-|].
  destruct (rqp_loop _ _ _ _ _ _) as [[s abort]|]; [|done].
  destruct abort; [by injection H as <- <- <- <-|].
  destruct (rqp_transfers _ _ _ _ _ _ _ _) as [[[rc w1] sev]|]; [|done]. by injection H as <- <- <- <-.
Qed.

(** ... nor the receiving half. *)
Lemma send_work_is_env ntc irq vec q p (w w' : qp_world W) resched q' p' evs :
  ntrdma_qp_send_work ntc irq vec q (Some p) w = Some (resched, q', Some p', w', evs) →
  stopped q → receiver_env q q' p p'.
Proof.
  unfold ntrdma_qp_send_work, receiver_env, stopped. intros H Hst.
  destruct (r_empty _); [by injection H as <- <- <- <- <-|].
  destruct (_ || _); [by injection H as <- <- <- <- <-|]. destruct (negb _); [by injection H as <- <- <- <- <-|].
  destruct (send_loop _ _ _ _) as [[[s abort] rs]|]; [|done].
  destruct abort; [by injection H as <- <- <- <- <-|]. destruct (sn_pos s =? _); [by injection H as <- <- <- <- <-|].
  destruct (send_transfers _ _ _ _ _ _ _) as [[[rc w1] evs1]|]; [|done]. by injection H as <- <- <- <- <-.
Qed.

End Env.

Section Theorems.
Context {W : Type} `{M : MemStore W} `{K : Kernel}.

(** C32. Sends and receives are matched the same way on both sides: in every
    state that two connected queue pairs reach, the receives that the sender
    has used (and into whose buffers it has put the data) are the posted
    receives in order, used by the posted sends in order; and the receives
    that the peer has completed are the first of those, each completed for the
    send that used it. *)
Theorem sends_and_receives_match scap rcap s :
  qreach (W := W) scap rcap s →
  h_fills s = take (length (h_fills s)) (h_uses s)
  ∧ snd <$> h_uses s = take (length (h_uses s)) (h_recvs s)
  ∧ sw_ulp_handle ∘ fst <$> h_uses s
    = take (length (h_uses s)) (sw_ulp_handle <$> filter (λ e, is_send e = true) (h_posted s)).
Proof.
  intros Hr. pose proof Hr as (s0 & (Hs & Hc & _) & _).
  destruct (good_reach scap rcap Hs Hc s Hr) as (sent & rest & cqes & CM & X & CB & VS & RM & Y & RS & VR & H).
  pose proof (qi_uses _ _ _ _ _ _ _ _ _ _ _ _ _ _ H) as Hu.
  pose proof (qi_fills _ _ _ _ _ _ _ _ _ _ _ _ _ _ H) as Hf.
  pose proof (pairs_length _ _ _ Hu) as Hl. destruct Hu as [Hu1 Hu2].
  split; [|split].
  - eapply pairs_prefix; [exact Hf|by split|apply prefix_take].
  - by rewrite Hl.
  - rewrite (filter_same _ _ (qi_posted _ _ _ _ _ _ _ _ _ _ _ _ _ _ H)).
    rewrite list.filter_app, fmap_app, list_fmap_compose, Hu1.
    rewrite take_app_le by (rewrite length_fmap, Hl; done). by rewrite take_ge by (rewrite length_fmap, Hl; done).
Qed.



End Theorems.

(** ** A run, used by the witnesses

    One receive and one send between two queue pairs with rings of four. *)

Definition demo_lb : ntc_local_buf := mk_local_buf 4096 true true 65536 65536.
Definition demo_rb : ntc_remote_buf := mk_remote_buf 4096 1048576 0.
Definition demo_send : ntrdma_send_wqe :=
  mk_send_wqe 7 IB_WR_SEND 0 0 (mk_sge 0 0 0) 0 IB_SEND_SIGNALED 0 [] [].
Definition demo_recv : ntrdma_recv_wqe := mk_recv_wqe 100 NTRDMA_WR_RECV 0 0 [].
Definition demo_cqe : ntrdma_cqe := mk_cqe 0 0 0 0 0 0.
Definition demo_bufs : qp_bufs := mk_qp_bufs 64 40 1 16 1 demo_lb demo_lb demo_rb 2048 0 demo_rb 2048.
Definition demo_qp : ntrdma_qp :=
  mk_qp 1 1 0 IB_QPS_RTS true (mk_flags false false false false false false)
    (mk_send_ring 4 0 0 0 (replicate 4 demo_send) (replicate 4 demo_cqe) 0)
    (mk_recv_ring 4 0 0 0 0 (replicate 4 demo_recv) (replicate 4 demo_cqe)) demo_bufs.
Definition demo_rqp : ntrdma_rqp :=
  mk_rqp 1 1 IB_QPS_RTS
    (mk_rqp_send 4 0 (replicate 4 demo_send) 0 (replicate 4 demo_cqe))
    (mk_rqp_recv 4 0 (replicate 4 demo_recv) 0 40)
    (mk_rqp_bufs demo_lb demo_rb 2048 0).
Definition demo_vb : ntrdma_dev_vbell :=
  mk_dev_vbell true 1 0 0 (mk_vbells [] ∅ []) [] [mk_peer 0 true] demo_rb 1.
Definition demo_irq : ntc_irq := mk_irq 1 demo_rb [0] [1].
Definition demo_world : qp_world list_store :=
  mk_qw ex_world demo_vb (mk_bw (mk_mm 0 0 0 ∅ (λ _, 0)) 0 0 0) 0.
Definition demo_chan : qchan :=
  mk_qchan demo_qp demo_rqp demo_qp demo_rqp [] [] [] [] [] [] [] [] [].

Lemma demo_start : qstart 4 4 demo_chan.
Proof. repeat split. Qed.

Lemma channel_run :
  ∃ s, rtc (qstep (W := list_store) (K := kernel_good)) demo_chan s
    ∧ sw_ulp_handle ∘ fst <$> h_uses s = [7] ∧ rw_ulp_handle ∘ snd <$> h_fills s = [100]
    ∧ cqe_ulp_handle <$> h_spolled s = [7] ∧ cqe_ulp_handle <$> h_rpolled s = [100].
Proof.
  eexists. split.
  - unfold demo_chan.
    eapply rtc_l; [eapply (step_post_recv) with (wqe := demo_recv); [reflexivity|vm_compute; reflexivity]|].
    eapply rtc_l; [eapply (step_recv_work) with (w := demo_world); vm_compute; reflexivity|].
    eapply rtc_l; [apply step_recv_arrives|].
    eapply rtc_l; [apply step_recv_arrives|].
    eapply rtc_l; [eapply (step_post_send) with (wqe := demo_send); [reflexivity|vm_compute; reflexivity]|].
    eapply rtc_l; [eapply (step_send_work) with (ntc := ex_ntc) (irq := demo_irq) (vec := 0) (w := demo_world); vm_compute; reflexivity|].
    eapply rtc_l; [apply step_send_arrives|].
    eapply rtc_l; [apply step_send_arrives|].
    eapply rtc_l; [eapply (step_rqp_work) with (ntc := ex_ntc) (irq := demo_irq) (vec := 0)
      (bytes := λ _ _, []) (chan := true) (w := demo_world); vm_compute; reflexivity|].
    eapply rtc_l; [apply step_cqe_arrives|].
    eapply rtc_l; [apply step_cqe_arrives|].
    eapply rtc_l; [eapply (step_poll_send) with (k := 4%nat); vm_compute; reflexivity|].
    eapply rtc_l; [eapply (step_poll_recv) with (ntc := ex_ntc) (k := 4%nat) (out := demo_cqe) (w := demo_world);
      vm_compute; reflexivity|].
    apply rtc_refl.
  - vm_compute. done.
Qed.

Lemma demo_reach :
  ∃ s, qreach (W := list_store) (K := kernel_good) 4 4 s
    ∧ sw_ulp_handle ∘ fst <$> h_uses s = [7] ∧ rw_ulp_handle ∘ snd <$> h_fills s = [100]
    ∧ cqe_ulp_handle <$> h_spolled s = [7] ∧ cqe_ulp_handle <$> h_rpolled s = [100].
Proof.
  destruct channel_run as (s & Hr & H). exists s. split; [|exact H]. exists demo_chan. split; [apply demo_start|exact Hr].
Qed.

Lemma sends_and_receives_match_witness :
  ∃ s, qreach (W := list_store) (K := kernel_good) 4 4 s
    ∧ sw_ulp_handle ∘ fst <$> h_uses s = [7] ∧ h_fills s = take (length (h_fills s)) (h_uses s).
Proof.
  destruct demo_reach as (s & Hr & Hu & _). exists s. split; [exact Hr|]. split; [exact Hu|].
  exact (proj1 (sends_and_receives_match 4 4 s Hr)).
Defined.



End QpChan.
