(* ===== verification/QpType.v ===== *)
(** * The type of a queue pair

    What the rings of a queue pair and of the image of the peer's are made of:
    arrays of the capacity and indices that encode counters in order.  Every
    operation keeps it whatever the outcome of the transfers, the errors that
    are unrecoverable included, as long as the indices the peer writes are
    indices of its ring; so no operation reads or copies outside the arrays. *)

From stdpp Require Import gmap.
From S2P Require Import Prelude Kernel Ring Wire Ntc Wr Mem Zip Vbell Mm Buf Qp QpRun QpPoll QpChan.
Import Ring Wire Ntc Wr Mem Zip Vbell Mm Buf Qp QpRun QpPoll QpChan.

Module QpType.

(** ** The types *)

(** [C] completions polled, [X] received, [S] entries produced, [P] posted. *)
Definition send_ring_ok (s : send_ring) : Prop :=
  cap_ok (sq_cap s) ∧ Z.of_nat (length (sq_wqes s)) = sq_cap s ∧ Z.of_nat (length (sq_cqes s)) = sq_cap s
  ∧ ∃ C X S P, (C ≤ X ≤ S)%nat ∧ (S ≤ P)%nat ∧ Z.of_nat P <= Z.of_nat C + sq_cap s
    ∧ sq_cmpl s = nenc (sq_cap s) C ∧ sq_cons s = nenc (sq_cap s) X
    ∧ sq_prod s = nenc (sq_cap s) S ∧ sq_post s = nenc (sq_cap s) P.

Definition recv_ring_ok (r : recv_ring) : Prop :=
  cap_ok (rq_cap r) ∧ Z.of_nat (length (rq_wqes r)) = rq_cap r ∧ Z.of_nat (length (rq_cqes r)) = rq_cap r
  ∧ ∃ C X S P, (C ≤ X ≤ S)%nat ∧ (S ≤ P)%nat ∧ Z.of_nat P <= Z.of_nat C + rq_cap r
    ∧ rq_cmpl r = nenc (rq_cap r) C ∧ rq_cons r = nenc (rq_cap r) X
    ∧ rq_prod r = nenc (rq_cap r) S ∧ rq_post r = nenc (rq_cap r) P.

Definition image_ok {A} (cap prod cons : Z) (l : list A) : Prop :=
  cap_ok cap ∧ Z.of_nat (length l) = cap
  ∧ ∃ C V, (C ≤ V)%nat ∧ Z.of_nat V <= Z.of_nat C + cap ∧ cons = nenc cap C ∧ prod = nenc cap V.

Definition qp_ok (q : ntrdma_qp) : Prop := send_ring_ok (qp_send q) ∧ recv_ring_ok (qp_recv q).

Definition rqp_ok (p : ntrdma_rqp) : Prop :=
  image_ok (rs_cap (rqp_send p)) (rs_prod (rqp_send p)) (rs_cons (rqp_send p)) (rs_wqes (rqp_send p))
  ∧ Z.of_nat (length (rs_cqes (rqp_send p))) = rs_cap (rqp_send p)
  ∧ image_ok (rr_cap (rqp_recv p)) (rr_prod (rqp_recv p)) (rr_cons (rqp_recv p)) (rr_wqes (rqp_recv p)).

(** The copies that a run asks for, of rings with these capacities. *)
Definition copies_ok (scap rcap ccap : Z) (evs : list qp_event) : Prop :=
  Forall (λ ev, match ev with
                | EvWqes i l => 0 <= i ∧ i + Z.of_nat (length l) <= scap
                | EvRecvWqes i l => 0 <= i ∧ i + Z.of_nat (length l) <= rcap
                | EvCqes i l => 0 <= i ∧ i + Z.of_nat (length l) <= ccap
                | EvSendProd i => 0 <= i < 2 * scap
                | EvRecvProd i => 0 <= i < 2 * rcap
                | EvSendCons i => 0 <= i < 2 * ccap
                | _ => True
                end) evs.

(** A range from which entry [n] is next: that of [n], or the one of entry
    [n - 1] moved by one. *)
Definition next_at (cap : Z) (V n : nat) (r : range) : Prop :=
  r = cur cap V n ∨ ∃ k, n = S k ∧ (k < V)%nat
    ∧ r = mk_range (nslot cap k + 1) (r_end (cur cap V k)) (r_base (cur cap V k)).

Lemma next_at_put cap V n r :
  cap_ok cap → next_at cap V n r → ntrdma_ring_update (r_idx r) (r_base r) cap = nenc cap n.
Proof.
  intros Hc [->|(k & -> & Hk & ->)]; [by apply cur_put|].
  pose proof (cur_next cap Hc V k Hk) as Hn. cbv zeta in Hn.
  destruct (r_idx _ =? r_end _); [done|]. rewrite Hn. by apply cur_put.
Qed.

Section Types.
Context {W : Type} `{M : MemStore W} `{K : Kernel}.

(** ** Producing sends *)

(** The image of the receives in a run: [C] were consumed before it. *)
Definition rr_view (cap : Z) (C V n : nat) (rr : rqp_recv_ring) (r : range) : Prop :=
  rr_cap rr = cap ∧ rr_prod rr = nenc cap V ∧ Z.of_nat (length (rr_wqes rr)) = cap
  ∧ (C ≤ n ≤ V)%nat ∧ next_at cap V n r.

Lemma send_take_recv_type cap C V n e rr r e' rr' r' res :
  cap_ok cap → Z.of_nat V <= Z.of_nat C + cap → rr_view cap C V n rr r → r = cur cap V n →
  send_take_recv e rr r = Some (e', rr', r', res) →
  ∃ n', rr_view cap C V n' rr' r' ∧ (∀ recv, res = inl recv → r' = cur cap V n').
Proof.
  intros Hc HV (H1 & H2 & H3 & Hn & _) -> H. unfold send_take_recv in H.
  rewrite cur_empty in H by (done || lia). destruct (Nat.eqb_spec V n).
  { injection H as _ <- <- <-. exists n. split; [|done]. repeat (split; [done|]). by left. }
  destruct (rr_wqes rr !! _) as [recv|]; [|done].
  assert (next_at cap V (S n) (mk_range (r_idx (cur cap V n) + 1) (r_end (cur cap V n)) (r_base (cur cap V n))))
    as Hnx by (right; exists n; split; [done|]; split; [lia|done]).
  pose proof (next_at_put _ _ _ _ Hc Hnx) as Hput. pose proof (cur_next cap Hc V n ltac:(lia)) as Hcn.
  cbv zeta in Hcn. destruct (negb _).
  { injection H as _ <- <- <-. exists (S n). split; [|done]. repeat (split; [done || lia|]). done. }
  cbn [r_idx r_end r_base cur] in *. destruct (_ =? _).
  - injection H as _ <- <- <-. exists (S n).
    assert (ntrdma_rqp_recv_cons_get (ntrdma_rqp_recv_cons_put (nslot cap n + 1) (nenc cap n - nslot cap n) rr)
      = cur cap V (S n)) as Hg.
    { unfold ntrdma_rqp_recv_cons_get, ntrdma_rqp_recv_cons_put. cbn. rewrite H1, H2, Hput. apply cur_get; [done|lia|lia]. }
    split; [|done]. repeat (split; [done || (cbn; lia)|]). by left.
  - injection H as _ <- <- <-. exists (S n). rewrite Hcn. split; [|done].
    repeat (split; [done || lia|]). by left.
Qed.

(** What the loop of sends keeps; [fresh] at the start of an iteration. *)
Definition send_run_ok (scap cap : Z) (C V : nat) (fresh : bool) (s : @send_run W) : Prop :=
  Z.of_nat (length (sn_wqes s)) = scap ∧ copies_ok scap 0 0 (sn_evs s)
  ∧ ∃ n, rr_view cap C V n (sn_rr s) (sn_recv s) ∧ (fresh = true → sn_recv s = cur cap V n).

Lemma copies_ok_app a b c l l' : copies_ok a b c l → copies_ok a b c l' → copies_ok a b c (l ++ l').
Proof. intros. by apply Forall_app. Qed.

Ltac copies_solve := cbn [app]; unfold copies_ok in *; rewrite ?list.Forall_app, ?list.Forall_cons in *; cbn beta iota in *; tauto.

Lemma send_store_type (s : @send_run W) e rr r z evs scap cap C V n fresh :
  Z.of_nat (length (sn_wqes s)) = scap → copies_ok scap 0 0 (sn_evs s) → copies_ok scap 0 0 evs →
  rr_view cap C V n rr r → (fresh = true → r = cur cap V n) →
  send_run_ok scap cap C V fresh (send_store s e rr r z evs).
Proof.
  intros Hl Hev He Hv Hf. split; [by cbn; rewrite length_insert|]. split; [by apply copies_ok_app|by exists n].
Qed.

Lemma send_move_type ntc end_ (s s' : @send_run W) nx e rr r recv scap cap C V n :
  send_move ntc end_ s e rr r recv = Some (s', nx) → Z.of_nat (length (sn_wqes s)) = scap →
  copies_ok scap 0 0 (sn_evs s) → rr_view cap C V n rr r → r = cur cap V n →
  send_run_ok scap cap C V true s' ∧ sn_pos s' = sn_pos s + 1 ∧ (nx = SendNext → sn_pos s' ≠ end_).
Proof.
  intros H Hl Hev Hv Hr. unfold send_move in H.
  assert (∀ e2, copies_ok scap 0 0 (match recv with Some recv => [EvUse e2 recv] | None => [] end)) as Hu.
  { intros e2. destruct recv; by repeat constructor. }
  destruct (negb _).
  { injection H as <- <-. split; [|done]. eapply send_store_type; try done. by constructor. }
  destruct (send_push _ _ _ _ _) as [[[rc e2] z]|]; [|done].
  destruct (negb (rc =? 0)); [destruct (rc =? - EAGAIN)|]; injection H as <- <-.
  - split; [|done]. by eapply send_store_type.
  - split; [|done]. eapply send_store_type; try done. by constructor.
  - split; [by eapply send_store_type|]. split; [done|]. cbn [sn_pos send_store].
    intros Hn. destruct (Z.eqb_spec (sn_pos s + 1) end_); [done|lia].
Qed.

Lemma send_iter_type ntc end_ (s s' : @send_run W) nx scap cap C V :
  cap_ok cap → Z.of_nat V <= Z.of_nat C + cap →
  send_iter ntc end_ s = Some (s', nx) → send_run_ok scap cap C V true s →
  send_run_ok scap cap C V false s' ∧ sn_pos s' = sn_pos s + 1
  ∧ (nx = SendNext → sn_pos s' ≠ end_ ∧ send_run_ok scap cap C V true s').
Proof.
  intros Hc HV H (Hl & Hev & n & Hv & Hr). specialize (Hr eq_refl). unfold send_iter in H.
  assert (send_run_ok scap cap C V true s' → send_run_ok scap cap C V false s') as Hweak.
  { intros (? & ? & m & ? & _). split; [done|]. split; [done|]. by exists m. }
  destruct (sn_wqes s !! _) as [e|]; [|done].
  destruct (ntrdma_wr_code_is_send _).
  - destruct (send_take_recv _ _ _) as [[[[e1 rr] r] res]|] eqn:Ht; [|done].
    destruct (send_take_recv_type _ _ _ _ _ _ _ _ _ _ _ Hc HV Hv Hr Ht) as (n' & Hv' & Hcur).
    destruct res as [recv|st].
    + destruct (send_move_type _ _ _ _ _ _ _ _ _ _ _ _ _ n' H Hl Hev Hv' (Hcur _ eq_refl)) as (H1 & H2 & H3).
      split; [by apply Hweak|]. split; [done|]. intros Hn. by split; [apply H3|].
    + injection H as <- <-. split; [|done]. eapply send_store_type; try done. by constructor.
  - destruct (send_move_type _ _ _ _ _ _ _ _ _ _ _ _ _ n H Hl Hev Hv Hr) as (H1 & H2 & H3).
    split; [by apply Hweak|]. split; [done|]. intros Hn. by split; [apply H3|].
Qed.

Lemma send_loop_type ntc end_ scap cap C V k : ∀ (s s' : @send_run W) abort resched,
  cap_ok cap → Z.of_nat V <= Z.of_nat C + cap →
  send_loop k ntc end_ s = Some (s', abort, resched) → k = Z.to_nat (end_ - sn_pos s) →
  send_run_ok scap cap C V true s →
  send_run_ok scap cap C V false s' ∧ sn_pos s < sn_pos s' ∧ sn_pos s' <= sn_pos s + Z.of_nat k.
Proof.
  induction k as [|k IH]; intros s s' abort resched Hc HV H Hk Hs; [done|]. cbn [send_loop] in H.
  destruct (send_iter ntc end_ s) as [[s1 nx]|] eqn:Hi; [|done].
  destruct (send_iter_type _ _ _ _ _ _ _ _ _ Hc HV Hi Hs) as (Hs1 & Hp & Hnx).
  destruct nx as [|a b].
  - destruct (Hnx eq_refl) as [Hne Hs1']. destruct (IH s1 s' abort resched Hc HV H ltac:(lia) Hs1') as (?&?&?).
    split; [done|]. lia.
  - injection H as <- _ _. split; [done|]. lia.
Qed.

Lemma send_transfers_type irq vec scap a b start pos bf s (w w' : qp_world W) rc evs :
  send_transfers irq vec start pos bf s w = Some (rc, w', evs) →
  0 <= start <= pos → pos <= Z.of_nat (length (sq_wqes s)) → Z.of_nat (length (sq_wqes s)) = scap →
  0 <= sq_prod s < 2 * scap → copies_ok scap a b evs.
Proof.
  intros H Hs Hp Hl Hi. unfold send_transfers, qw_request in H.
  assert (copies_ok scap a b [EvWqes start (slots start pos (sq_wqes s))]) as H1.
  { constructor; [|constructor]. unfold slots. rewrite length_take, length_drop. lia. }
  assert (copies_ok scap a b [EvSendProd (sq_prod s)]) as H2 by (constructor; [done|constructor]).
  assert (∀ i, copies_ok scap a b [EvPeerVbell i]) as H3 by (intros; by repeat constructor).
  assert (copies_ok scap a b [EvSignal]) as H4 by by repeat constructor.
  assert (copies_ok scap a b []) as H0 by constructor.
  destruct (ntc_request_memcpy_fenced _ _ _ _ _ _ _) as [rc1 io1].
  destruct (_ && _); [by injection H as _ _ <-|].
  destruct (ntc_request_imm32 _ _ _ _ _) as [rc2 io2].
  destruct (rc2 <? 0); [injection H as _ _ <-; by destruct (rc1 <? 0)|].
  destruct (ntrdma_dev_vbell_peer _ _ _) as [[[rc3 vb] io3]|]; [|done].
  destruct (rc3 <? 0); [injection H as _ _ <-; destruct (rc1 <? 0); copies_solve|].
  destruct (ntc_req_signal _ _ _) as [[rc4 io4]|]; [|done].
  injection H as _ _ <-. destruct (rc1 <? 0), (rc4 <? 0); copies_solve.
Qed.

(** Producing sends, whatever the outcome. *)
Lemma send_work_type ntc irq vec q op (w w' : qp_world W) resched q' op' evs :
  ntrdma_qp_send_work ntc irq vec q op w = Some (resched, q', op', w', evs) →
  qp_ok q → (∀ p, op = Some p → rqp_ok p) →
  qp_ok q' ∧ (∀ p, op' = Some p → rqp_ok p) ∧ copies_ok (sq_cap (qp_send q)) 0 0 evs.
Proof.
  intros H Hq Hp. unfold ntrdma_qp_send_work in H.
  pose proof Hq as ((Hc & Hl & Hcl & C & X & S & P & HX & HS & HP & E1 & E2 & E3 & E4) & Hr).
  assert (copies_ok (sq_cap (qp_send q)) 0 0 []) as H0 by constructor.
  unfold ntrdma_qp_send_prod_get in H. rewrite E3, E4, cur_get in H by (done || lia).
  set (r := cur _ P S) in *. unfold r_empty in H.
  destruct (Z.eqb_spec (r_idx r) (r_end r)) as [|Hne]; [by injection H as _ <- <- _ <-|].
  destruct (_ || _); [by injection H as _ <- <- _ <-|].
  destruct op as [p|]; [|by injection H as _ <- <- _ <-].
  destruct (negb _); [by injection H as _ <- <- _ <-|].
  destruct (Hp p eq_refl) as (Hrs & Hrcl & Hrc & Hrl & C' & V' & HC' & HV' & F1 & F2).
  destruct (send_loop _ _ _ _) as [[[s abort] rs]|] eqn:Hloop; [|done].
  pose proof (nslot_range _ Hc S) as Hsl.
  assert (r_idx r = nslot (sq_cap (qp_send q)) S ∧ r_end r <= sq_cap (qp_send q) ∧ r_idx r <= r_end r
    ∧ r_end r - r_idx r <= Z.of_nat P - Z.of_nat S) as (Hi & He & Hie & Hies) by (subst r; cbn; lia).
  destruct (send_loop_type ntc (r_end r) (sq_cap (qp_send q)) _ C' V' _ _ _ _ _ Hrc HV' Hloop eq_refl) as (Hs & Hlt & Hle).
  { split; [done|]. split; [done|]. exists C'. cbn.
    unfold ntrdma_rqp_recv_cons_get. rewrite F1, F2, cur_get by (done || lia).
    split; [|done]. repeat (split; [done || lia|]). by left. }
  cbn [sn_pos] in Hlt, Hle. destruct Hs as (Hwl & Hev & n & (G1 & G2 & G3 & G4 & G5) & _).
  set (q1 := qp_set_send _ _) in H.
  set (p1 := rqp_set_recv _ _) in H.
  assert (rqp_ok p1) as Hp1.
  { split; [done|]. split; [done|]. subst p1. cbn. rewrite G1, G2. split; [done|]. split; [done|].
    exists n, V'. split; [lia|]. split; [lia|]. split; [by rewrite (next_at_put _ _ _ _ Hrc G5)|done]. }
  set (m := Z.to_nat (sn_pos s - r_idx r)).
  assert (sq_prod (qp_send q1) = nenc (sq_cap (qp_send q)) (S + m)) as Hpr.
  { subst q1. cbn. rewrite <- moved_index by (done || lia). f_equal. lia. }
  assert (qp_ok q1) as Hq1.
  { split; [|done]. split; [done|]. split; [done|]. split; [done|].
    exists C, X, (S + m)%nat, P. split_and!; try done; lia. }
  assert (∀ evs, copies_ok (sq_cap (qp_send q)) 0 0 evs →
    qp_ok q1 ∧ (∀ p, Some p1 = Some p → rqp_ok p) ∧ copies_ok (sq_cap (qp_send q)) 0 0 evs) as Hdone.
  { intros ev Hv. split; [done|]. split; [by intros ? [= <-]|done]. }
  destruct abort; [injection H as _ <- <- _ <-; by apply Hdone|].
  destruct (sn_pos s =? r_idx r); [injection H as _ <- <- _ <-; by apply Hdone|].
  destruct (send_transfers _ _ _ _ _ _ _) as [[[rc w1] sev]|] eqn:Htr; [|done].
  injection H as _ <- <- _ <-. apply Hdone, copies_ok_app; [done|].
  eapply send_transfers_type; [exact Htr|lia|cbn; lia|done|].
  change (sq_prod _) with (sq_prod (qp_send q1)). rewrite Hpr. by apply nenc_range.
Qed.

(** ** Consuming sends *)

(** The ring of receives in a run: its entries and [rq_cons] may change. *)
Definition rq_like (rq0 rq : recv_ring) : Prop :=
  rq_cap rq = rq_cap rq0 ∧ rq_post rq = rq_post rq0 ∧ rq_prod rq = rq_prod rq0 ∧ rq_cmpl rq = rq_cmpl rq0
  ∧ length (rq_wqes rq) = length (rq_wqes rq0) ∧ length (rq_cqes rq) = length (rq_cqes rq0).

Lemma rq_like_store rq0 rq i o : rq_like rq0 rq → rq_like rq0 (rq_store i o rq).
Proof.
  intros (?&?&?&?&?&?). destruct o as [[c r]|]; [|done]. split_and!; try done; cbn; by rewrite length_insert.
Qed.

Lemma rq_like_cons rq0 rq i : rq_like rq0 rq → rq_like rq0 (rq_set_cons i rq).
Proof. done. Qed.

Definition rqp_run_ok (rq0 : recv_ring) (ccap : Z) (X S : nat) (fresh : bool) (s : @rqp_run W) : Prop :=
  Z.of_nat (length (cn_cqes s)) = ccap ∧ copies_ok 0 0 ccap (cn_evs s) ∧ rq_like rq0 (cn_rq s)
  ∧ ∃ n, (X ≤ n ≤ S)%nat ∧ next_at (rq_cap rq0) S n (cn_recv s)
         ∧ (fresh = true → cn_recv s = cur (rq_cap rq0) S n).

Lemma rqp_after_type rq0 ccap X S fresh (s : @rqp_run W) e c r rq w b evs n :
  rqp_run_ok rq0 ccap X S true s → copies_ok 0 0 ccap evs → rq_like rq0 rq →
  (X ≤ n ≤ S)%nat → next_at (rq_cap rq0) S n r → (fresh = true → r = cur (rq_cap rq0) S n) →
  rqp_run_ok rq0 ccap X S fresh (rqp_state_after s e c r rq w b evs).
Proof.
  intros (Hl & He & _ & _) Hev Hrq Hn Hr Hf.
  split; [by cbn; rewrite length_insert|]. split; [by apply copies_ok_app|]. split; [done|]. by exists n.
Qed.

Lemma rqp_reject_type rq0 ccap X S ntc e r st recv (s s' : @rqp_run W) nx n :
  rqp_reject ntc e r st recv s = Some (s', nx) → rqp_run_ok rq0 ccap X S true s →
  (X ≤ n ≤ S)%nat → next_at (rq_cap rq0) S n r →
  rqp_run_ok rq0 ccap X S false s' ∧ cn_pos s' = cn_pos s + 1 ∧ nx = RqpAbort.
Proof.
  unfold rqp_reject. intros H Hs Hn Hr. pose proof Hs as (_ & _ & Hrq & _).
  destruct recv as [[old rw]|].
  - destruct (ntrdma_recv_fail _ _ _ _ _) as [[[c rw'] w]|]; [|done]. injection H as <- <-.
    pose proof (rq_like_store rq0 _ (r_idx (cn_recv s)) (Some (c, rw')) Hrq) as Hrq'.
    split; [|done]. eapply rqp_after_type; try done. by constructor.
  - injection H as <- <-. split; [|done]. eapply rqp_after_type; try done. by constructor.
Qed.

Lemma rqp_complete_type rq0 ccap X S ntc bytes end_ e oldc r recv (s s' : @rqp_run W) nx n :
  cap_ok (rq_cap rq0) → rq_prod rq0 = nenc (rq_cap rq0) S → Z.of_nat S <= Z.of_nat X + rq_cap rq0 →
  rqp_complete ntc bytes end_ e oldc r recv s = Some (s', nx) → rqp_run_ok rq0 ccap X S true s →
  (X ≤ n ≤ S)%nat → next_at (rq_cap rq0) S n r →
  rqp_run_ok rq0 ccap X S true s' ∧ cn_pos s' = cn_pos s + 1 ∧ (nx = RqpNext → cn_pos s' ≠ end_).
Proof.
  unfold rqp_complete. intros Hc HS HX H Hs Hn Hr. pose proof Hs as (_ & _ & Hrq & _).
  match type of H with match ?x with _ => _ end = _ => destruct x as [[[o w] c]|]; [|done] end.
  set (rq1 := rq_store (r_idx (cn_recv s)) o (cn_rq s)) in *.
  assert (rq_like rq0 rq1) as Hrq1 by by apply rq_like_store.
  destruct (if r_idx r =? r_end r then _ else _) as [rq2 r2] eqn:E.
  assert (rq_like rq0 rq2 ∧ r2 = cur (rq_cap rq0) S n) as [Hrq2 Hr2].
  { pose proof (next_at_put _ _ _ _ Hc Hr) as Hput. destruct Hrq1 as (K1 & K2 & K3 & K4 & K5 & K6).
    destruct (r_idx r =? r_end r) eqn:Hee; injection E as <- <-.
    - split; [done|]. unfold ntrdma_qp_recv_cons_get, ntrdma_qp_recv_cons_put.
      cbn [rq_cap rq_prod rq_cons rq_set_cons]. rewrite K1, K3, Hput, HS. apply cur_get; [done|lia|lia].
    - split; [done|]. destruct Hr as [->|(k & -> & Hk & ->)]; [done|].
      pose proof (cur_next _ Hc S k Hk) as Hcn. cbv zeta in Hcn. by rewrite Hee in Hcn. }
  injection H as <- <-. split; [|split; [done|]].
  - assert (next_at (rq_cap rq0) S n r2) by by left. eapply rqp_after_type; try done.
    destruct recv as [[??]|], (cn_pos s + 1 =? end_); repeat constructor.
  - intros Hnx. cbn [cn_pos rqp_state_after]. destruct (Z.eqb_spec (cn_pos s + 1) end_); [done|lia].
Qed.

Lemma rqp_iter_type rq0 ccap X S ntc bytes wqes end_ (s s' : @rqp_run W) nx :
  cap_ok (rq_cap rq0) → rq_prod rq0 = nenc (rq_cap rq0) S → Z.of_nat S <= Z.of_nat X + rq_cap rq0 →
  rqp_iter ntc bytes wqes end_ s = Some (s', nx) → rqp_run_ok rq0 ccap X S true s →
  rqp_run_ok rq0 ccap X S false s' ∧ cn_pos s' = cn_pos s + 1
  ∧ (nx = RqpNext → cn_pos s' ≠ end_ ∧ rqp_run_ok rq0 ccap X S true s').
Proof.
  intros Hc HS HX H Hs. pose proof Hs as (Hl & He & Hrq & n & Hn & Hnx & Hf). specialize (Hf eq_refl).
  assert (rqp_run_ok rq0 ccap X S true s' → rqp_run_ok rq0 ccap X S false s') as Hweak.
  { intros (? & ? & ? & m & ? & ? & _). split; [done|]. split; [done|]. split; [done|]. by exists m. }
  unfold rqp_iter in H.
  destruct (wqes !! _) as [e|]; [|done]. destruct (cn_cqes s !! _) as [oldc|]; [|done].
  unfold rqp_take_recv in H.
  assert (∀ r recv n', (X ≤ n' ≤ S)%nat → next_at (rq_cap rq0) S n' r →
    rqp_complete ntc bytes end_ e oldc r recv s = Some (s', nx) →
    rqp_run_ok rq0 ccap X S false s' ∧ cn_pos s' = cn_pos s + 1
    ∧ (nx = RqpNext → cn_pos s' ≠ end_ ∧ rqp_run_ok rq0 ccap X S true s')) as Hcomp.
  { intros r recv n' Hn' Hr HC. destruct (rqp_complete_type _ _ _ _ _ _ _ _ _ _ _ _ _ _ n' Hc HS HX HC Hs Hn' Hr)
      as (?&?&?). split; [by apply Hweak|]. split; [done|]. auto. }
  assert (∀ r recv n' st, (X ≤ n' ≤ S)%nat → next_at (rq_cap rq0) S n' r →
    rqp_reject ntc e r st recv s = Some (s', nx) →
    rqp_run_ok rq0 ccap X S false s' ∧ cn_pos s' = cn_pos s + 1
    ∧ (nx = RqpNext → cn_pos s' ≠ end_ ∧ rqp_run_ok rq0 ccap X S true s')) as Hrej.
  { intros r recv n' st Hn' Hr HR. destruct (rqp_reject_type _ _ _ _ _ _ _ _ _ _ _ _ n' HR Hs Hn' Hr) as (?&?&->).
    done. }
  assert (∀ st (warn : bool), Some (rqp_state_after s e (ntrdma_send_fail e st) (cn_recv s) (cn_rq s) (cn_world s) false
            (if warn then [EvWarnRecvKey] else []), RqpAbort) = Some (s', nx) →
    rqp_run_ok rq0 ccap X S false s' ∧ cn_pos s' = cn_pos s + 1
    ∧ (nx = RqpNext → cn_pos s' ≠ end_ ∧ rqp_run_ok rq0 ccap X S true s')) as Hfail.
  { intros st warn HF. injection HF as <- <-. split; [|done]. eapply rqp_after_type; try done.
    destruct warn; by repeat constructor. }
  destruct (negb (ntrdma_wr_code_is_send _)).
  { destruct (negb _); [by eapply Hrej|by eapply Hcomp]. }
  destruct (ntrdma_wr_status_no_recv _); [exact (Hfail _ false H)|].
  destruct (negb _); [exact (Hfail _ true H)|].
  rewrite Hf, cur_empty in H by (done || lia). destruct (Nat.eqb_spec S n); [rewrite <- Hf in H; exact (Hfail _ false H)|].
  destruct (rq_cqes (cn_rq s) !! _) as [old|]; [|done]. destruct (rq_wqes (cn_rq s) !! _) as [rw|]; [|done].
  assert (next_at (rq_cap rq0) S (Datatypes.S n) (mk_range (r_idx (cur (rq_cap rq0) S n) + 1)
    (r_end (cur (rq_cap rq0) S n)) (r_base (cur (rq_cap rq0) S n)))) as Hnext.
  { right. exists n. split; [done|]. split; [lia|done]. }
  destruct (_ || _).
  - eapply (Hrej _ _ (Datatypes.S n)); [lia|exact Hnext|exact H].
  - eapply (Hcomp _ _ (Datatypes.S n)); [lia|exact Hnext|exact H].
Qed.

Lemma rqp_loop_type rq0 ccap X S ntc bytes wqes end_ k : ∀ (s s' : @rqp_run W) abort,
  cap_ok (rq_cap rq0) → rq_prod rq0 = nenc (rq_cap rq0) S → Z.of_nat S <= Z.of_nat X + rq_cap rq0 →
  rqp_loop k ntc bytes wqes end_ s = Some (s', abort) → k = Z.to_nat (end_ - cn_pos s) →
  rqp_run_ok rq0 ccap X S true s →
  rqp_run_ok rq0 ccap X S false s' ∧ cn_pos s < cn_pos s' ∧ cn_pos s' <= cn_pos s + Z.of_nat k.
Proof.
  induction k as [|k IH]; intros s s' abort Hc HS HX H Hk Hs; [done|]. cbn [rqp_loop] in H.
  destruct (rqp_iter ntc bytes wqes end_ s) as [[s1 nx]|] eqn:Hi; [|done].
  destruct (rqp_iter_type _ _ _ _ _ _ _ _ _ _ _ Hc HS HX Hi Hs) as (Hs1 & Hp & Hnx).
  destruct nx.
  - destruct (Hnx eq_refl) as [Hne Hs1']. destruct (IH s1 s' abort Hc HS HX H ltac:(lia) Hs1') as (?&?&?).
    split; [done|]. lia.
  - injection H as <- _. split; [done|]. lia.
  - injection H as <- _. split; [done|]. lia.
Qed.

Lemma rqp_transfers_type irq vec ccap start pos signal b s (w w' : qp_world W) rc evs :
  rqp_transfers irq vec start pos signal b s w = Some (rc, w', evs) →
  0 <= start <= pos → pos <= Z.of_nat (length (rs_cqes s)) → Z.of_nat (length (rs_cqes s)) = ccap →
  0 <= rs_cons s < 2 * ccap → copies_ok 0 0 ccap evs.
Proof.
  intros H Hs Hp Hl Hi. unfold rqp_transfers, qw_request in H.
  assert (copies_ok 0 0 ccap [EvCqes start (slots start pos (rs_cqes s))]) as H1.
  { constructor; [|constructor]. unfold slots. rewrite length_take, length_drop. lia. }
  assert (copies_ok 0 0 ccap [EvSendCons (rs_cons s)]) as H2 by (constructor; [done|constructor]).
  assert (∀ i, copies_ok 0 0 ccap [EvPeerVbell i]) as H3 by (intros; by repeat constructor).
  assert (copies_ok 0 0 ccap [EvSignal]) as H4 by by repeat constructor.
  assert (copies_ok 0 0 ccap []) as H0 by constructor.
  destruct (ntc_request_memcpy_fenced _ _ _ _ _ _ _) as [rc1 io1].
  destruct (rc1 <? 0); [by injection H as _ _ <-|].
  destruct (ntc_request_imm32 _ _ _ _ _) as [rc2 io2].
  destruct (rc2 <? 0); [by injection H as _ _ <-|].
  destruct signal; cbn [negb] in H; [|injection H as _ _ <-; copies_solve].
  destruct (ntrdma_dev_vbell_peer _ _ _) as [[[rc3 vb] io3]|]; [|done].
  destruct (rc3 <? 0); [injection H as _ _ <-; copies_solve|].
  destruct (ntc_req_signal _ _ _) as [[rc4 io4]|]; [|done].
  injection H as _ _ <-. destruct (rc4 <? 0); copies_solve.
Qed.

(** Consuming sends, whatever the outcome. *)
Lemma rqp_send_work_type ntc irq vec bytes chan p oq (w w' : qp_world W) p' oq' evs :
  ntrdma_rqp_send_work ntc irq vec bytes chan p oq w = Some (p', oq', w', evs) →
  rqp_ok p → (∀ q, oq = Some q → qp_ok q) →
  rqp_ok p' ∧ (∀ q, oq' = Some q → qp_ok q) ∧ copies_ok 0 0 (rs_cap (rqp_send p)) evs.
Proof.
  intros H Hp Hq. unfold ntrdma_rqp_send_work in H.
  pose proof Hp as ((Hc & Hl & C & V & HC & HV & E1 & E2) & Hcl & Hrr).
  assert (copies_ok 0 0 (rs_cap (rqp_send p)) [EvClear]) as Hclr by by repeat constructor.
  destruct (negb _); [injection H as <- <- _ <-; split_and!; [done|done|constructor]|].
  unfold ntrdma_rqp_send_cons_get in H. rewrite E1, E2, cur_get in H by (done || lia).
  set (r := cur _ V C) in *. unfold r_empty in H.
  destruct (Z.eqb_spec (r_idx r) (r_end r)) as [|Hne];
    [injection H as <- <- _ <-; split_and!; [done|done|by repeat constructor]|].
  destruct oq as [q|]; [|by injection H as <- <- _ <-].
  destruct (negb chan); [by injection H as <- <- _ <-|]. destruct (negb _); [by injection H as <- <- _ <-|].
  destruct (Hq q eq_refl) as (Hsq & Hrc & Hrl & Hrcl & C' & X & S & P & HX & HS & HP & F1 & F2 & F3 & F4).
  destruct (rqp_loop _ _ _ _ _ _) as [[s abort]|] eqn:Hloop; [|done].
  pose proof (nslot_range _ Hc C) as Hsl. assert (NTRDMA_QP_BATCH_SIZE = 16) as Hb by done.
  assert (r_idx r = nslot (rs_cap (rqp_send p)) C ∧ r_end r <= rs_cap (rqp_send p) ∧ r_idx r <= r_end r
    ∧ r_end r - r_idx r <= Z.of_nat V - Z.of_nat C) as (Hi & He & Hie & Hvc) by (subst r; cbn; lia).
  destruct (rqp_loop_type (qp_recv q) (rs_cap (rqp_send p)) X S _ _ _ _ _ _ _ _ Hrc F3 ltac:(lia) Hloop) as (Hs & Hlt & Hle).
  { done. }
  { split; [done|]. split; [constructor|]. split; [done|]. exists X. cbn.
    unfold ntrdma_qp_recv_cons_get. rewrite F2, F3, cur_get by (done || lia). split; [lia|]. split; [by left|done]. }
  cbn [cn_pos] in Hlt, Hle. destruct Hs as (Hwl & Hev & (K1 & K2 & K3 & K4 & K5 & K6) & n & Hn & Hnx & _).
  set (m := Z.to_nat (cn_pos s - r_idx r)).
  set (p1 := rqp_set_send _ _) in H. set (q1 := qp_set_recv _ _) in H.
  assert (rs_cons (rqp_send p1) = nenc (rs_cap (rqp_send p)) (C + m)) as Hco.
  { subst p1. cbn. rewrite <- moved_index by (done || lia). f_equal. lia. }
  assert (rqp_ok p1) as Hp1.
  { split; [|split; [done|done]]. split; [done|]. split; [done|]. exists (C + m)%nat, V.
    change (rs_cap (rqp_send p1)) with (rs_cap (rqp_send p)). split_and!; try done; lia. }
  assert (qp_ok q1) as Hq1.
  { split; [done|]. subst q1. unfold recv_ring_ok. cbn. rewrite K1, K2, K3, K4, K5, K6.
    split; [done|]. split; [done|]. split; [done|]. exists C', n, S, P.
    rewrite (next_at_put _ _ _ _ Hrc Hnx). split_and!; try done; lia. }
  assert (∀ evs, copies_ok 0 0 (rs_cap (rqp_send p)) evs →
    rqp_ok p1 ∧ (∀ q, Some q1 = Some q → qp_ok q)
    ∧ copies_ok 0 0 (rs_cap (rqp_send p)) (([EvClear] ++ cn_evs s ++ if cn_cue s then [EvCueRecv] else []) ++ evs))
    as Hdone.
  { intros ev Hv. split; [done|]. split; [by intros ? [= <-]|].
    unfold copies_ok in *. rewrite !Forall_app. split_and!; try done. destruct (cn_cue s); by repeat constructor. }
  destruct abort.
  { injection H as <- <- _ <-. specialize (Hdone [] ltac:(constructor)). by rewrite app_nil_r in Hdone. }
  destruct (rqp_transfers _ _ _ _ _ _ _ _) as [[[rc w1] sev]|] eqn:Htr; [|done].
  injection H as <- <- _ <-. apply Hdone.
  eapply rqp_transfers_type; [exact Htr|lia|cbn; lia|done|].
  change (rs_cons _) with (rs_cons (rqp_send p1)). rewrite Hco. by apply nenc_range.
Qed.

(** ** Producing receives *)

(** The ring from entry [S] on. *)
Definition recv_ring_at (r : recv_ring) (S P : nat) : Prop :=
  cap_ok (rq_cap r) ∧ Z.of_nat (length (rq_wqes r)) = rq_cap r ∧ Z.of_nat (length (rq_cqes r)) = rq_cap r
  ∧ ∃ C X, (C ≤ X ≤ S)%nat ∧ (S ≤ P)%nat ∧ Z.of_nat P <= Z.of_nat C + rq_cap r
    ∧ rq_cmpl r = nenc (rq_cap r) C ∧ rq_cons r = nenc (rq_cap r) X
    ∧ rq_prod r = nenc (rq_cap r) S ∧ rq_post r = nenc (rq_cap r) P.

Lemma recv_ring_at_get r S P :
  recv_ring_at r S P → ntrdma_qp_recv_prod_get r = cur (rq_cap r) P S.
Proof.
  intros (Hc & _ & _ & C & X & HX & HS & HP & _ & _ & E1 & E2).
  unfold ntrdma_qp_recv_prod_get. rewrite E1, E2. apply cur_get; [done|lia|lia].
Qed.

(** The range is produced: its entries, at most to the end of the buffer. *)
Lemma recv_ring_at_put r S P :
  recv_ring_at r S P →
  let g := cur (rq_cap r) P S in let k := Z.to_nat (r_end g - r_idx g) in
  recv_ring_at (ntrdma_qp_recv_prod_put (r_end g) (r_base g) r) (S + k) P
  ∧ 0 <= r_idx g <= r_end g ∧ r_end g <= rq_cap r
  ∧ Z.of_nat k = Z.min (Z.of_nat (P - S)) (rq_cap r - nslot (rq_cap r) S).
Proof.
  intros (Hc & Hl & Hcl & C & X & HX & HS & HP & E1 & E2 & E3 & E4) g k.
  pose proof (nslot_range _ Hc S) as Hs.
  assert (Z.of_nat k = Z.min (Z.of_nat (P - S)) (rq_cap r - nslot (rq_cap r) S)) as Hk by (subst k g; cbn; lia).
  assert (ntrdma_ring_update (r_end g) (r_base g) (rq_cap r) = nenc (rq_cap r) (S + k)) as Hu.
  { rewrite <- moved_index by (done || lia). f_equal. subst g. cbn in *. lia. }
  split; [|subst g; cbn in *; lia]. split; [done|]. split; [done|]. split; [done|].
  exists C, X. unfold ntrdma_qp_recv_prod_put. cbn [rq_cmpl rq_cons rq_prod rq_post rq_cap rq_set_prod].
  rewrite Hu. split_and!; try done; lia.
Qed.

(** The loop over the ranges ends: after one pass, or after a second one from
    the beginning of the buffer. *)
Lemma recv_work_loop_type n : ∀ r q (w : qp_world W) evs S P,
  r = cur (rq_cap (qp_recv q)) P S → (S < P)%nat → recv_ring_at (qp_recv q) S P →
  copies_ok 0 (rq_cap (qp_recv q)) 0 evs →
  (n = 2%nat ∨ (n = 1%nat ∧ nslot (rq_cap (qp_recv q)) S = 0)) →
  ∃ rc q' w' evs', recv_work_loop n r q w evs = Some (rc, (q', w', evs'))
    ∧ copies_ok 0 (rq_cap (qp_recv q)) 0 evs' ∧ qp_send q' = qp_send q
    ∧ rq_cap (qp_recv q') = rq_cap (qp_recv q) ∧ ∃ S', recv_ring_at (qp_recv q') S' P.
Proof.
  induction n as [|n IH]; intros r q w evs S P -> HSP Hr Hev Hn; [lia|]. cbn [recv_work_loop].
  destruct (recv_ring_at_put _ _ _ Hr) as (Hr' & Hi & He & Hk).
  set (g := cur (rq_cap (qp_recv q)) P S) in *. set (k := Z.to_nat (r_end g - r_idx g)) in *.
  set (q1 := qp_set_recv _ q).
  destruct (qw_request _ w) as [rc1 w1].
  destruct (rc1 <? 0); [exists rc1, q1, w1, evs; split_and!; try done; by exists (S + k)%nat|].
  assert (ntrdma_qp_recv_prod_get (qp_recv q1) = cur (rq_cap (qp_recv q)) P (S + k)) as ->
    by exact (recv_ring_at_get _ _ _ Hr').
  assert (copies_ok 0 (rq_cap (qp_recv q)) 0
    (evs ++ [EvRecvWqes (r_idx g) (slots (r_idx g) (r_end g) (rq_wqes (qp_recv q1)))])) as Hev'.
  { apply copies_ok_app; [done|]. constructor; [|constructor]. unfold slots. rewrite length_take, length_drop. lia. }
  pose proof Hr as (Hc & _). pose proof (nslot_range _ Hc S) as Hsl.
  assert (S + k ≤ P)%nat as HkP by lia.
  unfold r_empty. rewrite cur_empty by done.
  destruct (Nat.eqb_spec P (S + k)) as [|Hne].
  - eexists rc1, q1, w1, _. split; [done|]. split_and!; try done. by exists (S + k)%nat.
  - assert (nslot (rq_cap (qp_recv q)) (S + k) = 0) as Hz.
    { assert (Z.of_nat k = rq_cap (qp_recv q) - nslot (rq_cap (qp_recv q)) S) as Hk' by lia.
      unfold nslot, slot in *. rewrite Nat2Z.inj_add, Hk'.
      replace (Z.of_nat S + (rq_cap (qp_recv q) - Z.of_nat S mod rq_cap (qp_recv q)))
        with ((Z.of_nat S / rq_cap (qp_recv q) + 1) * rq_cap (qp_recv q)); [apply Z.mod_mul; rsolve|].
      pose proof (Z.div_mod (Z.of_nat S) (rq_cap (qp_recv q)) ltac:(rsolve)). lia. }
    destruct Hn as [Hn|[_ H0]].
    2:{ destruct Hr as (_ & _ & _ & C & X & HX & _ & HP & _). lia. }
    destruct (IH (cur (rq_cap (qp_recv q)) P (S + k)) q1 w1
      (evs ++ [EvRecvWqes (r_idx g) (slots (r_idx g) (r_end g) (rq_wqes (qp_recv q1)))]) (S + k)%nat P)
      as (rc & q' & w' & evs' & Hl & Hev2 & Hs2 & Hc2 & Hr2); [done|lia|exact Hr'|exact Hev'| |].
    { right. split; [lia|exact Hz]. }
    exists rc, q', w', evs'. split; [exact Hl|]. done.
Qed.

(** Producing receives: it always returns. *)
Lemma recv_work_type q (w : qp_world W) :
  qp_ok q → ∃ q' w' evs, ntrdma_qp_recv_work q w = Some (q', w', evs)
    ∧ qp_ok q' ∧ copies_ok 0 (rq_cap (qp_recv q)) 0 evs.
Proof.
  intros [Hs Hr]. unfold ntrdma_qp_recv_work.
  assert (copies_ok 0 (rq_cap (qp_recv q)) 0 []) as H0 by constructor.
  destruct (negb _); [by eexists _, _, _|].
  destruct Hr as (Hc & Hl & Hcl & C & X & S & P & HX & HS & HP & E1 & E2 & E3 & E4).
  assert (recv_ring_at (qp_recv q) S P) as Hat.
  { split; [done|]. split; [done|]. split; [done|]. by exists C, X. }
  rewrite (recv_ring_at_get _ _ _ Hat). unfold r_empty. rewrite cur_empty by done.
  destruct (Nat.eqb_spec P S) as [|Hne].
  { eexists _, _, _. split; [done|]. split; [|done]. split; [done|]. split; [done|]. split; [done|]. split; [done|].
    by exists C, X, S, P. }
  destruct (recv_work_loop_type 2 (cur (rq_cap (qp_recv q)) P S) q w [] S P) as
    (rc & q' & w' & evs' & -> & Hev & Hse & Hca & S' & Hr'); [done|lia|done|done|by left|].
  assert (qp_ok q') as Hq'.
  { split; [by rewrite Hse|]. destruct Hr' as (?&?&?&C'&X'&?&?&?&?&?&?&?). split; [done|]. split; [done|]. split; [done|].
    by exists C', X', S', P. }
  assert (copies_ok 0 (rq_cap (qp_recv q)) 0 (evs' ++ [EvRecvProd (rq_prod (qp_recv q'))])) as Hev2.
  { apply copies_ok_app; [done|]. constructor; [|constructor]. destruct Hr' as (Hc' & _ & _ & C' & X' & _ & _ & _ & _ & _ & -> & _).
    rewrite Hca. by apply nenc_range. }
  destruct (rc <? 0).
  - destruct (qw_request _ w') as [rc3 w3]. by eexists _, _, _.
  - destruct (qw_request _ w') as [rc2 w2]. destruct (qw_request _ w2) as [rc3 w3].
    eexists _, _, _. split; [done|]. split; [done|]. by destruct (rc2 <? 0).
Qed.

(** ** Polling *)

(** The ring with [C] entries polled and [X] that can be. *)
Definition send_polled (s : send_ring) (C X : nat) : Prop :=
  cap_ok (sq_cap s) ∧ Z.of_nat (length (sq_wqes s)) = sq_cap s ∧ Z.of_nat (length (sq_cqes s)) = sq_cap s
  ∧ ∃ S P, (C ≤ X ≤ S)%nat ∧ (S ≤ P)%nat ∧ Z.of_nat P <= Z.of_nat C + sq_cap s
    ∧ sq_cmpl s = nenc (sq_cap s) C ∧ sq_cons s = nenc (sq_cap s) X
    ∧ sq_prod s = nenc (sq_cap s) S ∧ sq_post s = nenc (sq_cap s) P.

Lemma send_cmpl_get_type q r q' C X :
  ntrdma_qp_send_cmpl_get q = (r, q') → send_polled (qp_send q) C X →
  ∃ X', r = cur (sq_cap (qp_send q')) X' C ∧ send_polled (qp_send q') C X' ∧ qp_recv q' = qp_recv q.
Proof.
  unfold ntrdma_qp_send_cmpl_get. intros H (Hc & Hl & Hcl & S & P & HX & HS & HP & E1 & E2 & E3 & E4).
  cbv zeta in H. destruct (send_abort (qp_flags q)); apply pair_equal_spec in H as [<- <-]; cbn.
  - exists P. rewrite E1, E4, cur_get by (done || lia). split; [done|]. split; [|done].
    split; [done|]. split; [done|]. split; [done|]. exists P, P. cbn. split_and!; try done; lia.
  - exists X. rewrite E1, E2, cur_get by (done || lia). split; [done|]. split; [|done].
    split; [done|]. split; [done|]. split; [done|]. by exists S, P.
Qed.

Lemma poll_send_loop_send n : ∀ q pos l q',
  poll_send_loop n pos q = Some (l, q') → qp_send q' = qp_send q ∧ qp_recv q' = qp_recv q.
Proof.
  induction n as [|n IH]; intros q pos l q' H; cbn [poll_send_loop] in H; [by injection H as <- <-|].
  destruct (ntrdma_qp_poll_send_cqe pos q) as [[c q1]|] eqn:Hq; [|done].
  destruct (poll_send_loop n (pos + 1) q1) as [[l1 q2]|] eqn:Hl; [|done]. injection H as <- <-.
  apply IH in Hl as [-> ->]. unfold ntrdma_qp_poll_send_cqe in Hq.
  destruct (sq_wqes _ !! _) as [e|]; [|done]. destruct (sq_cqes _ !! _) as [cq|]; [|done].
  destruct (send_abort _); [by injection Hq as _ <-|]. destruct (negb _); [by injection Hq as _ <-|].
  destruct (negb _); by injection Hq as _ <-.
Qed.

Lemma poll_send_type q k l q' :
  qp_poll_send k q = Some (l, q') → qp_ok q → qp_ok q'.
Proof.
  unfold qp_poll_send. intros H [(Hc & Hl & Hcl & C & X & S & P & HX & HS & HP & E1 & E2 & E3 & E4) Hr].
  assert (send_polled (qp_send q) C X) as Hs by (split; [done|]; split; [done|]; split; [done|]; by exists S, P).
  assert (∀ q1 X, send_polled (qp_send q1) C X → qp_recv q1 = qp_recv q → qp_ok q1) as Hok.
  { intros q1 X1 (?&?&?&S1&P1&?) Hrq. split; [|by rewrite Hrq]. split; [done|]. split; [done|]. split; [done|]. by exists C, X1, S1, P1. }
  assert (∃ rc X1 q1, ntrdma_qp_poll_send_start_and_get q = (rc, batch (cur (sq_cap (qp_send q1)) X1 C), q1)
    ∧ send_polled (qp_send q1) C X1 ∧ qp_recv q1 = qp_recv q) as (rc & X1 & q1 & Hg & Hs1 & Hr1).
  { unfold ntrdma_qp_poll_send_start_and_get.
    destruct (ntrdma_qp_send_cmpl_get q) as [r1 q1] eqn:Hg1.
    destruct (send_cmpl_get_type _ _ _ _ _ Hg1 Hs) as (X1 & -> & Hs1 & Hr1).
    destruct (negb _); [by eexists _, X1, q1|].
    destruct (send_abort_first (qp_flags q1)); [|by eexists _, X1, q1].
    destruct (ntrdma_qp_send_cmpl_get q1) as [r2 q2] eqn:Hg2.
    destruct (send_cmpl_get_type _ _ _ _ _ Hg2 Hs1) as (X2 & -> & Hs2 & Hr2).
    eexists _, X2, q2. split; [done|]. split; [done|]. by rewrite Hr2. }
  rewrite Hg in H. destruct (negb (rc =? 0)); [injection H as _ <-; by eapply Hok|].
  destruct (poll_send_loop _ _ _) as [[l2 q2]|] eqn:Hp; [|done]. injection H as _ <-.
  apply poll_send_loop_send in Hp as [Hs2 Hr2].
  destruct Hs1 as (Hc1 & Hl1 & Hcl1 & S1 & P1 & HX1 & HS1 & HP1 & F1 & F2 & F3 & F4).
  pose proof (nslot_range _ Hc1 C) as Hsl. assert (NTRDMA_QP_BATCH_SIZE = 16) as Hb by done.
  cbn [batch r_idx r_end r_base cur]. set (n := Z.min (Z.of_nat k) _).
  assert (Z.of_nat 0 <= Z.of_nat k ∧ n <= Z.of_nat (X1 - C) ∧ n <= sq_cap (qp_send q1) - nslot (sq_cap (qp_send q1)) C ∧ 0 <= n)
    as (_ & Hn1 & Hn2 & Hn3) by (subst n; cbn; lia).
  split; [|cbn; by rewrite Hr2, Hr1]. unfold send_ring_ok, ntrdma_qp_poll_send_put_and_done. cbn. rewrite Hs2.
  split; [done|]. split; [done|]. split; [done|]. exists (C + Z.to_nat n)%nat, X1, S1, P1.
  rewrite <- moved_index by (done || lia). rewrite Z2Nat.id by done. split_and!; try done; lia.
Qed.

(** Without an abort of the receives, polling them moves the index only. *)
Lemma poll_recv_loop_recv ntc n : ∀ out pos q l q' (w w' : qp_world W),
  poll_recv_loop ntc n out pos q w = Some (l, q', w') →
  qp_send q' = qp_send q ∧ rq_like (qp_recv q) (qp_recv q') ∧ rq_cons (qp_recv q') = rq_cons (qp_recv q).
Proof.
  induction n as [|n IH]; intros out pos q l q' w w' H; cbn [poll_recv_loop] in H; [by injection H as <- <- <-|].
  destruct (ntrdma_qp_poll_recv_cqe _ _ _ _ _) as [[[c q1] w1]|] eqn:Hq; [|done].
  destruct (poll_recv_loop _ _ _ _ _ _) as [[[l1 q2] w2]|] eqn:Hl; [|done]. injection H as <- <- <-.
  apply IH in Hl as (-> & (K1 & K2 & K3 & K4 & K5 & K6) & ->).
  assert (qp_send q1 = qp_send q ∧ rq_like (qp_recv q) (qp_recv q1) ∧ rq_cons (qp_recv q1) = rq_cons (qp_recv q))
    as (-> & (J1 & J2 & J3 & J4 & J5 & J6) & ->).
  { unfold ntrdma_qp_poll_recv_cqe in Hq.
    destruct (rq_wqes _ !! _) as [e|]; [|done]. destruct (rq_cqes _ !! _) as [cq|]; [|done].
    assert (∀ st f, match ntrdma_recv_fail ntc out e st w with
        | Some (c, wqe, w) => Some (c, qp_set_flags f (qp_set_recv
            (rq_set_entries (<[Z.to_nat pos := wqe]> (rq_wqes (qp_recv q))) (rq_cqes (qp_recv q)) (qp_recv q)) q), w)
        | None => None end = Some (c, q1, w1) →
      qp_send q1 = qp_send q ∧ rq_like (qp_recv q) (qp_recv q1) ∧ rq_cons (qp_recv q1) = rq_cons (qp_recv q)) as Hfail.
    { clear Hq. intros st f HF. destruct (ntrdma_recv_fail _ _ _ _ _) as [[[c0 e0] w0]|]; [|done]. injection HF as _ <- _.
      split; [done|]. split; [|done]. split_and!; try done. cbn. by rewrite length_insert. }
    destruct (recv_abort _); [by eapply Hfail|]. destruct (negb _); [by eapply Hfail|].
    destruct (negb _); by injection Hq as _ <- _. }
  split; [done|]. split; [|done]. split_and!; congruence.
Qed.

Lemma poll_recv_type ntc k out q l q' (w w' : qp_world W) :
  qp_poll_recv ntc k out q w = Some (l, q', w') → qp_ok q →
  recv_abort (qp_flags q) = false → recv_aborting (qp_flags q) = false → qp_ok q'.
Proof.
  unfold qp_poll_recv. intros H [Hs (Hc & Hl & Hcl & C & X & S & P & HX & HS & HP & E1 & E2 & E3 & E4)] Hab Hing.
  assert (ntrdma_qp_recv_cmpl_get q = (cur (rq_cap (qp_recv q)) X C, q)) as Hg.
  { unfold ntrdma_qp_recv_cmpl_get. rewrite Hab, Hing, E1, E2, cur_get by (done || lia). cbn. f_equal.
    by destruct q as [? ? ? ? ? [] ? [] ?]. }
  assert (∃ rc, ntrdma_qp_poll_recv_start_and_get q = (rc, batch (cur (rq_cap (qp_recv q)) X C), q)) as [rc Hst].
  { unfold ntrdma_qp_poll_recv_start_and_get. rewrite Hg. destruct (negb _); [by eexists|].
    destruct (recv_abort_first _); rewrite ?Hg; by eexists. }
  rewrite Hst in H. destruct (negb (rc =? 0)).
  { injection H as _ <- _. split; [done|]. split; [done|]. split; [done|]. split; [done|]. by exists C, X, S, P. }
  destruct (poll_recv_loop _ _ _ _ _ _) as [[[l2 q2] w2]|] eqn:Hp; [|done]. injection H as _ <- _.
  apply poll_recv_loop_recv in Hp as (Hs2 & (K1 & K2 & K3 & K4 & K5 & K6) & K7).
  pose proof (nslot_range _ Hc C) as Hsl. assert (NTRDMA_QP_BATCH_SIZE = 16) as Hb by done.
  cbn [batch r_idx r_end r_base cur]. set (n := Z.min (Z.of_nat k) _).
  assert (n <= Z.of_nat (X - C) ∧ n <= rq_cap (qp_recv q) - nslot (rq_cap (qp_recv q)) C ∧ 0 <= n)
    as (Hn1 & Hn2 & Hn3) by (subst n; lia).
  split; [cbn; by rewrite Hs2|]. unfold recv_ring_ok, ntrdma_qp_poll_recv_put_and_done. cbn. rewrite K1, K2, K3, K5, K6, K7.
  split; [done|]. split; [done|]. split; [done|]. exists (C + Z.to_nat n)%nat, X, S, P.
  rewrite <- moved_index by (done || lia). rewrite Z2Nat.id by done. split_and!; try done; lia.
Qed.

(** ** Posting *)

Lemma post_send_type wqe q q' : post_send_entry wqe q = Some q' → qp_ok q → qp_ok q'.
Proof.
  intros H [(Hc & Hl & Hcl & C & X & S & P & HX & HS & HP & E1 & E2 & E3 & E4) Hr].
  destruct (post_send_ok _ Hc wqe q q' C P H eq_refl E4 E1) as [Hlt ->]; [lia|lia|].
  split; [|done]. split; [done|]. split; [by cbn; rewrite length_insert|]. split; [done|].
  exists C, X, S, (Datatypes.S P). cbn. split_and!; try done; lia.
Qed.

Lemma post_recv_type wqe q q' : post_recv_entry wqe q = Some q' → qp_ok q → qp_ok q'.
Proof.
  intros H [Hs (Hc & Hl & Hcl & C & X & S & P & HX & HS & HP & E1 & E2 & E3 & E4)].
  destruct (post_recv_ok _ Hc wqe q q' C P H eq_refl E4 E1) as [Hlt ->]; [lia|lia|].
  split; [done|]. split; [done|]. split; [by cbn; rewrite length_insert|]. split; [done|].
  exists C, X, S, (Datatypes.S P). cbn. split_and!; try done; lia.
Qed.

(** ** One side of the channel

    The operations on a queue pair and on the image of the peer's, with the
    copies that they ask for; the world, and the outcomes, are arbitrary. *)
Inductive qp_runs : ntrdma_qp → ntrdma_rqp → ntrdma_qp → ntrdma_rqp → list qp_event → Prop :=
  | runs_post_send q p wqe q' : post_send_entry wqe q = Some q' → qp_runs q p q' p []
  | runs_post_recv q p wqe q' : post_recv_entry wqe q = Some q' → qp_runs q p q' p []
  | runs_send_work q p ntc irq vec (w w' : qp_world W) resched q' p' evs :
      ntrdma_qp_send_work ntc irq vec q (Some p) w = Some (resched, q', Some p', w', evs) →
      qp_runs q p q' p' evs
  | runs_recv_work q p (w w' : qp_world W) q' evs :
      ntrdma_qp_recv_work q w = Some (q', w', evs) → qp_runs q p q' p evs
  | runs_rqp_work q p ntc irq vec bytes chan (w w' : qp_world W) q' p' evs :
      ntrdma_rqp_send_work ntc irq vec bytes chan p (Some q) w = Some (p', Some q', w', evs) →
      qp_runs q p q' p' evs
  | runs_poll_send q p k l q' : qp_poll_send k q = Some (l, q') → qp_runs q p q' p []
  | runs_poll_recv q p ntc k out l q' (w w' : qp_world W) :
      recv_abort (qp_flags q) = false → recv_aborting (qp_flags q) = false →
      qp_poll_recv ntc k out q w = Some (l, q', w') → qp_runs q p q' p []
  | runs_stall q p : qp_runs q p (ntrdma_qp_send_stall q) p []
  | runs_reset q p : qp_runs q p (fst (ntrdma_qp_reset q (Some p))) p []
  | runs_state q p st f : qp_runs q p (qp_set_flags f (qp_set_state st (dma_chan_init q) q)) p [].

(** What the copies have to satisfy: those of sends, of receives and of
    completions are of the rings they belong to. *)
Definition side_copies_ok (q : ntrdma_qp) (p : ntrdma_rqp) (evs : list qp_event) : Prop :=
  copies_ok (sq_cap (qp_send q)) (rq_cap (qp_recv q)) (rs_cap (rqp_send p)) evs.

Lemma copies_ok_weaken a b c a' b' c' evs :
  copies_ok a b c evs → a <= a' → b <= b' → c <= c' → copies_ok a' b' c' evs.
Proof.
  intros H Ha Hb Hc. eapply List.Forall_impl; [|exact H]. intros [] He; cbn in *; try done; lia.
Qed.

(** C36. A queue pair is well typed: its rings and the image of the peer's
    keep arrays of their capacity and indices that encode ordered counters
    under every operation, whatever the transfers do, errors and aborts
    included; and every run of entries an operation copies to the peer lies
    inside the ring, every index it writes is one of the ring's.  (Polling the
    receives is an operation here as long as they are not being aborted.) *)
Theorem operations_keep_queue_pairs_well_typed q p q' p' evs :
  qp_runs q p q' p' evs → qp_ok q → rqp_ok p →
  qp_ok q' ∧ rqp_ok p' ∧ side_copies_ok q p evs.
Proof.
  intros H Hq Hp.
  assert (0 <= sq_cap (qp_send q) ∧ 0 <= rq_cap (qp_recv q) ∧ 0 <= rs_cap (rqp_send p)) as (H1 & H2 & H3).
  { destruct Hq as [(?&_) (?&_)], Hp as ((?&_)&_). rsolve. }
  assert (side_copies_ok q p []) as H0 by constructor. unfold side_copies_ok in *.
  destruct H.
  - split; [by eapply post_send_type|done].
  - split; [by eapply post_recv_type|done].
  - destruct (send_work_type _ _ _ _ _ _ _ _ _ _ _ H Hq) as (Hq' & Hp' & Hev); [by intros ? [= <-]|].
    split; [done|]. split; [by apply Hp'|]. eapply copies_ok_weaken; [done|lia|lia|lia].
  - destruct (recv_work_type q w Hq) as (q1 & w1 & evs1 & He & Hq' & Hev). rewrite H in He. injection He as <- <- <-.
    split; [done|]. split; [done|]. eapply copies_ok_weaken; [done|lia|lia|lia].
  - destruct (rqp_send_work_type _ _ _ _ _ _ _ _ _ _ _ _ H Hp) as (Hp' & Hq' & Hev); [by intros ? [= <-]|].
    split; [by apply Hq'|]. split; [done|]. eapply copies_ok_weaken; [done|lia|lia|lia].
  - split; [by eapply poll_send_type|done].
  - split; [by eapply poll_recv_type|done].
  - split; [|done]. unfold ntrdma_qp_send_stall.
    destruct (negb (is_state_send_ready _)); [|done]. destruct (negb (send_abort _)), (negb (recv_abort _)); done.
  - done.
  - done.
Qed.

(** Producing receives ends: for every ring whose indices are in order,
    the loop of ntrdma_qp_recv_work over the ranges comes to an empty one
    within two passes, the second from the beginning of the buffer; the
    function returns whatever the transfers do. *)
Theorem recv_work_terminates q (w : qp_world W) :
  qp_ok q → ∃ q' w' evs, ntrdma_qp_recv_work q w = Some (q', w', evs).
Proof. intros Hq. destruct (recv_work_type q w Hq) as (q' & w' & evs & H & _). by exists q', w', evs. Qed.

End Types.
(** ** Examples *)

(** The queue pair of the channel's example with one receive posted. *)
Definition typed_qp : ntrdma_qp :=
  qp_set_recv (rq_set_post 1 (qp_recv demo_qp)) demo_qp.

Lemma typed_qp_ok : qp_ok typed_qp.
Proof.
  split; (split; [split; reflexivity|]; split; [reflexivity|]; split; [reflexivity|]).
  - exists 0%nat, 0%nat, 0%nat, 0%nat. split_and!; (lia || reflexivity || discriminate).
  - exists 0%nat, 0%nat, 0%nat, 1%nat. split_and!; (lia || reflexivity || discriminate).
Qed.

Lemma demo_rqp_ok : rqp_ok demo_rqp.
Proof.
  split; [|split; [reflexivity|]]; (split; [split; reflexivity|]; split; [reflexivity|]);
    exists 0%nat, 0%nat; split_and!; (lia || reflexivity || discriminate).
Qed.

Lemma operations_keep_queue_pairs_well_typed_witness :
  ∃ q' w' evs, ntrdma_qp_recv_work (K := kernel_good) typed_qp demo_world = Some (q', w', evs)
    ∧ evs = [EvRecvWqes 0 [demo_recv]; EvRecvProd 1]
    ∧ qp_ok q' ∧ rqp_ok demo_rqp ∧ side_copies_ok typed_qp demo_rqp evs.
Proof.
  destruct (ntrdma_qp_recv_work (K := kernel_good) typed_qp demo_world) as [[[q' w'] evs]|] eqn:E;
    [|vm_compute in E; discriminate E].
  exists q', w', evs. split; [reflexivity|]. split; [pose proof E as E2; vm_compute in E2; injection E2 as _ _ <-; reflexivity|].
  exact (operations_keep_queue_pairs_well_typed (K := kernel_good) typed_qp demo_rqp q' demo_rqp evs
    (runs_recv_work (K := kernel_good) typed_qp demo_rqp demo_world w' q' evs E) typed_qp_ok demo_rqp_ok).
Defined.

Lemma recv_work_terminates_witness :
  qp_ok typed_qp ∧ ∃ q' w' evs, ntrdma_qp_recv_work (K := kernel_good) typed_qp demo_world = Some (q', w', evs).
Proof. split; [exact typed_qp_ok|]. exact (recv_work_terminates typed_qp demo_world typed_qp_ok). Defined.

(** What aborting the receives does to the type: the index of the consumed
    receives is moved to that of the posted ones, and past that of the
    produced ones, which is left behind: the range of receives that can be
    consumed is then inverted. *)
Example recv_abort_leaves_prod_behind :
  match qp_poll_recv ex_ntc 4 demo_cqe (ntrdma_qp_send_stall typed_qp) demo_world with
  | Some (l, q, _) =>
      cqe_op_status <$> l = [NTRDMA_WC_ERR_LOC_PORT] ∧ rq_prod (qp_recv q) = 0 ∧ rq_cons (qp_recv q) = 1
      ∧ ntrdma_qp_recv_cons_get (qp_recv q) = mk_range 1 0 0
  | None => False
  end.
Proof. vm_compute. done. Qed.

End QpType.
