(* ===== verification/Cq.v ===== *)
(** * Completion queues (ntrdma_cq.c, and the verbs of ntrdma_ib.c)

    A completion queue polls the rings of the queue pairs attached to it, in
    turns, and notifies the application that armed it.  A ring is reached
    through the interface of [struct ntrdma_poll]; the queue pairs implement
    it in [CqPoll].  Here are the completion queue's functions, the two verbs
    that poll it, the conversion of completions, and the property of the
    notification. *)

From stdpp Require Import gmap.
From S2P Require Import Prelude Ring Wr Vbell.
Import Ring Wr Vbell.

Module Cq.

(** ** Codes of the kernel's rdma/ib_verbs.h *)

Definition IB_WC_SUCCESS : Z := 0.
Definition IB_WC_LOC_PROT_ERR : Z := 4.
Definition IB_WC_WR_FLUSH_ERR : Z := 5.
Definition IB_WC_BAD_RESP_ERR : Z := 7.
Definition IB_WC_REM_INV_REQ_ERR : Z := 9.
Definition IB_WC_REM_ACCESS_ERR : Z := 10.
Definition IB_WC_REM_OP_ERR : Z := 11.
Definition IB_WC_FATAL_ERR : Z := 19.
Definition IB_WC_RESP_TIMEOUT_ERR : Z := 20.

Definition IB_WC_SEND : Z := 0.
Definition IB_WC_RDMA_WRITE : Z := 1.
Definition IB_WC_RDMA_READ : Z := 2.
Definition IB_WC_RECV : Z := 128.
Definition IB_WC_RECV_RDMA_WITH_IMM : Z := 129.

Definition IB_WC_WITH_IMM : Z := 2.
Definition IB_WC_WITH_INVALIDATE : Z := 4.

(** ** Work completions *)

Definition ntrdma_ib_wc_status_from_cqe (op_status : Z) : Z :=
  if op_status =? NTRDMA_WC_SUCCESS then IB_WC_SUCCESS
  else if op_status =? NTRDMA_WC_ERR_ABORTED then IB_WC_WR_FLUSH_ERR
  else if op_status =? NTRDMA_WC_ERR_CORRUPT then IB_WC_BAD_RESP_ERR
  else if op_status =? NTRDMA_WC_ERR_OPCODE then IB_WC_REM_OP_ERR
  else if op_status =? NTRDMA_WC_ERR_RECV_NOT_READY then IB_WC_RESP_TIMEOUT_ERR
  else if op_status =? NTRDMA_WC_ERR_RECV_MISSING then IB_WC_REM_INV_REQ_ERR
  else if (op_status =? NTRDMA_WC_ERR_RECV_OVERFLOW) || (op_status =? NTRDMA_WC_ERR_RDMA_KEY)
          || (op_status =? NTRDMA_WC_ERR_RDMA_RANGE) || (op_status =? NTRDMA_WC_ERR_RDMA_ACCESS)
  then IB_WC_REM_ACCESS_ERR
  else if op_status =? NTRDMA_WC_ERR_LOC_PORT then IB_WC_LOC_PROT_ERR
  else IB_WC_FATAL_ERR.

Definition ntrdma_ib_wc_opcode_from_cqe (op_code : Z) : Z :=
  if (op_code =? NTRDMA_WR_RECV) || (op_code =? NTRDMA_WR_RECV_INV) || (op_code =? NTRDMA_WR_RECV_IMM)
  then IB_WC_RECV
  else if op_code =? NTRDMA_WR_RECV_RDMA then IB_WC_RECV_RDMA_WITH_IMM
  else if (op_code =? IB_WR_SEND) || (op_code =? NTRDMA_WR_SEND_INV) || (op_code =? IB_WR_SEND_WITH_IMM)
  then IB_WC_SEND
  else if (op_code =? IB_WR_RDMA_WRITE_WITH_IMM) || (op_code =? IB_WR_RDMA_WRITE) then IB_WC_RDMA_WRITE
  else if op_code =? IB_WR_RDMA_READ then IB_WC_RDMA_READ
  else -1.

Definition ntrdma_ib_wc_flags_from_cqe (op_code : Z) : Z :=
  if op_code =? NTRDMA_WR_RECV then 0
  else if (op_code =? NTRDMA_WR_RECV_IMM) || (op_code =? NTRDMA_WR_RECV_RDMA) then IB_WC_WITH_IMM
  else if op_code =? NTRDMA_WR_RECV_INV then IB_WC_WITH_INVALIDATE
  else 0.

(** What a work completion takes from a queue pair: its name, its key and that
    of its peer. *)
Record qp_info := mk_info { qi_qp : nat; qi_key : Z; qi_rqp_key : Z }.

(** [struct ib_wc]; the members that are always 0 are left out. *)
Record ib_wc := mk_ib_wc {
  wc_wr_id : Z; wc_status : Z; wc_opcode : Z; wc_vendor_err : Z; wc_byte_len : Z; wc_imm_data : Z;
  wc_qp : nat; wc_src_qp : Z; wc_wc_flags : Z }.

Definition ntrdma_ib_wc_from_cqe (qp : qp_info) (c : ntrdma_cqe) : ib_wc :=
  mk_ib_wc (cqe_ulp_handle c) (ntrdma_ib_wc_status_from_cqe (cqe_op_status c))
    (ntrdma_ib_wc_opcode_from_cqe (cqe_op_code c)) (cqe_op_status c) (cqe_rdma_len c) (cqe_imm_data c)
    (qi_qp qp) (qi_rqp_key qp) (ntrdma_ib_wc_flags_from_cqe (cqe_op_code c)).

(** The same for the page shared with the application, where the two codes are
    unsigned. *)
Record ntrdma_ibv_wc := mk_ibv_wc {
  uw_wr_id : Z; uw_status : Z; uw_opcode : Z; uw_vendor_err : Z; uw_byte_len : Z; uw_imm_data : Z;
  uw_qp_num : Z; uw_src_qp : Z; uw_wc_flags : Z }.

Definition ntrdma_wc_from_cqe (qp : qp_info) (c : ntrdma_cqe) : ntrdma_ibv_wc :=
  let op_code := u16 (cqe_op_code c) in
  let op_status := u16 (cqe_op_status c) in
  mk_ibv_wc (cqe_ulp_handle c) (u32 (ntrdma_ib_wc_status_from_cqe op_status))
    (u32 (ntrdma_ib_wc_opcode_from_cqe op_code)) op_status (cqe_rdma_len c) (cqe_imm_data c)
    (qi_key qp) (qi_rqp_key qp) (ntrdma_ib_wc_flags_from_cqe op_code).

(** A completion is reported unless it is that of an unsignalled push. *)
Definition wc_reported (c : ntrdma_cqe) : bool :=
  negb (ntrdma_wr_code_push_data (cqe_op_code c))
  || negb (Z.land (cqe_flags c) IB_SEND_SIGNALED =? 0).

(** ** The rings that are polled *)

(** [struct ntrdma_poll]: the three functions of a ring, and the queue pair
    that the first of them hands out.  [S] is the state of all queue pairs;
    [None] an access outside of an array. *)
Class Poll (P S : Type) := {
  poll_start_and_get : P → S → option (Z * range * S);
  poll_put_and_done : P → Z → Z → S → option S;
  poll_cqe : P → ntrdma_cqe → Z → S → option (ntrdma_cqe * S);
  poll_qp : P → S → qp_info;
  poll_room : P → S → nat }.

(** ** The completion queue *)

Record ntrdma_cq {P : Type} := mk_cq {
  cq_ibcq_valid : bool;
  cq_arm : Z;
  cq_need_cue : bool;
  cq_vbell : nat;
  cq_poll_list : list P }.
Arguments ntrdma_cq : clear implicits.
Arguments mk_cq {P} _ _ _ _ _.

Section Code.
Context {P S : Type}.

Definition cq_set_poll_list (l : list P) (cq : ntrdma_cq P) : ntrdma_cq P :=
  mk_cq (cq_ibcq_valid cq) (cq_arm cq) (cq_need_cue cq) (cq_vbell cq) l.
Definition cq_set_arm (arm : Z) (need_cue : bool) (cq : ntrdma_cq P) : ntrdma_cq P :=
  mk_cq (cq_ibcq_valid cq) arm need_cue (cq_vbell cq) (cq_poll_list cq).

(** The list is empty, [arm] and [need_cue] are set by the second function. *)
Definition ntrdma_cq_init (cq : ntrdma_cq P) : ntrdma_cq P := cq_set_poll_list [] cq.

Definition ntrdma_cq_vbell_init (vbell : nat) (idx : nat) (cq : ntrdma_cq P) (s : vbells)
  : ntrdma_cq P * vbells :=
  (mk_cq (cq_ibcq_valid cq) 0 false vbell (cq_poll_list cq),
   vs_set_bell vbell (ntrdma_vbell_init idx) s).

Fixpoint ntrdma_cq_arm_resync (cqs : list (ntrdma_cq P)) (s : vbells) : vbells :=
  match cqs with
  | [] => s
  | cq :: cqs =>
      ntrdma_cq_arm_resync cqs
        (if negb (cq_arm cq =? 0) then snd (ntrdma_vbell_add_clear (cq_vbell cq) s) else s)
  end.

Definition ntrdma_cq_vbell_kill (cq : ntrdma_cq P) (s : vbells)
  : ntrdma_cq P * vbells * list vbell_effect :=
  let '(s, effs) := ntrdma_tasklet_vbell_kill (cq_vbell cq) s in
  (cq_set_arm 0 false cq, s, effs).

(** The part of [ntrdma_cq_arm] under the lock; the first result says whether
    the queue is to be cued, which happens after the lock is released. *)
Definition ntrdma_cq_arm (cq : ntrdma_cq P) (s : vbells) : bool * ntrdma_cq P * vbells :=
  let '(_, s) := ntrdma_vbell_readd (cq_vbell cq) s in
  (cq_need_cue cq, cq_set_arm (u32 (cq_arm cq + 1)) false cq, s).

(** The first result counts the calls of the handler of the application. *)
Definition ntrdma_cq_cue (cq : ntrdma_cq P) : Z * ntrdma_cq P :=
  if negb (cq_ibcq_valid cq) then (0, cq)
  else (cq_arm cq, cq_set_arm 0 (if cq_arm cq =? 0 then true else cq_need_cue cq) cq).

Definition ntrdma_cq_add_poll (p : P) (cq : ntrdma_cq P) : ntrdma_cq P :=
  cq_set_poll_list (cq_poll_list cq ++ [p]) cq.

Definition ntrdma_cq_del_poll `{!EqDecision P} (p : P) (cq : ntrdma_cq P) : ntrdma_cq P :=
  cq_set_poll_list (filter (λ x, x ≠ p) (cq_poll_list cq)) cq.

(** ** Polling *)

Context `{!Poll P S}.

(** [seen] are the rings before the current one in the list.  A ring that has
    something becomes the last one. *)
Fixpoint cmpl_get_loop (seen l : list P) (s : S) : option (Z * option range * list P * S) :=
  match l with
  | [] => Some (- EAGAIN, None, seen, s)
  | p :: l =>
      match poll_start_and_get p s with
      | None => None
      | Some (rc, r, s) =>
          if rc =? - EAGAIN then cmpl_get_loop (seen ++ [p]) l s
          else Some (rc, Some r, l ++ seen ++ [p], s)
      end
  end.

Definition ntrdma_cq_cmpl_get (cq : ntrdma_cq P) (s : S) : option (Z * option range * ntrdma_cq P * S) :=
  match cmpl_get_loop [] (cq_poll_list cq) s with
  | None => None
  | Some (rc, r, l, s) => Some (rc, r, cq_set_poll_list l cq, s)
  end.

Definition ntrdma_cq_cmpl_put (cq : ntrdma_cq P) (pos base : Z) (s : S) : option S :=
  match list.last (cq_poll_list cq) with
  | None => None
  | Some p => poll_put_and_done p pos base s
  end.

Definition ntrdma_cq_cmpl_cqe (cq : ntrdma_cq P) (out : ntrdma_cqe) (pos : Z) (s : S)
  : option (ntrdma_cqe * S) :=
  match list.last (cq_poll_list cq) with
  | None => None
  | Some p => poll_cqe p out pos s
  end.

(** The queue pair handed out with a range. *)
Definition cmpl_qp (cq : ntrdma_cq P) (s : S) : option qp_info :=
  match list.last (cq_poll_list cq) with
  | None => None
  | Some p => Some (poll_qp p s)
  end.

Section Verbs.
(** The two verbs differ in the form of a work completion and in the codes
    that end the loop. *)
Context {WC : Type} (wc_from_cqe : qp_info → ntrdma_cqe → WC) (stop : Z → bool).

(** The entries of a range; [out] is the variable [cqe].  [fuel] is their
    number. *)
Fixpoint poll_entries (fuel : nat) (howmany pos end_ : Z) (cq : ntrdma_cq P) (out : ntrdma_cqe) (s : S)
    (wcs : list WC) : option (Z * list WC * ntrdma_cqe * S) :=
  match fuel with
  | O => None
  | Datatypes.S fuel =>
      match cmpl_qp cq s, ntrdma_cq_cmpl_cqe cq out pos s with
      | Some qp, Some (cqe, s) =>
          let wcs := if wc_reported cqe then wcs ++ [wc_from_cqe qp cqe] else wcs in
          let pos := pos + 1 in
          if (Z.of_nat (length wcs) =? howmany) || (pos =? end_) then Some (pos, wcs, cqe, s)
          else poll_entries fuel howmany pos end_ cq cqe s wcs
      | _, _ => None
      end
  end.

(** [rc] is the code of the pass before. *)
Fixpoint poll_ranges (fuel : nat) (howmany : Z) (rc : Z) (cq : ntrdma_cq P) (out : ntrdma_cqe) (s : S)
    (wcs : list WC) : option (Z * list WC * ntrdma_cq P * S) :=
  match fuel with
  | O => None
  | Datatypes.S fuel =>
      if negb (Z.of_nat (length wcs) <? howmany) then Some (rc, wcs, cq, s)
      else
        match ntrdma_cq_cmpl_get cq s with
        | None => None
        | Some (rc, r, cq, s) =>
            if stop rc then Some (rc, wcs, cq, s)
            else
              match r with
              | None => None
              | Some r =>
                  match poll_entries (Z.to_nat (r_end r - r_idx r)) howmany (r_idx r) (r_end r) cq out s wcs with
                  | None => None
                  | Some (pos, wcs, out, s) =>
                      match ntrdma_cq_cmpl_put cq pos (r_base r) s with
                      | None => None
                      | Some s => poll_ranges fuel howmany rc cq out s wcs
                      end
                  end
              end
        end
  end.

(** Every pass polls an entry, and there are not more of them than the rings
    have room for. *)
Definition poll_fuel (cq : ntrdma_cq P) (s : S) : nat :=
  Datatypes.S (sum_list ((λ p, poll_room p s) <$> cq_poll_list cq)).

End Verbs.

(** [out] is the variable [cqe], which is not initialised. *)
Definition ntrdma_poll_cq (howmany : Z) (out : ntrdma_cqe) (cq : ntrdma_cq P) (s : S)
  : option (Z * list ib_wc * ntrdma_cq P * S) :=
  match poll_ranges ntrdma_ib_wc_from_cqe (λ rc, negb (rc =? 0)) (poll_fuel cq s) howmany 0 cq out s [] with
  | None => None
  | Some (rc, wcs, cq, s) =>
      let count := Z.of_nat (length wcs) in
      Some (if negb (count =? 0) then count else if (rc =? - EAGAIN) || (0 <? rc) then 0 else rc,
            wcs, cq, s)
  end.

Definition PAGE_SIZE : Z := 4096.
Definition sizeof_poll_hdr : Z := 4.
Definition sizeof_ibv_wc : Z := 48.

(** [page] is the counter in the header of the page, if there is a page; the
    results are the code, the new counter and the completions written. *)
Definition ntrdma_cq_process_poll_ioctl (page : option Z) (out : ntrdma_cqe) (cq : ntrdma_cq P) (s : S)
  : option (Z * option Z * list ntrdma_ibv_wc * ntrdma_cq P * S) :=
  match page with
  | None => Some (- EINVAL, None, [], cq, s)
  | Some howmany =>
      if (PAGE_SIZE - sizeof_poll_hdr) / sizeof_ibv_wc <? howmany then Some (- EINVAL, page, [], cq, s)
      else
        match poll_ranges ntrdma_wc_from_cqe (λ rc, rc <? 0) (poll_fuel cq s) howmany 0 cq out s [] with
        | None => None
        | Some (rc, wcs, cq, s) =>
            let count := Z.of_nat (length wcs) in
            Some (if negb (count =? 0) then 0 else if (rc =? - EAGAIN) || (0 <? rc) then 0 else rc,
                  Some count, wcs, cq, s)
        end
  end.

(** The verb that asks for the next notification. *)
Definition ntrdma_req_notify_cq (cq : ntrdma_cq P) (s : vbells) : bool * ntrdma_cq P * vbells :=
  ntrdma_cq_arm cq s.

End Code.

End Cq.
