(* ===== verification/CqPoll.v ===== *)
(** * Polling a completion queue

    What a ring promises to a completion queue, that the verbs then report the
    completions of every ring in order and leave nothing behind, and the rings
    of the queue pairs as an instance. *)

From stdpp Require Import gmap.
From S2P Require Import Prelude Kernel Ring Wire Ntc Wr Mem Zip Vbell Mm Buf Qp QpRun QpPoll Cq.
Import Ring Wire Ntc Wr Mem Zip Vbell Mm Buf Qp QpRun QpPoll Cq.

Module CqPoll.

(** ** The promise of a ring

    [view p todo n s]: the requests [todo] of ring [p] wait to be polled, [n]
    of them can be polled now.  [taken p todo n r j s]: the range [r] was
    handed out, and [j] of its entries were polled. *)

Definition keeps {P S E : Type} `{!Poll P S} (view : P → list E → nat → S → Prop) (p : P) (s s' : S) : Prop :=
  (∀ p' todo n, p' ≠ p → view p' todo n s → view p' todo n s')
  ∧ (∀ p', poll_qp p' s' = poll_qp p' s).

Class PollOk {P S : Type} (E : Type) `{!Poll P S} := {
  matches : E → ntrdma_cqe → Prop;
  view : P → list E → nat → S → Prop;
  taken : P → list E → nat → range → nat → S → Prop;
  view_room p todo n s : view p todo n s → (n ≤ length todo ≤ poll_room p s)%nat;
  start_ok p todo n s : view p todo n s →
    ∃ rc r s' n', poll_start_and_get p s = Some (rc, r, s') ∧ (n ≤ n')%nat ∧ keeps view p s s'
      ∧ if (n' =? 0)%nat then rc = - EAGAIN ∧ view p todo 0 s'
        else rc = 0 ∧ taken p todo n' r 0 s' ∧ r_idx r < r_end r;
  cqe_ok p todo n r j s out : taken p todo n r j s → r_idx r + Z.of_nat j < r_end r →
    ∃ c s' e, poll_cqe p out (r_idx r + Z.of_nat j) s = Some (c, s') ∧ todo !! j = Some e
      ∧ matches e c ∧ taken p todo n r (Datatypes.S j) s' ∧ keeps view p s s';
  put_ok p todo n r j s : taken p todo n r j s →
    ∃ s', poll_put_and_done p (r_idx r + Z.of_nat j) (r_base r) s = Some s'
      ∧ view p (drop j todo) (n - j) s' ∧ keeps view p s s' }.

Section Generic.
Context {P S E : Type} `{!EqDecision P, !Poll P S, !PollOk E (P := P) (S := S)}.
Implicit Types (s : S) (todo : P → list E) (av : P → nat).

#[local] Instance keeps_refl p : Reflexive (keeps (view (E := E)) p).
Proof. intros s. by split. Qed.

#[local] Instance keeps_trans p : Transitive (keeps (view (E := E)) p).
Proof.
  intros s1 s2 s3 [H1 I1] [H2 I2]. split; [|intros p'; by rewrite I2]. intros p' todo n Hne Hv.
  apply H2, H1; done.
Qed.

(** ** The next ring with something to poll *)

Lemma cmpl_get_ok l : ∀ seen s todo av,
  NoDup (seen ++ l) → (∀ p, p ∈ seen ++ l → view p (todo p) (av p) s) → (∀ p, p ∈ seen → av p = 0%nat) →
  ∃ rc r l' s' av', cmpl_get_loop seen l s = Some (rc, r, l', s') ∧ l' ≡ₚ seen ++ l
    ∧ (∀ p, poll_qp p s' = poll_qp p s) ∧ (∀ p, av p ≤ av' p)%nat
    ∧ ((rc = - EAGAIN ∧ ∀ p, p ∈ seen ++ l → av' p = 0%nat ∧ view p (todo p) 0 s')
       ∨ ∃ p r0, rc = 0 ∧ r = Some r0 ∧ list.last l' = Some p ∧ p ∈ seen ++ l
           ∧ taken p (todo p) (av' p) r0 0 s' ∧ r_idx r0 < r_end r0
           ∧ ∀ p', p' ∈ seen ++ l → p' ≠ p → view p' (todo p') (av' p') s').
Proof.
  induction l as [|p l IH]; intros seen s todo av Hnd Hv Hseen.
  - exists (- EAGAIN), None, seen, s, av. rewrite app_nil_r in *. split; [done|]. split; [done|]. split; [done|].
    split; [done|]. left. split; [done|]. intros p Hp. pose proof (Hv p Hp) as H.
    rewrite (Hseen p Hp) in *. done.
  - cbn [cmpl_get_loop]. assert (p ∈ seen ++ p :: l) as Hp by set_solver.
    destruct (start_ok p (todo p) (av p) s (Hv p Hp)) as (rc & r & s1 & n' & Hst & Hn & Hk & Hcase).
    rewrite Hst. set (av1 := λ x, if decide (x = p) then n' else av x).
    assert (∀ x, (av x ≤ av1 x)%nat) as Hav1 by (intros x; unfold av1; case_decide; subst; lia).
    assert (∀ p', p' ∈ seen ++ p :: l → p' ≠ p → view p' (todo p') (av1 p') s1) as Hothers.
    { intros p' Hp' Hne. unfold av1. rewrite decide_False by done. apply Hk; auto. }
    assert (av1 p = n') as Hp1 by (unfold av1; by rewrite decide_True).
    destruct (Nat.eqb_spec n' 0) as [->|Hpos].
    + destruct Hcase as [-> Hvp]. change (- EAGAIN =? - EAGAIN) with true. cbv iota.
      destruct (IH (seen ++ [p]) s1 todo av1) as (rc & r' & l' & s' & av' & Hg & Hperm & Hq & Hle & Hc).
      { by rewrite <- app_assoc. }
      { rewrite <- app_assoc. cbn [app]. intros x Hx. destruct (decide (x = p)) as [->|Hne]; [by rewrite Hp1|auto]. }
      { intros x [Hx|Hx%list_elem_of_singleton]%elem_of_app; [|by subst].
        unfold av1. case_decide; [done|auto]. }
      rewrite <- app_assoc in *. cbn [app] in *. exists rc, r', l', s', av'. split; [done|]. split; [done|].
      split; [intros x; rewrite Hq; apply Hk|]. split; [|done]. intros x. etrans; [apply Hav1|apply Hle].
    + destruct Hcase as (-> & Ht & Hr). change (0 =? - EAGAIN) with false. cbv iota.
      exists 0, (Some r), (l ++ seen ++ [p]), s1, av1. split; [done|]. split; [solve_Permutation|].
      split; [apply Hk|]. split; [done|]. right. exists p, r. rewrite Hp1.
      split; [done|]. split; [done|]. split; [|done]. by rewrite app_assoc, last_snoc.
Qed.

(** ** The entries of a range *)

Context {WC : Type} (conv : qp_info → ntrdma_cqe → WC).

Definition report (s : S) (p : P) (l : list ntrdma_cqe) : list WC :=
  conv (poll_qp p s) <$> filter (λ c, wc_reported c = true) l.

Lemma poll_entries_ok p (td : list E) n r cq fuel : ∀ j s out wcs howmany,
  list.last (cq_poll_list cq) = Some p → taken p td n r j s →
  r_idx r + Z.of_nat j < r_end r → fuel = Z.to_nat (r_end r - (r_idx r + Z.of_nat j)) →
  Z.of_nat (length wcs) < howmany →
  ∃ (l : list ntrdma_cqe) out' s', poll_entries conv fuel howmany (r_idx r + Z.of_nat j) (r_end r) cq out s wcs
      = Some (r_idx r + Z.of_nat (j + length l), wcs ++ report s p l, out', s')
    ∧ (0 < length l)%nat ∧ (length l ≤ length td - j)%nat ∧ Forall2 matches (take (length l) (drop j td)) l
    ∧ taken p td n r (j + length l) s'
    ∧ keeps view p s s' ∧ Z.of_nat (length (wcs ++ report s p l)) <= howmany.
Proof.
  induction fuel as [|fuel IH]; intros j s out wcs howmany Hlast Ht Hj Hfuel Hw; [lia|].
  cbn [poll_entries]. unfold cmpl_qp, ntrdma_cq_cmpl_cqe. rewrite Hlast.
  destruct (cqe_ok p td n r j s out Ht Hj) as (c & s1 & e & Hc & He & Hm & Ht1 & Hk1). rewrite Hc.
  pose proof (lookup_lt_Some _ _ _ He) as Hlt.
  set (wcs1 := if wc_reported c then _ else _).
  assert (wcs1 = wcs ++ report s p [c]) as Hwcs1.
  { unfold wcs1, report. destruct (wc_reported c) eqn:Hrep.
    - by rewrite filter_cons_True.
    - rewrite filter_cons_False, app_nil_r by congruence. done. }
  assert (Z.of_nat (length wcs1) <= howmany) as Hle.
  { unfold wcs1. destruct (wc_reported c); rewrite ?length_app; cbn [length]; lia. }
  clearbody wcs1.
  replace (r_idx r + Z.of_nat j + 1) with (r_idx r + Z.of_nat (Datatypes.S j)) by lia.
  assert (Forall2 matches (take 1 (drop j td)) [c]) as Hm1.
  { rewrite (drop_S _ _ _ He). cbn. by constructor. }
  destruct (_ || _) eqn:Hstop.
  - exists [c], c, s1. cbn [length]. replace (j + 1)%nat with (Datatypes.S j) by lia. rewrite Hwcs1 in *.
    split; [done|]. split; [lia|]. split; [lia|]. done.
  - apply orb_false_iff in Hstop as [Hne1%Z.eqb_neq Hne2%Z.eqb_neq].
    destruct (IH (Datatypes.S j) s1 c wcs1 howmany Hlast Ht1) as (l & out' & s' & Hl & Hpos & Hlen & Hml & Ht' & Hk' & Hle');
      [lia|lia|lia|].
    rewrite Hl. exists (c :: l), out', s'. cbn [length].
    assert (wcs1 ++ report s1 p l = wcs ++ report s p (c :: l)) as Heq.
    { rewrite Hwcs1, <- app_assoc. f_equal. unfold report. rewrite (proj2 Hk1), <- fmap_app, <- list.filter_app. done. }
    rewrite Heq in *.
    replace (j + Datatypes.S (length l))%nat with (Datatypes.S j + length l)%nat by lia.
    split; [done|]. split; [lia|]. split; [lia|]. split; [|split; [done|split; [by etrans|done]]].
    rewrite (drop_S _ _ _ He). cbn [take]. by constructor.
Qed.

(** ** All ranges *)

(** The completions that were polled from ring [p]. *)
Definition of_ring (p : P) (log : list (P * ntrdma_cqe)) : list ntrdma_cqe := (filter (λ x, x.1 = p) log).*2.

Definition reports (s : S) (log : list (P * ntrdma_cqe)) : list WC :=
  (λ x, conv (poll_qp x.1 s) x.2) <$> filter (λ x, wc_reported x.2 = true) log.

Lemma reports_app s log1 log2 : reports s (log1 ++ log2) = reports s log1 ++ reports s log2.
Proof. unfold reports. by rewrite list.filter_app, fmap_app. Qed.

Lemma reports_ring s p l : reports s (pair p <$> l) = report s p l.
Proof.
  unfold reports, report. induction l as [|c l IH]; [done|]. cbn [fmap list_fmap].
  destruct (wc_reported c) eqn:Hc.
  - rewrite filter_cons_True by done. rewrite (filter_cons_True _ c) by done. cbn. by rewrite <- IH.
  - rewrite filter_cons_False by (cbn; congruence). by rewrite (filter_cons_False _ c) by congruence.
Qed.

Lemma reports_same s s' log : (∀ p, poll_qp p s' = poll_qp p s) → reports s' log = reports s log.
Proof. intros H. unfold reports. apply list_fmap_ext. intros ? x _. by rewrite H. Qed.

Lemma of_ring_app p log1 log2 : of_ring p (log1 ++ log2) = of_ring p log1 ++ of_ring p log2.
Proof. unfold of_ring. by rewrite list.filter_app, fmap_app. Qed.

Lemma of_ring_pair p q l : of_ring p (pair q <$> l) = if decide (p = q) then l else [].
Proof.
  unfold of_ring. induction l as [|c l IH]; [by case_decide|]. cbn [fmap list_fmap].
  case_decide as Hd; [subst q; rewrite filter_cons_True by done|rewrite filter_cons_False by (cbn; congruence)].
  - cbn. by rewrite IH.
  - done.
Qed.

(** A ring after [log] was polled from it. *)
Definition ring_polled (todo : P → list E) (av : P → nat) (log : list (P * ntrdma_cqe)) (left : P → nat) (s : S)
    (p : P) : Prop :=
  let k := length (of_ring p log) in
  Forall2 matches (take k (todo p)) (of_ring p log) ∧ view p (drop k (todo p)) (left p) s
  ∧ (av p ≤ k + left p)%nat.

Lemma ring_polled_step todo av log1 log2 left s p :
  let k := length (of_ring p log1) in
  Forall2 matches (take k (todo p)) (of_ring p log1) →
  ring_polled (λ x, drop (length (of_ring x log1)) (todo x)) (λ x, av x - length (of_ring x log1))%nat
    log2 left s p →
  ring_polled todo av (log1 ++ log2) left s p.
Proof.
  intros k H1 (H2 & Hv & Ha). unfold ring_polled. rewrite of_ring_app, length_app. fold k in H2, Hv, Ha |- *.
  rewrite <- take_take_drop. split; [|split].
  - by apply Forall2_app.
  - by rewrite drop_drop in Hv.
  - lia.
Qed.

Lemma sum_list_less {A} (f g : A → nat) (l : list A) x :
  x ∈ l → (∀ y, f y ≤ g y)%nat → (f x < g x)%nat → (sum_list (f <$> l) < sum_list (g <$> l))%nat.
Proof.
  intros Hx Hle Hlt. induction l as [|y l IH]; [by apply not_elem_of_nil in Hx|].
  apply elem_of_cons in Hx as [<-|Hx]; cbn.
  - assert (sum_list (f <$> l) ≤ sum_list (g <$> l))%nat; [|lia].
    clear -Hle. induction l as [|y l IH]; cbn; [done|]. pose proof (Hle y). lia.
  - specialize (IH Hx). pose proof (Hle y). lia.
Qed.

Lemma sum_list_perm {A} (f : A → nat) (l l' : list A) : l ≡ₚ l' → sum_list (f <$> l) = sum_list (f <$> l').
Proof. induction 1; cbn; lia. Qed.

(** The loop ends, with the fuel of all requests that wait. *)
Lemma poll_ranges_ok stop fuel : ∀ howmany rc0 cq out s wcs todo av,
  stop 0 = false → stop (- EAGAIN) = true → rc0 = 0 →
  NoDup (cq_poll_list cq) → (∀ p, p ∈ cq_poll_list cq → view p (todo p) (av p) s) →
  (sum_list ((λ p, length (todo p)) <$> cq_poll_list cq) < fuel)%nat → Z.of_nat (length wcs) <= howmany →
  ∃ rc log l' s' left, poll_ranges conv stop fuel howmany rc0 cq out s wcs
      = Some (rc, wcs ++ reports s log, cq_set_poll_list l' cq, s')
    ∧ (rc = 0 ∨ rc = - EAGAIN) ∧ l' ≡ₚ cq_poll_list cq
    ∧ Z.of_nat (length (wcs ++ reports s log)) <= howmany
    ∧ (∀ p, p ∈ cq_poll_list cq → ring_polled todo av log left s' p)
    ∧ (Z.of_nat (length (wcs ++ reports s log)) < howmany → ∀ p, p ∈ cq_poll_list cq → left p = 0%nat)
    ∧ Forall (λ x, x.1 ∈ cq_poll_list cq) log ∧ (∀ p, poll_qp p s' = poll_qp p s).
Proof.
  induction fuel as [|fuel IH]; intros howmany rc0 cq out s wcs todo av Hs0 Hs1 -> Hnd Hv Hfuel Hw; [lia|].
  cbn [poll_ranges]. destruct (Z.ltb_spec (Z.of_nat (length wcs)) howmany) as [Hlt|Hge]; cbn [negb].
  2: { exists 0, [], (cq_poll_list cq), s, av. change (reports s []) with (@nil WC). rewrite app_nil_r.
       split; [by destruct cq|]. split; [by left|]. split; [done|]. split; [done|].
       split; [|split; [lia|done]]. intros p Hp. unfold ring_polled, of_ring. cbn. auto. }
  unfold ntrdma_cq_cmpl_get.
  destruct (cmpl_get_ok (cq_poll_list cq) [] s todo av) as
    (rc & r & l' & s1 & av1 & Hg & Hperm & Hq1 & Hle1 & Hcase); [done|done|set_solver|]. rewrite Hg. cbn [app] in *.
  destruct Hcase as [[-> Hall]|(p & r0 & -> & -> & Hlast & Hp & Ht & Hr & Hoth)].
  - rewrite Hs1. exists (- EAGAIN), [], l', s1, av1. change (reports s []) with (@nil WC). rewrite app_nil_r.
    split; [done|]. split; [by right|]. split; [done|]. split; [done|].
    split; [|split; [intros _ x Hx; by apply Hall|done]].
    intros x Hx. destruct (Hall x Hx) as [Hz Hvx]. unfold ring_polled, of_ring. cbn. rewrite Hz.
    split; [done|]. split; [done|]. pose proof (Hle1 x). lia.
  - rewrite Hs0.
    destruct (poll_entries_ok p (todo p) (av1 p) r0 (cq_set_poll_list l' cq)
      (Z.to_nat (r_end r0 - r_idx r0)) 0 s1 out wcs howmany) as
      (l & out' & s2 & Hl & Hpos & Hlen & Hm & Ht2 & Hk2 & Hw2); [done|done|lia|f_equal; lia|done|].
    rewrite Z.add_0_r in Hl. cbn [Nat.add] in *. rewrite drop_0 in Hm. rewrite Hl.
    destruct (put_ok p (todo p) (av1 p) r0 (length l) s2 Ht2) as (s3 & Hput & Hvp & Hk3).
    unfold ntrdma_cq_cmpl_put. cbn [cq_poll_list cq_set_poll_list]. rewrite Hlast, Hput.
    assert (report s1 p l = reports s (pair p <$> l)) as Hrep.
    { rewrite reports_ring. unfold report. by rewrite Hq1. }
    rewrite Hrep in *. set (log1 := pair p <$> l) in *. set (wcs1 := wcs ++ reports s log1) in *.
    assert (∀ x, poll_qp x s3 = poll_qp x s) as Hq3.
    { intros x. rewrite (proj2 Hk3), (proj2 Hk2). apply Hq1. }
    assert (∀ x, of_ring x log1 = if decide (x = p) then l else []) as Hring by (intros x; apply of_ring_pair).
    set (todo1 := λ x, drop (length (of_ring x log1)) (todo x)).
    set (av2 := λ x, (av1 x - length (of_ring x log1))%nat).
    destruct (IH howmany 0 (cq_set_poll_list l' cq) out' s3 wcs1 todo1 av2) as
      (rc & log2 & l2 & s' & left & Hrun & Hrc & Hperm2 & Hw' & Hpoll & Hshort & Hin & Hq'); try done.
    { cbn. by rewrite Hperm. }
    { cbn. intros x. rewrite Hperm. intros Hx. unfold todo1, av2. rewrite Hring.
      destruct (decide (x = p)) as [->|Hne]; [done|]. rewrite drop_0, Nat.sub_0_r.
      apply Hk3; [done|]. apply Hk2; [done|]. auto. }
    { cbn. rewrite (sum_list_perm _ _ _ Hperm).
      enough (sum_list ((λ x, length (todo1 x)) <$> cq_poll_list cq)
              < sum_list ((λ x, length (todo x)) <$> cq_poll_list cq))%nat by lia.
      apply (sum_list_less _ _ _ p); [done| |]; unfold todo1.
      - intros y. rewrite length_drop. lia.
      - rewrite length_drop, Hring, decide_True by done. lia. }
    cbn [cq_poll_list cq_set_poll_list] in *.
    exists rc, (log1 ++ log2), l2, s', left. rewrite Hrun. unfold wcs1 in *.
    rewrite (reports_same s s3), <- (app_assoc wcs), <- reports_app in * by done.
    split; [done|]. split; [done|]. split; [by rewrite Hperm2|]. split; [done|].
    split; [|split; [|split]].
    + intros x Hx. assert (ring_polled todo1 av2 log2 left s' x) as Hx2 by (apply Hpoll; by rewrite Hperm).
      apply ring_polled_step.
      * rewrite Hring. case_decide; [subst x|]; done.
      * destruct Hx2 as (?&?&Ha). split; [done|]. split; [done|]. unfold av2 in Ha. pose proof (Hle1 x). lia.
    + intros Hsh x Hx. apply Hshort; [done|]. by rewrite Hperm.
    + apply list.Forall_app. split.
      * apply list.Forall_forall. intros x (c & -> & _)%list_elem_of_fmap. exact Hp.
      * apply list.Forall_forall. intros x Hx. rewrite <- Hperm. by apply (proj1 (list.Forall_forall _ _) Hin).
    + intros x. rewrite Hq'. apply Hq3.
Qed.

Lemma poll_fuel_ok cq s todo av :
  (∀ p, p ∈ cq_poll_list cq → view p (todo p) (av p) s) →
  (sum_list ((λ p, length (todo p)) <$> cq_poll_list cq) < poll_fuel cq s)%nat.
Proof.
  intros Hv. unfold poll_fuel. apply Nat.lt_succ_r. induction (cq_poll_list cq) as [|p l IH]; cbn; [done|].
  pose proof (view_room p _ _ _ (Hv p ltac:(set_solver))).
  assert (sum_list ((λ p, length (todo p)) <$> l) ≤ sum_list ((λ p, poll_room p s) <$> l))%nat; [|lia].
  apply IH. intros x Hx. apply Hv. set_solver.
Qed.

End Generic.

(** ** The rings of the queue pairs *)

(** A ring is named by its queue pair and its side. *)
Inductive poller := SendPoll (i : nat) | RecvPoll (i : nat).

#[export] Instance poller_eq_dec : EqDecision poller.
Proof. solve_decision. Defined.

(** The queue pairs by name, and the world. *)
Record qps {W : Type} := mk_qps { qs_qps : gmap nat ntrdma_qp; qs_world : qp_world W }.
Arguments qps : clear implicits.
Arguments mk_qps {W} _ _.

Definition with_qp {W A : Type} (i : nat) (f : ntrdma_qp → qp_world W → option (A * ntrdma_qp * qp_world W))
    (s : qps W) : option (A * qps W) :=
  match qs_qps s !! i with
  | None => None
  | Some q =>
      match f q (qs_world s) with
      | None => None
      | Some (a, q, w) => Some (a, mk_qps (<[i := q]> (qs_qps s)) w)
      end
  end.

(** The functions that [ntrdma_qp_init] stores in the two [struct ntrdma_poll]
    of a queue pair. *)
Definition qp_poll_start_and_get {W} (p : poller) (s : qps W) : option (Z * range * qps W) :=
  match p with
  | SendPoll i => with_qp i (λ q w, let '(rc, r, q) := ntrdma_qp_poll_send_start_and_get q in Some ((rc, r), q, w)) s
  | RecvPoll i => with_qp i (λ q w, let '(rc, r, q) := ntrdma_qp_poll_recv_start_and_get q in Some ((rc, r), q, w)) s
  end.

Definition qp_poll_put_and_done {W} (p : poller) (pos base : Z) (s : qps W) : option (qps W) :=
  snd <$> match p with
  | SendPoll i => with_qp i (λ q w, Some (tt, ntrdma_qp_poll_send_put_and_done pos base q, w)) s
  | RecvPoll i => with_qp i (λ q w, Some (tt, ntrdma_qp_poll_recv_put_and_done pos base q, w)) s
  end.

Definition qp_poll_cqe {W} (ntc : ntc_dev) (p : poller) (out : ntrdma_cqe) (pos : Z) (s : qps W)
  : option (ntrdma_cqe * qps W) :=
  match p with
  | SendPoll i => with_qp i (λ q w, match ntrdma_qp_poll_send_cqe pos q with
                                    | Some (c, q) => Some (c, q, w) | None => None end) s
  | RecvPoll i => with_qp i (ntrdma_qp_poll_recv_cqe ntc out pos) s
  end.

Definition qp_poll_info {W} (p : poller) (s : qps W) : qp_info :=
  let i := match p with SendPoll i | RecvPoll i => i end in
  match qs_qps s !! i with
  | Some q => mk_info i (qp_key q) (qp_rqp_key q)
  | None => mk_info i 0 0
  end.

Definition qp_poll_room {W} (p : poller) (s : qps W) : nat :=
  match p with
  | SendPoll i => match qs_qps s !! i with Some q => Z.to_nat (sq_cap (qp_send q)) | None => 0%nat end
  | RecvPoll i => match qs_qps s !! i with Some q => Z.to_nat (rq_cap (qp_recv q)) | None => 0%nat end
  end.

Definition qp_poll {W} (ntc : ntc_dev) : Poll poller (qps W) :=
  {| poll_start_and_get := qp_poll_start_and_get; poll_put_and_done := qp_poll_put_and_done;
     poll_cqe := qp_poll_cqe ntc; poll_qp := qp_poll_info; poll_room := qp_poll_room |}.

Section Rings.
Context {W : Type} (ntc : ntc_dev).
Implicit Types (s : qps W).

(** Shadows can be freed: the memory window is mapped whole, or the allocator
    knows the sizes. *)
Definition frees (b : buf_world) : Prop :=
  ∃ dram, own_mw ntc NTC_DRAM_MW_IDX = Some dram
    ∧ (is_flat dram = true ∨ ∀ c f, mm_fixed (bw_mm b) !! c = Some f → fm_magic f = FIXED_MAGIC).

Definition freeable (sg : ntrdma_wr_rcv_sge) : Prop :=
  match sg with
  | RcvSge _ => True
  | RcvShadow sh _ => is_Some (_ntc_mm_chunk_size (s32 (eb_size (sh_exp_buf sh))))
  end.

Definition recv_slots_ok (q : ntrdma_qp) : Prop :=
  Z.of_nat (length (rq_cqes (qp_recv q))) = rq_cap (qp_recv q)
  ∧ Forall (λ r, Forall freeable (rw_rcv_sg_list r)) (rq_wqes (qp_recv q)).

Lemma export_free_ok b bw :
  frees bw → is_Some (_ntc_mm_chunk_size (s32 (eb_size b))) →
  ∃ b' bw', ntc_export_buf_free ntc b bw = Some (b', bw') ∧ frees bw'.
Proof.
  intros (dram & Hd & Hm) [c Hc]. unfold ntc_export_buf_free. rewrite Hd.
  set (bw1 := if _ && _ then _ else _). assert (bw_mm bw1 = bw_mm bw) as Hbw by (unfold bw1; by destruct (_ && _)).
  clearbody bw1.
  assert (∀ x, bw_mm x = bw_mm bw → frees x) as Hsame by (intros x Hx; exists dram; by rewrite Hx).
  destruct (eb_ptr b =? 0); cbn [negb]; [eauto|].
  destruct (is_flat dram) eqn:Hflat; cbn [negb].
  - eexists _, _. split; [done|]. apply Hsame. unfold kfree_ptr. destruct (eb_ptr b =? 0); exact Hbw.
  - destruct Hm as [|Hm]; [done|]. rewrite Hbw. unfold ntc_mm_free. rewrite Hc.
    destruct (mm_fixed (bw_mm bw) !! c) as [f|] eqn:Hf.
    + rewrite (Hm _ _ Hf), Z.eqb_refl. cbn. eexists _, _. split; [done|].
      exists dram. split; [done|]. right. cbn. intros c' f' [[-> <-]|[_ Hf']]%lookup_insert_Some; [|by eapply Hm].
      cbn. by eapply Hm.
    + eexists _, _. split; [done|]. exists dram. split; [done|]. right. done.
Qed.

Lemma cleanup_loop_total l : ∀ (w : qp_world W),
  Forall freeable l → frees (qw_bufs w) →
  ∃ l' w', recv_cleanup_loop ntc l w = Some (l', w') ∧ Forall freeable l' ∧ frees (qw_bufs w').
Proof.
  induction l as [|[sg|sh d] l IH]; intros w Hl Hw; cbn [recv_cleanup_loop]; [eauto| |].
  - apply Forall_cons_1 in Hl as [_ Hl]. destruct (IH w Hl Hw) as (l' & w' & -> & Hl' & Hw').
    eexists _, _. split; [done|]. split; [|done]. by constructor.
  - apply Forall_cons_1 in Hl as [Hsh Hl]. destruct (export_free_ok _ _ Hw Hsh) as (b' & bw' & -> & Hbw).
    destruct (IH (mk_qw (qw_zip w) (qw_vb w) bw' (qw_shadows w - 1)) Hl Hbw) as (l' & w' & -> & Hl' & Hw').
    eexists _, _. split; [done|]. split; [|done]. by constructor.
Qed.

Lemma recv_fail_total old r st (w : qp_world W) :
  Forall freeable (rw_rcv_sg_list r) → frees (qw_bufs w) →
  ∃ c r' w', ntrdma_recv_fail ntc old r st w = Some (c, r', w')
    ∧ Forall freeable (rw_rcv_sg_list r') ∧ frees (qw_bufs w').
Proof.
  intros Hr Hw. unfold ntrdma_recv_fail, ntrdma_recv_wqe_cleanup.
  destruct (cleanup_loop_total (recv_sges r) w) as (l' & w' & -> & Hl' & Hw'); [by apply Forall_take|done|].
  eexists _, _, _. split; [done|]. split; [|done]. cbn. apply list.Forall_app. split; [done|]. by apply Forall_drop.
Qed.

Lemma poll_recv_cqe_total out pos q (w : qp_world W) :
  recv_slots_ok q → Z.of_nat (length (rq_wqes (qp_recv q))) = rq_cap (qp_recv q) →
  0 <= pos < rq_cap (qp_recv q) → frees (qw_bufs w) →
  ∃ c q' w', ntrdma_qp_poll_recv_cqe ntc out pos q w = Some (c, q', w')
    ∧ recv_slots_ok q' ∧ frees (qw_bufs w').
Proof.
  intros [Hl Hf] Hlw Hpos Hw. unfold ntrdma_qp_poll_recv_cqe.
  destruct (lookup_lt_is_Some_2 (rq_wqes (qp_recv q)) (Z.to_nat pos) ltac:(lia)) as [r Hr].
  destruct (lookup_lt_is_Some_2 (rq_cqes (qp_recv q)) (Z.to_nat pos) ltac:(lia)) as [c Hc]. rewrite Hr, Hc.
  pose proof (Forall_lookup_1 _ _ _ _ Hf Hr) as Hfr. cbn in Hfr.
  assert (∀ st f, ∃ c q' w',
    match ntrdma_recv_fail ntc out r st w with
    | Some (c, wqe, w) => Some (c, qp_set_flags f (qp_set_recv
        (rq_set_entries (<[Z.to_nat pos := wqe]> (rq_wqes (qp_recv q))) (rq_cqes (qp_recv q)) (qp_recv q)) q), w)
    | None => None
    end = Some (c, q', w') ∧ recv_slots_ok q' ∧ frees (qw_bufs w')) as Hfail.
  { intros st f. destruct (recv_fail_total out r st w Hfr Hw) as (c' & r' & w' & -> & Hr' & Hw').
    eexists _, _, _. split; [done|]. split; [|done]. split; [done|]. cbn. by apply Forall_insert. }
  destruct (recv_abort (qp_flags q)); [apply Hfail|].
  destruct (negb (rw_op_status r =? 0)); [apply Hfail|].
  destruct (negb (cqe_op_status c =? 0)); eexists _, _, _; (split; [done|]); split; done.
Qed.

(** *** Keys are not touched *)

Definition same_keys (q q' : ntrdma_qp) : Prop := qp_key q' = qp_key q ∧ qp_rqp_key q' = qp_rqp_key q.

Lemma send_start_keys q rc r q' : ntrdma_qp_poll_send_start_and_get q = (rc, r, q') → same_keys q q'.
Proof.
  unfold ntrdma_qp_poll_send_start_and_get, ntrdma_qp_send_cmpl_get. intros H.
  repeat case_match; simplify_eq; done.
Qed.

Lemma recv_start_keys q rc r q' : ntrdma_qp_poll_recv_start_and_get q = (rc, r, q') → same_keys q q'.
Proof.
  unfold ntrdma_qp_poll_recv_start_and_get, ntrdma_qp_recv_cmpl_get. intros H.
  repeat case_match; simplify_eq; done.
Qed.

Lemma send_cqe_keys pos q c q' : ntrdma_qp_poll_send_cqe pos q = Some (c, q') → same_keys q q'.
Proof. unfold ntrdma_qp_poll_send_cqe. intros H. repeat case_match; simplify_eq; done. Qed.

Lemma recv_cqe_keys out pos q w c q' (w' : qp_world W) :
  ntrdma_qp_poll_recv_cqe ntc out pos q w = Some (c, q', w') → same_keys q q'.
Proof. unfold ntrdma_qp_poll_recv_cqe. intros H. repeat case_match; simplify_eq; done. Qed.

(** *** What waits on a ring *)

Definition request : Type := ntrdma_send_wqe + ntrdma_recv_wqe.

Definition completes (e : request) (c : ntrdma_cqe) : Prop :=
  match e with inl e => cqe_of e c | inr e => rw_ulp_handle e = cqe_ulp_handle c end.

(** The ring of queue pair [q], in the terms of [QpPoll]: [C] of the posted
    requests were polled, [X] completions are there. *)
Definition send_view (q : ntrdma_qp) (C X : nat) (todo : list request) (n : nat) : Prop :=
  cap_ok (sq_cap (qp_send q)) ∧ n = (X - C)%nat
  ∧ ∃ ents, spoll (sq_cap (qp_send q)) C X ents q ∧ todo = inl <$> drop C ents.

Definition recv_view (q : ntrdma_qp) (C X : nat) (todo : list request) (n : nat) : Prop :=
  cap_ok (rq_cap (qp_recv q)) ∧ n = (X - C)%nat ∧ recv_slots_ok q
  ∧ ∃ rents, rpoll (rq_cap (qp_recv q)) C X rents q ∧ todo = inr <$> drop C rents.

Definition ring_view (p : poller) (todo : list request) (n C X : nat) (s : qps W) : Prop :=
  frees (qw_bufs (qs_world s))
  ∧ match p with
    | SendPoll i => ∃ q, qs_qps s !! i = Some q ∧ send_view q C X todo n
    | RecvPoll i => ∃ q, qs_qps s !! i = Some q ∧ recv_view q C X todo n
    end.

Definition ring_cap (p : poller) (s : qps W) : Z := Z.of_nat (qp_poll_room p s).

Definition qp_view (p : poller) (todo : list request) (n : nat) (s : qps W) : Prop :=
  ∃ C X, ring_view p todo n C X s.

Definition qp_taken (p : poller) (todo : list request) (n : nat) (r : range) (j : nat) (s : qps W) : Prop :=
  ∃ C X, ring_view p todo n C X s ∧ r = batch (cur (ring_cap p s) X C) ∧ r_idx r + Z.of_nat j <= r_end r.

#[local] Instance rings : Poll poller (qps W) := qp_poll ntc.

Definition poll_idx (p : poller) : nat := match p with SendPoll i | RecvPoll i => i end.

Lemma rpoll_ext cap C X rents q q' :
  qp_recv q' = qp_recv q → recv_abort (qp_flags q') = recv_abort (qp_flags q) →
  rpoll cap C X rents q → rpoll cap C X rents q'.
Proof. intros Hq Hf []. constructor; rewrite ?Hf, ?Hq; done. Qed.

Lemma spoll_ext cap C X ents q q' :
  qp_send q' = qp_send q → send_abort (qp_flags q') = send_abort (qp_flags q) →
  spoll cap C X ents q → spoll cap C X ents q'.
Proof. intros Hq Hf []. constructor; rewrite ?Hf, ?Hq; done. Qed.

Lemma recv_view_frame q q' C X todo n : poll_frame q q' → recv_view q C X todo n → recv_view q' C X todo n.
Proof.
  intros (Hr & _ & Hab & _) (Hc & Hn & Hs & rents & Hp & Ht). unfold recv_view, recv_slots_ok in *. rewrite Hr.
  split; [done|]. split; [done|]. split; [done|]. exists rents. split; [by eapply rpoll_ext|done].
Qed.

Lemma send_view_frame q q' C X todo n : rpoll_frame q q' → send_view q C X todo n → send_view q' C X todo n.
Proof.
  intros (Hr & _ & Hab & _) (Hc & Hn & rents & Hp & Ht). unfold send_view. rewrite Hr.
  split; [done|]. split; [done|]. exists rents. split; [by eapply spoll_ext|done].
Qed.

(** An operation on one ring leaves the others as they were. *)
Lemma qp_keeps p q q' (s : qps W) w' :
  qs_qps s !! poll_idx p = Some q → same_keys q q' →
  (frees (qw_bufs (qs_world s)) → frees (qw_bufs w')) →
  match p with SendPoll _ => poll_frame q q' | RecvPoll _ => rpoll_frame q q' end →
  keeps qp_view p s (mk_qps (<[poll_idx p := q']> (qs_qps s)) w').
Proof.
  intros Hq [Hk1 Hk2] Hfr Hframe. split.
  - intros p' todo n Hne (C & X & Hf & Hv). exists C, X. split; [by apply Hfr|].
    destruct p as [i|i], p' as [i'|i']; cbn [poll_idx qs_qps] in *; destruct Hv as (q1 & Hq1 & Hv);
      (destruct (decide (i' = i)) as [->|Hi];
        [|exists q1; rewrite lookup_insert_ne by done; done]); try done; simplify_eq;
      exists q'; rewrite lookup_insert_eq; (split; [done|]).
    + by eapply recv_view_frame.
    + by eapply send_view_frame.
  - intros p'. cbn. unfold qp_poll_info. cbn [qs_qps]. fold (poll_idx p').
    destruct (decide (poll_idx p' = poll_idx p)) as [->|Hne].
    + rewrite lookup_insert_eq, Hq, Hk1, Hk2. done.
    + by rewrite lookup_insert_ne.
Qed.

Lemma qp_view_room p todo n (s : qps W) : qp_view p todo n s → (n ≤ length todo ≤ qp_poll_room p s)%nat.
Proof.
  intros (C & X & _ & Hv). destruct p as [i|i]; destruct Hv as (q & Hq & Hc & -> & Hv); cbn; rewrite Hq.
  - destruct Hv as (ents & Hs & ->). rewrite length_fmap, length_drop.
    pose proof (sp_order _ _ _ _ _ Hs). pose proof (sp_win _ _ _ _ _ Hs). lia.
  - destruct Hv as (_ & rents & Hs & ->). rewrite length_fmap, length_drop.
    pose proof (rp_order _ _ _ _ _ Hs). pose proof (rp_win _ _ _ _ _ Hs). lia.
Qed.

(** A range that is not empty starts below its end. *)
Lemma batch_nonempty cap X C :
  cap_ok cap → (C < X)%nat → r_idx (batch (cur cap X C)) < r_end (batch (cur cap X C)).
Proof.
  intros Hc Hlt. pose proof (nslot_range cap Hc C). cbn. assert (NTRDMA_QP_BATCH_SIZE = 16) by done. lia.
Qed.

Lemma batch_bounds cap X C j :
  cap_ok cap → (C ≤ X)%nat → r_idx (batch (cur cap X C)) + Z.of_nat j <= r_end (batch (cur cap X C)) →
  (C + j ≤ X)%nat ∧ Z.of_nat j <= cap - nslot cap C.
Proof. intros Hc Hle. pose proof (nslot_range cap Hc C). cbn. lia. Qed.

(** The ring's capacity is that of its record. *)
Lemma ring_cap_send i q (s : qps W) :
  qs_qps s !! i = Some q → cap_ok (sq_cap (qp_send q)) → ring_cap (SendPoll i) s = sq_cap (qp_send q).
Proof. intros Hq [Hc _]. unfold ring_cap. cbn. rewrite Hq. lia. Qed.

Lemma ring_cap_recv i q (s : qps W) :
  qs_qps s !! i = Some q → cap_ok (rq_cap (qp_recv q)) → ring_cap (RecvPoll i) s = rq_cap (qp_recv q).
Proof. intros Hq [Hc _]. unfold ring_cap. cbn. rewrite Hq. lia. Qed.

Lemma qp_start_ok p todo n (s : qps W) :
  qp_view p todo n s →
  ∃ rc r s' n', qp_poll_start_and_get p s = Some (rc, r, s') ∧ (n ≤ n')%nat ∧ keeps qp_view p s s'
    ∧ if (n' =? 0)%nat then rc = - EAGAIN ∧ qp_view p todo 0 s'
      else rc = 0 ∧ qp_taken p todo n' r 0 s' ∧ r_idx r < r_end r.
Proof.
  intros (C & X & Hf & Hv). destruct p as [i|i]; destruct Hv as (q & Hq & Hc & -> & Hv); cbn [qp_poll_start_and_get];
    unfold with_qp; rewrite Hq.
  - destruct Hv as (ents & Hs & ->). destruct (ntrdma_qp_poll_send_start_and_get q) as [[rc r] q'] eqn:Hg.
    destruct (poll_send_start_ok _ Hc _ _ _ _ _ _ _ Hs Hg) as (Hs' & Hfr & -> & -> & _).
    pose proof (send_start_keys _ _ _ _ Hg) as Hk. set (X' := avail X ents q') in *.
    pose proof (sp_cap _ _ _ _ _ Hs') as Hcap. pose proof (sp_order _ _ _ _ _ Hs') as Ho.
    assert (X ≤ X')%nat as Hle.
    { subst X'. unfold avail. pose proof (sp_order _ _ _ _ _ Hs). destruct (send_abort _); lia. }
    eexists _, _, _, (X' - C)%nat. split; [done|]. split; [lia|].
    split; [by apply (qp_keeps (SendPoll i) q)|].
    assert (∀ n, n = (X' - C)%nat → ring_view (SendPoll i) (inl <$> drop C ents) n C X'
      (mk_qps (<[i := q']> (qs_qps s)) (qs_world s))) as Hview.
    { intros n Hn. split; [done|]. exists q'. split; [apply lookup_insert_eq|]. rewrite <- Hcap in Hs', Hc.
      split; [done|]. split; [done|]. by exists ents. }
    destruct (Nat.eqb_spec X' C), (Nat.eqb_spec (X' - C) 0); try lia.
    + split; [done|]. exists C, X'. apply Hview. lia.
    + split; [done|]. split; [|by apply batch_nonempty; [|lia]]. exists C, X'. split; [by apply Hview|].
      rewrite (ring_cap_send i q') by (by rewrite ?Hcap || apply lookup_insert_eq). rewrite Hcap.
      split; [done|]. pose proof (batch_nonempty _ X' C Hc ltac:(lia)). lia.
  - destruct Hv as (Hsl & rents & Hs & ->). destruct (ntrdma_qp_poll_recv_start_and_get q) as [[rc r] q'] eqn:Hg.
    destruct (poll_recv_start_ok _ Hc _ _ _ _ _ _ _ Hs Hg) as (Hs' & Hfr & -> & ->).
    pose proof (recv_start_keys _ _ _ _ Hg) as Hk. set (X' := ravail X rents q') in *.
    pose proof (rp_cap _ _ _ _ _ Hs') as Hcap. pose proof (rp_order _ _ _ _ _ Hs') as Ho.
    assert (X ≤ X')%nat as Hle.
    { subst X'. unfold ravail. pose proof (rp_order _ _ _ _ _ Hs). destruct (recv_abort _); lia. }
    assert (recv_slots_ok q') as Hsl'.
    { clear -Hg Hsl. unfold ntrdma_qp_poll_recv_start_and_get, ntrdma_qp_recv_cmpl_get in Hg.
      repeat case_match; simplify_eq; done. }
    eexists _, _, _, (X' - C)%nat. split; [done|]. split; [lia|].
    split; [by apply (qp_keeps (RecvPoll i) q)|].
    assert (∀ n, n = (X' - C)%nat → ring_view (RecvPoll i) (inr <$> drop C rents) n C X'
      (mk_qps (<[i := q']> (qs_qps s)) (qs_world s))) as Hview.
    { intros n Hn. split; [done|]. exists q'. split; [apply lookup_insert_eq|]. rewrite <- Hcap in Hs', Hc.
      split; [done|]. split; [done|]. split; [done|]. by exists rents. }
    destruct (Nat.eqb_spec X' C), (Nat.eqb_spec (X' - C) 0); try lia.
    + split; [done|]. exists C, X'. apply Hview. lia.
    + split; [done|]. split; [|by apply batch_nonempty; [|lia]]. exists C, X'. split; [by apply Hview|].
      rewrite (ring_cap_recv i q') by (by rewrite ?Hcap || apply lookup_insert_eq). rewrite Hcap.
      split; [done|]. pose proof (batch_nonempty _ X' C Hc ltac:(lia)). lia.
Qed.

Lemma batch_pos cap X C j :
  cap_ok cap → (C ≤ X)%nat → r_idx (batch (cur cap X C)) + Z.of_nat j < r_end (batch (cur cap X C)) →
  r_idx (batch (cur cap X C)) + Z.of_nat j = nslot cap (C + j) ∧ (C + j < X)%nat.
Proof.
  intros Hc Hle. pose proof (nslot_range cap Hc C). cbn. intros Hj.
  rewrite nslot_add by (done || lia). lia.
Qed.

(** A state of which only the queue pair of [p] and the world changed. *)
Lemma taken_intro p q' todo n r j C X (s : qps W) w' :
  frees (qw_bufs w') →
  match p with SendPoll _ => send_view q' C X todo n | RecvPoll _ => recv_view q' C X todo n end →
  r = batch (cur (match p with SendPoll _ => sq_cap (qp_send q') | RecvPoll _ => rq_cap (qp_recv q') end) X C) →
  r_idx r + Z.of_nat j <= r_end r →
  qp_taken p todo n r j (mk_qps (<[poll_idx p := q']> (qs_qps s)) w').
Proof.
  intros Hf Hv -> Hr. exists C, X. destruct p as [i|i]; cbn [poll_idx].
  - split; [split; [done|exists q'; split; [apply lookup_insert_eq|done]]|].
    by rewrite (ring_cap_send i q') by (apply lookup_insert_eq || apply Hv).
  - split; [split; [done|exists q'; split; [apply lookup_insert_eq|done]]|].
    by rewrite (ring_cap_recv i q') by (apply lookup_insert_eq || apply Hv).
Qed.

Lemma qp_cqe_ok p todo n r j (s : qps W) out :
  qp_taken p todo n r j s → r_idx r + Z.of_nat j < r_end r →
  ∃ c s' e, qp_poll_cqe ntc p out (r_idx r + Z.of_nat j) s = Some (c, s') ∧ todo !! j = Some e
    ∧ completes e c ∧ qp_taken p todo n r (S j) s' ∧ keeps qp_view p s s'.
Proof.
  intros (C & X & [Hf Hv] & -> & _) Hj. destruct p as [i|i]; destruct Hv as (q & Hq & Hc & -> & Hv);
    cbn [qp_poll_cqe]; unfold with_qp; rewrite Hq.
  - destruct Hv as (ents & Hs & ->). rewrite (ring_cap_send i q) in * by done.
    pose proof (sp_order _ _ _ _ _ Hs) as Ho.
    destruct (batch_pos _ X C j Hc ltac:(lia) Hj) as [-> HX].
    destruct (poll_send_cqe_ok _ Hc _ _ _ _ (C + j) Hs ltac:(lia)) as (c & q' & e & Hpc & He & Hce & Hs' & Hfr & _).
    pose proof (send_cqe_keys _ _ _ _ Hpc) as Hk. pose proof (sp_cap _ _ _ _ _ Hs') as Hcap.
    rewrite Hpc. eexists c, _, (inl e). split; [done|].
    split; [by rewrite list_lookup_fmap, lookup_drop, He|]. split; [done|].
    split; [|by apply (qp_keeps (SendPoll i) q)].
    apply (taken_intro (SendPoll i) q' _ _ _ _ C X); [done| |by rewrite Hcap|lia].
    unfold send_view. rewrite Hcap. split; [done|]. split; [done|]. by exists ents.
  - destruct Hv as (Hsl & rents & Hs & ->). rewrite (ring_cap_recv i q) in * by done.
    pose proof (rp_order _ _ _ _ _ Hs) as Ho. pose proof (nslot_range _ Hc (C + j)) as Hpos.
    destruct (batch_pos _ X C j Hc ltac:(lia) Hj) as [-> HX].
    destruct (poll_recv_cqe_total out _ q (qs_world s) Hsl (rp_len _ _ _ _ _ Hs) Hpos Hf) as
      (c & q' & w' & Hpc & Hsl' & Hf').
    destruct (poll_recv_cqe_ok _ Hc _ _ _ _ _ _ (C + j) _ _ _ _ Hpc Hs ltac:(lia)) as (Hs' & Hfr & _ & Hh).
    pose proof (recv_cqe_keys _ _ _ _ _ _ _ Hpc) as Hk. pose proof (rp_cap _ _ _ _ _ Hs') as Hcap.
    destruct (rents !! (C + j)%nat) as [e|] eqn:He; [|done].
    rewrite Hpc. eexists c, _, (inr e). split; [done|].
    split; [by rewrite list_lookup_fmap, lookup_drop, He|]. split; [by injection Hh|].
    split; [|by apply (qp_keeps (RecvPoll i) q)].
    apply (taken_intro (RecvPoll i) q' _ _ _ _ C X); [done| |by rewrite Hcap|lia].
    unfold recv_view. rewrite Hcap. split; [done|]. split; [done|]. split; [done|]. by exists rents.
Qed.

Lemma qp_put_ok p todo n r j (s : qps W) :
  qp_taken p todo n r j s →
  ∃ s', qp_poll_put_and_done p (r_idx r + Z.of_nat j) (r_base r) s = Some s'
    ∧ qp_view p (drop j todo) (n - j) s' ∧ keeps qp_view p s s'.
Proof.
  intros (C & X & [Hf Hv] & -> & Hr). destruct p as [i|i]; destruct Hv as (q & Hq & Hc & -> & Hv);
    unfold qp_poll_put_and_done, with_qp; rewrite Hq; eexists; (split; [done|]).
  - destruct Hv as (ents & Hs & ->). rewrite (ring_cap_send i q) in * by done.
    destruct (batch_bounds _ X C j Hc ltac:(pose proof (sp_order _ _ _ _ _ Hs); lia) Hr) as [Hn Hlt].
    pose proof (poll_send_put_ok _ Hc _ _ _ _ j Hs Hn Hlt) as Hs'.
    split; [|by apply (qp_keeps (SendPoll i) q)].
    exists (C + j)%nat, X. split; [done|]. eexists. split; [apply lookup_insert_eq|].
    split; [done|]. split; [lia|]. exists ents. split; [done|]. by rewrite <- fmap_drop, drop_drop.
  - destruct Hv as (Hsl & rents & Hs & ->). rewrite (ring_cap_recv i q) in * by done.
    destruct (batch_bounds _ X C j Hc ltac:(pose proof (rp_order _ _ _ _ _ Hs); lia) Hr) as [Hn Hlt].
    pose proof (poll_recv_put_ok _ Hc _ _ _ _ j Hs Hn Hlt) as Hs'.
    split.
    + exists (C + j)%nat, X. split; [done|]. eexists. split; [apply lookup_insert_eq|].
      split; [done|]. split; [lia|]. split; [done|]. exists rents. split; [done|]. by rewrite <- fmap_drop, drop_drop.
    + apply (qp_keeps (RecvPoll i) q); try done.
      split_and!; try done; [by left|]. by eexists.
Qed.

#[local] Instance rings_ok : PollOk (P := poller) (S := qps W) request :=
  {| matches := completes; view := qp_view; taken := qp_taken; view_room := qp_view_room;
     start_ok := qp_start_ok; cqe_ok := qp_cqe_ok; put_ok := qp_put_ok |}.

(** ** The verbs *)

(** After a poll of [howmany]: [wcs] are the reports of completions [log], which
    are for each ring those of its next requests, in order; no ring that could be
    polled is left when there was room for more. *)
Definition polled_all {WC} (conv : qp_info → ntrdma_cqe → WC) (howmany : Z) (cq : ntrdma_cq poller) (s : qps W)
    (todo : poller → list request) (av : poller → nat) (wcs : list WC) (cq' : ntrdma_cq poller) (s' : qps W) : Prop :=
  ∃ log left, wcs = reports conv s log ∧ Z.of_nat (length wcs) <= howmany
    ∧ Forall (λ x, x.1 ∈ cq_poll_list cq) log
    ∧ (∀ p, p ∈ cq_poll_list cq →
        let l := of_ring p log in
        Forall2 completes (take (length l) (todo p)) l ∧ (av p ≤ length l + left p)%nat
        ∧ qp_view p (drop (length l) (todo p)) (left p) s')
    ∧ (Z.of_nat (length wcs) < howmany → ∀ p, p ∈ cq_poll_list cq → left p = 0%nat)
    ∧ ∃ l', l' ≡ₚ cq_poll_list cq ∧ cq' = cq_set_poll_list l' cq.

Lemma poll_ranges_all {WC} (conv : qp_info → ntrdma_cqe → WC) stop howmany cq s todo av out :
  stop 0 = false → stop (- EAGAIN) = true → 0 <= howmany → NoDup (cq_poll_list cq) →
  (∀ p, p ∈ cq_poll_list cq → qp_view p (todo p) (av p) s) →
  ∃ rc wcs cq' s', poll_ranges conv stop (poll_fuel cq s) howmany 0 cq out s [] = Some (rc, wcs, cq', s')
    ∧ (rc = 0 ∨ rc = - EAGAIN) ∧ polled_all conv howmany cq s todo av wcs cq' s'.
Proof.
  intros Hs0 Hs1 Hh Hnd Hv.
  destruct (poll_ranges_ok (E := request) (PollOk0 := rings_ok) conv stop (poll_fuel cq s) howmany 0 cq out s [] todo av Hs0 Hs1 eq_refl Hnd Hv
    (poll_fuel_ok (E := request) (PollOk0 := rings_ok) _ _ _ _ Hv) Hh) as
    (rc & log & l' & s' & left & Hrun & Hrc & Hperm & Hle & Hr & Hsh & Hin & _).
  cbn [app] in *. eexists rc, _, _, s'. split; [exact Hrun|]. split; [done|].
  exists log, left. split; [done|]. split; [done|]. split; [done|]. split; [|split; [done|by exists l']].
  intros p Hp. destruct (Hr p Hp) as (H1 & H2 & H3). done.
Qed.

End Rings.

(** C38. Polling a completion queue, by the verb or by the call for the page
    shared with the application, never faults and ends.  It reports at most as
    many completions as were asked for.  For every ring of the queue these are
    completions of the next requests in posting order, each one once, without
    those of unsignalled pushes.  When fewer are reported than were asked for,
    every completion that was there at the start was polled, and no ring has one
    left. *)
Theorem poll_reports_in_order {W} (ntc : ntc_dev) (howmany : Z) (out : ntrdma_cqe) (cq : ntrdma_cq poller)
    (s : qps W) (todo : poller → list request) (av : poller → nat) :
  0 <= howmany → NoDup (cq_poll_list cq) →
  (∀ p, p ∈ cq_poll_list cq → qp_view ntc p (todo p) (av p) s) →
  (∃ wcs cq' s', ntrdma_poll_cq (Poll0 := qp_poll ntc) howmany out cq s
      = Some (Z.of_nat (length wcs), wcs, cq', s')
    ∧ polled_all ntc ntrdma_ib_wc_from_cqe howmany cq s todo av wcs cq' s')
  ∧ (howmany <= 85 →
     ∃ wcs cq' s', ntrdma_cq_process_poll_ioctl (Poll0 := qp_poll ntc) (Some howmany) out cq s
         = Some (0, Some (Z.of_nat (length wcs)), wcs, cq', s')
       ∧ polled_all ntc ntrdma_wc_from_cqe howmany cq s todo av wcs cq' s').
Proof.
  intros Hh Hnd Hv. split.
  - destruct (poll_ranges_all ntc ntrdma_ib_wc_from_cqe (λ rc, negb (rc =? 0)) howmany cq s todo av out)
      as (rc & wcs & cq' & s' & Hrun & Hrc & Hall); try done.
    exists wcs, cq', s'. split; [|done]. unfold rings in Hrun. unfold ntrdma_poll_cq. rewrite Hrun.
    destruct (Z.eqb_spec (Z.of_nat (length wcs)) 0) as [->|]; [|done]. by destruct Hrc as [-> | ->].
  - intros H85. destruct (poll_ranges_all ntc ntrdma_wc_from_cqe (λ rc, rc <? 0) howmany cq s todo av out)
      as (rc & wcs & cq' & s' & Hrun & Hrc & Hall); try done.
    exists wcs, cq', s'. split; [|done]. unfold rings in Hrun. unfold ntrdma_cq_process_poll_ioctl. rewrite Hrun.
    change ((PAGE_SIZE - sizeof_poll_hdr) / sizeof_ibv_wc) with 85. destruct (Z.ltb_spec 85 howmany); [lia|].
    destruct (Z.eqb_spec (Z.of_nat (length wcs)) 0); [|done]. by destruct Hrc as [-> | ->].
Qed.

(** Two queue pairs: the first has two completed sends, the second a completed
    receive. *)
Definition ex_sig (h : Z) : ntrdma_send_wqe := mk_send_wqe h IB_WR_SEND 0 0 (mk_sge 0 0 0) 0 IB_SEND_SIGNALED 0 [] [].
Definition ex_recv (h : Z) : ntrdma_recv_wqe := mk_recv_wqe h NTRDMA_WR_RECV 0 0 [].
Definition ex_sender : ntrdma_qp :=
  mk_qp 1 1 0 IB_QPS_RTS true (mk_flags false false false false false false)
    (mk_send_ring 4 2 2 0 [ex_sig 7; ex_sig 8; ex_sig 0; ex_sig 0]
       [ntrdma_send_done (ex_sig 7) 0; ntrdma_send_done (ex_sig 8) 0; ex_cqe; ex_cqe] 2)
    (mk_recv_ring 4 0 0 0 0 (replicate 4 (ex_recv 0)) (replicate 4 ex_cqe)) ex_bufs.
Definition ex_receiver : ntrdma_qp :=
  mk_qp 2 3 0 IB_QPS_RTS true (mk_flags false false false false false false)
    (mk_send_ring 4 0 0 0 (replicate 4 (ex_sig 0)) (replicate 4 ex_cqe) 0)
    (mk_recv_ring 4 1 1 1 0 (ex_recv 100 :: replicate 3 (ex_recv 0))
       (mk_cqe 100 NTRDMA_WR_RECV 0 5 0 0 :: replicate 3 ex_cqe)) ex_bufs.
Definition ex_qps : qps unit :=
  mk_qps (<[0%nat := ex_sender]> {[ 1%nat := ex_receiver ]})
    (mk_qw (mk_world tt (mk_io 0 (mk_dma_chan 0 0 0 0 0) [] 0 0) [] false)
       (mk_dev_vbell false 0 0 0 (mk_vbells [] ∅ []) [] [] ntc_remote_buf_clear 0)
       (mk_bw (mk_mm 0 0 0 ∅ (λ _, 0)) 0 0 0) 0).
Definition ex_cq : ntrdma_cq poller := mk_cq true 0 false 0 [SendPoll 0; RecvPoll 1].
Definition ex_todo (p : poller) : list request :=
  match p with SendPoll _ => [inl (ex_sig 7); inl (ex_sig 8)] | RecvPoll _ => [inr (ex_recv 100)] end.
Definition ex_avail (p : poller) : nat := length (ex_todo p).

Example poll_example :
  match ntrdma_poll_cq (Poll0 := qp_poll ex_dev) 4 ex_cqe ex_cq ex_qps with
  | Some (n, wcs, cq, _) => n = 3 ∧ (wc_wr_id <$> wcs) = [7; 8; 100] ∧ (wc_status <$> wcs) = [0; 0; 0]
                            ∧ cq_poll_list cq = [SendPoll 0; RecvPoll 1]
  | None => False
  end.
Proof. vm_compute. done. Qed.

Lemma ex_views p : p ∈ cq_poll_list ex_cq → qp_view ex_dev p (ex_todo p) (ex_avail p) ex_qps.
Proof.
  assert (frees ex_dev (mk_bw (mk_mm 0 0 0 ∅ (λ _, 0)) 0 0 0)) as Hf.
  { eexists. split; [reflexivity|]. right. intros c f Hc. cbn in Hc. by apply lookup_empty_Some in Hc. }
  intros [->|[->|[]%elem_of_nil]%elem_of_cons]%elem_of_cons; [exists 0%nat, 2%nat|exists 0%nat, 1%nat];
    (split; [exact Hf|]).
  - exists ex_sender. split; [reflexivity|]. split; [split; reflexivity|]. split; [reflexivity|].
    exists [ex_sig 7; ex_sig 8]. split; [|reflexivity].
    constructor; try reflexivity; cbn; try lia.
    + split; [reflexivity|]. intros n Hn. destruct n as [|[|n]]; [reflexivity|reflexivity|cbn in Hn; lia].
    + split; [reflexivity|]. intros [|[|i]] e c Hi He Hc; [| |lia]; vm_compute in He, Hc; simplify_eq; split_and!; reflexivity.
  - exists ex_receiver. split; [reflexivity|]. split; [split; reflexivity|]. split; [reflexivity|]. split.
    { split; [reflexivity|]. repeat constructor. }
    exists [ex_recv 100]. split; [|reflexivity].
    constructor; try reflexivity; cbn; try lia.
    + split; [reflexivity|]. intros n Hn. destruct n as [|n]; [reflexivity|cbn in Hn; lia].
    + by repeat constructor.
    + split; [reflexivity|]. split; [reflexivity|]. intros n Hn. destruct n as [|n]; [reflexivity|cbn in Hn; lia].
Qed.

Lemma poll_reports_in_order_witness :
  NoDup (cq_poll_list ex_cq)
  ∧ (∃ wcs cq' s', ntrdma_poll_cq (Poll0 := qp_poll ex_dev) 4 ex_cqe ex_cq ex_qps
       = Some (Z.of_nat (length wcs), wcs, cq', s')
     ∧ polled_all ex_dev ntrdma_ib_wc_from_cqe 4 ex_cq ex_qps ex_todo ex_avail wcs cq' s').
Proof.
  assert (NoDup (cq_poll_list ex_cq)) as Hnd by (apply (bool_decide_unpack _); vm_compute; exact I).
  split; [exact Hnd|].
  exact (proj1 (poll_reports_in_order ex_dev 4 ex_cqe ex_cq ex_qps ex_todo ex_avail ltac:(lia) Hnd ex_views)).
Defined.

End CqPoll.
