(* ===== verification/CqNote.v ===== *)
(** * No completion goes unnoticed

    An application asks a completion queue for a notification
    ([ntrdma_req_notify_cq]), sleeps, and polls when its handler is called.
    Meanwhile completions arrive from two sides: receives that the queue pair's
    own work completed, which cues the queue, and sends that the peer completed,
    which rings the queue's doorbell.  The functions of [Cq] and [Vbell] run
    here as the steps of a transition system: each holds its lock throughout,
    and between two of them anything else may happen. *)

From stdpp Require Import gmap relations.
From S2P Require Import Prelude Ring Wr Vbell Cq.
Import Ring Wr Vbell Cq.

Module CqNote.

Section Note.
Context {P : Type}.

(** [nt_task]: the tasklet of the doorbell is scheduled.  [nt_cues] counts the
    calls of [ntrdma_cq_cue] on their way to the lock.  For the specification:
    the requests and the calls of the handler so far, and whether something
    completed since the handler was last called. *)
Record note := mk_note {
  nt_cq : ntrdma_cq P;
  nt_vb : vbells;
  nt_task : bool;
  nt_cues : nat;
  nt_asked : Z;
  nt_calls : Z;
  nt_fresh : bool }.

(** Did the callback of doorbell [id] run between the two states? *)
Definition fired_since (id : nat) (s s' : vbells) : bool :=
  bool_decide (id ∈ drop (length (vs_fired s)) (vs_fired s')).

(** The doorbells change by an operation, which may schedule the tasklet. *)
Definition with_vb (s' : vbells) (n : note) : note :=
  mk_note (nt_cq n) s' (nt_task n || fired_since (cq_vbell (nt_cq n)) (nt_vb n) s') (nt_cues n)
    (nt_asked n) (nt_calls n) (nt_fresh n).

(** The request, up to the call of [ntrdma_cq_cue] that may follow it. *)
Definition ask (n : note) : note :=
  let '(need_cue, cq, s') := ntrdma_req_notify_cq (nt_cq n) (nt_vb n) in
  let n := with_vb s' n in
  mk_note cq (nt_vb n) (nt_task n) (if need_cue then S (nt_cues n) else nt_cues n) (nt_asked n + 1)
    (nt_calls n) (nt_fresh n).

(** One of the calls takes the lock. *)
Definition cue (k : nat) (n : note) : note :=
  let '(calls, cq) := ntrdma_cq_cue (nt_cq n) in
  mk_note cq (nt_vb n) (nt_task n) k (nt_asked n) (nt_calls n + calls) (nt_fresh n && (calls =? 0)).

(** An operation on another doorbell, or a ring of another head. *)
Definition is_other (id : nat) (idx : nat) (o : vop) : Prop :=
  match o with
  | OpFire i _ | OpHeadEnable i | OpHeadDisable i => i ≠ idx
  | OpEnable x | OpDisable x | OpDel x | OpClear x | OpReadd x | OpAddClear x | OpTrigger x => x ≠ id
  end.

Inductive note_step : note → note → Prop :=
  (** there are less than 2^32 requests outstanding *)
  | note_ask n : cq_arm (nt_cq n) + 1 < 2 ^ 32 → note_step n (ask n)
  | note_cue n k : nt_cues n = S k → note_step n (cue k n)
  | note_task n : nt_task n = true →
      note_step n (mk_note (nt_cq n) (nt_vb n) false (S (nt_cues n)) (nt_asked n) (nt_calls n) (nt_fresh n))
  (** [ntrdma_rqp_send_work] completes a receive and cues its queue *)
  | note_recv n :
      note_step n (mk_note (nt_cq n) (nt_vb n) (nt_task n) (S (nt_cues n)) (nt_asked n) (nt_calls n) true)
  (** the peer completes a send and rings, with a number that is neither the
      last one nor, after a wrap of 32 bits, the one the doorbell remembers *)
  | note_ring n val v h :
      vs_bells (nt_vb n) !! cq_vbell (nt_cq n) = Some v → vs_heads (nt_vb n) !! vb_idx v = Some h →
      vh_enabled h = true → val ≠ vh_seq h → val ≠ vb_seq v →
      note_step n
        (let n' := with_vb (ntrdma_vbell_head_fire (vb_idx v) val (nt_vb n)) n in
         mk_note (nt_cq n') (nt_vb n') (nt_task n') (nt_cues n') (nt_asked n') (nt_calls n') true)
  | note_other n o v :
      vs_bells (nt_vb n) !! cq_vbell (nt_cq n) = Some v → is_other (cq_vbell (nt_cq n)) (vb_idx v) o →
      note_step n (with_vb (vop_step o (nt_vb n)) n).

(** A completion queue that was just initialised. *)
Definition note_start (n : note) : Prop :=
  vbells_wf (nt_vb n) ∧ cq_ibcq_valid (nt_cq n) = true
  ∧ (∃ cq s idx, (nt_cq n, nt_vb n) = ntrdma_cq_vbell_init (cq_vbell (nt_cq n)) idx cq s
       ∧ is_Some (vs_heads (nt_vb n) !! idx))
  ∧ nt_task n = false ∧ nt_cues n = 0%nat ∧ nt_asked n = 0 ∧ nt_calls n = 0 ∧ nt_fresh n = false.

(** ** The invariant *)

(** A call of [ntrdma_cq_cue] is on its way. *)
Definition cue_due (n : note) : Prop := (0 < nt_cues n)%nat ∨ nt_task n = true.

Record note_inv (n : note) : Prop := {
  ni_wf : vbells_wf (nt_vb n);
  ni_valid : cq_ibcq_valid (nt_cq n) = true;
  ni_arm : 0 <= cq_arm (nt_cq n) < 2 ^ 32;
  ni_count : nt_asked n = nt_calls n + cq_arm (nt_cq n);
  ni_need : cq_need_cue (nt_cq n) = true → cq_arm (nt_cq n) = 0;
  ni_bell : ∃ v q, vs_bells (nt_vb n) !! cq_vbell (nt_cq n) = Some v
    ∧ seq_at (nt_vb n) (vb_idx v) = Some q ∧ vb_alive v = true ∧ vb_enabled v = true
    ∧ (vb_arm v = true → vb_seq v = q)
    ∧ (0 < cq_arm (nt_cq n) → vb_arm v = true ∨ cue_due n)
    ∧ (nt_fresh n = true → cue_due n ∨ cq_need_cue (nt_cq n) = true ∨ (vb_arm v = false ∧ vb_seq v ≠ q)) }.

Lemma fired_call id s s' l : vs_fired s' = vs_fired s ++ l → fired_since id s s' = bool_decide (id ∈ l).
Proof. intros H. unfold fired_since. by rewrite H, drop_app_length. Qed.

(** What an operation on other doorbells or heads leaves alone. *)
Lemma other_frame o id s v h :
  vbells_wf s → vs_bells s !! id = Some v → vs_heads s !! vb_idx v = Some h → is_other id (vb_idx v) o →
  vs_bells (vop_step o s) !! id = Some v ∧ seq_at (vop_step o s) (vb_idx v) = Some (vh_seq h).
Proof.
  intros Hwf Hv Hh Ho. assert (seq_at s (vb_idx v) = Some (vh_seq h)) as Hseq by (unfold seq_at; by rewrite Hh).
  assert (∀ i h' q en, i ≠ vb_idx v → vs_heads s !! i = Some h' →
    let s' := ntrdma_vbell_head_fire_locked i (vs_set_head i (mk_head (vh_list h') q en) s) in
    vs_bells s' !! id = Some v ∧ seq_at s' (vb_idx v) = Some (vh_seq h)) as Hhead.
  { intros i h' q en Hi Hh'. destruct (head_op_spec i h' q en s Hwf Hh') as (_ & F2 & F3). cbn zeta.
    split.
    - rewrite F2. rewrite decide_False; [done|]. intros Hin.
      apply (vw_list _ Hwf i h' id Hh') in Hin as (v' & Hv' & Hidx & _). simplify_eq.
    - unfold seq_at. rewrite F3, list_lookup_insert_ne by done. exact Hseq. }
  destruct (op_target o) as [x|] eqn:Hx.
  - destruct (vop_step_local o x s Hx) as (H1 & H2 & _). rewrite H1, H2; [done|].
    destruct o; cbn in *; simplify_eq; congruence.
  - destruct o as [| | | | | | |i val|i|i]; try done; cbn [vop_step is_other] in *.
    + unfold ntrdma_vbell_head_fire. destruct (vs_heads s !! i) as [h'|] eqn:Hh'; [|done].
      destruct (vh_enabled h'); cbn [negb]; [|done]. destruct (_ =? _); [done|]. by apply Hhead.
    + unfold ntrdma_vbell_head_enable. destruct (vs_heads s !! i) as [h'|] eqn:Hh'; [|done]. by apply Hhead.
    + unfold ntrdma_vbell_head_disable. destruct (vs_heads s !! i) as [h'|] eqn:Hh'; [|done]. by apply Hhead.
Qed.

(** The doorbell of the queue when it is added again. *)
Lemma readd_bell id s v h :
  vs_bells s !! id = Some v → vs_heads s !! vb_idx v = Some h → vb_alive v = true →
  let s' := snd (ntrdma_vbell_readd id s) in
  ∃ v' l, vs_bells s' !! id = Some v' ∧ vs_fired s' = vs_fired s ++ l ∧ vb_idx v' = vb_idx v
    ∧ vb_alive v' = true ∧ vb_enabled v' = vb_enabled v
    ∧ seq_at s' (vb_idx v) = Some (vh_seq h)
    ∧ (id ∈ l ∧ vb_arm v' = false ∨ vb_arm v' = true ∧ (vb_arm v = true ∨ vb_seq v = vh_seq h)
                                    ∧ vb_seq v' = vb_seq v).
Proof.
  intros Hv Hh Ha. pose proof (vop_step_local (OpReadd id) id s eq_refl) as (Hseq & _). cbn [vop_step] in Hseq.
  assert (seq_at s (vb_idx v) = Some (vh_seq h)) as Hq by (unfold seq_at; by rewrite Hh). cbn zeta.
  rewrite Hseq, Hq. clear Hseq Hq. unfold ntrdma_vbell_readd, with_vbell. rewrite Hv, Hh, Ha. cbn [negb].
  destruct (vb_arm v) eqn:Harm; [|destruct (Z.eqb_spec (vb_seq v) (vh_seq h)) as [Hs|Hs]]; cbn.
  - exists v, []. rewrite app_nil_r. split_and!; try done. right. auto.
  - eexists _, []. rewrite lookup_insert_eq, app_nil_r. split_and!; try done. right. auto.
  - eexists _, [id]. rewrite lookup_insert_eq. split_and!; try done. left. split; [set_solver|done].
Qed.

Lemma note_inv_start n : note_start n → note_inv n.
Proof.
  intros (Hwf & Hval & (cq & s & idx & Hini & h & Hh) & Htask & Hcues & Hasked & Hcalls & Hfresh).
  unfold ntrdma_cq_vbell_init in Hini. injection Hini as Hcq Hvb. constructor; try done.
  - rewrite Hcq. done.
  - rewrite Hasked, Hcalls, Hcq. done.
  - rewrite Hcq. done.
  - exists (ntrdma_vbell_init idx), (vh_seq h). split; [rewrite Hvb; apply lookup_insert_eq|].
    split; [unfold seq_at; cbn; by rewrite Hh|]. split; [done|]. split; [done|]. split; [done|].
    split; [rewrite Hcq; cbn; lia|]. by rewrite Hfresh.
Qed.

Lemma note_inv_ask n : note_inv n → cq_arm (nt_cq n) + 1 < 2 ^ 32 → note_inv (ask n).
Proof.
  intros [Hwf Hval Harm Hcount Hneed (v & q & Hv & Hq & Hal & Hen & Hsync & Hdue & Hfresh)] Hlt.
  assert (∃ h, vs_heads (nt_vb n) !! vb_idx v = Some h ∧ vh_seq h = q) as (h & Hh & <-).
  { unfold seq_at in Hq. destruct (vs_heads (nt_vb n) !! vb_idx v) as [h|]; [|done]. exists h. by injection Hq. }
  destruct (readd_bell _ _ _ _ Hv Hh Hal) as (v' & l & Hv' & Hl & Hidx & Hal' & Hen' & Hq' & Hcase).
  pose proof (vop_step_wf (OpReadd (cq_vbell (nt_cq n))) _ Hwf) as Hwf'. cbn [vop_step] in Hwf'.
  unfold ask, ntrdma_req_notify_cq, ntrdma_cq_arm.
  destruct (ntrdma_vbell_readd (cq_vbell (nt_cq n)) (nt_vb n)) as [rc s'] eqn:Hr. cbn [snd] in *.
  unfold with_vb. cbn [nt_cq nt_vb nt_task nt_cues nt_asked nt_calls nt_fresh]. rewrite (fired_call _ _ _ _ Hl).
  assert (u32 (cq_arm (nt_cq n) + 1) = cq_arm (nt_cq n) + 1) as Hu by (apply u32_small; unfold is_u32; lia).
  constructor; cbn; rewrite ?Hu; try done; try lia.
  exists v', (vh_seq h). rewrite Hidx, Hen'. split_and!; try done.
  - destruct Hcase as [[_ ->]|(_ & [Ha|Hs] & ->)]; [done|auto|auto].
  - intros _. unfold cue_due. cbn. destruct Hcase as [[Hin _]|[-> _]]; [|by left].
    right. right. rewrite bool_decide_true by done. by rewrite orb_true_r.
  - intros Hf. left. unfold cue_due in *. cbn.
    destruct (Hfresh Hf) as [[Hc|Ht]|[Hn|[Hna Hne]]].
    + left. destruct (cq_need_cue _); lia.
    + right. by rewrite Ht.
    + left. rewrite Hn. lia.
    + right. destruct Hcase as [[Hin _]|(_ & [Ha|Hs] & _)]; [|congruence|done].
      rewrite bool_decide_true by done. by rewrite orb_true_r.
Qed.

Lemma note_inv_cue n k : note_inv n → note_inv (cue k n).
Proof.
  intros [Hwf Hval Harm Hcount Hneed (v & q & Hv & Hq & Hal & Hen & Hsync & Hdue & Hfresh)].
  unfold cue, ntrdma_cq_cue. rewrite Hval. cbn [negb]. constructor; cbn; try done; try lia.
  exists v, q. split_and!; try done. intros [_ Hz]%andb_true_iff. rewrite Hz. auto.
Qed.

Lemma note_inv_ring n val v h :
  note_inv n → vs_bells (nt_vb n) !! cq_vbell (nt_cq n) = Some v → vs_heads (nt_vb n) !! vb_idx v = Some h →
  vh_enabled h = true → val ≠ vh_seq h → val ≠ vb_seq v →
  note_inv (let n' := with_vb (ntrdma_vbell_head_fire (vb_idx v) val (nt_vb n)) n in
            mk_note (nt_cq n') (nt_vb n') (nt_task n') (nt_cues n') (nt_asked n') (nt_calls n') true).
Proof.
  intros [Hwf Hval Harm Hcount Hneed (v0 & q & Hv & Hq & Hal & Hen & Hsync & Hdue & Hfresh)] Hv1 Hh Hhen Hne1 Hne2.
  assert (v0 = v) as -> by congruence. clear Hv. pose proof (vop_step_wf (OpFire (vb_idx v) val) _ Hwf) as Hwf'. cbn [vop_step] in Hwf'.
  unfold ntrdma_vbell_head_fire in *. rewrite Hh, Hhen in *. cbn [negb] in *.
  destruct (Z.eqb_spec (vh_seq h) val) as [|_]; [congruence|].
  destruct (head_op_spec (vb_idx v) h val true (nt_vb n) Hwf Hh) as (F1 & F2 & F3).
  set (s' := ntrdma_vbell_head_fire_locked _ _) in *. cbn zeta in *. unfold with_vb. cbn.
  rewrite (fired_call _ _ _ _ F1). pose proof (lookup_lt_Some _ _ _ Hh) as Hltl.
  pose proof (vw_list _ Hwf _ _ (cq_vbell (nt_cq n)) Hh) as Hin.
  assert (seq_at s' (vb_idx v) = Some val) as Hseq'.
  { unfold seq_at. rewrite F3, list_lookup_insert_eq by done. done. }
  constructor; cbn; try done. rewrite F2, Hv1. destruct (vb_arm v) eqn:Ha.
  - assert (cq_vbell (nt_cq n) ∈ vh_list h) as Hmem by (apply Hin; by exists v). rewrite decide_True by done.
    assert (fired_bell val v = vb_set val false true (vb_alive v) v) as Hfb by (unfold fired_bell; by rewrite Hen).
    cbn [fmap option_fmap option_map]. rewrite Hfb.
    eexists _, val. split; [reflexivity|]. split; [done|]. split; [done|]. split; [done|]. split; [done|].
    assert (bool_decide (cq_vbell (nt_cq n) ∈ filter (λ id, bell_enabled (nt_vb n) id = true) (vh_list h)) = true) as ->.
    { apply bool_decide_true, list_elem_of_filter. split; [|done]. unfold bell_enabled. by rewrite Hv1. }
    unfold cue_due. cbn. rewrite orb_true_r. auto.
  - rewrite decide_False by (intros (x & ? & ? & ?)%Hin; simplify_eq; congruence).
    eexists v, val. split; [done|]. split; [done|]. split; [done|]. split; [done|]. split; [by rewrite Ha|].
    unfold cue_due in *. cbn. split; [|intros _; right; right; rewrite Ha; auto].
    intros Hpos. destruct (Hdue Hpos) as [?|[?|Ht]]; [congruence|auto|]. rewrite Ht. auto.
Qed.

Lemma note_inv_other n o v :
  note_inv n → vs_bells (nt_vb n) !! cq_vbell (nt_cq n) = Some v → is_other (cq_vbell (nt_cq n)) (vb_idx v) o →
  note_inv (with_vb (vop_step o (nt_vb n)) n).
Proof.
  intros [Hwf Hval Harm Hcount Hneed (v0 & q & Hv & Hq & Hal & Hen & Hsync & Hdue & Hfresh)] Hv1 Ho.
  assert (v0 = v) as -> by congruence. clear Hv.
  assert (∃ h, vs_heads (nt_vb n) !! vb_idx v = Some h ∧ vh_seq h = q) as (h & Hh & <-).
  { unfold seq_at in Hq. destruct (vs_heads (nt_vb n) !! vb_idx v) as [h|]; [|done]. exists h. by injection Hq. }
  destruct (other_frame o _ _ _ _ Hwf Hv1 Hh Ho) as [Hv' Hq'].
  constructor; cbn; try done; [by apply vop_step_wf|].
  exists v, (vh_seq h). split_and!; try done; unfold cue_due in *; cbn.
  - intros Hpos. destruct (Hdue Hpos) as [?|[?|Ht]]; [auto|auto|]. rewrite Ht. auto.
  - intros Hf. destruct (Hfresh Hf) as [[?|Ht]|?]; [auto| |auto]. rewrite Ht. auto.
Qed.

Lemma note_inv_step n n' : note_step n n' → note_inv n → note_inv n'.
Proof.
  intros Hstep Hinv. destruct Hstep.
  - by apply note_inv_ask.
  - by apply note_inv_cue.
  - destruct Hinv as [? ? ? ? ? (v & q & ? & ? & ? & ? & ? & Hd & Hf)]. constructor; try done. cbn.
    exists v, q. unfold cue_due in *. cbn. split_and!; try done; intros; [right|]; left; lia || (left; lia).
  - destruct Hinv as [? ? ? ? ? (v & q & ? & ? & ? & ? & ? & Hd & Hf)]. constructor; try done. cbn.
    exists v, q. unfold cue_due in *. cbn. split_and!; try done; intros; [right|]; left; lia || (left; lia).
  - by eapply note_inv_ring.
  - by eapply note_inv_other.
Qed.

Lemma note_inv_reach n n' : note_start n → rtc note_step n n' → note_inv n'.
Proof.
  intros Hs H. assert (note_inv n) as Hi by by apply note_inv_start. clear Hs.
  induction H as [|n n1 n' Hstep _ IH]; [done|]. apply IH. by eapply note_inv_step.
Qed.

(** C39. Whatever the order in which applications ask for notifications, receives
    complete, the peer rings, tasklets run and other doorbells are used: the
    handler of a completion queue is called once for every request that is no
    longer outstanding; and while a request is outstanding, a completion that the
    handler was not told of has a call of [ntrdma_cq_cue] on its way, which will
    call the handler.  So an application that sleeps on its request, when all
    calls are done, has been told of every completion, and the doorbell is armed
    for the next. *)
Theorem no_completion_unnoticed n n' :
  note_start n → rtc note_step n n' →
  nt_asked n' = nt_calls n' + cq_arm (nt_cq n')
  ∧ (0 < cq_arm (nt_cq n') → nt_fresh n' = true →
     cue_due n' ∧ ∀ k, nt_calls (cue k n') = nt_calls n' + cq_arm (nt_cq n') ∧ nt_fresh (cue k n') = false)
  ∧ (0 < cq_arm (nt_cq n') → nt_cues n' = 0%nat → nt_task n' = false →
     nt_fresh n' = false
     ∧ ∃ v, vs_bells (nt_vb n') !! cq_vbell (nt_cq n') = Some v ∧ vb_arm v = true
         ∧ seq_at (nt_vb n') (vb_idx v) = Some (vb_seq v)).
Proof.
  intros Hs Hr. destruct (note_inv_reach _ _ Hs Hr) as
    [_ Hval Harm Hcount Hneed (v & q & Hv & Hq & Hal & Hen & Hsync & Hdue & Hfresh)].
  assert (0 < cq_arm (nt_cq n') → nt_fresh n' = true → cue_due n') as Hboth.
  { intros Hpos Hf. destruct (Hfresh Hf) as [?|[Hn|[Ha _]]]; [done|specialize (Hneed Hn); lia|].
    destruct (Hdue Hpos); [congruence|done]. }
  split; [done|]. split.
  - intros Hpos Hf. split; [by apply Hboth|]. intros k. unfold cue, ntrdma_cq_cue. rewrite Hval. cbn.
    destruct (Z.eqb_spec (cq_arm (nt_cq n')) 0); [lia|]. by rewrite andb_false_r.
  - intros Hpos Hc Ht. assert (¬ cue_due n') as Hno by (intros [?|?]; [lia|congruence]). split.
    + destruct (nt_fresh n'); [|done]. by destruct Hno; apply Hboth.
    + exists v. destruct (Hdue Hpos) as [Ha|]; [|done]. rewrite (Hsync Ha). done.
Qed.

End Note.

(** A queue that is asked and whose peer rings: the tasklet is scheduled, and
    will call the handler. *)
Definition ex_start : note (P := unit) :=
  mk_note (mk_cq true 0 false 7 [])
    (vs_set_bell 7 (ntrdma_vbell_init 0) (mk_vbells [mk_head [] 0 true] ∅ [])) false 0 0 0 false.
Definition ex_asked : note := ask ex_start.
Definition ex_rung : note :=
  let n' := with_vb (ntrdma_vbell_head_fire 0 5 (nt_vb ex_asked)) ex_asked in
  mk_note (nt_cq n') (nt_vb n') (nt_task n') (nt_cues n') (nt_asked n') (nt_calls n') true.

Lemma ex_started : note_start ex_start.
Proof.
  split; [|split; [reflexivity|]].
  - assert (nt_vb ex_start = vop_step (OpHeadEnable 0)
      (mk_vbells [ntrdma_vbell_head_init] (<[7%nat := ntrdma_vbell_init 0]> ∅) [])) as -> by (vm_compute; reflexivity).
    apply vop_step_wf, fresh_wf. split.
    + intros [|i] h Hh; [by injection Hh|done].
    + intros id v Hv. cbn in Hv. apply lookup_insert_Some in Hv as [[_ <-]|[_ Hv]]; [|by rewrite lookup_empty in Hv].
      exists 0%nat. split; [done|]. by eexists.
  - split; [|by split_and!]. exists (mk_cq true 0 false 7 []), (mk_vbells [mk_head [] 0 true] ∅ []), 0%nat.
    split; [reflexivity|by eexists].
Qed.

Lemma ex_run : rtc note_step ex_start ex_rung.
Proof.
  eapply rtc_l; [apply note_ask; reflexivity|]. eapply rtc_l; [|apply rtc_refl].
  by apply (note_ring ex_asked 5 (mk_vbell 0 0 true true true) (mk_head [7%nat] 0 true)).
Qed.

Lemma no_completion_unnoticed_witness :
  note_start ex_start
  ∧ nt_asked ex_rung = nt_calls ex_rung + cq_arm (nt_cq ex_rung)
  ∧ cue_due ex_rung ∧ nt_calls (cue 0 ex_rung) = 1.
Proof.
  split; [exact ex_started|].
  destruct (no_completion_unnoticed ex_start ex_rung ex_started ex_run) as (H1 & H2 & _).
  split; [exact H1|].
  destruct (H2 ltac:(vm_compute; reflexivity) ltac:(reflexivity)) as [H3 H4].
  split; [exact H3|]. destruct (H4 0%nat) as [H5 _]. rewrite H5. vm_compute. reflexivity.
Defined.

End CqNote.
