(* ===== verification/Post.v ===== *)
(** * Posting work requests (the verbs of ntrdma_ib.c)

    A work request of the application becomes an entry of a ring: the checks,
    the conversion, the immediate execution of unsignalled RDMA writes, the two
    calls that post sends (the verb and the one for the page shared with the
    application), posting receives with the shadow buffers they may need, and
    the state changes of a queue pair. *)

From stdpp Require Import gmap.
From S2P Require Import Prelude Kernel Ring Ntc Wr Mem Zip Vbell Mm Buf Qp.
Import Ring Ntc Wr Mem Zip Vbell Mm Buf Qp.

Module Post.

(** ** Work requests *)

(** [struct ib_send_wr] with the members of [struct ib_rdma_wr]; the requests
    are linked by [next], here a list. *)
Record ib_send_wr := mk_send_wr {
  swr_wr_id : Z;
  swr_opcode : Z;
  swr_send_flags : Z;
  swr_imm_data : Z;
  swr_remote_addr : Z;
  swr_rkey : Z;
  swr_num_sge : Z;
  swr_sg_list : list ib_sge }.

Record ib_recv_wr := mk_recv_wr {
  rwr_wr_id : Z;
  rwr_num_sge : Z;
  rwr_sg_list : list ib_sge }.

Definition NTRDMA_SEND_WR_MAX_SUPPORTED : Z := IB_WR_RDMA_READ.

Definition ntrdma_send_opcode_is_rdma (opcode : Z) : bool :=
  (opcode =? IB_WR_RDMA_WRITE_WITH_IMM) || (opcode =? IB_WR_RDMA_WRITE) || (opcode =? IB_WR_RDMA_READ).

(** ** From a request to an entry *)

(** The loop that adds up the lengths, in 64 bits; the right side is an error. *)
Fixpoint inline_size (l : list ib_sge) (available_size tail_size : Z) : Z + Z :=
  match l with
  | [] => inl tail_size
  | s :: l =>
      if sge_length s =? 0 then inline_size l available_size tail_size
      else if u64 (tail_size + sge_length s) <? tail_size then inr (- ENOMEM)
      else if available_size <? u64 (tail_size + sge_length s) then inr (- ENOMEM)
      else inline_size l available_size (u64 (tail_size + sge_length s))
  end.

Definition wqe_set_count (n : Z) (w : ntrdma_send_wqe) : ntrdma_send_wqe :=
  mk_send_wqe (sw_ulp_handle w) (sw_op_code w) (sw_op_status w) (sw_recv_key w) (sw_rdma_sge w) (sw_imm_data w)
    (sw_flags w) n (sw_snd_sg_list w) (sw_inline_data w).

(** What follows an entry in its slot is memory: writing to its beginning leaves
    the rest. *)
Definition wqe_write_sges (l : list ib_sge) (w : ntrdma_send_wqe) : ntrdma_send_wqe :=
  mk_send_wqe (sw_ulp_handle w) (sw_op_code w) (sw_op_status w) (sw_recv_key w) (sw_rdma_sge w) (sw_imm_data w)
    (sw_flags w) (sw_sg_count w) (l ++ drop (length l) (sw_snd_sg_list w)) (sw_inline_data w).
Definition wqe_write_inline (l : list Z) (w : ntrdma_send_wqe) : ntrdma_send_wqe :=
  mk_send_wqe (sw_ulp_handle w) (sw_op_code w) (sw_op_status w) (sw_recv_key w) (sw_rdma_sge w) (sw_imm_data w)
    (sw_flags w) (sw_sg_count w) (sw_snd_sg_list w) (l ++ drop (length l) (sw_inline_data w)).

(** [cap] is [send_wqe_inline_cap]; the list has [num_sge] entries.  [old] is
    what the slot holds. *)
Definition ntrdma_ib_send_to_wqe (cap : Z) (wr : ib_send_wr) (old : ntrdma_send_wqe) : Z * ntrdma_send_wqe :=
  let is_rdma := ntrdma_send_opcode_is_rdma (swr_opcode wr) in
  let sge := if is_rdma then mk_sge (swr_remote_addr wr) 0 (swr_rkey wr) else mk_sge 0 0 0 in
  let wqe := mk_send_wqe (swr_wr_id wr) (u16 (swr_opcode wr)) 0 (2 ^ 32 - 1) sge (swr_imm_data wr)
               (swr_send_flags wr) (sw_sg_count old) (sw_snd_sg_list old) (sw_inline_data old) in
  if is_rdma && (sge_lkey sge =? NTRDMA_RESERVED_DMA_LEKY) then (- EINVAL, wqe)
  else if ntrdma_send_wqe_is_inline wqe then
    match inline_size (take (Z.to_nat (swr_num_sge wr)) (swr_sg_list wr)) (u64 cap) 0 with
    | inl n => (0, wqe_set_count (u32 n) wqe)
    | inr rc => (rc, wqe)
    end
  else (0, wqe_set_count (u32 (swr_num_sge wr)) wqe).

(** Copies until an entry with the reserved key was copied. *)
Fixpoint copy_sges (l : list ib_sge) : Z * list ib_sge :=
  match l with
  | [] => (0, [])
  | s :: l =>
      if ntrdma_ib_sge_reserved s then (- EINVAL, [s])
      else let '(rc, l) := copy_sges l in (rc, s :: l)
  end.

Definition ntrdma_ib_send_to_wqe_sgl (sg_list : list ib_sge) (wqe : ntrdma_send_wqe)
  : option (Z * ntrdma_send_wqe) :=
  let n := Z.to_nat (sw_sg_count wqe) in
  if (length sg_list <? n)%nat then None
  else let '(rc, l) := copy_sges (take n sg_list) in Some (rc, wqe_write_sges l wqe).

(** Copies until [inline_len] bytes are there; [None] runs past the list.
    [copy_from_user addr size] is the content of the application's memory, if
    it is mapped. *)
Fixpoint copy_inline (copy_from_user : Z → Z → option (list Z)) (l : list ib_sge) (len tail_size : Z)
  : option (Z * list Z) :=
  if len <=? tail_size then Some (0, [])
  else
    match l with
    | [] => None
    | s :: l =>
        if sge_length s =? 0 then copy_inline copy_from_user l len tail_size
        else
          match copy_from_user (sge_addr s) (sge_length s) with
          | None => Some (- EFAULT, [])
          | Some data =>
              match copy_inline copy_from_user l len (u64 (tail_size + sge_length s)) with
              | None => None
              | Some (rc, rest) => Some (rc, data ++ rest)
              end
          end
    end.

Definition ntrdma_ib_send_to_inline_wqe (copy_from_user : Z → Z → option (list Z)) (sg_list : list ib_sge)
    (wqe : ntrdma_send_wqe) : option (Z * ntrdma_send_wqe) :=
  match copy_inline copy_from_user sg_list (sw_sg_count wqe) 0 with
  | None => None
  | Some (rc, data) => Some (rc, wqe_write_inline data wqe)
  end.

Section Code.
Context {W : Type} `{M : MemStore W} `{K : Kernel}.

(** The DMA channel is set up by the first RDMA write. *)
Definition qp_init_chan (q : ntrdma_qp) : ntrdma_qp := qp_set_state (qp_state q) true q.

(** 1 when the entry was executed, 0 when it is to be queued. *)
Definition ntrdma_post_send_wqe (ntc : ntc_dev) (copy_from_user : Z → Z → option (list Z))
    (sg_list : list ib_sge) (wqe : ntrdma_send_wqe) (q : ntrdma_qp) (z : zip_world W)
  : option (Z * ntrdma_send_wqe * ntrdma_qp * zip_world W) :=
  match (if ntrdma_send_wqe_is_inline wqe then ntrdma_ib_send_to_inline_wqe copy_from_user sg_list wqe
         else ntrdma_ib_send_to_wqe_sgl sg_list wqe) with
  | None => None
  | Some (rc, wqe) =>
      if rc <? 0 then Some (rc, wqe, q, z)
      else if negb (Z.land (sw_flags wqe) IB_SEND_SIGNALED =? 0)
              || negb (sw_op_code wqe =? IB_WR_RDMA_WRITE) then Some (0, wqe, q, z)
      else
        let q := if ntrdma_ib_sge_reserved (sw_rdma_sge wqe) then q else qp_init_chan q in
        match ntrdma_qp_rdma_write ntc wqe z with
        | None => None
        | Some (rc, wqe, z) => Some (if rc <? 0 then rc else 1, wqe, q, z)
        end
  end.

(** The state of the loops: the queue pair, the world, the two flags, and for
    the specification the entries that were accepted, with [true] for those that
    were executed. *)
Record post_run := mk_post {
  po_qp : ntrdma_qp;
  po_zip : zip_world W;
  po_immediate : bool;
  po_deferred : bool;
  po_done : list (bool * ntrdma_send_wqe) }.

Definition qp_write_wqe (pos : Z) (wqe : ntrdma_send_wqe) (q : ntrdma_qp) : ntrdma_qp :=
  qp_set_send (sq_set_wqes (<[Z.to_nat pos := wqe]> (sq_wqes (qp_send q))) (qp_send q)) q.

(** One request at slot [pos]: negative when it is refused, 1 when it was
    executed, 0 when it is in the slot. *)
Definition post_one (ntc : ntc_dev) (copy_from_user : Z → Z → option (list Z)) (wr : ib_send_wr) (pos : Z)
    (s : post_run) : option (Z * post_run) :=
  let q := po_qp s in
  let b := qp_buf q in
  if u32 (send_wqe_sg_cap b) <? u32 (swr_num_sge wr) then Some (- EINVAL, s)
  else if NTRDMA_SEND_WR_MAX_SUPPORTED <? u32 (swr_opcode wr) then Some (- EINVAL, s)
  else
    match sq_wqes (qp_send q) !! Z.to_nat pos with
    | None => None
    | Some old =>
        let '(rc, wqe) := ntrdma_ib_send_to_wqe (send_wqe_inline_cap b) wr old in
        if rc <? 0 then
          Some (rc, mk_post (qp_write_wqe pos wqe q) (po_zip s) (po_immediate s) (po_deferred s) (po_done s))
        else
          match ntrdma_post_send_wqe ntc copy_from_user (swr_sg_list wr) wqe q (po_zip s) with
          | None => None
          | Some (rc, wqe, q, z) =>
              let q := qp_write_wqe pos wqe q in
              Some (rc,
                if rc <? 0 then mk_post q z (po_immediate s) (po_deferred s) (po_done s)
                else if 0 <? rc then mk_post q z true (po_deferred s) (po_done s ++ [(true, wqe)])
                else mk_post q z (po_immediate s) true (po_done s ++ [(false, wqe)]))
          end
    end.

(** The requests that go to one range of the ring: the code, the next slot, the
    requests that are left. *)
Fixpoint post_range (ntc : ntc_dev) (copy_from_user : Z → Z → option (list Z)) (wrs : list ib_send_wr)
    (pos end_ : Z) (s : post_run) : option (Z * Z * list ib_send_wr * post_run) :=
  match wrs with
  | [] => None
  | wr :: rest =>
      match post_one ntc copy_from_user wr pos s with
      | None => None
      | Some (rc, s) =>
          if rc <? 0 then Some (rc, pos, wrs, s)
          else
            let pos := if 0 <? rc then pos else pos + 1 in
            match rest with
            | [] => Some (rc, pos, [], s)
            | _ => if pos =? end_ then Some (rc, pos, rest, s)
                   else post_range ntc copy_from_user rest pos end_ s
            end
      end
  end.

Definition po_put (pos base : Z) (s : post_run) : post_run :=
  mk_post (qp_set_send (ntrdma_qp_send_post_put pos base (qp_send (po_qp s))) (po_qp s)) (po_zip s)
    (po_immediate s) (po_deferred s) (po_done s).

(** Every pass takes a request or stops, so their number bounds the passes. *)
Fixpoint post_ranges (fuel : nat) (ntc : ntc_dev) (copy_from_user : Z → Z → option (list Z)) (rc : Z)
    (wrs : list ib_send_wr) (s : post_run) : option (Z * list ib_send_wr * post_run) :=
  match wrs with
  | [] => Some (rc, [], s)
  | _ =>
      match fuel with
      | O => None
      | S fuel =>
          let '(more, r) := ntrdma_qp_send_post_get (qp_send (po_qp s)) in
          if negb more then Some (- EAGAIN, wrs, s)
          else
            match post_range ntc copy_from_user wrs (r_idx r) (r_end r) s with
            | None => None
            | Some (rc, pos, wrs, s) =>
                let s := po_put pos (r_base r) s in
                if rc <? 0 then Some (rc, wrs, s) else post_ranges fuel ntc copy_from_user rc wrs s
            end
      end
  end.

(** The second result is [bad]. *)
Definition ntrdma_post_send_locked (ntc : ntc_dev) (copy_from_user : Z → Z → option (list Z))
    (wrs : list ib_send_wr) (q : ntrdma_qp) (z : zip_world W) : option (Z * list ib_send_wr * post_run) :=
  match post_ranges (length wrs) ntc copy_from_user 0 wrs (mk_post q z false false []) with
  | None => None
  | Some (rc, bad, s) => Some (if 0 <? rc then 0 else rc, bad, s)
  end.

(** The range to produce ends at the end of the ring or at the last posted
    entry, so the third pass finds it empty. *)
Fixpoint additional_work_loop (fuel : nat) (ntc : ntc_dev) (irq : ntc_irq) (vec : Z) (q : ntrdma_qp)
    (rqp : option ntrdma_rqp) (w : qp_world W) (evs : list qp_event)
  : option (ntrdma_qp * option ntrdma_rqp * qp_world W * list qp_event) :=
  match fuel with
  | O => None
  | S fuel =>
      match ntrdma_qp_send_work ntc irq vec q rqp w with
      | None => None
      | Some (reschedule, q, rqp, w, evs') =>
          let '(_, w) := qw_request (λ s, (0, ntc_req_submit s)) w in
          if reschedule then additional_work_loop fuel ntc irq vec q rqp w (evs ++ evs')
          else Some (q, rqp, w, evs ++ evs')
      end
  end.

Definition ntrdma_qp_additional_work (ntc : ntc_dev) (irq : ntc_irq) (vec : Z) (deferred immediate : bool)
    (q : ntrdma_qp) (rqp : option ntrdma_rqp) (w : qp_world W)
  : option (ntrdma_qp * option ntrdma_rqp * qp_world W * list qp_event) :=
  let q := qp_init_chan q in
  if deferred then additional_work_loop 3 ntc irq vec q rqp w []
  else if immediate then
    let '(_, w) := qw_request (λ s, (0, ntc_req_submit s)) w in Some (q, rqp, w, [])
  else Some (q, rqp, w, []).

(** [bad] is not written when the queue pair is not ready. *)
Definition ntrdma_post_send (ntc : ntc_dev) (irq : ntc_irq) (vec : Z) (copy_from_user : Z → Z → option (list Z))
    (wrs : list ib_send_wr) (q : ntrdma_qp) (rqp : option ntrdma_rqp) (w : qp_world W)
  : option (Z * option (list ib_send_wr) * ntrdma_qp * option ntrdma_rqp * qp_world W * list qp_event) :=
  if negb (is_state_send_ready (qp_state q)) then Some (- EINVAL, None, q, rqp, w, [])
  else
    match ntrdma_post_send_locked ntc copy_from_user wrs q (qw_zip w) with
    | None => None
    | Some (rc, bad, s) =>
        match ntrdma_qp_additional_work ntc irq vec (po_deferred s) (po_immediate s) (po_qp s) rqp
                (qw_set_zip (po_zip s) w) with
        | None => None
        | Some (q, rqp, w, evs) => Some (rc, Some bad, q, rqp, w, evs)
        end
    end.

(** ** Sends of the shared page *)

Definition ntrdma_validate_post_send_wqe (wqe : ntrdma_send_wqe) (wqe_size : Z) : Z * ntrdma_send_wqe :=
  let sge := sw_rdma_sge wqe in
  let wqe := mk_send_wqe (sw_ulp_handle wqe) (sw_op_code wqe) 0 (2 ^ 32 - 1)
               (mk_sge (sge_addr sge) 0 (sge_lkey sge)) (sw_imm_data wqe) (sw_flags wqe) (sw_sg_count wqe)
               (sw_snd_sg_list wqe) (sw_inline_data wqe) in
  let tail := u64 (wqe_size - sizeof_send_wqe) in
  if sge_lkey sge =? NTRDMA_RESERVED_DMA_LEKY then (- EINVAL, wqe)
  else if NTRDMA_SEND_WR_MAX_SUPPORTED <? sw_op_code wqe then (- EINVAL, wqe)
  else if ntrdma_send_wqe_is_inline wqe then
    (if negb (sw_sg_count wqe =? tail) then - EINVAL else 0, wqe)
  else if negb (u64 (sw_sg_count wqe * sizeof_ib_sge) =? tail) then (- EINVAL, wqe)
  else (if existsb ntrdma_ib_sge_reserved (wqe_sges wqe) then - EINVAL else 0, wqe).

(** [page off size old] is the slot after [size] bytes at offset [off] of the
    page were copied onto [old].  The loop over [n] requests: the code, the
    number of those that are left, the next slot. *)
Fixpoint ioctl_range (ntc : ntc_dev) (page : Z → Z → ntrdma_send_wqe → ntrdma_send_wqe) (max_size : Z)
    (n : nat) (rc : Z) (off wqe_size pos : Z) (s : post_run) : option (Z * nat * Z * Z * Z * post_run) :=
  match n with
  | O => Some (rc, 0%nat, off, wqe_size, pos, s)
  | S m =>
      if max_size <? wqe_size then Some (- EINVAL, n, off, wqe_size, pos, s)
      else
        match sq_wqes (qp_send (po_qp s)) !! Z.to_nat pos with
        | None => None
        | Some old =>
            let wqe := page off wqe_size old in
            let off := off + wqe_size in
            let next_wqe_size := sw_recv_key wqe in
            let '(rc, wqe) := ntrdma_validate_post_send_wqe wqe wqe_size in
            let put wqe q z imm def done :=
              mk_post (qp_write_wqe pos wqe q) z imm def (po_done s ++ done) in
            if rc <? 0 then
              Some (rc, n, off, wqe_size, pos, put wqe (po_qp s) (po_zip s) (po_immediate s) (po_deferred s) [])
            else if (Z.land (sw_flags wqe) IB_SEND_SIGNALED =? 0) && (sw_op_code wqe =? IB_WR_RDMA_WRITE) then
              match ntrdma_qp_rdma_write ntc wqe (po_zip s) with
              | None => None
              | Some (rc, wqe, z) =>
                  let q := qp_init_chan (po_qp s) in
                  if (rc <? 0) && negb (rc =? - EAGAIN) then
                    Some (rc, n, off, next_wqe_size, pos, put wqe q z (po_immediate s) (po_deferred s) [])
                  else
                    ioctl_range ntc page max_size m rc off next_wqe_size pos
                      (put wqe q z true (po_deferred s) [(true, wqe)])
              end
            else
              ioctl_range ntc page max_size m rc off next_wqe_size (pos + 1)
                (put wqe (po_qp s) (po_zip s) (po_immediate s) true [(false, wqe)])
        end
  end.

(** A pass ends with an error or with no request left, so the second one does
    not happen. *)
Fixpoint ioctl_ranges (fuel : nat) (ntc : ntc_dev) (page : Z → Z → ntrdma_send_wqe → ntrdma_send_wqe)
    (max_size : Z) (n : nat) (rc : Z) (off wqe_size : Z) (s : post_run) : option (Z * nat * post_run) :=
  if (rc <? 0) || (n =? 0)%nat then Some (rc, n, s)
  else
    match fuel with
    | O => None
    | S fuel =>
        let '(more, r) := ntrdma_qp_send_post_get (qp_send (po_qp s)) in
        if negb more then Some (- EAGAIN, n, s)
        else
          match ioctl_range ntc page max_size n rc off wqe_size (r_idx r) s with
          | None => None
          | Some (rc, n, off, wqe_size, pos, s) =>
              ioctl_ranges fuel ntc page max_size n rc off wqe_size (po_put pos (r_base r) s)
          end
    end.

Definition sizeof_snd_hdr : Z := 8.

(** [counter] and [first] are the header of the page; on an error the second
    result is written to its beginning. *)
Definition ntrdma_qp_process_send_ioctl_locked (ntc : ntc_dev)
    (page : Z → Z → ntrdma_send_wqe → ntrdma_send_wqe) (counter first : Z) (q : ntrdma_qp) (z : zip_world W)
  : option (Z * option Z * post_run) :=
  let b := qp_buf q in
  let max_size := u64 (sizeof_send_wqe + Z.max (u64 (send_wqe_inline_cap b)) (u64 (send_wqe_sg_cap b * sizeof_ib_sge))) in
  match ioctl_ranges 1 ntc page max_size (Z.to_nat counter) 0 sizeof_snd_hdr first (mk_post q z false false []) with
  | None => None
  | Some (rc, n, s) => Some (if rc <? 0 then (rc, Some (counter - Z.of_nat n), s) else (0, None, s))
  end.

Definition ntrdma_qp_process_send_ioctl (ntc : ntc_dev) (irq : ntc_irq) (vec : Z)
    (page : option (Z * Z * (Z → Z → ntrdma_send_wqe → ntrdma_send_wqe))) (q : ntrdma_qp)
    (rqp : option ntrdma_rqp) (w : qp_world W)
  : option (Z * option Z * ntrdma_qp * option ntrdma_rqp * qp_world W * list qp_event) :=
  match page with
  | None => Some (- EINVAL, None, q, rqp, w, [])
  | Some (counter, first, page) =>
      if negb (is_state_send_ready (qp_state q)) then Some (- EINVAL, None, q, rqp, w, [])
      else
        match ntrdma_qp_process_send_ioctl_locked ntc page counter first q (qw_zip w) with
        | None => None
        | Some (rc, written, s) =>
            match ntrdma_qp_additional_work ntc irq vec (po_deferred s) (po_immediate s) (po_qp s) rqp
                    (qw_set_zip (po_zip s) w) with
            | None => None
            | Some (q, rqp, w, evs) =>
                Some (if rc =? - EAGAIN then - ENOMEM else rc, written, q, rqp, w, evs)
            end
        end
  end.

(** ** Posting receives *)

(** The entries of the scatter list, up to the first that cannot be served.  An
    entry of a region that the peer may write is taken as it is; others get a
    shadow that the peer writes.  The region was looked up by its key and is
    given back under it. *)
Fixpoint recv_sges_to_wqe (ntc : ntc_dev) (l : list ib_sge) (w : qp_world W)
  : option (Z * list ntrdma_wr_rcv_sge * qp_world W) :=
  match l with
  | [] => Some (0, [], w)
  | sg :: l =>
      let reserved := ntrdma_ib_sge_reserved sg in
      let '(direct, w) :=
        if reserved then (false, w)
        else
          match ntrdma_dev_mr_look (sge_lkey sg) (zw_mem (qw_zip w)) with
          | (Some mr, m) =>
              (negb (Z.land (mr_access mr) IB_ACCESS_REMOTE_WRITE =? 0),
               qw_set_zip (zw_set_mem (mr_put (mr_key mr) m) (qw_zip w)) w)
          | (None, _) => (false, w)
          end in
      if direct then
        match recv_sges_to_wqe ntc l w with
        | Some (rc, l, w) => Some (rc, RcvSge sg :: l, w)
        | None => None
        end
      else
        let b := qw_bufs w in
        if negb (kalloc (bw_time b)) then
          Some (- ENOMEM, [], mk_qw (qw_zip w) (qw_vb w) (bw_tick b) (qw_shadows w))
        else
          let local := if negb reserved then LocalAddr (sge_addr sg)
                       else RcvDmaBuf (snd (ntc_local_buf_map_dma (sge_length sg) (sge_addr sg))) in
          match _ntc_export_buf_alloc ntc (sge_length sg) false (bw_tick b) with
          | None => None
          | Some (rc, eb, b) =>
              let w := mk_qw (qw_zip w) (qw_vb w) b (qw_shadows w + 1) in
              if rc <? 0 then Some (rc, [], w)
              else
                match recv_sges_to_wqe ntc l w with
                | Some (rc, l, w) =>
                    Some (rc, RcvShadow (mk_shadow (sge_lkey sg) local eb) (ntc_export_buf_make_desc eb) :: l, w)
                | None => None
                end
          end
  end.

(** After an error [sg_count] is the number of entries that were served, and
    they are cleaned up; the entry that failed is not looked at again. *)
Definition ntrdma_ib_recv_to_wqe (ntc : ntc_dev) (sg_cap : Z) (wr : ib_recv_wr) (old : ntrdma_recv_wqe)
    (w : qp_world W) : option (Z * ntrdma_recv_wqe * qp_world W) :=
  let wqe n l := mk_recv_wqe (rwr_wr_id wr) NTRDMA_WR_RECV (rw_op_status old) n
                   (l ++ drop (length l) (rw_rcv_sg_list old)) in
  if sg_cap <? rwr_num_sge wr then Some (- EINVAL, wqe (rw_sg_count old) [], w)
  else if (length (rwr_sg_list wr) <? Z.to_nat (rwr_num_sge wr))%nat then None
  else
    match recv_sges_to_wqe ntc (take (Z.to_nat (rwr_num_sge wr)) (rwr_sg_list wr)) w with
    | None => None
    | Some (rc, l, w) =>
        if rc =? 0 then Some (0, wqe (u32 (rwr_num_sge wr)) l, w)
        else
          match ntrdma_recv_wqe_cleanup ntc (wqe (Z.of_nat (length l)) l) w with
          | None => None
          | Some (r, w) => Some (rc, r, w)
          end
    end.

(** The requests that go to one range of the ring. *)
Fixpoint recv_range (ntc : ntc_dev) (wrs : list ib_recv_wr) (pos end_ : Z) (q : ntrdma_qp) (w : qp_world W)
  : option (Z * Z * list ib_recv_wr * ntrdma_qp * qp_world W) :=
  match wrs with
  | [] => None
  | wr :: rest =>
      let s := qp_recv q in
      match rq_wqes s !! Z.to_nat pos with
      | None => None
      | Some old =>
          match ntrdma_ib_recv_to_wqe ntc (recv_wqe_sg_cap (qp_buf q)) wr old w with
          | None => None
          | Some (rc, wqe, w) =>
              let q := qp_set_recv (rq_set_entries (<[Z.to_nat pos := wqe]> (rq_wqes s)) (rq_cqes s) s) q in
              if negb (rc =? 0) then Some (rc, pos, wrs, q, w)
              else
                match rest with
                | [] => Some (rc, pos + 1, [], q, w)
                | _ => if pos + 1 =? end_ then Some (rc, pos + 1, rest, q, w)
                       else recv_range ntc rest (pos + 1) end_ q w
                end
          end
      end
  end.

Fixpoint recv_ranges (fuel : nat) (ntc : ntc_dev) (rc : Z) (wrs : list ib_recv_wr) (q : ntrdma_qp) (w : qp_world W)
  : option (Z * list ib_recv_wr * ntrdma_qp * qp_world W) :=
  match wrs with
  | [] => Some (rc, [], q, w)
  | _ =>
      match fuel with
      | O => None
      | S fuel =>
          let '(more, r) := ntrdma_qp_recv_post_get (qp_recv q) in
          if negb more then Some (- EINVAL, wrs, q, w)
          else
            match recv_range ntc wrs (r_idx r) (r_end r) q w with
            | None => None
            | Some (rc, pos, wrs, q, w) =>
                let q := qp_set_recv (ntrdma_qp_recv_post_put pos (r_base r) (qp_recv q)) q in
                if negb (rc =? 0) then Some (rc, wrs, q, w) else recv_ranges fuel ntc rc wrs q w
            end
      end
  end.

(** The second result is [bad]. *)
Definition ntrdma_post_recv (ntc : ntc_dev) (wrs : list ib_recv_wr) (q : ntrdma_qp) (w : qp_world W)
  : option (Z * list ib_recv_wr * ntrdma_qp * qp_world W * list qp_event) :=
  if negb (is_state_out_of_reset (qp_state q)) then Some (- EINVAL, wrs, q, w, [])
  else
    match recv_ranges (length wrs) ntc 0 wrs q w with
    | None => None
    | Some (rc, bad, q, w) =>
        match ntrdma_qp_recv_work q w with
        | None => None
        | Some (q, w, evs) => Some (rc, bad, q, w, evs)
        end
    end.

(** ** State changes *)

Definition IB_QP_STATE : Z := 2 ^ 0.
Definition IB_QP_CUR_STATE : Z := 2 ^ 1.
Definition IB_QP_ACCESS_FLAGS : Z := 2 ^ 3.
Definition IB_QP_DEST_QPN : Z := 2 ^ 20.

(** The bits of [NTRDMA_IBQP_MASK_SUPPORTED]: besides those that have an effect,
    PKEY_INDEX, PORT, QKEY, AV, PATH_MTU, TIMEOUT, RETRY_CNT, RNR_RETRY, RQ_PSN,
    MAX_QP_RD_ATOMIC, MIN_RNR_TIMER, SQ_PSN, MAX_DEST_RD_ATOMIC. *)
Definition NTRDMA_IBQP_MASK_SUPPORTED : Z :=
  foldr (λ i m, Z.lor (2 ^ i) m) 0 [0; 1; 3; 4; 5; 6; 7; 8; 9; 10; 11; 12; 13; 15; 16; 17; 20].

(** [has_cm]: there is a connection; the last result says whether it is to be
    torn down.  The state may not be [cur_state] any more. *)
Definition modify_qp_state (cur_state new_state : Z) (has_cm : bool) (q : ntrdma_qp) : Z * ntrdma_qp * bool :=
  if negb (qp_state q =? cur_state) then (- EINVAL, q, false)
  else
    let f := qp_flags q in
    let err := is_state_error new_state in
    let f := mk_flags false false (recv_abort_first f) (if err then send_abort f else false)
               (if err then send_aborting f else false) (send_abort_first f) in
    (0, qp_set_flags f (qp_set_state new_state (dma_chan_init q) q), (IB_QPS_RTS <? new_state) && has_cm).

(** [struct ib_qp_attr]. *)
Record ib_qp_attr := mk_attr { at_qp_state : Z; at_cur_qp_state : Z; at_access : Z; at_dest_qp_num : Z }.

Definition mask_has (mask bit : Z) : bool := negb (Z.land mask bit =? 0).

(** [cur_state] is the state read at the start, [q] the queue pair when it is
    changed. *)
Definition ntrdma_modify_qp_local (cur_state : Z) (attr : ib_qp_attr) (mask : Z) (has_cm : bool) (q : ntrdma_qp)
  : Z * ntrdma_qp * bool :=
  let set_keys q :=
    mk_qp (qp_key q) (if mask_has mask IB_QP_DEST_QPN then at_dest_qp_num attr else qp_rqp_key q)
      (if mask_has mask IB_QP_ACCESS_FLAGS then at_access attr else qp_access q) (qp_state q)
      (dma_chan_init q) (qp_flags q) (qp_send q) (qp_recv q) (qp_buf q) in
  let new_state := if mask_has mask IB_QP_STATE then at_qp_state attr else cur_state in
  if mask_has mask IB_QP_CUR_STATE && negb (at_cur_qp_state attr =? cur_state) then (- EINVAL, q, false)
  else if negb (Z.land mask (Z.lnot NTRDMA_IBQP_MASK_SUPPORTED) =? 0) then (- EINVAL, q, false)
  else if mask_has mask IB_QP_STATE then
    if (new_state =? IB_QPS_SQD) && (cur_state =? IB_QPS_ERR) then (0, q, false)
    else if new_state =? cur_state then (0, q, false)
    else
      let '(rc, q, kill) := modify_qp_state cur_state new_state has_cm q in
      if negb (rc =? 0) then (rc, q, kill) else (0, set_keys q, kill)
  else (0, set_keys q, false).

End Code.
End Post.
