(* ===== verification/PostSpec.v ===== *)
(** * Posting sends

    The nested loops of [ntrdma_post_send_locked] post the requests one after
    the other: those that are queued extend the posted entries that [QpPoll] and
    [QpChan] reason about, unsignalled RDMA writes are executed at once, and the
    first request that is refused ends the call. *)

From stdpp Require Import gmap.
From S2P Require Import Prelude Kernel Ring Wire Ntc Wr Mem Zip Vbell Mm Buf Qp QpRun QpPoll Post.
Import Ring Wire Ntc Wr Mem Zip Vbell Mm Buf Qp QpRun QpPoll Post.

Module PostSpec.

(** ** What a request says *)

Section Requests.
Context (copy_from_user : Z → Z → option (list Z)).

(** The bytes that the application's list names. *)
Fixpoint user_bytes (l : list ib_sge) : option (list Z) :=
  match l with
  | [] => Some []
  | s :: l =>
      if sge_length s =? 0 then user_bytes l
      else
        match copy_from_user (sge_addr s) (sge_length s), user_bytes l with
        | Some d, Some d' => Some (d ++ d')
        | _, _ => None
        end
  end.

Definition wr_sges (wr : ib_send_wr) : list ib_sge := take (Z.to_nat (swr_num_sge wr)) (swr_sg_list wr).

(** The data of an RDMA write may come with the request. *)
Definition wr_inline (wr : ib_send_wr) : bool :=
  (swr_opcode wr =? IB_WR_RDMA_WRITE) && negb (Z.land (swr_send_flags wr) IB_SEND_INLINE =? 0).

(** An unsignalled RDMA write is executed when it is posted. *)
Definition is_immediate (wr : ib_send_wr) : bool :=
  (Z.land (swr_send_flags wr) IB_SEND_SIGNALED =? 0) && (swr_opcode wr =? IB_WR_RDMA_WRITE).

(** The requests that a queue pair takes: no reserved key, and what follows the
    entry fits its slot. *)
Definition key_ok (wr : ib_send_wr) : Prop :=
  ntrdma_send_opcode_is_rdma (swr_opcode wr) = true → swr_rkey wr ≠ NTRDMA_RESERVED_DMA_LEKY.

Definition payload_ok (b : qp_bufs) (wr : ib_send_wr) : Prop :=
  if wr_inline wr
  then ∃ d, user_bytes (wr_sges wr) = Some d ∧ Z.of_nat (length d) <= send_wqe_inline_cap b
  else Forall (λ s, ntrdma_ib_sge_reserved s = false) (wr_sges wr).

Definition acceptable (b : qp_bufs) (wr : ib_send_wr) : Prop :=
  swr_num_sge wr <= send_wqe_sg_cap b ∧ swr_opcode wr <= NTRDMA_SEND_WR_MAX_SUPPORTED
  ∧ key_ok wr ∧ payload_ok b wr.

(** An entry that stands for a request; the receive of a send, and the length
    of an RDMA operation, are not known yet. *)
Definition entry_head (wr : ib_send_wr) (e : ntrdma_send_wqe) : Prop :=
  sw_ulp_handle e = swr_wr_id wr ∧ sw_op_code e = swr_opcode wr ∧ sw_op_status e = 0
  ∧ sw_imm_data e = swr_imm_data wr ∧ sw_flags e = swr_send_flags wr
  ∧ (ntrdma_send_opcode_is_rdma (swr_opcode wr) = true →
     sge_addr (sw_rdma_sge e) = swr_remote_addr wr ∧ sge_lkey (sw_rdma_sge e) = swr_rkey wr).

Definition request_entry (wr : ib_send_wr) (e : ntrdma_send_wqe) : Prop :=
  entry_head wr e
  ∧ if wr_inline wr then user_bytes (wr_sges wr) = Some (wqe_inline e) else wqe_sges e = wr_sges wr.

(** The list of a request has at least [num_sge] entries, and the numbers are
    those of their C types. *)
Definition wr_ok (wr : ib_send_wr) : Prop :=
  0 <= swr_num_sge wr < 2 ^ 31 ∧ (Z.to_nat (swr_num_sge wr) ≤ length (swr_sg_list wr))%nat
  ∧ 0 <= swr_opcode wr < 2 ^ 31 ∧ Forall snd_sge_ok (swr_sg_list wr).

Fixpoint lens (l : list ib_sge) : Z :=
  match l with [] => 0 | s :: l => sge_length s + lens l end.

Lemma lens_nonneg l : Forall snd_sge_ok l → 0 <= lens l.
Proof. induction 1 as [|s l Hs _ IH]; cbn; [done|]. destruct Hs as [Hs _]. unfold is_u32 in Hs. lia. Qed.

Lemma copy_sges_spec l rc l' :
  copy_sges l = (rc, l') →
  if decide (Forall (λ s, ntrdma_ib_sge_reserved s = false) l) then rc = 0 ∧ l' = l else rc = - EINVAL.
Proof.
  revert rc l'. induction l as [|s l IH]; intros rc l' H; cbn in H; [by injection H as <- <-|].
  destruct (ntrdma_ib_sge_reserved s) eqn:Hs.
  { injection H as <- <-. rewrite decide_False; [done|]. inversion 1; congruence. }
  destruct (copy_sges l) as [rc1 l1]. injection H as <- <-. specialize (IH _ _ eq_refl). 
  destruct (decide (Forall _ l)) as [Hf|Hf].
  - destruct IH as [-> ->]. by rewrite decide_True by by constructor.
  - rewrite decide_False; [done|]. by inversion 1.
Qed.

(** The lengths are added up without a wrap. *)
Lemma inline_size_spec l avail : ∀ tail,
  Forall snd_sge_ok l → 0 <= tail <= avail → avail < 2 ^ 32 →
  if decide (tail + lens l <= avail) then inline_size l avail tail = inl (tail + lens l)
  else ∃ rc, inline_size l avail tail = inr rc ∧ rc < 0.
Proof.
  induction l as [|s l IH]; intros tail Hl Ht Ha; cbn [inline_size lens].
  { rewrite Z.add_0_r, decide_True by lia. done. }
  inversion Hl as [|? ? [Hs _] Hl']; subst. unfold is_u32 in Hs. pose proof (lens_nonneg l Hl').
  destruct (Z.eqb_spec (sge_length s) 0) as [->|Hz]; [apply IH; done|].
  rewrite u64_small by (unfold is_u64; lia).
  destruct (Z.ltb_spec (tail + sge_length s) tail); [lia|].
  destruct (Z.ltb_spec avail (tail + sge_length s)).
  { rewrite decide_False by lia. by eexists. }
  specialize (IH (tail + sge_length s) Hl' ltac:(lia) Ha). by rewrite Z.add_assoc.
Qed.

Lemma user_bytes_zero l : Forall snd_sge_ok l → lens l <= 0 → user_bytes l = Some [].
Proof.
  induction 1 as [|s l Hs Hl IH]; cbn; [done|]. destruct Hs as [Hs _]. unfold is_u32 in Hs.
  pose proof (lens_nonneg l Hl). intros Hz. destruct (Z.eqb_spec (sge_length s) 0); [apply IH; lia|lia].
Qed.

(** The whole list is copied, and nothing that follows it. *)
Lemma copy_inline_spec l more len : ∀ tail,
  Forall snd_sge_ok l → 0 <= tail → len = tail + lens l → len < 2 ^ 32 →
  match user_bytes l with
  | Some d => copy_inline copy_from_user (l ++ more) len tail = Some (0, d)
  | None => ∃ rc d, copy_inline copy_from_user (l ++ more) len tail = Some (rc, d) ∧ rc < 0
  end.
Proof.
  induction l as [|s l IH]; intros tail Hl Ht Hlen H64.
  - cbn in *. destruct more; cbn; by rewrite (proj2 (Z.leb_le _ _)) by lia.
  - pose proof (lens_nonneg _ Hl). cbn [app copy_inline]. destruct (Z.leb_spec len tail) as [Hle|Hgt].
    { by rewrite user_bytes_zero by (done || lia). }
    inversion Hl as [|? ? [Hs _] Hl']; subst. unfold is_u32 in Hs. pose proof (lens_nonneg _ Hl').
    cbn [lens user_bytes] in *. destruct (Z.eqb_spec (sge_length s) 0) as [Hz|Hz].
    { apply IH; (done || lia). }
    destruct (copy_from_user (sge_addr s) (sge_length s)) as [d|]; [|by do 2 eexists].
    rewrite u64_small by (unfold is_u64; lia).
    specialize (IH (tail + sge_length s) Hl' ltac:(lia) ltac:(lia) ltac:(lia)).
    destruct (user_bytes l) as [d'|]; [by rewrite IH|].
    destruct IH as (rc & d' & -> & Hrc). by do 2 eexists.
Qed.

Context (Huser : ∀ a n d, copy_from_user a n = Some d → Z.of_nat (length d) = n).

Lemma user_bytes_length l d : user_bytes l = Some d → Z.of_nat (length d) = lens l.
Proof.
  revert d. induction l as [|s l IH]; intros d H; cbn in *; [by injection H as <-|].
  destruct (Z.eqb_spec (sge_length s) 0) as [Hz|]; [rewrite (IH _ H); lia|].
  destruct (copy_from_user _ _) as [d1|] eqn:H1; [|done]. destruct (user_bytes l) as [d2|]; [|done].
  injection H as <-. rewrite length_app, Nat2Z.inj_add, (Huser _ _ _ H1), (IH _ eq_refl). done.
Qed.

(** ** From a request to its entry *)

Context (b : qp_bufs) (Hcaps : 0 <= send_wqe_inline_cap b < 2 ^ 31 ∧ 0 <= send_wqe_sg_cap b < 2 ^ 31).

Definition wr_count (wr : ib_send_wr) : Z := if wr_inline wr then lens (wr_sges wr) else swr_num_sge wr.

Lemma wr_sges_ok wr : wr_ok wr → Forall snd_sge_ok (wr_sges wr).
Proof. intros (_ & _ & _ & H). by apply Forall_take. Qed.

Lemma send_to_wqe_spec wr old :
  wr_ok wr → swr_opcode wr <= NTRDMA_SEND_WR_MAX_SUPPORTED →
  let '(rc, w) := ntrdma_ib_send_to_wqe (send_wqe_inline_cap b) wr old in
  (rc = 0 ∧ key_ok wr ∧ entry_head wr w ∧ sw_sg_count w = wr_count wr
   ∧ (wr_inline wr = true → lens (wr_sges wr) <= send_wqe_inline_cap b))
  ∨ (rc < 0 ∧ (¬ key_ok wr ∨ wr_inline wr = true ∧ send_wqe_inline_cap b < lens (wr_sges wr))).
Proof.
  intros Hok Hop. pose proof (wr_sges_ok wr Hok) as Hs. destruct Hok as (Hn & Hlen & Hop0 & _).
  change NTRDMA_SEND_WR_MAX_SUPPORTED with 4 in Hop.
  unfold ntrdma_ib_send_to_wqe, key_ok, entry_head, wr_count.
  assert (u16 (swr_opcode wr) = swr_opcode wr) as -> by (apply Z.mod_small; lia).
  rewrite (u64_small (send_wqe_inline_cap b)) by (unfold is_u64; lia).
  assert (∀ h st k g i n l d, ntrdma_send_wqe_is_inline
    (mk_send_wqe h (swr_opcode wr) st k g i (swr_send_flags wr) n l d) = wr_inline wr) as -> by done.
  pose proof (lens_nonneg _ Hs) as Hnn.
  pose proof (inline_size_spec (wr_sges wr) (send_wqe_inline_cap b) 0 Hs ltac:(lia) ltac:(lia)) as Hi.
  fold (wr_sges wr). destruct (ntrdma_send_opcode_is_rdma (swr_opcode wr)) eqn:Hr; cbn [andb sge_lkey].
  - destruct (Z.eqb_spec (swr_rkey wr) NTRDMA_RESERVED_DMA_LEKY) as [Hk|Hk].
    { right. split; [done|]. left. intros H. by apply H. }
    destruct (wr_inline wr) eqn:Hin.
    + destruct (decide _) as [Hle|Hgt].
      * rewrite Hi. left. cbn. rewrite u32_small by (unfold is_u32; lia). by split_and!.
      * destruct Hi as (rc & -> & Hrc). right. split; [done|]. right. split; [done|lia].
    + left. cbn. rewrite u32_small by (unfold is_u32; lia). by split_and!.
  - assert (wr_inline wr = false) as Hin.
    { unfold wr_inline. unfold ntrdma_send_opcode_is_rdma in Hr.
      destruct (swr_opcode wr =? IB_WR_RDMA_WRITE); [by rewrite orb_true_r in Hr|done]. }
    rewrite Hin. left. cbn. rewrite u32_small by (unfold is_u32; lia). by split_and!.
Qed.

(** What follows the entry. *)
Lemma payload_spec wr w :
  wr_ok wr → entry_head wr w → sw_sg_count w = wr_count wr →
  (wr_inline wr = true → lens (wr_sges wr) <= send_wqe_inline_cap b) →
  ∃ rc w', (if ntrdma_send_wqe_is_inline w then ntrdma_ib_send_to_inline_wqe copy_from_user (swr_sg_list wr) w
            else ntrdma_ib_send_to_wqe_sgl (swr_sg_list wr) w) = Some (rc, w')
    ∧ (rc = 0 ∧ payload_ok b wr ∧ request_entry wr w' ∨ rc < 0 ∧ ¬ payload_ok b wr).
Proof.
  intros Hok (Hh & Ho & Hst & Him & Hf & Hr) Hc Hle. pose proof (wr_sges_ok wr Hok) as Hs.
  destruct Hok as (Hn & Hlen & Hop & _). unfold wr_count in Hc.
  assert (ntrdma_send_wqe_is_inline w = wr_inline wr) as ->.
  { unfold ntrdma_send_wqe_is_inline, wr_inline. by rewrite Ho, Hf. }
  unfold payload_ok, request_entry, entry_head. destruct (wr_inline wr) eqn:Hin.
  - unfold ntrdma_ib_send_to_inline_wqe. rewrite Hc, <- (take_drop (Z.to_nat (swr_num_sge wr)) (swr_sg_list wr)).
    fold (wr_sges wr). specialize (Hle eq_refl).
    pose proof (copy_inline_spec (wr_sges wr) (drop (Z.to_nat (swr_num_sge wr)) (swr_sg_list wr))
                  (lens (wr_sges wr)) 0 Hs ltac:(lia) ltac:(lia) ltac:(lia)) as Hcp.
    destruct (user_bytes (wr_sges wr)) as [d|] eqn:Hd.
    + rewrite Hcp. pose proof (user_bytes_length _ _ Hd) as Hl. do 2 eexists. split; [done|]. left.
      split; [done|]. split; [exists d; split; [done|lia]|]. split; [by split_and!|].
      unfold wqe_inline. cbn. rewrite Hc, take_app_le, take_ge by lia. done.
    + destruct Hcp as (rc & d & -> & Hrc). do 2 eexists. split; [done|]. right. split; [done|]. by intros (? & ? & _).
  - unfold ntrdma_ib_send_to_wqe_sgl. rewrite Hc. destruct (Nat.ltb_spec (length (swr_sg_list wr)) (Z.to_nat (swr_num_sge wr))); [lia|].
    fold (wr_sges wr). destruct (copy_sges (wr_sges wr)) as [rc l] eqn:Hcp. apply copy_sges_spec in Hcp.
    do 2 eexists. split; [done|]. destruct (decide _) as [Hfa|Hfa].
    + destruct Hcp as [-> ->]. left. split; [done|]. split; [done|]. split; [by split_and!|].
      unfold wqe_sges. cbn. rewrite Hc, take_app_le, take_ge; [done| |]; unfold wr_sges; rewrite length_take; lia.
    + subst rc. by right.
Qed.

End Requests.

(** ** One request *)

Section Post.
Context {W : Type} `{M : MemStore W} `{MO : !MemStoreOk W} `{K : Kernel} (ntc : ntc_dev).
Context (copy_from_user : Z → Z → option (list Z)).
Context (Huser : ∀ a n d, copy_from_user a n = Some d → Z.of_nat (length d) = n).

(** An RDMA write gives back what it takes and changes nothing in the entry but
    its length. *)
Lemma rdma_write_ok wqe (z : zip_world W) :
  mem_wf (zw_mem z) → store_ok (zw_mem z) →
  (if negb (Z.land (sw_flags wqe) IB_SEND_INLINE =? 0) then is_u32 (Z.of_nat (length (wqe_inline wqe)))
   else Forall snd_sge_ok (wqe_sges wqe)) →
  ∃ rc e z', ntrdma_qp_rdma_write ntc wqe z = Some (rc, e, z') ∧ rc <= 0 ∧ zw_mem z' = zw_mem z
    ∧ ∀ wr, request_entry copy_from_user wr wqe → request_entry copy_from_user wr e.
Proof.
  intros Hwf Hst Hp. unfold ntrdma_qp_rdma_write. destruct (ntrdma_ib_sge_reserved _) eqn:Hres.
  { do 3 eexists. by split_and!. }
  assert (Forall (rcv_sge_ok ntc)
    [RcvSge (mk_sge (sge_addr (sw_rdma_sge wqe)) (2 ^ 32 - 1) (sge_lkey (sw_rdma_sge wqe)))]) as Hrcv.
  { constructor; [|constructor]. split; [done|]. cbn. intros Hk. unfold ntrdma_ib_sge_reserved in Hres.
    by rewrite Hk, Z.eqb_refl in Hres. }
  assert (∀ n wr, request_entry copy_from_user wr wqe → request_entry copy_from_user wr (wqe_set_length n wqe)) as Hset.
  { intros n wr H. by destruct wqe. }
  destruct (negb (Z.land (sw_flags wqe) IB_SEND_INLINE =? 0)).
  - destruct (zip_rdma_imm_total ntc _ (wqe_inline wqe) 0 z Hwf Hst Hrcv ltac:(done) Hp) as ([rc z'] & -> & Hm & Hpost).
    do 3 eexists. split; [done|]. split; [naive_solver lia|]. split; [done|]. intros wr H. destruct (0 <=? rc); auto.
  - destruct (zip_rdma_total ntc 0 _ (wqe_sges wqe) 0
      (if negb (Z.land (sw_flags wqe) IB_SEND_SIGNALED =? 0) then NTC_DMA_WAIT else NTC_DMA_DONT_WAIT)
      z Hwf Hst Hp Hrcv ltac:(done)) as ([[rc len] z'] & -> & Hm & Hpost).
    do 3 eexists. split; [done|]. split; [naive_solver lia|]. split; [done|]. intros wr H. destruct (0 <=? rc); auto.
Qed.

(** The queue pair after [w] was stored in slot [pos]; [c]: the DMA channel is
    set up. *)
Definition slot_set (pos : Z) (w : ntrdma_send_wqe) (c : bool) (q : ntrdma_qp) : ntrdma_qp :=
  qp_write_wqe pos w (qp_set_state (qp_state q) c q).

Lemma slot_set_id pos old q :
  sq_wqes (qp_send q) !! Z.to_nat pos = Some old → slot_set pos old (dma_chan_init q) q = q.
Proof.
  intros H. destruct q as [? ? ? ? ? ? [] ? ?]. cbn in *. unfold slot_set, qp_write_wqe, qp_set_state, qp_set_send, sq_set_wqes.
  cbn. by rewrite list_insert_id.
Qed.

Lemma slot_set_unset pos w q : slot_set pos w (dma_chan_init q) q = qp_write_wqe pos w q.
Proof. by destruct q. Qed.

(** What may become of a request. *)
Inductive posted (pos : Z) (wr : ib_send_wr) (s : post_run (W := W)) : Z → post_run → Prop :=
| posted_refused rc w c :
    rc < 0 → ¬ acceptable copy_from_user (qp_buf (po_qp s)) wr →
    posted pos wr s rc (mk_post (slot_set pos w c (po_qp s)) (po_zip s) (po_immediate s) (po_deferred s) (po_done s))
| posted_failed rc e0 e c z :
    rc < 0 → acceptable copy_from_user (qp_buf (po_qp s)) wr → is_immediate wr = true →
    request_entry copy_from_user wr e0 → ntrdma_qp_rdma_write ntc e0 (po_zip s) = Some (rc, e, z) →
    zw_mem z = zw_mem (po_zip s) →
    posted pos wr s rc (mk_post (slot_set pos e c (po_qp s)) z (po_immediate s) (po_deferred s) (po_done s))
| posted_executed e0 e c z :
    acceptable copy_from_user (qp_buf (po_qp s)) wr → is_immediate wr = true →
    request_entry copy_from_user wr e0 → ntrdma_qp_rdma_write ntc e0 (po_zip s) = Some (0, e, z) →
    request_entry copy_from_user wr e → zw_mem z = zw_mem (po_zip s) →
    posted pos wr s 1 (mk_post (slot_set pos e c (po_qp s)) z true (po_deferred s) (po_done s ++ [(true, e)]))
| posted_queued w c :
    acceptable copy_from_user (qp_buf (po_qp s)) wr → is_immediate wr = false → request_entry copy_from_user wr w →
    posted pos wr s 0 (mk_post (slot_set pos w c (po_qp s)) (po_zip s) (po_immediate s) true
                         (po_done s ++ [(false, w)])).

(** From the entry's head to the end of the request. *)
Lemma post_send_wqe_ok wr pos w (s : post_run (W := W)) :
  mem_wf (zw_mem (po_zip s)) → store_ok (zw_mem (po_zip s)) →
  0 <= send_wqe_inline_cap (qp_buf (po_qp s)) < 2 ^ 31 ∧ 0 <= send_wqe_sg_cap (qp_buf (po_qp s)) < 2 ^ 31 →
  wr_ok wr → entry_head wr w → sw_sg_count w = wr_count wr →
  (wr_inline wr = true → lens (wr_sges wr) <= send_wqe_inline_cap (qp_buf (po_qp s))) →
  (payload_ok copy_from_user (qp_buf (po_qp s)) wr → acceptable copy_from_user (qp_buf (po_qp s)) wr) →
  ∃ rc w' q' z', ntrdma_post_send_wqe ntc copy_from_user (swr_sg_list wr) w (po_qp s) (po_zip s) = Some (rc, w', q', z')
    ∧ posted pos wr s rc
        (if rc <? 0 then mk_post (qp_write_wqe pos w' q') z' (po_immediate s) (po_deferred s) (po_done s)
         else if 0 <? rc then mk_post (qp_write_wqe pos w' q') z' true (po_deferred s) (po_done s ++ [(true, w')])
         else mk_post (qp_write_wqe pos w' q') z' (po_immediate s) true (po_done s ++ [(false, w')])).
Proof.
  intros Hwf Hst Hcaps Hok Hh Hc Hle Hacc0. set (q := po_qp s) in *. set (b := qp_buf q) in *.
  unfold ntrdma_post_send_wqe.
  destruct (payload_spec copy_from_user Huser b Hcaps wr w Hok Hh Hc Hle) as (rc & w' & -> & Hp).
  destruct Hp as [(-> & Hp & He)|[Hrc Hp]]; cycle 1.
  { rewrite (proj2 (Z.ltb_lt _ _)) by done. do 4 eexists. split; [done|].
    rewrite (proj2 (Z.ltb_lt _ _)) by done.
    rewrite <- slot_set_unset. apply posted_refused; [done|]. intros (_ & _ & _ & ?). done. }
  pose proof (Hacc0 Hp) as Hacc.
  change (0 <? 0) with false. cbv iota. destruct He as [(Hid & Hopc & Hst' & Himm & Hfl & Hrd) Hpay].
  assert (negb (Z.land (sw_flags w') IB_SEND_SIGNALED =? 0) || negb (sw_op_code w' =? IB_WR_RDMA_WRITE)
          = negb (is_immediate wr)) as ->.
  { unfold is_immediate. by rewrite Hfl, Hopc, negb_andb. }
  destruct (is_immediate wr) eqn:Hi; cbn [negb].
  2:{ do 4 eexists. split; [done|]. change (0 <? 0) with false. cbv iota. rewrite <- slot_set_unset. by apply posted_queued. }
  set (q' := if ntrdma_ib_sge_reserved (sw_rdma_sge w') then q else qp_init_chan q).
  assert (∃ c, ∀ w, qp_write_wqe pos w q' = slot_set pos w c q) as [c Hq].
  { subst q'. destruct (ntrdma_ib_sge_reserved _); [exists (dma_chan_init q)|by exists true].
    intros w1. by rewrite slot_set_unset. }
  destruct (rdma_write_ok w' (po_zip s) Hwf Hst) as (rc & e & z' & Hrw & Hrc & Hm & Hreq).
  { assert (wr_inline wr = negb (Z.land (sw_flags w') IB_SEND_INLINE =? 0)) as <-.
    { unfold wr_inline. unfold is_immediate in Hi. apply andb_true_iff in Hi as [_ ->]. by rewrite Hfl. }
    unfold payload_ok in Hp. destruct (wr_inline wr).
    - destruct Hp as (d & Hd & Hl). rewrite Hpay in Hd. injection Hd as ->. unfold is_u32. lia.
    - rewrite Hpay. by apply wr_sges_ok. }
  rewrite Hrw. do 4 eexists. split; [done|]. rewrite Hq. destruct (Z.ltb_spec rc 0).
  - rewrite (proj2 (Z.ltb_lt _ _)) by done.
    by eapply posted_failed; [..|exact Hrw|].
  - assert (rc = 0) as -> by lia. cbn.
    by eapply posted_executed; [..|exact Hrw| |]; [| | |apply Hreq|].
Qed.

Lemma post_one_ok wr pos (s : post_run (W := W)) :
  mem_wf (zw_mem (po_zip s)) → store_ok (zw_mem (po_zip s)) →
  0 <= send_wqe_inline_cap (qp_buf (po_qp s)) < 2 ^ 31 → 0 <= send_wqe_sg_cap (qp_buf (po_qp s)) < 2 ^ 31 →
  wr_ok wr → is_Some (sq_wqes (qp_send (po_qp s)) !! Z.to_nat pos) →
  ∃ rc s', post_one ntc copy_from_user wr pos s = Some (rc, s') ∧ posted pos wr s rc s'.
Proof.
  intros Hwf Hst Hic Hsc Hok [old Hold]. unfold post_one. set (q := po_qp s) in *. set (b := qp_buf q) in *.
  pose proof Hok as (Hn & Hlen & Hop & Hsg).
  rewrite !u32_small by (unfold is_u32; lia).
  assert (¬ acceptable copy_from_user b wr → posted pos wr s (- EINVAL) s) as Hsame.
  { intros Ha. pose proof (posted_refused pos wr s (- EINVAL) old (dma_chan_init q) ltac:(done) Ha) as H.
    fold q in H. rewrite slot_set_id in H by done. by destruct s. }
  destruct (Z.ltb_spec (send_wqe_sg_cap b) (swr_num_sge wr)).
  { do 2 eexists. split; [done|]. apply Hsame. intros (? & _). lia. }
  destruct (Z.ltb_spec NTRDMA_SEND_WR_MAX_SUPPORTED (swr_opcode wr)).
  { do 2 eexists. split; [done|]. apply Hsame. intros (_ & ? & _). lia. }
  rewrite Hold. pose proof (send_to_wqe_spec b (conj Hic Hsc) wr old Hok ltac:(lia)) as Hw.
  destruct (ntrdma_ib_send_to_wqe _ _ _) as [rc w].
  destruct Hw as [(-> & Hk & Hh & Hc & Hle)|[Hrc Hna]]; cycle 1.
  { rewrite (proj2 (Z.ltb_lt _ _)) by done. do 2 eexists. split; [done|].
    rewrite <- slot_set_unset. apply posted_refused; [done|]. intros (_ & _ & Hk & Hp).
    destruct Hna as [?|[Hin Hgt]]; [done|]. unfold payload_ok in Hp. rewrite Hin in Hp. destruct Hp as (d & Hd & Hl).
    rewrite (user_bytes_length _ Huser _ _ Hd) in Hl. fold q b in Hl. lia. }
  change (0 <? 0) with false. cbv iota.
  destruct (post_send_wqe_ok wr pos w s Hwf Hst (conj Hic Hsc) Hok Hh Hc Hle) as (rc & w' & q' & z' & Hrun & Hp).
  { intros Hp. by split_and!. }
  unfold q. rewrite Hrun. by do 2 eexists.
Qed.

(** ** The requests that were taken *)

(** The entries that were queued and those that were executed at once. *)
Definition queued (l : list (bool * ntrdma_send_wqe)) : list ntrdma_send_wqe :=
  omap (λ d : bool * ntrdma_send_wqe, if d.1 then None else Some d.2) l.
Definition executed (l : list (bool * ntrdma_send_wqe)) : list ntrdma_send_wqe :=
  omap (λ d : bool * ntrdma_send_wqe, if d.1 then Some d.2 else None) l.

Lemma queued_snoc l (i : bool) e : queued (l ++ [(i, e)]) = queued l ++ (if i then [] else [e]).
Proof. unfold queued. rewrite omap_app. by destruct i. Qed.
Lemma executed_snoc l (i : bool) e : executed (l ++ [(i, e)]) = executed l ++ (if i then [e] else []).
Proof. unfold executed. rewrite omap_app. by destruct i. Qed.

(** The RDMA writes of the entries, one after the other. *)
Inductive executions (z : zip_world W) : list ntrdma_send_wqe → zip_world W → Prop :=
| executions_nil : executions z [] z
| executions_snoc l z1 e0 e z2 :
    executions z l z1 → ntrdma_qp_rdma_write ntc e0 z1 = Some (0, e, z2) → executions z (l ++ [e]) z2.

Context (cap : Z) (Hcap : cap_ok cap) (CM X : nat) (ents : list ntrdma_send_wqe) (q0 : ntrdma_qp) (z0 : zip_world W).

(** How an entry answers its request. *)
Definition answers (wr : ib_send_wr) (d : bool * ntrdma_send_wqe) : Prop :=
  acceptable copy_from_user (qp_buf q0) wr ∧ request_entry copy_from_user wr d.2 ∧ d.1 = is_immediate wr.

(** After [taken] was taken; [z1] is the world after the writes of its executed
    requests.  Nothing but the slots, the index and the DMA channel changes in
    the queue pair. *)
Record post_inv (taken : list ib_send_wr) (z1 : zip_world W) (s : post_run (W := W)) : Prop := {
  pi_taken : Forall2 answers taken (po_done s);
  pi_poll : spoll cap CM (avail X (ents ++ queued (po_done s)) q0) (ents ++ queued (po_done s)) (po_qp s);
  pi_exec : executions z0 (executed (po_done s)) z1;
  pi_mem : zw_mem (po_zip s) = zw_mem z0;
  pi_frame : ∃ wqes post chan, po_qp s = qp_set_state (qp_state q0) chan
      (qp_set_send (sq_set_post post (sq_set_wqes wqes (qp_send q0))) q0);
  pi_flags : po_immediate s = existsb fst (po_done s) ∧ po_deferred s = existsb (negb ∘ fst) (po_done s) }.

Definition fill (s : post_run (W := W)) : nat := length (ents ++ queued (po_done s)).

(** Writing to the next free slot. *)
Lemma spoll_slot Y l w c q :
  spoll cap CM Y l q → Z.of_nat (length l) < Z.of_nat CM + cap →
  spoll cap CM Y l (slot_set (nslot cap (length l)) w c q).
Proof.
  intros [Hc Hle Hcl Hpo Hcm Hh Ho Hw Hav] Hlt. constructor; cbn; rewrite ?length_insert; try done.
  destruct Hh as [Hl Hh]. split; [done|]. intros n Hn. rewrite <- Hh by done.
  apply list_lookup_insert_ne. pose proof (nslot_range cap Hcap n). pose proof (nslot_range cap Hcap (length l)).
  intros He. assert (length l = n); [|lia]. apply (nslot_inj cap _ _ CM); lia.
Qed.

(** The entry in the next free slot is posted. *)
Lemma spoll_push Y l w c q :
  spoll cap CM Y l q → Z.of_nat (length l) < Z.of_nat CM + cap →
  spoll cap CM (if send_abort (qp_flags q) then length (l ++ [w]) else Y) (l ++ [w])
    (qp_set_send (sq_set_post (nenc cap (length (l ++ [w])))
       (qp_send (slot_set (nslot cap (length l)) w c q))) (slot_set (nslot cap (length l)) w c q)).
Proof.
  intros [Hc Hle Hcl Hpo Hcm Hh Ho Hw Hav] Hlt. rewrite length_app. cbn [length].
  constructor; cbn; rewrite ?length_insert, ?length_app; try done; cbn [length].
  - rewrite Nat.add_1_r. apply holds_snoc; (done || lia).
  - destruct (send_abort _); lia.
  - lia.
  - destruct (send_abort _); [done|]. destruct Hav as [Hco Hav]. split; [done|].
    intros i e x Hi He. rewrite lookup_app_l in He by lia. by apply Hav.
Qed.

Lemma post_inv_flags taken z1 s : post_inv taken z1 s → qp_flags (po_qp s) = qp_flags q0.
Proof. intros Hi. destruct (pi_frame _ _ _ Hi) as (wqes & post & chan & ->). done. Qed.

(** A slot is written, the world moves on, no request is taken. *)
Lemma post_inv_slot taken z1 s w c z :
  post_inv taken z1 s → Z.of_nat (fill s) < Z.of_nat CM + cap → zw_mem z = zw_mem z0 →
  post_inv taken z1
    (mk_post (slot_set (nslot cap (fill s)) w c (po_qp s)) z (po_immediate s) (po_deferred s) (po_done s)).
Proof.
  intros [Ht Hp He Hm Hf Hfl] Hlt Hz. constructor; cbn; try done.
  - by apply spoll_slot.
  - destruct Hf as (wqes & post & chan & ->). by do 3 eexists.
Qed.

Lemma post_inv_execute taken s wr e0 e c z :
  post_inv taken (po_zip s) s → Z.of_nat (fill s) < Z.of_nat CM + cap → zw_mem z = zw_mem (po_zip s) →
  acceptable copy_from_user (qp_buf q0) wr → is_immediate wr = true → request_entry copy_from_user wr e →
  ntrdma_qp_rdma_write ntc e0 (po_zip s) = Some (0, e, z) →
  post_inv (taken ++ [wr]) z
    (mk_post (slot_set (nslot cap (fill s)) e c (po_qp s)) z true (po_deferred s) (po_done s ++ [(true, e)])).
Proof.
  intros [Ht Hp He Hm Hf [Hfi Hfd]] Hlt Hz Ha Hi Hr Hw. constructor; cbn.
  - apply Forall2_app; [done|]. constructor; [by split_and!|constructor].
  - rewrite queued_snoc, app_nil_r. by apply spoll_slot.
  - rewrite executed_snoc. by eapply executions_snoc.
  - congruence.
  - destruct Hf as (wqes & post & chan & ->). by do 3 eexists.
  - rewrite !existsb_app, Hfd. cbn. by rewrite orb_true_r, orb_false_r.
Qed.

Lemma post_inv_queue taken s wr w c :
  post_inv taken (po_zip s) s → Z.of_nat (fill s) < Z.of_nat CM + cap →
  acceptable copy_from_user (qp_buf q0) wr → is_immediate wr = false → request_entry copy_from_user wr w →
  post_inv (taken ++ [wr]) (po_zip s)
    (mk_post (qp_set_send (sq_set_post (nenc cap (S (fill s)))
                (qp_send (slot_set (nslot cap (fill s)) w c (po_qp s)))) (slot_set (nslot cap (fill s)) w c (po_qp s)))
       (po_zip s) (po_immediate s) true (po_done s ++ [(false, w)])).
Proof.
  intros Hinv Hlt Ha Hi Hr. pose proof (post_inv_flags _ _ _ Hinv) as Hflags.
  destruct Hinv as [Ht Hp He Hm Hf [Hfi Hfd]]. constructor; cbn.
  - apply Forall2_app; [done|]. constructor; [by split_and!|constructor].
  - rewrite queued_snoc, app_assoc. pose proof (spoll_push _ _ w c _ Hp Hlt) as H.
    rewrite length_app in H at 2. cbn [length] in H. rewrite Nat.add_1_r in H. fold (fill s) in H.
    rewrite Hflags in H. revert H. unfold avail. by destruct (send_abort (qp_flags q0)).
  - by rewrite executed_snoc, app_nil_r.
  - done.
  - destruct Hf as (wqes & post & chan & ->). by do 3 eexists.
  - rewrite !existsb_app, Hfi. cbn. by rewrite orb_true_r, orb_false_r.
Qed.

(** ** The loops *)

Context (Hwf : mem_wf (zw_mem z0)) (Hst : store_ok (zw_mem z0)).
Context (Hic : 0 <= send_wqe_inline_cap (qp_buf q0) < 2 ^ 31) (Hsc : 0 <= send_wqe_sg_cap (qp_buf q0) < 2 ^ 31).

(** Why the call ends before the end of the list: [z1] is the world before the
    request that failed. *)
Definition refused (rc : Z) (bad : list ib_send_wr) (z1 z : zip_world W) : Prop :=
  ∃ wr bad', bad = wr :: bad'
    ∧ (¬ acceptable copy_from_user (qp_buf q0) wr ∧ z = z1
       ∨ acceptable copy_from_user (qp_buf q0) wr ∧ is_immediate wr = true
         ∧ ∃ e0 e, request_entry copy_from_user wr e0 ∧ ntrdma_qp_rdma_write ntc e0 z1 = Some (rc, e, z)).

(** The start of the range and the slot of the next entry, [n]. *)
Definition base_of (n : nat) : Z := nenc cap n - nslot cap n.

Lemma base_next n : nslot cap n + 1 < cap → nslot cap (S n) = nslot cap n + 1 ∧ base_of (S n) = base_of n.
Proof.
  intros Hn. pose proof (cur_next cap Hcap (n + 2) n ltac:(lia)) as H. cbn [r_idx r_end r_base cur] in H.
  destruct (Z.eqb_spec (nslot cap n + 1)
    (nslot cap n + Z.min (Z.of_nat (n + 2 - n)) (cap - nslot cap n))); [lia|].
  unfold base_of. injection H as H1 _ H2. by split.
Qed.

Lemma base_put n : ntrdma_ring_update (nslot cap n + 1) (base_of n) cap = nenc cap (S n).
Proof. by apply post_put_ok. Qed.

Lemma post_inv_step taken wr (s : post_run (W := W)) :
  post_inv taken (po_zip s) (po_put (nslot cap (fill s)) (base_of (fill s)) s) →
  Z.of_nat (fill s) < Z.of_nat CM + cap → wr_ok wr →
  ∃ rc s', post_one ntc copy_from_user wr (nslot cap (fill s)) s = Some (rc, s')
    ∧ ((rc < 0 ∧ post_inv taken (po_zip s) (po_put (nslot cap (fill s)) (base_of (fill s)) s')
        ∧ refused rc [wr] (po_zip s) (po_zip s'))
       ∨ (rc = 1 ∧ fill s' = fill s
          ∧ post_inv (taken ++ [wr]) (po_zip s') (po_put (nslot cap (fill s)) (base_of (fill s)) s'))
       ∨ (rc = 0 ∧ fill s' = S (fill s)
          ∧ post_inv (taken ++ [wr]) (po_zip s') (po_put (nslot cap (fill s) + 1) (base_of (fill s)) s'))).
Proof.
  intros Hinv Hlt Hok. set (v := po_put _ _ s) in *.
  assert (qp_buf (po_qp s) = qp_buf q0) as Hbuf.
  { destruct (pi_frame _ _ _ Hinv) as (? & ? & ? & Hq). by apply (f_equal qp_buf) in Hq. }
  assert (zw_mem (po_zip s) = zw_mem z0) as Hm by apply (pi_mem _ _ _ Hinv).
  pose proof (sp_cap _ _ _ _ _ (pi_poll _ _ _ Hinv)) as Hc. pose proof (sp_len _ _ _ _ _ (pi_poll _ _ _ Hinv)) as Hlen.
  pose proof (nslot_range cap Hcap (fill s)) as Hn. cbn in Hc, Hlen.
  destruct (post_one_ok wr (nslot cap (fill s)) s) as (rc & s' & Hone & Hp); rewrite ?Hm, ?Hbuf; try done.
  { apply lookup_lt_is_Some_2. lia. }
  rewrite Hone. exists rc, s'. split; [done|]. unfold refused.
  destruct Hp as [rc w c Hrc Ha|rc e0 e c z Hrc Ha Hi He0 Hw Hz|e0 e c z Ha Hi He0 Hw He Hz|w c Ha Hi He];
    rewrite Hbuf in Ha.
  - left. split; [done|]. split; [by apply (post_inv_slot _ _ v w c (po_zip s) Hinv)|].
    exists wr, []. by auto.
  - left. split; [done|]. split; [apply (post_inv_slot _ _ v e c z Hinv); [done|congruence]|].
    exists wr, []. split; [done|]. right. by eauto 10.
  - right; left. split; [done|]. split; [unfold fill; cbn; by rewrite queued_snoc, app_nil_r|].
    by apply (post_inv_execute _ v wr e0 e c z Hinv).
  - right; right. split; [done|]. split.
    { unfold fill; cbn. rewrite queued_snoc, app_assoc, (length_app _ [w]). cbn. lia. }
    pose proof (post_inv_queue _ v wr w c Hinv Hlt Ha Hi He) as H. unfold po_put, ntrdma_qp_send_post_put.
    cbn in H |- *. rewrite Hc, base_put. exact H.
Qed.

Lemma post_range_ok wrs : ∀ taken (s : post_run (W := W)) base end_,
  wrs ≠ [] → Forall wr_ok wrs → base = base_of (fill s) →
  post_inv taken (po_zip s) (po_put (nslot cap (fill s)) base s) →
  nslot cap (fill s) < end_ <= cap → end_ - nslot cap (fill s) <= Z.of_nat CM + cap - Z.of_nat (fill s) →
  ∃ rc pos bad s' taken' z1, post_range ntc copy_from_user wrs (nslot cap (fill s)) end_ s = Some (rc, pos, bad, s')
    ∧ wrs = taken' ++ bad ∧ post_inv (taken ++ taken') z1 (po_put pos base s')
    ∧ (0 <= rc ∧ taken' ≠ [] ∧ z1 = po_zip s' ∨ rc < 0 ∧ refused rc bad z1 (po_zip s')).
Proof.
  induction wrs as [|wr rest IH]; intros taken s base end_ Hne Hok -> Hinv Hend Hwin; [done|clear Hne].
  inversion Hok as [|? ? Hwr Hrest]; subst. cbn [post_range].
  destruct (post_inv_step taken wr s Hinv ltac:(lia) Hwr) as (rc & s1 & -> & Hs).
  destruct Hs as [(Hrc & Hinv1 & Href)|Hs].
  { rewrite (proj2 (Z.ltb_lt _ _)) by done. exists rc, (nslot cap (fill s)), (wr :: rest), s1, [], (po_zip s).
    rewrite app_nil_r. split; [done|]. split; [done|]. split; [done|]. right. split; [done|].
    destruct Href as (wr' & bad' & [= -> <-] & H). by exists wr', rest. }
  assert (∃ pos, (if 0 <? rc then nslot cap (fill s) else nslot cap (fill s) + 1) = pos ∧ (rc <? 0) = false ∧ 0 <= rc
    ∧ post_inv (taken ++ [wr]) (po_zip s1) (po_put pos (base_of (fill s)) s1)
    ∧ (pos = end_ ∨ pos < end_ ∧ pos = nslot cap (fill s1) ∧ base_of (fill s) = base_of (fill s1)
       ∧ end_ - pos <= Z.of_nat CM + cap - Z.of_nat (fill s1))) as (pos & -> & -> & Hrc & Hinv1 & Hpos).
  { destruct Hs as [(-> & Hf & Hinv1)|(-> & Hf & Hinv1)]; eexists; (split; [reflexivity|]); cbn;
      (split; [done|]); (split; [done|]); (split; [exact Hinv1|]).
    - right. rewrite Hf. split_and!; (done || lia).
    - destruct (Z.eq_dec (nslot cap (fill s) + 1) end_); [by left|right].
      destruct (base_next (fill s) ltac:(lia)) as [Hn1 Hb1]. rewrite Hf, Hn1, Hb1. split_and!; (done || lia). }
  destruct rest as [|wr2 rest].
  { exists rc, pos, [], s1, [wr], (po_zip s1). split; [done|]. split; [done|]. split; [done|]. by left. }
  destruct Hpos as [->|(Hlt & -> & Hb & Hw)].
  { rewrite Z.eqb_refl. exists rc, end_, (wr2 :: rest), s1, [wr], (po_zip s1).
    split; [done|]. split; [done|]. split; [done|]. by left. }
  rewrite (proj2 (Z.eqb_neq _ _)) by lia.
  destruct (IH (taken ++ [wr]) s1 (base_of (fill s)) end_) as (rc' & pos' & bad & s' & taken' & z1 & -> & Hsplit & Hinv' & Hend');
    try done; [lia|].
  exists rc', pos', bad, s', (wr :: taken'), z1. split; [done|]. split; [by rewrite Hsplit|].
  rewrite <- app_assoc in Hinv'. split; [done|]. destruct Hend' as [(? & ? & ?)|?]; [by left|by right].
Qed.

(** Putting back a range of which nothing was used. *)
Lemma po_put_id taken z1 s : post_inv taken z1 s → po_put (nslot cap (fill s)) (base_of (fill s)) s = s.
Proof.
  intros Hinv. pose proof (pi_poll _ _ _ Hinv) as Hp.
  pose proof (sp_cap _ _ _ _ _ Hp) as Hc. pose proof (sp_post _ _ _ _ _ Hp) as Hpo.
  pose proof (cur_put cap Hcap (fill s) (fill s)) as Hu. cbn [r_idx r_base cur] in Hu.
  unfold po_put, ntrdma_qp_send_post_put. rewrite Hc. unfold base_of. rewrite Hu.
  fold (fill s) in Hpo. rewrite <- Hpo. destruct s as [[? ? ? ? ? ? [] ? ?] ? ? ? ?]. done.
Qed.

(** How a call ends. *)
Definition post_end (rc : Z) (bad : list ib_send_wr) (z1 : zip_world W) (s : post_run (W := W)) : Prop :=
  (rc = 0 ∧ bad = [] ∧ po_zip s = z1)
  ∨ (rc = - EAGAIN ∧ bad ≠ [] ∧ po_zip s = z1 ∧ Z.of_nat (fill s) = Z.of_nat CM + cap)
  ∨ (rc < 0 ∧ refused rc bad z1 (po_zip s)).

Lemma post_ranges_ok fuel : ∀ rc0 wrs taken (s : post_run (W := W)),
  (length wrs ≤ fuel)%nat → Forall wr_ok wrs → 0 <= rc0 → post_inv taken (po_zip s) s →
  ∃ rc bad s' taken' z1, post_ranges fuel ntc copy_from_user rc0 wrs s = Some (rc, bad, s')
    ∧ wrs = taken' ++ bad ∧ post_inv (taken ++ taken') z1 s'
    ∧ post_end (if 0 <? rc then 0 else rc) bad z1 s'.
Proof.
  induction fuel as [|fuel IH]; intros rc0 wrs taken s Hfuel Hok Hrc0 Hinv; (destruct wrs as [|wr wrs];
    [exists rc0, [], s, [], (po_zip s); rewrite (app_nil_r taken); split; [done|]; split; [done|]; split; [done|];
     left; destruct (Z.ltb_spec 0 rc0); split_and!; (done || lia)|]); [cbn in Hfuel; lia|].
  cbn [post_ranges]. pose proof (pi_poll _ _ _ Hinv) as Hp. pose proof (sp_order _ _ _ _ _ Hp) as Ho.
  pose proof (sp_win _ _ _ _ _ Hp) as Hw. fold (fill s) in Ho, Hw.
  assert (ntrdma_qp_send_post_get (qp_send (po_qp s))
    = ntrdma_ring_produce (nenc cap (fill s)) (nenc cap CM) cap) as ->.
  { unfold ntrdma_qp_send_post_get. by rewrite (sp_post _ _ _ _ _ Hp), (sp_cmpl _ _ _ _ _ Hp), (sp_cap _ _ _ _ _ Hp). }
  destruct (post_get_ok cap Hcap (fill s) CM ltac:(lia) ltac:(lia)) as [e He].
  pose proof (produce_nenc cap (fill s) CM Hcap ltac:(lia) ltac:(lia)) as Hr. rewrite He in Hr |- *.
  cbn [snd] in Hr. rewrite Hr. destruct (Z.eqb_spec (Z.of_nat (fill s) - Z.of_nat CM) cap); cbn [negb].
  { exists (- EAGAIN), (wr :: wrs), s, [], (po_zip s). rewrite (app_nil_r taken). split; [done|]. split; [done|]. split; [done|].
    right; left. split_and!; (done || lia). }
  cbn [r_idx r_end r_base]. pose proof (nslot_range cap Hcap (fill s)).
  destruct (post_range_ok (wr :: wrs) taken s (base_of (fill s))
    (nslot cap (fill s) + Z.min (cap - Z.of_nat (fill s - CM)) (cap - nslot cap (fill s)))) as
    (rc & pos & bad & s1 & taken1 & z1 & Hrun & Hsplit & Hinv1 & Hend); try done; [by erewrite po_put_id|lia|lia|].
  rewrite Hrun. fold (base_of (fill s)). destruct Hend as [(Hrc & Hne & ->)|[Hrc Href]].
  - rewrite (proj2 (Z.ltb_ge _ _)) by done.
    destruct (IH rc bad (taken ++ taken1) (po_put pos (base_of (fill s)) s1)) as
      (rc2 & bad2 & s2 & taken2 & z2 & -> & Hsplit2 & Hinv2 & Hend2); try done.
    { apply (f_equal length) in Hsplit. rewrite length_app in Hsplit. destruct taken1; [done|]. cbn in *. lia. }
    { rewrite Hsplit in Hok. by apply list.Forall_app in Hok as [_ ?]. }
    exists rc2, bad2, s2, (taken1 ++ taken2), z2. split; [done|].
    split; [by rewrite Hsplit, Hsplit2, app_assoc|]. split; [by rewrite app_assoc|done].
  - rewrite (proj2 (Z.ltb_lt _ _)) by done.
    exists rc, bad, (po_put pos (base_of (fill s)) s1), taken1, z1. split; [done|]. split; [done|]. split; [done|].
    rewrite (proj2 (Z.ltb_ge 0 rc)) by lia. right; right. done.
Qed.

Lemma post_send_locked_ok wrs :
  spoll cap CM X ents q0 → Forall wr_ok wrs →
  ∃ rc bad s taken z1, ntrdma_post_send_locked ntc copy_from_user wrs q0 z0 = Some (rc, bad, s)
    ∧ wrs = taken ++ bad ∧ post_inv taken z1 s ∧ post_end rc bad z1 s.
Proof.
  intros Hp Hok. unfold ntrdma_post_send_locked.
  destruct (post_ranges_ok (length wrs) 0 wrs [] (mk_post q0 z0 false false [])) as
    (rc & bad & s & taken & z1 & -> & Hsplit & Hinv & Hend); try done.
  - constructor; cbn; rewrite ?app_nil_r; try done.
    + by apply spoll_avail in Hp as [? _].
    + constructor.
    + exists (sq_wqes (qp_send q0)), (sq_post (qp_send q0)), (dma_chan_init q0). by destruct q0 as [? ? ? ? ? ? [] ? ?].
  - by exists (if 0 <? rc then 0 else rc), bad, s, taken, z1.
Qed.

End Post.

(** ** Posting *)

(** C40. [ntrdma_post_send_locked] takes the requests in order, up to the first
    that it has to refuse, and says where it stopped.  Whatever the requests
    are, the call ends; those before [bad] were all acceptable and each is
    answered: an unsignalled RDMA write was executed at once, in its turn and
    on the world that the writes before it left, and every other request is the
    next posted entry of the send queue, with its handle, operation, flags,
    address and key and with its scatter list or inline data, which fit the
    slot; the entries posted earlier, what may be polled and all references to
    memory regions are as before.  The call returns 0 when no request is left,
    -EAGAIN with the ring full, or the error of the first request in [bad]:
    one that is not acceptable, or an immediate write that failed. *)
Theorem posting_takes_requests_in_order `{MO : MemStoreOk W} `{K : Kernel} ntc copy_from_user cap CM X ents q wrs
    (z : zip_world W) :
  cap_ok cap → spoll cap CM X ents q → Forall wr_ok wrs →
  0 <= send_wqe_inline_cap (qp_buf q) < 2 ^ 31 → 0 <= send_wqe_sg_cap (qp_buf q) < 2 ^ 31 →
  (∀ a n d, copy_from_user a n = Some d → Z.of_nat (length d) = n) →
  mem_wf (zw_mem z) → store_ok (zw_mem z) →
  ∃ rc bad s taken z1,
    ntrdma_post_send_locked ntc copy_from_user wrs q z = Some (rc, bad, s)
    ∧ wrs = taken ++ bad
    ∧ Forall2 (λ wr d, acceptable copy_from_user (qp_buf q) wr ∧ request_entry copy_from_user wr d.2
                       ∧ d.1 = is_immediate wr) taken (po_done s)
    ∧ spoll cap CM (avail X (ents ++ queued (po_done s)) q) (ents ++ queued (po_done s)) (po_qp s)
    ∧ executions ntc z (executed (po_done s)) z1
    ∧ zw_mem (po_zip s) = zw_mem z
    ∧ po_immediate s = existsb fst (po_done s) ∧ po_deferred s = existsb (negb ∘ fst) (po_done s)
    ∧ ((rc = 0 ∧ bad = [] ∧ po_zip s = z1)
       ∨ (rc = - EAGAIN ∧ bad ≠ [] ∧ po_zip s = z1
          ∧ Z.of_nat (length (ents ++ queued (po_done s))) = Z.of_nat CM + cap)
       ∨ (rc < 0 ∧ refused ntc copy_from_user q rc bad z1 (po_zip s))).
Proof.
  intros Hcap Hp Hok Hic Hsc Huser Hwf Hst.
  destruct (post_send_locked_ok ntc copy_from_user Huser cap Hcap CM X ents q z Hwf Hst Hic Hsc wrs Hp Hok)
    as (rc & bad & s & taken & z1 & Hrun & Hsplit & [Ht Hpoll He Hm _ [Hi Hd]] & Hend).
  exists rc, bad, s, taken, z1. split_and!; [done|done|exact Ht|done|done|done|done|done|exact Hend].
Qed.

(** A region that is written at once, then a send and a signalled write that
    fill the ring, and one request too many. *)
Definition ex_user (a n : Z) : option (list Z) := if (a =? 0) || (n <? 0) then None else Some (repeat 7 (Z.to_nat n)).
Definition ex_wrs : list ib_send_wr :=
  [mk_send_wr 1 IB_WR_RDMA_WRITE IB_SEND_INLINE 0 8200 2 1 [mk_sge 100 5 0];
   mk_send_wr 2 IB_WR_SEND IB_SEND_SIGNALED 0 0 0 1 [mk_sge 4100 10 1];
   mk_send_wr 3 IB_WR_RDMA_WRITE IB_SEND_SIGNALED 0 8200 2 1 [mk_sge 4100 10 1];
   mk_send_wr 4 IB_WR_SEND IB_SEND_SIGNALED 0 0 0 1 [mk_sge 4100 10 1]].

Lemma ex_user_length a n d : ex_user a n = Some d → Z.of_nat (length d) = n.
Proof.
  unfold ex_user. destruct (a =? 0); [done|]. destruct (Z.ltb_spec n 0); [done|].
  intros [= <-]. rewrite repeat_length. lia.
Qed.

Lemma posting_takes_requests_in_order_witness :
  spoll 4 0 0 [ex_send 7; ex_send 8] ex_qp
  ∧ ∃ rc bad s taken z1,
    ntrdma_post_send_locked (K := kernel_good) ex_ntc ex_user ex_wrs ex_qp ex_world = Some (rc, bad, s)
    ∧ ex_wrs = taken ++ bad
    ∧ Forall2 (λ wr d, acceptable ex_user (qp_buf ex_qp) wr ∧ request_entry ex_user wr d.2
                       ∧ d.1 = is_immediate wr) taken (po_done s)
    ∧ spoll 4 0 (avail 0 ([ex_send 7; ex_send 8] ++ queued (po_done s)) ex_qp)
        ([ex_send 7; ex_send 8] ++ queued (po_done s)) (po_qp s)
    ∧ executions (K := kernel_good) ex_ntc ex_world (executed (po_done s)) z1
    ∧ zw_mem (po_zip s) = ex_store
    ∧ po_immediate s = existsb fst (po_done s) ∧ po_deferred s = existsb (negb ∘ fst) (po_done s)
    ∧ ((rc = 0 ∧ bad = [] ∧ po_zip s = z1)
       ∨ (rc = - EAGAIN ∧ bad ≠ [] ∧ po_zip s = z1
          ∧ Z.of_nat (length ([ex_send 7; ex_send 8] ++ queued (po_done s))) = 4)
       ∨ (rc < 0 ∧ refused (K := kernel_good) ex_ntc ex_user ex_qp rc bad z1 (po_zip s))).
Proof.
  split; [exact ex_spoll|].
  apply (posting_takes_requests_in_order (K := kernel_good) ex_ntc ex_user 4 0 0 [ex_send 7; ex_send 8] ex_qp
           ex_wrs ex_world).
  - split; reflexivity.
  - exact ex_spoll.
  - repeat apply List.Forall_cons; [..|apply List.Forall_nil];
      (split; [split; (discriminate || reflexivity)|split; [apply le_n|split; [split; (discriminate || reflexivity)|]]]);
      (apply List.Forall_cons; [|apply List.Forall_nil]);
      (split; [split; (discriminate || reflexivity)|split; (discriminate || reflexivity)]).
  - split; (discriminate || reflexivity).
  - split; (discriminate || reflexivity).
  - exact ex_user_length.
  - exact I.
  - exact ex_store_ok.
Defined.

(** The same, evaluated: the write is executed, two requests are queued. *)
Example posting_run :
  match ntrdma_post_send_locked (K := kernel_good) ex_ntc ex_user ex_wrs ex_qp ex_world with
  | Some (rc, bad, s) =>
      rc = - EAGAIN ∧ swr_wr_id <$> bad = [4]
      ∧ (λ d, (d.1, sw_ulp_handle d.2)) <$> po_done s = [(true, 1); (false, 2); (false, 3)]
      ∧ sw_ulp_handle <$> sq_wqes (qp_send (po_qp s)) = [7; 8; 2; 3]
      ∧ io_log (zw_io (po_zip s)) ≠ []
  | None => False
  end.
Proof. vm_compute. done. Qed.

(** ** The shared page

    The call for the page shared with the application has no test for the end
    of the range: the same ring, with two free slots, takes three requests, and
    the third is written behind the ring. *)
Definition ex_page (off size : Z) (old : ntrdma_send_wqe) : ntrdma_send_wqe :=
  mk_send_wqe off IB_WR_SEND 0 sizeof_send_wqe (mk_sge 0 0 0) 0 IB_SEND_SIGNALED 0 [] [].

Example ioctl_fills_the_range :
  match ntrdma_qp_process_send_ioctl_locked (K := kernel_good) ex_ntc ex_page 2 sizeof_send_wqe ex_qp ex_world with
  | Some (rc, _, s) => rc = 0 ∧ length (po_done s) = 2%nat
  | None => False
  end.
Proof. vm_compute. done. Qed.

Example ioctl_runs_past_the_ring :
  ntrdma_qp_process_send_ioctl_locked (K := kernel_good) ex_ntc ex_page 3 sizeof_send_wqe ex_qp ex_world = None.
Proof. vm_compute. done. Qed.

End PostSpec.
