(* ===== verification/QpCmd.v ===== *)
(** * Creating, announcing and deleting queue pairs (ntrdma_qp.c, the queue pair
    commands of ntrdma_cmd.c, the limits of ntrdma_ib.c)

    A queue pair is set up with its buffers and announced to the peer by a
    command; the peer builds the image of the queue pair and answers with the
    buffers of the image.  Further commands follow the state of the queue pair
    and delete the image.  The module translates both ends; what the exchange
    achieves is proved in [QpSetup]. *)

From stdpp Require Import gmap.
From S2P Require Import Prelude Kernel Ntc Wr Mem Zip Vec Vbell Res MrCmd Mm Buf Qp Cq.
Import Ntc Wr Mem Zip Vec Vbell Res MrCmd Mm Buf Qp Cq.

Module QpCmd.

Definition NTRDMA_CMD_QP_CREATE : Z := 12.
Definition NTRDMA_CMD_QP_DELETE : Z := 13.
Definition NTRDMA_CMD_QP_MODIFY : Z := 14.
Definition MAX_WQE_SG_CAP : Z := 128.
Definition MAX_WQE_CAP : Z := 4096.
Definition QP_NUM_TYPES : Z := 3.
Definition NTRDMA_DEV_MAX_SGE : Z := 4096.
Definition NTRDMA_DEV_MAX_QP_WR : Z := 4096.
Definition NTRDMA_DEV_MAX_INLINE_DATA : Z := 8.
Definition sizeof_u32 : Z := 4.
Definition ETOOMANYREFS : Z := 109.

(** ** Data *)

Record ntrdma_qp_init_attr := mk_qp_attr {
  ia_pd_key : Z; ia_recv_wqe_cap : Z; ia_recv_wqe_sg_cap : Z;
  ia_send_wqe_cap : Z; ia_send_wqe_inline_cap : Z; ia_send_wqe_sg_cap : Z; ia_qp_type : Z }.

Record ntrdma_rqp_init_attr := mk_rqp_attr {
  ra_pd_key : Z;
  ra_recv_wqe_idx : Z; ra_recv_wqe_cap : Z; ra_recv_wqe_sg_cap : Z;
  ra_send_wqe_idx : Z; ra_send_wqe_cap : Z; ra_send_wqe_sg_cap : Z; ra_send_wqe_inline_cap : Z;
  ra_peer_cmpl_vbell_idx : Z;
  ra_peer_send_cqe_buf : ntc_remote_buf;
  ra_peer_send_cons_shift : Z }.

(** The queue pair of [Qp] with the members that its creation and its commands
    use: the protection domain, the buffers of the completions, the completion
    queues. *)
Record qp_obj := mk_qp_obj {
  qo_qp : ntrdma_qp;
  qo_pd_key : Z;
  qo_send_cqe_buf : ntc_export_buf;
  qo_recv_cqe_buf : Z;
  qo_send_cq : nat;
  qo_recv_cq : nat }.

(** The image of the peer's queue pair: [ro_vbell] is its doorbell. *)
Record rqp_obj := mk_rqp_obj {
  ro_rqp : ntrdma_rqp;
  ro_pd_key : Z; ro_access : Z;
  ro_send_wqe_sg_cap : Z; ro_send_wqe_inline_cap : Z; ro_recv_wqe_sg_cap : Z; ro_send_wqe_size : Z;
  ro_send_wqe_buf : ntc_export_buf;
  ro_recv_wqe_buf : ntc_export_buf;
  ro_vbell : nat; ro_vbell_idx : Z;
  ro_dma_chan : bool }.

(** The commands and the answers of queue pairs; numbers and copies of the
    operation are left out. *)
Record ntrdma_cmd_qp_create := mk_qp_create {
  qc_qp_key : Z; qc_pd_key : Z; qc_qp_type : Z;
  qc_recv_wqe_cap : Z; qc_recv_wqe_sg_cap : Z; qc_recv_ring_idx : Z;
  qc_send_wqe_cap : Z; qc_send_wqe_sg_cap : Z; qc_send_wqe_inline_cap : Z; qc_send_ring_idx : Z;
  qc_send_cqe_buf_desc : ntc_remote_buf_desc;
  qc_send_cons_shift : Z;
  qc_cmpl_vbell_idx : Z }.

Record ntrdma_cmd_qp_modify := mk_qp_modify {
  qm_src_qp_key : Z; qm_access : Z; qm_state : Z; qm_dest_qp_key : Z }.

Inductive qp_cmd :=
  | QpCreate (c : ntrdma_cmd_qp_create)
  | QpDelete (qp_key : Z)
  | QpModify (c : ntrdma_cmd_qp_modify).

Record ntrdma_rsp_qp_create := mk_rsp_qp_create {
  rc_status : Z; rc_qp_key : Z; rc_send_vbell_idx : Z;
  rc_recv_wqe_buf_desc : ntc_remote_buf_desc; rc_recv_prod_shift : Z;
  rc_send_wqe_buf_desc : ntc_remote_buf_desc; rc_send_prod_shift : Z }.

(** [None]: the handler left the status as it was. *)
Record ntrdma_rsp_qp_status := mk_rsp_qp { rq_status : option Z; rq_qp_key : Z }.

(** Memory that was zeroed. *)
Definition zero_sge : ib_sge := mk_sge 0 0 0.
Definition zero_cqe : ntrdma_cqe := mk_cqe 0 0 0 0 0 0.
Definition zero_send_wqe (sg_cap inline_cap : Z) : ntrdma_send_wqe :=
  mk_send_wqe 0 0 0 0 zero_sge 0 0 0 (replicate (Z.to_nat sg_cap) zero_sge) (replicate (Z.to_nat inline_cap) 0).
Definition zero_recv_wqe (sg_cap : Z) : ntrdma_recv_wqe :=
  mk_recv_wqe 0 0 0 0 (replicate (Z.to_nat sg_cap) (RcvSge zero_sge)).

(** ** The limits of a new queue pair *)

(** The attributes, and the code; the arguments are the capabilities that the
    application asks for. *)
Definition ntrdma_create_qp_attr (pd_key max_recv_wr max_recv_sge max_send_wr max_send_sge max_inline_data qp_type : Z)
  : Z * ntrdma_qp_init_attr :=
  let attr := mk_qp_attr pd_key (if max_recv_wr =? 0 then 1 else max_recv_wr) max_recv_sge
    (if max_send_wr =? 0 then 1 else max_send_wr)
    (if NTRDMA_DEV_MAX_INLINE_DATA <? max_inline_data then NTRDMA_DEV_MAX_INLINE_DATA else max_inline_data)
    max_send_sge qp_type in
  (if (NTRDMA_DEV_MAX_QP_WR <? ia_recv_wqe_cap attr) || (NTRDMA_DEV_MAX_QP_WR <? ia_send_wqe_cap attr)
      || (NTRDMA_DEV_MAX_SGE <? ia_send_wqe_sg_cap attr) || (NTRDMA_DEV_MAX_SGE <? ia_recv_wqe_sg_cap attr)
   then - ETOOMANYREFS else 0, attr).

Section Code.
Context {W P : Type} `{M : MemStore W} `{K : Kernel} `{!EqDecision P}.

(** ** Setting up a queue pair *)

(** The table of queue pairs, the completion queues with their references, and
    the world of the queue pair. *)
Record init_world := mk_iw {
  iw_res : res_store qp_obj;
  iw_cqs : gmap nat (Z * ntrdma_cq P);
  iw_qw : qp_world W }.

Definition iw_set_res (v : ntrdma_rcu_kvec nat) (h : heap) (w : init_world) : init_world :=
  let s := iw_res w in
  mk_iw (mk_res_store v (ls_objs s) (ls_list s) h (ls_unrecoverable s)) (iw_cqs w) (iw_qw w).
Definition iw_set_bufs (b : buf_world) (w : init_world) : init_world :=
  let q := iw_qw w in mk_iw (iw_res w) (iw_cqs w) (mk_qw (qw_zip q) (qw_vb q) b (qw_shadows q)).
Definition iw_bufs (w : init_world) : buf_world := qw_bufs (iw_qw w).
Definition iw_cq (f : Z * ntrdma_cq P → Z * ntrdma_cq P) (i : nat) (w : init_world) : init_world :=
  mk_iw (iw_res w) (alter f i (iw_cqs w)) (iw_qw w).

Definition ntrdma_cq_get : nat → init_world → init_world := iw_cq (λ c, (fst c + 1, snd c)).
(** The last reference frees the completion queue. *)
Definition ntrdma_cq_put (i : nat) (w : init_world) : init_world :=
  mk_iw (iw_res w)
    (partial_alter (λ c, c ≫= λ c, if fst c - 1 =? 0 then None else Some (fst c - 1, snd c)) i (iw_cqs w)) (iw_qw w).
Definition cq_add_poll (p : P) : nat → init_world → init_world := iw_cq (λ c, (fst c, ntrdma_cq_add_poll p (snd c))).
Definition cq_del_poll (p : P) : nat → init_world → init_world := iw_cq (λ c, (fst c, ntrdma_cq_del_poll p (snd c))).

(** The labels of the error path, from the last to the first: each gives back
    what was taken before it, and goes on with the one below. *)
Definition err_res (o : qp_obj) (w : init_world) : init_world :=
  let '(v, h) := ntrdma_kvec_dispose_key (ls_vec (iw_res w)) (qp_key (qo_qp o)) (ls_heap (iw_res w)) in
  iw_set_res v h w.

Definition err_send_wqe_buf (o : qp_obj) (w : init_world) : init_world :=
  err_res o (ntrdma_cq_put (qo_recv_cq o) (ntrdma_cq_put (qo_send_cq o) w)).

Definition err_send_cqe_buf (o : qp_obj) (w : init_world) : init_world :=
  err_send_wqe_buf o (iw_set_bufs (snd (ntc_local_buf_free (send_wqe_buf (qp_buf (qo_qp o))) (iw_bufs w))) w).

Definition err_recv_wqe_buf (ntc : ntc_dev) (o : qp_obj) (w : init_world) : option init_world :=
  match ntc_export_buf_free ntc (qo_send_cqe_buf o) (iw_bufs w) with
  | None => None
  | Some (_, b) => Some (err_send_cqe_buf o (iw_set_bufs b w))
  end.

(** The receives that are still in the ring give their shadows back. *)
Fixpoint cleanup_wqes (ntc : ntc_dev) (l : list ntrdma_recv_wqe) (w : qp_world W) : option (qp_world W) :=
  match l with
  | [] => Some w
  | r :: l =>
      match ntrdma_recv_wqe_cleanup ntc r w with
      | None => None
      | Some (_, w) => cleanup_wqes ntc l w
      end
  end.

Definition err_recv_cqe_buf (ntc : ntc_dev) (o : qp_obj) (w : init_world) : option init_world :=
  match cleanup_wqes ntc (rq_wqes (qp_recv (qo_qp o))) (iw_qw w) with
  | None => None
  | Some q =>
      let w := mk_iw (iw_res w) (iw_cqs w) q in
      err_recv_wqe_buf ntc o
        (iw_set_bufs (snd (ntc_local_buf_free (recv_wqe_buf (qp_buf (qo_qp o))) (iw_bufs w))) w)
  end.

Definition ntrdma_qp_deinit (ntc : ntc_dev) (send_poll recv_poll : P) (o : qp_obj) (w : init_world)
  : option init_world :=
  let w := cq_del_poll recv_poll (qo_recv_cq o) (cq_del_poll send_poll (qo_send_cq o) w) in
  let w := iw_set_bufs (kfree_ptr (qo_recv_cqe_buf o) (iw_bufs w)) w in
  err_recv_cqe_buf ntc o w.

(** A queue pair in the state RESET under [key], with the sizes of [attr], whose
    buffers are those given; the rings are zeroed memory and all indices 0. *)
Definition qp_fresh (key : Z) (attr : ntrdma_qp_init_attr) (send_wqe_buf recv_wqe_buf : ntc_local_buf) : ntrdma_qp :=
  let sgc := ia_send_wqe_sg_cap attr in
  let inl := ia_send_wqe_inline_cap attr in
  let rgc := ia_recv_wqe_sg_cap attr in
  let scap := ia_send_wqe_cap attr in
  let rcap := ia_recv_wqe_cap attr in
  mk_qp key (2 ^ 32 - 1) 0 IB_QPS_RESET false (mk_flags false false false false false false)
    (mk_send_ring scap 0 0 0 (replicate (Z.to_nat scap) (zero_send_wqe sgc inl))
       (replicate (Z.to_nat scap) zero_cqe) 0)
    (mk_recv_ring rcap 0 0 0 0 (replicate (Z.to_nat rcap) (zero_recv_wqe rgc)) (replicate (Z.to_nat rcap) zero_cqe))
    (mk_qp_bufs (ntrdma_send_wqe_size sgc inl) (ntrdma_recv_wqe_size rgc) sgc inl rgc
       send_wqe_buf recv_wqe_buf ntc_remote_buf_clear 0 0 ntc_remote_buf_clear 0).

(** The memory of the queue pair was zeroed; its key is 0 until one is
    reserved, and the protection domain is not stored.  The code, the queue
    pair when it is 0, the world. *)
Definition ntrdma_qp_init (ntc : ntc_dev) (attr : ntrdma_qp_init_attr) (recv_cq send_cq : nat) (send_poll recv_poll : P)
    (w : init_world) : option (Z * option qp_obj * init_world) :=
  let no_lb := mk_local_buf 0 false false 0 0 in
  let no_eb := mk_export_buf 0 0 (mk_own_mw 0 0 0 0 0 0) 0 false in
  let obj key slb rlb ceb rcb := mk_qp_obj (qp_fresh key attr slb rlb) 0 ceb rcb send_cq recv_cq in
  let '(key, v, h) := ntrdma_kvec_reserve_key (ls_vec (iw_res w)) (ls_heap (iw_res w)) in
  let w := iw_set_res v h w in
  if key <? 0 then Some (key, None, err_res (obj 0 no_lb no_lb no_eb 0) w)
  else
    let w := ntrdma_cq_get send_cq (ntrdma_cq_get recv_cq w) in
    let scap := ia_send_wqe_cap attr in
    let rcap := ia_recv_wqe_cap attr in
    let swsize := ntrdma_send_wqe_size (ia_send_wqe_sg_cap attr) (ia_send_wqe_inline_cap attr) in
    let rwsize := ntrdma_recv_wqe_size (ia_recv_wqe_sg_cap attr) in
    let '(rc, slb, b) := ntc_local_buf_zalloc (u64 (scap * swsize)) (iw_bufs w) in
    let w := iw_set_bufs b w in
    if rc <? 0 then Some (rc, None, err_send_wqe_buf (obj key slb no_lb no_eb 0) w)
    else
      let cqes := u64 (scap * sizeof_cqe) in
      match _ntc_export_buf_zalloc_init ntc (u64 (cqes + sizeof_u32)) sizeof_u32 cqes no_eb (iw_bufs w) with
      | None => None
      | Some (rc, ceb, b, _) =>
          let w := iw_set_bufs b w in
          if rc <? 0 then Some (rc, None, err_send_cqe_buf (obj key slb no_lb ceb 0) w)
          else
            let '(rc, rlb, b) := ntc_local_buf_zalloc (u64 (rcap * rwsize)) (iw_bufs w) in
            let w := iw_set_bufs b w in
            if rc <? 0 then
              match err_recv_wqe_buf ntc (obj key slb rlb ceb 0) w with
              | None => None
              | Some w => Some (rc, None, w)
              end
            else
              let '(ptr, b) := kmalloc_node (iw_bufs w) in
              let w := iw_set_bufs b w in
              if ptr =? 0 then
                match err_recv_cqe_buf ntc (obj key slb rlb ceb 0) w with
                | None => None
                | Some w => Some (- ENOMEM, None, w)
                end
              else
                Some (0, Some (obj key slb rlb ceb ptr),
                  cq_add_poll send_poll send_cq (cq_add_poll recv_poll recv_cq w))
      end.

End Code.
Arguments init_world : clear implicits.
Arguments mk_iw {W P} _ _ _.

(** ** The commands, on the side of the queue pair *)

Section Owner.
Context {W : Type} `{M : MemStore W} `{K : Kernel}.

Definition qo_set_qp (q : ntrdma_qp) (o : qp_obj) : qp_obj :=
  mk_qp_obj q (qo_pd_key o) (qo_send_cqe_buf o) (qo_recv_cqe_buf o) (qo_send_cq o) (qo_recv_cq o).

Definition qp_set_rqp_key (k : Z) (q : ntrdma_qp) : ntrdma_qp :=
  mk_qp (qp_key q) k (qp_access q) (qp_state q) (dma_chan_init q) (qp_flags q) (qp_send q) (qp_recv q) (qp_buf q).

(** The consumer's index lies behind the completions. *)
Definition ntrdma_qp_send_cons (o : qp_obj) : Z :=
  match ntc_export_buf_const_deref (qo_send_cqe_buf o) (u64 (sq_cap (qp_send (qo_qp o)) * sizeof_cqe)) sizeof_u32 with
  | None => 0
  | Some _ => sq_cons (qp_send (qo_qp o))
  end.

(** [cmpl_vbell_idx]: the index of the doorbell of the send completion queue. *)
Definition ntrdma_qp_enable_prep (cmpl_vbell_idx : Z) (o : qp_obj) : ntrdma_cmd_qp_create :=
  let q := qo_qp o in
  let b := qp_buf q in
  mk_qp_create (qp_key q) (qo_pd_key o) 0
    (rq_cap (qp_recv q)) (recv_wqe_sg_cap b) (rq_cons (qp_recv q))
    (sq_cap (qp_send q)) (send_wqe_sg_cap b) (send_wqe_inline_cap b) (ntrdma_qp_send_cons o)
    (ntc_export_buf_make_desc (qo_send_cqe_buf o)) (u64 (sq_cap (qp_send q) * sizeof_cqe)) cmpl_vbell_idx.

Definition bufs_set_peer (sb : ntc_remote_buf) (ss vb : Z) (rb : ntc_remote_buf) (rs : Z) (b : qp_bufs) : qp_bufs :=
  mk_qp_bufs (send_wqe_size b) (recv_wqe_size b) (send_wqe_sg_cap b) (send_wqe_inline_cap b) (recv_wqe_sg_cap b)
    (send_wqe_buf b) (recv_wqe_buf b) sb ss vb rb rs.

(** Of [ntrdma_qp_enable_disable_cmpl_common]: the part that maps the buffers of
    the image, and the one that unmaps them.  When the second buffer cannot be
    mapped the first one is unmapped. *)
Definition enable_cmpl_common (ntc : ntc_dev) (rsp : ntrdma_rsp_qp_create) (q : ntrdma_qp) : Z * ntrdma_qp :=
  let b := qp_buf q in
  let '(rc, rb) := ntc_remote_buf_map ntc (rc_recv_wqe_buf_desc rsp) in
  if rc <? 0 then
    (rc, qp_set_buf (bufs_set_peer (peer_send_wqe_buf b) (peer_send_prod_shift b) (peer_send_vbell_idx b) rb
                       (peer_recv_prod_shift b) b) q)
  else
    let '(rc, sb) := ntc_remote_buf_map ntc (rc_send_wqe_buf_desc rsp) in
    if rc <? 0 then
      (rc, qp_set_buf (bufs_set_peer sb (peer_send_prod_shift b) (peer_send_vbell_idx b)
                         (fst (ntc_remote_buf_unmap rb)) (rc_recv_prod_shift rsp) b) q)
    else
      (0, qp_set_buf (bufs_set_peer sb (rc_send_prod_shift rsp) (rc_send_vbell_idx rsp) rb (rc_recv_prod_shift rsp) b) q).

Definition disable_cmpl_common (q : ntrdma_qp) : ntrdma_qp :=
  let b := qp_buf q in
  qp_set_buf (bufs_set_peer (fst (ntc_remote_buf_unmap (peer_send_wqe_buf b))) (peer_send_prod_shift b)
    (peer_send_vbell_idx b) (fst (ntc_remote_buf_unmap (peer_recv_wqe_buf b))) (peer_recv_prod_shift b) b)
    (qp_set_rqp_key (2 ^ 32 - 1) q).

(** The code; whether the callback becomes the one that modifies the state and
    is queued again; else the receives are produced. *)
Definition ntrdma_qp_enable_cmpl (ntc : ntc_dev) (rsp : ntrdma_rsp_qp_create) (o : qp_obj) (w : qp_world W)
  : option (Z * bool * qp_obj * qp_world W * list qp_event) :=
  if negb (rc_status rsp =? 0) then Some (s32 (rc_status rsp), false, o, w, [])
  else
    let '(rc, q) := enable_cmpl_common ntc rsp (qo_qp o) in
    if negb (rc =? 0) then Some (rc, false, qo_set_qp q o, w, [])
    else if is_state_out_of_reset (qp_state q) then Some (0, true, qo_set_qp q o, w, [])
    else
      match ntrdma_qp_recv_work q w with
      | None => None
      | Some (q, w, evs) => Some (0, false, qo_set_qp q o, w, evs)
      end.

(** The receives are produced first, and the state is read after that. *)
Definition ntrdma_qp_modify_prep (o : qp_obj) (w : qp_world W)
  : option (ntrdma_cmd_qp_modify * qp_obj * qp_world W * list qp_event) :=
  match ntrdma_qp_recv_work (qo_qp o) w with
  | None => None
  | Some (q, w, evs) =>
      Some (mk_qp_modify (qp_key q) (qp_access q) (qp_state q) (qp_rqp_key q), qo_set_qp q o, w, evs)
  end.

Definition ntrdma_qp_modify_cmpl (status : Z) (o : qp_obj) (w : qp_world W)
  : option (Z * qp_obj * qp_world W * list qp_event) :=
  if negb (status =? 0) then
    match ntrdma_qp_recv_work (qo_qp o) w with
    | None => None
    | Some (q, w, evs) => Some (s32 status, qo_set_qp q o, w, evs)
    end
  else Some (0, o, w, []).

Definition ntrdma_qp_disable_prep (o : qp_obj) : Z := qp_key (qo_qp o).

Definition ntrdma_qp_disable_cmpl (status : Z) (o : qp_obj) : Z * qp_obj :=
  if negb (status =? 0) then (s32 status, o) else (0, qo_set_qp (disable_cmpl_common (qo_qp o)) o).

(** The part of [ntrdma_qp_disable_cb] before the command is queued, with the
    image that the queue pair is connected to. *)
Definition ntrdma_qp_disable_cb (o : qp_obj) (rqp : option ntrdma_rqp) : qp_obj * option ntrdma_rqp :=
  (qo_set_qp (ntrdma_qp_send_stall (qo_qp o)) o,
   match rqp with
   | Some p => Some (mk_rqp (rqp_key p) (2 ^ 32 - 1) (rqp_state p) (rqp_send p) (rqp_recv p) (rqp_buf p))
   | None => None
   end).

(** A command that cannot be queued or submitted counts as done: the state
    follows when the link comes up. *)
Definition ntrdma_modify_qp_remote (timeout : Z) (oc : cmd_outcome) : Z :=
  if oc_queued oc <? 0 then 0
  else if oc_submit oc <? 0 then 0
  else
    let rc := ntrdma_res_wait_cmds timeout oc in
    if rc <? 0 then rc else oc_ret oc.

End Owner.

(** ** The commands, on the side of the peer *)

Section Peer.
Context {W : Type} `{M : MemStore W} `{K : Kernel}.

(** The doorbells, the buffers, and the number of mapped buffers of the peer. *)
Record cmd_world := mk_cw { cw_vb : ntrdma_dev_vbell; cw_bw : buf_world; cw_maps : Z }.

Definition cw_set_vs (s : vbells) (w : cmd_world) : cmd_world :=
  mk_cw (dv_set_vec s (cw_vb w)) (cw_bw w) (cw_maps w).
Definition cw_set_bw (b : buf_world) (w : cmd_world) : cmd_world := mk_cw (cw_vb w) b (cw_maps w).

Definition is_mapped (b : ntc_remote_buf) : Z := if rb_dma_addr b =? 0 then 0 else 1.
Definition cw_map (ntc : ntc_dev) (d : ntc_remote_buf_desc) (w : cmd_world) : Z * ntc_remote_buf * cmd_world :=
  let '(rc, b) := ntc_remote_buf_map ntc d in (rc, b, mk_cw (cw_vb w) (cw_bw w) (cw_maps w + is_mapped b)).
Definition cw_unmap (b : ntc_remote_buf) (w : cmd_world) : cmd_world :=
  mk_cw (cw_vb w) (cw_bw w) (cw_maps w - is_mapped b).

Definition ntrdma_qp_create_sanity (c : ntrdma_cmd_qp_create) : Z :=
  if QP_NUM_TYPES <? qc_qp_type c then - EINVAL
  else if (MAX_WQE_CAP <? qc_send_wqe_cap c) || (MAX_WQE_SG_CAP <? qc_send_wqe_sg_cap c)
          || (u32 (2 * qc_send_wqe_cap c) <=? qc_send_ring_idx c) then - EINVAL
  else if (MAX_WQE_CAP <? qc_recv_wqe_cap c) || (MAX_WQE_SG_CAP <? qc_recv_wqe_sg_cap c)
          || (u32 (2 * qc_recv_wqe_cap c) <=? qc_recv_ring_idx c) then - EINVAL
  else if NTRDMA_DEV_VBELL_COUNT <? qc_cmpl_vbell_idx c then - EINVAL
  else 0.

(** An image under [key], not connected, with the buffers given: zeroed memory,
    and the index of the producer set to that of the consumer. *)
Definition rqp_fresh (key : Z) (a : ntrdma_rqp_init_attr) (swb rwb : ntc_export_buf) (scb : ntc_local_buf)
    (vbell : nat) (vbell_idx : Z) : rqp_obj :=
  let ssize := ntrdma_send_wqe_size (ra_send_wqe_sg_cap a) (ra_send_wqe_inline_cap a) in
  let scap := ra_send_wqe_cap a in
  let rcap := ra_recv_wqe_cap a in
  mk_rqp_obj
    (mk_rqp key (2 ^ 32 - 1) 0
       (mk_rqp_send scap (ra_send_wqe_idx a)
          (replicate (Z.to_nat scap) (zero_send_wqe (ra_send_wqe_sg_cap a) (ra_send_wqe_inline_cap a)))
          (ra_send_wqe_idx a) (replicate (Z.to_nat scap) zero_cqe))
       (mk_rqp_recv rcap (ra_recv_wqe_idx a) (replicate (Z.to_nat rcap) (zero_recv_wqe (ra_recv_wqe_sg_cap a)))
          (ra_recv_wqe_idx a) (ntrdma_recv_wqe_size (ra_recv_wqe_sg_cap a)))
       (mk_rqp_bufs scb (ra_peer_send_cqe_buf a) (ra_peer_send_cons_shift a) (ra_peer_cmpl_vbell_idx a)))
    (ra_pd_key a) 0 (ra_send_wqe_sg_cap a) (ra_send_wqe_inline_cap a) (ra_recv_wqe_sg_cap a) ssize swb rwb
    vbell vbell_idx false.

(** The labels of the error path of [ntrdma_rqp_init_deinit]. *)
Definition rqp_err_send_cqe_buf (ntc : ntc_dev) (swb : ntc_export_buf) (w : cmd_world) : option cmd_world :=
  match ntc_export_buf_free ntc swb (cw_bw w) with None => None | Some (_, b) => Some (cw_set_bw b w) end.
Definition rqp_err_recv_wqe_buf (ntc : ntc_dev) (scb : ntc_local_buf) (swb : ntc_export_buf) (w : cmd_world)
  : option cmd_world :=
  rqp_err_send_cqe_buf ntc swb (cw_set_bw (snd (ntc_local_buf_free scb (cw_bw w))) w).
Definition rqp_err_vbell_idx (ntc : ntc_dev) (rwb : ntc_export_buf) (scb : ntc_local_buf) (swb : ntc_export_buf)
    (w : cmd_world) : option cmd_world :=
  match ntc_export_buf_free ntc rwb (cw_bw w) with
  | None => None
  | Some (_, b) => rqp_err_recv_wqe_buf ntc scb swb (cw_set_bw b w)
  end.

(** Flushing the DMA channel of the image leaves the model's state alone. *)
Definition ntrdma_rqp_deinit (ntc : ntc_dev) (o : rqp_obj) (w : cmd_world) : option cmd_world :=
  rqp_err_vbell_idx ntc (ro_recv_wqe_buf o) (rqp_send_cqe_buf (rqp_buf (ro_rqp o))) (ro_send_wqe_buf o)
    (cw_set_vs (fst (ntrdma_tasklet_vbell_kill (ro_vbell o) (dv_vec (cw_vb w)))) w).

(** [vbell] names the doorbell of the new image. *)
Definition ntrdma_rqp_init (ntc : ntc_dev) (a : ntrdma_rqp_init_attr) (key : Z) (vbell : nat) (w : cmd_world)
  : option (Z * option rqp_obj * cmd_world) :=
  let no_eb := mk_export_buf 0 0 (mk_own_mw 0 0 0 0 0 0) 0 false in
  let fail rc w := match w with None => None | Some w => Some (rc, None, w) end in
  let swqes := u64 (ra_send_wqe_cap a * ntrdma_send_wqe_size (ra_send_wqe_sg_cap a) (ra_send_wqe_inline_cap a)) in
  match _ntc_export_buf_zalloc_init ntc (u64 (swqes + sizeof_u32)) sizeof_u32 swqes no_eb (cw_bw w) with
  | None => None
  | Some (rc, swb, b, _) =>
      let w := cw_set_bw b w in
      if rc <? 0 then Some (rc, None, w)
      else
        let '(rc, scb, b) := ntc_local_buf_zalloc (u64 (ra_send_wqe_cap a * sizeof_cqe)) (cw_bw w) in
        let w := cw_set_bw b w in
        if rc <? 0 then fail rc (rqp_err_send_cqe_buf ntc swb w)
        else
          let rwqes := u64 (ra_recv_wqe_cap a * ntrdma_recv_wqe_size (ra_recv_wqe_sg_cap a)) in
          match _ntc_export_buf_zalloc_init ntc (u64 (rwqes + sizeof_u32)) sizeof_u32 rwqes no_eb (cw_bw w) with
          | None => None
          | Some (rc, rwb, b, _) =>
              let w := cw_set_bw b w in
              if rc <? 0 then fail rc (rqp_err_recv_wqe_buf ntc scb swb w)
              else
                let '(idx, vb) := ntrdma_dev_vbell_next (cw_vb w) in
                let w := mk_cw vb (cw_bw w) (cw_maps w) in
                if NTRDMA_DEV_VBELL_COUNT <=? idx then fail (- EINVAL) (rqp_err_vbell_idx ntc rwb scb swb w)
                else
                  Some (0, Some (rqp_fresh key a swb rwb scb vbell idx),
                    cw_set_vs (vs_set_bell vbell (ntrdma_vbell_init (Z.to_nat idx)) (dv_vec (cw_vb w))) w)
          end
  end.

Definition rsp_create_failed (c : ntrdma_cmd_qp_create) : ntrdma_rsp_qp_create :=
  mk_rsp_qp_create STATUS_FAILED (qc_qp_key c) 0 ntc_remote_buf_desc_clear 0 ntc_remote_buf_desc_clear 0.

(** [p] and [vbell] name the image and its doorbell, [alloc] says whether there
    is memory for it.  When the image cannot be set up its mapping of the
    completions is kept. *)
Definition ntrdma_cmd_recv_qp_create (ntc : ntc_dev) (c : ntrdma_cmd_qp_create) (p vbell : nat) (alloc : bool)
    (s : rres_store rqp_obj) (w : cmd_world) : option (Z * ntrdma_rsp_qp_create * rres_store rqp_obj * cmd_world) :=
  let rc := ntrdma_qp_create_sanity c in
  if negb (rc =? 0) then Some (rc, rsp_create_failed c, s, w)
  else if negb alloc then Some (- ENOMEM, rsp_create_failed c, s, w)
  else
    let '(rc, cqb, w) := cw_map ntc (qc_send_cqe_buf_desc c) w in
    if rc <? 0 then Some (rc, rsp_create_failed c, s, w)
    else
      let a := mk_rqp_attr (qc_pd_key c) (qc_recv_ring_idx c) (qc_recv_wqe_cap c) (qc_recv_wqe_sg_cap c)
                 (qc_send_ring_idx c) (qc_send_wqe_cap c) (qc_send_wqe_sg_cap c) (qc_send_wqe_inline_cap c)
                 (qc_cmpl_vbell_idx c) cqb (qc_send_cons_shift c) in
      match ntrdma_rqp_init ntc a (qc_qp_key c) vbell w with
      | None => None
      | Some (rc, None, w) => Some (rc, rsp_create_failed c, s, w)
      | Some (rc, Some o, w) =>
          match ntrdma_rres_add p (ntrdma_rres_init p (qc_qp_key c) o s) with
          | None => None
          | Some (rc, s) =>
              if negb (rc =? 0) then
                match ntrdma_rqp_deinit ntc o w with
                | None => None
                | Some w => Some (rc, rsp_create_failed c, rs_set_objs (delete p (rs_objs s)) s, cw_unmap cqb w)
                end
              else
                Some (0, mk_rsp_qp_create 0 (qc_qp_key c) (ro_vbell_idx o)
                           (ntc_export_buf_make_desc (ro_recv_wqe_buf o))
                           (u64 (rr_cap (rqp_recv (ro_rqp o)) * rr_wqe_size (rqp_recv (ro_rqp o))))
                           (ntc_export_buf_make_desc (ro_send_wqe_buf o))
                           (u64 (rs_cap (rqp_send (ro_rqp o)) * ro_send_wqe_size o)), s, w)
          end
      end.

(** A put of the last reference releases the image. *)
Definition ntrdma_rqp_release (ntc : ntc_dev) (o : rqp_obj) (w : cmd_world) : option cmd_world :=
  ntrdma_rqp_deinit ntc o (cw_unmap (rqp_peer_send_cqe_buf (rqp_buf (ro_rqp o))) w).

Definition ntrdma_rqp_put (ntc : ntc_dev) (p : nat) (s : rres_store rqp_obj) (w : cmd_world)
  : option (rres_store rqp_obj * cmd_world) :=
  let s' := ntrdma_rres_put p s in
  match rs_objs s !! p, rs_objs s' !! p with
  | Some o, None =>
      match ntrdma_rqp_release ntc (o_val o) w with None => None | Some w => Some (s', w) end
  | _, _ => Some (s', w)
  end.

Definition ro_set_rqp (r : ntrdma_rqp) (o : rqp_obj) : rqp_obj :=
  mk_rqp_obj r (ro_pd_key o) (ro_access o) (ro_send_wqe_sg_cap o) (ro_send_wqe_inline_cap o) (ro_recv_wqe_sg_cap o)
    (ro_send_wqe_size o) (ro_send_wqe_buf o) (ro_recv_wqe_buf o) (ro_vbell o) (ro_vbell_idx o) (ro_dma_chan o).
Definition rqp_set (qp_key state : Z) (r : ntrdma_rqp) : ntrdma_rqp :=
  mk_rqp (rqp_key r) qp_key state (rqp_send r) (rqp_recv r) (rqp_buf r).
Definition o_set_val {V} (v : V) (o : object V) : object V := mk_object (o_key o) (o_kref o) (o_in_list o) v.

Definition ntrdma_rqp_del (p : nat) (s : rres_store rqp_obj) (w : cmd_world) : rres_store rqp_obj * cmd_world :=
  match rs_objs s !! p with
  | None => (s, w)
  | Some o =>
      let r := o_val o in
      (rs_mark p (o_set_val (ro_set_rqp (rqp_set (rqp_qp_key (ro_rqp r)) IB_QPS_RESET (ro_rqp r)) r)) s,
       cw_set_vs (fst (ntrdma_tasklet_vbell_kill (ro_vbell r) (dv_vec (cw_vb w)))) w)
  end.

(** The queue pair that an image is connected to is stalled and forgets the
    image; the result says whether its connection is torn down. *)
Definition stall_peer_qp (key : Z) (qs : res_store qp_obj) : bool * res_store qp_obj :=
  let '(found, qs) := ntrdma_res_look key qs in
  match found with
  | None => (false, qs)
  | Some i =>
      let f o := o_set_val (qo_set_qp (qp_set_rqp_key (2 ^ 32 - 1) (ntrdma_qp_send_stall (qo_qp (o_val o)))) (o_val o)) o in
      (true, snd (ntrdma_res_put i (ls_set_objs (alter f i (ls_objs qs)) qs)))
  end.

Definition ntrdma_cmd_recv_qp_delete (ntc : ntc_dev) (key : Z) (s : rres_store rqp_obj) (qs : res_store qp_obj)
    (w : cmd_world) : option (Z * ntrdma_rsp_qp_status * rres_store rqp_obj * res_store qp_obj * cmd_world * bool) :=
  let '(found, s) := ntrdma_rres_look key s in
  match found with
  | None => Some (- EINVAL, mk_rsp_qp (Some STATUS_FAILED) key, s, qs, w, false)
  | Some p =>
      match rs_objs s !! p with
      | None => None
      | Some o =>
          let '(kill, qs) := stall_peer_qp (rqp_qp_key (ro_rqp (o_val o))) qs in
          match ntrdma_rres_remove p s with
          | None => None
          | Some s =>
              let '(s, w) := ntrdma_rqp_del p s w in
              match ntrdma_rqp_put ntc p s w with
              | None => None
              | Some (s, w) =>
                  match ntrdma_rqp_put ntc p s w with
                  | None => None
                  | Some (s, w) => Some (0, mk_rsp_qp (Some 0) key, s, qs, w, kill)
                  end
              end
          end
      end
  end.

(** The state of an image follows that of its queue pair; an error reaches the
    queue pair that is connected to it.  [has_cm] says whether that one has a
    connection; the last result whether it is torn down. *)
Definition ntrmda_rqp_modify_local (ntc : ntc_dev) (src_qp_key access new_state dest_qp_key : Z) (has_cm : bool)
    (s : rres_store rqp_obj) (qs : res_store qp_obj) (w : cmd_world)
  : option (Z * rres_store rqp_obj * res_store qp_obj * cmd_world * bool) :=
  let '(found, s) := ntrdma_rres_look src_qp_key s in
  match found with
  | None => Some (- EINVAL, s, qs, w, false)
  | Some p =>
      match rs_objs s !! p with
      | None => None
      | Some o =>
          let r := o_val o in
          let k := if negb (is_state_error new_state) then dest_qp_key else rqp_qp_key (ro_rqp r) in
          let r' := mk_rqp_obj (rqp_set k new_state (ro_rqp r)) (ro_pd_key r)
                      (if negb (access =? 0) then access else ro_access r) (ro_send_wqe_sg_cap r)
                      (ro_send_wqe_inline_cap r) (ro_recv_wqe_sg_cap r) (ro_send_wqe_size r) (ro_send_wqe_buf r)
                      (ro_recv_wqe_buf r) (ro_vbell r) (ro_vbell_idx r) (ro_dma_chan r) in
          let s := rs_mark p (o_set_val r') s in
          let w := cw_set_vs (snd (ntrdma_vbell_trigger (ro_vbell r) (dv_vec (cw_vb w)))) w in
          match ntrdma_rqp_put ntc p s w with
          | None => None
          | Some (s, w) =>
              if is_state_error new_state && (k =? dest_qp_key) then
                let '(found, qs) := ntrdma_res_look dest_qp_key qs in
                match found with
                | None => Some (0, s, qs, w, false)
                | Some i =>
                    let kill := match ls_objs qs !! i with
                                | Some o => (IB_QPS_RTS <? new_state) && has_cm
                                            && negb (new_state =? qp_state (qo_qp (o_val o)))
                                | None => false
                                end in
                    let f o := o_set_val (qo_set_qp (qp_set_state new_state (dma_chan_init (qo_qp (o_val o)))
                                                       (qo_qp (o_val o))) (o_val o)) o in
                    Some (0, s, snd (ntrdma_res_put i (ls_set_objs (alter f i (ls_objs qs)) qs)), w, kill)
                end
              else Some (0, s, qs, w, false)
          end
      end
  end.

(** After the check of the copy the command is read again: [again] is what the
    slot holds then. *)
Definition ntrdma_cmd_recv_qp_modify (ntc : ntc_dev) (c again : ntrdma_cmd_qp_modify) (has_cm : bool)
    (s : rres_store rqp_obj) (qs : res_store qp_obj) (w : cmd_world)
  : option (Z * ntrdma_rsp_qp_status * rres_store rqp_obj * res_store qp_obj * cmd_world * bool) :=
  if (MAX_SUM_ACCESS_FLAGS <? qm_access c) || negb (is_state_valid (qm_state c)) then
    Some (- EINVAL, mk_rsp_qp None (qm_src_qp_key c), s, qs, w, false)
  else
    match ntrmda_rqp_modify_local ntc (qm_src_qp_key again) (qm_access again) (qm_state again) (qm_dest_qp_key again)
            has_cm s qs w with
    | None => None
    | Some (rc, s, qs, w, kill) => Some (rc, mk_rsp_qp (Some (u32 rc)) (qm_src_qp_key c), s, qs, w, kill)
    end.

End Peer.

End QpCmd.
