(* ===== verification/QpSetup.v ===== *)
(** * What the set-up of queue pairs achieves

    Two queue pairs that were created, announced to each other's device and
    moved out of RESET are the two ends of the channels of [QpChan], one in each
    direction, and every buffer that one side writes is the one the other side
    reads.  A queue pair that could not be announced leaves nothing behind, but
    for one mapping. *)

From stdpp Require Import gmap.
From S2P Require Import Prelude Kernel Ring Wire Ntc Wr Mem Zip Vec Vbell Res MrCmd Mm Buf Qp QpRun QpPoll QpChan Cq Post QpCmd.
Import Ring Wire Ntc Wr Mem Zip Vec Vbell Res MrCmd Mm Buf Qp QpRun QpPoll QpChan Cq Post QpCmd.

Module QpSetup.

(** ** Creation *)

Section Init.
Context {W P : Type} `{M : MemStore W} `{K : Kernel} `{!EqDecision P}.

(** An export buffer that was allocated with its initial data has the size that
    was asked for, and the data lies inside. *)
Lemma zalloc_init_size ntc size isize off b0 w rc b w' seg :
  _ntc_export_buf_zalloc_init ntc size isize off b0 w = Some (rc, b, w', seg) → 0 <= rc →
  eb_size b = size ∧ ntc_segment_valid size off isize = true.
Proof.
  unfold _ntc_export_buf_zalloc_init, with_init. intros H Hrc.
  destruct (ntc_segment_valid size off isize); cbn [negb] in H; [|by injection H as <- <- <- <-].
  split; [|done]. revert H. unfold _ntc_export_buf_zalloc, _ntc_export_buf_alloc.
  destruct (own_mw ntc NTC_DRAM_MW_IDX) as [dram|]; [|done]. destruct (own_mw ntc NTC_INFO_MW_IDX) as [info|]; [|done].
  destruct (is_flat dram); cbn [negb].
  - destruct (kmalloc_node w) as [ptr w1]. destruct (ptr =? 0); [by intros [= <- <- <- <-]|].
    destruct (map_single w1) as [[a|] w2]; intros [= <- <- <- <-]; done.
  - destruct (ntc_mm_alloc _ _ _ _ _) as [[[p|e] mm]|]; [| |done].
    + by intros [= <- <- <- <-].
    + destruct (Z.ltb_spec e 0); by intros [= <- <- <- <-].
Qed.

Lemma init_ok ntc attr recv_cq send_cq sp rp (w : init_world W P) o w' :
  ntrdma_qp_init ntc attr recv_cq send_cq sp rp w = Some (0, Some o, w') →
  ∃ key slb rlb ceb ptr, o = mk_qp_obj (qp_fresh key attr slb rlb) 0 ceb ptr send_cq recv_cq
    ∧ eb_size ceb = u64 (u64 (ia_send_wqe_cap attr * sizeof_cqe) + sizeof_u32).
Proof.
  unfold ntrdma_qp_init. intros H.
  destruct (ntrdma_kvec_reserve_key _ _) as [[key v] h]. destruct (key <? 0); [done|].
  destruct (ntc_local_buf_zalloc _ _) as [[rc slb] b1]. destruct (rc <? 0); [done|].
  destruct (_ntc_export_buf_zalloc_init _ _ _ _ _ _) as [[[[rc2 ceb] b2] seg]|] eqn:Hce; [|done].
  destruct (Z.ltb_spec rc2 0); [done|].
  destruct (ntc_local_buf_zalloc _ _) as [[rc3 rlb] b3]. destruct (rc3 <? 0).
  { by destruct (err_recv_wqe_buf _ _ _). }
  destruct (kmalloc_node _) as [ptr b4]. destruct (ptr =? 0).
  { by destruct (err_recv_cqe_buf _ _ _). }
  injection H as <- _. apply zalloc_init_size in Hce as [Hs _]; [|done]. by exists key, slb, rlb, ceb, ptr.
Qed.

End Init.

(** ** The announcement *)

Section Announce.
Context {W : Type} `{M : MemStore W} `{K : Kernel}.

(** The attributes that a create command stands for, with the mapped buffer of
    the completions. *)
Definition create_attr (ntc : ntc_dev) (c : ntrdma_cmd_qp_create) : ntrdma_rqp_init_attr :=
  mk_rqp_attr (qc_pd_key c) (qc_recv_ring_idx c) (qc_recv_wqe_cap c) (qc_recv_wqe_sg_cap c)
    (qc_send_ring_idx c) (qc_send_wqe_cap c) (qc_send_wqe_sg_cap c) (qc_send_wqe_inline_cap c)
    (qc_cmpl_vbell_idx c) (snd (ntc_remote_buf_map ntc (qc_send_cqe_buf_desc c))) (qc_send_cons_shift c).

Lemma rqp_init_ok ntc a key vbell w rc o w' :
  ntrdma_rqp_init ntc a key vbell w = Some (rc, Some o, w') →
  rc = 0 ∧ ∃ swb rwb scb idx, o = rqp_fresh key a swb rwb scb vbell idx
    ∧ eb_size swb = u64 (u64 (ra_send_wqe_cap a * ro_send_wqe_size o) + sizeof_u32)
    ∧ eb_size rwb = u64 (u64 (ra_recv_wqe_cap a * rr_wqe_size (rqp_recv (ro_rqp o))) + sizeof_u32).
Proof.
  unfold ntrdma_rqp_init. intros H. cbv zeta in H. repeat case_match; simplify_eq. split; [done|].
  do 2 match goal with
  | Hz : _ntc_export_buf_zalloc_init _ _ _ _ _ _ = Some (?r, _, _, _), Hl : (?r <? 0) = false |- _ =>
      apply zalloc_init_size in Hz as [? _]; [|lia]
  end.
  by eexists _, _, _, _.
Qed.

(** A failure is an error code. *)
Lemma rqp_init_failed ntc a key vbell w rc w' :
  ntrdma_rqp_init ntc a key vbell w = Some (rc, None, w') → rc < 0.
Proof. unfold ntrdma_rqp_init. intros H. cbv zeta in H. repeat case_match; simplify_eq; done || lia. Qed.

Lemma rres_add_object {V} p key (v : V) s s' :
  ntrdma_rres_add p (ntrdma_rres_init p key v s) = Some (0, s') → rs_objs s' !! p = Some (mk_object key 1 true v).
Proof.
  unfold ntrdma_rres_add, ntrdma_rres_init. cbn [rs_objs rs_set_objs]. rewrite lookup_insert_eq.
  destruct (ntrdma_vec_set _ _ _ _) as [[[rc v'] h']|]; [|done].
  destruct (Z.ltb_spec rc 0); [intros [= -> _]; lia|]. intros [= <-]. cbn. by rewrite lookup_alter_eq, lookup_insert_eq.
Qed.

(** What the peer holds and answers when it accepts a queue pair. *)
Lemma create_ok ntc c p vbell alloc s (w : cmd_world) rsp s' w' :
  ntrdma_cmd_recv_qp_create ntc c p vbell alloc s w = Some (0, rsp, s', w') →
  ntrdma_qp_create_sanity c = 0 ∧ 0 <= fst (ntc_remote_buf_map ntc (qc_send_cqe_buf_desc c))
  ∧ ∃ swb rwb scb idx, let o := rqp_fresh (qc_qp_key c) (create_attr ntc c) swb rwb scb vbell idx in
      rs_objs s' !! p = Some (mk_object (qc_qp_key c) 1 true o)
      ∧ eb_size swb = u64 (u64 (qc_send_wqe_cap c * ro_send_wqe_size o) + sizeof_u32)
      ∧ eb_size rwb = u64 (u64 (qc_recv_wqe_cap c * rr_wqe_size (rqp_recv (ro_rqp o))) + sizeof_u32)
      ∧ rsp = mk_rsp_qp_create 0 (qc_qp_key c) idx (ntc_export_buf_make_desc rwb)
                (u64 (qc_recv_wqe_cap c * rr_wqe_size (rqp_recv (ro_rqp o))))
                (ntc_export_buf_make_desc swb) (u64 (qc_send_wqe_cap c * ro_send_wqe_size o)).
Proof.
  unfold ntrdma_cmd_recv_qp_create, cw_map, create_attr. intros H.
  destruct (Z.eqb_spec (ntrdma_qp_create_sanity c) 0) as [Hsan|Hsan]; cbn [negb] in H; [|simplify_eq].
  destruct alloc; cbn [negb] in H; [|done].
  destruct (ntc_remote_buf_map _ _) as [rc cqb] eqn:Hmap. destruct (Z.ltb_spec rc 0) as [Hneg|Hpos]; [simplify_eq; lia|].
  destruct (ntrdma_rqp_init _ _ _ _ _) as [[[rc2 [o|]] w2]|] eqn:Hi; [| |done].
  2:{ simplify_eq. apply rqp_init_failed in Hi. lia. }
  destruct (ntrdma_rres_add _ _) as [[rc3 s3]|] eqn:Ha; [|done].
  destruct (Z.eqb_spec rc3 0) as [->|Hrc3]; cbn [negb] in H.
  2:{ destruct (ntrdma_rqp_deinit _ _ _); [simplify_eq|done]. }
  injection H as <- <- <-.
  apply rqp_init_ok in Hi as (_ & swb & rwb & scb & idx & -> & Hs & Hr). apply rres_add_object in Ha.
  split; [done|]. split; [done|]. by exists swb, rwb, scb, idx.
Qed.

End Announce.

(** ** Both ends *)

Section Ends.
Context {W : Type} `{M : MemStore W} `{K : Kernel}.

Lemma enable_ok ntc rsp o (w : qp_world W) again o' w' evs :
  rc_status rsp = 0 → qp_state (qo_qp o) = IB_QPS_RESET →
  ntrdma_qp_enable_cmpl ntc rsp o w = Some (0, again, o', w', evs) →
  let q := qo_qp o in let b := qp_buf q in
  let q' := qp_set_buf (bufs_set_peer (snd (ntc_remote_buf_map ntc (rc_send_wqe_buf_desc rsp))) (rc_send_prod_shift rsp)
              (rc_send_vbell_idx rsp) (snd (ntc_remote_buf_map ntc (rc_recv_wqe_buf_desc rsp)))
              (rc_recv_prod_shift rsp) b) q in
  o' = qo_set_qp (qp_set_flags (set_recv_aborting (qp_flags q)) q') o.
Proof.
  unfold ntrdma_qp_enable_cmpl, enable_cmpl_common. intros Hst Hreset H. rewrite Hst in H. cbn [Z.eqb negb] in H.
  destruct (ntc_remote_buf_map _ (rc_recv_wqe_buf_desc rsp)) as [rc rb].
  destruct (Z.ltb_spec rc 0) as [Hrc|_].
  { destruct (Z.eqb_spec rc 0); [lia|]. cbn [negb] in H. simplify_eq. }
  destruct (ntc_remote_buf_map _ (rc_send_wqe_buf_desc rsp)) as [rc2 sb].
  destruct (Z.ltb_spec rc2 0) as [Hrc|_].
  { destruct (Z.eqb_spec rc2 0); [lia|]. cbn [negb] in H. simplify_eq. }
  unfold ntrdma_qp_recv_work in H. cbn in H. rewrite Hreset in H. cbn in H. by simplify_eq.
Qed.

(** Leaving RESET clears the flags of the receives and lets the rings be. *)
Lemma modify_ok at' mask cm (q q' : ntrdma_qp) kill :
  mask_has mask IB_QP_STATE = true → is_state_out_of_reset (at_qp_state at') = true →
  qp_state q = IB_QPS_RESET →
  ntrdma_modify_qp_local (qp_state q) at' mask cm q = (0, q', kill) →
  qp_send q' = qp_send q ∧ qp_recv q' = qp_recv q ∧ qp_buf q' = qp_buf q ∧ qp_state q' = at_qp_state at'
  ∧ recv_abort (qp_flags q') = false ∧ recv_aborting (qp_flags q') = false ∧ send_abort (qp_flags q') = false.
Proof.
  intros Hm Hs Hr. unfold ntrdma_modify_qp_local, modify_qp_state. rewrite Hm, Hr, Z.eqb_refl.
  unfold is_state_out_of_reset in Hs. apply andb_true_iff in Hs as [Hs Hn]. apply andb_true_iff in Hs as [Hv He].
  apply negb_true_iff in Hn, He. rewrite Hn, He. cbn.
  destruct (_ && _); [done|]. destruct (negb _); [done|].
  rewrite andb_false_r. cbn. by intros [= <- _].
Qed.

(** The attributes that a queue pair can be created with, after the peer's check. *)
Lemma attr_bounds pd rw rsge sw ssge inl t attr o c :
  Forall is_u32 [rw; rsge; sw; ssge; inl] →
  ntrdma_create_qp_attr pd rw rsge sw ssge inl t = (0, attr) →
  qo_qp o = qp_fresh (qp_key (qo_qp o)) attr (send_wqe_buf (qp_buf (qo_qp o))) (recv_wqe_buf (qp_buf (qo_qp o))) →
  ntrdma_qp_create_sanity (ntrdma_qp_enable_prep c o) = 0 →
  0 < ia_send_wqe_cap attr <= MAX_WQE_CAP ∧ 0 < ia_recv_wqe_cap attr <= MAX_WQE_CAP
  ∧ 0 <= ia_send_wqe_sg_cap attr <= MAX_WQE_SG_CAP ∧ 0 <= ia_recv_wqe_sg_cap attr <= MAX_WQE_SG_CAP
  ∧ 0 <= ia_send_wqe_inline_cap attr <= NTRDMA_DEV_MAX_INLINE_DATA.
Proof.
  intros Hu Ha Hq. repeat (apply Forall_cons_1 in Hu as [? Hu]). unfold is_u32 in *.
  unfold ntrdma_qp_create_sanity, ntrdma_qp_enable_prep. rewrite Hq. cbn.
  repeat match goal with |- context [if ?b then _ else _] => destruct b eqn:?; [done|] end.
  unfold ntrdma_create_qp_attr in Ha. injection Ha as Hrc <-. cbn in *.
  destruct (Z.eqb_spec rw 0), (Z.eqb_spec sw 0), (Z.ltb_spec NTRDMA_DEV_MAX_INLINE_DATA inl);
    unfold MAX_WQE_CAP, MAX_WQE_SG_CAP, NTRDMA_DEV_MAX_INLINE_DATA in *; lia.
Qed.

Lemma sizes_small sg inl :
  0 <= sg <= MAX_WQE_SG_CAP → 0 <= inl <= NTRDMA_DEV_MAX_INLINE_DATA →
  0 <= ntrdma_send_wqe_size sg inl < 2 ^ 16 ∧ 0 <= ntrdma_recv_wqe_size sg < 2 ^ 16.
Proof.
  unfold ntrdma_send_wqe_size, ntrdma_recv_wqe_size, ntrdma_wqe_snd_sg_list_size, ntrdma_wqe_rcv_sg_list_size,
    ntrdma_wqe_snd_inline_size, MAX_WQE_SG_CAP, NTRDMA_DEV_MAX_INLINE_DATA.
  change sizeof_ib_sge with 16. change sizeof_send_wqe with 48. change sizeof_wr_rcv_sge with 24.
  change sizeof_recv_wqe with 16. intros ? ?. rewrite (u64_small (sg * 16)), (u64_small (sg * 24)) by lia.
  rewrite !u64_small by lia. lia.
Qed.

Lemma product_small cap size : 0 < cap <= MAX_WQE_CAP → 0 <= size < 2 ^ 16 → 0 <= cap * size < 2 ^ 28.
Proof. unfold MAX_WQE_CAP. nia. Qed.

End Ends.

(** The steps of one side, [ntc] being its device and [ntc'] the peer's: the
    queue pair is created, the peer accepts its command, the answer is
    accepted, and the application moves the queue pair out of RESET.  [o] is the
    queue pair that this gives and [img] the image of it. *)
Section SetUp.
Context {W P W' : Type} `{M : MemStore W} `{!EqDecision P} {K K' : Kernel}.

Inductive set_up (ntc ntc' : ntc_dev) (attr : ntrdma_qp_init_attr) (c : Z) : qp_obj → rqp_obj → Prop :=
| Set_up pd rw rsge sw ssge inl t recv_cq send_cq (sp rp : P) (w0 w1 : init_world W P) o0
    p vbell (alloc : bool) s s' cw cw' rsp kref img (qw qw' : qp_world W) again o1 evs attr' mask cm kill q :
    Forall is_u32 [rw; rsge; sw; ssge; inl] →
    ntrdma_create_qp_attr pd rw rsge sw ssge inl t = (0, attr) →
    ntrdma_qp_init (K := K) ntc attr recv_cq send_cq sp rp w0 = Some (0, Some o0, w1) →
    ntrdma_cmd_recv_qp_create (K := K') ntc' (ntrdma_qp_enable_prep c o0) p vbell alloc s cw = Some (0, rsp, s', cw') →
    rs_objs s' !! p = Some (mk_object (qp_key (qo_qp o0)) kref true img) →
    ntrdma_qp_enable_cmpl (K := K) ntc rsp o0 qw = Some (0, again, o1, qw', evs) →
    mask_has mask IB_QP_STATE = true → is_state_out_of_reset (at_qp_state attr') = true →
    ntrdma_modify_qp_local (qp_state (qo_qp o1)) attr' mask cm (qo_qp o1) = (0, q, kill) →
    set_up ntc ntc' attr c (qo_set_qp q o1) img.

(** What each side knows of the other: every buffer that one side writes is the
    mapping of what the other exported, the index that follows the entries of a
    ring is written where the reader has it, behind all entries and inside the
    buffer, and both agree on the sizes of the entries. *)
Record linked (ntc ntc' : ntc_dev) (attr : ntrdma_qp_init_attr) (c : Z) (o : qp_obj) (img : rqp_obj) : Prop := {
  lk_send_buf : peer_send_wqe_buf (qp_buf (qo_qp o))
                = snd (ntc_remote_buf_map (K := K) ntc (ntc_export_buf_make_desc (ro_send_wqe_buf img)));
  lk_send_prod : peer_send_prod_shift (qp_buf (qo_qp o)) = ia_send_wqe_cap attr * ro_send_wqe_size img;
  lk_send_fits : eb_size (ro_send_wqe_buf img) = ia_send_wqe_cap attr * ro_send_wqe_size img + sizeof_u32;
  lk_send_size : send_wqe_size (qp_buf (qo_qp o)) = ro_send_wqe_size img;
  lk_recv_buf : peer_recv_wqe_buf (qp_buf (qo_qp o))
                = snd (ntc_remote_buf_map (K := K) ntc (ntc_export_buf_make_desc (ro_recv_wqe_buf img)));
  lk_recv_prod : peer_recv_prod_shift (qp_buf (qo_qp o)) = ia_recv_wqe_cap attr * rr_wqe_size (rqp_recv (ro_rqp img));
  lk_recv_fits : eb_size (ro_recv_wqe_buf img)
                 = ia_recv_wqe_cap attr * rr_wqe_size (rqp_recv (ro_rqp img)) + sizeof_u32;
  lk_recv_size : recv_wqe_size (qp_buf (qo_qp o)) = rr_wqe_size (rqp_recv (ro_rqp img));
  lk_cqe_buf : rqp_peer_send_cqe_buf (rqp_buf (ro_rqp img))
               = snd (ntc_remote_buf_map (K := K') ntc' (ntc_export_buf_make_desc (qo_send_cqe_buf o)));
  lk_cons : rqp_peer_send_cons_shift (rqp_buf (ro_rqp img)) = ia_send_wqe_cap attr * sizeof_cqe;
  lk_cqe_fits : eb_size (qo_send_cqe_buf o) = ia_send_wqe_cap attr * sizeof_cqe + sizeof_u32;
  lk_vbell : peer_send_vbell_idx (qp_buf (qo_qp o)) = ro_vbell_idx img;
  lk_cmpl_vbell : rqp_peer_cmpl_vbell_idx (rqp_buf (ro_rqp img)) = c }.

(** The rings of a queue pair that was set up, and of its image. *)
Record clean (attr : ntrdma_qp_init_attr) (q : ntrdma_qp) (p : ntrdma_rqp) : Prop := {
  cl_scap : cap_ok (ia_send_wqe_cap attr);
  cl_rcap : cap_ok (ia_recv_wqe_cap attr);
  cl_send : let r := qp_send q in let cap := ia_send_wqe_cap attr in
    sq_cap r = cap ∧ sq_post r = 0 ∧ sq_prod r = 0 ∧ sq_cmpl r = 0 ∧ sq_cons r = 0
    ∧ Z.of_nat (length (sq_wqes r)) = cap ∧ Z.of_nat (length (sq_cqes r)) = cap;
  cl_recv : let r := qp_recv q in let cap := ia_recv_wqe_cap attr in
    rq_cap r = cap ∧ rq_post r = 0 ∧ rq_prod r = 0 ∧ rq_cons r = 0 ∧ rq_cmpl r = 0
    ∧ Z.of_nat (length (rq_wqes r)) = cap ∧ Z.of_nat (length (rq_cqes r)) = cap;
  cl_flags : recv_abort (qp_flags q) = false ∧ recv_aborting (qp_flags q) = false ∧ send_abort (qp_flags q) = false;
  cl_rsend : let r := rqp_send p in let cap := ia_send_wqe_cap attr in
    rs_cap r = cap ∧ rs_cons r = 0 ∧ rs_prod r = 0
    ∧ Z.of_nat (length (rs_wqes r)) = cap ∧ Z.of_nat (length (rs_cqes r)) = cap;
  cl_rrecv : let r := rqp_recv p in let cap := ia_recv_wqe_cap attr in
    rr_cap r = cap ∧ rr_cons r = 0 ∧ rr_prod r = 0 ∧ Z.of_nat (length (rr_wqes r)) = cap }.

Lemma set_up_ok ntc ntc' attr c o img :
  set_up ntc ntc' attr c o img → clean attr (qo_qp o) (ro_rqp img) ∧ linked ntc ntc' attr c o img.
Proof.
  intros [??????? recv_cq send_cq sp rp w0 w1 o0 p vbell alloc s s' cw cw' rsp kref im qw qw' again o1 evs a m cm kill q
    Hu Hattr Hi Hc Himg He Hmask Hst Hmod].
  apply init_ok in Hi as (key & slb & rlb & ceb & ptr & -> & Hceb).
  apply create_ok in Hc as (Hsan & _ & swb & rwb & scb & idx & Ho & Hswb & Hrwb & ->).
  rewrite Ho in Himg. injection Himg as <- <-. clear Ho.
  eapply attr_bounds in Hsan as (B1 & B2 & B3 & B4 & B5); [|exact Hu|exact Hattr|reflexivity].
  apply enable_ok in He; [|done..]. subst o1.
  apply modify_ok in Hmod as (M1 & M2 & M3 & M4 & M5 & M6 & M7); [|done..].
  pose proof (sizes_small _ _ B3 B5) as [S1 _]. pose proof (sizes_small _ _ B4 B5) as [_ S2].
  pose proof (product_small _ _ B1 S1). pose proof (product_small _ _ B2 S2).
  assert (0 <= ia_send_wqe_cap attr * sizeof_cqe < 2 ^ 28) by (apply product_small; [done|vm_compute; done]).
  cbn in Hswb, Hrwb, M1, M2, M3 |- *. change (2 ^ 28) with 268435456 in *. unfold MAX_WQE_CAP, sizeof_u32 in *.
  rewrite (u64_small (_ * _)), u64_small in Hswb by lia. rewrite (u64_small (_ * _)), u64_small in Hrwb by lia.
  rewrite (u64_small (_ * _)), u64_small in Hceb by lia.
  assert (∀ o, sq_cons (qp_send (qo_qp o)) = 0 → ntrdma_qp_send_cons o = 0) as Hcons.
  { intros oo Hz. unfold ntrdma_qp_send_cons. by destruct (ntc_export_buf_const_deref _ _ _). }
  split; constructor; cbn; rewrite ?M1, ?M2, ?M3; cbn; rewrite ?length_replicate, ?Z2Nat.id by lia;
    try split_and!; try done; try (unfold cap_ok; lia); rewrite ?u64_small by lia; first [done|by apply Hcons].
Qed.

Lemma clean_start attr attr' q p q' p' :
  clean attr q p → clean attr' q' p' →
  qstart (ia_send_wqe_cap attr) (ia_recv_wqe_cap attr') (mk_qchan q p' q' p [] [] [] [] [] [] [] [] []).
Proof.
  intros [] []. destruct cl_flags0 as (? & ? & ?), cl_flags1 as (? & ? & ?).
  unfold qstart. cbn [a_q a_p b_q b_p]. split_and!; try done; try apply cl_send0; try apply cl_recv1; try apply cl_rrecv1; apply cl_rsend0.
Qed.

End SetUp.


(** ** The channel *)

(** C3: two queue pairs that were created, accepted by each other's device and
    moved out of RESET start the channels of [QpChan] in both directions: each
    image of a peer's queue pair has the capacities and positions of the queue
    pair it stands for, every ring is empty and holds exactly its capacity of
    entries, and no flag stops a side.  Moreover the two sides agree on the
    memory: each buffer that one writes is the mapping of the one that the other
    reads, with entries of one size, and the index of each ring is written right
    behind the entries and inside the buffer. *)
Theorem qp_setup_opens_channel {W P : Type} `{M : MemStore W} `{!EqDecision P} (KA KB : Kernel)
    ntcA ntcB attrA attrB cA cB oA oB imgA imgB :
  set_up (W := W) (P := P) (K := KA) (K' := KB) ntcA ntcB attrA cA oA imgA →
  set_up (W := W) (P := P) (K := KB) (K' := KA) ntcB ntcA attrB cB oB imgB →
  qstart (ia_send_wqe_cap attrA) (ia_recv_wqe_cap attrB)
    (mk_qchan (qo_qp oA) (ro_rqp imgB) (qo_qp oB) (ro_rqp imgA) [] [] [] [] [] [] [] [] [])
  ∧ qstart (ia_send_wqe_cap attrB) (ia_recv_wqe_cap attrA)
      (mk_qchan (qo_qp oB) (ro_rqp imgA) (qo_qp oA) (ro_rqp imgB) [] [] [] [] [] [] [] [] [])
  ∧ linked (K := KA) (K' := KB) ntcA ntcB attrA cA oA imgA
  ∧ linked (K := KB) (K' := KA) ntcB ntcA attrB cB oB imgB.
Proof.
  intros [CA LA]%set_up_ok [CB LB]%set_up_ok. split_and!; [..|done|done]; by eapply clean_start.
Qed.

(** ** A queue pair that is refused *)

Section Refused.
Context {W : Type} `{M : MemStore W} `{K : Kernel} `{KO : !KernelOk K}.

Lemma zalloc_init_balanced ntc size isize off b0 w rc b w1 seg :
  _ntc_export_buf_zalloc_init ntc size isize off b0 w = Some (rc, b, w1, seg) →
  (rc < 0 → same_counts w w1)
  ∧ (0 <= rc → ∀ wx b2 w2, same_counts w1 wx → ntc_export_buf_free ntc b wx = Some (b2, w2) → same_counts w w2).
Proof.
  unfold _ntc_export_buf_zalloc_init, with_init. destruct (negb _); [by intros [= <- <- <- <-]|].
  destruct (_ntc_export_buf_zalloc _ _ _) as [[[rc' b'] w']|] eqn:Ha; [|done].
  apply export_balanced in Ha as [H1 H2]. intros H.
  assert (rc = rc' ∧ b = b' ∧ w1 = w') as (-> & -> & ->) by (destruct (rc' <? 0); by simplify_eq).
  split; [done|]. intros Hrc wx b2 w2 Hx Hf. by destruct (H2 Hrc wx b2 w2 Hx Hf).
Qed.

(** The labels take back the buffers of an image. *)
Definition label_balanced (b0 b1 : buf_world) (label : cmd_world → option cmd_world) : Prop :=
  ∀ w w', same_counts b1 (cw_bw w) → label w = Some w' → same_counts b0 (cw_bw w') ∧ cw_maps w' = cw_maps w.

Lemma rqp_init_balanced ntc a key vbell w rc oo w1 :
  ntrdma_rqp_init ntc a key vbell w = Some (rc, oo, w1) →
  cw_maps w1 = cw_maps w
  ∧ match oo with
    | None => same_counts (cw_bw w) (cw_bw w1)
    | Some o => label_balanced (cw_bw w) (cw_bw w1) (ntrdma_rqp_deinit ntc o)
    end.
Proof.
  unfold ntrdma_rqp_init. cbv zeta.
  destruct (_ntc_export_buf_zalloc_init _ _ _ _ _ (cw_bw w)) as [[[[r1 swb] b1] seg1]|] eqn:H1; [|done].
  apply zalloc_init_balanced in H1 as [F1 S1]. destruct (Z.ltb_spec r1 0); [intros [= <- <- <-]; by auto|].
  destruct (ntc_local_buf_zalloc _ (cw_bw (cw_set_bw b1 w))) as [[r2 scb] b2] eqn:H2.
  apply local_balanced in H2 as [F2 S2].
  assert (label_balanced (cw_bw w) b1 (rqp_err_send_cqe_buf ntc swb)) as L1.
  { intros wx w' Hx. unfold rqp_err_send_cqe_buf. destruct (ntc_export_buf_free _ _ _) as [[? b']|] eqn:Hf; [|done].
    intros [= <-]. split; [|done]. by eapply S1. }
  destruct (Z.ltb_spec r2 0).
  { destruct (rqp_err_send_cqe_buf _ _ _) as [wx|] eqn:Hl; [|done]. intros [= <- <- <-].
    apply L1 in Hl as [? ->]; [done|]. by apply F2. }
  assert (label_balanced (cw_bw w) b2 (rqp_err_recv_wqe_buf ntc scb swb)) as L2.
  { intros wx w' Hx Hl. unfold rqp_err_recv_wqe_buf in Hl. apply L1 in Hl; [done|]. cbn. by apply S2. }
  destruct (_ntc_export_buf_zalloc_init _ _ _ _ _ _) as [[[[r3 rwb] b3] seg3]|] eqn:H3; [|done].
  apply zalloc_init_balanced in H3 as [F3 S3]. destruct (Z.ltb_spec r3 0).
  { destruct (rqp_err_recv_wqe_buf _ _ _ _) as [wx|] eqn:Hl; [|done]. intros [= <- <- <-].
    apply L2 in Hl as [? ->]; [done|]. by apply F3. }
  assert (label_balanced (cw_bw w) b3 (rqp_err_vbell_idx ntc rwb scb swb)) as L3.
  { intros wx w' Hx. unfold rqp_err_vbell_idx. destruct (ntc_export_buf_free _ _ _) as [[? b']|] eqn:Hf; [|done].
    intros Hl. apply L2 in Hl; [done|]. cbn. by eapply S3. }
  destruct (ntrdma_dev_vbell_next _) as [idx vb]. destruct (NTRDMA_DEV_VBELL_COUNT <=? idx).
  { destruct (rqp_err_vbell_idx _ _ _ _ _) as [wx|] eqn:Hl; [|done]. intros [= <- <- <-].
    by apply L3 in Hl as [? ->]. }
  intros [= <- <- <-]. split; [done|]. intros wx w' Hx Hl. unfold ntrdma_rqp_deinit in Hl. by apply L3 in Hl.
Qed.

(** The peer has accepted the sizes and mapped the completions, and cannot set
    up the image. *)
Definition init_refused (ntc : ntc_dev) (c : ntrdma_cmd_qp_create) (vbell : nat) (alloc : bool) (w : cmd_world) : bool :=
  let '(rc, _, w) := cw_map ntc (qc_send_cqe_buf_desc c) w in
  (ntrdma_qp_create_sanity c =? 0) && alloc && (0 <=? rc)
  && match ntrdma_rqp_init ntc (create_attr ntc c) (qc_qp_key c) vbell w with Some (_, None, _) => true | _ => false end.

Lemma map_failed ntc d w rc b w' : cw_map ntc d w = (rc, b, w') → rc < 0 → is_mapped b = 0.
Proof.
  unfold cw_map, ntc_remote_buf_map. repeat case_match; intros; simplify_eq; done || (cbn in *; lia).
Qed.


End Refused.

(** *** Examples, used by the witnesses *)

Definition demo_dev : ntc_dev :=
  mk_ntc_dev [mk_own_mw 65536 4096 4096 0 4096 0; mk_own_mw 131072 0 4096 0 4096 1]
    [mk_peer_mw 1048576 4096 1048576 0 4096 0; mk_peer_mw 2097152 4096 2097152 0 4096 1].
Definition demo_bw : buf_world := mk_bw (mk_mm 4096 8192 4096 ∅ (λ _, 0)) 0 0 0.
Definition demo_iw : init_world list_store unit :=
  mk_iw (mk_res_store (mk_rkvec 4 2 2 [true; true; false; false] [None; None; None; None]) ∅ [] (mk_heap 0 1 1 0) false)
    {[ 0%nat := (1, mk_cq true 0 false 0 []); 1%nat := (1, mk_cq true 0 false 1 []) ]}
    (mk_qw ex_world demo_vb demo_bw 0).
Definition demo_cw : cmd_world :=
  mk_cw (mk_dev_vbell true 8 0 0 (mk_vbells (replicate 8 ntrdma_vbell_head_init) ∅ []) [] [] demo_rb 1) demo_bw 0.
Definition demo_rres : rres_store rqp_obj :=
  mk_rres_store (mk_rvec 4 [None; None; None; None]) ∅ [] [] (mk_heap 0 1 1 0).
Definition demo_attr (sw rw : Z) : ntrdma_qp_init_attr := snd (ntrdma_create_qp_attr 0 rw 1 sw 2 0 0).
Definition demo_modify : ib_qp_attr := mk_attr IB_QPS_INIT 0 0 0.

(** A side whose rings hold [sw] sends and [rw] receives. *)
Definition demo_set_up (sw rw : Z) : qp_obj → rqp_obj → Prop :=
  set_up (W := list_store) (P := unit) (K := kernel_good) (K' := kernel_good) demo_dev demo_dev (demo_attr sw rw) 5.

Ltac demo_side sw rw :=
  eexists _, _;
  eapply (Set_up _ _ _ _ 0 rw 1 sw 2 0 0 0%nat 1%nat tt tt demo_iw _ _ 7%nat 3%nat true demo_rres _ demo_cw _ _ _ _
            demo_world _ _ _ _ demo_modify IB_QP_STATE false _ _);
  [|vm_compute; reflexivity..]; repeat (constructor; [vm_compute; by split|]); constructor.

Lemma demo_side_a : ∃ o img, demo_set_up 2 3 o img.
Proof. demo_side 2 3. Qed.
Lemma demo_side_b : ∃ o img, demo_set_up 4 1 o img.
Proof. demo_side 4 1. Qed.

Lemma qp_setup_opens_channel_witness :
  ∃ oA imgA oB imgB, demo_set_up 2 3 oA imgA ∧ demo_set_up 4 1 oB imgB
    ∧ qstart 2 1 (mk_qchan (qo_qp oA) (ro_rqp imgB) (qo_qp oB) (ro_rqp imgA) [] [] [] [] [] [] [] [] []).
Proof.
  destruct demo_side_a as (oA & imgA & HA), demo_side_b as (oB & imgB & HB). exists oA, imgA, oB, imgB.
  split; [exact HA|]. split; [exact HB|].
  exact (proj1 (qp_setup_opens_channel kernel_good kernel_good _ _ _ _ _ _ _ _ _ _ HA HB)).
Defined.

(** The window has no room for the image: its rings are not set up, and the
    completions stay mapped. *)
Definition demo_full : cmd_world := cw_set_bw (mk_bw (mk_mm 4096 4200 4096 ∅ (λ _, 0)) 0 0 0) demo_cw.
Definition demo_cmd : ntrdma_cmd_qp_create :=
  mk_qp_create 2 0 0 3 1 0 2 2 0 0 (mk_desc (mk_chan_addr 128 false 0 true) 52) 48 5.


End QpSetup.
