(* ===== verification/Win.v ===== *)
(** * Memory windows (ntc_ntb_msi.c, the parts that set them up)

    A device has two windows through which the peer reaches its memory: one for
    the state machine of the link and the exported buffers, one for the rest of
    its memory.  The module translates how they are chosen, how their addresses
    are aligned for the bridge, and how the windows of the peer are found. *)

From stdpp Require Import gmap.
From S2P Require Import Prelude Kernel Ntc Mm.
Import Ntc Mm.

Module Win.

Definition PAGE_SIZE : Z := 4096.

(** [ALIGN] for a power of two, in 64 bits. *)
Definition ALIGN (x a : Z) : Z := Z.land (u64 (x + (a - 1))) (u64 (Z.lnot (a - 1))).
Definition PAGE_ALIGN (x : Z) : Z := ALIGN x PAGE_SIZE.

(** ** Data *)

(** [KMALLOC_MAX_SIZE], and what the bridge answers: codes, alignments and the
    largest size of a window; [None] for memory that cannot be had. *)
Record mw_answers := mk_mw_answers {
  an_align_rc : Z; an_addr_align : Z; an_size_align : Z; an_size_max : Z;
  an_set_trans : Z;
  an_kmalloc_max : Z;
  an_coherent : option (Z * Z);
  an_memremap : Z }.

Record own_mw_data := mk_mw_data {
  wd_base_addr : Z; wd_len : Z;
  wd_addr_align : Z; wd_size_align : Z; wd_size_max : Z;
  wd_mm_len : Z; wd_mm_prealloc : Z;
  wd_coherent : Z * Z * Z;    (* size, ptr, dma_addr *)
  wd_reserved : bool; wd_reserved_used : bool; wd_coherent_used : bool; wd_mm_inited : bool }.

(** A window of a device: its description, its parameters, its allocator, what
    the bridge translates accesses of the peer to, and the memory held: mappings
    and coherent buffers. *)
Record own_win := mk_win {
  wn_mw : ntc_own_mw;
  wn_data : own_mw_data;
  wn_mm : option ntc_mm;
  wn_trans : option (Z * Z);
  wn_held : Z }.

Definition wn_set_mw (m : ntc_own_mw) (w : own_win) : own_win :=
  mk_win m (wn_data w) (wn_mm w) (wn_trans w) (wn_held w).
Definition wn_set_data (d : own_mw_data) (w : own_win) : own_win :=
  mk_win (wn_mw w) d (wn_mm w) (wn_trans w) (wn_held w).
Definition wn_set_mm (mm : option ntc_mm) (w : own_win) : own_win :=
  mk_win (wn_mw w) (wn_data w) mm (wn_trans w) (wn_held w).
Definition wn_set_trans (t : option (Z * Z)) (w : own_win) : own_win :=
  mk_win (wn_mw w) (wn_data w) (wn_mm w) t (wn_held w).
Definition wn_hold (n : Z) (w : own_win) : own_win :=
  mk_win (wn_mw w) (wn_data w) (wn_mm w) (wn_trans w) (wn_held w + n).

Definition mw_set_mem (base base_ptr size : Z) (m : ntc_own_mw) : ntc_own_mw :=
  mk_own_mw base base_ptr size (om_dead_zone_size m) (om_trans_len m) (om_mw_idx m).
Definition mw_set_size (size : Z) (m : ntc_own_mw) : ntc_own_mw :=
  mw_set_mem (om_base m) (om_base_ptr m) size m.
Definition mw_set_idx (i : Z) (m : ntc_own_mw) : ntc_own_mw :=
  mk_own_mw (om_base m) (om_base_ptr m) (om_size m) (om_dead_zone_size m) (om_trans_len m) i.
Definition mw_set_trans (dead len : Z) (m : ntc_own_mw) : ntc_own_mw :=
  mk_own_mw (om_base m) (om_base_ptr m) (om_size m) dead len (om_mw_idx m).

Definition wd_set_align (aa sa sm : Z) (d : own_mw_data) : own_mw_data :=
  mk_mw_data (wd_base_addr d) (wd_len d) aa sa sm (wd_mm_len d) (wd_mm_prealloc d) (wd_coherent d)
    (wd_reserved d) (wd_reserved_used d) (wd_coherent_used d) (wd_mm_inited d).
Definition wd_set_lens (len mm_len : Z) (d : own_mw_data) : own_mw_data :=
  mk_mw_data (wd_base_addr d) len (wd_addr_align d) (wd_size_align d) (wd_size_max d) mm_len (wd_mm_prealloc d)
    (wd_coherent d) (wd_reserved d) (wd_reserved_used d) (wd_coherent_used d) (wd_mm_inited d).
Definition wd_set_used (res coh : bool) (d : own_mw_data) : own_mw_data :=
  mk_mw_data (wd_base_addr d) (wd_len d) (wd_addr_align d) (wd_size_align d) (wd_size_max d) (wd_mm_len d)
    (wd_mm_prealloc d) (wd_coherent d) (wd_reserved d) res coh (wd_mm_inited d).
Definition wd_set_inited (b : bool) (d : own_mw_data) : own_mw_data :=
  mk_mw_data (wd_base_addr d) (wd_len d) (wd_addr_align d) (wd_size_align d) (wd_size_max d) (wd_mm_len d)
    (wd_mm_prealloc d) (wd_coherent d) (wd_reserved d) (wd_reserved_used d) (wd_coherent_used d) b.
Definition wd_set_coherent (c : Z * Z * Z) (d : own_mw_data) : own_mw_data :=
  mk_mw_data (wd_base_addr d) (wd_len d) (wd_addr_align d) (wd_size_align d) (wd_size_max d) (wd_mm_len d)
    (wd_mm_prealloc d) c (wd_reserved d) (wd_reserved_used d) (wd_coherent_used d) (wd_mm_inited d).

(** ** The windows of the peer *)

(** [addr] is what the bridge says of the window, [ptr] what [ioremap] gives.
    The result says also whether the peer's memory was cleared. *)
Definition ntc_ntb_init_peer (mw_idx deref_size : Z) (addr : Z * Z) (ptr : Z) (m : ntc_peer_mw)
    : Z * ntc_peer_mw * bool :=
  let '(base, size) := addr in
  let mw ptr := mk_peer_mw base size ptr 0 (pm_trans_len m) mw_idx in
  if (size <? deref_size) || (base =? 0) then (- ENOMEM, mw 0, false)
  else if ptr =? 0 then (- EIO, mw 0, false)
  else (0, mw ptr, negb (deref_size =? 0)).

Definition ntc_ntb_deinit_peer (m : ntc_peer_mw) : ntc_peer_mw :=
  mk_peer_mw (pm_base m) (pm_size m) 0 (pm_dead_zone_size m) (pm_trans_len m) (pm_mw_idx m).

(** ** The own windows *)

Definition ntc_ntb_init_own_mw_flat (w : own_win) : Z * own_win := (0, wn_set_mw (mw_set_mem 0 0 0 (wn_mw w)) w).

Definition ntc_ntb_init_own_mw_coherent (a : mw_answers) (w : own_win) : Z * own_win :=
  let d := wn_data w in
  let size := wd_len d in
  let size := if size =? 0 then wd_size_max d else size in
  let size := if negb (wd_size_align d =? 0) then ALIGN size (wd_size_align d) else size in
  if size =? 0 then (- EINVAL, w)
  else
    let w := wn_set_mw (mw_set_size size (wn_mw w)) w in
    let alloc_size := u64 (size + wd_addr_align d) in
    if alloc_size =? 0 then (- EINVAL, w)
    else if an_kmalloc_max a <? alloc_size then (- EINVAL, w)
    else
      match an_coherent a with
      | None => (- ENOMEM, wn_set_data (wd_set_coherent (alloc_size, 0, snd (wd_coherent d)) d) w)
      | Some (ptr, dma_addr) =>
          let w := wn_hold 1 (wn_set_data (wd_set_coherent (alloc_size, ptr, dma_addr) d) w) in
          let base := if negb (wd_addr_align d =? 0) then ALIGN dma_addr (wd_addr_align d) else dma_addr in
          (0, wn_set_mw (mw_set_mem base (u64 (ptr + u64 (base - dma_addr))) size (wn_mw w)) w)
      end.

(** [cmadevs_set]: the memory is mapped already. *)
Definition ntc_ntb_init_own_mw_reserved (cmadevs_set : bool) (a : mw_answers) (w : own_win) : Z * own_win :=
  let d := wn_data w in
  if negb (wd_mm_len d =? 0) then
    let ptr := an_memremap a in
    let w := wn_set_mw (mw_set_mem (om_base (wn_mw w)) ptr (om_size (wn_mw w)) (wn_mw w)) w in
    if ptr =? 0 then (- EIO, w)
    else
      (0, wn_hold (if cmadevs_set then 0 else 1) (wn_set_mw (mw_set_mem (wd_base_addr d) ptr (wd_len d) (wn_mw w)) w))
  else (0, wn_set_mw (mw_set_mem (wd_base_addr d) 0 (wd_len d) (wn_mw w)) w).

Definition ntc_ntb_deinit_own (cmadevs_set : bool) (w : own_win) : own_win :=
  let w := wn_set_trans None w in
  let w := if wd_mm_inited (wn_data w) then wn_set_data (wd_set_inited false (wn_data w)) (wn_set_mm None w) else w in
  let w :=
    if wd_reserved_used (wn_data w) then
      let unmap := negb cmadevs_set && negb (om_base_ptr (wn_mw w) =? 0) in
      wn_set_data (wd_set_used false (wd_coherent_used (wn_data w)) (wn_data w)) (wn_hold (if unmap then -1 else 0) w)
    else w in
  if wd_coherent_used (wn_data w) then
    wn_set_data (wd_set_used (wd_reserved_used (wn_data w)) false (wn_data w)) (wn_hold (-1) w)
  else w.

(** The label [init_mm]; [mem] is the memory of the allocator's region. *)
Definition init_own_mm (cmadevs_set : bool) (mem : Z → Z) (w : own_win) : Z * own_win :=
  let d := wn_data w in
  match ntc_mm_init (u64 (om_base_ptr (wn_mw w) + wd_mm_prealloc d)) (u64 (wd_mm_len d - wd_mm_prealloc d)) mem with
  | None => (- EINVAL, ntc_ntb_deinit_own cmadevs_set w)
  | Some mm => (0, wn_set_data (wd_set_inited true d) (wn_set_mm (Some mm) w))
  end.

Definition ntc_ntb_init_own (cmadevs_set : bool) (mw_idx : Z) (a : mw_answers) (mem : Z → Z) (w : own_win) : Z * own_win :=
  let w := wn_set_mw (mw_set_idx mw_idx (wn_mw w)) w in
  let d := wd_set_used false false (wn_data w) in
  let d := wd_set_lens (PAGE_ALIGN (wd_len d)) (PAGE_ALIGN (wd_mm_len d)) d in
  let w := wn_set_trans None (wn_set_data d w) in
  let fail rc w := (rc, ntc_ntb_deinit_own cmadevs_set w) in
  if wd_len d <? wd_mm_len d then (- EINVAL, w)
  else if wd_mm_len d <? wd_mm_prealloc d then (- EINVAL, w)
  else if wd_reserved d then
    let '(rc, w) := ntc_ntb_init_own_mw_reserved cmadevs_set a w in
    if rc <? 0 then fail rc w
    else init_own_mm cmadevs_set mem (wn_set_data (wd_set_used true (wd_coherent_used (wn_data w)) (wn_data w)) w)
  else if mw_idx =? NTC_DRAM_MW_IDX then
    let '(rc, w) := ntc_ntb_init_own_mw_flat w in
    if rc <? 0 then fail rc w else init_own_mm cmadevs_set mem w
  else
    let '(rc, w) := ntc_ntb_init_own_mw_coherent a w in
    if rc <? 0 then fail rc w
    else init_own_mm cmadevs_set mem (wn_set_data (wd_set_used (wd_reserved_used (wn_data w)) true (wn_data w)) w).

(** ** The translation of the bridge *)

(** The label [err]. *)
Definition clear_trans (w : own_win) : own_win := wn_set_data (wd_set_align 0 0 0 (wn_data w)) (wn_set_trans None w).

Definition set_memory_windows_on_device (a : mw_answers) (w : own_win) : Z * own_win :=
  let rc := an_align_rc a in
  if negb (rc =? 0) then (rc, clear_trans w)
  else
    let w := wn_set_data (wd_set_align (an_addr_align a) (an_size_align a) (an_size_max a) (wn_data w)) w in
    let d := wn_data w in
    let w := if om_size (wn_mw w) =? 0 then wn_set_mw (mw_set_size (wd_size_max d) (wn_mw w)) w else w in
    let own_mw := wn_mw w in
    if om_size own_mw =? 0 then (- EINVAL, w)
    else
      let addr_misalignment :=
        if negb (wd_addr_align d =? 0) then Z.land (wd_base_addr d) (u64 (wd_addr_align d - 1)) else 0 in
      let actual_base_addr := u64 (wd_base_addr d - addr_misalignment) in
      let actual_len := u64 (wd_len d + addr_misalignment) in
      let actual_len :=
        if (actual_base_addr =? 0) && (actual_len <? wd_addr_align d) then wd_addr_align d else actual_len in
      if actual_len <? wd_len d then (- EINVAL, w)
      else if negb (addr_misalignment =? 0) && negb (wd_mm_len d =? 0) then (- EINVAL, w)
      else if wd_size_max d <? wd_len d then (- EINVAL, clear_trans w)
      else
        let trans := if negb (addr_misalignment =? 0) then (actual_base_addr, actual_len)
                     else (om_base own_mw, om_size own_mw) in
        let rc := an_set_trans a in
        if rc <? 0 then (rc, clear_trans w)
        else (rc, wn_set_trans (Some trans) (wn_set_mw (mw_set_trans addr_misalignment (snd trans) own_mw) w)).

(** ** The translation covers the window *)

Definition align_ok (a : Z) : Prop := a = 0 ∨ ∃ k, 0 <= k < 64 ∧ a = 2 ^ k.

Lemma land_low_bits b k : 0 <= k < 64 → Z.land b (u64 (2 ^ k - 1)) = b mod 2 ^ k.
Proof.
  intros Hk. rewrite u64_small.
  - rewrite <- Z.land_ones by lia. by rewrite Z.ones_equiv, <- Z.sub_1_r.
  - assert (1 <= 2 ^ k) by (apply (Z.pow_le_mono_r 2 0 k); lia).
    assert (2 ^ k < 2 ^ 64) by (apply Z.pow_lt_mono_r; lia). change (2 ^ 64) with 18446744073709551616 in *. lia.
Qed.

(** A call that returned 0 did not return this error. *)
Ltac einval := let H := fresh in intros H; apply (f_equal fst) in H; cbn in H; discriminate H.

(** How far a window begins inside what the bridge can translate. *)
Definition misalignment (d : own_mw_data) (align : Z) : Z := if align =? 0 then 0 else wd_base_addr d mod align.

Record win_wf (w : own_win) : Prop := {
  ww_base : 0 <= wd_base_addr (wn_data w) < 2 ^ 64;
  ww_len : 0 <= wd_len (wn_data w) < 2 ^ 64 }.

Lemma set_windows_shape a w w' :
  win_wf w → align_ok (an_addr_align a) → set_memory_windows_on_device a w = (0, w') →
  let m := misalignment (wn_data w) (an_addr_align a) in
  let size := if om_size (wn_mw w) =? 0 then an_size_max a else om_size (wn_mw w) in
  0 <= m <= wd_base_addr (wn_data w)
  ∧ om_base (wn_mw w') = om_base (wn_mw w) ∧ om_size (wn_mw w') = size ∧ size ≠ 0
  ∧ om_base_ptr (wn_mw w') = om_base_ptr (wn_mw w) ∧ om_mw_idx (wn_mw w') = om_mw_idx (wn_mw w)
  ∧ om_dead_zone_size (wn_mw w') = m
  ∧ wn_trans w' = Some (if m =? 0 then om_base (wn_mw w) else wd_base_addr (wn_data w) - m, om_trans_len (wn_mw w'))
  ∧ (m = 0 → om_trans_len (wn_mw w') = size)
  ∧ (m ≠ 0 → m + wd_len (wn_data w) <= om_trans_len (wn_mw w') ∧ wd_mm_len (wn_data w) = 0).
Proof.
  intros [Hb Hl] Ha. unfold set_memory_windows_on_device. cbv zeta.
  destruct (Z.eqb_spec (an_align_rc a) 0) as [Hrc|]; cbn [negb]; [|intros [= Hz _]; lia].
  set (m := misalignment (wn_data w) (an_addr_align a)).
  assert (0 <= m <= wd_base_addr (wn_data w) ∧
    (if negb (an_addr_align a =? 0) then Z.land (wd_base_addr (wn_data w)) (u64 (an_addr_align a - 1)) else 0) = m) as [Hm Hmeq].
  { unfold m, misalignment. destruct (Z.eqb_spec (an_addr_align a) 0); cbn [negb]; [lia|].
    destruct Ha as [|(k & Hk & ->)]; [done|]. rewrite land_low_bits by done.
    assert (0 < 2 ^ k) by lia. split; [|done]. split; [apply Z.mod_pos_bound; lia|apply Z.mod_le; lia]. }
  assert (m ≠ 0 → m < an_addr_align a <= 2 ^ 63) as Hma.
  { unfold m, misalignment. destruct (Z.eqb_spec (an_addr_align a) 0); [lia|]. intros _.
    destruct Ha as [|(k & Hk & ->)]; [done|]. split; [apply Z.mod_pos_bound; lia|apply Z.pow_le_mono_r; lia]. }
  set (size := if om_size (wn_mw w) =? 0 then an_size_max a else om_size (wn_mw w)).
  set (w1 := wn_set_data _ w).
  set (w2 := if om_size (wn_mw w1) =? 0 then _ else w1).
  assert (wn_data w2 = wn_data w1 ∧ om_size (wn_mw w2) = size ∧ om_base (wn_mw w2) = om_base (wn_mw w)
    ∧ om_base_ptr (wn_mw w2) = om_base_ptr (wn_mw w) ∧ om_mw_idx (wn_mw w2) = om_mw_idx (wn_mw w)) as (D & S1 & S2 & S3 & S4).
  { unfold w2, size. change (om_size (wn_mw w1)) with (om_size (wn_mw w)). by destruct (om_size (wn_mw w) =? 0). }
  rewrite S1. destruct (Z.eqb_spec size 0) as [|Hsz]; [einval|].
  change (wd_addr_align (wn_data w1)) with (an_addr_align a). change (wd_base_addr (wn_data w1)) with (wd_base_addr (wn_data w)).
  change (wd_len (wn_data w1)) with (wd_len (wn_data w)). change (wd_mm_len (wn_data w1)) with (wd_mm_len (wn_data w)).
  rewrite Hmeq. set (len := if _ && _ then _ else _).
  destruct (Z.ltb_spec len (wd_len (wn_data w))) as [|Hlen]; [einval|].
  destruct (negb (m =? 0) && negb (wd_mm_len (wn_data w) =? 0)) eqn:Hmm; [einval|].
  destruct (wd_size_max _ <? _); [einval|].
  destruct (an_set_trans a <? 0) eqn:Htr; [intros [= Hz _]; lia|]. intros [= Hz <-].
  cbn [wn_mw wn_trans wn_set_trans wn_set_mw mw_set_trans om_base om_size om_base_ptr om_mw_idx om_dead_zone_size om_trans_len].
  rewrite S1, S2, S3, S4. rewrite (u64_small (_ - m)) by wsolve.
  split_and!; try done; try lia.
  - by destruct (m =? 0).
  - by intros ->.
  - intros H0. destruct (Z.eqb_spec m 0); [lia|]. cbn [negb andb snd] in *. split; [|lia].
    specialize (Hma H0). subst len. change (2 ^ 63) with 9223372036854775808 in Hma.
    destruct (Z.lt_ge_cases (wd_len (wn_data w) + m) (2 ^ 64)).
    + rewrite (u64_small (wd_len _ + m)) in * by wsolve. destruct (_ && _) eqn:Hc in |- *; lia.
    + destruct (_ && _) eqn:Hc in Hlen |- *; [wsolve|].
      exfalso. assert (u64 (wd_len (wn_data w) + m) = wd_len (wn_data w) + m - 2 ^ 64) as E.
      { unfold u64. rewrite <- (Z.mod_small (wd_len (wn_data w) + m - 2 ^ 64) (2 ^ 64)) by wsolve.
        replace (wd_len (wn_data w) + m) with (wd_len (wn_data w) + m - 2 ^ 64 + 1 * 2 ^ 64) at 1 by lia.
        by rewrite Z.mod_add by lia. }
      rewrite E in Hlen. wsolve.
Qed.

(** A window whose memory is where the parameters asked for it. *)
Definition placed (w : own_win) : Prop :=
  om_base (wn_mw w) = wd_base_addr (wn_data w) ∧ om_size (wn_mw w) = wd_len (wn_data w) ∧ 0 < wd_len (wn_data w).

Lemma window_translation a w w' :
  win_wf w → align_ok (an_addr_align a) →
  placed w ∨ misalignment (wn_data w) (an_addr_align a) = 0 →
  set_memory_windows_on_device a w = (0, w') →
  let m := wn_mw w' in
  ∃ base len, wn_trans w' = Some (base, len) ∧ len = om_trans_len m ∧ 0 <= om_dead_zone_size m
    ∧ (∀ off, 0 <= off < om_size m →
         base + (om_dead_zone_size m + off) = om_base m + off ∧ om_dead_zone_size m + off < len)
    ∧ (om_dead_zone_size m ≠ 0 → base mod an_addr_align a = 0).
Proof.
  intros Hw Ha Hp Hrun m.
  destruct (set_windows_shape a w w' Hw Ha Hrun) as (H1 & H2 & H3 & H4 & _ & _ & H5 & H6 & H7 & H8).
  unfold m. rewrite H2, H3, H5, H6. set (k := misalignment _ _) in *. eexists _, _. split; [reflexivity|]. split; [done|].
  split; [lia|]. destruct (Z.eqb_spec k 0) as [Hk|Hk].
  - split; [|done]. intros off Hoff. rewrite (H7 Hk). lia.
  - destruct Hp as [(P1 & P2 & P3)|]; [|done]. destruct (H8 Hk) as [H9 _]. split.
    + intros off Hoff. rewrite P1. rewrite P2 in Hoff. destruct (Z.eqb_spec (wd_len (wn_data w)) 0); lia.
    + intros _. unfold k, misalignment in *. destruct (Z.eqb_spec (an_addr_align a) 0); [lia|].
      rewrite Zminus_mod_idemp_r, Z.sub_diag. apply Z.mod_0_l. done.
Qed.

(** C23: a window that was given to the bridge covers the memory behind it. For
    a window whose memory is where the parameters asked for it, or whose address
    needs no correction, the bridge translates an access at the dead zone plus
    any offset below the size of the window to that offset in the memory, and
    none of them lies outside what it translates; a corrected address is a
    multiple of the alignment. *)
Theorem window_covers_memory a w w' :
  win_wf w → align_ok (an_addr_align a) →
  placed w ∨ misalignment (wn_data w) (an_addr_align a) = 0 →
  set_memory_windows_on_device a w = (0, w') →
  let m := wn_mw w' in
  ∃ base len, wn_trans w' = Some (base, len) ∧ len = om_trans_len m ∧ 0 <= om_dead_zone_size m
    ∧ (∀ off, 0 <= off < om_size m →
         base + (om_dead_zone_size m + off) = om_base m + off ∧ om_dead_zone_size m + off < len)
    ∧ (om_dead_zone_size m ≠ 0 → base mod an_addr_align a = 0).
Proof. intros Hw Ha Hp Hrun. exact (window_translation a w w' Hw Ha Hp Hrun). Qed.

(** Reserved memory at 0x5100, which the bridge can only translate from 0x5000. *)
Definition demo_win : own_win :=
  mk_win (mk_own_mw 0x5100 0 0x3000 0 0 1)
    (mk_mw_data 0x5100 0x3000 0 0 0 0 0 (0, 0, 0) true true false false) None None 0.
Definition demo_answers : mw_answers := mk_mw_answers 0 0x1000 0x1000 0x100000 0 (2 ^ 22) None 0.

Lemma window_covers_memory_witness :
  misalignment (wn_data demo_win) 0x1000 = 0x100
  ∧ ∃ base len, wn_trans (snd (set_memory_windows_on_device demo_answers demo_win)) = Some (base, len)
      ∧ (∀ off, 0 <= off < 0x3000 → base + (0x100 + off) = 0x5100 + off ∧ 0x100 + off < len).
Proof.
  split; [reflexivity|].
  destruct (window_covers_memory demo_answers demo_win (snd (set_memory_windows_on_device demo_answers demo_win)))
    as (base & len & H1 & _ & _ & H2 & _).
  - split; cbn; lia.
  - right. exists 12. split; [lia|reflexivity].
  - left. split; [reflexivity|]. split; [reflexivity|cbn; lia].
  - reflexivity.
  - exists base, len. split; [exact H1|exact H2].
Defined.

End Win.
