(* ===== verification/Link.v ===== *)
(** * The state machine of the link (ntc_ntb_msi.c)

    Each side of the bridge walks through a sequence of states and announces
    every state to the peer by writing a word, the ping, into the peer's memory.
    It goes on when the peer announces the same state or the next one, and
    starts over when the peer is anywhere else.  After the windows and the
    doorbells have been exchanged, the driver above runs the phases of its
    hello; when both sides are done the link is up.

    What the device writes into the peer's memory is collected in [nd_out]; the
    driver above is an interface, [NtcClient].  [LinkNet] joins two devices. *)

From stdpp Require Import gmap.
From S2P Require Import Prelude Kernel Ntc Mm Win Qp.
Import Ntc Mm Win Qp.

Module Link.

Definition NTC_NTB_VERSION_NONE : Z := 0.
Definition NTC_NTB_VERSION_FIRST : Z := 2.
Definition NTC_NTB_VERSION_CORONA : Z := 3.
Definition NTC_NTB_VERSION_BAD_MAGIC : Z := 2 ^ 32 - 1.
Definition NTC_NTB_VERSION_MAGIC_FIRST : Z := 0x2250cb1c.
Definition NTC_NTB_VERSION_MAGIC_CORONA : Z := 0x2251cb1c.

Definition NTC_NTB_LINK_QUIESCE : Z := 0.
Definition NTC_NTB_LINK_RESET : Z := 1.
Definition NTC_NTB_LINK_ENABLED : Z := 2.
Definition NTC_NTB_LINK_START : Z := 3.
Definition NTC_NTB_LINK_VER_SENT : Z := 4.
Definition NTC_NTB_LINK_VER_CHOSEN : Z := 5.
Definition NTC_NTB_LINK_DB_CONFIGURED : Z := 6.
Definition NTC_NTB_LINK_COMMITTED : Z := 7.
Definition NTC_NTB_LINK_HELLO : Z := 8.

Definition NTC_NTB_PING_PONG_SPAD : Z := 2 ^ 1.
Definition NTC_NTB_PING_PONG_MEM : Z := 2 ^ 2.
Definition NTC_NTB_PING_POLL_MEM : Z := 2 ^ 3.
Definition NTC_NTB_PING_MISS_THRESHOLD : Z := 10.

Definition MAX_SUPPORTED_VERSIONS : Z := 32.
Definition NTB_MAX_IRQS : Z := 64.
Definition INTEL_DOORBELL_REG_SIZE : Z := 4.
Definition PCIE_ADDR_ALIGN : Z := 4.
Definition supported_versions : list Z := [NTC_NTB_VERSION_CORONA].

(** ** Data *)

Record multi_version_support := mk_versions { ms_num : Z; ms_versions : list Z }.

(** The memory of a side that its peer writes; the dead zone and the length of
    each window. *)
Record ntc_ntb_info := mk_info {
  ni_versions : multi_version_support;
  ni_magic : Z;
  ni_ping : Z;
  ni_done : Z;
  ni_mw_info : list (Z * Z) }.

(** A write to the peer; the last is a write of the driver above into its
    buffer, in a phase of the hello. *)
Inductive info_write (B : Type) :=
  | WVersion (i : nat) (v : Z)
  | WNum (n : Z)
  | WMagic (v : Z)
  | WPing (v : Z)
  | WDone (v : Z)
  | WDeadZone (i : nat) (v : Z)
  | WTransLen (i : nat) (v : Z)
  | WCtx (phase : Z) (b : B).
Arguments WVersion {B} _ _.
Arguments WNum {B} _.
Arguments WMagic {B} _.
Arguments WPing {B} _.
Arguments WDone {B} _.
Arguments WDeadZone {B} _ _.
Arguments WTransLen {B} _ _.
Arguments WCtx {B} _ _.

Record ping := mk_ping {
  pg_run : bool;
  pg_miss : Z;
  pg_flags : Z;
  pg_seq : Z;
  pg_msg : Z;
  pg_poll_val : Z;
  pg_poll_msg : Z }.

(** The driver above the link: [C] is its state, [B] what a phase of its hello
    writes to the peer.  [None] is undefined behaviour of a call. *)
Class NtcClient (C B : Type) := {
  ctx_hello : Z → C → option (Z * B * C);
  ctx_recv : Z → B → C → C;
  ctx_enable : C → Z * C;
  ctx_disable : C → C;
  ctx_quiesce : C → option C;
  ctx_reset : C → option C }.

(** What the bridge answers during a run: whether it sees a link, when asked at
    the start and later; its windows; whether there is a DMA channel; the
    doorbells. *)
Record ntb_hw := mk_hw {
  hw_link_up : bool;
  hw_link_up_later : bool;
  hw_mw : Z → mw_answers;
  hw_dma : bool;
  hw_db_vector_count : Z;
  hw_peer_db : Z * Z * Z;    (* the code, the address, the size *)
  hw_db_valid_mask : Z }.

(** [nd_work]: the work item is queued.  [nd_enabled]: the last order to the
    bridge was to enable the link. *)
Record ntc_ntb_dev {C B : Type} := mk_nd {
  nd_peer_mws : list ntc_peer_mw;
  nd_wins : list own_win;
  nd_version : Z; nd_latest_version : Z;
  nd_link_is_up : bool;
  nd_irq : ntc_irq;
  nd_ping : ping;
  nd_link_state : Z;
  nd_reset_cnt : Z;
  nd_self_info_done : Z;
  nd_info : ntc_ntb_info;
  nd_work : bool;
  nd_enabled : bool;
  nd_client : C;
  nd_out : list (info_write B) }.
Arguments ntc_ntb_dev : clear implicits.
Arguments mk_nd {C B}.

Section Setters.
Context {C B : Type}.
Implicit Type d : ntc_ntb_dev C B.

Definition nd_set_link (state cnt : Z) (up : bool) d : ntc_ntb_dev C B :=
  mk_nd (nd_peer_mws d) (nd_wins d) (nd_version d) (nd_latest_version d) up (nd_irq d) (nd_ping d) state cnt
    (nd_self_info_done d) (nd_info d) (nd_work d) (nd_enabled d) (nd_client d) (nd_out d).
Definition nd_set_state (state : Z) d := nd_set_link state (nd_reset_cnt d) (nd_link_is_up d) d.
Definition nd_set_up (up : bool) d := nd_set_link (nd_link_state d) (nd_reset_cnt d) up d.
Definition nd_set_cnt (cnt : Z) d := nd_set_link (nd_link_state d) cnt (nd_link_is_up d) d.
Definition nd_set_ping (p : ping) d : ntc_ntb_dev C B :=
  mk_nd (nd_peer_mws d) (nd_wins d) (nd_version d) (nd_latest_version d) (nd_link_is_up d) (nd_irq d) p (nd_link_state d)
    (nd_reset_cnt d) (nd_self_info_done d) (nd_info d) (nd_work d) (nd_enabled d) (nd_client d) (nd_out d).
Definition nd_set_work (b : bool) d : ntc_ntb_dev C B :=
  mk_nd (nd_peer_mws d) (nd_wins d) (nd_version d) (nd_latest_version d) (nd_link_is_up d) (nd_irq d) (nd_ping d)
    (nd_link_state d) (nd_reset_cnt d) (nd_self_info_done d) (nd_info d) b (nd_enabled d) (nd_client d) (nd_out d).
Definition nd_set_enabled (b : bool) d : ntc_ntb_dev C B :=
  mk_nd (nd_peer_mws d) (nd_wins d) (nd_version d) (nd_latest_version d) (nd_link_is_up d) (nd_irq d) (nd_ping d)
    (nd_link_state d) (nd_reset_cnt d) (nd_self_info_done d) (nd_info d) (nd_work d) b (nd_client d) (nd_out d).
Definition nd_set_client (c : C) d : ntc_ntb_dev C B :=
  mk_nd (nd_peer_mws d) (nd_wins d) (nd_version d) (nd_latest_version d) (nd_link_is_up d) (nd_irq d) (nd_ping d)
    (nd_link_state d) (nd_reset_cnt d) (nd_self_info_done d) (nd_info d) (nd_work d) (nd_enabled d) c (nd_out d).
Definition nd_set_out (o : list (info_write B)) d : ntc_ntb_dev C B :=
  mk_nd (nd_peer_mws d) (nd_wins d) (nd_version d) (nd_latest_version d) (nd_link_is_up d) (nd_irq d) (nd_ping d)
    (nd_link_state d) (nd_reset_cnt d) (nd_self_info_done d) (nd_info d) (nd_work d) (nd_enabled d) (nd_client d) o.
Definition nd_set_info (i : ntc_ntb_info) d : ntc_ntb_dev C B :=
  mk_nd (nd_peer_mws d) (nd_wins d) (nd_version d) (nd_latest_version d) (nd_link_is_up d) (nd_irq d) (nd_ping d)
    (nd_link_state d) (nd_reset_cnt d) (nd_self_info_done d) i (nd_work d) (nd_enabled d) (nd_client d) (nd_out d).
Definition nd_set_versions (v latest : Z) d : ntc_ntb_dev C B :=
  mk_nd (nd_peer_mws d) (nd_wins d) v latest (nd_link_is_up d) (nd_irq d) (nd_ping d)
    (nd_link_state d) (nd_reset_cnt d) (nd_self_info_done d) (nd_info d) (nd_work d) (nd_enabled d) (nd_client d) (nd_out d).
Definition nd_set_wins (l : list own_win) d : ntc_ntb_dev C B :=
  mk_nd (nd_peer_mws d) l (nd_version d) (nd_latest_version d) (nd_link_is_up d) (nd_irq d) (nd_ping d)
    (nd_link_state d) (nd_reset_cnt d) (nd_self_info_done d) (nd_info d) (nd_work d) (nd_enabled d) (nd_client d) (nd_out d).
Definition nd_set_peer (l : list ntc_peer_mw) (irq : ntc_irq) d : ntc_ntb_dev C B :=
  mk_nd l (nd_wins d) (nd_version d) (nd_latest_version d) (nd_link_is_up d) irq (nd_ping d)
    (nd_link_state d) (nd_reset_cnt d) (nd_self_info_done d) (nd_info d) (nd_work d) (nd_enabled d) (nd_client d) (nd_out d).
Definition nd_set_done (v : Z) d : ntc_ntb_dev C B :=
  mk_nd (nd_peer_mws d) (nd_wins d) (nd_version d) (nd_latest_version d) (nd_link_is_up d) (nd_irq d) (nd_ping d)
    (nd_link_state d) (nd_reset_cnt d) v (nd_info d) (nd_work d) (nd_enabled d) (nd_client d) (nd_out d).

Definition iowrite (w : info_write B) d : ntc_ntb_dev C B := nd_set_out (nd_out d ++ [w]) d.
Definition schedule_work d : ntc_ntb_dev C B := nd_set_work true d.

(** What the channel of requests sees of the device. *)
Definition nd_ntc d : ntc_dev := mk_ntc_dev (wn_mw <$> nd_wins d) (nd_peer_mws d).

End Setters.

(** ** Versions *)

Definition ntc_ntb_version : multi_version_support :=
  mk_versions (Z.of_nat (length supported_versions)) supported_versions.

Definition versions_of (v : multi_version_support) : list Z := take (Z.to_nat (ms_num v)) (ms_versions v).

(** The latest of [v1] that is among [v2]. *)
Definition ntc_ntb_version_matching (v1 v2 : multi_version_support) : Z :=
  match list_find (λ v, v ∈ versions_of v2) (rev (versions_of v1)) with
  | Some (_, v) => v
  | None => NTC_NTB_VERSION_NONE
  end.

Definition ntc_ntb_version_magic (version : Z) : Z :=
  if version =? NTC_NTB_VERSION_FIRST then NTC_NTB_VERSION_MAGIC_FIRST
  else if version =? NTC_NTB_VERSION_CORONA then NTC_NTB_VERSION_MAGIC_CORONA
  else NTC_NTB_VERSION_BAD_MAGIC.

Definition ntc_ntb_version_check_magic (version magic : Z) : bool :=
  if version =? NTC_NTB_VERSION_FIRST then magic =? NTC_NTB_VERSION_MAGIC_FIRST
  else if version =? NTC_NTB_VERSION_CORONA then magic =? NTC_NTB_VERSION_MAGIC_CORONA
  else false.

(** ** The heartbeat *)

Definition ntc_ntb_ping_flags (msg : Z) : Z :=
  if NTC_NTB_LINK_COMMITTED <=? msg then Z.lor NTC_NTB_PING_PONG_MEM NTC_NTB_PING_POLL_MEM
  else if NTC_NTB_LINK_DB_CONFIGURED <=? msg then
    Z.lor (Z.lor NTC_NTB_PING_PONG_MEM NTC_NTB_PING_PONG_SPAD) NTC_NTB_PING_POLL_MEM
  else if NTC_NTB_LINK_VER_CHOSEN <=? msg then Z.lor NTC_NTB_PING_PONG_MEM NTC_NTB_PING_PONG_SPAD
  else NTC_NTB_PING_PONG_SPAD.

Definition ntc_ntb_ping_val (msg seq : Z) : Z := Z.lor (u32 (Z.shiftl msg 16)) seq.
Definition ntc_ntb_ping_msg (val : Z) : Z := u16 (Z.shiftr val 16).

Section Machine.
Context {C B : Type} `{CL : !NtcClient C B} `{K : Kernel}.
Implicit Type d : ntc_ntb_dev C B.

(** Re-arming the timers leaves no state. *)
Definition ntc_ntb_ping_pong d : ntc_ntb_dev C B :=
  let p := nd_ping d in
  if negb (pg_run p) then d
  else
    let flags := ntc_ntb_ping_flags (pg_msg p) in
    let seq := u16 (pg_seq p + 1) in
    let d := iowrite (WPing (ntc_ntb_ping_val (pg_msg p) seq)) d in
    nd_set_ping (mk_ping (pg_run p) (pg_miss p) flags seq (pg_msg p) (pg_poll_val p) (pg_poll_msg p)) d.

Definition ntc_ntb_ping_poll d : bool * ntc_ntb_dev C B :=
  let p := nd_ping d in
  if negb (pg_run p) then (false, d)
  else
    let poll_val := ni_ping (nd_info d) in
    if negb (pg_poll_val p =? poll_val) then
      (true, nd_set_ping (mk_ping (pg_run p) (pg_miss p) (pg_flags p) (pg_seq p) (pg_msg p) poll_val (pg_poll_msg p)) d)
    else (false, d).

Definition ping_set_poll (miss msg : Z) (p : ping) : ping :=
  mk_ping (pg_run p) miss (pg_flags p) (pg_seq p) (pg_msg p) (pg_poll_val p) msg.

Definition ntc_ntb_ping_poll_cb d : ntc_ntb_dev C B :=
  let '(hit, d) := ntc_ntb_ping_poll d in
  let p := nd_ping d in
  if hit then
    let poll_msg := ntc_ntb_ping_msg (pg_poll_val p) in
    if negb (pg_poll_msg p =? poll_msg) then schedule_work (nd_set_ping (ping_set_poll 0 poll_msg p) d)
    else nd_set_ping (ping_set_poll 0 (pg_poll_msg p) p) d
  else if pg_miss p <? NTC_NTB_PING_MISS_THRESHOLD then
    let miss := pg_miss p + 1 in
    if miss =? NTC_NTB_PING_MISS_THRESHOLD then
      schedule_work (nd_set_ping (ping_set_poll miss NTC_NTB_LINK_QUIESCE p) (nd_set_enabled false d))
    else nd_set_ping (ping_set_poll miss (pg_poll_msg p) p) d
  else d.

Definition ntc_ntb_ping_send (msg : Z) d : ntc_ntb_dev C B :=
  let p := nd_ping d in
  ntc_ntb_ping_pong
    (nd_set_ping (mk_ping (pg_run p) (pg_miss p) (pg_flags p) (pg_seq p) (u16 msg) (pg_poll_val p) (pg_poll_msg p)) d).

Definition ntc_ntb_ping_start d : Z * ntc_ntb_dev C B :=
  let p := nd_ping d in
  let d :=
    if negb (pg_run p) then
      let d := nd_set_ping (mk_ping true NTC_NTB_PING_MISS_THRESHOLD (pg_flags p) (pg_seq p) (pg_msg p)
                              (pg_poll_val p) (pg_poll_msg p)) d in
      let d := snd (ntc_ntb_ping_poll (ntc_ntb_ping_pong d)) in
      nd_set_ping (ping_set_poll (pg_miss (nd_ping d)) NTC_NTB_LINK_QUIESCE (nd_ping d)) d
    else d in
  (pg_poll_msg (nd_ping d), d).

Definition ntc_ntb_ping_stop d : ntc_ntb_dev C B :=
  let p := nd_ping d in
  nd_set_ping (mk_ping false (pg_miss p) (pg_flags p) (pg_seq p) (pg_msg p) (pg_poll_val p) (pg_poll_msg p)) d.

(** ** States *)

Definition ntc_ntb_link_set_state (state : Z) d : ntc_ntb_dev C B := ntc_ntb_ping_send state (nd_set_state state d).

Definition ntc_ntb_link_get_event (hw : ntb_hw) d : Z * ntc_ntb_dev C B :=
  if negb (hw_link_up hw) then (NTC_NTB_LINK_QUIESCE, ntc_ntb_ping_stop d) else ntc_ntb_ping_start d.

Definition ntc_ntb_error d : ntc_ntb_dev C B :=
  if negb (NTC_NTB_LINK_RESET <? nd_link_state d) then d
  else schedule_work (ntc_ntb_link_set_state NTC_NTB_LINK_QUIESCE d).

Definition ntc_ntb_link_update (link_up : bool) d : ntc_ntb_dev C B :=
  if Bool.eqb (nd_link_is_up d) link_up then d
  else
    let d := nd_set_up link_up d in
    if link_up then
      let '(err, c) := ctx_enable (nd_client d) in
      let d := nd_set_client c d in
      if negb (err =? 0) then ntc_ntb_error d else d
    else nd_set_client (ctx_disable (nd_client d)) d.

Definition ntc_ntb_quiesce d : option (ntc_ntb_dev C B) :=
  let d := ntc_ntb_link_update false d in
  match ctx_quiesce (nd_client d) with
  | None => None
  | Some c => Some (ntc_ntb_link_set_state NTC_NTB_LINK_RESET (nd_set_client c d))
  end.

Definition reset_peer_irq d : ntc_ntb_dev C B :=
  let i := nd_irq d in
  nd_set_peer (nd_peer_mws d)
    (mk_irq (peer_irq_num i) (fst (ntc_remote_buf_unmap (peer_irq_base i))) (peer_irq_shift i) (peer_irq_data i)) d.

Definition ntc_ntb_reset d : option (ntc_ntb_dev C B) :=
  match ctx_reset (nd_client d) with
  | None => None
  | Some c =>
      let d := reset_peer_irq (nd_set_client c d) in
      Some (ntc_ntb_link_set_state NTC_NTB_LINK_ENABLED (nd_set_cnt (u32 (nd_reset_cnt d + 1)) d))
  end.

(** [None]: there is no such window. *)
Definition set_memory_window (hw : ntb_hw) (mw_idx : Z) d : option (Z * ntc_ntb_dev C B) :=
  match nd_wins d !! Z.to_nat mw_idx with
  | None => None
  | Some w =>
      let '(rc, w) := set_memory_windows_on_device (hw_mw hw mw_idx) w in
      Some (rc, nd_set_wins (<[Z.to_nat mw_idx := w]> (nd_wins d)) d)
  end.

(** [ntb_link_event] queues the work item through [ntc_ntb_link_event]. *)
Definition ntc_ntb_link_event d : ntc_ntb_dev C B := schedule_work d.

Definition ntc_ntb_enabled (hw : ntb_hw) d : option (ntc_ntb_dev C B) :=
  if negb (hw_link_up_later hw) then Some d
  else
    match set_memory_window hw NTC_INFO_MW_IDX d with
    | None => None
    | Some (rc, d) =>
        if negb (rc =? 0) then Some d
        else Some (ntc_ntb_link_event (ntc_ntb_link_set_state NTC_NTB_LINK_START d))
    end.

Definition ntc_ntb_send_version d : ntc_ntb_dev C B :=
  let v := ntc_ntb_version in
  let d := fold_left (λ d iv, iowrite (WVersion (fst iv) (snd iv)) d) (zip (seq 0 (Z.to_nat (ms_num v))) (ms_versions v)) d in
  ntc_ntb_link_set_state NTC_NTB_LINK_VER_SENT (iowrite (WNum (ms_num v)) d).

Definition ntc_ntb_send_addr d : ntc_ntb_dev C B :=
  fold_left (λ d iw, iowrite (WTransLen (fst iw) (om_trans_len (wn_mw (snd iw))))
                       (iowrite (WDeadZone (fst iw) (om_dead_zone_size (wn_mw (snd iw)))) d))
    (zip (seq 0 (Z.to_nat NTC_MAX_NUM_MWS)) (nd_wins d)) d.

Definition ntc_ntb_recv_addr d : ntc_ntb_dev C B :=
  nd_set_peer
    (zip_with (λ (m : ntc_peer_mw) (i : Z * Z),
       mk_peer_mw (pm_base m) (pm_size m) (pm_base_ptr m) (fst i) (snd i) (pm_mw_idx m))
       (nd_peer_mws d) (ni_mw_info (nd_info d))) (nd_irq d) d.

Definition ntc_ntb_choose_version_and_send_addr (hw : ntb_hw) d : option (ntc_ntb_dev C B) :=
  let versions := ntc_ntb_version in
  let peer_versions := ni_versions (nd_info d) in
  if MAX_SUPPORTED_VERSIONS <? ms_num peer_versions then Some (ntc_ntb_error d)
  else
    let latest := if 0 <? ms_num versions then nth (Z.to_nat (ms_num versions - 1)) (ms_versions versions) 0
                  else nd_latest_version d in
    let version := ntc_ntb_version_matching versions peer_versions in
    let d := nd_set_versions version latest d in
    if version =? NTC_NTB_VERSION_NONE then Some (ntc_ntb_error d)
    else
      match set_memory_window hw NTC_DRAM_MW_IDX d with
      | None => None
      | Some (rc, d) =>
          if negb (rc =? 0) then Some (ntc_ntb_error d)
          else
            let d := ntc_ntb_send_addr d in
            let d := iowrite (WMagic (ntc_ntb_version_magic version)) d in
            let d := nd_set_done 0 (iowrite (WDone 0) d) in
            Some (ntc_ntb_link_set_state NTC_NTB_LINK_VER_CHOSEN d)
      end.

(** The loop over the doorbells: the lowest bit that is set, [max_irqs] times at
    most.  The arrays keep what is not written. *)
Fixpoint irq_loop (n : nat) (i db_bits : Z) (irq : ntc_irq) : ntc_irq :=
  match n with
  | O => irq
  | S n =>
      if db_bits =? 0 then irq
      else
        let bit := Z.log2 (Z.land db_bits (- db_bits)) in
        irq_loop n (i + 1) (Z.land db_bits (db_bits - 1))
          (mk_irq (peer_irq_num irq + 1) (peer_irq_base irq)
             (<[Z.to_nat i := bit * INTEL_DOORBELL_REG_SIZE]> (peer_irq_shift irq))
             (<[Z.to_nat i := 1]> (peer_irq_data irq)))
  end.

Definition ntc_ntb_db_config_and_recv_addr (hw : ntb_hw) d : Z * ntc_ntb_dev C B :=
  if negb (hw_dma hw) then (- ENODEV, d)
  else
    let d := ntc_ntb_recv_addr d in
    let irq_num n i := mk_irq n (peer_irq_base i) (peer_irq_shift i) (peer_irq_data i) in
    let d := nd_set_peer (nd_peer_mws d) (irq_num 0 (nd_irq d)) d in
    let max_irqs := hw_db_vector_count hw in
    if (max_irqs <=? 0) || (NTB_MAX_IRQS <? max_irqs) then (- EINVAL, d)
    else
      let '(rc, base, size) := hw_peer_db hw in
      if (rc <? 0) || negb (size =? 4) || negb (Z.land base (PCIE_ADDR_ALIGN - 1) =? 0) then (rc, d)
      else
        let '(rc, b) := ntc_remote_buf_map_phys base (max_irqs * INTEL_DOORBELL_REG_SIZE) in
        let irq := nd_irq d in
        let irq := mk_irq 0 b (peer_irq_shift irq) (peer_irq_data irq) in
        if rc <? 0 then (rc, nd_set_peer (nd_peer_mws d) irq d)
        else
          let irq := irq_loop (Z.to_nat max_irqs) 0 (hw_db_valid_mask hw) irq in
          (0, ntc_ntb_link_set_state NTC_NTB_LINK_DB_CONFIGURED (nd_set_peer (nd_peer_mws d) irq d)).

Definition ntc_ntb_link_commit d : ntc_ntb_dev C B := ntc_ntb_link_set_state NTC_NTB_LINK_COMMITTED d.

Definition ntc_ntb_done_hello d : bool := (ni_done (nd_info d) =? 1) && (nd_self_info_done d =? 1).

Definition ntc_ntb_hello d : option (Z * ntc_ntb_dev C B) :=
  let phase := nd_link_state d + 1 - NTC_NTB_LINK_HELLO in
  if phase <? 0 then Some (- EINVAL, d)
  else
    match ctx_hello phase (nd_client d) with
    | None => None
    | Some (ret, b, c) =>
        let d := iowrite (WCtx phase b) (nd_set_client c d) in
        if ret <? 0 then Some (ret, d)
        else
          let d := if ret =? 1 then nd_set_done 1 (iowrite (WDone 1) d) else d in
          Some (0, ntc_ntb_link_set_state (NTC_NTB_LINK_HELLO + phase) d)
    end.

(** ** The work item

    The cases of the switch on the state.  A case that is left through its end
    falls into that of the next state, which is then the device's: [Fall]. *)
Inductive case_result := Fall | Out (link_up : bool) | Return.

(** A case that waits for the peer to be at [state], or one ahead: it goes on
    with [next], waits when the peer is one behind, and is an error elsewhere;
    after it, the device must be in the state after [state]. *)
Definition sync_case (state event : Z) (next : ntc_ntb_dev C B → option (ntc_ntb_dev C B)) d
  : option (case_result * ntc_ntb_dev C B) :=
  if (event =? state) || (event =? state + 1) then
    match next d with
    | None => None
    | Some d => Some (if negb (nd_link_state d =? state + 1) then Out false else Fall, d)
    end
  else if event =? state - 1 then Some (Out false, d)
  else Some (Out false, ntc_ntb_error d).

Definition try_hello d : option (Z * ntc_ntb_dev C B) :=
  match ntc_ntb_hello d with
  | None => None
  | Some (err, d) => Some (err, if err <? 0 then ntc_ntb_error d else d)
  end.

(** One round of the loop of the last case, or what follows the loop. *)
Definition hello_case (event : Z) d : option (case_result * ntc_ntb_dev C B) :=
  let diff := event - nd_link_state d in
  if negb (ntc_ntb_done_hello d) then
    if diff =? -1 then Some (Out false, d)
    else if (diff =? 0) || (diff =? 1) then
      match try_hello d with
      | None => None
      | Some (err, d) => Some (if err <? 0 then Return else Fall, d)
      end
    else Some (Return, ntc_ntb_error d)
  else if diff =? 0 then Some (Out true, d)
  else if diff =? -1 then Some (Out false, d)
  else Some (Out false, ntc_ntb_error d).

Definition link_case (hw : ntb_hw) (event : Z) d : option (case_result * ntc_ntb_dev C B) :=
  let s := nd_link_state d in
  if s =? NTC_NTB_LINK_QUIESCE then
    match ntc_ntb_quiesce d with None => None | Some d => Some (Fall, d) end
  else if s =? NTC_NTB_LINK_RESET then
    match ntc_ntb_reset d with None => None | Some d => Some (Out false, d) end
  else if s =? NTC_NTB_LINK_ENABLED then
    match ntc_ntb_enabled hw d with
    | None => None
    | Some d => Some (if negb (nd_link_state d =? NTC_NTB_LINK_START) then Out false else Fall, d)
    end
  else if s =? NTC_NTB_LINK_START then
    if (event =? NTC_NTB_LINK_START) || (event =? NTC_NTB_LINK_VER_SENT) then
      let d := ntc_ntb_send_version d in
      Some (if negb (nd_link_state d =? NTC_NTB_LINK_VER_SENT) then Out false else Fall, d)
    else Some (Out false, d)
  else if s =? NTC_NTB_LINK_VER_SENT then sync_case s event (ntc_ntb_choose_version_and_send_addr hw) d
  else if s =? NTC_NTB_LINK_VER_CHOSEN then
    sync_case s event
      (λ d, let '(rc, d) := ntc_ntb_db_config_and_recv_addr hw d in
            Some (if negb (rc =? 0) then ntc_ntb_error d else d)) d
  else if s =? NTC_NTB_LINK_DB_CONFIGURED then sync_case s event (λ d, Some (ntc_ntb_link_commit d)) d
  else if s =? NTC_NTB_LINK_COMMITTED then
    sync_case s event (λ d, match try_hello d with None => None | Some (_, d) => Some d end) d
  else hello_case event d.

(** [None]: undefined, or not enough fuel. *)
Fixpoint link_cases (fuel : nat) (hw : ntb_hw) (event : Z) d : option (ntc_ntb_dev C B) :=
  match fuel with
  | O => None
  | S fuel =>
      match link_case hw event d with
      | None => None
      | Some (Fall, d) => link_cases fuel hw event d
      | Some (Out link_up, d) => Some (ntc_ntb_link_update link_up d)
      | Some (Return, d) => Some d
      end
  end.

Definition link_fuel (event : Z) : nat := (5 + Z.to_nat event)%nat.

(** The run takes the item off the queue. *)
Definition ntc_ntb_link_work (hw : ntb_hw) d : option (ntc_ntb_dev C B) :=
  let '(event, d) := ntc_ntb_link_get_event hw (nd_set_work false d) in
  link_cases (link_fuel event) hw event d.

(** ** The calls of the driver above *)

(** [rc] is what the bridge returns. *)
Definition ntc_link_disable (rc : Z) d : Z * ntc_ntb_dev C B :=
  let d := if nd_link_is_up d then ntc_ntb_ping_send NTC_NTB_LINK_QUIESCE d else d in
  (rc, nd_set_enabled false d).

Definition ntc_link_enable (rc : Z) d : Z * ntc_ntb_dev C B := (rc, nd_set_enabled true d).

(** The part of [_ntc_link_reset] under the lock; the result is the counter that
    a caller who waits compares with, [None] when there is nothing to wait for. *)
Definition ntc_link_reset_begin (wait : bool) d : option Z * ntc_ntb_dev C B :=
  let d := if NTC_NTB_LINK_ENABLED <? nd_link_state d then ntc_ntb_error d else d in
  (if wait && negb (nd_link_state d =? NTC_NTB_LINK_ENABLED) then Some (nd_reset_cnt d) else None, d).

(** The condition of the wait, and its result; [d] is the device when the wait
    ends. *)
Definition ntc_link_reset_end (cnt : Z) d : Z :=
  if negb (u32 (nd_reset_cnt d - cnt) =? 0) then 0 else - ETIME.

(** The doorbells that are rung. *)
Definition ntc_signal (irq : ntc_irq) (vec : Z) : Z + Z :=
  if peer_irq_num irq <=? vec then inr (- EFAULT) else inl (u64 (Z.shiftl 1 vec)).

(** Which doorbell is looked at, and what is left of those that were rung. *)
Definition ntc_clear_signal (irq : ntc_irq) (vec db : Z) : Z * Z :=
  let bit := s32 (2 ^ (vec mod (if peer_irq_num irq =? 0 then 1 else peer_irq_num irq))) in
  if negb (Z.land db bit =? 0) then (1, Z.land db (Z.lnot bit)) else (0, db).

(** ** Set-up *)

(** The part of [ntc_ntb_dev_init] after the windows were set up. *)
Definition dev_init_link (wins : list own_win) (peers : list ntc_peer_mw) (info : ntc_ntb_info) (c : C)
  : ntc_ntb_dev C B :=
  mk_nd peers wins NTC_NTB_VERSION_NONE NTC_NTB_VERSION_NONE false
    (mk_irq 0 ntc_remote_buf_clear (replicate (Z.to_nat NTB_MAX_IRQS) 0) (replicate (Z.to_nat NTB_MAX_IRQS) 0))
    (mk_ping false 0 0 0 NTC_NTB_LINK_ENABLED 0 NTC_NTB_LINK_QUIESCE)
    NTC_NTB_LINK_ENABLED 0 0 info false false c [].

(** ** What arrives from the peer *)

Definition info_apply (w : info_write B) (i : ntc_ntb_info) : ntc_ntb_info :=
  let v := ni_versions i in
  match w with
  | WVersion k x => mk_info (mk_versions (ms_num v) (<[k := x]> (ms_versions v))) (ni_magic i) (ni_ping i) (ni_done i) (ni_mw_info i)
  | WNum n => mk_info (mk_versions n (ms_versions v)) (ni_magic i) (ni_ping i) (ni_done i) (ni_mw_info i)
  | WMagic x => mk_info v x (ni_ping i) (ni_done i) (ni_mw_info i)
  | WPing x => mk_info v (ni_magic i) x (ni_done i) (ni_mw_info i)
  | WDone x => mk_info v (ni_magic i) (ni_ping i) x (ni_mw_info i)
  | WDeadZone k x => mk_info v (ni_magic i) (ni_ping i) (ni_done i) (alter (λ m, (x, snd m)) k (ni_mw_info i))
  | WTransLen k x => mk_info v (ni_magic i) (ni_ping i) (ni_done i) (alter (λ m, (fst m, x)) k (ni_mw_info i))
  | WCtx _ _ => i
  end.

Definition nd_receive (w : info_write B) d : ntc_ntb_dev C B :=
  match w with
  | WCtx phase b => nd_set_client (ctx_recv phase b (nd_client d)) d
  | _ => nd_set_info (info_apply w (nd_info d)) d
  end.

End Machine.
(** ** A run ends *)

(** No call of the driver above is undefined. *)
Class ClientTotal {C B : Type} (CL : NtcClient C B) := {
  ct_hello : ∀ p c, is_Some (ctx_hello p c);
  ct_quiesce : ∀ c, is_Some (ctx_quiesce c);
  ct_reset : ∀ c, is_Some (ctx_reset c) }.

Section Run.
Context {C B : Type} `{CL : !NtcClient C B} `{K : Kernel}.
Implicit Type d : ntc_ntb_dev C B.

Lemma state_pong d : nd_link_state (ntc_ntb_ping_pong d) = nd_link_state d.
Proof. unfold ntc_ntb_ping_pong. by case_match. Qed.

Lemma state_set t d : nd_link_state (ntc_ntb_link_set_state t d) = t.
Proof. unfold ntc_ntb_link_set_state, ntc_ntb_ping_send. by rewrite state_pong. Qed.

Lemma state_error d : NTC_NTB_LINK_RESET < nd_link_state d → nd_link_state (ntc_ntb_error d) = NTC_NTB_LINK_QUIESCE.
Proof.
  intros H. unfold ntc_ntb_error. destruct (Z.ltb_spec NTC_NTB_LINK_RESET (nd_link_state d)); [|lia].
  apply (state_set NTC_NTB_LINK_QUIESCE d).
Qed.

Lemma up_set t d : nd_link_is_up (ntc_ntb_link_set_state t d) = nd_link_is_up d.
Proof. unfold ntc_ntb_link_set_state, ntc_ntb_ping_send, ntc_ntb_ping_pong. by case_match. Qed.
Lemma client_set t d : nd_client (ntc_ntb_link_set_state t d) = nd_client d.
Proof. unfold ntc_ntb_link_set_state, ntc_ntb_ping_send, ntc_ntb_ping_pong. by case_match. Qed.

(** The windows of a device. *)
Definition windows d : nat := length (nd_wins d).

Lemma windows_pong d : windows (ntc_ntb_ping_pong d) = windows d.
Proof. unfold ntc_ntb_ping_pong. by case_match. Qed.
Lemma windows_set t d : windows (ntc_ntb_link_set_state t d) = windows d.
Proof. unfold ntc_ntb_link_set_state, ntc_ntb_ping_send. by rewrite windows_pong. Qed.
Lemma windows_error d : windows (ntc_ntb_error d) = windows d.
Proof. unfold ntc_ntb_error. case_match; [done|]. apply (windows_set _ d). Qed.
Lemma windows_fold {A} (f : ntc_ntb_dev C B → A → ntc_ntb_dev C B) (l : list A) d :
  (∀ d a, windows (f d a) = windows d) → windows (fold_left f l d) = windows d.
Proof. intros Hf. revert d. induction l as [|a l IH]; intros d; cbn; [done|]. by rewrite IH. Qed.

Lemma windows_window hw i d rc d' : set_memory_window hw i d = Some (rc, d') → windows d' = windows d.
Proof.
  unfold set_memory_window. destruct (_ !! _); [|done]. destruct (set_memory_windows_on_device _ _).
  intros [= _ <-]. unfold windows. cbn. apply length_insert.
Qed.

Lemma windows_hello d r d' : ntc_ntb_hello d = Some (r, d') → windows d' = windows d.
Proof.
  unfold ntc_ntb_hello. cbv zeta. intros H. repeat case_match; simplify_eq; try done; by rewrite windows_set.
Qed.

Lemma windows_try d r d' : try_hello d = Some (r, d') → windows d' = windows d.
Proof.
  unfold try_hello. destruct (ntc_ntb_hello d) as [[r0 d0]|] eqn:H; [|done]. apply windows_hello in H.
  intros [= <- <-]. case_match; [by rewrite windows_error|done].
Qed.

Lemma windows_update up d : windows (ntc_ntb_link_update up d) = windows d.
Proof.
  unfold ntc_ntb_link_update. case_match; [done|]. cbv zeta. destruct up; [|done].
  destruct (ctx_enable _) as [err c]. case_match; [by rewrite windows_error|done].
Qed.

Lemma windows_sync state event next d r d' :
  (∀ d1, next d = Some d1 → windows d1 = windows d) → sync_case state event next d = Some (r, d') → windows d' = windows d.
Proof.
  intros Hn. unfold sync_case. intros H. repeat case_match; simplify_eq; try done; [by apply Hn..|by rewrite windows_error].
Qed.

Lemma windows_choose hw d d' : ntc_ntb_choose_version_and_send_addr hw d = Some d' → windows d' = windows d.
Proof.
  unfold ntc_ntb_choose_version_and_send_addr. destruct (_ <? _); [intros [= <-]; by rewrite windows_error|]. cbv zeta.
  destruct (_ =? NTC_NTB_VERSION_NONE); [intros [= <-]; by rewrite windows_error|].
  destruct (set_memory_window _ _ _) as [[rc d1]|] eqn:Hw; [|done]. apply windows_window in Hw.
  destruct (negb _); intros [= <-]; [by rewrite windows_error|]. rewrite windows_set.
  change (windows (ntc_ntb_send_addr d1) = windows d). transitivity (windows d1); [by refine (windows_fold _ _ _ _)|exact Hw].
Qed.

Lemma windows_db hw d rc d' : ntc_ntb_db_config_and_recv_addr hw d = (rc, d') → windows d' = windows d.
Proof.
  unfold ntc_ntb_db_config_and_recv_addr. cbv zeta. intros H. repeat case_match; simplify_eq; try done.
  by rewrite windows_set.
Qed.

(** What a case that falls through does to the state. *)
Lemma fall_state hw e d d' :
  0 <= nd_link_state d → link_case hw e d = Some (Fall, d') →
  nd_link_state d = 0 ∧ nd_link_state d' = 1
  ∨ 2 <= nd_link_state d ∧ nd_link_state d' = nd_link_state d + 1
    ∧ (nd_link_state d = 2 ∨ nd_link_state d <= e).
Proof.
  assert (∀ state next d1, nd_link_state d = state → 3 <= state → sync_case state e next d = Some (Fall, d1) →
    2 <= nd_link_state d ∧ nd_link_state d1 = nd_link_state d + 1 ∧ (nd_link_state d = 2 ∨ nd_link_state d <= e)) as Hsync.
  { intros state next d1 Hd Hs. unfold sync_case. destruct (_ || _) eqn:Ho; [|case_match; discriminate].
    destruct (next d) as [d2|]; [|discriminate]. destruct (Z.eqb_spec (nd_link_state d2) (state + 1)); cbn [negb]; [|discriminate].
    intros [= <-]. lia. }
  intros Hs. unfold link_case, NTC_NTB_LINK_QUIESCE, NTC_NTB_LINK_RESET, NTC_NTB_LINK_ENABLED, NTC_NTB_LINK_START,
    NTC_NTB_LINK_VER_SENT, NTC_NTB_LINK_VER_CHOSEN, NTC_NTB_LINK_DB_CONFIGURED, NTC_NTB_LINK_COMMITTED.
  destruct (Z.eqb_spec (nd_link_state d) 0).
  { unfold ntc_ntb_quiesce. cbv zeta. destruct (ctx_quiesce _); [|done]. intros [= <-]. left. split; [done|apply state_set]. }
  destruct (Z.eqb_spec (nd_link_state d) 1); [by case_match|].
  destruct (Z.eqb_spec (nd_link_state d) 2).
  { destruct (ntc_ntb_enabled hw d) as [d1|]; [|done]. destruct (Z.eqb_spec (nd_link_state d1) 3); [|done].
    intros [= <-]. right. lia. }
  destruct (Z.eqb_spec (nd_link_state d) 3).
  { destruct (_ || _) eqn:Ho; [|done]. cbv zeta.
    destruct (Z.eqb_spec (nd_link_state (ntc_ntb_send_version d)) 4); [|done]. intros [= <-]. right. lia. }
  do 4 (match goal with |- context [nd_link_state d =? ?k] => destruct (Z.eqb_spec (nd_link_state d) k);
    [intros H; right; eapply Hsync; [reflexivity|lia|exact H]|] end).
  intros H. right. revert H. unfold hello_case. cbv zeta.
  destruct (ntc_ntb_done_hello d); cbn [negb]; [repeat case_match; discriminate|].
  case_match; [discriminate|]. destruct (_ || _) eqn:Ho; [|discriminate].
  unfold try_hello. destruct (ntc_ntb_hello d) as [[r d1]|] eqn:Hh; [|discriminate].
  destruct (Z.ltb_spec r 0); [discriminate|]. intros [= <-].
  split; [lia|]. split; [|lia]. revert Hh. unfold ntc_ntb_hello, NTC_NTB_LINK_HELLO. cbv zeta.
  case_match; [intros [= <- _]; unfold EINVAL in *; lia|]. destruct (ctx_hello _ _) as [[[ret b] c]|]; [|done].
  destruct (Z.ltb_spec ret 0); [intros [= <- _]; lia|]. intros [= _ <-]. rewrite state_set. lia.
Qed.

Lemma windows_enabled hw d d' : ntc_ntb_enabled hw d = Some d' → windows d' = windows d.
Proof.
  unfold ntc_ntb_enabled. destruct (negb _); [by intros [= <-]|].
  destruct (set_memory_window _ _ _) as [[rc d1]|] eqn:Hw; [|done]. apply windows_window in Hw.
  destruct (negb _); intros [= <-]; [done|]. transitivity (windows d1); [exact (windows_set NTC_NTB_LINK_START d1)|exact Hw].
Qed.

Lemma windows_version d : windows (ntc_ntb_send_version d) = windows d.
Proof. unfold ntc_ntb_send_version. cbv zeta. rewrite windows_set. by refine (windows_fold _ _ _ _). Qed.

Lemma windows_quiesce d d' : ntc_ntb_quiesce d = Some d' → windows d' = windows d.
Proof.
  unfold ntc_ntb_quiesce. cbv zeta. destruct (ctx_quiesce _); [|done]. intros [= <-]. rewrite windows_set.
  apply (windows_update false d).
Qed.

Lemma windows_reset d d' : ntc_ntb_reset d = Some d' → windows d' = windows d.
Proof. unfold ntc_ntb_reset. cbv zeta. destruct (ctx_reset _); [|done]. intros [= <-]. by rewrite windows_set. Qed.

Lemma windows_hello_case e d r d' : hello_case e d = Some (r, d') → windows d' = windows d.
Proof.
  unfold hello_case. cbv zeta. destruct (negb _).
  - destruct (_ =? -1); [by intros [= _ <-]|]. destruct (_ || _); [|intros [= _ <-]; by rewrite windows_error].
    destruct (try_hello d) as [[err d1]|] eqn:Ht; [|done]. apply windows_try in Ht. by intros [= _ <-].
  - repeat case_match; intros [= _ <-]; [done|done|by rewrite windows_error].
Qed.

Lemma windows_case hw e d r d' : link_case hw e d = Some (r, d') → windows d' = windows d.
Proof.
  unfold link_case. cbv zeta.
  destruct (_ =? NTC_NTB_LINK_QUIESCE).
  { destruct (ntc_ntb_quiesce d) as [d1|] eqn:Hq; [|done]. intros [= _ <-]. by apply windows_quiesce. }
  destruct (_ =? NTC_NTB_LINK_RESET).
  { destruct (ntc_ntb_reset d) as [d1|] eqn:Hq; [|done]. intros [= _ <-]. by apply windows_reset. }
  destruct (_ =? NTC_NTB_LINK_ENABLED).
  { destruct (ntc_ntb_enabled hw d) as [d1|] eqn:Hq; [|done]. intros [= _ <-]. by eapply windows_enabled. }
  destruct (_ =? NTC_NTB_LINK_START).
  { destruct (_ || _); intros [= _ <-]; [apply windows_version|done]. }
  destruct (_ =? NTC_NTB_LINK_VER_SENT); [apply windows_sync; intros d1; apply windows_choose|].
  destruct (_ =? NTC_NTB_LINK_VER_CHOSEN).
  { apply windows_sync. intros d1. destruct (ntc_ntb_db_config_and_recv_addr hw d) as [rc d2] eqn:Hdb.
    apply windows_db in Hdb. destruct (negb _); intros [= <-]; [by rewrite windows_error|done]. }
  destruct (_ =? NTC_NTB_LINK_DB_CONFIGURED); [apply windows_sync; intros d1 [= <-]; apply windows_set|].
  destruct (_ =? NTC_NTB_LINK_COMMITTED); [|apply windows_hello_case].
  apply windows_sync. intros d1. destruct (try_hello d) as [[err d2]|] eqn:Ht; [|done]. intros [= <-]. by eapply windows_try.
Qed.

Context {TC : ClientTotal CL}.

Lemma window_defined hw i d : (Z.to_nat i < windows d)%nat → is_Some (set_memory_window hw i d).
Proof.
  intros H. unfold set_memory_window. apply lookup_lt_is_Some in H as [w ->].
  destruct (set_memory_windows_on_device _ _). by eexists.
Qed.

Lemma try_defined d : 7 <= nd_link_state d → is_Some (try_hello d).
Proof.
  intros Hs. unfold try_hello, ntc_ntb_hello, NTC_NTB_LINK_HELLO. cbv zeta.
  destruct (ct_hello (nd_link_state d + 1 - 8) (nd_client d)) as [[[ret b] c] ->].
  repeat case_match; simplify_eq; by eexists.
Qed.

Lemma sync_defined state event next d : is_Some (next d) → is_Some (sync_case state event next d).
Proof. intros [d1 H]. unfold sync_case. rewrite H. repeat case_match; by eexists. Qed.

Lemma case_defined hw e d : 0 <= nd_link_state d → (2 <= windows d)%nat → is_Some (link_case hw e d).
Proof.
  intros Hs Hw. unfold link_case, NTC_NTB_LINK_QUIESCE, NTC_NTB_LINK_RESET, NTC_NTB_LINK_ENABLED, NTC_NTB_LINK_START,
    NTC_NTB_LINK_VER_SENT, NTC_NTB_LINK_VER_CHOSEN, NTC_NTB_LINK_DB_CONFIGURED, NTC_NTB_LINK_COMMITTED. cbv zeta.
  destruct (Z.eqb_spec (nd_link_state d) 0).
  { unfold ntc_ntb_quiesce. cbv zeta. destruct (ct_quiesce (nd_client (ntc_ntb_link_update false d))) as [c ->]. by eexists. }
  destruct (Z.eqb_spec (nd_link_state d) 1).
  { unfold ntc_ntb_reset. cbv zeta. destruct (ct_reset (nd_client d)) as [c ->]. by eexists. }
  destruct (Z.eqb_spec (nd_link_state d) 2).
  { unfold ntc_ntb_enabled. destruct (negb _); [by eexists|].
    destruct (window_defined hw NTC_INFO_MW_IDX d) as [[rc d1] ->]; [unfold NTC_INFO_MW_IDX; lia|].
    destruct (negb (rc =? 0)); by eexists. }
  destruct (Z.eqb_spec (nd_link_state d) 3); [destruct (_ || _); by eexists|].
  destruct (Z.eqb_spec (nd_link_state d) 4).
  { apply sync_defined. unfold ntc_ntb_choose_version_and_send_addr. destruct (_ <? _); [by eexists|]. cbv zeta.
    destruct (_ =? NTC_NTB_VERSION_NONE); [by eexists|].
    match goal with |- context [set_memory_window hw ?i ?x] =>
      destruct (window_defined hw i x) as [[rc d1] ->]; [unfold NTC_DRAM_MW_IDX, windows in *; cbn; lia|] end.
    destruct (negb (rc =? 0)); by eexists. }
  destruct (Z.eqb_spec (nd_link_state d) 5).
  { apply sync_defined. destruct (ntc_ntb_db_config_and_recv_addr hw d). by eexists. }
  destruct (Z.eqb_spec (nd_link_state d) 6); [apply sync_defined; by eexists|].
  destruct (Z.eqb_spec (nd_link_state d) 7).
  { apply sync_defined. destruct (try_defined d ltac:(lia)) as [[err d1] ->]. by eexists. }
  unfold hello_case. cbv zeta. destruct (negb _); [|repeat case_match; by eexists].
  destruct (_ =? -1); [by eexists|]. destruct (_ || _); [|by eexists].
  destruct (try_defined d ltac:(lia)) as [[err d1] ->]. by eexists.
Qed.

(** How many cases a run visits. *)
Definition visits (e s : Z) : nat :=
  if s =? 0 then 2 else if s =? 1 then 1 else if s =? 2 then S (Z.to_nat (Z.max 0 e + 2)) else S (Z.to_nat (e + 1 - s)).

Lemma cases_total fuel hw e d :
  0 <= nd_link_state d → (2 <= windows d)%nat → (visits e (nd_link_state d) <= fuel)%nat →
  is_Some (link_cases fuel hw e d).
Proof.
  revert d. induction fuel as [|fuel IH]; intros d Hs Hw Hf.
  { unfold visits in Hf. repeat case_match; lia. }
  cbn [link_cases]. destruct (case_defined hw e d Hs Hw) as [[r d1] Hc]. rewrite Hc.
  destruct r; [|by eexists..].
  pose proof (fall_state hw e d d1 Hs Hc) as Hst. apply windows_case in Hc.
  apply IH; [lia|lia|]. unfold visits in *.
  destruct (Z.eqb_spec (nd_link_state d) 0), (Z.eqb_spec (nd_link_state d) 1), (Z.eqb_spec (nd_link_state d) 2),
    (Z.eqb_spec (nd_link_state d1) 0), (Z.eqb_spec (nd_link_state d1) 1), (Z.eqb_spec (nd_link_state d1) 2); lia.
Qed.

Lemma run_total hw d :
  0 <= nd_link_state d → (2 <= windows d)%nat → is_Some (ntc_ntb_link_work hw d).
Proof.
  intros Hs Hw. unfold ntc_ntb_link_work.
  destruct (ntc_ntb_link_get_event hw (nd_set_work false d)) as [e d1] eqn:He.
  assert (nd_link_state d1 = nd_link_state d ∧ windows d1 = windows d) as [E1 E2].
  { revert He. unfold ntc_ntb_link_get_event. destruct (negb _); [by intros [= _ <-]|].
    unfold ntc_ntb_ping_start. destruct (negb _); [|by intros [= _ <-]]. intros [= _ <-].
    unfold ntc_ntb_ping_poll. cbv zeta. unfold windows.
    match goal with |- context [ntc_ntb_ping_pong ?x] => pose proof (state_pong x) as H1; pose proof (windows_pong x) as H2 end.
    repeat case_match; by split. }
  apply cases_total; [lia|lia|]. rewrite E1. unfold visits, link_fuel. repeat case_match; lia.
Qed.

(** C12: a run of the work item ends. The loop over the states and the loop of
    the hello visit finitely many cases, at most three more than the event, so
    the fuel is always enough; and nothing in them is undefined, as long as the
    device has its two windows and the calls of the driver above are defined. *)
Theorem link_work_ends hw d :
  0 <= nd_link_state d → (2 <= windows d)%nat → ∃ d', ntc_ntb_link_work hw d = Some d'.
Proof. intros Hs Hw. destruct (run_total hw d Hs Hw) as [d' H]. by exists d'. Qed.

(** ** A peer that falls silent *)

Lemma poll_miss d :
  pg_run (nd_ping d) = true → pg_poll_val (nd_ping d) = ni_ping (nd_info d) →
  pg_miss (nd_ping d) + 1 < NTC_NTB_PING_MISS_THRESHOLD →
  ntc_ntb_ping_poll_cb d = nd_set_ping (ping_set_poll (pg_miss (nd_ping d) + 1) (pg_poll_msg (nd_ping d)) (nd_ping d)) d.
Proof.
  intros Hr Hv Hm. unfold ntc_ntb_ping_poll_cb, ntc_ntb_ping_poll. rewrite Hr, Hv, Z.eqb_refl. cbn [negb].
  destruct (Z.ltb_spec (pg_miss (nd_ping d)) NTC_NTB_PING_MISS_THRESHOLD); [|lia].
  by destruct (Z.eqb_spec (pg_miss (nd_ping d) + 1) NTC_NTB_PING_MISS_THRESHOLD); [lia|].
Qed.

(** The poll timer, as long as nothing arrives. *)
Lemma polls_silent n d :
  pg_run (nd_ping d) = true → pg_poll_val (nd_ping d) = ni_ping (nd_info d) →
  Z.of_nat n = NTC_NTB_PING_MISS_THRESHOLD - pg_miss (nd_ping d) → (0 < n)%nat →
  let d1 := Nat.iter n ntc_ntb_ping_poll_cb d in
  pg_run (nd_ping d1) = true ∧ pg_poll_msg (nd_ping d1) = NTC_NTB_LINK_QUIESCE ∧ nd_work d1 = true
  ∧ nd_enabled d1 = false ∧ nd_link_state d1 = nd_link_state d ∧ windows d1 = windows d.
Proof.
  revert d. induction n as [|n IH]; intros d Hr Hv Hn Hp; [lia|]. rewrite Nat.iter_succ_r. destruct n as [|n].
  - cbn [Nat.iter nat_rect]. unfold ntc_ntb_ping_poll_cb, ntc_ntb_ping_poll. rewrite Hr, Hv, Z.eqb_refl. cbn [negb].
    destruct (Z.ltb_spec (pg_miss (nd_ping d)) NTC_NTB_PING_MISS_THRESHOLD); [|lia].
    by destruct (Z.eqb_spec (pg_miss (nd_ping d) + 1) NTC_NTB_PING_MISS_THRESHOLD); [|lia].
  - rewrite poll_miss by (done || lia).
    destruct (IH (nd_set_ping (ping_set_poll (pg_miss (nd_ping d) + 1) (pg_poll_msg (nd_ping d)) (nd_ping d)) d))
      as (H1 & H2 & H3 & H4 & H5 & H6); try done; cbn; try lia.
Qed.

(** With no message from the peer a side that had begun the exchange starts over. *)
Lemma quiet_case hw d r d' :
  NTC_NTB_LINK_VER_SENT <= nd_link_state d → link_case hw 0 d = Some (r, d') →
  d' = ntc_ntb_error d ∧ (r = Out false ∨ r = Return).
Proof.
  unfold link_case, NTC_NTB_LINK_QUIESCE, NTC_NTB_LINK_RESET, NTC_NTB_LINK_ENABLED, NTC_NTB_LINK_START,
    NTC_NTB_LINK_VER_SENT, NTC_NTB_LINK_VER_CHOSEN, NTC_NTB_LINK_DB_CONFIGURED, NTC_NTB_LINK_COMMITTED. intros Hs.
  assert (∀ state next, 4 <= state → sync_case state 0 next d = Some (r, d') →
    d' = ntc_ntb_error d ∧ (r = Out false ∨ r = Return)) as Hsync.
  { intros state next H4. unfold sync_case.
    destruct (Z.eqb_spec 0 state); [lia|]. destruct (Z.eqb_spec 0 (state + 1)); [lia|].
    destruct (Z.eqb_spec 0 (state - 1)); [lia|]. intros [= <- <-]. split; [done|by left]. }
  do 4 (match goal with |- context [nd_link_state d =? ?k] => destruct (Z.eqb_spec (nd_link_state d) k); [lia|] end).
  do 4 (match goal with |- context [nd_link_state d =? ?k] => destruct (Z.eqb_spec (nd_link_state d) k);
    [apply Hsync; lia|] end).
  unfold hello_case. cbv zeta.
  destruct (Z.eqb_spec (0 - nd_link_state d) (-1)); [lia|]. destruct (Z.eqb_spec (0 - nd_link_state d) 0); [lia|].
  destruct (Z.eqb_spec (0 - nd_link_state d) 1); [lia|]. cbn [orb].
  destruct (negb _); intros [= <- <-]; (split; [done|]); [by right|by left].
Qed.

Lemma state_update_down d : nd_link_state (ntc_ntb_link_update false d) = nd_link_state d
  ∧ nd_work (ntc_ntb_link_update false d) = nd_work d ∧ nd_link_is_up (ntc_ntb_link_update false d) = false.
Proof.
  unfold ntc_ntb_link_update. destruct (Bool.eqb _ _) eqn:E; [|done]. by apply eqb_prop in E.
Qed.

Lemma work_error d : NTC_NTB_LINK_RESET < nd_link_state d → nd_work (ntc_ntb_error d) = true.
Proof. intros H. unfold ntc_ntb_error. by destruct (Z.ltb_spec NTC_NTB_LINK_RESET (nd_link_state d)); [|lia]. Qed.

Lemma quiet_run hw d d' :
  pg_run (nd_ping d) = true → pg_poll_msg (nd_ping d) = NTC_NTB_LINK_QUIESCE →
  NTC_NTB_LINK_VER_SENT <= nd_link_state d → ntc_ntb_link_work hw d = Some d' →
  nd_link_state d' = NTC_NTB_LINK_QUIESCE ∧ nd_work d' = true ∧ windows d' = windows d.
Proof.
  intros Hr Hm Hs. unfold ntc_ntb_link_work.
  assert (∃ d1, ntc_ntb_link_get_event hw (nd_set_work false d) = (0, d1) ∧ nd_link_state d1 = nd_link_state d
    ∧ windows d1 = windows d) as (d1 & -> & E1 & E2).
  { unfold ntc_ntb_link_get_event. destruct (negb _); [by eexists|].
    unfold ntc_ntb_ping_start. cbn [nd_ping nd_set_work]. rewrite Hr. cbn [negb nd_ping nd_set_work]. rewrite Hm. by eexists. }
  cbn [link_fuel Z.to_nat Nat.add link_cases]. rewrite <- E1 in Hs.
  destruct (link_case hw 0 d1) as [[r d2]|] eqn:Hc; [|done].
  destruct (quiet_case hw d1 r d2 Hs Hc) as [-> Hcase].
  assert (NTC_NTB_LINK_RESET < nd_link_state d1) as Hs1 by (unfold NTC_NTB_LINK_RESET, NTC_NTB_LINK_VER_SENT in *; lia).
  pose proof (state_error d1 Hs1). pose proof (work_error d1 Hs1). rewrite <- E2, <- (windows_error d1).
  destruct Hcase as [-> | ->]; intros [= <-]; [|done].
  destruct (state_update_down (ntc_ntb_error d1)) as (U1 & U2 & _). rewrite U1, U2, windows_update. done.
Qed.

(** A side that has failed gives its driver up and is ready again. *)
Lemma restart_run hw d d' :
  nd_link_state d = NTC_NTB_LINK_QUIESCE → ntc_ntb_link_work hw d = Some d' →
  nd_link_state d' = NTC_NTB_LINK_ENABLED ∧ nd_link_is_up d' = false
  ∧ ∃ c c', ctx_quiesce c = Some c' ∧ ctx_reset c' = Some (nd_client d').
Proof.
  intros Hs. unfold ntc_ntb_link_work.
  destruct (ntc_ntb_link_get_event hw (nd_set_work false d)) as [e d1] eqn:He.
  assert (nd_link_state d1 = NTC_NTB_LINK_QUIESCE) as Hs1.
  { rewrite <- Hs. revert He. unfold ntc_ntb_link_get_event. destruct (negb _); [by intros [= _ <-]|].
    unfold ntc_ntb_ping_start. destruct (negb _); [|by intros [= _ <-]]. intros [= _ <-].
    unfold ntc_ntb_ping_poll. cbv zeta.
    match goal with |- context [ntc_ntb_ping_pong ?x] => pose proof (state_pong x) as H1 end.
    repeat case_match; done. }
  assert (∃ n, link_fuel e = S (S n)) as [n ->] by (unfold link_fuel; eexists; reflexivity).
  cbn [link_cases]. unfold link_case at 1. rewrite Hs1. cbn [Z.eqb NTC_NTB_LINK_QUIESCE].
  unfold ntc_ntb_quiesce. cbv zeta. destruct (ctx_quiesce _) as [c'|] eqn:Hq; [|done].
  set (d2 := nd_set_client c' _). unfold link_case. rewrite (state_set NTC_NTB_LINK_RESET d2).
  cbn [Z.eqb Pos.eqb NTC_NTB_LINK_QUIESCE NTC_NTB_LINK_RESET]. unfold ntc_ntb_reset. cbv zeta.
  rewrite client_set. change (nd_client d2) with c'.
  destruct (ctx_reset c') as [c2|] eqn:Hr; [|done]. set (d3 := nd_set_cnt _ _). intros [= <-].
  assert (nd_link_is_up (ntc_ntb_link_set_state NTC_NTB_LINK_ENABLED d3) = false) as Hu.
  { rewrite up_set. unfold d3. cbn. rewrite up_set. apply state_update_down. }
  assert (ntc_ntb_link_update false (ntc_ntb_link_set_state NTC_NTB_LINK_ENABLED d3)
    = ntc_ntb_link_set_state NTC_NTB_LINK_ENABLED d3) as -> by (unfold ntc_ntb_link_update at 1; by rewrite Hu).
  split; [apply state_set|]. split; [exact Hu|]. exists (nd_client (ntc_ntb_link_update false d1)), c'.
  split; [exact Hq|]. by rewrite client_set.
Qed.

(** C16: a peer that falls silent is given up. When nothing new arrives for the
    polls that are left to the threshold, the bridge is told to disable the link
    and a run is scheduled; this run takes a side that had begun the exchange -
    whatever its state, up or not - out of it, and schedules another, which
    quiesces and resets the driver above and leaves the link down and ready for a
    new exchange. *)
Theorem silent_peer_resets hw1 hw2 d n :
  pg_run (nd_ping d) = true → pg_poll_val (nd_ping d) = ni_ping (nd_info d) →
  Z.of_nat n = NTC_NTB_PING_MISS_THRESHOLD - pg_miss (nd_ping d) → (0 < n)%nat →
  NTC_NTB_LINK_VER_SENT <= nd_link_state d → (2 <= windows d)%nat →
  let d1 := Nat.iter n ntc_ntb_ping_poll_cb d in
  nd_enabled d1 = false ∧ nd_work d1 = true
  ∧ ∃ d2 d3, ntc_ntb_link_work hw1 d1 = Some d2 ∧ nd_link_state d2 = NTC_NTB_LINK_QUIESCE ∧ nd_work d2 = true
    ∧ ntc_ntb_link_work hw2 d2 = Some d3 ∧ nd_link_state d3 = NTC_NTB_LINK_ENABLED ∧ nd_link_is_up d3 = false
    ∧ ∃ c c', ctx_quiesce c = Some c' ∧ ctx_reset c' = Some (nd_client d3).
Proof.
  intros Hr Hv Hn Hp Hs Hw d1. destruct (polls_silent n d Hr Hv Hn Hp) as (P1 & P2 & P3 & P4 & P5 & P6).
  fold d1 in P1, P2, P3, P4, P5, P6. unfold NTC_NTB_LINK_VER_SENT in *. split; [exact P4|]. split; [exact P3|].
  destruct (run_total hw1 d1) as [d2 H2]; [lia|lia|].
  destruct (quiet_run hw1 d1 d2 P1 P2 ltac:(unfold NTC_NTB_LINK_VER_SENT; lia) H2) as (Q1 & Q2 & Q3).
  destruct (run_total hw2 d2) as [d3 H3]; [by rewrite Q1|lia|].
  exists d2, d3. destruct (restart_run hw2 d2 d3 Q1 H3) as (R1 & R2 & R3). by split_and!.
Qed.

End Run.

(** *** A bridge that answers, used by the witnesses *)

Definition demo_hw : ntb_hw :=
  mk_hw true true (λ _, mk_mw_answers 0 4096 0 (2 ^ 40) 0 (2 ^ 22) None 0) true 4 (0, 2 ^ 43, 4) 15.

Definition demo_info : ntc_ntb_info :=
  mk_info (mk_versions 0 (replicate 32 0)) 0 0 0 [(0, 0); (0, 0)].

Definition demo_wins (m0 m1 : ntc_own_mw) : list own_win :=
  let data := mk_mw_data 0 0 0 0 0 0 0 (0, 0, 0) false false false false in
  [mk_win m0 data None None 0; mk_win m1 data None None 0].

(** A driver with two phases that counts what it runs and keeps what it hears. *)
Definition demo_client : NtcClient (Z * list Z) Z := {|
  ctx_hello p c := Some (if p =? 1 then 1 else if p <? 1 then 0 else - EINVAL, 100 + p, (fst c + 1, snd c));
  ctx_recv p b c := (fst c, snd c ++ [b]);
  ctx_enable c := (0, c);
  ctx_disable c := c;
  ctx_quiesce c := Some c;
  ctx_reset c := Some (0, []) |}.

Definition demo_side : ntc_ntb_dev (Z * list Z) Z :=
  dev_init_link (demo_wins (mk_own_mw 65536 65536 8192 0 0 0) (mk_own_mw 0 0 0 0 0 1))
    [mk_peer_mw (2 ^ 41) 8192 (2 ^ 41) 0 0 0; mk_peer_mw (2 ^ 42) (2 ^ 40) (2 ^ 42) 0 0 1] demo_info (0, []).

#[local] Existing Instance kernel_good.

#[local] Instance demo_client_total : ClientTotal demo_client.
Proof. constructor; intros; by eexists. Qed.

Lemma link_work_ends_witness :
  (0 <= nd_link_state demo_side ∧ (2 <= windows demo_side)%nat)
  ∧ ∃ d', ntc_ntb_link_work (CL := demo_client) demo_hw demo_side = Some d'.
Proof.
  assert (0 <= nd_link_state demo_side) as Hs by (cbn; unfold NTC_NTB_LINK_ENABLED; lia).
  assert (2 <= windows demo_side)%nat as Hw by (cbn; lia).
  split; [split; [exact Hs|exact Hw]|]. exact (link_work_ends (CL := demo_client) demo_hw demo_side Hs Hw).
Defined.

(** A side in the middle of the exchange that has missed three polls. *)
Definition demo_waiting : ntc_ntb_dev (Z * list Z) Z :=
  nd_set_ping (mk_ping true 3 0 0 5 0 5) (nd_set_state 5 demo_side).

Lemma silent_peer_resets_witness :
  nd_link_state demo_waiting = NTC_NTB_LINK_VER_CHOSEN
  ∧ ∃ d2 d3, ntc_ntb_link_work (CL := demo_client) demo_hw (Nat.iter 7 ntc_ntb_ping_poll_cb demo_waiting) = Some d2
      ∧ ntc_ntb_link_work (CL := demo_client) demo_hw d2 = Some d3 ∧ nd_link_state d3 = NTC_NTB_LINK_ENABLED.
Proof.
  split; [reflexivity|].
  assert (NTC_NTB_LINK_VER_SENT <= nd_link_state demo_waiting) as Hs by (cbn; unfold NTC_NTB_LINK_VER_SENT; lia).
  assert (2 <= windows demo_waiting)%nat as Hw by (cbn; lia).
  destruct (silent_peer_resets (CL := demo_client) demo_hw demo_hw demo_waiting 7 eq_refl eq_refl eq_refl
    ltac:(lia) Hs Hw) as (_ & _ & d2 & d3 & H2 & _ & _ & H3 & Hd & _).
  exists d2, d3. split; [exact H2|]. split; [exact H3|exact Hd].
Defined.

End Link.
