(* ===== verification/LinkNet.v ===== *)
(** * Two linked devices

    The system of two devices whose state machines ([Link]) run against each
    other.  A step is one locked step of one side: a run of the work item, a
    timer, a call of the driver above.  What it writes to the peer is in the
    peer's memory before the next step.

    The module shows that the two drivers above never see each other's old
    sessions: whenever both sides are in their hello, or up, the two drivers have
    run their phases in lockstep since both were last reset. *)

From stdpp Require Import gmap.
From S2P Require Import Prelude Kernel Ntc Mm Win Qp Link.
Import Ntc Mm Win Qp Link.

Module LinkNet.

(** ** What the link expects of the driver above

    [last] is the last phase of its hello.  [cl_wf] is kept by every call; a
    driver is [cl_fresh] when it is ready for a hello. *)
Class NtcClientOk {C B : Type} (CL : NtcClient C B) (last : Z) := {
  cl_wf : C → Prop;
  cl_fresh : C → Prop;
  cl_last_ok : 0 <= last < 2 ^ 15;
  cl_hello_end : ∀ p c r b c', ctx_hello p c = Some (r, b, c') → 0 <= r → p <= last ∧ (r = 1 ↔ p = last);
  cl_hello_wf : ∀ p c r b c', cl_wf c → ctx_hello p c = Some (r, b, c') → cl_wf c';
  cl_recv_wf : ∀ p b c, cl_wf c → cl_wf (ctx_recv p b c);
  cl_enable_wf : ∀ c, cl_wf c → cl_wf (snd (ctx_enable c));
  cl_disable_wf : ∀ c, cl_wf c → cl_wf (ctx_disable c);
  cl_quiesce_wf : ∀ c c', cl_wf c → ctx_quiesce c = Some c' → cl_wf c';
  cl_reset_fresh : ∀ c c', cl_wf c → ctx_reset c = Some c' → cl_fresh c';
  cl_fresh_wf : ∀ c, cl_fresh c → cl_wf c;
  cl_recv_fresh : ∀ p b c, cl_fresh c → cl_fresh (ctx_recv p b c) }.

Create HintDb link.
#[export] Hint Resolve cl_hello_wf cl_recv_wf cl_enable_wf cl_disable_wf cl_quiesce_wf cl_reset_fresh
  cl_fresh_wf cl_recv_fresh : link.

(** ** A session

    The states of two drivers, and how many phases each has run, when they
    started fresh and neither ran a phase before the other had run, and
    delivered, all the earlier ones; they are enabled and disabled only when
    both have run all their phases. *)
Section Session.
Context {C B : Type} {last : Z} {CLx CLy : NtcClient C B} (Ox : NtcClientOk CLx last) (Oy : NtcClientOk CLy last).

Inductive session : C → Z → C → Z → Prop :=
  | sess_start x y : cl_fresh (NtcClientOk := Ox) x → cl_fresh (NtcClientOk := Oy) y → session x 0 y 0
  | sess_x x nx y ny r b x' :
      session x nx y ny → nx <= ny → ctx_hello (NtcClient := CLx) nx x = Some (r, b, x') → 0 <= r →
      session x' (nx + 1) (ctx_recv (NtcClient := CLy) nx b y) ny
  | sess_y x nx y ny r b y' :
      session x nx y ny → ny <= nx → ctx_hello (NtcClient := CLy) ny y = Some (r, b, y') → 0 <= r →
      session (ctx_recv (NtcClient := CLx) ny b x) nx y' (ny + 1)
  | sess_enable_x x nx y ny : session x nx y ny → nx = last + 1 → ny = last + 1 →
      session (snd (ctx_enable (NtcClient := CLx) x)) nx y ny
  | sess_enable_y x nx y ny : session x nx y ny → nx = last + 1 → ny = last + 1 →
      session x nx (snd (ctx_enable (NtcClient := CLy) y)) ny
  | sess_disable_x x nx y ny : session x nx y ny → nx = last + 1 → ny = last + 1 →
      session (ctx_disable (NtcClient := CLx) x) nx y ny
  | sess_disable_y x nx y ny : session x nx y ny → nx = last + 1 → ny = last + 1 →
      session x nx (ctx_disable (NtcClient := CLy) y) ny.

End Session.

#[export] Hint Constructors session : link.

Lemma session_sym {C B} {last : Z} {CLx CLy : NtcClient C B} (Ox : NtcClientOk CLx last) (Oy : NtcClientOk CLy last)
    x nx y ny : session Ox Oy x nx y ny → session Oy Ox y ny x nx.
Proof. induction 1; eauto with link. Qed.

(** ** The system *)

Section Steps.
Context {C B : Type} `{K : Kernel}.

Inductive side_step {CL : NtcClient C B} : ntc_ntb_dev C B → ntc_ntb_dev C B → Prop :=
  | st_work hw d d' : nd_work d = true → ntc_ntb_link_work hw d = Some d' → side_step d d'
  | st_ping d : side_step d (ntc_ntb_ping_pong d)
  | st_poll d : side_step d (ntc_ntb_ping_poll_cb d)
  | st_reset wait d : side_step d (snd (ntc_link_reset_begin wait d))
  | st_disable rc d : side_step d (snd (ntc_link_disable rc d))
  | st_enable rc d : side_step d (snd (ntc_link_enable rc d))
  | st_event d : side_step d (ntc_ntb_link_event d).

Definition receive_all {CL : NtcClient C B} (ws : list (info_write B)) (y : ntc_ntb_dev C B) : ntc_ntb_dev C B :=
  foldl (λ y w, nd_receive w y) y ws.

Record net := mk_net { nt_a : ntc_ntb_dev C B; nt_b : ntc_ntb_dev C B }.

Inductive net_step {CLa CLb : NtcClient C B} : net → net → Prop :=
  | net_a a a' b :
      side_step (CL := CLa) a a' →
      net_step (mk_net a b) (mk_net (nd_set_out [] a') (receive_all (CL := CLb) (nd_out a') b))
  | net_b a b b' :
      side_step (CL := CLb) b b' →
      net_step (mk_net a b) (mk_net (receive_all (CL := CLa) (nd_out b') a) (nd_set_out [] b')).

End Steps.

Arguments net : clear implicits.

(** ** What a side looks like

    The parts of a device that the argument is about: its state, whether it is
    up, whether its heartbeat runs, the message it sends, the last message it
    polled (none when the heartbeat does not run), the message in its memory,
    whether it is done with the hello, and the driver above. *)
Record side {C : Type} := mk_side {
  sd_s : Z; sd_up : bool; sd_run : bool; sd_pm : Z; sd_ve : Z; sd_m : Z; sd_dn : Z; sd_c : C }.
Arguments side : clear implicits.
Arguments mk_side {C}.

Section View.
Context {C B : Type}.

Definition view (d : ntc_ntb_dev C B) : side C :=
  mk_side (nd_link_state d) (nd_link_is_up d) (pg_run (nd_ping d)) (pg_msg (nd_ping d))
    (if pg_run (nd_ping d) then pg_poll_msg (nd_ping d) else 0)
    (ntc_ntb_ping_msg (ni_ping (nd_info d))) (nd_self_info_done d) (nd_client d).

Definition sd_set_s (t : Z) (x : side C) : side C :=
  mk_side t (sd_up x) (sd_run x) t (sd_ve x) (sd_m x) (sd_dn x) (sd_c x).
Definition sd_set_c (c : C) (x : side C) : side C :=
  mk_side (sd_s x) (sd_up x) (sd_run x) (sd_pm x) (sd_ve x) (sd_m x) (sd_dn x) c.
Definition sd_set_m (m : Z) (x : side C) : side C :=
  mk_side (sd_s x) (sd_up x) (sd_run x) (sd_pm x) (sd_ve x) m (sd_dn x) (sd_c x).
Definition sd_set_dn (n : Z) (x : side C) : side C :=
  mk_side (sd_s x) (sd_up x) (sd_run x) (sd_pm x) (sd_ve x) (sd_m x) n (sd_c x).
Definition sd_set_up (u : bool) (x : side C) : side C :=
  mk_side (sd_s x) u (sd_run x) (sd_pm x) (sd_ve x) (sd_m x) (sd_dn x) (sd_c x).
Definition sd_set_poll (run : bool) (ve : Z) (x : side C) : side C :=
  mk_side (sd_s x) (sd_up x) run (sd_pm x) ve (sd_m x) (sd_dn x) (sd_c x).
(** [y] hears the message [pm] of [x]. *)
Definition sd_hear (pm : Z) (x y : side C) : side C := if sd_run x then sd_set_m pm y else y.

End View.

Lemma ping_val_msg m q : 0 <= m < 2 ^ 16 → 0 <= q < 2 ^ 16 → ntc_ntb_ping_msg (ntc_ntb_ping_val m q) = m.
Proof.
  intros Hm Hq. unfold ntc_ntb_ping_msg, ntc_ntb_ping_val, u16, u32.
  rewrite Z.shiftr_lor, Z.shiftl_mul_pow2, !Z.shiftr_div_pow2 by lia.
  rewrite (Z.mod_small (m * _)) by lia. rewrite Z.div_mul by lia. rewrite (Z.div_small q) by lia.
  rewrite Z.lor_0_r. by apply Z.mod_small.
Qed.

Section Moves.
Context {C B : Type} {CLx CLy : NtcClient C B} `{K : Kernel} (y0 : ntc_ntb_dev C B).
Implicit Type d : ntc_ntb_dev C B.

(** The peer, when it has received all that [d] wrote. *)
Definition heard d : ntc_ntb_dev C B := receive_all (CL := CLy) (nd_out d) y0.

Lemma heard_write w d : heard (iowrite w d) = nd_receive w (heard d).
Proof. unfold heard, receive_all. cbn. by rewrite foldl_app. Qed.

Definition neutral (w : info_write B) : Prop :=
  match w with WPing _ | WCtx _ _ => False | _ => True end.

Lemma heard_neutral w d : neutral w → view (heard (iowrite w d)) = view (heard d).
Proof. rewrite heard_write. by destruct w. Qed.

Lemma pong_moves d :
  0 <= pg_msg (nd_ping d) < 2 ^ 16 →
  view (ntc_ntb_ping_pong d) = view d
  ∧ view (heard (ntc_ntb_ping_pong d)) = sd_hear (pg_msg (nd_ping d)) (view d) (view (heard d)).
Proof.
  intros Hm. unfold ntc_ntb_ping_pong, sd_hear. cbn [view sd_run].
  destruct (pg_run (nd_ping d)) eqn:Hr; cbn [negb]; [|done].
  split; [unfold view; cbn; by rewrite Hr|].
  match goal with |- view (heard (nd_set_ping _ ?e)) = _ => change (view (heard e) = sd_set_m (pg_msg (nd_ping d)) (view (heard d))) end.
  rewrite heard_write. unfold nd_receive, view, sd_set_m. cbn.
  by rewrite ping_val_msg by (try apply Z.mod_pos_bound; lia).
Qed.

Lemma send_moves t d :
  0 <= t < 2 ^ 16 →
  view (ntc_ntb_ping_send t d)
    = mk_side (nd_link_state d) (nd_link_is_up d) (pg_run (nd_ping d)) t (sd_ve (view d)) (sd_m (view d))
        (nd_self_info_done d) (nd_client d)
  ∧ view (heard (ntc_ntb_ping_send t d)) = sd_hear t (view d) (view (heard d)).
Proof.
  intros Ht. unfold ntc_ntb_ping_send. assert (u16 t = t) as -> by (by apply u16_small).
  match goal with |- view (ntc_ntb_ping_pong ?e) = _ ∧ _ => destruct (pong_moves e) as [-> ->]; [exact Ht|] end.
  done.
Qed.

Lemma set_state_moves t d :
  0 <= t < 2 ^ 16 →
  view (ntc_ntb_link_set_state t d) = sd_set_s t (view d)
  ∧ view (heard (ntc_ntb_link_set_state t d)) = sd_hear t (view d) (view (heard d)).
Proof. intros Ht. unfold ntc_ntb_link_set_state. destruct (send_moves t (nd_set_state t d) Ht) as [-> ->]. done. Qed.

Lemma error_moves d :
  view (ntc_ntb_error d) = (if 1 <? nd_link_state d then sd_set_s 0 (view d) else view d)
  ∧ view (heard (ntc_ntb_error d))
    = if 1 <? nd_link_state d then sd_hear 0 (view d) (view (heard d)) else view (heard d).
Proof.
  unfold ntc_ntb_error, NTC_NTB_LINK_RESET. destruct (1 <? nd_link_state d); cbn [negb]; [|done].
  exact (set_state_moves 0 d ltac:(lia)).
Qed.

Lemma poll_cb_moves d :
  (view (ntc_ntb_ping_poll_cb d) = view d ∨
   ∃ ve, (ve = 0 ∨ sd_run (view d) = true ∧ ve = sd_m (view d))
     ∧ view (ntc_ntb_ping_poll_cb d) = sd_set_poll (sd_run (view d)) ve (view d))
  ∧ nd_out (ntc_ntb_ping_poll_cb d) = nd_out d.
Proof.
  unfold ntc_ntb_ping_poll_cb, ntc_ntb_ping_poll.
  destruct (pg_run (nd_ping d)) eqn:Hr; cbn [negb].
  - destruct (negb (pg_poll_val (nd_ping d) =? ni_ping (nd_info d))); cbn [nd_ping nd_set_ping pg_poll_val pg_poll_msg].
    + destruct (negb (_ =? _)); (split; [|done]).
      * right. exists (sd_m (view d)). split; [by right; cbn|]. unfold view, sd_set_poll. cbn. by rewrite Hr.
      * left. unfold view. cbn. by rewrite Hr.
    + destruct (_ <? _); [|split; [by left|done]].
      destruct (_ =? _); (split; [|done]).
      * right. exists 0. split; [by left|]. unfold view, sd_set_poll. cbn. by rewrite Hr.
      * left. unfold view. cbn. by rewrite Hr.
  - destruct (_ <? _); [|split; [by left|done]].
    destruct (_ =? _); (split; [|done]); left; unfold view; cbn; by rewrite Hr.
Qed.

(** The start of a run: the event is what was polled last. *)
Lemma get_event_moves hw d e d' :
  0 <= pg_msg (nd_ping d) < 2 ^ 16 → ntc_ntb_link_get_event hw d = (e, d') →
  e = sd_ve (view d')
  ∧ (view d' = view d ∧ view (heard d') = view (heard d)
     ∨ view d' = sd_set_poll false 0 (view d) ∧ view (heard d') = view (heard d)
     ∨ sd_run (view d) = false ∧ view d' = sd_set_poll true 0 (view d)
       ∧ view (heard d') = sd_set_m (sd_pm (view d)) (view (heard d))).
Proof.
  intros Hm. unfold ntc_ntb_link_get_event. destruct (hw_link_up hw); cbn [negb].
  2: { intros [= <- <-]. split; [done|]. right; left. done. }
  unfold ntc_ntb_ping_start. destruct (pg_run (nd_ping d)) eqn:Hr; cbn [negb].
  { intros [= <- <-]. split; [unfold view; cbn; by rewrite Hr|]. by left. }
  match goal with |- context [ntc_ntb_ping_pong ?x] => set (d1 := x) end.
  destruct (pong_moves d1 Hm) as [Hv Hh].
  unfold ntc_ntb_ping_poll. set (d2 := ntc_ntb_ping_pong d1) in *.
  assert (pg_run (nd_ping d2) = true) as Hr2 by (change (sd_run (view d2) = true); by rewrite Hv).
  rewrite Hr2. cbn [negb].
  assert (view (heard d2) = sd_set_m (sd_pm (view d)) (view (heard d))) as Hh2 by (rewrite Hh; done).
  assert (∀ p, pg_run p = true → pg_msg p = pg_msg (nd_ping d2) → pg_poll_msg p = 0 →
    view (nd_set_ping p d2) = sd_set_poll true 0 (view d)) as Hp.
  { intros p H1 H2 H3.
    assert (sd_set_poll true 0 (view d) = sd_set_poll true 0 (view d2)) as -> by (rewrite Hv; done).
    unfold view, sd_set_poll. cbn. by rewrite H1, H2, H3. }
  destruct (negb _); cbn [snd nd_ping nd_set_ping pg_poll_msg ping_set_poll pg_miss]; intros [= <- <-];
    (split; [unfold view; cbn; by repeat case_match|]); right; right;
    (split; [done|]); (split; [|exact Hh2]); by apply Hp.
Qed.

End Moves.

(** ** The invariant

    A side is [stuck] when it has started over and its peer, already in the hello
    or about to begin it, has not: whatever it hears from that peer then makes
    it start over again. *)
Section Numbers.
Context {C : Type} (last : Z).
Implicit Types x y : side C.

Definition stuck x : Prop := sd_s x <= 3 ∨ (sd_s x <= 5 ∧ sd_ve x ≠ 5 ∧ sd_ve x ≠ 6).

Definition local x : Prop :=
  0 <= sd_s x <= 8 + last ∧ (sd_pm x = sd_s x ∨ sd_pm x = 0)
  ∧ (sd_up x = true → sd_s x = 0 ∨ sd_s x = 8 + last)
  ∧ (5 <= sd_s x → (sd_dn x = 1 ↔ sd_s x = 8 + last))
  ∧ (sd_run x = false → sd_ve x = 0).

(** Between runs. *)
Definition rested x : Prop := sd_s x ≠ 1 ∧ (sd_run x = false → sd_s x <= 3).

(** What is in the memory of [x] is the state of [y], or nothing. *)
Definition told x y : Prop := sd_m x = 0 ∨ sd_m x = sd_s y ∨ sd_run y = false.

(** When [x] is about to begin the hello, the peer is where [x] thinks it is, or
    further, or stuck. *)
Definition ahead x y : Prop :=
  (7 <= sd_s x → (8 <= sd_ve x → sd_ve x <= sd_s y ∨ stuck y) ∧ (8 <= sd_m x → sd_m x <= sd_s y ∨ stuck y))
  ∧ (9 <= sd_s x → sd_s x - 1 <= sd_s y ∨ stuck y)
  ∧ (sd_up x = true → 8 <= sd_s x → sd_s x <= sd_s y ∨ stuck y).

(** While [x] runs; [x] rests in between. *)
Definition numbers x y : Prop :=
  local x ∧ local y ∧ rested y ∧ told x y ∧ told y x ∧ ahead x y ∧ ahead y x.

Context (last_ok : 0 <= last).

Ltac num := unfold numbers, rested, local, told, ahead, stuck, sd_hear in *; cbn in *.

Lemma numbers_sym x y : rested x → numbers x y → numbers y x.
Proof. unfold numbers. tauto. Qed.

(** What [y] knows of [x] stays true when [x] goes further or is stuck. *)
Lemma ahead_mono y x x' :
  ahead y x → (stuck x → stuck x') → sd_s x <= sd_s x' ∨ stuck x' → ahead y x'.
Proof.
  intros (H1 & H2 & H3) Hs Hle. unfold ahead.
  split_and!; intros; [|destruct (H2 ltac:(done))|destruct (H3 ltac:(done) ltac:(done))];
    try (by right; auto); try (destruct Hle; [left; lia|by right]).
  destruct (H1 ltac:(done)) as [Hv Hm].
  split; intros; [destruct (Hv ltac:(done))|destruct (Hm ltac:(done))];
    try (by right; auto); (destruct Hle; [left; lia|by right]).
Qed.

Lemma ahead_hear y x t : ahead y x → t <= sd_s x ∨ stuck x → ahead (sd_set_m t y) x.
Proof.
  intros (H1 & H2 & H3) Ht. unfold ahead. cbn. split_and!; [|done|done].
  intros Hy. destruct (H1 Hy) as [Hv _]. split; [done|]. intros. destruct Ht; [left; lia|by right].
Qed.

Lemma numbers_move t dn x y :
  numbers x y → local (sd_set_s t (sd_set_dn dn x)) → (stuck x → stuck (sd_set_s t x)) →
  sd_s x <= t ∨ stuck (sd_set_s t x) → ahead (sd_set_s t x) y →
  numbers (sd_set_s t (sd_set_dn dn x)) (sd_hear t x y).
Proof.
  intros (Hx & Hy & Hr & Txy & Tyx & Axy & Ayx) Hl Hst Hle Ha.
  pose proof (ahead_mono y x (sd_set_s t (sd_set_dn dn x)) Ayx Hst Hle) as Hyx.
  unfold numbers, sd_hear. destruct (sd_run x) eqn:Hrun.
  - split_and!; try done; [by right; left|]. apply ahead_hear; [done|]. left. cbn. lia.
  - split_and!; try done. right; right. exact Hrun.
Qed.

Lemma numbers_fall x y : numbers x y → numbers (sd_set_s 0 x) (sd_hear 0 x y).
Proof.
  intros H. apply (numbers_move 0 (sd_dn x)); [done| | | |].
  - destruct H as ((H1 & H2 & H3 & H4 & H5) & _). unfold local. cbn. split_and!; try done; try lia; by left.
  - intros _. left. cbn. lia.
  - right. left. cbn. lia.
  - unfold ahead. cbn. split_and!; intros; lia.
Qed.

Lemma numbers_low t x y :
  numbers x y → sd_s x <= 3 → 1 <= t <= 3 → sd_up x = false → numbers (sd_set_s t x) (sd_hear t x y).
Proof.
  intros H Hs Ht Hu. apply (numbers_move t (sd_dn x)); [done| | | |].
  - destruct H as ((H1 & H2 & H3 & H4 & H5) & _). unfold local. cbn. rewrite Hu. split_and!; try done; try lia; by left.
  - intros _. left. cbn. lia.
  - right. left. cbn. lia.
  - unfold ahead. cbn. split_and!; intros; lia.
Qed.

Lemma numbers_advance dn x y :
  numbers x y → 3 <= sd_s x → sd_ve x = sd_s x ∨ sd_ve x = sd_s x + 1 → sd_s x + 1 <= 8 + last →
  (5 <= sd_s x + 1 → (dn = 1 ↔ sd_s x + 1 = 8 + last)) →
  numbers (sd_set_s (sd_s x + 1) (sd_set_dn dn x)) (sd_hear (sd_s x + 1) x y).
Proof.
  intros H Hs Hv Hle Hd. apply (numbers_move (sd_s x + 1) dn); [done| | | |].
  - destruct H as ((H1 & H2 & H3 & H4 & H5) & _). unfold local. cbn. split_and!; try done; try lia.
    intros Hu. destruct (H3 Hu); lia.
  - unfold stuck. cbn. lia.
  - left. lia.
  - destruct H as (Hl & _ & Hr & Txy & _ & (H1 & H2 & H3) & _). unfold ahead. cbn.
    assert (6 <= sd_s x → 8 <= sd_m x → sd_m x <= sd_s y ∨ stuck y) as Hm.
    { intros. destruct Txy as [|[|Hn]]; [left; lia|left; lia|]. right; left. by apply Hr. }
    assert (7 <= sd_s x → 8 <= sd_ve x → sd_ve x <= sd_s y ∨ stuck y) as Hv' by (intros; by apply H1).
    clear H1 H2 H3. split_and!; intros Hc.
    + split; [|apply Hm; lia]. intros. apply Hv'; lia.
    + destruct (Hv' ltac:(lia) ltac:(lia)); [left; lia|by right].
    + destruct Hl as (_ & _ & Hu & _). destruct (Hu Hc); lia.
Qed.

End Numbers.

(** ** The drivers *)

Section Drivers.
Context {C B : Type} {last : Z} {CLx CLy : NtcClient C B} (Ox : NtcClientOk CLx last) (Oy : NtcClientOk CLy last).
Implicit Types x y : side C.

Definition phases x : Z := Z.max 0 (sd_s x - 7).

Definition drivers x y : Prop :=
  cl_wf (NtcClientOk := Ox) (sd_c x) ∧ cl_wf (NtcClientOk := Oy) (sd_c y)
  ∧ (2 <= sd_s x <= 7 → cl_fresh (NtcClientOk := Ox) (sd_c x))
  ∧ (2 <= sd_s y <= 7 → cl_fresh (NtcClientOk := Oy) (sd_c y))
  ∧ (8 <= sd_s x ∨ 8 <= sd_s y → ¬ stuck x → ¬ stuck y →
     session Ox Oy (sd_c x) (phases x) (sd_c y) (phases y)).

Definition inv x y : Prop := numbers last x y ∧ drivers x y.

Lemma hear_s t x y : sd_s (sd_hear t x y) = sd_s y. Proof. unfold sd_hear. by destruct (sd_run x). Qed.
Lemma hear_c t x y : sd_c (sd_hear t x y) = sd_c y. Proof. unfold sd_hear. by destruct (sd_run x). Qed.
Lemma hear_client t c x y : sd_hear t x (sd_set_c c y) = sd_set_c c (sd_hear t x y).
Proof. unfold sd_hear. by destruct (sd_run x). Qed.
Lemma hear_stuck t x y : stuck (sd_hear t x y) ↔ stuck y. Proof. unfold sd_hear. by destruct (sd_run x). Qed.

(** Only the state of [x] changes, or [x] ends up in a state where its driver
    does not matter. *)
Lemma drivers_move t x y :
  drivers x y → (2 <= t <= 7 → cl_fresh (NtcClientOk := Ox) (sd_c x)) →
  (8 <= t ∨ 8 <= sd_s y → ¬ stuck (sd_set_s t x) → ¬ stuck y →
   session Ox Oy (sd_c x) (Z.max 0 (t - 7)) (sd_c y) (phases y)) →
  drivers (sd_set_s t x) (sd_hear t x y).
Proof.
  intros (H1 & H2 & H3 & H4 & H5) Hf Hs. unfold drivers. rewrite hear_stuck, !hear_c, !hear_s.
  unfold phases at 2. rewrite hear_s. by split_and!.
Qed.

Lemma inv_fall x y : inv x y → inv (sd_set_s 0 x) (sd_hear 0 x y).
Proof.
  intros [Hn Hd]. split; [by apply numbers_fall; [apply (cl_last_ok (NtcClientOk := Ox))|]|]. apply drivers_move; [done|intros; lia|].
  intros _ []. left. cbn. lia.
Qed.

Lemma inv_low t x y :
  inv x y → sd_s x <= 3 → 1 <= t <= 3 → sd_up x = false →
  (2 <= t → cl_fresh (NtcClientOk := Ox) (sd_c x)) → inv (sd_set_s t x) (sd_hear t x y).
Proof.
  intros [Hn Hd] Hs Ht Hu Hf. split; [by apply numbers_low; [apply (cl_last_ok (NtcClientOk := Ox))|..]|].
  apply drivers_move; [done|intros; apply Hf; lia|]. intros _ []. left. cbn. lia.
Qed.

(** A step of the exchange before the hello. *)
Lemma inv_advance dn x y :
  inv x y → 3 <= sd_s x <= 6 → sd_ve x = sd_s x ∨ sd_ve x = sd_s x + 1 → (5 <= sd_s x + 1 → dn ≠ 1) →
  inv (sd_set_s (sd_s x + 1) (sd_set_dn dn x)) (sd_hear (sd_s x + 1) x y).
Proof.
  intros [Hn Hd] Hs Hv Hdn. pose proof (@cl_last_ok _ _ _ _ Ox) as Hl.
  split; [apply numbers_advance; [lia|done|lia|done|lia|]; intros H5; specialize (Hdn H5); split; [done|lia]|].
  apply (drivers_move (sd_s x + 1) x); [done|intros _; apply Hd; lia|].
  intros H8 Hst Hsty. destruct Hd as (_ & _ & _ & _ & Hsess).
  assert (¬ stuck x) as Hx by (revert Hst; unfold stuck; cbn; lia).
  replace (Z.max 0 (sd_s x + 1 - 7)) with (phases x) by (unfold phases; lia).
  apply Hsess; [lia|done..].
Qed.

(** Any new states of the drivers that are well formed, when neither is in a
    hello that goes on. *)
Lemma inv_clients cx cy x y :
  inv x y → cl_wf (NtcClientOk := Ox) cx → cl_wf (NtcClientOk := Oy) cy →
  (2 <= sd_s x <= 7 → cl_fresh (NtcClientOk := Ox) cx) → (2 <= sd_s y <= 7 → cl_fresh (NtcClientOk := Oy) cy) →
  (8 <= sd_s x ∨ 8 <= sd_s y → ¬ stuck x → ¬ stuck y → session Ox Oy cx (phases x) cy (phases y)) →
  inv (sd_set_c cx x) (sd_set_c cy y).
Proof. intros [Hn Hd] ? ? ? ? ?. split; [exact Hn|]. done. Qed.

(** A phase of the hello. *)
Lemma inv_hello r b cx x y :
  inv x y → 7 <= sd_s x → sd_ve x = sd_s x ∨ sd_ve x = sd_s x + 1 →
  ctx_hello (NtcClient := CLx) (sd_s x - 7) (sd_c x) = Some (r, b, cx) → 0 <= r →
  let cy := ctx_recv (NtcClient := CLy) (sd_s x - 7) b (sd_c y) in
  let dn := if r =? 1 then 1 else sd_dn x in
  inv (sd_set_s (sd_s x + 1) (sd_set_dn dn (sd_set_c cx x))) (sd_hear (sd_s x + 1) x (sd_set_c cy y)).
Proof.
  intros [Hn Hd] Hs Hv Hh Hr cy dn. pose proof (@cl_last_ok _ _ _ _ Ox) as Hl.
  destruct (cl_hello_end _ _ _ _ _ Hh Hr) as [Hp Hlast].
  assert (sd_dn x = 1 ↔ sd_s x = 8 + last) as Hdn by (apply Hn; lia).
  split.
  { apply (numbers_advance last ltac:(lia) dn (sd_set_c cx x) (sd_set_c cy y)); [exact Hn|cbn; lia|done|cbn; lia|].
    intros _. cbn. unfold dn. destruct (Z.eqb_spec r 1); lia. }
  destruct Hd as (Wx & Wy & Fx & Fy & Hsess). destruct Hn as (_ & _ & _ & _ & _ & Axy & _).
  unfold drivers. rewrite hear_stuck, !hear_c, !hear_s. unfold phases at 2. rewrite hear_s. cbn.
  split_and!; [by eapply cl_hello_wf|by apply cl_recv_wf|lia|intros; by apply cl_recv_fresh, Fy|].
  intros _ _ Hy. change (stuck (sd_set_c cy y)) with (stuck y) in Hy.
  match goal with |- session _ _ _ ?n _ _ => replace n with (sd_s x - 7 + 1) by (unfold phases; cbn; lia) end.
  change (Z.max 0 (sd_s y - 7)) with (phases y).
  assert (session Ox Oy (sd_c x) (sd_s x - 7) (sd_c y) (phases y)) as Hss.
  { assert (¬ stuck x) as Hx by (unfold stuck; lia).
    destruct (decide (sd_s x = 7 ∧ sd_s y <= 7)) as [[H7 Hy7]|Hno].
    - unfold phases. rewrite H7. replace (Z.max 0 (sd_s y - 7)) with 0 by lia.
      apply sess_start; [apply Fx; lia|apply Fy; unfold stuck in Hy; lia].
    - replace (sd_s x - 7) with (phases x) by (unfold phases; lia). apply Hsess; [lia|done..]. }
  eapply sess_x; [exact Hss| |exact Hh|exact Hr].
  destruct (decide (sd_s x = 7)); [unfold phases; lia|].
  destruct Axy as (H1 & _). destruct (H1 ltac:(lia)) as [Hve _].
  destruct (Hve ltac:(lia)) as [Hle|]; [unfold phases; lia|done].
Qed.

End Drivers.

(** ** The operations, as moves *)

Section Operations.
Context {C B : Type} {last : Z} {CLx CLy : NtcClient C B} (Ox : NtcClientOk CLx last) (Oy : NtcClientOk CLy last).
Context `{K : Kernel} (y0 : ntc_ntb_dev C B).
Implicit Type d : ntc_ntb_dev C B.
#[local] Existing Instance CLx.
Abbreviation heard := (heard (CLy := CLy) y0).

(** Nothing that matters changed. *)
Definition same d d' : Prop := view d' = view d ∧ view (heard d') = view (heard d).

Lemma unheard_refl d : same d d. Proof. done. Qed.
Lemma unheard_trans d1 d2 d3 : same d1 d2 → same d2 d3 → same d1 d3.
Proof. intros [H1 H2] [H3 H4]. split; congruence. Qed.
Lemma same_write w d : neutral w → same d (iowrite w d).
Proof. intros. split; [done|by apply heard_neutral]. Qed.

Lemma same_fold {A} (f : ntc_ntb_dev C B → A → ntc_ntb_dev C B) (l : list A) d :
  (∀ d a, same d (f d a)) → same d (fold_left f l d).
Proof.
  intros Hf. revert d. induction l as [|a l IH]; intros d; cbn; [apply unheard_refl|].
  eapply unheard_trans; [apply Hf|apply IH].
Qed.

Definition jinv d : Prop := inv Ox Oy (view d) (view (heard d)).

Lemma jinv_same d d' : same d d' → jinv d → jinv d'.
Proof. unfold jinv. by intros [-> ->]. Qed.

Lemma window_same hw i d rc d' : set_memory_window hw i d = Some (rc, d') → same d d'.
Proof.
  unfold set_memory_window. destruct (_ !! _); [|done].
  destruct (set_memory_windows_on_device _ _). by intros [= _ <-].
Qed.

Lemma enabled_cases hw d d' :
  ntc_ntb_enabled hw d = Some d' → same d d' ∨ ∃ d1, same d d1 ∧ same (ntc_ntb_link_set_state 3 d1) d'.
Proof.
  unfold ntc_ntb_enabled. destruct (negb _); [intros [= <-]; by left|].
  destruct (set_memory_window _ _ _) as [[rc d1]|] eqn:Hw; [|done]. apply window_same in Hw.
  destruct (negb _); intros [= <-]; [by left|]. right. by exists d1.
Qed.

Lemma send_version_case d : ∃ d1, same d d1 ∧ ntc_ntb_send_version d = ntc_ntb_link_set_state 4 d1.
Proof.
  unfold ntc_ntb_send_version. eexists. split; [|done]. eapply unheard_trans; [|by apply same_write].
  refine (same_fold _ _ _ _). intros. by apply same_write.
Qed.

Lemma send_addr_same d : same d (ntc_ntb_send_addr d).
Proof. refine (same_fold _ _ _ _). intros. eapply unheard_trans; [|by apply same_write]. by apply same_write. Qed.

Lemma choose_cases hw d d' :
  ntc_ntb_choose_version_and_send_addr hw d = Some d' →
  ∃ d1, same d d1 ∧ (d' = ntc_ntb_error d1 ∨ d' = ntc_ntb_link_set_state 5 (nd_set_done 0 d1)).
Proof.
  unfold ntc_ntb_choose_version_and_send_addr. destruct (_ <? _); [intros [= <-]; eexists; split; [|by left]; done|].
  cbv zeta. destruct (_ =? NTC_NTB_VERSION_NONE); [intros [= <-]; eexists; split; [|by left]; done|].
  destruct (set_memory_window _ _ _) as [[rc d1]|] eqn:Hw; [|done]. apply window_same in Hw.
  destruct (negb _); intros [= <-]; [eexists; split; [exact Hw|by left]|].
  eexists. split; [|by right]. do 2 (eapply unheard_trans; [|by apply same_write]).
  eapply unheard_trans; [exact Hw|]. apply send_addr_same.
Qed.

Lemma db_config_cases hw d rc d' :
  ntc_ntb_db_config_and_recv_addr hw d = (rc, d') →
  same d d' ∨ rc = 0 ∧ ∃ d1, same d d1 ∧ d' = ntc_ntb_link_set_state 6 d1.
Proof.
  unfold ntc_ntb_db_config_and_recv_addr. destruct (negb _); [intros [= _ <-]; by left|]. cbv zeta.
  destruct (_ || _); [intros [= _ <-]; by left|]. destruct (hw_peer_db hw) as [[r base] size].
  destruct (_ || _); [intros [= _ <-]; by left|]. destruct (ntc_remote_buf_map_phys _ _) as [r2 b2].
  destruct (_ <? _); intros [= <- <-]; [by left|]. right. split; [done|]. eexists. split; [|done]. done.
Qed.

Lemma hello_cases d r d' :
  8 <= nd_link_state d + 1 → ntc_ntb_hello d = Some (r, d') →
  ∃ ret b c d1, ctx_hello (nd_link_state d - 7) (nd_client d) = Some (ret, b, c)
    ∧ view d1 = sd_set_dn (if ret =? 1 then 1 else nd_self_info_done d) (sd_set_c c (view d))
    ∧ view (heard d1)
      = sd_set_c (ctx_recv (NtcClient := CLy) (nd_link_state d - 7) b (sd_c (view (heard d)))) (view (heard d))
    ∧ (ret < 0 ∧ r = ret ∧ d' = d1 ∨ 0 <= ret ∧ r = 0 ∧ d' = ntc_ntb_link_set_state (nd_link_state d + 1) d1).
Proof.
  intros Hs. unfold ntc_ntb_hello, NTC_NTB_LINK_HELLO.
  replace (nd_link_state d + 1 - 8) with (nd_link_state d - 7) by lia.
  destruct (Z.ltb_spec (nd_link_state d - 7) 0); [lia|].
  destruct (ctx_hello _ _) as [[[ret b] c]|] eqn:Hh; [|done].
  set (d0 := iowrite _ _).
  assert (view (heard d0) = sd_set_c (ctx_recv (NtcClient := CLy) (nd_link_state d - 7) b (sd_c (view (heard d))))
    (view (heard d))) as Hd0 by (unfold d0; by rewrite heard_write).
  destruct (Z.ltb_spec ret 0).
  { intros [= <- <-]. exists ret, b, c, d0. split_and!; [done| |done|by left].
    by destruct (Z.eqb_spec ret 1); [lia|]. }
  replace (8 + (nd_link_state d - 7)) with (nd_link_state d + 1) by lia.
  intros [= <- <-]. eexists ret, b, c, _. split_and!; [done| | |right; by split_and!].
  - by destruct (ret =? 1).
  - destruct (ret =? 1); [|exact Hd0]. rewrite <- Hd0. by apply heard_neutral.
Qed.

End Operations.

(** ** A run keeps the invariant *)

Section Run.
Context {C B : Type} {last : Z} {CLx CLy : NtcClient C B} (Ox : NtcClientOk CLx last) (Oy : NtcClientOk CLy last).
Context `{K : Kernel} (y0 : ntc_ntb_dev C B).
Implicit Type d : ntc_ntb_dev C B.
#[local] Existing Instance CLx.
Abbreviation heard := (heard (CLy := CLy) y0).
Abbreviation jinv := (jinv Ox Oy y0).

Lemma jinv_range d : jinv d → 0 <= nd_link_state d <= 8 + last.
Proof. intros [(Hl & _) _]. apply Hl. Qed.

Lemma jinv_peer_range d : jinv d → 0 <= sd_s (view (heard d)) <= 8 + last.
Proof. intros [(_ & Hl & _) _]. apply Hl. Qed.

Lemma jinv_error d : jinv d → jinv (ntc_ntb_error d).
Proof.
  unfold LinkNet.jinv. destruct (error_moves (CLy := CLy) y0 d) as [-> ->].
  destruct (1 <? nd_link_state d); [apply inv_fall|done].
Qed.

Lemma error_fields d :
  sd_ve (view (ntc_ntb_error d)) = sd_ve (view d)
  ∧ (1 < nd_link_state d → nd_link_state (ntc_ntb_error d) = 0).
Proof.
  destruct (error_moves (CLy := CLy) y0 d) as [Hv _].
  change (nd_link_state (ntc_ntb_error d)) with (sd_s (view (ntc_ntb_error d))). rewrite Hv.
  destruct (Z.ltb_spec 1 (nd_link_state d)); [done|]. split; [done|lia].
Qed.

Lemma set_state_fields t d :
  0 <= t < 2 ^ 16 →
  sd_ve (view (ntc_ntb_link_set_state t d)) = sd_ve (view d) ∧ nd_link_state (ntc_ntb_link_set_state t d) = t.
Proof.
  intros Ht. change (nd_link_state (ntc_ntb_link_set_state t d)) with (sd_s (view (ntc_ntb_link_set_state t d))).
  by destruct (set_state_moves (CLy := CLy) y0 t d Ht) as [-> _].
Qed.

Lemma rest_zero d : nd_link_state d = 0 → rested (view d).
Proof. intros H. unfold rested. cbn. rewrite H. split; lia. Qed.

(** A device whose heartbeat runs rests everywhere but in the reset. *)
Lemma rest_heard d : jinv d → sd_ve (view d) ≠ 0 → nd_link_state d ≠ 1 → rested (view d).
Proof.
  intros [((_ & _ & _ & _ & Hr) & _) _] He H1. split; [done|]. intros Hn. by destruct (He (Hr Hn)).
Qed.

Lemma jinv_advance dn d d1 :
  jinv d → 3 <= nd_link_state d <= 6 →
  sd_ve (view d) = nd_link_state d ∨ sd_ve (view d) = nd_link_state d + 1 →
  (5 <= nd_link_state d + 1 → dn ≠ 1) → same (CLy := CLy) y0 (nd_set_done dn d) d1 →
  jinv (ntc_ntb_link_set_state (nd_link_state d + 1) d1).
Proof.
  intros Hj Hs Hv Hd [H1 H2]. unfold LinkNet.jinv.
  destruct (set_state_moves (CLy := CLy) y0 (nd_link_state d + 1) d1 ltac:(lia)) as [-> ->].
  rewrite H1, H2. exact (inv_advance Ox Oy dn (view d) (view (heard d)) Hj Hs Hv Hd).
Qed.

(** What the end of a case leaves. *)
Definition case_post (e : Z) (r : case_result) d : Prop :=
  jinv d
  ∧ match r with
    | Fall => sd_ve (view d) = e
    | Out up => rested (view d) ∧ (up = true → nd_link_state d = 8 + last
                  ∧ (nd_link_state d <= sd_s (view (heard d)) ∨ stuck (view (heard d))))
    | Return => rested (view d)
    end.

Lemma post_out e d : jinv d → rested (view d) → case_post e (Out false) d.
Proof. by split. Qed.

Lemma post_error e r d :
  jinv d → 1 < nd_link_state d → r = Out false ∨ r = Return → case_post e r (ntc_ntb_error d).
Proof.
  intros Hj Hs Hr. pose proof (rest_zero _ (proj2 (error_fields d) Hs)).
  destruct Hr as [-> | ->]; (split; [by apply jinv_error|done]).
Qed.

Lemma sync_post a e next d r d' :
  jinv d → sd_ve (view d) = e → nd_link_state d = a → 4 <= a →
  (∀ d1, next d = Some d1 → e = a ∨ e = a + 1 →
     jinv d1 ∧ sd_ve (view d1) = e ∧ (nd_link_state d1 = a + 1 ∨ nd_link_state d1 = a ∨ nd_link_state d1 = 0)) →
  sync_case a e next d = Some (r, d') → case_post e r d'.
Proof.
  intros Hj He Ha H4 Hnext. unfold sync_case.
  destruct (_ || _) eqn:Hev.
  - destruct (next d) as [d1|] eqn:Hn; [|done]. intros [= <- <-].
    destruct (Hnext d1 eq_refl ltac:(lia)) as (Hj1 & He1 & Hs1).
    destruct (Z.eqb_spec (nd_link_state d1) (a + 1)); cbn [negb]; [by split|].
    apply post_out; [done|]. destruct Hs1 as [|[|]]; [done| |by apply rest_zero].
    apply rest_heard; [done|lia|lia].
  - destruct (Z.eqb_spec e (a - 1)); intros [= <- <-].
    + apply post_out; [done|]. apply rest_heard; [done|lia|lia].
    + apply post_error; [done|lia|by left].
Qed.

Lemma try_hello_post d r d1 :
  jinv d → 7 <= nd_link_state d → sd_ve (view d) = nd_link_state d ∨ sd_ve (view d) = nd_link_state d + 1 →
  try_hello d = Some (r, d1) →
  jinv d1 ∧ sd_ve (view d1) = sd_ve (view d)
  ∧ (r < 0 ∧ nd_link_state d1 = 0 ∨ r = 0 ∧ nd_link_state d1 = nd_link_state d + 1).
Proof.
  intros Hj Hs Hv. unfold try_hello. destruct (ntc_ntb_hello d) as [[r0 d0]|] eqn:Hh; [|done].
  intros [= <- <-]. pose proof (jinv_range d Hj) as Hrg. pose proof (@cl_last_ok _ _ _ _ Ox) as Hl.
  destruct (hello_cases (CLy := CLy) y0 d r0 d0 ltac:(lia) Hh) as (ret & b & c & d2 & Hc & Hv2 & Hh2 & Hcase).
  destruct Hcase as [(Hneg & -> & ->)|(Hpos & -> & ->)].
  - destruct (Z.ltb_spec ret 0); [|lia].
    destruct (error_fields d2) as [E1 E2].
    assert (nd_link_state d2 = nd_link_state d) as Es by (change (sd_s (view d2) = nd_link_state d); by rewrite Hv2).
    split_and!; [|rewrite E1, Hv2; done|left; split; [done|apply E2; lia]].
    unfold LinkNet.jinv. destruct (error_moves (CLy := CLy) y0 d2) as [-> ->].
    destruct (Z.ltb_spec 1 (nd_link_state d2)); [|lia]. rewrite Hv2, Hh2.
    destruct (Z.eqb_spec ret 1); [lia|].
    destruct (inv_fall Ox Oy _ _ Hj) as [Hn (D1 & D2 & D3 & D4 & D5)].
    set (cy := ctx_recv _ _ _).
    change (sd_set_s 0 (sd_set_dn (nd_self_info_done d) (sd_set_c c (view d))))
      with (sd_set_c c (sd_set_s 0 (view d))).
    change (sd_hear 0 (sd_set_dn (nd_self_info_done d) (sd_set_c c (view d))) (sd_set_c cy (view (heard d))))
      with (sd_hear 0 (view d) (sd_set_c cy (view (heard d)))).
    rewrite hear_client. rewrite hear_c in D2, D4.
    apply inv_clients; [by apply inv_fall| | | | |].
    + by eapply cl_hello_wf; [|exact Hc]; apply Hj.
    + by apply cl_recv_wf.
    + cbn. lia.
    + intros. by apply cl_recv_fresh, D4.
    + intros _ []. left. cbn. lia.
  - destruct (Z.ltb_spec 0 0); [lia|].
    destruct (cl_hello_end _ _ _ _ _ Hc Hpos) as [Hp _].
    destruct (set_state_fields (nd_link_state d + 1) d2 ltac:(lia)) as [F1 F2].
    split_and!; [|rewrite F1, Hv2; done|right; done].
    unfold LinkNet.jinv.
    destruct (set_state_moves (CLy := CLy) y0 (nd_link_state d + 1) d2 ltac:(lia)) as [-> ->]. rewrite Hv2, Hh2.
    exact (inv_hello Ox Oy ret b c (view d) (view (heard d)) Hj Hs Hv Hc Hpos).
Qed.

Lemma jinv_up_low d : jinv d → 0 < nd_link_state d < 8 → nd_link_is_up d = false.
Proof.
  intros [((_ & _ & Hu & _) & _) _] Hs. destruct (nd_link_is_up d) eqn:Hup; [|done].
  pose proof (@cl_last_ok _ _ _ _ Ox). destruct (Hu Hup) as [H0|H0]; cbn in H0; lia.
Qed.

Lemma jinv_fresh d : jinv d → 2 <= nd_link_state d <= 7 → cl_fresh (NtcClientOk := Ox) (nd_client d).
Proof. intros [_ (_ & _ & Hf & _)]. exact Hf. Qed.

Lemma jinv_wf d : jinv d → cl_wf (NtcClientOk := Ox) (nd_client d).
Proof. intros [_ (Hw & _)]. exact Hw. Qed.

(** The low states: the driver is new. *)
Lemma jinv_low t c d d1 :
  jinv d → nd_link_state d <= 3 → 1 <= t <= 3 → nd_link_is_up d = false →
  cl_wf (NtcClientOk := Ox) c → (2 <= t → cl_fresh (NtcClientOk := Ox) c) →
  (2 <= nd_link_state d → cl_fresh (NtcClientOk := Ox) c) →
  same (CLy := CLy) y0 (nd_set_client c d) d1 → jinv (ntc_ntb_link_set_state t d1).
Proof.
  intros Hj Hs Ht Hu Hw Hf Hf' [H1 H2]. unfold LinkNet.jinv.
  destruct (set_state_moves (CLy := CLy) y0 t d1 ltac:(lia)) as [-> ->]. rewrite H1, H2.
  assert (inv Ox Oy (view (nd_set_client c d)) (view (heard d))) as Hj'.
  { destruct Hj as [Hn (D1 & D2 & D3 & D4 & D5)]. split; [exact Hn|]. split_and!; try done.
    - intros; apply Hf'; cbn in *; lia.
    - intros _ []. left. cbn. lia. }
  apply (inv_low Ox Oy t _ _ Hj'); [cbn; lia|done|done|exact Hf].
Qed.

Lemma inv_up u x y :
  inv Ox Oy x y → (u = true → sd_s x = 8 + last ∧ (sd_s x <= sd_s y ∨ stuck y)) → inv Ox Oy (sd_set_up u x) y.
Proof.
  intros [((L1 & L2 & L3 & L4 & L5) & Hly & Hr & T1 & T2 & (A1 & A2 & A3) & Ay) Hd] Hu. split; [|exact Hd].
  assert (local last (sd_set_up u x)) as Hl'.
  { unfold local. cbn. split_and!; try done; try lia. intros E. right. by apply Hu. }
  assert (ahead (sd_set_up u x) y) as Ha by (refine (conj A1 (conj A2 _)); intros E _; by apply Hu).
  exact (conj Hl' (conj Hly (conj Hr (conj T1 (conj T2 (conj Ha Ay)))))).
Qed.

(** A driver that is enabled or disabled keeps its session. *)
Lemma jinv_toggle u c d :
  jinv d → (c = snd (ctx_enable (nd_client d)) ∨ c = ctx_disable (nd_client d)) →
  nd_link_state d = 0 ∧ u = false
  ∨ nd_link_state d = 8 + last ∧ (nd_link_state d <= sd_s (view (heard d)) ∨ stuck (view (heard d))) →
  jinv (nd_set_client c (nd_set_up u d)).
Proof.
  intros Hj Hc Hs. pose proof (@cl_last_ok _ _ _ _ Ox) as Hl. pose proof (jinv_peer_range d Hj) as Hrg.
  assert (inv Ox Oy (view (nd_set_client c d)) (view (heard d))) as Hj'.
  { destruct Hj as [Hn (D1 & D2 & D3 & D4 & D5)]. split; [exact Hn|]. split_and!; try done.
    - destruct Hc as [-> | ->]; cbn; [by apply cl_enable_wf|by apply cl_disable_wf].
    - cbn. lia.
    - intros H1 H2 H3. specialize (D5 H1 H2 H3). destruct Hs as [[Hs _]|[Hs [Hle|]]]; [|clear Hn|done].
      { destruct H2. left. cbn. lia. }
      assert (phases (view d) = last + 1) as Hpx by (unfold phases; cbn; lia).
      assert (phases (view (heard d)) = last + 1) as Hpy.
      { unfold phases. cbn in *. lia. }
      destruct Hc as [-> | ->]; [by apply sess_enable_x|by apply sess_disable_x]. }
  apply (inv_up u _ _ Hj'). intros ->. by destruct Hs as [[_ ?]|].
Qed.

Lemma update_post up d :
  jinv d → rested (view d) →
  (up = true → nd_link_state d = 8 + last ∧ (nd_link_state d <= sd_s (view (heard d)) ∨ stuck (view (heard d)))) →
  jinv (ntc_ntb_link_update up d) ∧ rested (view (ntc_ntb_link_update up d)).
Proof.
  intros Hj Hr Hu. unfold ntc_ntb_link_update. destruct (Bool.eqb _ _) eqn:E; [done|].
  apply eqb_false_iff in E. pose proof (@cl_last_ok _ _ _ _ Ox) as Hl.
  destruct up.
  - destruct (Hu eq_refl) as [Hs Hle]. cbn [nd_client nd_set_up nd_set_link].
    destruct (ctx_enable (nd_client d)) as [err c] eqn:Hen.
    assert (jinv (nd_set_client c (nd_set_up true d))) as Hj'.
    { apply jinv_toggle; [done|left; by rewrite Hen|by right]. }
    destruct (negb _); [|by split].
    split; [by apply jinv_error|]. apply rest_zero, error_fields. cbn. lia.
  - assert (nd_link_is_up d = true) as Hup by (by destruct (nd_link_is_up d)).
    split; [|exact Hr]. apply jinv_toggle; [done|by right|].
    destruct Hj as [((_ & _ & L3 & _) & _ & _ & _ & _ & (_ & _ & A3) & _) _].
    destruct (L3 Hup) as [|E8]; [by left|right]. split; [exact E8|]. apply A3; [exact Hup|lia].
Qed.

Lemma update_down_fields d :
  nd_link_state (ntc_ntb_link_update false d) = nd_link_state d
  ∧ nd_link_is_up (ntc_ntb_link_update false d) = false
  ∧ sd_ve (view (ntc_ntb_link_update false d)) = sd_ve (view d).
Proof. unfold ntc_ntb_link_update. destruct (Bool.eqb _ _) eqn:E; [|done]. by apply eqb_prop in E. Qed.

Lemma quiesce_post e d d' :
  jinv d → sd_ve (view d) = e → nd_link_state d = 0 → ntc_ntb_quiesce d = Some d' → case_post e Fall d'.
Proof.
  intros Hj He Hs. unfold ntc_ntb_quiesce. destruct (ctx_quiesce _) as [c|] eqn:Hc; [|done]. intros [= <-].
  destruct (update_post false d Hj (rest_zero d Hs) ltac:(done)) as [Hj1 _].
  destruct (update_down_fields d) as (U1 & U2 & U3). set (d1 := ntc_ntb_link_update false d) in *.
  split.
  - apply (jinv_low 1 c d1 _ Hj1); [lia|lia|done|by eapply cl_quiesce_wf; [apply jinv_wf|exact Hc]|lia|lia|apply unheard_refl].
  - change NTC_NTB_LINK_RESET with 1.
    destruct (set_state_fields 1 (nd_set_client c d1) ltac:(lia)) as [-> _]. by rewrite <- He, <- U3.
Qed.

Lemma reset_post e d d' :
  jinv d → nd_link_state d = 1 → ntc_ntb_reset d = Some d' → case_post e (Out false) d'.
Proof.
  intros Hj Hs. unfold ntc_ntb_reset. destruct (ctx_reset _) as [c|] eqn:Hc; [|done]. intros [= <-].
  assert (cl_fresh (NtcClientOk := Ox) c) as Hf by (by eapply cl_reset_fresh; [apply jinv_wf|exact Hc]).
  match goal with |- case_post _ _ (ntc_ntb_link_set_state _ ?x) => set (d1 := x) end.
  apply post_out.
  - apply (jinv_low 2 c d); try done; try lia; [by apply jinv_up_low; [|lia]|by apply cl_fresh_wf].
  - destruct (set_state_fields 2 d1 ltac:(lia)) as [_ E]. unfold rested. cbn [sd_s view].
    change NTC_NTB_LINK_ENABLED with 2. rewrite E. split; lia.
Qed.

Lemma enabled_post e hw d d' :
  jinv d → sd_ve (view d) = e → nd_link_state d = 2 → ntc_ntb_enabled hw d = Some d' →
  case_post e (if negb (nd_link_state d' =? 3) then Out false else Fall) d'.
Proof.
  intros Hj He Hs Hen. destruct (enabled_cases (CLy := CLy) y0 hw d d' Hen) as [Hsame|(d1 & H1 & H2)].
  - pose proof (jinv_same Ox Oy y0 _ _ Hsame Hj) as Hj'.
    assert (nd_link_state d' = 2) as -> by (change (sd_s (view d') = 2); by rewrite (proj1 Hsame)).
    apply post_out; [done|]. unfold rested. rewrite (proj1 Hsame). cbn. rewrite Hs. split; lia.
  - destruct (set_state_fields 3 d1 ltac:(lia)) as [F1 F2].
    assert (nd_link_state d' = 3) as ->.
    { change (sd_s (view d') = 3). rewrite (proj1 H2). exact F2. }
    split.
    + eapply jinv_same; [exact H2|].
      apply (jinv_low 3 (nd_client d) d); [done|lia|lia|apply jinv_up_low; [done|lia]|by apply jinv_wf|..];
        try (intros _; apply jinv_fresh; [done|lia]).
      destruct H1 as [V1 V2]. split; [by rewrite V1|by rewrite V2].
    + rewrite (proj1 H2), F1, (proj1 H1). exact He.
Qed.

Lemma hello_post e d r d' :
  jinv d → sd_ve (view d) = e → 8 <= nd_link_state d → hello_case e d = Some (r, d') → case_post e r d'.
Proof.
  intros Hj He Hs. unfold hello_case. cbv zeta.
  destruct (ntc_ntb_done_hello d) eqn:Hdone; cbn [negb].
  - destruct (Z.eqb_spec (e - nd_link_state d) 0).
    + intros [= <- <-]. split; [done|]. split; [apply rest_heard; [done|lia|lia]|]. intros _.
      destruct Hj as [((_ & _ & _ & L4 & _) & _ & _ & _ & _ & (A1 & _) & _) _].
      split; [apply L4; [cbn; lia|]|].
      * unfold ntc_ntb_done_hello in Hdone. cbn. lia.
      * destruct (A1 ltac:(cbn; lia)) as [Hv _]. destruct (Hv ltac:(lia)) as [Hle|]; [left; lia|by right].
    + destruct (Z.eqb_spec (e - nd_link_state d) (-1)); intros [= <- <-].
      * apply post_out; [done|]. apply rest_heard; [done|lia|lia].
      * apply post_error; [done|lia|by left].
  - destruct (Z.eqb_spec (e - nd_link_state d) (-1)).
    { intros [= <- <-]. apply post_out; [done|]. apply rest_heard; [done|lia|lia]. }
    destruct (_ || _) eqn:Hev; [|intros [= <- <-]; apply post_error; [done|lia|by right]].
    destruct (try_hello d) as [[err d1]|] eqn:Ht; [|done]. intros [= <- <-].
    destruct (try_hello_post d err d1 Hj ltac:(lia) ltac:(lia) Ht) as (Hj1 & He1 & Hcase).
    destruct Hcase as [[Hneg Hz]|[-> Hs1]].
    + destruct (Z.ltb_spec err 0); [|lia]. split; [done|]. by apply rest_zero.
    + split; [done|]. cbv beta iota. by rewrite He1.
Qed.

(** What a case that waits for the peer does when it goes on. *)
Definition next_post (e a : Z) d1 : Prop :=
  jinv d1 ∧ sd_ve (view d1) = e ∧ (nd_link_state d1 = a + 1 ∨ nd_link_state d1 = a ∨ nd_link_state d1 = 0).

Lemma next_error e a d d2 :
  jinv d → sd_ve (view d) = e → 1 < nd_link_state d → same (CLy := CLy) y0 d d2 → next_post e a (ntc_ntb_error d2).
Proof.
  intros Hj He Hs H2. pose proof (jinv_same Ox Oy y0 _ _ H2 Hj) as Hj2. destruct (error_fields d2) as [E1 E2].
  split; [by apply jinv_error|]. split; [by rewrite E1, (proj1 H2)|]. right; right. apply E2.
  change (1 < sd_s (view d2)). by rewrite (proj1 H2).
Qed.

Lemma next_advance e a dn d d1 :
  jinv d → sd_ve (view d) = e → nd_link_state d = a → 3 <= a <= 6 → e = a ∨ e = a + 1 →
  (5 <= a + 1 → dn ≠ 1) → same (CLy := CLy) y0 (nd_set_done dn d) d1 →
  next_post e a (ntc_ntb_link_set_state (a + 1) d1).
Proof.
  intros Hj He <- Ha Hev Hdn H1. destruct (set_state_fields (nd_link_state d + 1) d1 ltac:(lia)) as [F1 F2].
  split; [apply (jinv_advance dn); try done; lia|]. split; [|by left].
  rewrite F1, (proj1 H1). exact He.
Qed.

(** A side in the middle of the exchange is not done with the hello. *)
Lemma jinv_not_done d : jinv d → 5 <= nd_link_state d <= 7 → nd_self_info_done d ≠ 1.
Proof.
  intros [((_ & _ & _ & L4 & _) & _) _] Hs H1. pose proof (@cl_last_ok _ _ _ _ Ox).
  assert (sd_s (view d) = 8 + last) as E8 by (apply L4; [cbn; lia|exact H1]). cbn in E8. lia.
Qed.

Lemma choose_next e hw d d1 :
  jinv d → sd_ve (view d) = e → nd_link_state d = 4 → e = 4 ∨ e = 5 →
  ntc_ntb_choose_version_and_send_addr hw d = Some d1 → next_post e 4 d1.
Proof.
  intros Hj He Hs Hev Hch.
  destruct (choose_cases (CLy := CLy) y0 hw d d1 Hch) as (d2 & H2 & [-> | ->]).
  - apply (next_error e 4 d); [done|done|lia|done].
  - apply (next_advance e 4 0 d); [done|done|done|lia|lia|done|]. destruct H2 as [H2 H3]. split; [|exact H3].
    change (sd_set_dn 0 (view d2) = sd_set_dn 0 (view d)). by rewrite H2.
Qed.

Lemma db_next e hw d rc d2 :
  jinv d → sd_ve (view d) = e → nd_link_state d = 5 → e = 5 ∨ e = 6 →
  ntc_ntb_db_config_and_recv_addr hw d = (rc, d2) →
  next_post e 5 (if negb (rc =? 0) then ntc_ntb_error d2 else d2).
Proof.
  intros Hj He Hs Hev Hcfg.
  destruct (db_config_cases (CLy := CLy) y0 hw d rc d2 Hcfg) as [H2|(-> & d3 & H3 & ->)].
  - destruct (negb (rc =? 0)); [apply (next_error e 5 d); [done|done|lia|done]|].
    split; [by eapply jinv_same|]. split; [by rewrite (proj1 H2)|]. right; left.
    change (sd_s (view d2) = 5). by rewrite (proj1 H2).
  - apply (next_advance e 5 (nd_self_info_done d) d); [done|done|done|lia|lia| |exact H3].
    intros _. apply jinv_not_done; [done|lia].
Qed.

Lemma commit_next e d :
  jinv d → sd_ve (view d) = e → nd_link_state d = 6 → e = 6 ∨ e = 7 → next_post e 6 (ntc_ntb_link_commit d).
Proof.
  intros Hj He Hs Hev. apply (next_advance e 6 (nd_self_info_done d) d); [done|done|done|lia|lia| |done].
  intros _. apply jinv_not_done; [done|lia].
Qed.

Lemma begin_next e d err d2 :
  jinv d → sd_ve (view d) = e → nd_link_state d = 7 → e = 7 ∨ e = 8 →
  try_hello d = Some (err, d2) → next_post e 7 d2.
Proof.
  intros Hj He Hs Hev Ht. destruct (try_hello_post d err d2 Hj ltac:(lia) ltac:(lia) Ht) as (Hj1 & He1 & Hcase).
  split; [done|]. split; [congruence|]. destruct Hcase as [[_ ?]|[_ ?]]; [by right; right|left; lia].
Qed.

Lemma start_post e d r d' :
  jinv d → sd_ve (view d) = e → nd_link_state d = 3 →
  (if (e =? 3) || (e =? 4)
   then let d := ntc_ntb_send_version d in Some (if negb (nd_link_state d =? 4) then Out false else Fall, d)
   else Some (Out false, d)) = Some (r, d') → case_post e r d'.
Proof.
  intros Hj He Hs. destruct (_ || _) eqn:Hev.
  - destruct (send_version_case (CLy := CLy) y0 d) as (d1 & H1 & ->).
    destruct (set_state_fields 4 d1 ltac:(lia)) as [F1 F2]. cbv zeta. rewrite F2. intros [= <- <-].
    destruct (next_advance e 3 (nd_self_info_done d) d d1) as (Hj1 & He1 & _);
      [done|done|done|lia|lia|lia|exact H1|]. by split.
  - intros [= <- <-]. apply post_out; [done|]. unfold rested. cbn. split; lia.
Qed.

Lemma case_keeps e hw d r d' :
  jinv d → sd_ve (view d) = e → link_case hw e d = Some (r, d') → case_post e r d'.
Proof.
  intros Hj He. pose proof (jinv_range d Hj) as Hrg. unfold link_case.
  unfold NTC_NTB_LINK_QUIESCE, NTC_NTB_LINK_RESET, NTC_NTB_LINK_ENABLED, NTC_NTB_LINK_START,
    NTC_NTB_LINK_VER_SENT, NTC_NTB_LINK_VER_CHOSEN, NTC_NTB_LINK_DB_CONFIGURED, NTC_NTB_LINK_COMMITTED.
  destruct (Z.eqb_spec (nd_link_state d) 0) as [Hs|].
  { destruct (ntc_ntb_quiesce d) as [d1|] eqn:Hq; [|done]. intros [= <- <-]. by eapply quiesce_post. }
  destruct (Z.eqb_spec (nd_link_state d) 1) as [Hs|].
  { destruct (ntc_ntb_reset d) as [d1|] eqn:Hq; [|done]. intros [= <- <-]. by eapply reset_post. }
  destruct (Z.eqb_spec (nd_link_state d) 2) as [Hs|].
  { destruct (ntc_ntb_enabled hw d) as [d1|] eqn:Hq; [|done]. intros [= <- <-]. by eapply enabled_post. }
  destruct (Z.eqb_spec (nd_link_state d) 3) as [Hs|]; [by apply start_post|].
  destruct (Z.eqb_spec (nd_link_state d) 4) as [Hs|].
  { rewrite Hs. apply sync_post; [done..|lia|]. intros d1 Hd Hev. by eapply choose_next. }
  destruct (Z.eqb_spec (nd_link_state d) 5) as [Hs|].
  { rewrite Hs. apply sync_post; [done..|lia|]. intros d1 Hd Hev.
    destruct (ntc_ntb_db_config_and_recv_addr hw d) as [rc d2] eqn:Hcfg. injection Hd as <-. by eapply db_next. }
  destruct (Z.eqb_spec (nd_link_state d) 6) as [Hs|].
  { rewrite Hs. apply sync_post; [done..|lia|]. intros d1 [= <-] Hev. by apply commit_next. }
  destruct (Z.eqb_spec (nd_link_state d) 7) as [Hs|].
  { rewrite Hs. apply sync_post; [done..|lia|]. intros d1 Hd Hev.
    destruct (try_hello d) as [[err d2]|] eqn:Ht; [|done]. injection Hd as <-. by eapply begin_next. }
  apply hello_post; [done|done|lia].
Qed.

Lemma cases_keep fuel e hw d d' :
  jinv d → sd_ve (view d) = e → link_cases fuel hw e d = Some d' → jinv d' ∧ rested (view d').
Proof.
  revert d. induction fuel as [|fuel IH]; intros d Hj He; cbn [link_cases]; [done|].
  destruct (link_case hw e d) as [[r d1]|] eqn:Hc; [|done].
  destruct (case_keeps e hw d r d1 Hj He Hc) as [Hj1 Hr]. destruct r as [|up|].
  - by apply IH.
  - intros [= <-]. destruct Hr. by apply update_post.
  - by intros [= <-].
Qed.

End Run.

(** ** The other steps *)

Section Others.
Context {C B : Type} {last : Z} {CLx CLy : NtcClient C B} (Ox : NtcClientOk CLx last) (Oy : NtcClientOk CLy last).
Context `{K : Kernel}.
Implicit Types x y : side C.
#[local] Existing Instance CLx.

Lemma inv_sym x y : rested x → inv Ox Oy x y → inv Oy Ox y x.
Proof.
  intros Hr [Hn (D1 & D2 & D3 & D4 & D5)]. split; [by apply numbers_sym|]. split_and!; try done.
  intros H1 H2 H3. apply session_sym, D5; tauto.
Qed.

Lemma inv_hear t x y : inv Ox Oy x y → t = 0 ∨ t = sd_s x → inv Ox Oy x (sd_hear t x y).
Proof.
  intros [(Lx & Ly & Hr & Txy & Tyx & Axy & Ayx) Hd] Ht. unfold sd_hear. destruct (sd_run x); [|done].
  split; [|exact Hd]. refine (conj Lx (conj Ly (conj Hr (conj Txy (conj _ (conj Axy _)))))).
  - destruct Ht; [by left|by right; left].
  - apply ahead_hear; [done|]. left. destruct Lx. lia.
Qed.

Lemma inv_poll run ve x y :
  inv Ox Oy x y → (ve = 0 ∨ run = true ∧ ve = sd_m x) → (run = false ∨ sd_m y = 0 ∨ sd_m y = sd_s x) →
  inv Ox Oy (sd_set_poll run ve x) y.
Proof.
  intros [((L1 & L2 & L3 & L4 & L5) & Ly & Hr & Txy & Tyx & (A1 & A2 & A3) & Ayx) (D1 & D2 & D3 & D4 & D5)] Hv Hm.
  assert (7 <= sd_s y → stuck x → stuck (sd_set_poll run ve x)) as Hst.
  { intros Hy [|Hx]; [by left|]. right. cbn. split; [lia|].
    destruct Hv as [|[_ ->]]; [lia|]. destruct Txy as [|[|Hn]]; [lia|lia|]. destruct Hr as [_ Hr]. specialize (Hr Hn). lia. }
  split.
  - refine (conj _ (conj Ly (conj Hr (conj Txy (conj _ (conj _ _)))))).
    + unfold local. cbn. split_and!; try done; try lia. destruct Hv as [|[-> _]]; done.
    + destruct Hm as [->|[|]]; [by right; right|by left|by right; left].
    + refine (conj _ (conj A2 A3)). cbn. intros H7. split; [|apply A1; lia].
      intros H8. destruct Hv as [->|[_ ->]]; [lia|]. by apply A1.
    + destruct (decide (7 <= sd_s y)) as [H7|H7]; [|unfold ahead; cbn; split_and!; intros; lia].
      eapply ahead_mono; [exact Ayx|by apply Hst|left; cbn; lia].
  - split_and!; try done. intros H8 H1 H2. apply D5; [exact H8| |exact H2].
    intros Hx. apply H1. destruct (decide (7 <= sd_s y)); [by apply Hst|].
    destruct H8; [|lia]. exfalso. cbn in *. unfold stuck in Hx. lia.
Qed.

Lemma inv_pm x y :
  inv Ox Oy x y → inv Ox Oy (mk_side (sd_s x) (sd_up x) (sd_run x) 0 (sd_ve x) (sd_m x) (sd_dn x) (sd_c x)) y.
Proof.
  intros [((L1 & L2 & L3 & L4 & L5) & Hn) Hd]. split; [|exact Hd]. refine (conj _ Hn).
  unfold local. cbn. split_and!; try done; try lia.
Qed.

Lemma pm_range (d y : ntc_ntb_dev C B) : inv Ox Oy (view d) (view y) → 0 <= pg_msg (nd_ping d) < 2 ^ 16.
Proof.
  intros [((L1 & L2 & _) & _) _]. pose proof (@cl_last_ok _ _ _ _ Ox). cbn in *. lia.
Qed.

(** What a step of a device does to it and to the peer. *)
Lemma step_keeps (d d' y : ntc_ntb_dev C B) :
  inv Ox Oy (view d) (view y) → rested (view d) → nd_out d = [] → side_step (CL := CLx) d d' →
  inv Ox Oy (view d') (view (receive_all (CL := CLy) (nd_out d') y)) ∧ rested (view d').
Proof.
  intros Hi Hr Hout Hstep. pose proof (pm_range d y Hi) as Hpm.
  assert (∀ d1, nd_out d1 = [] → heard (CLy := CLy) y d1 = y) as H0 by (intros d1 H1; unfold heard; by rewrite H1).
  change (receive_all (CL := CLy) (nd_out d') y) with (heard (CLy := CLy) y d').
  assert (sd_pm (view d) = 0 ∨ sd_pm (view d) = sd_s (view d)) as Hpm' by (destruct Hi as [((_ & ? & _) & _) _]; tauto).
  assert (jinv Ox Oy y d) as Hj by (unfold jinv; by rewrite H0).
  destruct Hstep as [hw d d' Hw Hrun|d|d|wait d|rc d|rc d|d].
  - unfold ntc_ntb_link_work in Hrun. destruct (ntc_ntb_link_get_event hw (nd_set_work false d)) as [e d1] eqn:He.
    destruct (get_event_moves (CLy := CLy) y hw (nd_set_work false d) e d1 Hpm He) as [Hev Hcase].
    eapply (cases_keep Ox Oy y); [|symmetry; exact Hev|exact Hrun].
    change (view (heard (CLy := CLy) y (nd_set_work false d))) with (view (heard (CLy := CLy) y d)) in Hcase.
    unfold jinv in *.
    destruct Hcase as [[-> ->]|[[-> ->]|(Hoff & -> & ->)]]; [done| |].
    + apply inv_poll; [done|by left|by left].
    + change (sd_run (view d) = false) in Hoff. cbn [sd_pm view]. 
      match goal with |- inv _ _ (sd_set_poll true 0 ?v) _ => change v with (view d) end.
      assert (inv Ox Oy (view d) (sd_set_m (sd_pm (view d)) (view (heard (CLy := CLy) y d)))) as Hj2.
      { destruct Hj as [(Lx & Ly & Hr2 & Txy & Tyx & Axy & Ayx) Hd]. split; [|exact Hd].
        refine (conj Lx (conj Ly (conj Hr2 (conj Txy (conj _ (conj Axy _)))))); [by right; right|].
        apply ahead_hear; [done|]. left. destruct Lx. lia. }
      apply inv_poll; [exact Hj2|by left|by right].
  - destruct (pong_moves (CLy := CLy) y d Hpm) as [-> ->]. split; [|done]. by apply inv_hear.
  - destruct (poll_cb_moves d) as [Hv Ho]. rewrite H0 by congruence.
    destruct Hv as [-> | (ve & Hve & ->)]; [done|]. split; [|exact Hr].
    apply inv_poll; [done|destruct Hve as [|[? ?]]; [by left|by right]|].
    destruct Hi as [(_ & _ & _ & _ & [|[|]] & _) _]; [by right; left|by right; right|by left].
  - unfold ntc_link_reset_begin. cbn [snd]. destruct (_ <? _) eqn:Hs; [|done].
    split; [by apply (jinv_error Ox Oy y)|]. apply rest_zero.
    apply (error_fields (CLy := CLy) y d). unfold NTC_NTB_LINK_ENABLED in Hs. lia.
  - unfold ntc_link_disable. cbn [snd]. destruct (nd_link_is_up d); [|done].
    destruct (send_moves (CLy := CLy) y 0 d ltac:(lia)) as [V1 V2].
    change (view (nd_set_enabled false (ntc_ntb_ping_send NTC_NTB_LINK_QUIESCE d))) with (view (ntc_ntb_ping_send 0 d)).
    change (view (heard (CLy := CLy) y (nd_set_enabled false (ntc_ntb_ping_send NTC_NTB_LINK_QUIESCE d))))
      with (view (heard (CLy := CLy) y (ntc_ntb_ping_send 0 d))).
    rewrite V1, V2. split; [|exact Hr]. apply (inv_pm (view d)), inv_hear; [done|by left].
  - done.
  - done.
Qed.

Lemma receive_all_out ws (y : ntc_ntb_dev C B) : nd_out (receive_all (CL := CLx) ws y) = nd_out y.
Proof.
  unfold receive_all. revert y. induction ws as [|w ws IH]; intros y; cbn; [done|]. rewrite IH. by destruct w.
Qed.

End Others.

(** ** The theorems on the system *)

Section System.
Context {C B : Type} {last : Z} {CLa CLb : NtcClient C B} (Oa : NtcClientOk CLa last) (Ob : NtcClientOk CLb last).
Context `{K : Kernel}.

Definition net_inv (n : net C B) : Prop :=
  inv Oa Ob (view (nt_a n)) (view (nt_b n)) ∧ rested (view (nt_a n)) ∧ nd_out (nt_a n) = [] ∧ nd_out (nt_b n) = [].

Lemma net_step_inv n n' : net_step (CLa := CLa) (CLb := CLb) n n' → net_inv n → net_inv n'.
Proof.
  intros Hs (Hi & Hr & Ha & Hb). destruct Hs as [a a' b Hs|a b b' Hs]; cbn [nt_a nt_b] in *.
  - destruct (step_keeps Oa Ob a a' b Hi Hr Ha Hs) as [Hi' Hr'].
    split_and!; [exact Hi'|exact Hr'|done|by cbn; rewrite receive_all_out].
  - assert (rested (view b)) as Hrb by apply Hi.
    destruct (step_keeps Ob Oa b b' a (inv_sym Oa Ob _ _ Hr Hi) Hrb Hb Hs) as [Hi' Hr'].
    pose proof (inv_sym Ob Oa _ _ Hr' Hi') as Hi2.
    split_and!; [exact Hi2|apply Hi'|by cbn; rewrite receive_all_out|done].
Qed.

(** The devices after their initialisation; the memory for the peer is clear. *)
Definition net_init (n : net C B) : Prop :=
  ∃ wa pa ia ca wb pb ib cb,
    n = mk_net (dev_init_link wa pa ia ca) (dev_init_link wb pb ib cb)
    ∧ cl_fresh (NtcClientOk := Oa) ca ∧ cl_fresh (NtcClientOk := Ob) cb ∧ ni_ping ia = 0 ∧ ni_ping ib = 0.

Lemma net_init_inv n : net_init n → net_inv n.
Proof.
  intros (wa & pa & ia & ca & wb & pb & ib & cb & -> & Ha & Hb & Hpa & Hpb).
  unfold net_inv, view, dev_init_link. cbn. rewrite Hpa, Hpb.
  change (ntc_ntb_ping_msg 0) with 0. unfold NTC_NTB_LINK_ENABLED. pose proof (@cl_last_ok _ _ _ _ Oa) as Hl.
  split_and!; try done; unfold inv, numbers, local, rested, told, ahead, drivers, stuck; cbn.
  split_and!; try done; try lia; try (by left); eauto using cl_fresh_wf.

Qed.

Lemma net_reachable_inv n n' : net_init n → rtc (net_step (CLa := CLa) (CLb := CLb)) n n' → net_inv n'.
Proof. intros H0 Hr. apply net_init_inv in H0. induction Hr; eauto using net_step_inv. Qed.

(** C4: the drivers above never meet a peer from another session. Whatever the
    two sides went through - restarts, timeouts, failures of every call, links
    that go away - whenever both are in their hello or up, they are at most one
    phase apart, and the two drivers have been in one session since both were
    last reset: neither has run a phase before the other had run, and delivered,
    all the earlier ones. *)
Theorem link_sessions_agree n n' :
  net_init n → rtc (net_step (CLa := CLa) (CLb := CLb)) n n' →
  let a := nt_a n' in let b := nt_b n' in
  NTC_NTB_LINK_HELLO <= nd_link_state a → NTC_NTB_LINK_HELLO <= nd_link_state b →
  Z.abs (nd_link_state a - nd_link_state b) <= 1
  ∧ session Oa Ob (nd_client a) (nd_link_state a + 1 - NTC_NTB_LINK_HELLO)
      (nd_client b) (nd_link_state b + 1 - NTC_NTB_LINK_HELLO).
Proof.
  intros H0 Hr a b. unfold NTC_NTB_LINK_HELLO. intros Ha Hb.
  destruct (net_reachable_inv n n' H0 Hr) as ([(_ & _ & _ & _ & _ & (_ & Da & _) & (_ & Db & _)) Hd] & _).
  fold a b in Da, Db, Hd. unfold stuck in Da, Db. cbn in Da, Db. split; [lia|].
  destruct Hd as (_ & _ & _ & _ & Hs). unfold phases, stuck in Hs. cbn in Hs.
  replace (nd_link_state a + 1 - 8) with (Z.max 0 (nd_link_state a - 7)) by lia.
  replace (nd_link_state b + 1 - 8) with (Z.max 0 (nd_link_state b - 7)) by lia.
  apply Hs; lia.
Qed.

(** A side that is up, and has not just failed, has a peer that completed the
    same session, or that has started over since. *)
Lemma up_complete n n' :
  net_init n → rtc (net_step (CLa := CLa) (CLb := CLb)) n n' →
  let a := nt_a n' in let b := nt_b n' in
  nd_link_is_up a = true → nd_link_state a ≠ NTC_NTB_LINK_QUIESCE →
  nd_link_state b < NTC_NTB_LINK_DB_CONFIGURED ∧ (nd_link_is_up b = true → nd_link_state b = NTC_NTB_LINK_QUIESCE)
  ∨ nd_link_state b = nd_link_state a
    ∧ session Oa Ob (nd_client a) (last + 1) (nd_client b) (last + 1).
Proof.
  intros H0 Hr a b Hup Hq. unfold NTC_NTB_LINK_QUIESCE, NTC_NTB_LINK_DB_CONFIGURED in *.
  destruct (net_reachable_inv n n' H0 Hr) as ([(La & Lb & _ & _ & _ & (_ & _ & Ua) & _) Hd] & _).
  fold a b in La, Lb, Ua, Hd. pose proof (@cl_last_ok _ _ _ _ Oa) as Hl.
  destruct La as (_ & _ & La & _). destruct (La Hup) as [|Ea]; [done|]. cbn in Ea.
  destruct Lb as (Rb & _ & Lb & _). cbn in Lb, Rb.
  destruct (decide (nd_link_state b <= 5)) as [H5|H5].
  { left. split; [lia|]. intros Hb. destruct (Lb Hb); lia. }
  right. destruct (Ua Hup ltac:(cbn; lia)) as [Hle|Hst]; [|unfold stuck in Hst; cbn in Hst; lia].
  cbn in Hle. split; [lia|]. destruct Hd as (_ & _ & _ & _ & Hs). unfold phases, stuck in Hs. cbn in Hs.
  replace (Z.max 0 (nd_link_state a - 7)) with (last + 1) in Hs by lia.
  replace (Z.max 0 (nd_link_state b - 7)) with (last + 1) in Hs by lia.
  apply Hs; lia.
Qed.

Lemma both_up_session n n' :
  net_init n → rtc (net_step (CLa := CLa) (CLb := CLb)) n n' →
  let a := nt_a n' in let b := nt_b n' in
  nd_link_is_up a = true → nd_link_is_up b = true →
  nd_link_state a ≠ NTC_NTB_LINK_QUIESCE → nd_link_state b ≠ NTC_NTB_LINK_QUIESCE →
  session Oa Ob (nd_client a) (last + 1) (nd_client b) (last + 1).
Proof.
  intros H0 Hr a b Ha Hb Hqa Hqb. destruct (up_complete n n' H0 Hr Ha Hqa) as [[_ Hz]|[_ Hs]]; [|exact Hs].
  by destruct (Hqb (Hz Hb)).
Qed.

End System.

(** ** Schedules

    A schedule that runs: the work item of a side when it is queued, its poll
    timer, an event of the bridge. *)
Section Schedule.
Context {C B : Type} (CLa CLb : NtcClient C B) `{K : Kernel} (hw : ntb_hw).

Inductive turn := TWork | TPoll | TEvent.

Definition take_turn {CL : NtcClient C B} (t : turn) (d : ntc_ntb_dev C B) : option (ntc_ntb_dev C B) :=
  match t with
  | TWork => if nd_work d then ntc_ntb_link_work hw d else Some (nd_set_enabled true d)
  | TPoll => Some (ntc_ntb_ping_poll_cb d)
  | TEvent => Some (ntc_ntb_link_event d)
  end.

Fixpoint run_schedule (l : list (bool * turn)) (n : net C B) : option (net C B) :=
  match l with
  | [] => Some n
  | (true, t) :: l =>
      match take_turn (CL := CLa) t (nt_a n) with
      | None => None
      | Some a => run_schedule l (mk_net (nd_set_out [] a) (receive_all (CL := CLb) (nd_out a) (nt_b n)))
      end
  | (false, t) :: l =>
      match take_turn (CL := CLb) t (nt_b n) with
      | None => None
      | Some b => run_schedule l (mk_net (receive_all (CL := CLa) (nd_out b) (nt_a n)) (nd_set_out [] b))
      end
  end.

Lemma turn_step {CL : NtcClient C B} t d d' : take_turn (CL := CL) t d = Some d' → side_step (CL := CL) d d'.
Proof.
  destruct t; cbn.
  - destruct (nd_work d) eqn:Hw; [by apply st_work|]. intros [= <-]. exact (st_enable 0 d).
  - intros [= <-]. apply st_poll.
  - intros [= <-]. apply st_event.
Qed.

Lemma schedule_steps l n n' : run_schedule l n = Some n' → rtc (net_step (CLa := CLa) (CLb := CLb)) n n'.
Proof.
  revert n. induction l as [|[[] t] l IH]; intros [a b]; cbn [run_schedule nt_a nt_b]; [intros [= <-]; apply rtc_refl|..].
  - destruct (take_turn t a) as [a'|] eqn:Ht; [|done]. apply turn_step in Ht. intros H.
    eapply rtc_l; [by apply net_a|by apply IH].
  - destruct (take_turn t b) as [b'|] eqn:Ht; [|done]. apply turn_step in Ht. intros H.
    eapply rtc_l; [by apply net_b|by apply IH].
Qed.

(** Both sides poll and run, in turn. *)
Definition rounds (n : nat) : list (bool * turn) :=
  [(true, TEvent); (false, TEvent)]
    ++ concat (replicate n [(true, TWork); (false, TWork); (true, TPoll); (false, TPoll)]).

(** Both sides are up, and neither has just failed. *)
Definition came_up (n : net C B) : bool :=
  nd_link_is_up (nt_a n) && nd_link_is_up (nt_b n)
  && negb (nd_link_state (nt_a n) =? 0) && negb (nd_link_state (nt_b n) =? 0).

Lemma came_up_iff (n : net C B) :
  came_up n = true → nd_link_is_up (nt_a n) = true ∧ nd_link_is_up (nt_b n) = true
    ∧ nd_link_state (nt_a n) ≠ NTC_NTB_LINK_QUIESCE ∧ nd_link_state (nt_b n) ≠ NTC_NTB_LINK_QUIESCE.
Proof.
  unfold came_up, NTC_NTB_LINK_QUIESCE. intros H. apply andb_true_iff in H as [H Hb]. apply andb_true_iff in H as [H Ha].
  apply andb_true_iff in H as [H1 H2]. split_and!; try done; lia.
Qed.

Lemma schedule_comes_up l n :
  from_option came_up false (run_schedule l n) = true →
  ∃ n', rtc (net_step (CLa := CLa) (CLb := CLb)) n n' ∧ came_up n' = true.
Proof.
  destruct (run_schedule l n) as [n'|] eqn:Hr; [|done]. intros H. exists n'. split; [by eapply schedule_steps|exact H].
Qed.

End Schedule.

#[local] Existing Instance kernel_good.

#[refine, local] Instance demo_client_ok : NtcClientOk demo_client 1 := {| cl_wf _ := True; cl_fresh _ := True |}.
Proof.
  all: try done.
  intros p c r b c' [= <- _ _]. unfold EINVAL. destruct (Z.eqb_spec p 1); [lia|]. destruct (Z.ltb_spec p 1); lia.
Defined.

Definition demo_net := mk_net demo_side demo_side.

(** In the middle of the hello, B ahead of A. *)
Lemma demo_meets :
  ∃ n, rtc (net_step (CLa := demo_client) (CLb := demo_client)) demo_net n
    ∧ nd_link_state (nt_a n) = 8 ∧ nd_link_state (nt_b n) = 9.
Proof.
  assert (∀ l n, run_schedule demo_client demo_client demo_hw l demo_net = Some n →
    rtc (net_step (CLa := demo_client) (CLb := demo_client)) demo_net n) as Hs by (intros l n; apply schedule_steps).
  eexists. split.
  - apply (Hs (rounds 7)). vm_compute. reflexivity.
  - split; reflexivity.
Qed.

Lemma link_sessions_agree_witness :
  ∃ n, rtc (net_step (CLa := demo_client) (CLb := demo_client)) demo_net n
    ∧ nd_link_state (nt_a n) = 8 ∧ nd_link_state (nt_b n) = 9
    ∧ session demo_client_ok demo_client_ok (nd_client (nt_a n)) 1 (nd_client (nt_b n)) 2.
Proof.
  destruct demo_meets as (n & Hr & Ha & Hb). exists n. split; [exact Hr|]. split; [exact Ha|]. split; [exact Hb|].
  assert (net_init demo_client_ok demo_client_ok demo_net) as H0 by (do 8 eexists; split; [reflexivity|done]).
  assert (NTC_NTB_LINK_HELLO <= nd_link_state (nt_a n)) as Ha8 by (rewrite Ha; unfold NTC_NTB_LINK_HELLO; lia).
  assert (NTC_NTB_LINK_HELLO <= nd_link_state (nt_b n)) as Hb8 by (rewrite Hb; unfold NTC_NTB_LINK_HELLO; lia).
  destruct (link_sessions_agree demo_client_ok demo_client_ok demo_net n H0 Hr Ha8 Hb8) as [_ Hs].
  rewrite Ha, Hb in Hs. exact Hs.
Defined.

End LinkNet.
