(* ===== verification/LinkHello.v ===== *)
(** * The driver above the link, on the link (ntrdma_dev.c)

    The hello of [Hello] as a driver of the state machine of [Link]: whatever
    restarts, timeouts and failures came before, two devices whose links are up
    have just completed one exchange with each other, from rings that were idle,
    so that both directions of the command channel start in the state from which
    the theorems of [CmdRing] hold.

    What the driver does by itself once it is enabled is not part of this
    system. *)

From stdpp Require Import gmap.
From S2P Require Import Prelude Kernel Ring Ntc Mm Buf Vbell CmdRing Hello Win Qp Link LinkNet.
Import Ntc Mm Buf Vbell CmdRing Hello Win Qp Link LinkNet.

Module LinkHello.

(** The parts of the driver that have no share in the rings: the Ethernet device
    and the resources. *)
Class DevParts (P : Type) := {
  ntrdma_dev_eth_enable : P → P;
  ntrdma_dev_eth_disable : P → P;
  ntrdma_dev_eth_quiesce : P → P;
  ntrdma_dev_eth_reset : P → P;
  ntrdma_dev_res_enable : P → Z * P;
  ntrdma_dev_res_disable : P → P;
  ntrdma_dev_rres_reset : P → P }.

Record ntrdma_dev {C R P : Type} := mk_dev { dv_hello : hello_dev C R; dv_parts : P }.
Arguments ntrdma_dev : clear implicits.
Arguments mk_dev {C R P}.

Section Client.
Context `{K : Kernel} {C R P : Type} `{DP : !DevParts P} (zero_cmd : C) (zero_rsp : R) (ntc : ntc_dev).
Implicit Type d : ntrdma_dev C R P.

Definition dv_set_hello (h : hello_dev C R) d : ntrdma_dev C R P := mk_dev h (dv_parts d).
Definition dv_set_parts (p : P) d : ntrdma_dev C R P := mk_dev (dv_hello d) p.

Definition hd_set_ready (f : ntrdma_dev_cmd_send C R → ntrdma_dev_cmd_recv C R → ntrdma_dev_cmd_send C R * ntrdma_dev_cmd_recv C R)
    (h : hello_dev C R) : hello_dev C R :=
  let '(s, r) := f (cd_send (hd_cmd h)) (cd_recv (hd_cmd h)) in hd_set_cmd (cd_set_rings s r (hd_cmd h)) (hd_mem h) h.

Definition ntrdma_dev_enable d : Z * ntrdma_dev C R P :=
  let d := dv_set_parts (ntrdma_dev_eth_enable (dv_parts d)) d in
  let d := dv_set_hello (hd_set_ready ntrdma_dev_cmd_enable (dv_hello d)) d in
  let '(rc, p) := ntrdma_dev_res_enable (dv_parts d) in
  (rc, dv_set_parts p d).

Definition ntrdma_dev_disable d : ntrdma_dev C R P :=
  let d := dv_set_hello (hd_set_ready ntrdma_dev_cmd_disable (dv_hello d)) d in
  dv_set_parts (ntrdma_dev_eth_disable (dv_parts d)) d.

Definition ntrdma_dev_quiesce d : option (ntrdma_dev C R P) :=
  match ntrdma_dev_vbell_disable (hd_vbell (dv_hello d)) with
  | None => None
  | Some vb =>
      let d := dv_set_hello (hd_set_vbell vb (dv_hello d)) d in
      let d := dv_set_parts (ntrdma_dev_eth_quiesce (dv_parts d)) d in
      let d := dv_set_parts (ntrdma_dev_res_disable (dv_parts d)) d in
      let h := dv_hello d in
      let s := fst (ntrdma_dev_cmd_quiesce (cd_send (hd_cmd h))) in
      Some (dv_set_hello (hd_set_cmd (cd_set_rings s (cd_recv (hd_cmd h)) (hd_cmd h)) (hd_mem h) h) d)
  end.

(** [ntrdma_dev_vbell_reset] does nothing. *)
Definition ntrdma_dev_reset d : option (ntrdma_dev C R P) :=
  let d := dv_set_parts (ntrdma_dev_eth_reset (dv_parts d)) d in
  let d := dv_set_parts (ntrdma_dev_rres_reset (dv_parts d)) d in
  match ntrdma_dev_cmd_reset ntc (hd_cmd (dv_hello d)) (hd_mem (dv_hello d)) with
  | None => None
  | Some (c, w) => Some (dv_set_hello (hd_set_cmd c w (dv_hello d)) d)
  end.

Definition ntrdma_ntc_hello (phase : Z) d : option (Z * hello_msg * ntrdma_dev C R P) :=
  match ntrdma_dev_hello zero_cmd zero_rsp ntc phase (dv_hello d) with
  | None => None
  | Some (rc, m, h) => Some (rc, m, dv_set_hello h d)
  end.

Definition ntrdma_ntc_ctx_ops : NtcClient (ntrdma_dev C R P) hello_msg := {|
  ctx_hello := ntrdma_ntc_hello;
  ctx_recv phase m d := dv_set_hello (hello_receive phase m (dv_hello d)) d;
  ctx_enable := ntrdma_dev_enable;
  ctx_disable := ntrdma_dev_disable;
  ctx_quiesce := ntrdma_dev_quiesce;
  ctx_reset := ntrdma_dev_reset |}.

(** ** It keeps what the link expects *)

Definition cmd_wf (c : cmd_dev C R) : Prop := cmd_quiet c ∧ (is_cmd_prep c = false → cmd_idle c).
Definition driver_wf (h : hello_dev C R) : Prop := cmd_wf (hd_cmd h).

Lemma idle_wf (h : hello_dev C R) : cmd_idle (hd_cmd h) → driver_wf h.
Proof. intros H. split; [by destruct H|done]. Qed.

(** The parts of the rings that the predicates are about. *)
Lemma quiet_ext (c c' : cmd_dev C R) :
  cmd_quiet c → cs_cap (cd_send c') = cs_cap (cd_send c) → cs_buf (cd_send c') = cs_buf (cd_send c) →
  cs_rsp_buf (cd_send c') = cs_rsp_buf (cd_send c) → cs_pend (cd_send c') = [] → cs_post (cd_send c') = [] →
  cs_cbs (cd_send c') = cs_cbs (cd_send c) → cd_rsp_buf c' = cd_rsp_buf c → cmd_quiet c'.
Proof. intros [] E1 E2 E3 E4 E5 E6 E7. constructor; rewrite ?E1, ?E2, ?E3, ?E6, ?E7; done. Qed.

Lemma idle_ext (c c' : cmd_dev C R) :
  cmd_idle c → cmd_quiet c' → cs_prod (cd_send c') = cs_prod (cd_send c) → cs_cmpl (cd_send c') = cs_cmpl (cd_send c) →
  cs_cons (cd_send c') = cs_cons (cd_send c) → cmd_idle c'.
Proof. intros [] Hq E1 E2 E3. constructor; rewrite ?E1, ?E2, ?E3; done. Qed.

Lemma ready_wf f (d : hello_dev C R) :
  f = ntrdma_dev_cmd_enable ∨ f = ntrdma_dev_cmd_disable → driver_wf d → driver_wf (hd_set_ready f d).
Proof.
  intros Hf [Hq Hi].
  assert (cmd_quiet (hd_cmd (hd_set_ready f d))) as Hq'.
  { destruct Hf as [-> | ->]; (eapply quiet_ext; [exact Hq|try done..]); by destruct Hq. }
  split; [exact Hq'|]. intros Hp.
  assert (cmd_idle (hd_cmd d)) as Hd by (apply Hi; by destruct Hf as [-> | ->]).
  destruct Hf as [-> | ->]; (eapply idle_ext; [exact Hd|exact Hq'|done..]).
Qed.

Lemma enable_wf d : driver_wf (dv_hello d) → driver_wf (dv_hello (snd (ntrdma_dev_enable d))).
Proof.
  intros H. unfold ntrdma_dev_enable. cbv zeta. destruct (ntrdma_dev_res_enable _).
  by apply (ready_wf ntrdma_dev_cmd_enable (dv_hello d)); [left|].
Qed.

Lemma quiesce_wf d d' : driver_wf (dv_hello d) → ntrdma_dev_quiesce d = Some d' → driver_wf (dv_hello d').
Proof.
  intros [Hq Hi]. unfold ntrdma_dev_quiesce. destruct (ntrdma_dev_vbell_disable _); [|done]. intros [= <-].
  cbn [dv_hello dv_set_hello dv_set_parts hd_cmd hd_set_vbell hd_set_cmd hd_mem].
  assert (cs_cbs (fst (ntrdma_dev_cmd_quiesce (cd_send (hd_cmd (dv_hello d))))) = cs_cbs (cd_send (hd_cmd (dv_hello d)))) as Hcbs.
  { unfold ntrdma_dev_cmd_quiesce. cbn. by rewrite (cq_pend _ Hq), (cq_post _ Hq). }
  match goal with |- driver_wf ?x => set (d1 := x) end.
  assert (cmd_quiet (hd_cmd d1)) as Hq1 by (eapply quiet_ext; [exact Hq|try done..]).
  split; [exact Hq1|]. intros Hp. eapply idle_ext; [by apply Hi|exact Hq1|done..].
Qed.

Lemma reset_idle d d' : driver_wf (dv_hello d) → ntrdma_dev_reset d = Some d' → cmd_idle (hd_cmd (dv_hello d')).
Proof.
  intros [Hq Hi]. unfold ntrdma_dev_reset. cbn [dv_hello dv_set_parts].
  destruct (ntrdma_dev_cmd_reset _ _ _) as [[c w]|] eqn:Hr; [|done]. intros [= <-]. cbn.
  destruct (is_cmd_prep (hd_cmd (dv_hello d))) eqn:Hp; [by apply (cmd_reset_then_idle ntc _ _ _ _ Hq Hp Hr)|].
  specialize (Hi eq_refl). revert Hr. unfold ntrdma_dev_cmd_reset, cmd_hello_unprep, cmd_hello_undone.
  destruct (is_cmd_hello_done (hd_cmd (dv_hello d))); cbn [negb]; cbn; rewrite Hp; cbn; intros [= <- _]; [|done].
  eapply idle_ext; [exact Hi| |done..]. by eapply quiet_ext; [exact Hq|try done..]; destruct Hq.
Qed.

Lemma undo_wf (c : cmd_dev C R) : cmd_quiet c → cmd_wf (cmd_prep_undo c).
Proof. intros H. apply undo_idle in H. split; [by destruct H|done]. Qed.

Lemma prep_wf info (c : cmd_dev C R) w rc c' w' :
  cmd_wf c → cmd_hello_prep zero_cmd zero_rsp ntc info c w = Some (rc, c', w') → cmd_wf c'.
Proof.
  intros [Hq Hi]. assert (∀ rb r p, cmd_wf (cd_set_recv_bufs rb r p c)) as Hb.
  { intros. split; [by destruct Hq|]. intros Hp. by apply idle_frame, Hi. }
  unfold cmd_hello_prep. destruct (_ || _); [by intros [= _ <- _]|]. destruct (_ <? _); [by intros [= _ <- _]|].
  destruct (ntc_remote_buf_map _ _) as [r peer]. destruct (_ <? _); [intros [= _ <- _]; apply Hb|].
  destruct (_ntc_export_buf_zalloc _ _ _) as [[[r1 buf] w1]|]; [|done].
  destruct (_ <? _); [intros [= _ <- _]; apply undo_wf; by destruct Hq|].
  destruct (ntc_local_buf_zalloc _ _) as [[r2 rsp] w2]. destruct (_ <? _).
  { destruct (ntc_export_buf_free _ _ _) as [[b2 w3]|]; [|done].
    intros [= _ <- _]. apply undo_wf. by destruct Hq. }
  intros [= _ <- _]. split; [by destruct Hq|]. done.
Qed.

Lemma done_wf prep (c : cmd_dev C R) rc c' :
  cmd_wf c → ntrdma_dev_cmd_hello_done ntc prep c = (rc, c') → cmd_wf c'.
Proof.
  intros [Hq Hi]. unfold ntrdma_dev_cmd_hello_done. destruct (ntc_remote_buf_map _ _) as [r peer].
  destruct (_ <? _); intros [= _ <-]; (split; [by destruct Hq|]); intros Hp; destruct (Hi Hp); by destruct Hq.
Qed.

Lemma hello_wf p (d : hello_dev C R) r m (d' : hello_dev C R) :
  driver_wf d → ntrdma_dev_hello zero_cmd zero_rsp ntc p d = Some (r, m, d') → driver_wf d'.
Proof.
  intros Hd. unfold ntrdma_dev_hello. cbv zeta.
  destruct (p =? 0); [unfold ntrdma_dev_hello_phase0; case_match; by intros [= _ _ <-]|].
  destruct (p =? 1).
  { unfold ntrdma_dev_hello_phase1. cbv zeta. intros H. repeat case_match; simplify_eq; exact Hd. }
  destruct (p =? 2).
  { unfold ntrdma_dev_hello_phase2. destruct (_ || _); [by intros [= _ _ <-]|].
    destruct (if Z.odd p then _ else _) as [|?|inm|?]; try done.
    repeat (match goal with |- (if ?b then Some (_, _, _) else _) = _ → _ => destruct b; [by intros [= _ _ <-]|] end).
    destruct (ntrdma_dev_vbell_enable _ _ _ _) as [[rc vb]|]; [|done].
    cbv zeta. destruct (negb _); [by intros [= _ _ <-]|].
    unfold ntrdma_dev_cmd_hello_prep. cbn [hd_cmd hd_mem hd_set_vbell].
    destruct (cmd_hello_prep _ _ _ _ _ _) as [[[rcp c] w]|] eqn:Hp; [|done].
    apply prep_wf in Hp; [|done]. destruct (negb _); by intros [= _ _ <-]. }
  destruct (p =? 3); [|by intros [= _ _ <-]].
  unfold ntrdma_dev_hello_phase3. destruct (_ <? _); [by intros [= _ _ <-]|].
  destruct (if Z.odd p then _ else _) as [|?|?|inm]; try done.
  destruct (_ || _); [by intros [= _ _ <-]|]. destruct (ntrdma_dev_cmd_hello_done _ _ _) as [rc c] eqn:Hc.
  apply done_wf in Hc; [|done]. cbv zeta. destruct (negb _); by intros [= _ _ <-].
Qed.

(** Three phases go on, the fourth is the last. *)
Lemma hello_end p (d : hello_dev C R) r m (d' : hello_dev C R) :
  ntrdma_dev_hello zero_cmd zero_rsp ntc p d = Some (r, m, d') → 0 <= r → p <= 3 ∧ (r = 1 ↔ p = 3).
Proof.
  unfold ntrdma_dev_hello, NOT_DONE, DONE. cbv zeta.
  destruct (Z.eqb_spec p 0) as [->|]; [|destruct (Z.eqb_spec p 1) as [->|];
    [|destruct (Z.eqb_spec p 2) as [->|]; [|destruct (Z.eqb_spec p 3) as [->|]]]].
  - unfold ntrdma_dev_hello_phase0, NOT_DONE. case_match; intros [= <- _ _]; unfold EINVAL; lia.
  - unfold ntrdma_dev_hello_phase1, NOT_DONE. cbv zeta. intros H. repeat case_match; simplify_eq; unfold EINVAL; lia.
  - unfold ntrdma_dev_hello_phase2, NOT_DONE. cbv zeta. intros H Hr.
    enough (r <> 1) by lia. intros ->. repeat case_match; simplify_eq.
    + match goal with H : ntrdma_dev_vbell_enable _ _ _ _ = _ |- _ => apply vbell_enable_rc in H end. lia.
    + unfold ntrdma_dev_cmd_hello_prep in *. repeat case_match; simplify_eq.
      match goal with H : cmd_hello_prep _ _ _ _ _ _ = _ |- _ => apply cmd_hello_prep_rc in H end. lia.
  - unfold ntrdma_dev_hello_phase3, DONE. cbv zeta. intros H Hr. repeat case_match; simplify_eq; unfold EINVAL in *; try lia.
    match goal with H : ntrdma_dev_cmd_hello_done _ _ _ = _ |- _ => apply cmd_hello_done_rc in H end. lia.
  - intros [= <- _ _]. unfold EINVAL. lia.
Qed.

Lemma receive_cmd p m (d : hello_dev C R) : hd_cmd (hello_receive p m d) = hd_cmd d.
Proof. by destruct m. Qed.

Lemma ntc_hello_inv p d r m d' :
  ctx_hello (NtcClient := ntrdma_ntc_ctx_ops) p d = Some (r, m, d') →
  ∃ h, ntrdma_dev_hello zero_cmd zero_rsp ntc p (dv_hello d) = Some (r, m, h) ∧ d' = dv_set_hello h d.
Proof.
  cbn. unfold ntrdma_ntc_hello. destruct (ntrdma_dev_hello _ _ _ _ _) as [[[rc m'] h]|]; [|done].
  intros [= -> -> <-]. by exists h.
Qed.

(** The driver as the link's client. *)
#[refine, local] Instance driver_ok : NtcClientOk ntrdma_ntc_ctx_ops 3 := {|
  cl_wf d := driver_wf (dv_hello d);
  cl_fresh d := cmd_idle (hd_cmd (dv_hello d)) |}.
Proof.
  - lia.
  - intros p d r m d' (h & Hh & _)%ntc_hello_inv. by eapply hello_end.
  - intros p d r m d' Hd (h & Hh & ->)%ntc_hello_inv. cbn. by eapply hello_wf.
  - intros p m d H. unfold driver_wf. cbn. by rewrite receive_cmd.
  - intros d. apply enable_wf.
  - intros d. apply (ready_wf ntrdma_dev_cmd_disable (dv_hello d)). by right.
  - intros d d'. apply quiesce_wf.
  - intros d d'. apply reset_idle.
  - intros d. apply idle_wf.
  - intros p m d H. cbn. by rewrite receive_cmd.
Defined.

End Client.
(** ** Two drivers on a link *)

Section Joined.
Context `{K : Kernel} `{KO : !KernelOk K} {C R P : Type} (zero_cmd : C) (zero_rsp : R) (ntc_a ntc_b : ntc_dev).
Context (parts_a parts_b : DevParts P).

Abbreviation ops_a := (ntrdma_ntc_ctx_ops (DP := parts_a) zero_cmd zero_rsp ntc_a).
Abbreviation ops_b := (ntrdma_ntc_ctx_ops (DP := parts_b) zero_cmd zero_rsp ntc_b).
Abbreviation ok_a := (driver_ok (DP := parts_a) zero_cmd zero_rsp ntc_a).
Abbreviation ok_b := (driver_ok (DP := parts_b) zero_cmd zero_rsp ntc_b).
Abbreviation hello_step := (hello_step zero_cmd zero_rsp ntc_a ntc_b).

(** Equal up to whether the rings are enabled. *)
Definition ready_eq (d e : hello_dev C R) : Prop :=
  hd_version d = hd_version e
  ∧ (∃ b, cd_send (hd_cmd d) = cs_set_ready b (cd_send (hd_cmd e)))
  ∧ (∃ b, cd_recv (hd_cmd d) = cr_set_ready b (cd_recv (hd_cmd e))).

Lemma ready_eq_refl (d : hello_dev C R) : ready_eq d d.
Proof.
  split; [done|]. split; [exists (cs_ready (cd_send (hd_cmd d)))|exists (cr_ready (cd_recv (hd_cmd d)))].
  - by destruct (cd_send (hd_cmd d)).
  - by destruct (cd_recv (hd_cmd d)).
Qed.

Lemma ready_eq_set f (d e : hello_dev C R) :
  f = ntrdma_dev_cmd_enable ∨ f = ntrdma_dev_cmd_disable → ready_eq d e → ready_eq (hd_set_ready f d) e.
Proof.
  intros Hf (Hv & (b1 & H1) & (b2 & H2)).
  destruct Hf as [-> | ->]; (split; [exact Hv|]); cbn; rewrite H1, H2; (split; eexists; done).
Qed.

Lemma ready_eq_enable (DP : DevParts P) (x : ntrdma_dev C R P) e :
  ready_eq (dv_hello x) e → ready_eq (dv_hello (snd (ntrdma_dev_enable (DP := DP) x))) e.
Proof.
  intros H. unfold ntrdma_dev_enable. cbv zeta. destruct (ntrdma_dev_res_enable _).
  by apply (ready_eq_set ntrdma_dev_cmd_enable (dv_hello x)); [left|].
Qed.

Definition exchanged (x : ntrdma_dev C R P) (nx : Z) (y : ntrdma_dev C R P) (ny : Z) : Prop :=
  0 <= nx <= 4 ∧ 0 <= ny <= 4
  ∧ ∃ a0 b0 x' y', cmd_idle (hd_cmd a0) ∧ cmd_idle (hd_cmd b0)
      ∧ rtc hello_step (mk_exchange a0 0 b0 0) (mk_exchange x' (Z.to_nat nx) y' (Z.to_nat ny))
      ∧ (dv_hello x = x' ∧ dv_hello y = y' ∨ nx = 4 ∧ ny = 4 ∧ ready_eq (dv_hello x) x' ∧ ready_eq (dv_hello y) y').

Lemma toggle x y x1 y1 nx ny :
  nx = 3 + 1 → ny = 3 + 1 → exchanged x nx y ny →
  (∀ x' y', ready_eq (dv_hello x) x' ∧ ready_eq (dv_hello y) y' → ready_eq (dv_hello x1) x' ∧ ready_eq (dv_hello y1) y') → exchanged x1 nx y1 ny.
Proof.
  intros -> -> (H1 & H2 & a0 & b0 & x' & y' & Ha & Hb & Hr & Heq) Ht.
  split; [exact H1|]. split; [exact H2|]. exists a0, b0, x', y'. split_and!; [done..|].
  assert (ready_eq (dv_hello x) x' ∧ ready_eq (dv_hello y) y') as Hxy.
  { destruct Heq as [[-> ->]|(_ & _ & ? & ?)]; [split; apply ready_eq_refl|by split]. }
  right. split; [done|]. split; [done|]. by apply Ht.
Qed.

(** A session on the link is an exchange of [Hello]; the rings are enabled and
    disabled only after it. *)
Lemma session_exchange x nx y ny :
  session ok_a ok_b x nx y ny → exchanged x nx y ny.
Proof.
  induction 1 as [x y Hx Hy|x nx y ny r m x' Hs IH Hle Hh Hr|x nx y ny r m y' Hs IH Hle Hh Hr
    |x nx y ny Hs IH Hnx Hny|x nx y ny Hs IH Hnx Hny|x nx y ny Hs IH Hnx Hny|x nx y ny Hs IH Hnx Hny].
  - split; [lia|]. split; [lia|]. exists (dv_hello x), (dv_hello y), (dv_hello x), (dv_hello y). split_and!; [done|done|apply rtc_refl|by left].
  - destruct IH as (Hnx & Hny & a0 & b0 & x0 & y0 & Ha & Hb & Hr0 & Heq).
    apply ntc_hello_inv in Hh as (h & Hh & ->). destruct (hello_end _ _ _ _ _ _ _ _ Hh Hr) as [Hp _].
    destruct Heq as [[<- <-]|(? & _)]; [|lia]. split; [lia|]. split; [lia|].
    exists a0, b0, h, (hello_receive nx m (dv_hello y)). split_and!; [done|done| |by left].
    eapply rtc_r; [exact Hr0|]. replace (Z.to_nat (nx + 1)) with (S (Z.to_nat nx)) by lia.
    replace nx with (Z.of_nat (Z.to_nat nx)) at 3 by lia.
    eapply step_a; [lia|lia| |exact Hr]. by rewrite Z2Nat.id by lia.
  - destruct IH as (Hnx & Hny & a0 & b0 & x0 & y0 & Ha & Hb & Hr0 & Heq).
    apply ntc_hello_inv in Hh as (h & Hh & ->). destruct (hello_end _ _ _ _ _ _ _ _ Hh Hr) as [Hp _].
    destruct Heq as [[<- <-]|(_ & ? & _)]; [|lia]. split; [lia|]. split; [lia|].
    exists a0, b0, (hello_receive ny m (dv_hello x)), h. split_and!; [done|done| |by left].
    eapply rtc_r; [exact Hr0|]. replace (Z.to_nat (ny + 1)) with (S (Z.to_nat ny)) by lia.
    replace ny with (Z.of_nat (Z.to_nat ny)) at 2 by lia.
    eapply step_b; [lia|lia| |exact Hr]. by rewrite Z2Nat.id by lia.
  - apply (toggle x y); [exact Hnx|exact Hny|exact IH|]. intros x' y' [H1 H2]. split; [|exact H2].
    apply ready_eq_enable, H1.
  - apply (toggle x y); [exact Hnx|exact Hny|exact IH|]. intros x' y' [H1 H2]. split; [exact H1|].
    apply ready_eq_enable, H2.
  - apply (toggle x y); [exact Hnx|exact Hny|exact IH|]. intros x' y' [H1 H2]. split; [|exact H2].
    apply ready_eq_set; [by right|exact H1].
  - apply (toggle x y); [exact Hnx|exact Hny|exact IH|]. intros x' y' [H1 H2]. split; [exact H1|].
    apply ready_eq_set; [by right|exact H2].
Qed.

(** The channel from the sender of [d] to the receiver of [e], at its start. *)
Definition opened {X Y} (x : X) (y : Y) (d e : hello_dev C R) : Prop :=
  ch_init (mk_channel (cd_send (hd_cmd d)) x (cd_recv (hd_cmd e)) y [] [] []).


End Joined.

(** *** Two devices that come up *)

#[local] Existing Instance kernel_good.

Definition demo_parts : DevParts unit := {|
  ntrdma_dev_eth_enable u := u; ntrdma_dev_eth_disable u := u; ntrdma_dev_eth_quiesce u := u; ntrdma_dev_eth_reset u := u;
  ntrdma_dev_res_enable u := (0, u); ntrdma_dev_res_disable u := u; ntrdma_dev_rres_reset u := u |}.

Definition demo_ops : NtcClient (ntrdma_dev (Z * Z) (Z * Z) unit) hello_msg :=
  ntrdma_ntc_ctx_ops (DP := demo_parts) (0, 0) (0, 0) demo_ntc.

Definition demo_side : ntc_ntb_dev (ntrdma_dev (Z * Z) (Z * Z) unit) hello_msg :=
  dev_init_link (demo_wins (mk_own_mw 65536 65536 8192 0 0 0) (mk_own_mw 0 0 0 0 0 1)) (peer_mws demo_ntc) demo_info (mk_dev demo_dev tt).

Definition demo_net := mk_net demo_side demo_side.

Lemma demo_run_up : from_option came_up false (run_schedule demo_ops demo_ops demo_hw (rounds 12) demo_net) = true.
Proof. vm_compute. reflexivity. Qed.

Lemma demo_comes_up :
  ∃ n, rtc (net_step (CLa := demo_ops) (CLb := demo_ops)) demo_net n ∧ came_up n = true.
Proof. exact (schedule_comes_up demo_ops demo_ops demo_hw (rounds 12) demo_net demo_run_up). Qed.

Abbreviation demo_ok := (driver_ok (DP := demo_parts) (0, 0) (0, 0) demo_ntc).

Lemma demo_net_init : net_init demo_ok demo_ok demo_net.
Proof.
  do 8 eexists. split; [reflexivity|]. split; [exact demo_idle|]. split; [exact demo_idle|]. split; reflexivity.
Qed.


End LinkHello.
