(* ===== verification/LinkInit.v ===== *)
(** * Setting up a device, and what the sides tell each other of their windows
      (ntc_ntb_msi.c, the rest)

    The parameters of the module, the windows and the peer's windows of a new
    device, and how a failure undoes what was done; the DMA channels; and the
    exchange of the windows' dead zones and lengths, by which the addresses that
    [Ntc] computes for the peer's memory reach it. *)

From stdpp Require Import gmap.
From S2P Require Import Prelude Kernel Ntc Wr Mm Win Qp Link LinkNet.
Import Ntc Wr Mm Win Qp Link LinkNet.

Module LinkInit.

Definition NTC_CTX_BUF_SIZE : Z := 1024.
Definition E820_TYPE_RAM : Z := 1.
Definition E820_TYPE_RESERVED : Z := 2.
Definition NTC_DEFAULT_DMA_CHANS : Z := 8.
Definition NTC_MAX_DMA_CHANS : Z := 8.
Definition mw0_min_mm_len : Z := 0x100000.

Definition l_mw_info : list (Z * Z) := [f_u64; f_u64].
Definition l_ntc_ntb_info : list (Z * Z) :=
  [f_struct (replicate 33 f_u32); f_u32; f_u32; f_u32]
    ++ replicate (Z.to_nat NTC_MAX_NUM_MWS) (f_struct l_mw_info) ++ [(NTC_CTX_BUF_SIZE, 1)].
Definition sizeof_ntc_ntb_info : Z := struct_size l_ntc_ntb_info.

(** ** The parameters *)

Record params := mk_params { p_base_addr : Z; p_len : Z; p_mm_len : Z }.

(** [e820] is the memory map of the machine: whether any of the range has the
    type; [last] is the last type, [E820_TYPE_RESERVED_KERN]. *)
Definition ntc_check_reserved (e820 : Z → Z → Z → bool) (last start stop : Z) : bool :=
  if start =? 0 then false
  else if stop <=? start then false
  else if negb (Z.land start (PAGE_SIZE - 1) =? 0) then false
  else if negb (Z.land stop (PAGE_SIZE - 1) =? 0) then false
  else
    forallb (λ i : nat,
      let t := E820_TYPE_RAM + Z.of_nat i in
      if e820 start stop t then t =? E820_TYPE_RESERVED else negb (t =? E820_TYPE_RESERVED))
      (seq 0 (Z.to_nat (last + 1 - E820_TYPE_RAM))).

Definition wd_set_reserved (r : bool) (d : own_mw_data) : own_mw_data :=
  mk_mw_data (wd_base_addr d) (wd_len d) (wd_addr_align d) (wd_size_align d) (wd_size_max d) (wd_mm_len d)
    (wd_mm_prealloc d) (wd_coherent d) r (wd_reserved_used d) (wd_coherent_used d) (wd_mm_inited d).

Definition ntc_own_mw_data_check_reserved (cmadevs_set : bool) (e820 : Z → Z → Z → bool) (last : Z) (d : own_mw_data)
  : own_mw_data :=
  wd_set_reserved
    (cmadevs_set || ntc_check_reserved e820 last (wd_base_addr d) (u64 (wd_base_addr d + wd_len d))) d.

(** The parameters as [ntc_init] corrects them, in a kernel without
    CONFIG_CMADEVS: the window of the state machine and the other one, from
    zeroed memory. *)
Definition ntc_init_windows (e820 : Z → Z → Z → bool) (last : Z) (mw0 mw1 : params) : own_mw_data * own_mw_data :=
  let mm0 := p_mm_len mw0 in
  let mm0 := if mm0 =? 0 then p_len mw0 else mm0 in
  let mm0 := if mm0 =? 0 then sizeof_ntc_ntb_info else mm0 in
  let mm0 := if mm0 <? mw0_min_mm_len then mw0_min_mm_len else mm0 in
  let len0 := if p_len mw0 =? 0 then mm0 else p_len mw0 in
  let data base len mm prealloc := mk_mw_data base len 0 0 0 mm prealloc (0, 0, 0) false false false false in
  (ntc_own_mw_data_check_reserved false e820 last
     (data (p_base_addr mw0) len0 mm0 (if negb (mm0 =? 0) then sizeof_ntc_ntb_info else 0)),
   ntc_own_mw_data_check_reserved false e820 last (data (p_base_addr mw1) (p_len mw1) (p_mm_len mw1) 0)).

Definition ntc_init_num_dma_chan (num_dma_chan : Z) : Z :=
  let n := if s32 num_dma_chan <=? 0 then NTC_DEFAULT_DMA_CHANS else num_dma_chan in
  if NTC_MAX_DMA_CHANS <? n then NTC_MAX_DMA_CHANS else n.

(** ** The DMA channels *)

(** The array of channels. *)
Definition ntc_init_dma : list (option nat) := replicate (Z.to_nat NTC_MAX_DMA_CHANS) None.

(** The loop: [got] are the answers to the requests that are left; [None] is a
    write outside the array. *)
Fixpoint request_loop (got : list (option nat)) (j : nat) (chans : list (option nat)) : option (nat * list (option nat)) :=
  match got with
  | [] => Some (j, chans)
  | dma :: got =>
      if (j <? length chans)%nat then request_loop got (match dma with Some _ => S j | None => j end) (<[j := dma]> chans) else None
  end.

Definition ntc_request_dma (got : list (option nat)) (chans : list (option nat)) : option (bool * list (option nat)) :=
  match chans with
  | Some _ :: _ => Some (true, chans)
  | _ =>
      match request_loop got 0 chans with
      | None => None
      | Some (j, chans) => Some ((0 <? j)%nat, chans)
      end
  end.

(** The channels that are released, and the array. *)
Fixpoint ntc_release_dma (chans : list (option nat)) : list nat * list (option nat) :=
  match chans with
  | [] => ([], [])
  | None :: chans => ([], None :: chans)
  | Some dma :: chans => let '(r, chans) := ntc_release_dma chans in (dma :: r, None :: chans)
  end.

(** ** A device *)

Section Init.
Context {C B : Type} `{K : Kernel}.

(** What the bridge and the kernel answer while a device is set up. *)
Record init_answers := mk_init_answers {
  ia_mw_count : Z;
  ia_mw : Z → mw_answers;
  ia_mem : Z → Z → Z;
  ia_peer : Z → Z * Z;
  ia_ioremap : Z → Z;
  ia_set_ctx : Z }.

(** The windows, own and peer's, by their index. *)
Record wins := mk_wins { ws_info : own_win; ws_dram : own_win; ws_pinfo : ntc_peer_mw; ws_pdram : ntc_peer_mw }.

Definition unwind (cm : bool) (own_dram own_info peer_dram peer_info : bool) (s : wins) : wins :=
  mk_wins
    (if own_info then ntc_ntb_deinit_own cm (ws_info s) else ws_info s)
    (if own_dram then ntc_ntb_deinit_own cm (ws_dram s) else ws_dram s)
    (if peer_info then ntc_ntb_deinit_peer (ws_pinfo s) else ws_pinfo s)
    (if peer_dram then ntc_ntb_deinit_peer (ws_pdram s) else ws_pdram s).

Definition ntc_ntb_dev_init (cm : bool) (a : init_answers) (info : ntc_ntb_info) (c : C) (s : wins)
  : Z * wins * option (ntc_ntb_dev C B) :=
  if ia_mw_count a <=? 0 then (- EINVAL, s, None)
  else if ia_mw_count a <? 2 then (- EINVAL, s, None)
  else
    let '(rc, dram) := ntc_ntb_init_own cm NTC_DRAM_MW_IDX (ia_mw a NTC_DRAM_MW_IDX) (ia_mem a NTC_DRAM_MW_IDX) (ws_dram s) in
    let s := mk_wins (ws_info s) dram (ws_pinfo s) (ws_pdram s) in
    if rc <? 0 then (rc, s, None)
    else
      let '(rc, own) := ntc_ntb_init_own cm NTC_INFO_MW_IDX (ia_mw a NTC_INFO_MW_IDX) (ia_mem a NTC_INFO_MW_IDX) (ws_info s) in
      let s := mk_wins own (ws_dram s) (ws_pinfo s) (ws_pdram s) in
      if rc <? 0 then (rc, unwind cm true false false false s, None)
      else
        let '(rc, pdram, _) :=
          ntc_ntb_init_peer NTC_DRAM_MW_IDX 0 (ia_peer a NTC_DRAM_MW_IDX) (ia_ioremap a NTC_DRAM_MW_IDX) (ws_pdram s) in
        let s := mk_wins (ws_info s) (ws_dram s) (ws_pinfo s) pdram in
        if rc <? 0 then (rc, unwind cm true true false false s, None)
        else
          let '(rc, pinfo, _) :=
            ntc_ntb_init_peer NTC_INFO_MW_IDX sizeof_ntc_ntb_info (ia_peer a NTC_INFO_MW_IDX)
              (ia_ioremap a NTC_INFO_MW_IDX) (ws_pinfo s) in
          let s := mk_wins (ws_info s) (ws_dram s) pinfo (ws_pdram s) in
          if rc <? 0 then (rc, unwind cm true true true false s, None)
          else
            let d := dev_init_link [ws_info s; ws_dram s] [ws_pinfo s; ws_pdram s] info c in
            let rc := ia_set_ctx a in
            if negb (rc =? 0) then (rc, unwind cm true true true true s, None) else (0, s, Some d).

(** The work item is cancelled and the bridge told to disable the link. *)
Definition ntc_ntb_dev_deinit (cm : bool) (d : ntc_ntb_dev C B) : ntc_ntb_dev C B :=
  let d := nd_set_work false (ntc_ntb_ping_stop (nd_set_enabled false d)) in
  nd_set_wins (ntc_ntb_deinit_own cm <$> nd_wins d) (nd_set_peer (ntc_ntb_deinit_peer <$> nd_peer_mws d) (nd_irq d) d).

End Init.

(** ** The windows, as the peer sees them *)

Section Exchange.
Context {C B : Type} (CLy : NtcClient C B) `{K : Kernel}.

Lemma set_state_out (t : Z) (d : ntc_ntb_dev C B) :
  ∃ l, nd_out (ntc_ntb_link_set_state t d) = nd_out d ++ l ∧ (l = [] ∨ ∃ v, l = [WPing v])
    ∧ nd_wins (ntc_ntb_link_set_state t d) = nd_wins d.
Proof.
  unfold ntc_ntb_link_set_state, ntc_ntb_ping_send, ntc_ntb_ping_pong. case_match.
  - exists []. rewrite app_nil_r. split_and!; [done|by left|done].
  - eexists. split_and!; [reflexivity|right; by eexists|done].
Qed.

(** A side that has chosen the version has set up its second window, and told
    the peer of both. *)
Lemma chosen_writes hw (x x' : ntc_ntb_dev C B) w0 w1 :
  nd_wins x = [w0; w1] → nd_out x = [] → nd_link_state x = NTC_NTB_LINK_VER_SENT →
  ntc_ntb_choose_version_and_send_addr hw x = Some x' → nd_link_state x' = NTC_NTB_LINK_VER_CHOSEN →
  ∃ w1' m l, set_memory_windows_on_device (hw_mw hw NTC_DRAM_MW_IDX) w1 = (0, w1') ∧ nd_wins x' = [w0; w1']
    ∧ nd_out x' = [WDeadZone 0 (om_dead_zone_size (wn_mw w0)); WTransLen 0 (om_trans_len (wn_mw w0));
                   WDeadZone 1 (om_dead_zone_size (wn_mw w1')); WTransLen 1 (om_trans_len (wn_mw w1'));
                   WMagic m; WDone 0] ++ l
    ∧ (l = [] ∨ ∃ v, l = [WPing v]).
Proof.
  intros Hw Ho Hs. unfold ntc_ntb_choose_version_and_send_addr, NTC_NTB_LINK_VER_CHOSEN, NTC_NTB_LINK_VER_SENT in *.
  assert (∀ d : ntc_ntb_dev C B, nd_link_state d = 4 → nd_link_state (ntc_ntb_error d) ≠ 5) as Herr.
  { intros d Hd. rewrite state_error; [done|]. rewrite Hd. done. }
  destruct (_ <? _); [intros [= <-] H5; by destruct (Herr x Hs)|]. cbv zeta.
  destruct (_ =? NTC_NTB_VERSION_NONE); [intros [= <-] H5; by destruct (Herr (nd_set_versions _ _ x) Hs H5)|].
  assert (∀ v l, set_memory_window hw NTC_DRAM_MW_IDX (nd_set_versions v l x)
    = let '(rc, w) := set_memory_windows_on_device (hw_mw hw NTC_DRAM_MW_IDX) w1 in
      Some (rc, nd_set_wins [w0; w] (nd_set_versions v l x))) as Hset_eq.
  { intros v l. unfold set_memory_window.
    assert (nd_wins (nd_set_versions v l x) = [w0; w1]) as -> by exact Hw. reflexivity. }
  rewrite Hset_eq. destruct (set_memory_windows_on_device _ w1) as [rc w1'] eqn:Hset.
  cbv beta iota. destruct (Z.eqb_spec rc 0) as [->|]; cbn [negb].
  2: { intros H. injection H as <-. intros H5. by destruct (Herr (nd_set_wins _ (nd_set_versions _ _ x)) Hs H5). }
  intros H _. injection H as <-. set (x1 := nd_set_done 0 _). destruct (set_state_out 5 x1) as (l & Hl & Hcase & Hwins).
  rewrite Hl, Hwins. exists w1', (ntc_ntb_version_magic (ntc_ntb_version_matching ntc_ntb_version (ni_versions (nd_info x)))), l.
  split; [done|]. split; [done|]. split; [|exact Hcase].
  match goal with |- nd_out x1 ++ l = [?a; ?b; ?c; ?d; ?e; ?f] ++ l =>
    change (nd_out x1) with ((((((nd_out x ++ [a]) ++ [b]) ++ [c]) ++ [d]) ++ [e]) ++ [f]) end.
  by rewrite Ho.
Qed.

(** What the peer has in its memory after it received them. *)
Lemma received_windows (y : ntc_ntb_dev C B) d0 t0 d1 t1 m l i0 i1 :
  ni_mw_info (nd_info y) = [i0; i1] → l = [] ∨ (∃ v, l = [WPing v]) →
  let y' := receive_all (CL := CLy) ([WDeadZone 0 d0; WTransLen 0 t0; WDeadZone 1 d1; WTransLen 1 t1; WMagic m; WDone 0] ++ l) y in
  ni_mw_info (nd_info y') = [(d0, t0); (d1, t1)] ∧ nd_peer_mws y' = nd_peer_mws y.
Proof.
  intros Hi Hl. unfold receive_all. rewrite foldl_app.
  destruct Hl as [->|[v ->]]; cbn; rewrite Hi; done.
Qed.


End Exchange.

(** ** Setting up and tearing down *)

Section Balance.
Context {C B : Type} `{K : Kernel}.

(** What a window holds: a mapping of reserved memory, a coherent buffer. *)
Definition win_holds (cm : bool) (w : own_win) : Z :=
  (if wd_reserved_used (wn_data w) && (negb cm && negb (om_base_ptr (wn_mw w) =? 0)) then 1 else 0)
  + (if wd_coherent_used (wn_data w) then 1 else 0).

(** Nothing: no memory, no allocator, nothing translated. *)
Definition win_clear (h : Z) (w : own_win) : Prop :=
  wn_held w = h ∧ wn_mm w = None ∧ wd_mm_inited (wn_data w) = false ∧ wd_reserved_used (wn_data w) = false
  ∧ wd_coherent_used (wn_data w) = false ∧ wn_trans w = None.

Definition win_ready (cm : bool) (h : Z) (w : own_win) : Prop :=
  wn_held w = h + win_holds cm w ∧ (wd_mm_inited (wn_data w) = false → wn_mm w = None).

Lemma clear_ready cm h w : win_clear h w → win_ready cm h w.
Proof. intros (H1 & H2 & H3 & H4 & H5 & _). unfold win_ready, win_holds. rewrite H4, H5. cbn. split; [lia|done]. Qed.

Lemma deinit_clear cm h w : win_ready cm h w → win_clear h (ntc_ntb_deinit_own cm w).
Proof.
  destruct w as [m d mm t held], d as [? ? ? ? ? ? ? ? res ru cu mi].
  unfold win_ready, win_holds, win_clear, ntc_ntb_deinit_own. cbn.
  intros [Hh Hm]. destruct mi, ru, cu; cbn in *; split_and!; try done; try (by apply Hm);
    destruct (negb cm && negb (om_base_ptr m =? 0)); cbn in *; lia.
Qed.

(** The end of the set-up of a window, with or without an allocator. *)
Lemma init_mm_balance cm h mem w rc w' :
  win_ready cm h w → init_own_mm cm mem w = (rc, w') →
  rc < 0 ∧ win_clear h w' ∨ rc = 0 ∧ win_ready cm h w'.
Proof.
  intros Hw. unfold init_own_mm. cbv zeta. destruct (ntc_mm_init _ _ _) as [mm|]; intros [= <- <-].
  - right. split; [done|]. split; [apply Hw|done].
  - left. split; [done|]. by apply deinit_clear.
Qed.

Lemma reserved_balance cm a h w rc w' :
  win_clear h w → ntc_ntb_init_own_mw_reserved cm a w = (rc, w') →
  rc < 0 ∧ win_ready cm h w'
  ∨ rc = 0 ∧ win_ready cm h (wn_set_data (wd_set_used true (wd_coherent_used (wn_data w')) (wn_data w')) w').
Proof.
  intros (H1 & H2 & H3 & H4 & H5 & H6). unfold ntc_ntb_init_own_mw_reserved. cbv zeta.
  destruct (negb (wd_mm_len (wn_data w) =? 0)).
  - destruct (Z.eqb_spec (an_memremap a) 0) as [E|E]; intros [= <- <-].
    + left. split; [done|]. unfold win_ready, win_holds. cbn. rewrite H4, H5. cbn. split; [lia|done].
    + right. split; [done|]. unfold win_ready, win_holds. cbn. rewrite H5. apply Z.eqb_neq in E. rewrite E.
      cbn. split; [|done]. rewrite H1. by destruct cm.
  - intros [= <- <-]. right. split; [done|]. unfold win_ready, win_holds. cbn. rewrite H5. cbn.
    rewrite andb_false_r. split; [lia|done].
Qed.

Lemma coherent_balance cm a h w rc w' :
  win_clear h w → ntc_ntb_init_own_mw_coherent a w = (rc, w') →
  rc < 0 ∧ win_ready cm h w'
  ∨ rc = 0 ∧ win_ready cm h (wn_set_data (wd_set_used (wd_reserved_used (wn_data w')) true (wn_data w')) w').
Proof.
  intros (H1 & H2 & H3 & H4 & H5 & H6). unfold ntc_ntb_init_own_mw_coherent. cbv zeta.
  assert (∀ w1, wn_held w1 = wn_held w → wn_mm w1 = wn_mm w → wd_reserved_used (wn_data w1) = false →
    wd_coherent_used (wn_data w1) = false → win_ready cm h w1) as Hw.
  { intros w1 E1 E2 E3 E4. unfold win_ready, win_holds. rewrite E3, E4, E1, E2. cbn. split; [lia|done]. }
  destruct (_ =? 0) in |- *; [intros [= <- <-]; left; split; [done|by apply Hw]|].
  destruct (_ =? 0) in |- *; [intros [= <- <-]; left; split; [done|by apply Hw]|].
  destruct (an_kmalloc_max a <? _); [intros [= <- <-]; left; split; [done|by apply Hw]|].
  destruct (an_coherent a) as [[ptr dma]|]; intros [= <- <-]; [right|left; split; [done|by apply Hw]].
  split; [done|]. unfold win_ready, win_holds. cbn. rewrite H4. cbn. split; [lia|done].
Qed.

(** A window is set up, or holds nothing. *)
Lemma init_own_balance cm i a mem h w rc w' :
  win_clear h w → ntc_ntb_init_own cm i a mem w = (rc, w') →
  rc < 0 ∧ win_clear h w' ∨ rc = 0 ∧ win_ready cm h w'.
Proof.
  intros Hw. unfold ntc_ntb_init_own. set (w1 := wn_set_trans None _).
  assert (win_clear h w1) as Hw1 by (destruct Hw as (H1 & H2 & H3 & H4 & H5 & _); by split_and!).
  destruct (_ <? _); [intros [= <- <-]; by left|]. destruct (_ <? _); [intros [= <- <-]; by left|].
  change (wd_reserved (wn_data (wn_set_mw (mw_set_idx i (wn_mw w)) w))) with (wd_reserved (wn_data w)).
  match goal with |- (if ?b then _ else _) = _ → _ => destruct b end.
  - destruct (ntc_ntb_init_own_mw_reserved cm a w1) as [r w2] eqn:Hr.
    destruct (reserved_balance _ _ _ _ _ _ Hw1 Hr) as [[Hneg H2]|[-> H2]].
    + destruct (Z.ltb_spec r 0); [|lia]. intros [= <- <-]. left. split; [done|]. by apply deinit_clear.
    + cbn [Z.ltb Z.compare]. by apply init_mm_balance.
  - destruct (i =? NTC_DRAM_MW_IDX).
    + cbn [ntc_ntb_init_own_mw_flat Z.ltb Z.compare]. apply init_mm_balance.
      destruct (clear_ready cm h w1 Hw1) as [E1 E2]. destruct Hw1 as (_ & _ & _ & E3 & _).
      unfold win_ready, win_holds in *. cbn in *. rewrite ?E3 in *. done.
    + destruct (ntc_ntb_init_own_mw_coherent a w1) as [r w2] eqn:Hr.
      destruct (coherent_balance cm _ _ _ _ _ Hw1 Hr) as [[Hneg H2]|[-> H2]].
      * destruct (Z.ltb_spec r 0); [|lia]. intros [= <- <-]. left. split; [done|]. by apply deinit_clear.
      * cbn [Z.ltb Z.compare]. by apply init_mm_balance.
Qed.

Lemma init_peer_balance i n addr ptr m rc m' z :
  ntc_ntb_init_peer i n addr ptr m = (rc, m', z) → rc < 0 ∧ pm_base_ptr m' = 0 ∨ rc = 0.
Proof.
  unfold ntc_ntb_init_peer. destruct addr as [base size]. destruct (_ || _); [intros [= <- <- _]; by left|].
  destruct (_ =? 0); intros [= <- <- _]; [by left|by right].
Qed.

(** All windows are clear, none of the peer's is mapped. *)
Definition all_clear (h0 h1 : Z) (s : wins) : Prop :=
  win_clear h0 (ws_info s) ∧ win_clear h1 (ws_dram s) ∧ pm_base_ptr (ws_pinfo s) = 0 ∧ pm_base_ptr (ws_pdram s) = 0.

(** C25: setting up a device and tearing it down balance. Whichever step fails -
    the windows, their memory, their allocators, the peer's windows, the
    registration with the bridge - what the steps before it took is given back;
    and a device that was set up, and is taken down, gives everything back. *)
Theorem device_set_up_balanced cm a info (c : C) s rc s' od h0 h1 :
  all_clear h0 h1 s → ntc_ntb_dev_init (B := B) cm a info c s = (rc, s', od) →
  match od with
  | None => rc ≠ 0 ∧ all_clear h0 h1 s'
  | Some d =>
      rc = 0 ∧ nd_link_state d = NTC_NTB_LINK_ENABLED ∧ nd_link_is_up d = false ∧ nd_client d = c
      ∧ ∃ wi wd pi pd, let d' := ntc_ntb_dev_deinit cm d in
          nd_wins d' = [wi; wd] ∧ nd_peer_mws d' = [pi; pd] ∧ nd_work d' = false ∧ pg_run (nd_ping d') = false
          ∧ all_clear h0 h1 (mk_wins wi wd pi pd)
  end.
Proof.
  intros (Hi & Hd & Hpi & Hpd). unfold ntc_ntb_dev_init.
  destruct (_ <=? 0); [intros [= <- <- <-]; by split|]. destruct (_ <? 2); [intros [= <- <- <-]; by split|].
  destruct (ntc_ntb_init_own cm NTC_DRAM_MW_IDX _ _ _) as [r1 dram] eqn:H1. cbv zeta.
  destruct (init_own_balance _ _ _ _ _ _ _ _ Hd H1) as [[Hn Hd1]|[-> Hd1]].
  { destruct (Z.ltb_spec r1 0); [|lia]. intros [= <- <- <-]. split; [lia|by split_and!]. }
  cbn [Z.ltb Z.compare ws_info]. apply deinit_clear in Hd1 as Hd2.
  destruct (ntc_ntb_init_own cm NTC_INFO_MW_IDX _ _ _) as [r2 own] eqn:H2.
  destruct (init_own_balance _ _ _ _ _ _ _ _ Hi H2) as [[Hn Hi1]|[-> Hi1]].
  { destruct (Z.ltb_spec r2 0); [|lia]. intros [= <- <- <-]. split; [lia|by split_and!]. }
  cbn [Z.ltb Z.compare ws_info ws_dram ws_pdram ws_pinfo]. apply deinit_clear in Hi1 as Hi2.
  destruct (ntc_ntb_init_peer NTC_DRAM_MW_IDX _ _ _ _) as [[r3 pdram] z3] eqn:H3.
  destruct (init_peer_balance _ _ _ _ _ _ _ _ H3) as [[Hn Hp3]| ->].
  { destruct (Z.ltb_spec r3 0); [|lia]. intros [= <- <- <-]. split; [lia|by split_and!]. }
  cbn [Z.ltb Z.compare ws_info ws_dram ws_pdram ws_pinfo].
  destruct (ntc_ntb_init_peer NTC_INFO_MW_IDX _ _ _ _) as [[r4 pinfo] z4] eqn:H4.
  destruct (init_peer_balance _ _ _ _ _ _ _ _ H4) as [[Hn Hp4]| ->].
  { destruct (Z.ltb_spec r4 0); [|lia]. intros [= <- <- <-]. split; [lia|by split_and!]. }
  cbn [Z.ltb Z.compare ws_info ws_dram ws_pdram ws_pinfo]. destruct (Z.eqb_spec (ia_set_ctx a) 0); cbn [negb]; intros [= <- <- <-].
  - split_and!; [done..|]. eexists _, _, _, _. split; [reflexivity|]. split; [reflexivity|]. by split_and!.
  - split; [done|by split_and!].
Qed.

End Balance.

(** *** Examples, used by the witnesses *)

#[local] Existing Instance kernel_good.

(** The parameters of a module that reserves the second window; the last thing
    that is needed, the mapping of the peer's first window, fails. *)
Definition demo_params : own_mw_data * own_mw_data :=
  ntc_init_windows (λ _ _ t, t =? 2) 128 (mk_params 0 0 0) (mk_params 0x40000000 0x10000000 0).
Definition demo_new : wins :=
  let m := mk_own_mw 0 0 0 0 0 0 in let p := mk_peer_mw 0 0 0 0 0 0 in
  mk_wins (mk_win m (fst demo_params) None None 0) (mk_win m (snd demo_params) None None 0) p p.
Definition demo_init (ioremap0 : Z) : init_answers :=
  mk_init_answers 2 (λ _, mk_mw_answers 0 4096 0 (2 ^ 40) 0 (2 ^ 22) (Some (2 ^ 44, 2 ^ 30)) (2 ^ 45)) (λ _ _, 0)
    (λ i, (2 ^ 46 + i * 2 ^ 41, 2 ^ 40)) (λ i, if i =? 0 then ioremap0 else 2 ^ 47) 0.

Lemma demo_new_clear : all_clear 0 0 demo_new.
Proof. by vm_compute. Qed.

Lemma device_set_up_balanced_witness :
  all_clear 0 0 demo_new
  ∧ fst (fst (ntc_ntb_dev_init (B := Z) false (demo_init 0) demo_info (0, @nil Z) demo_new)) = - EIO
  ∧ all_clear 0 0 (snd (fst (ntc_ntb_dev_init (B := Z) false (demo_init 0) demo_info (0, @nil Z) demo_new))).
Proof.
  split; [exact demo_new_clear|]. split; [vm_compute; reflexivity|].
  pose proof (device_set_up_balanced (B := Z) false (demo_init 0) demo_info (0, @nil Z) demo_new
    (fst (fst (ntc_ntb_dev_init (B := Z) false (demo_init 0) demo_info (0, @nil Z) demo_new)))
    (snd (fst (ntc_ntb_dev_init (B := Z) false (demo_init 0) demo_info (0, @nil Z) demo_new)))
    (snd (ntc_ntb_dev_init (B := Z) false (demo_init 0) demo_info (0, @nil Z) demo_new))
    0 0 demo_new_clear) as H.
  assert (snd (ntc_ntb_dev_init (B := Z) false (demo_init 0) demo_info (0, @nil Z) demo_new) = None) as Hn
    by (vm_compute; reflexivity).
  rewrite Hn in H. apply H. rewrite <- Hn.
  by destruct (ntc_ntb_dev_init false (demo_init 0) demo_info (0, @nil Z) demo_new) as [[? ?] ?].
Defined.

(** One side has just chosen the version; its second window is the reserved one
    of [Win.demo_win]. *)
Definition demo_chooser : ntc_ntb_dev (Z * list Z) Z :=
  nd_set_info (mk_info (mk_versions 1 [3]) 0 0 0 [(0, 0); (0, 0)])
    (nd_set_state 4 (nd_set_wins [mk_win (mk_own_mw 65536 65536 8192 0 8192 0) (wn_data demo_win) None None 0; demo_win] demo_side)).
Definition demo_bridge : ntb_hw := mk_hw true true (λ _, demo_answers) true 4 (0, 2 ^ 43, 4) 15.


End LinkInit.
