(* ===== verification/Cm.v ===== *)
(** * The iWARP connection manager (ntrdma_cm.c, ntrdma_cm.h)

    Queue pairs are connected by three messages over the command channel: a
    request, a reply, a rejection.  The kernel's connection manager calls the
    driver ([connect], [accept], [reject], [listen]) and is called back through the
    handler of a connection identifier.

    A call that sends a command and waits for the answer is cut where it waits:
    between its two parts other calls and commands run. *)

From stdpp Require Import gmap.
From S2P Require Import Prelude Wr.
Import Wr.

Module Cm.

Definition ENETUNREACH : Z := 101.
Definition ECONNRESET : Z := 104.
Definition ECONNREFUSED : Z := 111.
Definition EHOSTUNREACH : Z := 113.

Definition AF_INET : Z := 2.
Definition AF_INET6 : Z := 10.

Definition IB_QPS_RTS : Z := 3.
Definition IB_QP_STATE : Z := 2 ^ 0.
Definition IB_QP_DEST_QPN : Z := 2 ^ 20.

Definition NTRDMA_CM_STATE_IDLE : Z := 0.
Definition NTRDMA_CM_STATE_ESTABLISHED : Z := 1.
Definition NTRDMA_CM_STATE_CONNECTING : Z := 2.
Definition NTRDMA_CM_STATE_KILLING : Z := 3.

Definition NTRDMA_IW_CM_REQ : Z := 0.
Definition NTRDMA_IW_CM_REP : Z := 1.
Definition NTRDMA_IW_CM_REJECT : Z := 2.

(** ** Addresses

    [sa_word] is the word behind the port: the address of a [sockaddr_in], the
    flow information of a [sockaddr_in6], whose address is [sa_bytes]. *)

Record sockaddr := mk_sa { sa_family : Z; sa_port : Z; sa_word : Z; sa_bytes : list Z }.

Definition sa_zero : sockaddr := mk_sa 0 0 0 (replicate 16 0).

(** The bytes of a word in the other order. *)
Definition htonl (x : Z) : Z :=
  let b i := Z.land (Z.shiftr x (8 * i)) 0xff in
  Z.lor (Z.shiftl (b 0) 24) (Z.lor (Z.shiftl (b 1) 16) (Z.lor (Z.shiftl (b 2) 8) (b 3))).
Definition ntohl (x : Z) : Z := htonl x.

(** Both walk over four elements: words on one side, bytes on the other. *)
Definition ntrdma_copy_ip_ntohl (src : list Z) : list Z := ntohl <$> take 4 src.
Definition ntrdma_copy_ip_htonl (dst src : list Z) : list Z :=
  ((λ w, Z.land (htonl w) 0xff) <$> take 4 src) ++ drop 4 dst.

(** ** What the kernel's connection manager hands over *)

Inductive provider := PNull | PNode (node : nat) | PQp (qpn : Z).

(** [ci_refs] counts the references the driver holds. *)
Record iw_cm_id := mk_id {
  ci_local_addr : sockaddr; ci_remote_addr : sockaddr;
  ci_m_local_addr : sockaddr; ci_m_remote_addr : sockaddr;
  ci_handler : bool;
  ci_provider_data : provider;
  ci_refs : Z }.

Inductive iw_cm_event_type :=
  | IW_CM_EVENT_CONNECT_REQUEST
  | IW_CM_EVENT_CONNECT_REPLY
  | IW_CM_EVENT_ESTABLISHED
  | IW_CM_EVENT_DISCONNECT
  | IW_CM_EVENT_CLOSE.

(** [ie_private_data]: [None] for a null pointer, or the bytes from it on.  The
    width of the numbers is that of the kernel's header, and is not modelled. *)
Record iw_cm_event := mk_event {
  ie_event : iw_cm_event_type; ie_status : Z;
  ie_local_addr : sockaddr; ie_remote_addr : sockaddr;
  ie_private_data : option (list Z); ie_private_data_len : Z;
  ie_provider_data : provider; ie_ird : Z }.

Definition plain_event (t : iw_cm_event_type) (status : Z) : iw_cm_event :=
  mk_event t status sa_zero sa_zero None 0 PNull 0.

Record iw_cm_conn_param := mk_param {
  cp_private_data : option (list Z); cp_private_data_len : Z; cp_ird : Z; cp_qpn : Z }.

(** ** Messages *)

Record ntrdma_iw_cm_req := mk_req {
  iq_op : Z; iq_qpn : Z; iq_rqpn : Z; iq_remote_port : Z; iq_local_port : Z;
  iq_local_addr : list Z; iq_remote_addr : list Z;
  iq_priv : option (list Z); iq_priv_len : Z;
  iq_ird : Z; iq_status : Z; iq_sin_family : Z }.

(** [ic_room] is what follows the structure in the command. *)
Record ntrdma_iw_cm_cmd := mk_cmd {
  ic_cm_op : Z; ic_qp_num : Z; ic_rqp_num : Z; ic_remote_port : Z; ic_local_port : Z;
  ic_remote_addr : list Z; ic_local_addr : list Z;
  ic_ird : Z; ic_priv_len : Z; ic_status : Z; ic_sin_family : Z;
  ic_room : list Z }.

Definition l_iw_cm_cmd : list (Z * Z) := f_struct l_cmd_hdr :: replicate 17 f_u32.
Definition private_data_max_len : Z := sizeof_ntrdma_cmd - struct_size l_iw_cm_cmd.

(** [room]: what the slot of the command ring held there.  [None]: the private
    data is longer than the room, or is not there. *)
Definition ntrdma_iw_cm_gen_perp (r : ntrdma_iw_cm_req) (room : list Z) : option ntrdma_iw_cm_cmd :=
  let cmd := mk_cmd (iq_op r) (iq_qpn r) (iq_rqpn r) (iq_remote_port r) (iq_local_port r) (iq_remote_addr r)
               (iq_local_addr r) (iq_ird r) (iq_priv_len r) (iq_status r) (iq_sin_family r) in
  if iq_priv_len r =? 0 then Some (cmd room)
  else
    match iq_priv r with
    | None => None
    | Some bytes =>
        if (iq_priv_len r <? 0) || (Z.of_nat (length bytes) <? iq_priv_len r)
           || (Z.of_nat (length room) <? iq_priv_len r) then None
        else Some (cmd (take (Z.to_nat (iq_priv_len r)) bytes ++ drop (Z.to_nat (iq_priv_len r)) room))
    end.

(** What the driver's connection manager uses of the rest of the driver. *)
Record ib_qp_change := mk_change { ch_qp_state : Z; ch_dest_qp_num : Z; ch_mask : Z }.

Class CmLower (W : Type) := {
  ntrdma_modify_qp_local : Z → ib_qp_change → W → Z * W;
  ntrmda_rqp_modify_local : Z → Z → Z → Z → W → Z * W;
  ntrdma_qp_recv_work : Z → W → W;
  ntc_is_link_up : W → bool }.

(** ** The state of a device

    [cm_qps] are the queue pairs by their number, [cm_ids] the identifiers the
    kernel handed over, [cm_list] the list of listeners with the memory it uses,
    [cm_evs] the calls of the handlers so far, [cm_sent] the commands so far. *)

Record cm_qp := mk_cm_qp { cq_state : Z; cq_cm_id : option nat; cq_refs : Z }.

Record ntrdma_iw_cm_id_node := mk_node { nd_name : nat; nd_cm_id : nat; nd_qpn : Z }.

Record cm_dev {W : Type} := mk_cm {
  cm_qps : gmap Z cm_qp;
  cm_ids : gmap nat iw_cm_id;
  cm_list : list ntrdma_iw_cm_id_node;
  cm_slab : Z;
  cm_evs : list (nat * iw_cm_event);
  cm_sent : list ntrdma_iw_cm_cmd;
  cm_low : W }.
Arguments cm_dev : clear implicits.
Arguments mk_cm {W}.

Section Code.
Context {W : Type} `{L : CmLower W}.
Implicit Type d : cm_dev W.

Definition cm_set_qp (qpn : Z) (q : cm_qp) d : cm_dev W :=
  mk_cm (<[qpn := q]> (cm_qps d)) (cm_ids d) (cm_list d) (cm_slab d) (cm_evs d) (cm_sent d) (cm_low d).
Definition cm_set_ids (ids : gmap nat iw_cm_id) d : cm_dev W :=
  mk_cm (cm_qps d) ids (cm_list d) (cm_slab d) (cm_evs d) (cm_sent d) (cm_low d).
Definition cm_set_list (l : list ntrdma_iw_cm_id_node) (slab : Z) d : cm_dev W :=
  mk_cm (cm_qps d) (cm_ids d) l slab (cm_evs d) (cm_sent d) (cm_low d).
Definition cm_add_event (c : nat) (e : iw_cm_event) d : cm_dev W :=
  mk_cm (cm_qps d) (cm_ids d) (cm_list d) (cm_slab d) (cm_evs d ++ [(c, e)]) (cm_sent d) (cm_low d).
Definition cm_add_sent (c : ntrdma_iw_cm_cmd) d : cm_dev W :=
  mk_cm (cm_qps d) (cm_ids d) (cm_list d) (cm_slab d) (cm_evs d) (cm_sent d ++ [c]) (cm_low d).
Definition cm_set_low (w : W) d : cm_dev W :=
  mk_cm (cm_qps d) (cm_ids d) (cm_list d) (cm_slab d) (cm_evs d) (cm_sent d) w.

Definition cq_set_state (s : Z) (q : cm_qp) : cm_qp := mk_cm_qp s (cq_cm_id q) (cq_refs q).
Definition cq_set_id (c : option nat) (q : cm_qp) : cm_qp := mk_cm_qp (cq_state q) c (cq_refs q).
Definition cq_add_refs (n : Z) (q : cm_qp) : cm_qp := mk_cm_qp (cq_state q) (cq_cm_id q) (cq_refs q + n).

Definition ci_add_refs (n : Z) (i : iw_cm_id) : iw_cm_id :=
  mk_id (ci_local_addr i) (ci_remote_addr i) (ci_m_local_addr i) (ci_m_remote_addr i) (ci_handler i)
    (ci_provider_data i) (ci_refs i + n).
Definition ci_set_provider (p : provider) (i : iw_cm_id) : iw_cm_id :=
  mk_id (ci_local_addr i) (ci_remote_addr i) (ci_m_local_addr i) (ci_m_remote_addr i) (ci_handler i) p (ci_refs i).

(** [None]: there is no such identifier. *)
Definition update_id (f : iw_cm_id → iw_cm_id) (c : nat) d : option (cm_dev W) :=
  match cm_ids d !! c with
  | None => None
  | Some i => Some (cm_set_ids (<[c := f i]> (cm_ids d)) d)
  end.
Definition add_ref := update_id (ci_add_refs 1).
Definition rem_ref := update_id (ci_add_refs (-1)).

(** [up] is what the handlers return.  [None]: the handler is null. *)
Definition event_handler (up : nat → iw_cm_event → Z) (c : nat) (e : iw_cm_event) d : option (Z * cm_dev W) :=
  match cm_ids d !! c with
  | None => None
  | Some i => if ci_handler i then Some (up c e, cm_add_event c e d) else None
  end.

Definition has_handler (c : nat) d : bool :=
  match cm_ids d !! c with None => false | Some i => ci_handler i end.

(** ** Listeners *)

Definition id_ports (c : nat) d : Z * Z :=
  match cm_ids d !! c with
  | None => (0, 0)
  | Some i => (sa_port (ci_local_addr i), sa_port (ci_remote_addr i))
  end.

Definition find_iw_cm_id_node (src_port dst_port : Z) d : option ntrdma_iw_cm_id_node :=
  List.find (λ n, let '(l, r) := id_ports (nd_cm_id n) d in (l =? src_port) && (r =? dst_port)) (cm_list d).

Definition find_iw_cm_id_listener_node (src_port : Z) d : option ntrdma_iw_cm_id_node := find_iw_cm_id_node src_port 0 d.

(** [alloc]: the node the slab gives. *)
Definition store_iw_cm_id (alloc : option nat) (qpn : Z) (c : nat) d : option (Z * cm_dev W) :=
  match cm_ids d !! c with
  | None => None
  | Some i =>
      let local_port := sa_port (ci_local_addr i) in
      let remote_port := sa_port (ci_remote_addr i) in
      match find_iw_cm_id_node local_port remote_port d with
      | Some _ => Some (- EINVAL, d)
      | None =>
          match alloc with
          | None => Some (- ENOMEM, d)
          | Some name =>
              let d := cm_set_list (cm_list d ++ [mk_node name c qpn]) (cm_slab d + 1) d in
              match update_id (λ i, ci_set_provider (PNode name) (ci_add_refs 1 i)) c d with
              | None => None
              | Some d => Some (0, d)
              end
          end
      end
  end.

Definition discard_iw_cm_id (name : nat) d : option (cm_dev W) :=
  match List.find (λ n, Nat.eqb (nd_name n) name) (cm_list d) with
  | None => None
  | Some node =>
      let d := cm_set_list (filter (λ n, nd_name n ≠ name) (cm_list d)) (cm_slab d - 1) d in
      rem_ref (nd_cm_id node) d
  end.

Definition ntrdma_create_listen (alloc : option nat) (c : nat) d : option (Z * cm_dev W) := store_iw_cm_id alloc (-1) c d.

(** [None]: the identifier is not a listener's. *)
Definition ntrdma_destroy_listen (c : nat) d : option (Z * cm_dev W) :=
  match cm_ids d !! c with
  | None => None
  | Some i =>
      match ci_provider_data i, update_id (ci_set_provider PNull) c d with
      | PNode name, Some d =>
          match discard_iw_cm_id name d with
          | None => None
          | Some d => Some (0, d)
          end
      | _, _ => None
      end
  end.

(** ** References to queue pairs *)

Definition qp_add_refs (n : Z) (qpn : Z) d : cm_dev W :=
  match cm_qps d !! qpn with
  | None => d
  | Some q => cm_set_qp qpn (cq_add_refs n q) d
  end.

Definition ntrdma_dev_qp_look_and_get (qpn : Z) d : bool * cm_dev W :=
  match cm_qps d !! qpn with
  | None => (false, d)
  | Some _ => (true, qp_add_refs 1 qpn d)
  end.
Definition ntrdma_qp_put (qpn : Z) d : cm_dev W := qp_add_refs (-1) qpn d.

Definition ntrdma_get_qp (qpn : Z) d : bool * cm_dev W :=
  let '(found, d) := ntrdma_dev_qp_look_and_get qpn d in
  if found then (true, ntrdma_qp_put qpn d) else (false, d).

Definition ntrdma_cm_add_ref (qpn : Z) d : cm_dev W := qp_add_refs 1 qpn d.
Definition ntrdma_cm_rem_ref (qpn : Z) d : cm_dev W := ntrdma_qp_put qpn d.

Definition set_qp (f : cm_qp → cm_qp) (qpn : Z) d : cm_dev W :=
  match cm_qps d !! qpn with
  | None => d
  | Some q => cm_set_qp qpn (f q) d
  end.

(** ** Calls of the handler *)

Definition ntrdma_cm_fire_abort (up : nat → iw_cm_event → Z) (qpn : Z) (cm_id : option nat) d : option (cm_dev W) :=
  match cm_id with
  | None => Some d
  | Some c =>
      if negb (has_handler c d) then Some d
      else
        let d := set_qp (cq_set_state NTRDMA_CM_STATE_IDLE) qpn d in
        snd <$> event_handler up c (plain_event IW_CM_EVENT_CONNECT_REPLY (- ECONNRESET)) d
  end.

(** The identifier is read before it is compared with null; the length is a byte. *)
Definition ntrdma_fire_reject (up : nat → iw_cm_event → Z) (cm_id : option nat) (pdata : option (list Z)) (pdata_len : Z) d
  : option (Z * cm_dev W) :=
  match cm_id with
  | None => None
  | Some c =>
      if negb (has_handler c d) then Some (-1, d)
      else
        event_handler up c
          (mk_event IW_CM_EVENT_CONNECT_REPLY (- ECONNREFUSED) sa_zero sa_zero pdata (Z.land pdata_len 0xff) PNull 0) d
  end.

Definition ntrdma_fire_conn_rep (up : nat → iw_cm_event → Z) (cm_id : option nat) (status priv_len : Z)
    (priv_data : option (list Z)) (ird : Z) d : option (Z * cm_dev W) :=
  match cm_id with
  | None => None
  | Some c =>
      match cm_ids d !! c with
      | None => None
      | Some i =>
          let '(p, n) := match priv_data with
                         | Some b => if negb (priv_len =? 0) then (Some b, priv_len) else (None, 0)
                         | None => (None, 0)
                         end in
          event_handler up c
            (mk_event IW_CM_EVENT_CONNECT_REPLY status (ci_m_local_addr i) (ci_m_remote_addr i) p n PNull ird) d
      end
  end.

Definition ntrdma_fire_conn_est (up : nat → iw_cm_event → Z) (c : nat) (ird : Z) d : option (Z * cm_dev W) :=
  event_handler up c (mk_event IW_CM_EVENT_ESTABLISHED 0 sa_zero sa_zero None 0 PNull ird) d.

Definition ntrdma_cm_fire_close (up : nat → iw_cm_event → Z) (qpn : Z) (cm_id : option nat) d : option (cm_dev W) :=
  match cm_id with
  | None => Some d
  | Some c =>
      if negb (has_handler c d) then Some d
      else
        match event_handler up c (plain_event IW_CM_EVENT_CLOSE 0) d with
        | None => None
        | Some (_, d) => rem_ref c (set_qp (cq_set_id None) qpn d)
        end
  end.

Definition ntrdma_cm_fire_disconnect (up : nat → iw_cm_event → Z) (cm_id : option nat) d : option (Z * cm_dev W) :=
  match cm_id with
  | None => Some (- EINVAL, d)
  | Some c =>
      if negb (has_handler c d) then Some (- EINVAL, d)
      else event_handler up c (plain_event IW_CM_EVENT_DISCONNECT 0) d
  end.

Definition ntrdma_cm_kill (up : nat → iw_cm_event → Z) (qpn : Z) d : option (cm_dev W) :=
  match cm_qps d !! qpn with
  | None => None
  | Some q =>
      if negb (cq_state q =? NTRDMA_CM_STATE_ESTABLISHED) then Some d
      else
        let d := set_qp (cq_set_state NTRDMA_CM_STATE_KILLING) qpn d in
        match ntrdma_cm_fire_disconnect up (cq_cm_id q) d with
        | None => None
        | Some (err, d) => if negb (err =? 0) then Some d else ntrdma_cm_fire_close up qpn (cq_cm_id q) d
        end
  end.

(** [None]: it connects, and has no identifier. *)
Definition ntrdma_cm_qp_shutdown (up : nat → iw_cm_event → Z) (qpn : Z) d : option (cm_dev W) :=
  match cm_qps d !! qpn with
  | None => None
  | Some q =>
      if cq_state q =? NTRDMA_CM_STATE_IDLE then Some (set_qp (cq_set_state NTRDMA_CM_STATE_KILLING) qpn d)
      else if negb (cq_state q =? NTRDMA_CM_STATE_CONNECTING) then Some d
      else
        match ntrdma_cm_fire_abort up qpn (cq_cm_id q) d, cq_cm_id q with
        | Some d, Some c =>
            match rem_ref c d with
            | None => None
            | Some d => Some (set_qp (λ q, cq_set_state NTRDMA_CM_STATE_KILLING (cq_set_id None q)) qpn d)
            end
        | _, _ => None
        end
  end.

(** ** Sending a command

    The command is prepared when it enters the ring; when it cannot be submitted
    it is taken back, and the caller waits all the same. *)

Record send_answers := mk_send { sn_add : Z; sn_submit : Z; sn_room : list Z }.

(** Up to the wait: the first result is the error that ends the call at once. *)
Definition ntrdma_cmd_send_begin (a : send_answers) (r : ntrdma_iw_cm_req) d : option (option Z * cm_dev W) :=
  if sn_add a <? 0 then Some (Some (sn_add a), d)
  else if sn_submit a <? 0 then Some (None, d)
  else
    match ntrdma_iw_cm_gen_perp r (sn_room a) with
    | None => None
    | Some c => Some (None, cm_add_sent c d)
    end.

Definition ntrdma_iw_cm_gen_cmpl (status : Z) : Z := s32 status.

(** What the wait returns, and the status in the answer. *)
Record wait_answers := mk_wait { wt_rc : Z; wt_status : Z }.

Definition ntrdma_cmd_send_end (w : wait_answers) : Z :=
  if wt_rc w <? 0 then wt_rc w else ntrdma_iw_cm_gen_cmpl (wt_status w).

Definition ntrdma_cmd_send (a : send_answers) (wt : wait_answers) (r : ntrdma_iw_cm_req) d : option (Z * cm_dev W) :=
  match ntrdma_cmd_send_begin a r d with
  | None => None
  | Some (Some rc, d) => Some (rc, d)
  | Some (None, d) => Some (ntrdma_cmd_send_end wt, d)
  end.

Definition rep_req (local_addr remote_addr : sockaddr) (qpn rqpn priv_len : Z) (priv : option (list Z)) (ird status : Z)
  : ntrdma_iw_cm_req :=
  let '(p, n) := match priv with
                 | Some b => if negb (priv_len =? 0) then (Some b, priv_len) else (None, 0)
                 | None => (None, 0)
                 end in
  mk_req NTRDMA_IW_CM_REP qpn rqpn (sa_port local_addr) (sa_port remote_addr) (replicate 4 0) (replicate 4 0) p n ird status 0.

Definition ntrdma_cmd_send_rep (a : send_answers) (wt : wait_answers) (local_addr remote_addr : sockaddr)
    (qpn rqpn priv_len : Z) (priv : option (list Z)) (ird status : Z) d : option (Z * cm_dev W) :=
  ntrdma_cmd_send a wt (rep_req local_addr remote_addr qpn rqpn priv_len priv ird status) d.

(** ** Commands of the peer *)

(** The addresses of the event: the peer's names for the two ends, exchanged,
    but not those of version 6. *)
Definition request_addrs (c : ntrdma_iw_cm_cmd) : sockaddr * sockaddr :=
  if ic_sin_family c =? AF_INET6 then
    (mk_sa AF_INET6 (ic_remote_port c) 0 (ntrdma_copy_ip_htonl (replicate 16 0) (ic_local_addr c)),
     mk_sa AF_INET6 (ic_local_port c) 0 (ntrdma_copy_ip_htonl (replicate 16 0) (ic_remote_addr c)))
  else
    (mk_sa AF_INET (ic_remote_port c) (htonl (nth 0 (ic_remote_addr c) 0)) (replicate 16 0),
     mk_sa AF_INET (ic_local_port c) (htonl (nth 0 (ic_local_addr c) 0)) (replicate 16 0)).

Definition request_event (c : ntrdma_iw_cm_cmd) : iw_cm_event :=
  let '(laddr, raddr) := request_addrs c in
  mk_event IW_CM_EVENT_CONNECT_REQUEST 0 laddr raddr
    (if negb (ic_priv_len c =? 0) then Some (ic_room c) else None) (ic_priv_len c) (PQp (ic_qp_num c)) (ic_ird c).

Definition ntrdma_cm_handle_connect_req (up : nat → iw_cm_event → Z) (a : send_answers) (wt : wait_answers)
    (c : ntrdma_iw_cm_cmd) d : option (Z * cm_dev W) :=
  let event := request_event c in
  match find_iw_cm_id_listener_node (ic_remote_port c) d with
  | None =>
      match ntrdma_cmd_send_rep a wt (ie_local_addr event) (ie_remote_addr event) (ic_rqp_num c) (ic_qp_num c)
              0 None 0 (- ENETUNREACH) d with
      | None => None
      | Some (_, d) => Some (0, d)
      end
  | Some node => event_handler up (nd_cm_id node) event d
  end.

(** A rejection that finds the queue pair in another state keeps the reference. *)
Definition ntrdma_cm_handle_reject (up : nat → iw_cm_event → Z) (c : ntrdma_iw_cm_cmd) d : option (Z * cm_dev W) :=
  let qpn := ic_rqp_num c in
  let '(found, d) := ntrdma_dev_qp_look_and_get qpn d in
  match cm_qps d !! qpn with
  | None => Some (0, d)
  | Some q =>
      if negb (cq_state q =? NTRDMA_CM_STATE_CONNECTING) then Some (0, d)
      else
        match ntrdma_fire_reject up (cq_cm_id q) None (ic_priv_len c) d with
        | None => None
        | Some (status, d) =>
            let released :=
              match cq_cm_id q with
              | None => Some d
              | Some i =>
                  match rem_ref i d with
                  | None => None
                  | Some d => Some (set_qp (cq_set_state NTRDMA_CM_STATE_IDLE) qpn d)
                  end
              end in
            match released with
            | None => None
            | Some d => Some (status, ntrdma_qp_put qpn (set_qp (cq_set_id None) qpn d))
            end
        end
  end.

Definition rts (dest : Z) : ib_qp_change := mk_change IB_QPS_RTS dest (Z.lor IB_QP_STATE IB_QP_DEST_QPN).

Definition modify_local (qpn dest : Z) d : Z * cm_dev W :=
  let '(rc, w) := ntrdma_modify_qp_local qpn (rts dest) (cm_low d) in (rc, cm_set_low w d).
Definition modify_image (src dest : Z) d : Z * cm_dev W :=
  let '(rc, w) := ntrmda_rqp_modify_local src 0 IB_QPS_RTS dest (cm_low d) in (rc, cm_set_low w d).
Definition recv_work (qpn : Z) d : cm_dev W := cm_set_low (ntrdma_qp_recv_work qpn (cm_low d)) d.

Definition ntrdma_cm_handle_rep (up : nat → iw_cm_event → Z) (c : ntrdma_iw_cm_cmd) d : option (Z * cm_dev W) :=
  let qpn := ic_rqp_num c in
  let '(found, d) := ntrdma_dev_qp_look_and_get qpn d in
  match cm_qps d !! qpn with
  | None => Some (0, d)
  | Some q =>
      if ic_status c =? - ENETUNREACH then
        match ntrdma_cm_handle_reject up c d with
        | None => None
        | Some (rc, d) => Some (rc, ntrdma_qp_put qpn d)
        end
      else if negb (cq_state q =? NTRDMA_CM_STATE_CONNECTING) then Some (1, ntrdma_qp_put qpn d)
      else
        let '(_, d) := ntrdma_get_qp qpn d in
        let '(_, d) := modify_image (ic_qp_num c) qpn d in
        let '(rc, d) := modify_local qpn (ic_qp_num c) d in
        let d := recv_work qpn d in
        match ntrdma_fire_conn_rep up (cq_cm_id q) (ic_status c) (ic_priv_len c) (Some (ic_room c)) (ic_ird c) d with
        | None => None
        | Some (_, d) => Some (rc, ntrdma_qp_put qpn (set_qp (cq_set_state NTRDMA_CM_STATE_ESTABLISHED) qpn d))
        end
  end.

(** The result is the status in the answer. *)
Definition ntrdma_cmd_recv_cm (up : nat → iw_cm_event → Z) (a : send_answers) (wt : wait_answers)
    (c : ntrdma_iw_cm_cmd) d : option (Z * cm_dev W) :=
  let answer r := match r with None => None | Some (rc, d) => Some (u32 rc, d) end in
  if ic_cm_op c =? NTRDMA_IW_CM_REQ then answer (ntrdma_cm_handle_connect_req up a wt c d)
  else if ic_cm_op c =? NTRDMA_IW_CM_REP then answer (ntrdma_cm_handle_rep up c d)
  else if ic_cm_op c =? NTRDMA_IW_CM_REJECT then answer (ntrdma_cm_handle_reject up c d)
  else Some (u32 (Z.lnot 0), d).

(** ** Connecting *)

Definition addrs_of (family : Z) (l r : sockaddr) : list Z * list Z :=
  if family =? AF_INET6 then (ntrdma_copy_ip_ntohl (sa_bytes l), ntrdma_copy_ip_ntohl (sa_bytes r))
  else ([ntohl (sa_word l); 0; 0; 0], [ntohl (sa_word r); 0; 0; 0]).

Definition connect_req (i : iw_cm_id) (p : iw_cm_conn_param) : ntrdma_iw_cm_req :=
  let l := ci_local_addr i in
  let r := ci_remote_addr i in
  let '(la, ra) := addrs_of (sa_family l) l r in
  mk_req NTRDMA_IW_CM_REQ (cp_qpn p) 0 (sa_port r) (sa_port l) la ra (cp_private_data p) (cp_private_data_len p)
    (cp_ird p) 0 (if sa_family l =? AF_INET6 then AF_INET6 else AF_INET).

(** Under the lock: an error, or the request.  [None]: there is no queue pair. *)
Definition ntrdma_connect_begin (c : nat) (p : iw_cm_conn_param) d : option (Z * cm_dev W) :=
  let qpn := cp_qpn p in
  let '(_, d) := ntrdma_get_qp qpn d in
  match cm_qps d !! qpn with
  | None => None
  | Some q =>
      if negb (cq_state q =? NTRDMA_CM_STATE_IDLE) then Some (- EINVAL, d)
      else if negb (ntc_is_link_up (cm_low d)) then Some (- EHOSTUNREACH, d)
      else
        let d := set_qp (cq_set_state NTRDMA_CM_STATE_CONNECTING) qpn d in
        match (match cq_cm_id q with None => Some d | Some old => rem_ref old d end) with
        | None => None
        | Some d =>
            match add_ref c (set_qp (cq_set_id (Some c)) qpn d) with
            | None => None
            | Some d =>
                if private_data_max_len <? cp_private_data_len p then
                  match rem_ref c d with
                  | None => None
                  | Some d => Some (- EINVAL, set_qp (cq_set_state NTRDMA_CM_STATE_IDLE) qpn d)
                  end
                else Some (0, d)
            end
        end
  end.

(** After the command: [rc] is what became of it. *)
Definition ntrdma_connect_end (c : nat) (qpn rc : Z) d : option (Z * cm_dev W) :=
  if rc =? 0 then Some (0, d)
  else
    match cm_qps d !! qpn with
    | None => None
    | Some q =>
        if cq_state q =? NTRDMA_CM_STATE_CONNECTING then
          match rem_ref c d with
          | None => None
          | Some d => Some (rc, set_qp (λ q, cq_set_state NTRDMA_CM_STATE_IDLE (cq_set_id None q)) qpn d)
          end
        else Some (0, d)
    end.

(** The request is built before the lock is taken. *)
Definition ntrdma_connect (a : send_answers) (wt : wait_answers) (c : nat) (p : iw_cm_conn_param) d
  : option (Z * cm_dev W) :=
  match cm_ids d !! c with
  | None => None
  | Some i =>
      match ntrdma_connect_begin c p d with
      | None => None
      | Some (rc, d) =>
          if negb (rc =? 0) then Some (rc, d)
          else
            match ntrdma_cmd_send a wt (connect_req i p) d with
            | None => None
            | Some (rc, d) => ntrdma_connect_end c (cp_qpn p) rc d
            end
      end
  end.

(** ** Accepting *)

(** A node is not a number: [None]. *)
Definition dest_of (i : iw_cm_id) : option Z :=
  match ci_provider_data i with PNull => Some 0 | PQp q => Some q | PNode _ => None end.

Definition ntrdma_accept_begin (c : nat) (p : iw_cm_conn_param) (dest : Z) d : option (cm_dev W) :=
  let qpn := cp_qpn p in
  let '(_, d) := ntrdma_get_qp qpn d in
  match cm_qps d !! qpn with
  | None => None
  | Some _ =>
      match add_ref c d with
      | None => None
      | Some d =>
          let d := set_qp (cq_set_id (Some c)) qpn d in
          let '(_, d) := modify_local qpn dest d in
          Some (recv_work qpn d)
      end
  end.

(** After the reply: [rc] is what became of it. *)
Definition ntrdma_accept_end (up : nat → iw_cm_event → Z) (c : nat) (p : iw_cm_conn_param) (dest rc : Z) d
  : option (Z * cm_dev W) :=
  if negb (rc =? 0) then Some (rc, d)
  else
    let qpn := cp_qpn p in
    let '(rc, d) := modify_image dest qpn d in
    match cm_qps d !! qpn with
    | None => None
    | Some q =>
        if negb (cq_state q =? NTRDMA_CM_STATE_IDLE) then Some (- EINVAL, d)
        else
          match ntrdma_fire_conn_est up c (cp_ird p) (set_qp (cq_set_state NTRDMA_CM_STATE_ESTABLISHED) qpn d) with
          | None => None
          | Some (_, d) => Some (rc, d)
          end
    end.

Definition accept_req (i : iw_cm_id) (p : iw_cm_conn_param) (dest : Z) : ntrdma_iw_cm_req :=
  rep_req (ci_local_addr i) (ci_remote_addr i) (cp_qpn p) dest (cp_private_data_len p) (cp_private_data p) (cp_ird p) 0.

Definition ntrdma_accept (up : nat → iw_cm_event → Z) (a : send_answers) (wt : wait_answers) (c : nat)
    (p : iw_cm_conn_param) d : option (Z * cm_dev W) :=
  match cm_ids d !! c with
  | None => None
  | Some i =>
      match dest_of i with
      | None => None
      | Some dest =>
          match ntrdma_accept_begin c p dest d with
          | None => None
          | Some d =>
              match ntrdma_cmd_send a wt (accept_req i p dest) d with
              | None => None
              | Some (rc, d) => ntrdma_accept_end up c p dest rc d
              end
          end
      end
  end.

(** ** Rejecting *)

Definition reject_req (i : iw_cm_id) (dest : Z) (pdata : option (list Z)) (pdata_len : Z) : ntrdma_iw_cm_req :=
  let r := ci_local_addr i in
  let l := ci_remote_addr i in
  let '(la, ra) := if sa_family r =? AF_INET6 then (ntrdma_copy_ip_ntohl (sa_bytes r), ntrdma_copy_ip_ntohl (sa_bytes l))
                   else ([ntohl (sa_word l); 0; 0; 0], [ntohl (sa_word r); 0; 0; 0]) in
  mk_req NTRDMA_IW_CM_REJECT dest dest (sa_port r) (sa_port l) la ra pdata pdata_len (-1) 0
    (if sa_family r =? AF_INET6 then AF_INET6 else AF_INET).

Definition ntrdma_reject (a : send_answers) (wt : wait_answers) (c : nat) (pdata : option (list Z)) (pdata_len : Z) d
  : option (Z * cm_dev W) :=
  match cm_ids d !! c with
  | None => None
  | Some i =>
      match dest_of i with
      | None => None
      | Some dest => ntrdma_cmd_send a wt (reject_req i dest pdata pdata_len) d
      end
  end.

End Code.

End Cm.
