(* ===== verification/CmSafe.v ===== *)
(** * The connection manager of one device: its events and its references

    Calls, their second halves, commands of the peer, resets and the rest of the
    driver interleave.  The kernel's side of the contract is in the steps: an
    identifier is used for one purpose, once, and a queue pair is given to a call
    while it has no identifier and no call waits. *)

From stdpp Require Import gmap.
From S2P Require Import Prelude Wr Cm.
Import Wr Cm.

Module CmSafe.

Inductive role := RConn (qpn : Z) | RAcc (qpn dest : Z) | RListen.
Inductive waiting := WConn (c : nat) | WAcc (c : nat) (p : iw_cm_conn_param) (dest : Z).

Record cm_sys {W : Type} := mk_sys {
  sy_dev : cm_dev W;
  sy_calls : gmap Z waiting;
  sy_roles : gmap nat role }.
Arguments cm_sys : clear implicits.
Arguments mk_sys {W}.

(** Private data that is there and fits; the room of a slot. *)
Definition priv_ok (priv : option (list Z)) (len : Z) : Prop :=
  len = 0 ∨ ∃ b, priv = Some b ∧ 0 <= len <= Z.of_nat (length b) ∧ len <= private_data_max_len.
Definition room_ok (a : send_answers) : Prop := Z.of_nat (length (sn_room a)) = private_data_max_len.

(** Evaluation of an operation on a queue pair and an identifier that are there. *)
Ltac cm_run :=
  repeat (progress (cbn -[Z.eqb Z.ltb ntrdma_get_qp]; unfold set_qp, qp_add_refs, add_ref, rem_ref, update_id, event_handler, has_handler, negb;
    cbn -[Z.eqb Z.ltb ntrdma_get_qp];
    repeat match goal with
    | H : ?x = _ |- context [match ?x with _ => _ end] => rewrite H
    | H : ?x = _ |- context [if ?x then _ else _] => rewrite H
    | |- context [<[?k := _]> _ !! ?k] => rewrite lookup_insert_eq
    end)).

Section Steps.
Context {W : Type} `{L : CmLower W}.
Implicit Type d : cm_dev W.

(** A queue pair a call may be given. *)
Definition unused (qpn : Z) (s : cm_sys W) : Prop :=
  sy_calls s !! qpn = None ∧ ∃ q, cm_qps (sy_dev s) !! qpn = Some q ∧ cq_cm_id q = None.

(** An identifier that is accepted was handed over with a request. *)
Definition requested (dest : Z) d : Prop :=
  ∃ l e, (l, e) ∈ cm_evs d ∧ ie_event e = IW_CM_EVENT_CONNECT_REQUEST ∧ ie_provider_data e = PQp dest.

(** The calls of the kernel, and what the driver does when they return. *)
Inductive call_step : cm_sys W → cm_sys W → Prop :=
  | st_new_id c i d ca ro :
      cm_ids d !! c = None → ci_handler i = true → ci_refs i = 0 → (∀ n, ci_provider_data i ≠ PNode n) →
      call_step (mk_sys d ca ro) (mk_sys (cm_set_ids (<[c := i]> (cm_ids d)) d) ca ro)
  | st_new_qp qpn n d ca ro :
      cm_qps d !! qpn = None →
      call_step (mk_sys d ca ro) (mk_sys (cm_set_qp qpn (mk_cm_qp NTRDMA_CM_STATE_IDLE None n) d) ca ro)
  | st_low w d ca ro : call_step (mk_sys d ca ro) (mk_sys (cm_set_low w d) ca ro)
  | st_connect_fails c p rc d ca ro d1 :
      ro !! c = None → is_Some (cm_ids d !! c) → unused (cp_qpn p) (mk_sys d ca ro) →
      priv_ok (cp_private_data p) (cp_private_data_len p) →
      ntrdma_connect_begin c p d = Some (rc, d1) → rc ≠ 0 →
      call_step (mk_sys d ca ro) (mk_sys d1 ca (<[c := RConn (cp_qpn p)]> ro))
  | st_connect a c i p d ca ro d1 e d2 :
      ro !! c = None → cm_ids d !! c = Some i → unused (cp_qpn p) (mk_sys d ca ro) →
      priv_ok (cp_private_data p) (cp_private_data_len p) → room_ok a →
      ntrdma_connect_begin c p d = Some (0, d1) → ntrdma_cmd_send_begin a (connect_req i p) d1 = Some (e, d2) →
      call_step (mk_sys d ca ro)
        (mk_sys d2 (<[cp_qpn p := WConn c]> ca) (<[c := RConn (cp_qpn p)]> ro))
  | st_connect_end c qpn rc d ca ro rc' d1 :
      ca !! qpn = Some (WConn c) → ntrdma_connect_end c qpn rc d = Some (rc', d1) →
      call_step (mk_sys d ca ro) (mk_sys d1 (delete qpn ca) ro)
  | st_accept a c i p dest d ca ro d1 e d2 :
      ro !! c = None → cm_ids d !! c = Some i → dest_of i = Some dest → requested dest d →
      unused (cp_qpn p) (mk_sys d ca ro) →
      priv_ok (cp_private_data p) (cp_private_data_len p) → room_ok a →
      ntrdma_accept_begin c p dest d = Some d1 → ntrdma_cmd_send_begin a (accept_req i p dest) d1 = Some (e, d2) →
      call_step (mk_sys d ca ro)
        (mk_sys d2 (<[cp_qpn p := WAcc c p dest]> ca) (<[c := RAcc (cp_qpn p) dest]> ro))
  | st_accept_end up c p dest qpn rc d ca ro rc' d1 :
      ca !! qpn = Some (WAcc c p dest) → ntrdma_accept_end up c p dest rc d = Some (rc', d1) →
      call_step (mk_sys d ca ro) (mk_sys d1 (delete qpn ca) ro)
  | st_reject a wt c pdata len d ca ro rc d1 :
      ro !! c = None → priv_ok pdata len → room_ok a → ntrdma_reject a wt c pdata len d = Some (rc, d1) →
      call_step (mk_sys d ca ro) (mk_sys d1 ca ro)
  | st_listen alloc c d ca ro rc d1 :
      ro !! c = None → (∀ n, alloc = Some n → n ∉ (nd_name <$> cm_list d)) →
      ntrdma_create_listen alloc c d = Some (rc, d1) →
      call_step (mk_sys d ca ro) (mk_sys d1 ca (<[c := RListen]> ro))
  | st_destroy_listen c i n d ca ro rc d1 :
      ro !! c = Some RListen → cm_ids d !! c = Some i → ci_provider_data i = PNode n →
      ntrdma_destroy_listen c d = Some (rc, d1) →
      call_step (mk_sys d ca ro) (mk_sys d1 ca ro)
  | st_kill up qpn d ca ro d1 :
      is_Some (cm_qps d !! qpn) → ntrdma_cm_kill up qpn d = Some d1 → call_step (mk_sys d ca ro) (mk_sys d1 ca ro)
  | st_shutdown up qpn d ca ro d1 :
      is_Some (cm_qps d !! qpn) → ntrdma_cm_qp_shutdown up qpn d = Some d1 →
      call_step (mk_sys d ca ro) (mk_sys d1 ca ro).

(** Commands arrive between calls, with whatever contents. *)
Inductive sys_step : cm_sys W → cm_sys W → Prop :=
  | st_call s s' : call_step s s' → sys_step s s'
  | st_recv up a wt cmd d ca ro st d1 :
      room_ok a → ntrdma_cmd_recv_cm up a wt cmd d = Some (st, d1) →
      sys_step (mk_sys d ca ro) (mk_sys d1 ca ro).

(** Nothing is there yet. *)
Definition sys_start (s : cm_sys W) : Prop :=
  cm_qps (sy_dev s) = ∅ ∧ cm_ids (sy_dev s) = ∅ ∧ cm_list (sy_dev s) = [] ∧ cm_evs (sy_dev s) = []
  ∧ sy_calls s = ∅ ∧ sy_roles s = ∅.

(** ** The invariant *)

(** What the handler of an identifier was called with, in order. *)
Definition kinds (c : nat) (l : list (nat * iw_cm_event)) : list iw_cm_event_type :=
  ie_event ∘ snd <$> filter (λ p, p.1 = c) l.
#[local] Arguments kinds : simpl never.

Definition start_of (accept : bool) : iw_cm_event_type :=
  if accept then IW_CM_EVENT_ESTABLISHED else IW_CM_EVENT_CONNECT_REPLY.

(** The life of an identifier on its queue pair. *)
Definition life (accept : bool) (q : cm_qp) (c : nat) (l : list iw_cm_event_type) : Prop :=
  if decide (cq_cm_id q = Some c) then
    (cq_state q = NTRDMA_CM_STATE_IDLE ∧ accept = true ∧ l = [])
    ∨ (cq_state q = NTRDMA_CM_STATE_CONNECTING ∧ accept = false ∧ l = [])
    ∨ (cq_state q = NTRDMA_CM_STATE_ESTABLISHED ∧ l = [start_of accept])
    ∨ (cq_state q = NTRDMA_CM_STATE_KILLING ∧ accept = true ∧ l = [])
    ∨ (cq_state q = NTRDMA_CM_STATE_KILLING ∧ l = [start_of accept; IW_CM_EVENT_DISCONNECT])
  else
    l = [] ∨ (accept = false ∧ l = [IW_CM_EVENT_CONNECT_REPLY])
    ∨ l = [start_of accept; IW_CM_EVENT_DISCONNECT; IW_CM_EVENT_CLOSE].

Definition call_ok (w : waiting) (ro : gmap nat role) (q : cm_qp) (qpn : Z) : Prop :=
  match w with
  | WConn c => ro !! c = Some (RConn qpn) ∧ (cq_cm_id q = None ∨ cq_cm_id q = Some c)
  | WAcc c p dest => ro !! c = Some (RAcc qpn dest) ∧ cp_qpn p = qpn ∧ cq_cm_id q = Some c
                     ∧ (cq_state q = NTRDMA_CM_STATE_IDLE ∨ cq_state q = NTRDMA_CM_STATE_KILLING)
  end.

Definition states : list Z :=
  [NTRDMA_CM_STATE_IDLE; NTRDMA_CM_STATE_ESTABLISHED; NTRDMA_CM_STATE_CONNECTING; NTRDMA_CM_STATE_KILLING].

(** A queue pair, with what waits on it. *)
Record qp_ok (s : cm_sys W) (qpn : Z) (q : cm_qp) : Prop := {
  qk_state : cq_state q ∈ states;
  qk_none : cq_cm_id q = None → cq_state q ≠ NTRDMA_CM_STATE_CONNECTING ∧ cq_state q ≠ NTRDMA_CM_STATE_ESTABLISHED;
  qk_id : ∀ c, cq_cm_id q = Some c → sy_roles s !! c = Some (RConn qpn) ∨ ∃ dest, sy_roles s !! c = Some (RAcc qpn dest);
  qk_call : ∀ w, sy_calls s !! qpn = Some w → call_ok w (sy_roles s) q qpn }.

Definition used_ok (s : cm_sys W) (c : nat) (accept : bool) (qpn : Z) (i : iw_cm_id) : Prop :=
  ∃ q, cm_qps (sy_dev s) !! qpn = Some q
    ∧ ci_refs i = (if decide (cq_cm_id q = Some c) then 1 else 0)
    ∧ life accept q c (kinds c (cm_evs (sy_dev s))).

(** An identifier, by what it is used for. *)
Definition id_ok (s : cm_sys W) (c : nat) (i : iw_cm_id) : Prop :=
  ci_handler i = true
  ∧ (∀ n, ci_provider_data i = PNode n →
       sy_roles s !! c = Some RListen ∧ ∃ k, mk_node n c k ∈ cm_list (sy_dev s))
  ∧ match sy_roles s !! c with
    | None => ci_refs i = 0 ∧ kinds c (cm_evs (sy_dev s)) = []
    | Some RListen => ci_refs i = (match ci_provider_data i with PNode _ => 1 | _ => 0 end)
                      ∧ Forall (λ k, k = IW_CM_EVENT_CONNECT_REQUEST) (kinds c (cm_evs (sy_dev s)))
    | Some (RConn qpn) => used_ok s c false qpn i
    | Some (RAcc qpn _) => used_ok s c true qpn i
    end.

Record sys_inv (s : cm_sys W) : Prop := {
  si_qps : ∀ qpn q, cm_qps (sy_dev s) !! qpn = Some q → qp_ok s qpn q;
  si_ids : ∀ c i, cm_ids (sy_dev s) !! c = Some i → id_ok s c i;
  si_roles : ∀ c r, sy_roles s !! c = Some r → is_Some (cm_ids (sy_dev s) !! c);
  si_calls : ∀ qpn w, sy_calls s !! qpn = Some w → is_Some (cm_qps (sy_dev s) !! qpn);
  si_nodes : ∀ n, n ∈ cm_list (sy_dev s) → ∃ i, cm_ids (sy_dev s) !! nd_cm_id n = Some i ∧ ci_provider_data i = PNode (nd_name n);
  si_names : NoDup (nd_name <$> cm_list (sy_dev s));
  si_evs : ∀ c, cm_ids (sy_dev s) !! c = None → kinds c (cm_evs (sy_dev s)) = [] }.

(** ** What a step does to the invariant *)

Lemma kinds_app c l l' : kinds c (l ++ l') = kinds c l ++ kinds c l'.
Proof. unfold kinds. by rewrite list.filter_app, fmap_app. Qed.

Lemma kinds_own c (es : list iw_cm_event) : kinds c ((λ e, (c, e)) <$> es) = ie_event <$> es.
Proof.
  unfold kinds. rewrite list_filter_all; [by rewrite <- list_fmap_compose|].
  intros x (e & -> & _)%list_elem_of_fmap. done.
Qed.

Lemma kinds_other c c' (es : list iw_cm_event) : c ≠ c' → kinds c ((λ e, (c', e)) <$> es) = [].
Proof.
  intros H. unfold kinds. induction es as [|e es IH]; [done|]. rewrite fmap_cons, filter_cons_False by (cbn; congruence). exact IH.
Qed.

(** One queue pair and its identifier change. *)
Record effect d d' (qpn : Z) (q q' : cm_qp) (c : nat) (i : iw_cm_id) (n : Z) (es : list iw_cm_event) : Prop := {
  ef_q : cm_qps d !! qpn = Some q;
  ef_i : cm_ids d !! c = Some i;
  ef_qps : cm_qps d' = <[qpn := q']> (cm_qps d);
  ef_ids : cm_ids d' = <[c := ci_add_refs n i]> (cm_ids d);
  ef_list : cm_list d' = cm_list d;
  ef_evs : cm_evs d' = cm_evs d ++ ((λ e, (c, e)) <$> es) }.

#[local] Arguments ef_q {_ _ _ _ _ _ _ _ _}.
#[local] Arguments ef_i {_ _ _ _ _ _ _ _ _}.
#[local] Arguments ef_qps {_ _ _ _ _ _ _ _ _}.
#[local] Arguments ef_ids {_ _ _ _ _ _ _ _ _}.
#[local] Arguments ef_list {_ _ _ _ _ _ _ _ _}.
#[local] Arguments ef_evs {_ _ _ _ _ _ _ _ _}.

(** Nothing of it changes, but perhaps commands and the rest of the driver. *)
Record same_cm d d' : Prop := {
  sm_qps : cm_qps d' = cm_qps d;
  sm_ids : cm_ids d' = cm_ids d;
  sm_list : cm_list d' = cm_list d;
  sm_evs : cm_evs d' = cm_evs d }.

Lemma same_cm_refl d : same_cm d d.
Proof. by constructor. Qed.

Lemma same_cm_trans d d1 d2 : same_cm d d1 → same_cm d1 d2 → same_cm d d2.
Proof. intros [] []. constructor; congruence. Qed.

Lemma send_begin_same a r d e d' : ntrdma_cmd_send_begin a r d = Some (e, d') → same_cm d d'.
Proof.
  unfold ntrdma_cmd_send_begin. destruct (_ <? _); [intros [= _ <-]; apply same_cm_refl|].
  destruct (_ <? _); [intros [= _ <-]; apply same_cm_refl|].
  destruct (ntrdma_iw_cm_gen_perp _ _); [|done]. intros [= _ <-]. by constructor.
Qed.

Lemma send_same a wt r d rc d' : ntrdma_cmd_send a wt r d = Some (rc, d') → same_cm d d'.
Proof.
  unfold ntrdma_cmd_send. destruct (ntrdma_cmd_send_begin a r d) as [[e d1]|] eqn:H; [|done].
  apply send_begin_same in H. destruct e; by intros [= _ <-].
Qed.

Lemma effect_same d d1 d2 qpn q q' c i n es :
  effect d d1 qpn q q' c i n es → same_cm d1 d2 → effect d d2 qpn q q' c i n es.
Proof. intros [] []. constructor; congruence. Qed.

Definition role_of (r : role) : option (bool * Z) :=
  match r with RConn qpn => Some (false, qpn) | RAcc qpn _ => Some (true, qpn) | RListen => None end.

Lemma id_ok_used s c i r accept qpn :
  sy_roles s !! c = Some r → role_of r = Some (accept, qpn) →
  id_ok s c i ↔ ci_handler i = true ∧ (∀ n, ci_provider_data i ≠ PNode n) ∧ used_ok s c accept qpn i.
Proof.
  intros Hr Ho. unfold id_ok. rewrite Hr. split.
  - intros (Hh & Hp & Hu). split; [exact Hh|]. split; [intros n Hn; destruct (Hp n Hn) as [[= ->] _]; done|].
    destruct r; try done; cbn in Ho; by simplify_eq.
  - intros (Hh & Hp & Hu). split; [exact Hh|]. split; [intros n Hn; by destruct (Hp n)|].
    destruct r; try done; cbn in Ho; by simplify_eq.
Qed.

(** An identifier that is not held does not depend on the state. *)
Lemma life_released accept q q' c l :
  cq_cm_id q ≠ Some c → cq_cm_id q' ≠ Some c → life accept q c l → life accept q' c l.
Proof. intros H H'. unfold life. by rewrite !decide_False by done. Qed.

Lemma inv_effect d ca ro d' ca' ro' qpn q q' c i n es r accept :
  sys_inv (mk_sys d ca ro) → effect d d' qpn q q' c i n es →
  ro' !! c = Some r → role_of r = Some (accept, qpn) → (∀ c', c' ≠ c → ro' !! c' = ro !! c') →
  (ro !! c = None ∨ ro !! c = Some r) →
  (∀ k, k ≠ qpn → ca' !! k = ca !! k) →
  (cq_cm_id q = None ∨ cq_cm_id q = Some c) → (cq_cm_id q' = None ∨ cq_cm_id q' = Some c) →
  qp_ok (mk_sys d' ca' ro') qpn q' →
  ci_refs i + n = (if decide (cq_cm_id q' = Some c) then 1 else 0) →
  life accept q' c (kinds c (cm_evs d) ++ (ie_event <$> es)) →
  sys_inv (mk_sys d' ca' ro').
Proof.
  intros [I1 I2 I3 I4 I5 I6 I7] E Hr Ho Hro Hold Hca Hq Hq' Hok Hrefs Hlife. cbn [sy_dev sy_calls sy_roles] in *.
  pose proof (ef_q E) as Eq. pose proof (ef_i E) as Ei.
  assert (ci_handler i = true ∧ ∀ n, ci_provider_data i ≠ PNode n) as [Hh Hp].
  { destruct (I2 c i Ei) as (Hh & Hp & _). split; [exact Hh|]. intros k Hk. destruct (Hp k Hk) as [Hl _]. cbn in Hl.
    destruct Hold as [?|?]; [congruence|]. destruct r; try done; congruence. }
  constructor; cbn [sy_dev sy_calls sy_roles].
  - intros k x. rewrite (ef_qps E). intros [[<- <-]|[Hne Hx]]%lookup_insert_Some; [exact Hok|].
    destruct (I1 k x Hx) as [K1 K2 K3 K4]. cbn [sy_dev sy_calls sy_roles] in *. constructor; cbn [sy_dev sy_calls sy_roles]; try done.
    + intros c1 Hc1. assert (c1 ≠ c) as Hcc.
      { intros ->. destruct (K3 c Hc1) as [H|[? H]]; (destruct Hold as [?|Hs]; [congruence|]);
          rewrite H in Hs; injection Hs as <-; cbn in Ho; simplify_eq. }
      rewrite !Hro by done. by apply K3.
    + intros w. rewrite Hca by done. intros Hw. specialize (K4 w Hw). destruct w as [c1|c1 p dest]; cbn in *.
      * destruct K4 as [H1 H2]. split; [|exact H2]. rewrite Hro; [done|]. intros ->.
        destruct Hold as [?|Hs]; [congruence|]. rewrite H1 in Hs. injection Hs as <-. cbn in Ho. simplify_eq.
      * destruct K4 as [H1 H2]. split; [|exact H2]. rewrite Hro; [done|]. intros ->.
        destruct Hold as [?|Hs]; [congruence|]. rewrite H1 in Hs. injection Hs as <-. cbn in Ho. simplify_eq.
  - intros c1 i1. rewrite (ef_ids E). intros [[<- <-]|[Hne Hi1]]%lookup_insert_Some.
    { eapply id_ok_used; [exact Hr|exact Ho|]. cbn. split; [exact Hh|]. split; [exact Hp|].
      exists q'. cbn. rewrite (ef_qps E), lookup_insert_eq. split; [done|]. split; [exact Hrefs|].
      rewrite (ef_evs E), kinds_app, kinds_own. exact Hlife. }
    pose proof (I2 c1 i1 Hi1) as (Hh1 & Hp1 & Hm). unfold id_ok. cbn [sy_dev sy_roles] in *. rewrite Hro by done.
    rewrite (ef_list E), (ef_evs E), kinds_app, (kinds_other c1 c) by done. rewrite app_nil_r.
    split; [exact Hh1|]. split; [exact Hp1|].
    assert (∀ b k, used_ok (mk_sys d ca ro) c1 b k i1 → used_ok (mk_sys d' ca' ro') c1 b k i1) as Hu.
    { intros b k (x & Hx & Hr1 & Hl1). cbn in Hx, Hl1.
      destruct (decide (k = qpn)) as [->|Hk].
      - exists q'. cbn. rewrite (ef_qps E), lookup_insert_eq. split; [done|].
        rewrite Eq in Hx. injection Hx as <-.
        assert (cq_cm_id q ≠ Some c1) as Hq1 by (destruct Hq as [-> | ->]; congruence).
        assert (cq_cm_id q' ≠ Some c1) as Hq1' by (destruct Hq' as [-> | ->]; congruence).
        rewrite decide_False in Hr1 by done. rewrite decide_False by done. split; [exact Hr1|].
        rewrite (ef_evs E), kinds_app, (kinds_other c1 c), app_nil_r by done. by apply (life_released b q q').
      - exists x. cbn. rewrite (ef_qps E), lookup_insert_ne by done. split; [done|]. split; [exact Hr1|].
        rewrite (ef_evs E), kinds_app, (kinds_other c1 c), app_nil_r by done. exact Hl1. }
    destruct (ro !! c1) as [[k|k dest|]|]; auto.
  - intros c1 r1 Hc1. rewrite (ef_ids E). destruct (decide (c1 = c)) as [->|Hne]; [by rewrite lookup_insert_eq|].
    rewrite lookup_insert_ne by done. rewrite Hro in Hc1 by done. by eapply I3.
  - intros k w Hw. rewrite (ef_qps E). destruct (decide (k = qpn)) as [->|Hne]; [by rewrite lookup_insert_eq|].
    rewrite lookup_insert_ne by done. rewrite Hca in Hw by done. by eapply I4.
  - intros nd. rewrite (ef_list E), (ef_ids E). intros (j & Hj & Hn)%I5.
    destruct (decide (nd_cm_id nd = c)) as [Hc|Hne].
    { exfalso. rewrite Hc in Hj. simplify_eq. by apply (Hp (nd_name nd)). }
    exists j. by rewrite lookup_insert_ne.
  - by rewrite (ef_list E).
  - intros c1. rewrite (ef_ids E), (ef_evs E).
    intros [Hn Hne]%lookup_insert_None. rewrite kinds_app, (kinds_other c1 c), app_nil_r by done. by apply I7.
Qed.


(** A queue pair changes and keeps its identifier. *)
Lemma inv_quiet d ca ro d' ca' qpn q q' :
  sys_inv (mk_sys d ca ro) → cm_qps d !! qpn = Some q → cm_qps d' = <[qpn := q']> (cm_qps d) →
  cm_ids d' = cm_ids d → cm_list d' = cm_list d → cm_evs d' = cm_evs d →
  cq_cm_id q' = cq_cm_id q → (∀ k, k ≠ qpn → ca' !! k = ca !! k) →
  (∀ accept c l, cq_cm_id q = Some c → life accept q c l → life accept q' c l) →
  qp_ok (mk_sys d' ca' ro) qpn q' → sys_inv (mk_sys d' ca' ro).
Proof.
  intros [I1 I2 I3 I4 I5 I6 I7] Hq Eq Ei El Ee Hid Hca Hlife Hok. cbn [sy_dev sy_calls sy_roles] in *.
  constructor; cbn [sy_dev sy_calls sy_roles]; rewrite ?Ei, ?El, ?Ee; try done.
  - intros k x. rewrite Eq. intros [[<- <-]|[Hne Hx]]%lookup_insert_Some; [exact Hok|].
    destruct (I1 k x Hx) as [K1 K2 K3 K4]. constructor; try done. cbn in *. intros w. rewrite Hca by done. apply K4.
  - intros c i Hi. destruct (I2 c i Hi) as (Hh & Hp & Hm). unfold id_ok. cbn [sy_dev sy_roles] in *. rewrite El, Ee.
    split; [exact Hh|]. split; [exact Hp|].
    assert (∀ b k, used_ok (mk_sys d ca ro) c b k i → used_ok (mk_sys d' ca' ro) c b k i) as Hu.
    { intros b k (x & Hx & Hr & Hl). cbn in Hx, Hl. unfold used_ok. cbn. rewrite Eq, Ee.
      destruct (decide (k = qpn)) as [->|Hk]; [|exists x; rewrite lookup_insert_ne by done; auto].
      rewrite Hq in Hx. injection Hx as <-. exists q'. rewrite lookup_insert_eq, Hid. split; [done|]. split; [exact Hr|].
      destruct (decide (cq_cm_id q = Some c)) as [Hc|Hc]; [by apply Hlife|]. apply (life_released b q q'); [done|by rewrite Hid|done]. }
    destruct (ro !! c) as [[k|k dest|]|]; auto.
  - intros k w Hw. rewrite Eq. destruct (decide (k = qpn)) as [->|Hne]; [by rewrite lookup_insert_eq|].
    rewrite lookup_insert_ne by done. rewrite Hca in Hw by done. by eapply I4.
Qed.

Lemma inv_same d ca ro d' : sys_inv (mk_sys d ca ro) → same_cm d d' → sys_inv (mk_sys d' ca ro).
Proof.
  intros [I1 I2 I3 I4 I5 I6 I7] [Eq Ei El Ee]. cbn [sy_dev sy_calls sy_roles] in *.
  constructor; cbn [sy_dev sy_calls sy_roles]; rewrite ?Eq, ?Ei, ?El, ?Ee; try done.
  - intros k x Hx. destruct (I1 k x Hx). by constructor.
  - intros c i Hi. specialize (I2 c i Hi). unfold id_ok, used_ok in *. cbn in *. by rewrite Eq, El, Ee.
Qed.

(** A call returns. *)
Lemma inv_return d ca ro qpn : sys_inv (mk_sys d ca ro) → sys_inv (mk_sys d (delete qpn ca) ro).
Proof.
  intros [I1 I2 I3 I4 I5 I6 I7]. cbn [sy_dev sy_calls sy_roles] in *. constructor; cbn [sy_dev sy_calls sy_roles]; try done.
  - intros k x Hx. destruct (I1 k x Hx) as [K1 K2 K3 K4]. constructor; try done. cbn in *.
    intros w [_ Hw]%lookup_delete_Some. by apply K4.
  - intros k w [_ Hw]%lookup_delete_Some. by eapply I4.
Qed.

(** ** The effect of each operation *)

Lemma add_refs_zero i : ci_add_refs 0 i = i.
Proof. destruct i. unfold ci_add_refs. cbn. f_equal. lia. Qed.

Lemma get_qp_id d qpn q : cm_qps d !! qpn = Some q → ntrdma_get_qp qpn d = (true, d).
Proof.
  intros Hq. unfold ntrdma_get_qp, ntrdma_dev_qp_look_and_get, ntrdma_qp_put, qp_add_refs. rewrite Hq. cbn.
  rewrite lookup_insert_eq. unfold cm_set_qp. cbn. rewrite insert_insert_eq, insert_id; [by destruct d|].
  rewrite Hq. destruct q. unfold cq_add_refs. cbn. do 2 f_equal. lia.
Qed.

Ltac by_effect :=
  constructor; cbn; try done; rewrite ?insert_insert_eq, ?app_nil_r; try done; rewrite ?add_refs_zero;
  first [by rewrite insert_id|by rewrite <- app_assoc|done].

Lemma connect_begin_cases c p d rc d1 q i :
  cm_qps d !! cp_qpn p = Some q → cq_cm_id q = None → cm_ids d !! c = Some i → cp_private_data_len p <= private_data_max_len →
  ntrdma_connect_begin c p d = Some (rc, d1) →
  (rc ≠ 0 ∧ d1 = d)
  ∨ (rc = 0 ∧ effect d d1 (cp_qpn p) q (mk_cm_qp NTRDMA_CM_STATE_CONNECTING (Some c) (cq_refs q)) c i 1 []).
Proof.
  intros Hq Hid Hi Hlen. unfold ntrdma_connect_begin. rewrite (get_qp_id d (cp_qpn p) q Hq). cbv zeta. rewrite Hq.
  destruct (cq_state q =? _); [|intros [= <- <-]; by left].
  destruct (ntc_is_link_up _); [|intros [= <- <-]; by left].
  cbn [negb]. replace (private_data_max_len <? cp_private_data_len p) with false by (symmetry; apply Z.ltb_ge; lia).
  cm_run. intros [= <- <-]. right. split; [done|]. by_effect.
Qed.

Lemma connect_end_cases c qpn rc d rc' d1 q i :
  cm_qps d !! qpn = Some q → cm_ids d !! c = Some i → ntrdma_connect_end c qpn rc d = Some (rc', d1) →
  d1 = d ∨ (cq_state q = NTRDMA_CM_STATE_CONNECTING
            ∧ effect d d1 qpn q (mk_cm_qp NTRDMA_CM_STATE_IDLE None (cq_refs q)) c i (-1) []).
Proof.
  intros Hq Hi. unfold ntrdma_connect_end. destruct (rc =? 0); [intros [= _ <-]; by left|]. rewrite Hq.
  destruct (Z.eqb_spec (cq_state q) NTRDMA_CM_STATE_CONNECTING); [|intros [= _ <-]; by left].
  cm_run. intros [= _ <-]. right. split; [done|]. by_effect.
Qed.

Lemma accept_begin_effect c p dest d d1 q i :
  cm_qps d !! cp_qpn p = Some q → cm_ids d !! c = Some i → ntrdma_accept_begin c p dest d = Some d1 →
  effect d d1 (cp_qpn p) q (mk_cm_qp (cq_state q) (Some c) (cq_refs q)) c i 1 [].
Proof.
  intros Hq Hi. unfold ntrdma_accept_begin. rewrite (get_qp_id d (cp_qpn p) q Hq). cbv zeta. cm_run.
  unfold modify_local, recv_work. cbn. destruct (ntrdma_modify_qp_local _ _ _) as [x w].
  intros [= <-]. by_effect.
Qed.

Lemma accept_end_cases up c p dest rc d rc' d1 q i :
  cm_qps d !! cp_qpn p = Some q → cm_ids d !! c = Some i → ntrdma_accept_end up c p dest rc d = Some (rc', d1) →
  same_cm d d1
  ∨ (cq_state q = NTRDMA_CM_STATE_IDLE
     ∧ ∃ e, ie_event e = IW_CM_EVENT_ESTABLISHED
         ∧ effect d d1 (cp_qpn p) q (mk_cm_qp NTRDMA_CM_STATE_ESTABLISHED (cq_cm_id q) (cq_refs q)) c i 0 [e]).
Proof.
  intros Hq Hi. unfold ntrdma_accept_end. destruct (rc =? 0); [cbn [negb]|intros [= _ <-]; left; apply same_cm_refl].
  unfold modify_image. destruct (ntrmda_rqp_modify_local _ _ _ _ _) as [x w]. cbn. rewrite Hq.
  destruct (Z.eqb_spec (cq_state q) NTRDMA_CM_STATE_IDLE); cbn [negb]; [|intros [= _ <-]; left; by constructor].
  unfold ntrdma_fire_conn_est. cm_run. destruct (ci_handler i); [|done]. intros [= _ <-]. right. split; [done|].
  eexists. split; [|by_effect]. done.
Qed.
Lemma kill_cases up qpn d d1 q c i :
  cm_qps d !! qpn = Some q → cq_cm_id q = Some c → cm_ids d !! c = Some i → ci_handler i = true →
  ntrdma_cm_kill up qpn d = Some d1 →
  (d1 = d ∧ cq_state q ≠ NTRDMA_CM_STATE_ESTABLISHED)
  ∨ (cq_state q = NTRDMA_CM_STATE_ESTABLISHED
     ∧ ∃ id es, effect d d1 qpn q (mk_cm_qp NTRDMA_CM_STATE_KILLING id (cq_refs q)) c i (match id with Some _ => 0 | None => -1 end) es
         ∧ ((id = Some c ∧ ie_event <$> es = [IW_CM_EVENT_DISCONNECT])
            ∨ (id = None ∧ ie_event <$> es = [IW_CM_EVENT_DISCONNECT; IW_CM_EVENT_CLOSE]))).
Proof.
  intros Hq Hc Hi Hh. unfold ntrdma_cm_kill. rewrite Hq.
  destruct (Z.eqb_spec (cq_state q) NTRDMA_CM_STATE_ESTABLISHED); cbn [negb]; [|intros [= <-]; by left].
  unfold ntrdma_cm_fire_disconnect, ntrdma_cm_fire_close. rewrite Hc. cm_run.
  destruct (_ =? 0).
  - cm_run. intros [= <-]. right. split; [done|]. exists None, [plain_event IW_CM_EVENT_DISCONNECT 0; plain_event IW_CM_EVENT_CLOSE 0]. split; [by_effect|by right].
  - intros [= <-]. right. split; [done|]. exists (Some c), [plain_event IW_CM_EVENT_DISCONNECT 0]. split; [|by left].
    unfold cq_set_state. rewrite Hc. by_effect.
Qed.

Lemma shutdown_cases up qpn d d1 q :
  cm_qps d !! qpn = Some q → (∀ c, cq_cm_id q = Some c → ∃ i, cm_ids d !! c = Some i ∧ ci_handler i = true) →
  ntrdma_cm_qp_shutdown up qpn d = Some d1 →
  (d1 = d ∧ cq_state q ≠ NTRDMA_CM_STATE_IDLE ∧ cq_state q ≠ NTRDMA_CM_STATE_CONNECTING)
  ∨ (cq_state q = NTRDMA_CM_STATE_IDLE ∧ d1 = cm_set_qp qpn (cq_set_state NTRDMA_CM_STATE_KILLING q) d)
  ∨ (cq_state q = NTRDMA_CM_STATE_CONNECTING ∧ ∃ c i e, cq_cm_id q = Some c ∧ cm_ids d !! c = Some i
     ∧ e = plain_event IW_CM_EVENT_CONNECT_REPLY (- ECONNRESET)
     ∧ effect d d1 qpn q (mk_cm_qp NTRDMA_CM_STATE_KILLING None (cq_refs q)) c i (-1) [e]).
Proof.
  intros Hq Hids. unfold ntrdma_cm_qp_shutdown. rewrite Hq.
  destruct (Z.eqb_spec (cq_state q) NTRDMA_CM_STATE_IDLE).
  { unfold set_qp. rewrite Hq. intros [= <-]. right. by left. }
  destruct (Z.eqb_spec (cq_state q) NTRDMA_CM_STATE_CONNECTING); cbn [negb]; [|intros [= <-]; by left].
  unfold ntrdma_cm_fire_abort. destruct (cq_cm_id q) as [c|] eqn:Hc; [|done].
  destruct (Hids c eq_refl) as (i & Hi & Hh). cm_run. intros [= <-].
  right. right. split; [done|]. eexists c, i, _. split; [done|]. split; [exact Hi|]. split; [done|]. by_effect.
Qed.

(** A command that names a queue pair that does not connect leaves a reference
    or none. *)
Definition touched d d1 (qpn : Z) (q : cm_qp) : Prop := ∃ n, d1 = cm_set_qp qpn (mk_cm_qp (cq_state q) (cq_cm_id q) n) d.

Lemma reject_cases up cmd d st d1 :
  (∀ qpn q c, cm_qps d !! qpn = Some q → cq_cm_id q = Some c → ∃ i, cm_ids d !! c = Some i ∧ ci_handler i = true) →
  ntrdma_cm_handle_reject up cmd d = Some (st, d1) →
  (cm_qps d !! ic_rqp_num cmd = None ∧ d1 = d)
  ∨ ∃ q, cm_qps d !! ic_rqp_num cmd = Some q
      ∧ ((cq_state q ≠ NTRDMA_CM_STATE_CONNECTING ∧ d1 = cm_set_qp (ic_rqp_num cmd) (cq_add_refs 1 q) d)
         ∨ (cq_state q = NTRDMA_CM_STATE_CONNECTING ∧ ∃ c i e, cq_cm_id q = Some c ∧ cm_ids d !! c = Some i
            ∧ ie_event e = IW_CM_EVENT_CONNECT_REPLY ∧ ie_status e = - ECONNREFUSED
            ∧ effect d d1 (ic_rqp_num cmd) q (mk_cm_qp NTRDMA_CM_STATE_IDLE None (cq_refs q)) c i (-1) [e])).
Proof.
  intros Hids. unfold ntrdma_cm_handle_reject, ntrdma_dev_qp_look_and_get, ntrdma_qp_put.
  destruct (cm_qps d !! ic_rqp_num cmd) as [q|] eqn:Hq; [|rewrite Hq; intros [= _ <-]; by left].
  intros H. right. exists q. split; [done|]. revert H. unfold qp_add_refs. rewrite Hq. cbn. rewrite lookup_insert_eq. cbn.
  destruct (Z.eqb_spec (cq_state q) NTRDMA_CM_STATE_CONNECTING); cbn [negb]; [|intros [= _ <-]; by left].
  unfold ntrdma_fire_reject. destruct (cq_cm_id q) as [c|] eqn:Hc; [|done].
  destruct (Hids _ q c Hq Hc) as (i & Hi & Hh). cm_run. intros [= _ <-].
  right. split; [done|]. exists c, i, (mk_event IW_CM_EVENT_CONNECT_REPLY (- ECONNREFUSED) sa_zero sa_zero None (Z.land (ic_priv_len cmd) 0xff) PNull 0).
  split_and!; [done|exact Hi|done|done|]. constructor; cbn; try done. rewrite !insert_insert_eq. f_equal.
  unfold cq_add_refs, cq_set_id. cbn. f_equal. lia.
Qed.
Lemma put_same d qpn q : cm_qps d !! qpn = Some q → ntrdma_qp_put qpn d = cm_set_qp qpn (cq_add_refs (-1) q) d.
Proof. intros H. unfold ntrdma_qp_put, qp_add_refs. by rewrite H. Qed.

Lemma rep_cases up cmd d st d1 :
  (∀ qpn q c, cm_qps d !! qpn = Some q → cq_cm_id q = Some c → ∃ i, cm_ids d !! c = Some i ∧ ci_handler i = true) →
  ntrdma_cm_handle_rep up cmd d = Some (st, d1) →
  (cm_qps d !! ic_rqp_num cmd = None ∧ d1 = d)
  ∨ ∃ q, cm_qps d !! ic_rqp_num cmd = Some q
      ∧ ((cq_state q ≠ NTRDMA_CM_STATE_CONNECTING ∧ touched d d1 (ic_rqp_num cmd) q)
         ∨ (cq_state q = NTRDMA_CM_STATE_CONNECTING ∧ ∃ c i e q', cq_cm_id q = Some c ∧ cm_ids d !! c = Some i
            ∧ ie_event e = IW_CM_EVENT_CONNECT_REPLY
            ∧ ((ic_status cmd = - ENETUNREACH ∧ ie_status e = - ECONNREFUSED ∧ q' = mk_cm_qp NTRDMA_CM_STATE_IDLE None (cq_refs q)
                ∧ effect d d1 (ic_rqp_num cmd) q q' c i (-1) [e])
               ∨ (ic_status cmd ≠ - ENETUNREACH ∧ ie_status e = ic_status cmd
                  ∧ q' = mk_cm_qp NTRDMA_CM_STATE_ESTABLISHED (Some c) (cq_refs q)
                  ∧ effect d d1 (ic_rqp_num cmd) q q' c i 0 [e])))).
Proof.
  intros Hids. unfold ntrdma_cm_handle_rep, ntrdma_dev_qp_look_and_get.
  destruct (cm_qps d !! ic_rqp_num cmd) as [q|] eqn:Hq; [|rewrite Hq; intros [= _ <-]; by left].
  intros H. right. exists q. split; [done|]. revert H.
  set (d0 := cm_set_qp (ic_rqp_num cmd) (cq_add_refs 1 q) d).
  assert (qp_add_refs 1 (ic_rqp_num cmd) d = d0) as -> by (unfold qp_add_refs; by rewrite Hq).
  assert (cm_qps d0 !! ic_rqp_num cmd = Some (cq_add_refs 1 q)) as Hq0 by (cbn; by rewrite lookup_insert_eq).
  cbv beta iota zeta. rewrite Hq0. destruct (Z.eqb_spec (ic_status cmd) (- ENETUNREACH)) as [Hst|Hst].
  - destruct (ntrdma_cm_handle_reject up cmd d0) as [[rc d2]|] eqn:Hr; [|done]. intros [= _ <-].
    apply reject_cases in Hr as [[? _]|(q2 & Hq2 & Hr)]; [congruence| |].
    + rewrite Hq0 in Hq2. injection Hq2 as <-. cbn [cq_state cq_cm_id cq_add_refs] in Hr.
      destruct Hr as [[Hs ->]|(Hs & c & i & e & Hc & Hi & Hk & Hes & E)].
      * left. split; [exact Hs|]. exists (cq_refs q + 1 + 1 + -1).
        erewrite put_same by (cbn; by rewrite lookup_insert_eq). unfold cm_set_qp, cq_add_refs. cbn.
        by rewrite !insert_insert_eq.
      * right. split; [exact Hs|]. exists c, i, e, (mk_cm_qp NTRDMA_CM_STATE_IDLE None (cq_refs q)). split_and!; [exact Hc|exact Hi|exact Hk|]. left.
        split; [exact Hst|]. split; [exact Hes|]. split; [reflexivity|]. destruct E as [_ _ E1 E2 E3 E4].
        pose proof E1 as Hp. apply (f_equal (λ m, m !! ic_rqp_num cmd)) in Hp. rewrite lookup_insert_eq in Hp.
        rewrite (put_same _ _ _ Hp).
        constructor; cbn; [exact Hq|exact Hi| |exact E2|exact E3|exact E4].
        rewrite E1. cbn. rewrite !insert_insert_eq. f_equal. unfold cq_add_refs. cbn. f_equal. lia.
    + intros k x c. cbn. intros [[<- <-]|[_ Hx]]%lookup_insert_Some; intros Hc;
        [exact (Hids _ q c Hq Hc)|exact (Hids k x c Hx Hc)].
  - cbn [cq_state cq_cm_id cq_add_refs].
    destruct (Z.eqb_spec (cq_state q) NTRDMA_CM_STATE_CONNECTING); cbn [negb].
    2: { intros [= _ <-]. left. split; [done|]. exists (cq_refs q + 1 + -1). rewrite (put_same _ _ _ Hq0).
         unfold cm_set_qp, cq_add_refs. cbn. by rewrite !insert_insert_eq. }
    rewrite (get_qp_id d0 _ _ Hq0). unfold modify_image, modify_local, recv_work.
    destruct (ntrmda_rqp_modify_local _ _ _ _ _) as [x1 w1]. cbn. destruct (ntrdma_modify_qp_local _ _ _) as [x2 w2].
    unfold ntrdma_fire_conn_rep. destruct (cq_cm_id q) as [c|] eqn:Hc; [|done].
    destruct (Hids _ q c Hq Hc) as (i & Hi & Hh). subst d0. cm_run.
    match goal with |- context [let '(_, _) := ?x in _] => destruct x as [pd n] end.
    unfold ntrdma_qp_put. cm_run. intros [= _ <-]. right. split; [done|].
    exists c, i, (mk_event IW_CM_EVENT_CONNECT_REPLY (ic_status cmd) (ci_m_local_addr i) (ci_m_remote_addr i) pd n PNull (ic_ird cmd)),
      (mk_cm_qp NTRDMA_CM_STATE_ESTABLISHED (Some c) (cq_refs q)).
    split_and!; [done|exact Hi|done|]. right. split_and!; [exact Hst|done|done|].
    constructor; cbn; try done; [|by rewrite add_refs_zero, insert_id].
    rewrite !insert_insert_eq. f_equal. unfold cq_add_refs, cq_set_state. cbn. rewrite Hc. f_equal. lia.
Qed.
(** ** Listeners *)

Lemma inv_listen d ca ro d' c i i' :
  sys_inv (mk_sys d ca ro) → (ro !! c = None ∨ ro !! c = Some RListen) → cm_ids d !! c = Some i →
  cm_qps d' = cm_qps d → cm_evs d' = cm_evs d → cm_ids d' = <[c := i']> (cm_ids d) →
  ci_handler i' = true → ci_refs i' = (match ci_provider_data i' with PNode _ => 1 | _ => 0 end) →
  (∀ n, ci_provider_data i' = PNode n → ∃ k, mk_node n c k ∈ cm_list d') →
  (∀ nd, nd_cm_id nd ≠ c → nd ∈ cm_list d' ↔ nd ∈ cm_list d) →
  (∀ nd, nd ∈ cm_list d' → nd_cm_id nd = c → ci_provider_data i' = PNode (nd_name nd)) →
  NoDup (nd_name <$> cm_list d') →
  sys_inv (mk_sys d' ca (<[c := RListen]> ro)).
Proof.
  intros [I1 I2 I3 I4 I5 I6 I7] Hro Hi Eq Ee Ei Hh Hrefs Hp Hl Hlc Hnd. cbn [sy_dev sy_calls sy_roles] in *.
  assert (∀ c1 r, r ≠ RListen → ro !! c1 = Some r → c1 ≠ c) as Hne by (intros c1 r Hr H ->; destruct Hro; congruence).
  constructor; cbn [sy_dev sy_calls sy_roles]; rewrite ?Eq, ?Ee; try done.
  - intros k x Hx. destruct (I1 k x Hx) as [K1 K2 K3 K4]. constructor; try done; cbn in *.
    + intros c1 Hc1. destruct (K3 c1 Hc1) as [H|[dest H]]; [left|right; exists dest];
        (rewrite lookup_insert_ne; [exact H|]); intros <-; by eapply (Hne c); [|exact H|].
    + intros w Hw. specialize (K4 w Hw). destruct w; cbn in *; destruct K4 as [H K4];
        (split; [|exact K4]); (rewrite lookup_insert_ne; [exact H|]); intros <-; by eapply (Hne c); [|exact H|].
  - intros c1 i1. rewrite Ei. intros [[<- <-]|[Hcc Hi1]]%lookup_insert_Some.
    + unfold id_ok. cbn. rewrite lookup_insert_eq, Ee. split; [exact Hh|].
      split; [intros n Hn; split; [done|by apply Hp]|]. split; [exact Hrefs|].
      destruct (I2 c i Hi) as (_ & _ & Hm). cbn in Hm. destruct Hro as [Hr|Hr]; rewrite Hr in Hm; destruct Hm as [_ Hm]; [by rewrite Hm|exact Hm].
    + destruct (I2 c1 i1 Hi1) as (Hh1 & Hp1 & Hm). unfold id_ok, used_ok. cbn in *. rewrite lookup_insert_ne, Eq, Ee by done.
      split; [exact Hh1|]. split; [|exact Hm]. intros n Hn. destruct (Hp1 n Hn) as [H [k Hk]].
      split; [exact H|]. exists k. apply Hl; [by cbn|exact Hk].
  - intros c1 r [[<- _]|[Hcc Hr]]%lookup_insert_Some; rewrite Ei; [by rewrite lookup_insert_eq|].
    rewrite lookup_insert_ne by done. by eapply I3.
  - intros nd Hin. rewrite Ei. destruct (decide (nd_cm_id nd = c)) as [E|E].
    + exists i'. rewrite E, lookup_insert_eq. split; [done|]. by apply Hlc.
    + rewrite lookup_insert_ne by done. apply I5, Hl; done.
  - intros c1. rewrite Ei. intros [H _]%lookup_insert_None. by apply I7.
Qed.

Lemma create_listen_inv alloc c d ca ro rc d' :
  sys_inv (mk_sys d ca ro) → ro !! c = None → (∀ n, alloc = Some n → n ∉ (nd_name <$> cm_list d)) →
  ntrdma_create_listen alloc c d = Some (rc, d') → sys_inv (mk_sys d' ca (<[c := RListen]> ro)).
Proof.
  intros I Hro Hal. unfold ntrdma_create_listen, store_iw_cm_id. destruct (cm_ids d !! c) as [i|] eqn:Hi; [|done].
  pose proof (si_ids _ I c i Hi) as (Hh & Hp & Hm). cbn in Hp, Hm. rewrite Hro in Hm. destruct Hm as [Hr Hk].
  assert (∀ n, ci_provider_data i ≠ PNode n) as Hpn by (intros n Hn; destruct (Hp n Hn) as [H _]; congruence).
  assert (∀ nd, nd ∈ cm_list d → nd_cm_id nd ≠ c) as Hnl.
  { intros nd Hin E. destruct (si_nodes _ I nd Hin) as (j & Hj & Hjp). cbn in Hj. rewrite E, Hi in Hj. injection Hj as <-. by eapply Hpn. }
  assert (sys_inv (mk_sys d ca (<[c := RListen]> ro))) as Hsame.
  { eapply (inv_listen d ca ro d c i i I); auto.
    - by rewrite insert_id.
    - rewrite Hr. destruct (ci_provider_data i) eqn:E; try done. by destruct (Hpn node).
    - intros n Hn. by destruct (Hpn n).
    - intros nd Hin E. by destruct (Hnl nd Hin).
    - apply (si_names _ I). }
  destruct (find_iw_cm_id_node _ _ d); [by intros [= _ <-]|]. destruct alloc as [name|]; [|by intros [= _ <-]].
  unfold update_id. cbn. rewrite Hi. intros [= _ <-]. specialize (Hal name eq_refl).
  eapply (inv_listen d ca ro _ c i); [exact I|by left|exact Hi|done|done|done|exact Hh| | | | |]; cbn.
  - by rewrite Hr.
  - intros n [= ->]. exists (-1). apply elem_of_app. right. by apply list_elem_of_singleton.
  - intros nd Hne. rewrite elem_of_app, list_elem_of_singleton. split; [|by left]. intros [?| ->]; [done|by cbn in Hne].
  - intros nd [Hin|Hin]%elem_of_app E; [by destruct (Hnl nd Hin)|]. apply list_elem_of_singleton in Hin as ->. done.
  - rewrite fmap_app. apply list.NoDup_app. split; [apply (si_names _ I)|]. split; [|apply NoDup_singleton].
    intros x Hx H. apply list_elem_of_singleton in H as ->. done.
Qed.
(** The node of a listener is the one with its name. *)
Lemma listener_node d ca ro c i n :
  sys_inv (mk_sys d ca ro) → cm_ids d !! c = Some i → ci_provider_data i = PNode n →
  ∃ k, List.find (λ x, Nat.eqb (nd_name x) n) (cm_list d) = Some (mk_node n c k).
Proof.
  intros I Hi Hn. destruct (si_ids _ I c i Hi) as (_ & Hp & _). destruct (Hp n Hn) as [_ [k Hk]]. exists k. cbn in Hk.
  pose proof (si_names _ I) as Hnd. cbn in Hnd. revert Hnd Hk. generalize (cm_list d) as l.
  induction l as [|x l IH]; intros Hnd Hk; [by apply not_elem_of_nil in Hk|]. cbn in *.
  apply list.NoDup_cons in Hnd as [Hx Hnd]. apply elem_of_cons in Hk as [<-|Hk]; [cbn; by rewrite Nat.eqb_refl|].
  destruct (Nat.eqb_spec (nd_name x) n) as [E|]; [|by apply IH]. exfalso. apply Hx. rewrite E.
  apply list_elem_of_fmap. by exists (mk_node n c k).
Qed.

Lemma destroy_listen_inv c i n d ca ro rc d' :
  sys_inv (mk_sys d ca ro) → ro !! c = Some RListen → cm_ids d !! c = Some i → ci_provider_data i = PNode n →
  ntrdma_destroy_listen c d = Some (rc, d') → sys_inv (mk_sys d' ca ro).
Proof.
  intros I Hro Hi Hn. destruct (listener_node d ca ro c i n I Hi Hn) as [k Hf].
  pose proof (si_ids _ I c i Hi) as (Hh & Hp & Hm). cbn in Hp, Hm. rewrite Hro, Hn in Hm. destruct Hm as [Hr Hk].
  unfold ntrdma_destroy_listen, update_id, discard_iw_cm_id, rem_ref, update_id. rewrite Hi, Hn.
  cbn [cm_list cm_set_ids]. rewrite Hf. cbn [cm_ids cm_set_ids cm_set_list nd_cm_id]. rewrite lookup_insert_eq. intros [= _ <-]. rewrite <- (insert_id ro c RListen Hro).
  assert (∀ nd, nd ∈ cm_list d → nd_cm_id nd = c → nd_name nd = n) as Hname.
  { intros nd Hin E. destruct (si_nodes _ I nd Hin) as (j & Hj & Hjp). cbn in Hj. rewrite E, Hi in Hj. injection Hj as <-. congruence. }
  assert (∀ nd, nd ∈ cm_list d → nd_name nd = n → nd_cm_id nd = c) as Hid.
  { intros nd Hin E. destruct (si_nodes _ I nd Hin) as (j & Hj & Hjp). cbn in Hj.
    destruct (si_ids _ I _ j Hj) as (_ & Hpj & _). cbn in Hpj. rewrite E in Hjp.
    destruct (listener_node d ca ro _ j n I Hj Hjp) as [k' Hf']. rewrite Hf in Hf'. congruence. }
  eapply (inv_listen d ca ro _ c i _ I); [by right|exact Hi|done|done|cbn; by rewrite insert_insert_eq|exact Hh| | | | |]; cbn [cm_list cm_set_ids cm_set_list].
  - cbn. lia.
  - done.
  - intros nd Hne. rewrite list_elem_of_filter. split; [by intros [_ ?]|]. intros Hin. split; [|done].
    intros E. by destruct Hne; apply Hid.
  - intros nd [Hne Hin]%list_elem_of_filter E. by destruct Hne; apply Hname.
  - eapply sublist_NoDup; [apply (si_names _ I)|]. apply fmap_sublist, sublist_filter.
Qed.

Lemma listener_event_inv c i e d ca ro :
  sys_inv (mk_sys d ca ro) → ro !! c = Some RListen → cm_ids d !! c = Some i → ie_event e = IW_CM_EVENT_CONNECT_REQUEST →
  sys_inv (mk_sys (cm_add_event c e d) ca ro).
Proof.
  intros [I1 I2 I3 I4 I5 I6 I7] Hro Hi He. cbn [sy_dev sy_calls sy_roles] in *.
  assert (∀ c1, kinds c1 (cm_evs d ++ [(c, e)]) = kinds c1 (cm_evs d) ++ (if decide (c = c1) then [IW_CM_EVENT_CONNECT_REQUEST] else [])) as Hk.
  { intros c1. rewrite kinds_app. f_equal. destruct (decide (c = c1)) as [<-|Hne].
    - rewrite <- He. exact (kinds_own c [e]).
    - exact (kinds_other c1 c [e] (not_eq_sym Hne)). }
  constructor; cbn [sy_dev sy_calls sy_roles]; try done.
  - intros k x Hx. destruct (I1 k x Hx). by constructor.
  - intros c1 i1 Hi1. destruct (I2 c1 i1 Hi1) as (Hh & Hp & Hm). unfold id_ok, used_ok. cbn in *. rewrite Hk.
    split; [exact Hh|]. split; [exact Hp|]. destruct (decide (c = c1)) as [<-|Hne].
    + rewrite Hro in *. destruct Hm as [Hm1 Hm2]. split; [exact Hm1|]. apply Forall_app. by split; [|repeat constructor].
    + by rewrite app_nil_r.
  - intros c1 Hn. cbn. rewrite Hk, I7 by done. rewrite decide_False; [done|]. intros <-. cbn in Hn. congruence.
Qed.
(** ** Every step keeps the invariant *)

Lemma states_cases z :
  z ∈ states ↔ z = NTRDMA_CM_STATE_IDLE ∨ z = NTRDMA_CM_STATE_ESTABLISHED ∨ z = NTRDMA_CM_STATE_CONNECTING ∨ z = NTRDMA_CM_STATE_KILLING.
Proof. unfold states. rewrite !elem_of_cons, elem_of_nil. tauto. Qed.

(** What an identifier is to the queue pair that holds it. *)
Lemma inv_held d ca ro qpn q c :
  sys_inv (mk_sys d ca ro) → cm_qps d !! qpn = Some q → cq_cm_id q = Some c →
  ∃ i r accept, cm_ids d !! c = Some i ∧ ci_handler i = true ∧ ro !! c = Some r ∧ role_of r = Some (accept, qpn)
    ∧ ci_refs i = 1 ∧ life accept q c (kinds c (cm_evs d)).
Proof.
  intros I Hq Hc. pose proof (si_qps _ I qpn q Hq) as Hok.
  assert (∃ r accept, ro !! c = Some r ∧ role_of r = Some (accept, qpn)) as (r & accept & Hr & Ho).
  { destruct (qk_id _ _ _ Hok c Hc) as [H|[dest H]]; [by exists (RConn qpn), false|by exists (RAcc qpn dest), true]. }
  destruct (si_roles _ I c r Hr) as [i Hi]. pose proof (si_ids _ I c i Hi) as Hid.
  destruct (proj1 (id_ok_used (mk_sys d ca ro) c i r accept qpn Hr Ho) Hid) as (Hh & _ & q1 & Hq1 & Hrefs & Hl).
  cbn in Hi, Hq1, Hl. rewrite Hq in Hq1. injection Hq1 as <-. rewrite decide_True in Hrefs by done.
  exists i, r, accept. split_and!; done.
Qed.

Lemma inv_ids d ca ro : sys_inv (mk_sys d ca ro) →
  ∀ qpn q c, cm_qps d !! qpn = Some q → cq_cm_id q = Some c → ∃ i, cm_ids d !! c = Some i ∧ ci_handler i = true.
Proof. intros I qpn q c Hq Hc. destruct (inv_held d ca ro qpn q c I Hq Hc) as (i & _ & _ & Hi & Hh & _). by exists i. Qed.

(** An effect on a queue pair and the identifier it holds. *)
Lemma inv_held_effect d ca ro d' ca' qpn q q' c i n es :
  sys_inv (mk_sys d ca ro) → effect d d' qpn q q' c i n es → cq_cm_id q = Some c →
  (∀ k, k ≠ qpn → ca' !! k = ca !! k) →
  ((cq_cm_id q' = None ∧ n = -1) ∨ (cq_cm_id q' = Some c ∧ n = 0)) → cq_state q' ∈ states →
  (cq_cm_id q' = None → cq_state q' ≠ NTRDMA_CM_STATE_CONNECTING ∧ cq_state q' ≠ NTRDMA_CM_STATE_ESTABLISHED) →
  (∀ w, ca' !! qpn = Some w → call_ok w ro q' qpn) →
  (∀ accept, life accept q c (kinds c (cm_evs d)) → life accept q' c (kinds c (cm_evs d) ++ (ie_event <$> es))) →
  sys_inv (mk_sys d' ca' ro).
Proof.
  intros I E Hc Hca Hq' Hst Hnone Hcall Hlife.
  destruct (inv_held d ca ro qpn q c I (ef_q E) Hc) as (j & r & accept & Hj & Hh & Hr & Ho & Hrefs & Hl).
  assert (j = i) as -> by (pose proof (ef_i E); congruence).
  eapply (inv_effect d ca ro d' ca' ro qpn q q' c i n es r accept I E Hr Ho); auto.
  - destruct Hq' as [[-> _]|[-> _]]; auto.
  - constructor; cbn; auto. intros c1 Hc1. assert (c1 = c) as -> by (destruct Hq' as [[? _]|[? _]]; congruence).
    destruct r; cbn in Ho; simplify_eq; [by left|right; by eexists].
  - destruct Hq' as [[-> ->]|[-> ->]]; [rewrite decide_False by done|rewrite decide_True by done]; lia.
Qed.

Lemma call_keep (ca : gmap Z waiting) qpn (ro : gmap nat role) q q' w :
  (∀ w, ca !! qpn = Some w → call_ok w ro q qpn) → ca !! qpn = Some w →
  cq_state q ≠ NTRDMA_CM_STATE_IDLE → cq_state q ≠ NTRDMA_CM_STATE_KILLING →
  (cq_cm_id q' = None ∨ cq_cm_id q' = cq_cm_id q) → call_ok w ro q' qpn.
Proof.
  intros H Hw H1 H2 H3. specialize (H w Hw). destruct w; cbn in *; [|destruct H as (_ & _ & _ & [?|?]); done].
  destruct H as [Hr Hid]. split; [exact Hr|]. destruct H3 as [?|H3]; [by left|]. rewrite H3. exact Hid.
Qed.

Ltac in_states := repeat first [left; reflexivity|right].

Lemma connect_inv d ca ro c i p d1 :
  sys_inv (mk_sys d ca ro) → ro !! c = None → cm_ids d !! c = Some i → unused (cp_qpn p) (mk_sys d ca ro) →
  cp_private_data_len p <= private_data_max_len →
  ∀ rc, ntrdma_connect_begin c p d = Some (rc, d1) →
  sys_inv (mk_sys d1 (if rc =? 0 then <[cp_qpn p := WConn c]> ca else ca) (<[c := RConn (cp_qpn p)]> ro)).
Proof.
  intros I Hro Hi [Hcall (q & Hq & Hid)] Hlen rc H. cbn in Hcall, Hq.
  pose proof (si_ids _ I c i Hi) as (Hh & _ & Hm). cbn in Hm. rewrite Hro in Hm. destruct Hm as [Hr Hk].
  pose proof (si_qps _ I _ q Hq) as [K1 K2 K3 K4]. cbn in *.
  destruct (connect_begin_cases c p d rc d1 q i Hq Hid Hi Hlen H) as [[Hrc ->]|[-> E]].
  - destruct (Z.eqb_spec rc 0); [done|].
    eapply (inv_effect d ca ro d ca _ (cp_qpn p) q q c i 0 [] (RConn (cp_qpn p)) false I); auto.
    + by_effect.
    + by rewrite lookup_insert_eq.
    + intros c' Hc'. by rewrite lookup_insert_ne.
    + constructor; cbn; auto; intros ?; [rewrite Hid; done|by rewrite Hcall].
    + rewrite decide_False by (by rewrite Hid). lia.
    + unfold life. rewrite decide_False by (by rewrite Hid). rewrite Hk. by left.
  - cbn. eapply (inv_effect d ca ro d1 _ _ (cp_qpn p) q _ c i 1 [] (RConn (cp_qpn p)) false I E); auto.
    + by rewrite lookup_insert_eq.
    + intros c' Hc'. by rewrite lookup_insert_ne.
    + intros k Hk'. by rewrite lookup_insert_ne.
    + constructor; cbn; [in_states|done| |].
      * intros c1 [= <-]. left. by rewrite lookup_insert_eq.
      * intros w. rewrite lookup_insert_eq. intros [= <-]. cbn. rewrite lookup_insert_eq. auto.
    + rewrite decide_True by done. lia.
    + unfold life. rewrite decide_True by done. rewrite Hk. right. by left.
Qed.

Lemma accept_inv d ca ro c i p dest d1 :
  sys_inv (mk_sys d ca ro) → ro !! c = None → cm_ids d !! c = Some i → unused (cp_qpn p) (mk_sys d ca ro) →
  ntrdma_accept_begin c p dest d = Some d1 →
  sys_inv (mk_sys d1 (<[cp_qpn p := WAcc c p dest]> ca) (<[c := RAcc (cp_qpn p) dest]> ro)).
Proof.
  intros I Hro Hi [Hcall (q & Hq & Hid)] H. cbn in Hcall, Hq.
  pose proof (si_ids _ I c i Hi) as (Hh & _ & Hm). cbn in Hm. rewrite Hro in Hm. destruct Hm as [Hr Hk].
  pose proof (si_qps _ I _ q Hq) as [K1 K2 K3 K4]. cbn in *.
  pose proof (accept_begin_effect c p dest d d1 q i Hq Hi H) as E.
  assert (cq_state q = NTRDMA_CM_STATE_IDLE ∨ cq_state q = NTRDMA_CM_STATE_KILLING) as Hst.
  { destruct (K2 Hid). apply states_cases in K1. tauto. }
  eapply (inv_effect d ca ro d1 _ _ (cp_qpn p) q _ c i 1 [] (RAcc (cp_qpn p) dest) true I E); auto.
  - by rewrite lookup_insert_eq.
  - intros c' Hc'. by rewrite lookup_insert_ne.
  - intros k Hk'. by rewrite lookup_insert_ne.
  - constructor; cbn; [exact K1|done| |].
    + intros c1 [= <-]. right. exists dest. by rewrite lookup_insert_eq.
    + intros w. rewrite lookup_insert_eq. intros [= <-]. cbn. rewrite lookup_insert_eq. auto.
  - rewrite decide_True by done. lia.
  - unfold life. rewrite decide_True by done. rewrite Hk. cbn. destruct Hst as [-> | ->]; auto 8.
Qed.
Lemma connect_end_inv d ca ro c qpn rc rc' d1 :
  sys_inv (mk_sys d ca ro) → ca !! qpn = Some (WConn c) → ntrdma_connect_end c qpn rc d = Some (rc', d1) →
  sys_inv (mk_sys d1 (delete qpn ca) ro).
Proof.
  intros I Hw H. destruct (si_calls _ I qpn _ Hw) as [q Hq]. cbn in Hq. pose proof (si_qps _ I _ q Hq) as K.
  destruct (qk_call _ _ _ K _ Hw) as [Hr Hid]. destruct (si_roles _ I c _ Hr) as [i Hi]. cbn in Hi.
  destruct (connect_end_cases c qpn rc d rc' d1 q i Hq Hi H) as [->|[Hs E]]; [by apply inv_return|].
  assert (cq_cm_id q = Some c) as Hc by (destruct Hid as [Hn|?]; [|done]; by destruct (qk_none _ _ _ K Hn)).
  eapply (inv_held_effect d ca ro d1 _ qpn q _ c i _ _ I E Hc); auto.
  - intros k Hk. by rewrite lookup_delete_ne.
  - in_states.
  - intros w. by rewrite lookup_delete_eq.
  - intros accept. unfold life. rewrite decide_True by done. rewrite decide_False by done. cbn. rewrite app_nil_r, Hs.
    intros [(? & _)|[(_ & _ & ->)|[(? & _)|[(? & _)|(? & _)]]]]; try done. by left.
Qed.

Lemma accept_end_inv up d ca ro c p dest qpn rc rc' d1 :
  sys_inv (mk_sys d ca ro) → ca !! qpn = Some (WAcc c p dest) → ntrdma_accept_end up c p dest rc d = Some (rc', d1) →
  sys_inv (mk_sys d1 (delete qpn ca) ro).
Proof.
  intros I Hw H. destruct (si_calls _ I qpn _ Hw) as [q Hq]. cbn in Hq. pose proof (si_qps _ I _ q Hq) as K.
  destruct (qk_call _ _ _ K _ Hw) as (Hr & Hp & Hc & _). destruct (si_roles _ I c _ Hr) as [i Hi]. cbn in Hi. subst qpn.
  destruct (accept_end_cases up c p dest rc d rc' d1 q i Hq Hi H) as [Hs|(Hs & e & He & E)].
  { apply inv_return. by eapply inv_same. }
  rewrite Hc in E. eapply (inv_held_effect d ca ro d1 _ _ q _ c i _ _ I E Hc); auto.
  - intros k Hk. by rewrite lookup_delete_ne.
  - in_states.
  - intros w. by rewrite lookup_delete_eq.
  - intros accept. unfold life. rewrite !decide_True by done. cbn. rewrite Hs, He.
    intros [(_ & -> & ->)|[(? & _)|[(? & _)|[(? & _)|(? & _)]]]]; try done. cbn. auto.
Qed.

Lemma kill_inv up qpn d ca ro d1 :
  sys_inv (mk_sys d ca ro) → is_Some (cm_qps d !! qpn) → ntrdma_cm_kill up qpn d = Some d1 → sys_inv (mk_sys d1 ca ro).
Proof.
  intros I [q Hq] H. pose proof (si_qps _ I _ q Hq) as K. destruct (cq_cm_id q) as [c|] eqn:Hc.
  2: { destruct (qk_none _ _ _ K Hc) as [_ Hs]. revert H. unfold ntrdma_cm_kill. rewrite Hq.
       destruct (Z.eqb_spec (cq_state q) NTRDMA_CM_STATE_ESTABLISHED); [done|]. by intros [= <-]. }
  destruct (inv_ids d ca ro I qpn q c Hq Hc) as (i & Hi & Hh).
  destruct (kill_cases up qpn d d1 q c i Hq Hc Hi Hh H) as [[-> _]|(Hs & id & es & E & Hes)]; [done|].
  eapply (inv_held_effect d ca ro d1 ca qpn q _ c i _ _ I E Hc); auto.
  - destruct Hes as [[-> _]|[-> _]]; auto.
  - in_states.
  - intros w Hw. eapply (call_keep ca qpn ro q _ w (qk_call _ _ _ K) Hw); [by rewrite Hs..|].
    rewrite Hc. destruct Hes as [[-> _]|[-> _]]; auto.
  - intros accept. unfold life at 1. rewrite decide_True by done. rewrite Hs.
    intros [(? & _)|[(? & _)|[(_ & ->)|[(? & _)|(? & _)]]]]; try done. unfold life. cbn.
    destruct Hes as [[-> ->]|[-> ->]]; [rewrite decide_True by done|rewrite decide_False by done]; cbn; auto 8.
Qed.

Lemma shutdown_inv up qpn d ca ro d1 :
  sys_inv (mk_sys d ca ro) → is_Some (cm_qps d !! qpn) → ntrdma_cm_qp_shutdown up qpn d = Some d1 → sys_inv (mk_sys d1 ca ro).
Proof.
  intros I [q Hq] H. pose proof (si_qps _ I _ q Hq) as K.
  destruct (shutdown_cases up qpn d d1 q Hq (λ c, inv_ids d ca ro I qpn q c Hq) H) as [[-> _]|[[Hs ->]|(Hs & c & i & e & Hc & Hi & -> & E)]]; [done| |].
  - eapply (inv_quiet d ca ro _ ca qpn q); [exact I|exact Hq|done..| |].
    + intros accept c l Hc. unfold life. cbn. rewrite !decide_True by done. rewrite Hs.
      intros [(_ & -> & ->)|[(? & _)|[(? & _)|[(? & _)|(? & _)]]]]; try done. auto 8.
    + destruct K as [K1 K2 K3 K4]. constructor; cbn in *; [in_states|done|exact K3|].
      intros w Hw. specialize (K4 w Hw). destruct w; cbn in *; [done|]. destruct K4 as (? & ? & ? & _). auto.
  - eapply (inv_held_effect d ca ro d1 ca qpn q _ c i _ _ I E Hc); auto.
    + in_states.
    + intros w Hw. eapply (call_keep ca qpn ro q _ w (qk_call _ _ _ K) Hw); [by rewrite Hs..|]. auto.
    + intros accept. unfold life at 1. rewrite decide_True by done. rewrite Hs.
      intros [(? & _)|[(_ & -> & ->)|[(? & _)|[(? & _)|(? & _)]]]]; try done. unfold life. rewrite decide_False by done. cbn. auto.
Qed.

Lemma inv_touched d d1 ca ro qpn q :
  sys_inv (mk_sys d ca ro) → cm_qps d !! qpn = Some q → touched d d1 qpn q → sys_inv (mk_sys d1 ca ro).
Proof.
  intros I Hq [n ->]. pose proof (si_qps _ I _ q Hq) as [K1 K2 K3 K4].
  eapply (inv_quiet d ca ro _ ca qpn q); [exact I|exact Hq|done..|]. constructor; auto.
Qed.

(** A reply, or a rejection, that finds the queue pair connecting. *)
Lemma answered_inv d d1 ca ro qpn q q' c i n e :
  sys_inv (mk_sys d ca ro) → effect d d1 qpn q q' c i n [e] → cq_cm_id q = Some c →
  cq_state q = NTRDMA_CM_STATE_CONNECTING → ie_event e = IW_CM_EVENT_CONNECT_REPLY →
  ((cq_cm_id q' = None ∧ n = -1 ∧ cq_state q' = NTRDMA_CM_STATE_IDLE)
   ∨ (cq_cm_id q' = Some c ∧ n = 0 ∧ cq_state q' = NTRDMA_CM_STATE_ESTABLISHED)) →
  sys_inv (mk_sys d1 ca ro).
Proof.
  intros I E Hc Hs He Hq'. pose proof (si_qps _ I _ q (ef_q E)) as K.
  eapply (inv_held_effect d ca ro d1 ca qpn q q' c i n [e] I E Hc); auto.
  - destruct Hq' as [(-> & -> & _)|(-> & -> & _)]; auto.
  - destruct Hq' as [(_ & _ & ->)|(_ & _ & ->)]; in_states.
  - destruct Hq' as [(_ & _ & ->)|(-> & _ & _)]; done.
  - intros w Hw. eapply (call_keep ca qpn ro q _ w (qk_call _ _ _ K) Hw); [by rewrite Hs..|].
    rewrite Hc. destruct Hq' as [(-> & _)|(-> & _)]; auto.
  - intros accept. unfold life at 1. rewrite decide_True by done. rewrite Hs.
    intros [(? & _)|[(_ & -> & ->)|[(? & _)|[(? & _)|(? & _)]]]]; try done. unfold life. cbn. rewrite He.
    destruct Hq' as [(-> & _ & ->)|(-> & _ & ->)]; [rewrite decide_False by done|rewrite decide_True by done]; auto 8.
Qed.

Lemma recv_inv up a wt cmd d ca ro st d1 :
  sys_inv (mk_sys d ca ro) → ntrdma_cmd_recv_cm up a wt cmd d = Some (st, d1) → sys_inv (mk_sys d1 ca ro).
Proof.
  intros I. unfold ntrdma_cmd_recv_cm. destruct (_ =? _).
  { destruct (ntrdma_cm_handle_connect_req up a wt cmd d) as [[rc d2]|] eqn:H; [|done]. intros [= _ <-].
    revert H. unfold ntrdma_cm_handle_connect_req. destruct (find_iw_cm_id_listener_node _ d) as [nd|] eqn:Hf.
    - apply find_some in Hf as [Hin%list_elem_of_In _]. destruct (si_nodes _ I nd Hin) as (i & Hi & Hp). cbn in Hi.
      destruct (si_ids _ I _ i Hi) as (Hh & Hpn & _). destruct (Hpn _ Hp) as [Hro _]. cbn in Hro.
      unfold event_handler. rewrite Hi, Hh. intros [= _ <-].
      apply (listener_event_inv _ i); [done..|]. unfold request_event. by destruct (request_addrs cmd).
    - unfold ntrdma_cmd_send_rep. destruct (ntrdma_cmd_send _ _ _ _) as [[x d3]|] eqn:Hs; [|done]. intros [= _ <-].
      eapply inv_same; [exact I|]. by eapply send_same. }
  destruct (_ =? _).
  { destruct (ntrdma_cm_handle_rep up cmd d) as [[rc d2]|] eqn:H; [|done]. intros [= _ <-].
    destruct (rep_cases up cmd d rc d2 (inv_ids d ca ro I) H) as [[_ ->]|(q & Hq & [[_ Ht]|(Hs & c & i & e & q' & Hc & Hi & He & Hcase)])]; [done|by eapply inv_touched|].
    destruct Hcase as [(_ & _ & -> & E)|(_ & _ & -> & E)]; eapply (answered_inv _ _ _ _ _ _ _ _ _ _ _ I E Hc Hs He); cbn; auto. }
  destruct (_ =? _); [|by intros [= _ <-]].
  destruct (ntrdma_cm_handle_reject up cmd d) as [[rc d2]|] eqn:H; [|done]. intros [= _ <-].
  destruct (reject_cases up cmd d rc d2 (inv_ids d ca ro I) H) as [[_ ->]|(q & Hq & [[_ ->]|(Hs & c & i & e & Hc & Hi & He & _ & E)])]; [done| |].
  - eapply inv_touched; [exact I|exact Hq|]. by exists (cq_refs q + 1).
  - eapply (answered_inv _ _ _ _ _ _ _ _ _ _ _ I E Hc Hs He). cbn. auto.
Qed.
Lemma new_id_inv d ca ro c i :
  sys_inv (mk_sys d ca ro) → cm_ids d !! c = None → ci_handler i = true → ci_refs i = 0 →
  (∀ n, ci_provider_data i ≠ PNode n) → sys_inv (mk_sys (cm_set_ids (<[c := i]> (cm_ids d)) d) ca ro).
Proof.
  intros [I1 I2 I3 I4 I5 I6 I7] Hn Hh Hr Hp. cbn [sy_dev sy_calls sy_roles] in *.
  assert (∀ c1 r, ro !! c1 = Some r → c1 ≠ c) as Hro by (intros c1 r H ->; destruct (I3 c r H); congruence).
  constructor; cbn [sy_dev sy_calls sy_roles cm_qps cm_ids cm_list cm_evs cm_set_ids]; try done.
  - intros k x Hx. destruct (I1 k x Hx). by constructor.
  - intros c1 i1 [[<- <-]|[Hne Hi]]%lookup_insert_Some; [|exact (I2 c1 i1 Hi)].
    split; [exact Hh|]. split; [intros n Hx; by destruct (Hp n)|]. cbn.
    destruct (ro !! c) eqn:E; [by destruct (Hro _ _ E)|]. split; [exact Hr|by apply I7].
  - intros c1 r H. rewrite lookup_insert_ne by (intros <-; by apply (Hro _ _ H)). by eapply I3.
  - intros nd Hin. destruct (I5 nd Hin) as (j & Hj & Hjp). exists j. split; [|exact Hjp].
    rewrite lookup_insert_ne; [done|]. intros ->. congruence.
  - intros c1 [H _]%lookup_insert_None. by apply I7.
Qed.

Lemma new_qp_inv d ca ro qpn n :
  sys_inv (mk_sys d ca ro) → cm_qps d !! qpn = None →
  sys_inv (mk_sys (cm_set_qp qpn (mk_cm_qp NTRDMA_CM_STATE_IDLE None n) d) ca ro).
Proof.
  intros [I1 I2 I3 I4 I5 I6 I7] Hn. cbn [sy_dev sy_calls sy_roles] in *.
  constructor; cbn [sy_dev sy_calls sy_roles cm_qps cm_ids cm_list cm_evs cm_set_qp]; try done.
  - intros k x [[<- <-]|[Hne Hx]]%lookup_insert_Some; [|destruct (I1 k x Hx); by constructor].
    constructor; cbn; [in_states|done|done|]. intros w Hw. destruct (I4 _ w Hw). congruence.
  - intros c i Hi. destruct (I2 c i Hi) as (Hh & Hp & Hm). split; [exact Hh|]. split; [exact Hp|]. cbn in *.
    assert (∀ b k, used_ok (mk_sys d ca ro) c b k i → used_ok (mk_sys (cm_set_qp qpn (mk_cm_qp NTRDMA_CM_STATE_IDLE None n) d) ca ro) c b k i) as Hu.
    { intros b k (x & Hx & Hr). exists x. split; [|exact Hr]. cbn in *. rewrite lookup_insert_ne; [done|]. intros <-. congruence. }
    destruct (ro !! c) as [[k|k dest|]|]; auto.
  - intros k w Hw. destruct (decide (k = qpn)) as [->|]; [by rewrite lookup_insert_eq|]. rewrite lookup_insert_ne by done. by eapply I4.
Qed.

Lemma priv_len priv len : priv_ok priv len → len <= private_data_max_len.
Proof. intros [->|(b & _ & _ & H)]; [by vm_compute|exact H]. Qed.

Lemma call_step_inv s s' : sys_inv s → call_step s s' → sys_inv s'.
Proof.
  intros I St. destruct St as [| |w d ca ro|c p rc d ca ro d1 Hro [i Hi] Hu Hp Hb Hrc
    |a c i p d ca ro d1 e d2 Hro Hi Hu Hp Ha Hb Hs| |a c i p dest d ca ro d1 e d2 Hro Hi Hd _ Hu Hp Ha Hb Hs| |a wt c pd len d ca ro rc d1 Hro Hp Ha H| | | |].
  - by apply new_id_inv.
  - by apply new_qp_inv.
  - eapply inv_same; [exact I|by constructor].
  - pose proof (connect_inv d ca ro c i p d1 I Hro Hi Hu (priv_len _ _ Hp) rc Hb) as H. destruct (Z.eqb_spec rc 0); done.
  - pose proof (connect_inv d ca ro c i p d1 I Hro Hi Hu (priv_len _ _ Hp) 0 Hb) as H.
    eapply inv_same; [exact H|by eapply send_begin_same].
  - by eapply connect_end_inv.
  - eapply inv_same; [by eapply accept_inv|by eapply send_begin_same].
  - by eapply accept_end_inv.
  - eapply inv_same; [exact I|]. revert H. unfold ntrdma_reject. destruct (cm_ids d !! c) as [i|]; [|done].
    destruct (dest_of i); [|done]. apply send_same.
  - by eapply create_listen_inv.
  - by eapply destroy_listen_inv.
  - by eapply kill_inv.
  - by eapply shutdown_inv.
Qed.

Lemma sys_step_inv s s' : sys_inv s → sys_step s s' → sys_inv s'.
Proof.
  intros I St. destruct St as [s s' St|up a wt cmd d ca ro st d1 _ H]; [exact (call_step_inv s s' I St)|].
  exact (recv_inv up a wt cmd d ca ro st d1 I H).
Qed.

Lemma sys_start_inv s : sys_start s → sys_inv s.
Proof.
  destruct s as [d ca ro]. intros (E1 & E2 & E3 & E4 & E5 & E6). cbn in *.
  constructor; cbn; rewrite ?E1, ?E2, ?E3, ?E4, ?E5, ?E6; try done; [|constructor].
  intros nd H. by apply not_elem_of_nil in H.
Qed.

Lemma sys_reachable_inv s s' : sys_start s → rtc sys_step s s' → sys_inv s'.
Proof. intros H Hr. apply sys_start_inv in H. induction Hr as [|x y z Hs Hr IH]; [done|]. apply IH. by eapply sys_step_inv. Qed.

(** ** Theorems *)

(** The events an identifier may see, by what it is used for. *)
Definition course (r : option role) (l : list iw_cm_event_type) : Prop :=
  match r with
  | None => l = []
  | Some RListen => Forall (λ k, k = IW_CM_EVENT_CONNECT_REQUEST) l
  | Some (RConn _) => l `prefix_of` [IW_CM_EVENT_CONNECT_REPLY; IW_CM_EVENT_DISCONNECT; IW_CM_EVENT_CLOSE]
  | Some (RAcc _ _) => l `prefix_of` [IW_CM_EVENT_ESTABLISHED; IW_CM_EVENT_DISCONNECT; IW_CM_EVENT_CLOSE]
  end.

Lemma life_course accept q c l :
  life accept q c l → l `prefix_of` [start_of accept; IW_CM_EVENT_DISCONNECT; IW_CM_EVENT_CLOSE].
Proof.
  unfold life. destruct (decide _).
  - intros [(_ & _ & ->)|[(_ & _ & ->)|[(_ & ->)|[(_ & _ & ->)|(_ & ->)]]]]; by eexists.
  - intros [->|[[-> ->]| ->]]; by eexists.
Qed.

Lemma inv_course s c i : sys_inv s → cm_ids (sy_dev s) !! c = Some i → course (sy_roles s !! c) (kinds c (cm_evs (sy_dev s))).
Proof.
  intros I Hi. destruct (si_ids _ I c i Hi) as (_ & _ & Hm). unfold course. destruct (sy_roles s !! c) as [[k|k dest|]|].
  - destruct Hm as (q & _ & _ & Hl). by apply life_course in Hl.
  - destruct Hm as (q & _ & _ & Hl). by apply life_course in Hl.
  - by destruct Hm.
  - by destruct Hm.
Qed.


(** Room for the private data, and the data. *)
Lemma gen_perp_defined r room :
  priv_ok (iq_priv r) (iq_priv_len r) → Z.of_nat (length room) = private_data_max_len → is_Some (ntrdma_iw_cm_gen_perp r room).
Proof.
  intros [Hz|(b & Hb & Hlen & Hmax)] Hroom; unfold ntrdma_iw_cm_gen_perp; [rewrite Hz; by eexists|].
  destruct (iq_priv_len r =? 0); [by eexists|]. rewrite Hb.
  replace (iq_priv_len r <? 0) with false by (symmetry; apply Z.ltb_ge; lia).
  replace (Z.of_nat (length b) <? iq_priv_len r) with false by (symmetry; apply Z.ltb_ge; lia).
  replace (Z.of_nat (length room) <? iq_priv_len r) with false by (symmetry; apply Z.ltb_ge; lia). by eexists.
Qed.

Lemma send_begin_defined a r d :
  priv_ok (iq_priv r) (iq_priv_len r) → room_ok a → is_Some (ntrdma_cmd_send_begin a r d).
Proof.
  intros Hp Ha. unfold ntrdma_cmd_send_begin. destruct (_ <? _); [by eexists|]. destruct (_ <? _); [by eexists|].
  destruct (gen_perp_defined r (sn_room a) Hp Ha) as [c ->]. by eexists.
Qed.

Lemma send_defined a wt r d : priv_ok (iq_priv r) (iq_priv_len r) → room_ok a → is_Some (ntrdma_cmd_send a wt r d).
Proof.
  intros Hp Ha. unfold ntrdma_cmd_send. destruct (send_begin_defined a r d Hp Ha) as [[[rc|] d'] ->]; by eexists.
Qed.

Lemma kill_defined d ca ro up qpn :
  sys_inv (mk_sys d ca ro) → is_Some (cm_qps d !! qpn) → is_Some (ntrdma_cm_kill up qpn d).
Proof.
  intros I [q Hq]. unfold ntrdma_cm_kill. rewrite Hq. destruct (Z.eqb_spec (cq_state q) NTRDMA_CM_STATE_ESTABLISHED) as [Hs|]; [cbn [negb]|by eexists].
  destruct (cq_cm_id q) as [c|] eqn:Hc; [|by destruct (qk_none _ _ _ (si_qps _ I _ q Hq) Hc)].
  destruct (inv_ids d ca ro I qpn q c Hq Hc) as (i & Hi & Hh).
  unfold ntrdma_cm_fire_disconnect, ntrdma_cm_fire_close. cm_run. destruct (_ =? 0); cm_run; by eexists.
Qed.

Lemma shutdown_defined d ca ro up qpn :
  sys_inv (mk_sys d ca ro) → is_Some (cm_qps d !! qpn) → is_Some (ntrdma_cm_qp_shutdown up qpn d).
Proof.
  intros I [q Hq]. unfold ntrdma_cm_qp_shutdown. rewrite Hq. destruct (_ =? _); [by eexists|].
  destruct (Z.eqb_spec (cq_state q) NTRDMA_CM_STATE_CONNECTING) as [Hs|]; [cbn [negb]|by eexists].
  destruct (cq_cm_id q) as [c|] eqn:Hc; [|by destruct (qk_none _ _ _ (si_qps _ I _ q Hq) Hc)].
  destruct (inv_ids d ca ro I qpn q c Hq Hc) as (i & Hi & Hh). unfold ntrdma_cm_fire_abort. cm_run. by eexists.
Qed.

Lemma reject_defined d up cmd :
  (∀ qpn q, cm_qps d !! qpn = Some q → cq_state q = NTRDMA_CM_STATE_CONNECTING →
     ∃ c i, cq_cm_id q = Some c ∧ cm_ids d !! c = Some i ∧ ci_handler i = true) →
  is_Some (ntrdma_cm_handle_reject up cmd d).
Proof.
  intros H. unfold ntrdma_cm_handle_reject, ntrdma_dev_qp_look_and_get, ntrdma_qp_put.
  destruct (cm_qps d !! ic_rqp_num cmd) as [q|] eqn:Hq; [|rewrite Hq; by eexists].
  unfold qp_add_refs. rewrite Hq. cbn. rewrite lookup_insert_eq. cbn.
  destruct (Z.eqb_spec (cq_state q) NTRDMA_CM_STATE_CONNECTING) as [Hs|]; [cbn [negb]|by eexists].
  destruct (H _ q Hq Hs) as (c & i & Hc & Hi & Hh). unfold ntrdma_fire_reject. rewrite Hc. cm_run. by eexists.
Qed.
Lemma inv_connecting d ca ro : sys_inv (mk_sys d ca ro) →
  ∀ qpn q, cm_qps d !! qpn = Some q → cq_state q = NTRDMA_CM_STATE_CONNECTING →
    ∃ c i, cq_cm_id q = Some c ∧ cm_ids d !! c = Some i ∧ ci_handler i = true.
Proof.
  intros I qpn q Hq Hs. destruct (cq_cm_id q) as [c|] eqn:Hc; [|by destruct (qk_none _ _ _ (si_qps _ I _ q Hq) Hc)].
  destruct (inv_ids d ca ro I qpn q c Hq Hc) as (i & Hi & Hh). by exists c, i.
Qed.

Lemma rep_defined d up cmd :
  (∀ qpn q, cm_qps d !! qpn = Some q → cq_state q = NTRDMA_CM_STATE_CONNECTING →
     ∃ c i, cq_cm_id q = Some c ∧ cm_ids d !! c = Some i ∧ ci_handler i = true) →
  is_Some (ntrdma_cm_handle_rep up cmd d).
Proof.
  intros H. unfold ntrdma_cm_handle_rep, ntrdma_dev_qp_look_and_get.
  destruct (cm_qps d !! ic_rqp_num cmd) as [q|] eqn:Hq; [|rewrite Hq; by eexists].
  set (d0 := cm_set_qp (ic_rqp_num cmd) (cq_add_refs 1 q) d).
  assert (qp_add_refs 1 (ic_rqp_num cmd) d = d0) as -> by (unfold qp_add_refs; by rewrite Hq).
  assert (cm_qps d0 !! ic_rqp_num cmd = Some (cq_add_refs 1 q)) as Hq0 by (cbn; by rewrite lookup_insert_eq).
  cbv beta iota zeta. rewrite Hq0. destruct (_ =? _).
  - destruct (reject_defined d0 up cmd) as [[rc d2] ->]; [|by eexists].
    intros k x. cbn. intros [[<- <-]|[_ Hx]]%lookup_insert_Some Hs; [exact (H _ q Hq Hs)|exact (H k x Hx Hs)].
  - cbn [cq_state cq_cm_id cq_add_refs]. destruct (Z.eqb_spec (cq_state q) NTRDMA_CM_STATE_CONNECTING) as [Hs|]; cbn [negb]; [|by eexists].
    destruct (H _ q Hq Hs) as (c & i & Hc & Hi & Hh). rewrite (get_qp_id d0 _ _ Hq0). unfold modify_image, modify_local, recv_work.
    destruct (ntrmda_rqp_modify_local _ _ _ _ _) as [x1 w1]. cbn. destruct (ntrdma_modify_qp_local _ _ _) as [x2 w2].
    unfold ntrdma_fire_conn_rep. rewrite Hc. subst d0. cm_run.
    match goal with |- context [let '(_, _) := ?x in _] => destruct x as [pd n] end. by eexists.
Qed.

Lemma recv_defined d ca ro up a wt cmd :
  sys_inv (mk_sys d ca ro) → room_ok a → is_Some (ntrdma_cmd_recv_cm up a wt cmd d).
Proof.
  intros I Ha. unfold ntrdma_cmd_recv_cm. destruct (_ =? _).
  { unfold ntrdma_cm_handle_connect_req. destruct (find_iw_cm_id_listener_node _ d) as [nd|] eqn:Hf.
    - apply find_some in Hf as [Hin%list_elem_of_In _]. destruct (si_nodes _ I nd Hin) as (i & Hi & Hp). cbn in Hi.
      destruct (si_ids _ I _ i Hi) as (Hh & _). unfold event_handler. rewrite Hi, Hh. by eexists.
    - unfold ntrdma_cmd_send_rep. edestruct (send_defined a wt) as [[x d1] ->]; [|exact Ha|by eexists]. by left. }
  destruct (_ =? _); [destruct (rep_defined d up cmd (inv_connecting d ca ro I)) as [[x d1] ->]; by eexists|].
  destruct (_ =? _); [destruct (reject_defined d up cmd (inv_connecting d ca ro I)) as [[x d1] ->]; by eexists|by eexists].
Qed.

Lemma connect_end_defined d ca ro c qpn rc :
  sys_inv (mk_sys d ca ro) → ca !! qpn = Some (WConn c) → is_Some (ntrdma_connect_end c qpn rc d).
Proof.
  intros I Hw. destruct (si_calls _ I qpn _ Hw) as [q Hq]. cbn in Hq.
  destruct (qk_call _ _ _ (si_qps _ I _ q Hq) _ Hw) as [Hr _]. destruct (si_roles _ I c _ Hr) as [i Hi]. cbn in Hi.
  unfold ntrdma_connect_end. destruct (_ =? _); [by eexists|]. rewrite Hq. destruct (_ =? _); [|by eexists]. cm_run. by eexists.
Qed.

Lemma accept_end_defined d ca ro up c p dest qpn rc :
  sys_inv (mk_sys d ca ro) → ca !! qpn = Some (WAcc c p dest) → is_Some (ntrdma_accept_end up c p dest rc d).
Proof.
  intros I Hw. destruct (si_calls _ I qpn _ Hw) as [q Hq]. cbn in Hq.
  destruct (qk_call _ _ _ (si_qps _ I _ q Hq) _ Hw) as (Hr & Hp & Hc & _). subst qpn.
  destruct (inv_ids d ca ro I _ q c Hq Hc) as (i & Hi & Hh).
  unfold ntrdma_accept_end. destruct (rc =? 0); cbn [negb]; [|by eexists].
  unfold modify_image. destruct (ntrmda_rqp_modify_local _ _ _ _ _) as [x w]. cbn. rewrite Hq.
  destruct (_ =? _); cbn [negb]; [|by eexists]. unfold ntrdma_fire_conn_est. cm_run. by eexists.
Qed.


End Steps.
(** ** A queue pair that connects *)

#[local] Instance demo_low : CmLower unit := {|
  ntrdma_modify_qp_local _ _ w := (0, w); ntrmda_rqp_modify_local _ _ _ _ w := (0, w);
  ntrdma_qp_recv_work _ w := w; ntc_is_link_up _ := true |}.

Definition demo_addr (port : Z) : sockaddr := mk_sa AF_INET port 0x0100007f (replicate 16 0).
Definition demo_id : iw_cm_id := mk_id (demo_addr 700) (demo_addr 800) (demo_addr 700) (demo_addr 800) true PNull 0.
Definition demo_param : iw_cm_conn_param := mk_param (Some [1; 2; 3]) 3 1 5.
Definition demo_send : send_answers := mk_send 0 0 (replicate 168 0).

Definition demo_empty : cm_dev unit := mk_cm ∅ ∅ [] 0 [] [] tt.
Definition demo_idle : cm_dev unit :=
  cm_set_ids (<[0%nat := demo_id]> ∅) (cm_set_qp 5 (mk_cm_qp NTRDMA_CM_STATE_IDLE None 1) demo_empty).
Definition demo_begun : cm_dev unit := default demo_empty (snd <$> ntrdma_connect_begin 0%nat demo_param demo_idle).
Definition demo_waits : cm_dev unit :=
  default demo_empty (snd <$> ntrdma_cmd_send_begin demo_send (connect_req demo_id demo_param) demo_begun).

Definition demo_nothing : cm_sys unit := mk_sys demo_empty ∅ ∅.
Definition demo_connecting : cm_sys unit := mk_sys demo_waits (<[5 := WConn 0%nat]> ∅) (<[0%nat := RConn 5]> ∅).

Lemma demo_nothing_starts : sys_start demo_nothing.
Proof. by split_and!. Qed.

Lemma demo_param_ok : priv_ok (cp_private_data demo_param) (cp_private_data_len demo_param).
Proof. right. exists [1; 2; 3]. split; [done|]. split; [done|]. by vm_compute. Qed.

Lemma demo_send_ok : room_ok demo_send.
Proof. by vm_compute. Qed.

Lemma demo_reached : rtc sys_step demo_nothing demo_connecting.
Proof.
  eapply rtc_l; [apply st_call, (st_new_qp 5 1); reflexivity|].
  eapply rtc_l; [apply st_call, (st_new_id 0%nat demo_id); [reflexivity..|discriminate]|].
  apply rtc_once, st_call. apply (st_connect demo_send 0%nat demo_id demo_param _ _ _ demo_begun None).
  - reflexivity.
  - reflexivity.
  - split; [reflexivity|]. eexists. split; reflexivity.
  - exact demo_param_ok.
  - exact demo_send_ok.
  - vm_compute. reflexivity.
  - vm_compute. reflexivity.
Qed.



Definition demo_up : nat → iw_cm_event → Z := λ _ _, 0.


(** Private data that does not fit: the reference is given back, and the queue
    pair keeps the identifier. *)
Lemma oversized_private_data_dangles :
  ∃ d, ntrdma_connect_begin 0%nat (mk_param (Some (replicate 200 0)) 200 1 5) demo_idle = Some (- EINVAL, d)
    ∧ cq_cm_id <$> cm_qps d !! 5 = Some (Some 0%nat) ∧ ci_refs <$> cm_ids d !! 0%nat = Some 0.
Proof.
  exists (default demo_empty (snd <$> ntrdma_connect_begin 0%nat (mk_param (Some (replicate 200 0)) 200 1 5) demo_idle)).
  split_and!; vm_compute; reflexivity.
Qed.

End CmSafe.
