(* ===== verification/CmNet.v ===== *)
(** * Two connection managers

    The commands one device sends arrive at the other in order, or are lost with
    the link; between them the calls of both kernels, resets and the rest of the
    drivers interleave. *)

From stdpp Require Import gmap.
From S2P Require Import Prelude Wr Cm CmSafe.
Import Wr Cm CmSafe.

Module CmNet.

Section Frames.
Context {W : Type} `{L : CmLower W}.
Implicit Type d : cm_dev W.

(** ** What each operation sends *)

Lemma sent_set_qp f qpn d : cm_sent (set_qp f qpn d) = cm_sent d.
Proof. unfold set_qp. by destruct (_ !! _). Qed.

Lemma sent_refs n qpn d : cm_sent (qp_add_refs n qpn d) = cm_sent d.
Proof. unfold qp_add_refs. by destruct (_ !! _). Qed.

Lemma sent_update f c d d' : update_id f c d = Some d' → cm_sent d' = cm_sent d.
Proof. unfold update_id. destruct (_ !! _); [|done]. by intros [= <-]. Qed.

Lemma sent_event up c e d rc d' : event_handler up c e d = Some (rc, d') → cm_sent d' = cm_sent d.
Proof. unfold event_handler. destruct (_ !! _) as [i|]; [|done]. destruct (ci_handler i); [|done]. by intros [= _ <-]. Qed.

Lemma sent_get qpn d : cm_sent (snd (ntrdma_get_qp qpn d)) = cm_sent d.
Proof.
  unfold ntrdma_get_qp, ntrdma_dev_qp_look_and_get, ntrdma_qp_put. destruct (_ !! _); [|done]. cbn. by rewrite !sent_refs.
Qed.

Lemma sent_local qpn dest d : cm_sent (snd (modify_local qpn dest d)) = cm_sent d.
Proof. unfold modify_local. by destruct (ntrdma_modify_qp_local _ _ _). Qed.

Lemma sent_image src dest d : cm_sent (snd (modify_image src dest d)) = cm_sent d.
Proof. unfold modify_image. by destruct (ntrmda_rqp_modify_local _ _ _ _ _). Qed.

#[local] Hint Rewrite sent_set_qp sent_refs : cm_sent.

Ltac same_sent :=
  intros; repeat case_match;
  repeat match goal with
  | H : None = Some _ |- _ => discriminate H
  | H : Some _ = Some _ |- _ => injection H; clear H; intros
  | H : (_, _) = (_, _) |- _ => injection H; clear H; intros
  end; subst;
  repeat match goal with
  | H : update_id _ _ _ = Some _ |- _ => apply sent_update in H
  | H : rem_ref _ _ = Some _ |- _ => apply sent_update in H
  | H : add_ref _ _ = Some _ |- _ => apply sent_update in H
  | H : event_handler _ _ _ _ = Some _ |- _ => apply sent_event in H
  | H : ntrdma_get_qp ?q ?d = (_, _) |- _ => let E := fresh in pose proof (sent_get q d) as E; rewrite H in E; clear H
  | H : modify_local ?q ?n ?d = (_, _) |- _ => let E := fresh in pose proof (sent_local q n d) as E; rewrite H in E; clear H
  | H : modify_image ?q ?n ?d = (_, _) |- _ => let E := fresh in pose proof (sent_image q n d) as E; rewrite H in E; clear H
  end; cbn [cm_sent snd cm_set_qp cm_set_ids cm_set_list cm_add_event cm_set_low] in *;
  autorewrite with cm_sent in *; try congruence.

Lemma sent_connect_begin c p d rc d1 : ntrdma_connect_begin c p d = Some (rc, d1) → cm_sent d1 = cm_sent d.
Proof. unfold ntrdma_connect_begin. same_sent. Qed.

Lemma sent_connect_end c qpn rc d rc' d1 : ntrdma_connect_end c qpn rc d = Some (rc', d1) → cm_sent d1 = cm_sent d.
Proof. unfold ntrdma_connect_end. same_sent. Qed.

Lemma sent_accept_begin c p dest d d1 : ntrdma_accept_begin c p dest d = Some d1 → cm_sent d1 = cm_sent d.
Proof. unfold ntrdma_accept_begin, recv_work. same_sent. Qed.

Lemma sent_accept_end up c p dest rc d rc' d1 : ntrdma_accept_end up c p dest rc d = Some (rc', d1) → cm_sent d1 = cm_sent d.
Proof. unfold ntrdma_accept_end, ntrdma_fire_conn_est. same_sent. Qed.

Lemma sent_kill up qpn d d1 : ntrdma_cm_kill up qpn d = Some d1 → cm_sent d1 = cm_sent d.
Proof. unfold ntrdma_cm_kill, ntrdma_cm_fire_disconnect, ntrdma_cm_fire_close. same_sent. Qed.

Lemma sent_abort up qpn id d d1 : ntrdma_cm_fire_abort up qpn id d = Some d1 → cm_sent d1 = cm_sent d.
Proof.
  unfold ntrdma_cm_fire_abort. destruct id as [c|]; [|by intros [= <-]]. destruct (negb _); [by intros [= <-]|].
  destruct (event_handler _ _ _ _) as [[x d2]|] eqn:H; [|done]. cbn. intros [= <-]. apply sent_event in H. by rewrite H, sent_set_qp.
Qed.

Lemma sent_shutdown up qpn d d1 : ntrdma_cm_qp_shutdown up qpn d = Some d1 → cm_sent d1 = cm_sent d.
Proof.
  unfold ntrdma_cm_qp_shutdown. same_sent.
  match goal with H : ntrdma_cm_fire_abort _ _ _ _ = Some _ |- _ => apply sent_abort in H end. congruence.
Qed.

Lemma sent_reject_cmd up cmd d st d1 : ntrdma_cm_handle_reject up cmd d = Some (st, d1) → cm_sent d1 = cm_sent d.
Proof. unfold ntrdma_cm_handle_reject, ntrdma_fire_reject, ntrdma_dev_qp_look_and_get, ntrdma_qp_put. same_sent. Qed.

Lemma sent_rep_cmd up cmd d st d1 : ntrdma_cm_handle_rep up cmd d = Some (st, d1) → cm_sent d1 = cm_sent d.
Proof.
  unfold ntrdma_cm_handle_rep, ntrdma_fire_conn_rep, ntrdma_dev_qp_look_and_get, ntrdma_qp_put, recv_work. same_sent.
  all: match goal with H : ntrdma_cm_handle_reject _ _ _ = Some _ |- _ => apply sent_reject_cmd in H end.
  all: rewrite ?sent_refs in *; congruence.
Qed.

Lemma sent_listen alloc c d rc d1 : ntrdma_create_listen alloc c d = Some (rc, d1) → cm_sent d1 = cm_sent d.
Proof. unfold ntrdma_create_listen, store_iw_cm_id. same_sent. Qed.

Lemma sent_destroy c d rc d1 : ntrdma_destroy_listen c d = Some (rc, d1) → cm_sent d1 = cm_sent d.
Proof. unfold ntrdma_destroy_listen, discard_iw_cm_id. same_sent. Qed.

(** ** What each step adds *)

Definition sent_ok (ro : gmap nat role) (m : ntrdma_iw_cm_cmd) : Prop :=
  (ic_cm_op m = NTRDMA_IW_CM_REQ → ∃ c, ro !! c = Some (RConn (ic_qp_num m)))
  ∧ (ic_cm_op m = NTRDMA_IW_CM_REP → ic_status m = 0 → ∃ c, ro !! c = Some (RAcc (ic_qp_num m) (ic_rqp_num m))).

(** Neither a request nor a reply that connects. *)
Definition own_event (e : iw_cm_event) : Prop :=
  ie_event e ≠ IW_CM_EVENT_CONNECT_REQUEST ∧ (ie_event e = IW_CM_EVENT_CONNECT_REPLY → ie_status e ≠ 0).

Lemma gen_perp_fields r room m :
  ntrdma_iw_cm_gen_perp r room = Some m →
  ic_cm_op m = iq_op r ∧ ic_qp_num m = iq_qpn r ∧ ic_rqp_num m = iq_rqpn r ∧ ic_status m = iq_status r.
Proof.
  unfold ntrdma_iw_cm_gen_perp. destruct (_ =? 0); [by intros [= <-]|]. destruct (iq_priv r) as [b|]; [|done].
  destruct (_ || _); [done|]. by intros [= <-].
Qed.

Lemma send_begin_sends a r d e d1 :
  ntrdma_cmd_send_begin a r d = Some (e, d1) →
  ∃ ms, cm_sent d1 = cm_sent d ++ ms
    ∧ ∀ m, m ∈ ms → ic_cm_op m = iq_op r ∧ ic_qp_num m = iq_qpn r ∧ ic_rqp_num m = iq_rqpn r ∧ ic_status m = iq_status r.
Proof.
  unfold ntrdma_cmd_send_begin.
  assert (∀ x, (∃ ms, cm_sent d = cm_sent d ++ ms ∧ ∀ m, m ∈ ms → x m)) as Hnil
    by (intros x; exists []; rewrite app_nil_r; split; [done|]; intros m Hm; by apply not_elem_of_nil in Hm).
  destruct (_ <? _); [intros [= _ <-]; apply Hnil|]. destruct (_ <? _); [intros [= _ <-]; apply Hnil|].
  destruct (ntrdma_iw_cm_gen_perp r (sn_room a)) as [m|] eqn:Hm; [|done]. intros [= _ <-]. exists [m]. split; [done|].
  intros m' ->%list_elem_of_singleton. by eapply gen_perp_fields.
Qed.

Lemma send_sends a wt r d rc d1 :
  ntrdma_cmd_send a wt r d = Some (rc, d1) →
  ∃ ms, cm_sent d1 = cm_sent d ++ ms
    ∧ ∀ m, m ∈ ms → ic_cm_op m = iq_op r ∧ ic_qp_num m = iq_qpn r ∧ ic_rqp_num m = iq_rqpn r ∧ ic_status m = iq_status r.
Proof.
  unfold ntrdma_cmd_send. destruct (ntrdma_cmd_send_begin a r d) as [[e d2]|] eqn:H; [|done].
  apply send_begin_sends in H. destruct e; by intros [= _ <-].
Qed.

Record added (d d' : cm_dev W) (ro ro' : gmap nat role) (P : nat → iw_cm_event → Prop) : Prop := {
  ad_roles : ∀ c r, ro !! c = Some r → ro' !! c = Some r;
  ad_evs : ∃ es, cm_evs d' = cm_evs d ++ es ∧ ∀ c e, (c, e) ∈ es → P c e;
  ad_sent : ∃ ms, cm_sent d' = cm_sent d ++ ms ∧ ∀ m, m ∈ ms → sent_ok ro' m }.

Definition sames (d d' : cm_dev W) : Prop := cm_evs d' = cm_evs d ∧ cm_sent d' = cm_sent d.

Lemma added_same d d' ro ro' P : sames d d' → (∀ c r, ro !! c = Some r → ro' !! c = Some r) → added d d' ro ro' P.
Proof.
  intros [E1 E2] Hro. constructor; [exact Hro| |]; exists []; rewrite app_nil_r; split; try done;
    intros; match goal with H : _ ∈ [] |- _ => by apply not_elem_of_nil in H end.
Qed.

Lemma role_grows (ro : gmap nat role) c0 r0 c r : ro !! c0 = None → ro !! c = Some r → <[c0 := r0]> ro !! c = Some r.
Proof. intros H0 H. rewrite lookup_insert_ne; [done|]. intros ->. congruence. Qed.

Lemma added_events d d' ro P es :
  cm_evs d' = cm_evs d ++ es → (∀ c e, (c, e) ∈ es → P c e) → cm_sent d' = cm_sent d → added d d' ro ro P.
Proof.
  intros E He Hs. constructor; [done|by exists es|]. exists []. rewrite app_nil_r. split; [done|].
  intros m Hm. by apply not_elem_of_nil in Hm.
Qed.

Lemma own_events (c c' : nat) (l : list iw_cm_event) e :
  (∀ x, x ∈ l → own_event x) → (c', e) ∈ ((λ x, (c, x)) <$> l) → own_event e.
Proof. intros H (x & [= _ ->] & Hx)%list_elem_of_fmap. by apply H. Qed.

Lemma kinds_own_events l k1 k2 :
  ie_event <$> l = k1 → (k1 = [IW_CM_EVENT_DISCONNECT] ∨ k1 = [IW_CM_EVENT_DISCONNECT; IW_CM_EVENT_CLOSE]) → k2 ∈ l → own_event k2.
Proof.
  intros <- H Hin. assert (ie_event k2 ∈ ie_event <$> l) as Hk by (apply list_elem_of_fmap; by exists k2).
  assert (ie_event k2 = IW_CM_EVENT_DISCONNECT ∨ ie_event k2 = IW_CM_EVENT_CLOSE) as Hc.
  { destruct H as [H|H]; rewrite H in Hk; rewrite ?elem_of_cons, elem_of_nil in Hk; tauto. }
  split; destruct Hc as [-> | ->]; done.
Qed.
Lemma call_added s s' :
  sys_inv s → call_step s s' → added (sy_dev s) (sy_dev s') (sy_roles s) (sy_roles s') (λ _, own_event).
Proof.
  intros I St. destruct St as [c i d ca ro _ _ _ _|qpn n d ca ro _|w d ca ro|c p rc d ca ro d1 Hro [i Hi] [_ (q & Hq & Hid)] Hp Hb Hrc
    |a c i p d ca ro d1 e d2 Hro Hi [_ (q & Hq & Hid)] Hp Ha Hb Hs|c qpn rc d ca ro rc' d1 Hw H
    |a c i p dest d ca ro d1 e d2 Hro Hi Hd _ [_ (q & Hq & Hid)] Hp Ha Hb Hs|up c p dest qpn rc d ca ro rc' d1 Hw H
    |a wt c pd len d ca ro rc d1 Hro Hp Ha H|alloc c d ca ro rc d1 Hro _ H|c i n d ca ro rc d1 Hro Hi Hn H
    |up qpn d ca ro d1 [q Hq] H|up qpn d ca ro d1 [q Hq] H]; cbn [sy_dev sy_roles].
  - by apply added_same.
  - by apply added_same.
  - by apply added_same.
  - apply added_same; [|intros; by apply role_grows]. cbn in Hq.
    destruct (connect_begin_cases c p d rc d1 q i Hq Hid Hi (priv_len _ _ Hp) Hb) as [[_ ->]|[H0 _]];
      [split; reflexivity|destruct (Hrc H0)].
  - cbn in Hq. destruct (connect_begin_cases c p d 0 d1 q i Hq Hid Hi (priv_len _ _ Hp) Hb) as [[H0 _]|[_ E]];
      [destruct (H0 eq_refl)|].
    apply sent_connect_begin in Hb. pose proof (send_begin_same _ _ _ _ _ Hs) as Hsame.
    destruct (send_begin_sends _ _ _ _ _ Hs) as (ms & Hms & Hf).
    constructor; [intros; by apply role_grows| |].
    + exists []. rewrite (sm_evs _ _ Hsame), (ef_evs _ _ _ _ _ _ _ _ _ E). split; [done|]. intros x y Hx. destruct (not_elem_of_nil _ Hx).
    + exists ms. rewrite Hms, Hb. split; [done|]. intros m Hm. destruct (Hf m Hm) as (E1 & E2 & _ & _).
      unfold connect_req in E1, E2. destruct (addrs_of _ _ _). cbn in E1, E2. split; rewrite E1; [|done].
      intros _. exists c. rewrite E2. apply lookup_insert_eq.
  - destruct (si_calls _ I qpn _ Hw) as [q Hq]. cbn in Hq. destruct (qk_call _ _ _ (si_qps _ I _ q Hq) _ Hw) as [Hr _].
    destruct (si_roles _ I c _ Hr) as [i Hi]. cbn in Hi. apply added_same; [|done]. split; [|by eapply sent_connect_end].
    destruct (connect_end_cases c qpn rc d rc' d1 q i Hq Hi H) as [->|[_ E]]; [done|]. rewrite (ef_evs _ _ _ _ _ _ _ _ _ E). apply app_nil_r.
  - cbn in Hq. pose proof (accept_begin_effect c p dest d d1 q i Hq Hi Hb) as E.
    apply sent_accept_begin in Hb. pose proof (send_begin_same _ _ _ _ _ Hs) as Hsame.
    destruct (send_begin_sends _ _ _ _ _ Hs) as (ms & Hms & Hf).
    constructor; [intros; by apply role_grows| |].
    + exists []. rewrite (sm_evs _ _ Hsame), (ef_evs _ _ _ _ _ _ _ _ _ E). split; [done|]. intros x y Hx. destruct (not_elem_of_nil _ Hx).
    + exists ms. rewrite Hms, Hb. split; [done|]. intros m Hm. destruct (Hf m Hm) as (E1 & E2 & E3 & _).
      unfold accept_req, rep_req in E1, E2, E3. destruct (match cp_private_data p with Some _ => _ | None => _ end).
      cbn in E1, E2, E3. split; rewrite E1; [done|]. intros _ _. exists c. rewrite E2, E3. apply lookup_insert_eq.
  - destruct (si_calls _ I qpn _ Hw) as [q Hq]. cbn in Hq. destruct (qk_call _ _ _ (si_qps _ I _ q Hq) _ Hw) as (Hr & Hp & _).
    destruct (si_roles _ I c _ Hr) as [i Hi]. cbn in Hi. subst qpn. pose proof (sent_accept_end _ _ _ _ _ _ _ _ H) as Hsent.
    destruct (accept_end_cases up c p dest rc d rc' d1 q i Hq Hi H) as [Hsame|(_ & e & He & E)].
    + apply added_same; [|done]. split; [apply (sm_evs _ _ Hsame)|exact Hsent].
    + eapply added_events; [apply (ef_evs _ _ _ _ _ _ _ _ _ E)| |exact Hsent]. intros c' e' Hin. eapply own_events; [|exact Hin].
      intros x ->%list_elem_of_singleton. split; by rewrite He.
  - revert H. unfold ntrdma_reject. destruct (cm_ids d !! c) as [i|]; [|done]. destruct (dest_of i) as [dest|]; [|done].
    intros H. pose proof (send_same _ _ _ _ _ _ H) as Hsame. destruct (send_sends _ _ _ _ _ _ H) as (ms & Hms & Hf).
    constructor; [done| |].
    + exists []. rewrite (sm_evs _ _ Hsame), app_nil_r. split; [done|]. intros x y Hx. destruct (not_elem_of_nil _ Hx).
    + exists ms. split; [exact Hms|]. intros m Hm. destruct (Hf m Hm) as (E1 & _). revert E1. unfold reject_req.
      destruct (if sa_family _ =? _ then _ else _) as [la ra]. cbn. intros E1. split; by rewrite E1.
  - apply added_same; [|intros; by apply role_grows]. split; [|by eapply sent_listen].
    revert H. unfold ntrdma_create_listen, store_iw_cm_id, update_id. destruct (cm_ids d !! c) as [i|] eqn:Hi; [|done].
    destruct (find_iw_cm_id_node _ _ d); [by intros [= _ <-]|]. destruct alloc; [|by intros [= _ <-]].
    cbn [cm_ids cm_set_list]. rewrite Hi. by intros [= _ <-].
  - apply added_same; [|done]. split; [|by eapply sent_destroy].
    destruct (listener_node d ca ro c i n I Hi Hn) as [k Hf]. revert H.
    unfold ntrdma_destroy_listen, update_id, discard_iw_cm_id, rem_ref, update_id. rewrite Hi, Hn.
    cbn [cm_list cm_set_ids]. rewrite Hf. cbn [cm_ids cm_set_ids cm_set_list nd_cm_id]. rewrite lookup_insert_eq. by intros [= _ <-].
  - pose proof (sent_kill _ _ _ _ H) as Hsent. destruct (cq_cm_id q) as [c|] eqn:Hc.
    + destruct (inv_ids d ca ro I qpn q c Hq Hc) as (i & Hi & Hh).
      destruct (kill_cases up qpn d d1 q c i Hq Hc Hi Hh H) as [[-> _]|(_ & id & es & E & Hes)]; [by apply added_same|].
      eapply added_events; [apply (ef_evs _ _ _ _ _ _ _ _ _ E)| |exact Hsent]. intros c' e' Hin. eapply own_events; [|exact Hin].
      intros x Hx. destruct Hes as [[_ Hes]|[_ Hes]]; (eapply kinds_own_events; [exact Hes|auto|exact Hx]).
    + destruct (qk_none _ _ _ (si_qps _ I _ q Hq) Hc) as [_ Hne]. revert H. unfold ntrdma_cm_kill. rewrite Hq.
      destruct (Z.eqb_spec (cq_state q) NTRDMA_CM_STATE_ESTABLISHED); [done|]. intros [= <-]. by apply added_same.
  - pose proof (sent_shutdown _ _ _ _ H) as Hsent.
    destruct (shutdown_cases up qpn d d1 q Hq (λ c, inv_ids d ca ro I qpn q c Hq) H) as [[-> _]|[[_ ->]|(_ & c & i & e & _ & _ & -> & E)]];
      [by apply added_same|by apply added_same|].
    eapply added_events; [apply (ef_evs _ _ _ _ _ _ _ _ _ E)| |exact Hsent]. intros c' e' Hin. eapply own_events; [|exact Hin].
    intros x ->%list_elem_of_singleton. by split.
Qed.
(** What a command of the peer adds. *)
Definition heard (m : ntrdma_iw_cm_cmd) (ro : gmap nat role) (c : nat) (e : iw_cm_event) : Prop :=
  own_event e
  ∨ (ie_event e = IW_CM_EVENT_CONNECT_REQUEST ∧ ic_cm_op m = NTRDMA_IW_CM_REQ ∧ ie_provider_data e = PQp (ic_qp_num m))
  ∨ (ie_event e = IW_CM_EVENT_CONNECT_REPLY ∧ ic_cm_op m = NTRDMA_IW_CM_REP ∧ ie_status e = ic_status m
     ∧ ro !! c = Some (RConn (ic_rqp_num m))).

Lemma recv_added up a wt m d ca ro st d1 :
  sys_inv (mk_sys d ca ro) → ntrdma_cmd_recv_cm up a wt m d = Some (st, d1) → added d d1 ro ro (heard m ro).
Proof.
  intros I.
  assert (∀ qpn q c accept r, cm_qps d !! qpn = Some q → cq_cm_id q = Some c → cq_state q = NTRDMA_CM_STATE_CONNECTING →
    ro !! c = Some r → role_of r = Some (accept, qpn) → life accept q c (kinds c (cm_evs d)) → ro !! c = Some (RConn qpn)) as Hconn.
  { intros qpn q c accept r Hq Hc Hs Hr Ho Hl. unfold life in Hl. rewrite decide_True in Hl by done. rewrite Hs in Hl.
    destruct Hl as [(? & _)|[(_ & -> & _)|[(? & _)|[(? & _)|(? & _)]]]]; try done. destruct r; cbn in Ho; simplify_eq. done. }
  unfold ntrdma_cmd_recv_cm. destruct (Z.eqb_spec (ic_cm_op m) NTRDMA_IW_CM_REQ) as [Hop|_].
  { destruct (ntrdma_cm_handle_connect_req up a wt m d) as [[rc d2]|] eqn:H; [|done]. intros [= _ <-].
    revert H. unfold ntrdma_cm_handle_connect_req. destruct (find_iw_cm_id_listener_node _ d) as [nd|].
    - unfold event_handler. destruct (cm_ids d !! nd_cm_id nd) as [i|]; [|done]. destruct (ci_handler i); [|done]. intros [= _ <-].
      eapply (added_events _ _ _ _ [(nd_cm_id nd, request_event m)]); [done| |done].
      intros c e [= -> ->]%list_elem_of_singleton. right. left. unfold request_event. by destruct (request_addrs m).
    - unfold ntrdma_cmd_send_rep. destruct (ntrdma_cmd_send _ _ _ _) as [[x d3]|] eqn:Hs; [|done]. intros [= _ <-].
      pose proof (send_same _ _ _ _ _ _ Hs) as Hsame. destruct (send_sends _ _ _ _ _ _ Hs) as (ms & Hms & Hf).
      constructor; [done| |].
      + exists []. rewrite (sm_evs _ _ Hsame), app_nil_r. split; [done|]. intros c e Hx. destruct (not_elem_of_nil _ Hx).
      + exists ms. split; [exact Hms|]. intros y Hy. destruct (Hf y Hy) as (E1 & _ & _ & E4). cbn in E1, E4.
        split; rewrite E1; [done|]. intros _ Hz. rewrite E4 in Hz. done. }
  destruct (Z.eqb_spec (ic_cm_op m) NTRDMA_IW_CM_REP) as [Hop|_].
  { destruct (ntrdma_cm_handle_rep up m d) as [[rc d2]|] eqn:H; [|done]. intros [= _ <-]. pose proof (sent_rep_cmd _ _ _ _ _ H) as Hsent.
    destruct (rep_cases up m d rc d2 (inv_ids d ca ro I) H) as [[_ ->]|(q & Hq & [[_ [n ->]]|(Hs & c & i & ev & q' & Hc & Hi & He & Hcase)])];
      [by apply added_same|by apply added_same|].
    destruct (inv_held d ca ro _ q c I Hq Hc) as (j & r & accept & _ & _ & Hr & Ho & _ & Hl).
    specialize (Hconn _ q c accept r Hq Hc Hs Hr Ho Hl).
    destruct Hcase as [(_ & Hes & -> & E)|(_ & Hes & -> & E)].
    - eapply added_events; [apply (ef_evs _ _ _ _ _ _ _ _ _ E)| |exact Hsent]. intros c' e' Hin.
      apply list_elem_of_fmap in Hin as (x & Hx & Hin). apply list_elem_of_singleton in Hin as ->. injection Hx as -> ->. left. by split; rewrite ?He, ?Hes.
    - eapply added_events; [apply (ef_evs _ _ _ _ _ _ _ _ _ E)| |exact Hsent]. intros c' e' Hin.
      apply list_elem_of_fmap in Hin as (x & Hx & Hin). apply list_elem_of_singleton in Hin as ->. injection Hx as -> ->. right. right. auto. }
  destruct (Z.eqb_spec (ic_cm_op m) NTRDMA_IW_CM_REJECT); [|intros [= _ <-]; by apply added_same].
  destruct (ntrdma_cm_handle_reject up m d) as [[rc d2]|] eqn:H; [|done]. intros [= _ <-]. pose proof (sent_reject_cmd _ _ _ _ _ H) as Hsent.
  destruct (reject_cases up m d rc d2 (inv_ids d ca ro I) H) as [[_ ->]|(q & Hq & [[_ ->]|(Hs & c & i & ev & Hc & Hi & He & Hes & E)])];
    [by apply added_same|by apply added_same|].
  eapply added_events; [apply (ef_evs _ _ _ _ _ _ _ _ _ E)| |exact Hsent]. intros c' e' Hin.
  apply list_elem_of_fmap in Hin as (x & Hx & Hin). apply list_elem_of_singleton in Hin as ->. injection Hx as -> ->. left. by split; rewrite ?He, ?Hes.
Qed.
End Frames.

(** ** The two devices *)

Section Net.
Context {Wa Wb : Type} `{La : CmLower Wa} `{Lb : CmLower Wb}.

(** [nt_seen_a]: how many of b's commands have left the link at a's end. *)
Record net := mk_net { nt_a : cm_sys Wa; nt_b : cm_sys Wb; nt_seen_a : nat; nt_seen_b : nat }.

Definition set_dev {W} (d : cm_dev W) (s : cm_sys W) : cm_sys W := mk_sys d (sy_calls s) (sy_roles s).

Inductive net_step : net → net → Prop :=
  | nt_call_a a a' b na nb : call_step a a' → net_step (mk_net a b na nb) (mk_net a' b na nb)
  | nt_call_b a b b' na nb : call_step b b' → net_step (mk_net a b na nb) (mk_net a b' na nb)
  | nt_recv_a up an wt m a b na nb st d :
      cm_sent (sy_dev b) !! na = Some m → room_ok an → ntrdma_cmd_recv_cm up an wt m (sy_dev a) = Some (st, d) →
      net_step (mk_net a b na nb) (mk_net (set_dev d a) b (S na) nb)
  | nt_recv_b up an wt m a b na nb st d :
      cm_sent (sy_dev a) !! nb = Some m → room_ok an → ntrdma_cmd_recv_cm up an wt m (sy_dev b) = Some (st, d) →
      net_step (mk_net a b na nb) (mk_net a (set_dev d b) na (S nb))
  | nt_lost_a a b na nb : net_step (mk_net a b na nb) (mk_net a b (S na) nb)
  | nt_lost_b a b na nb : net_step (mk_net a b na nb) (mk_net a b na (S nb)).

(** What device [y] was told, seen from the identifiers of [x]. *)
Record told {Wx Wy} (x : cm_sys Wx) (y : cm_sys Wy) : Prop := {
  tl_sent : ∀ m, m ∈ cm_sent (sy_dev x) → sent_ok (sy_roles x) m;
  tl_requests : ∀ c e, (c, e) ∈ cm_evs (sy_dev y) → ie_event e = IW_CM_EVENT_CONNECT_REQUEST →
    ∃ q c', ie_provider_data e = PQp q ∧ sy_roles x !! c' = Some (RConn q);
  tl_replies : ∀ c e, (c, e) ∈ cm_evs (sy_dev y) → ie_event e = IW_CM_EVENT_CONNECT_REPLY → ie_status e = 0 →
    ∃ q q' c', sy_roles y !! c = Some (RConn q) ∧ sy_roles x !! c' = Some (RAcc q' q);
  tl_accepts : ∀ c q' q, sy_roles y !! c = Some (RAcc q' q) → ∃ c', sy_roles x !! c' = Some (RConn q) }.

Definition net_inv (n : net) : Prop :=
  sys_inv (nt_a n) ∧ sys_inv (nt_b n) ∧ told (nt_a n) (nt_b n) ∧ told (nt_b n) (nt_a n).

(** Device [x] takes a step: what it was told, and what it tells. *)
Lemma told_grows {Wx Wy} (x x' : cm_sys Wx) (y : cm_sys Wy) P :
  added (sy_dev x) (sy_dev x') (sy_roles x) (sy_roles x') P → told x y → told x' y.
Proof.
  intros A [T1 T2 T3 T4]. pose proof (ad_roles _ _ _ _ _ A) as Hro. constructor.
  - destruct (ad_sent _ _ _ _ _ A) as (ms & E & Hms). rewrite E. intros m [Hm|Hm]%elem_of_app; [|by apply Hms].
    destruct (T1 m Hm) as [H1 H2]. split; [intros Ho; destruct (H1 Ho) as [c Hc]; by eauto|].
    intros Ho Hs. destruct (H2 Ho Hs) as [c Hc]. by eauto.
  - intros c e Hin He. destruct (T2 c e Hin He) as (q & c' & ? & ?). by eauto.
  - intros c e Hin He Hs. destruct (T3 c e Hin He Hs) as (q & q' & c' & ? & ?). by eauto 6.
  - intros c q' q H. destruct (T4 c q' q H) as [c' ?]. by eauto.
Qed.

(** The accepts of a step name requests that were heard. *)
Lemma told_hears {Wx Wy} (x : cm_sys Wx) (y y' : cm_sys Wy) P :
  added (sy_dev y) (sy_dev y') (sy_roles y) (sy_roles y') P → told x y →
  (∀ c e, P c e → own_event e ∨ ∃ m, m ∈ cm_sent (sy_dev x) ∧ heard m (sy_roles y) c e) →
  (∀ c q' q, sy_roles y' !! c = Some (RAcc q' q) → sy_roles y !! c = Some (RAcc q' q) ∨ requested q (sy_dev y)) →
  told x y'.
Proof.
  intros A [T1 T2 T3 T4] HP Hacc. pose proof (ad_roles _ _ _ _ _ A) as Hro.
  destruct (ad_evs _ _ _ _ _ A) as (es & E & Hes). constructor; [exact T1| | |].
  - intros c e. rewrite E. intros [Hin|Hin]%elem_of_app He; [by eapply T2|].
    destruct (HP c e (Hes c e Hin)) as [[Hn _]|(m & Hm & [[Hn _]|[(_ & Ho & Hp)|(Hr & _)]])]; [done|done| |congruence].
    destruct (T1 m Hm) as [H1 _]. destruct (H1 Ho) as [c' Hc']. by eauto.
  - intros c e. rewrite E. intros [Hin|Hin]%elem_of_app He Hs.
    { destruct (T3 c e Hin He Hs) as (q & q' & c' & ? & ?). by eauto 6. }
    destruct (HP c e (Hes c e Hin)) as [[_ Hn]|(m & Hm & [[_ Hn]|[(Hr & _)|(_ & Ho & Hst & Hr)]])];
      [by destruct (Hn He)|by destruct (Hn He)|congruence|].
    destruct (T1 m Hm) as [_ H2]. rewrite Hst in Hs. destruct (H2 Ho Hs) as [c' Hc']. by eauto 6.
  - intros c q' q H. destruct (Hacc c q' q H) as [Hold|(l & e & Hin & He & Hp)]; [by eapply T4|].
    destruct (T2 l e Hin He) as (q0 & c' & Hp' & Hc'). rewrite Hp in Hp'. injection Hp' as <-. by eauto.
Qed.

Lemma call_accepts {W} `{L : CmLower W} (s s' : cm_sys W) c q' q :
  call_step s s' → sy_roles s' !! c = Some (RAcc q' q) → sy_roles s !! c = Some (RAcc q' q) ∨ requested q (sy_dev s).
Proof.
  intros []; cbn; auto; intros [[_ [= _ <-]]|[_ Hold]]%lookup_insert_Some; auto.
Qed.

Lemma pair_step_inv n n' : net_inv n → net_step n n' → net_inv n'.
Proof.
  intros (Ia & Ib & Tab & Tba) St.
  destruct St as [a a' b na nb H|a b b' na nb H|up an wt m a b na nb st d Hm Ha H|up an wt m a b na nb st d Hm Ha H| |]; cbn in *.
  - pose proof (call_added a a' Ia H) as A. split_and!; [by eapply call_step_inv|done|by eapply told_grows|].
    eapply told_hears; [exact A|done|by left|]. intros c q' q. by apply call_accepts.
  - pose proof (call_added b b' Ib H) as A. split_and!; [done|by eapply call_step_inv| |by eapply told_grows].
    eapply told_hears; [exact A|done|by left|]. intros c q' q. by apply call_accepts.
  - destruct a as [da ca ro]. pose proof (recv_added up an wt m da ca ro st d Ia H) as A.
    split_and!; [by eapply recv_inv|done|by eapply (told_grows (mk_sys da ca ro) (set_dev d _))|].
    eapply (told_hears b (mk_sys da ca ro) (set_dev d _)); [exact A|done| |by left].
    intros c e He. right. exists m. split; [by eapply list_elem_of_lookup_2|exact He].
  - destruct b as [db cb ro]. pose proof (recv_added up an wt m db cb ro st d Ib H) as A.
    split_and!; [done|by eapply recv_inv| |by eapply (told_grows (mk_sys db cb ro) (set_dev d _))].
    eapply (told_hears a (mk_sys db cb ro) (set_dev d _)); [exact A|done| |by left].
    intros c e He. right. exists m. split; [by eapply list_elem_of_lookup_2|exact He].
  - by split_and!.
  - by split_and!.
Qed.

Definition net_start (n : net) : Prop :=
  sys_start (nt_a n) ∧ sys_start (nt_b n) ∧ cm_sent (sy_dev (nt_a n)) = [] ∧ cm_sent (sy_dev (nt_b n)) = [].

Lemma told_start {Wx Wy} (x : cm_sys Wx) (y : cm_sys Wy) :
  sys_start y → cm_sent (sy_dev x) = [] → told x y.
Proof.
  intros (_ & _ & _ & Ee & _ & Er) Hs. constructor; rewrite ?Hs, ?Ee, ?Er; try done.
  - intros m H. destruct (not_elem_of_nil _ H).
  - intros c e H. destruct (not_elem_of_nil _ H).
  - intros c e H. destruct (not_elem_of_nil _ H).
Qed.

Lemma pair_reachable_inv n n' : net_start n → rtc net_step n n' → net_inv n'.
Proof.
  intros (Ha & Hb & Ea & Eb) Hr.
  assert (net_inv n) as I by (split_and!; [by apply sys_start_inv..|by apply told_start|by apply told_start]).
  clear -I Hr. induction Hr as [|x y z Hs Hr IH]; [done|]. apply IH. by eapply pair_step_inv.
Qed.


End Net.
(** ** A request that arrives *)

#[local] Existing Instance demo_low.

Definition demo_listener : iw_cm_id :=
  mk_id (demo_addr 800) (mk_sa AF_INET 0 0 (replicate 16 0)) (demo_addr 800) (demo_addr 0) true PNull 0.
Definition demo_new : cm_dev unit := cm_set_ids (<[0%nat := demo_listener]> ∅) demo_empty.
Definition demo_listens : cm_dev unit := default demo_empty (snd <$> ntrdma_create_listen (Some 9%nat) 0%nat demo_new).

Definition demo_request : ntrdma_iw_cm_cmd :=
  default (mk_cmd 0 0 0 0 0 [] [] 0 0 0 0 []) (head (cm_sent demo_waits)).
Definition demo_wait : wait_answers := mk_wait 0 0.
Definition demo_asked : cm_dev unit :=
  default demo_empty (snd <$> ntrdma_cmd_recv_cm demo_up demo_send demo_wait demo_request demo_listens).

Definition demo_net0 : net := mk_net demo_nothing demo_nothing 0 0.
Definition demo_net : net := mk_net demo_connecting (mk_sys demo_asked ∅ (<[0%nat := RListen]> ∅)) 0 1.

Lemma call_run_a (a a' b : cm_sys unit) na nb :
  rtc call_step a a' → rtc net_step (mk_net a b na nb) (mk_net a' b na nb).
Proof. induction 1 as [|x y z H _ IH]; [done|]. eapply rtc_l; [by apply nt_call_a|exact IH]. Qed.

Lemma demo_calls : rtc call_step demo_nothing demo_connecting.
Proof.
  eapply rtc_l; [apply (st_new_qp 5 1); reflexivity|].
  eapply rtc_l; [apply (st_new_id 0%nat demo_id); [reflexivity..|discriminate]|].
  apply rtc_once. apply (st_connect demo_send 0%nat demo_id demo_param _ _ _ demo_begun None).
  - reflexivity.
  - reflexivity.
  - split; [reflexivity|]. eexists. split; reflexivity.
  - exact demo_param_ok.
  - exact demo_send_ok.
  - vm_compute. reflexivity.
  - vm_compute. reflexivity.
Qed.

Lemma demo_net_reached : rtc net_step demo_net0 demo_net.
Proof.
  etransitivity; [exact (call_run_a _ _ demo_nothing 0 0 demo_calls)|].
  eapply rtc_l; [apply nt_call_b, (st_new_id 0%nat demo_listener); [reflexivity..|discriminate]|].
  eapply rtc_l.
  { apply nt_call_b. apply (st_listen (Some 9%nat) 0%nat _ _ _ 0 demo_listens); [reflexivity| |vm_compute; reflexivity].
    intros n _ H. destruct (not_elem_of_nil _ H). }
  apply rtc_once.
  change demo_net with (mk_net demo_connecting (set_dev demo_asked (mk_sys demo_listens ∅ (<[0%nat := RListen]> ∅))) 0 1).
  eapply (nt_recv_b demo_up demo_send demo_wait demo_request); [vm_compute; reflexivity|exact demo_send_ok|].
  cbn [sy_dev]. vm_compute. reflexivity.
Qed.

Lemma demo_net_starts : net_start demo_net0.
Proof. split; [exact demo_nothing_starts|]. split; [exact demo_nothing_starts|]. by split. Qed.

Definition demo_heard : iw_cm_event := default (plain_event IW_CM_EVENT_CLOSE 0) (snd <$> head (cm_evs demo_asked)).


End CmNet.
