(* ===== verification/CmMsg.v ===== *)
(** * What the messages of the connection manager carry

    Addresses, private data and queue pair numbers from the call on one side to
    the event on the other; then small systems that run. *)

From stdpp Require Import gmap.
From S2P Require Import Prelude Wr Cm CmSafe CmNet.
Import Wr Cm CmSafe CmNet.

Module CmMsg.

(** ** Byte order *)

Lemma byte_testbit x i k n : 0 <= i → 0 <= n →
  Z.testbit (Z.shiftl (Z.land (Z.shiftr x i) 0xff) k) n = (k <=? n) && (n <? k + 8) && Z.testbit x (n - k + i).
Proof.
  intros Hi Hn. rewrite Z.shiftl_spec by lia. destruct (Z.leb_spec k n).
  - rewrite Z.land_spec, Z.shiftr_spec by lia. change 0xff with (Z.ones 8). rewrite Z.testbit_ones by lia.
    destruct (Z.ltb_spec n (k + 8)); destruct (Z.leb_spec 0 (n - k)), (Z.ltb_spec (n - k) 8); try lia; cbn; by rewrite ?andb_true_r, ?andb_false_r.
  - rewrite Z.testbit_neg_r by lia. done.
Qed.

Lemma htonl_testbit x n : 0 <= n →
  Z.testbit (htonl x) n =
  if n <? 8 then Z.testbit x (n + 24) else if n <? 16 then Z.testbit x (n + 8)
  else if n <? 24 then Z.testbit x (n - 8) else if n <? 32 then Z.testbit x (n - 24) else false.
Proof.
  intros Hn. unfold htonl. rewrite !Z.lor_spec.
  rewrite <- (Z.shiftl_0_r (Z.land (Z.shiftr x (8 * 3)) 0xff)). rewrite !byte_testbit by lia.
  destruct (Z.ltb_spec n 8), (Z.ltb_spec n 16), (Z.ltb_spec n 24), (Z.ltb_spec n 32); try lia;
    repeat match goal with |- context [?a <=? ?b] => destruct (Z.leb_spec a b); try lia end;
    repeat match goal with |- context [?a <? ?b] => destruct (Z.ltb_spec a b); try lia end;
    cbn [andb orb]; rewrite ?orb_false_r; try reflexivity; f_equal; lia.
Qed.

Lemma htonl_range x : 0 <= htonl x < 2 ^ 32.
Proof.
  assert (0 <= htonl x) as H0.
  { unfold htonl. rewrite !Z.lor_nonneg, !Z.shiftl_nonneg, !Z.land_nonneg. lia. }
  split; [exact H0|].
  destruct (Z.lt_ge_cases (htonl x) (2 ^ 32)) as [|Hge]; [done|]. exfalso.
  assert (32 <= Z.log2 (htonl x)) as Hl by (apply Z.log2_le_pow2; lia).
  pose proof (Z.bit_log2 (htonl x) ltac:(lia)) as Hb. rewrite htonl_testbit in Hb by lia.
  repeat match type of Hb with context [?a <? ?b] => destruct (Z.ltb_spec a b); try lia end.
Qed.

Lemma htonl_twice x : 0 <= x < 2 ^ 32 → htonl (htonl x) = x.
Proof.
  intros Hx. apply Z.bits_inj'. intros n Hn. rewrite htonl_testbit by done.
  destruct (Z.ltb_spec n 8); [|destruct (Z.ltb_spec n 16); [|destruct (Z.ltb_spec n 24); [|destruct (Z.ltb_spec n 32)]]].
  5: { symmetry. destruct (Z.eq_dec x 0) as [->|Hne]; [apply Z.testbit_0_l|]. apply Z.bits_above_log2; [lia|].
       apply (Z.lt_le_trans _ 32); [|lia]. apply Z.log2_lt_pow2; lia. }
  all: rewrite htonl_testbit by lia;
    repeat match goal with |- context [?a <? ?b] => destruct (Z.ltb_spec a b); try lia end; f_equal; lia.
Qed.

(** ** Messages *)

Section Messages.
Context {W : Type} `{L : CmLower W}.
Implicit Type d : cm_dev W.

Definition v4 (a : sockaddr) : sockaddr := mk_sa AF_INET (sa_port a) (sa_word a) (replicate 16 0).

(** The event gives the private data of the call. *)
Definition carries (e : iw_cm_event) (p : iw_cm_conn_param) : Prop :=
  ie_private_data_len e = cp_private_data_len p
  ∧ (cp_private_data_len p ≠ 0 →
     ∃ bytes data, ie_private_data e = Some bytes ∧ cp_private_data p = Some data
       ∧ take (Z.to_nat (cp_private_data_len p)) bytes = take (Z.to_nat (cp_private_data_len p)) data).

Lemma gen_perp_room r room m :
  ntrdma_iw_cm_gen_perp r room = Some m →
  (ic_remote_port m = iq_remote_port r ∧ ic_local_port m = iq_local_port r ∧ ic_remote_addr m = iq_remote_addr r
   ∧ ic_local_addr m = iq_local_addr r ∧ ic_ird m = iq_ird r ∧ ic_priv_len m = iq_priv_len r ∧ ic_sin_family m = iq_sin_family r)
  ∧ (iq_priv_len r ≠ 0 → ∃ data, iq_priv r = Some data
       ∧ take (Z.to_nat (iq_priv_len r)) (ic_room m) = take (Z.to_nat (iq_priv_len r)) data).
Proof.
  unfold ntrdma_iw_cm_gen_perp. destruct (Z.eqb_spec (iq_priv_len r) 0) as [Hz|Hz]; [by intros [= <-]|].
  destruct (iq_priv r) as [b|]; [|done]. destruct (_ || _) eqn:Hc; [done|]. intros [= <-]. split; [done|]. intros _. exists b.
  split; [done|]. cbn. apply orb_false_iff in Hc as [[H1 H2]%orb_false_iff _]. apply Z.ltb_ge in H1, H2.
  assert (Z.to_nat (iq_priv_len r) = length (take (Z.to_nat (iq_priv_len r)) b)) as Hl by (rewrite length_take; lia).
  rewrite Hl at 1. by rewrite take_app_length.
Qed.

Lemma rep_connects up m d st d1 q c :
  cm_qps d !! ic_rqp_num m = Some q → cq_state q = NTRDMA_CM_STATE_CONNECTING → cq_cm_id q = Some c →
  ic_status m ≠ - ENETUNREACH → ntrdma_cm_handle_rep up m d = Some (st, d1) →
  ∃ i rc1 w1 rc2 w2,
    cm_evs d1 = cm_evs d ++ [(c, mk_event IW_CM_EVENT_CONNECT_REPLY (ic_status m) (ci_m_local_addr i) (ci_m_remote_addr i)
      (if ic_priv_len m =? 0 then None else Some (ic_room m)) (ic_priv_len m) PNull (ic_ird m))]
    ∧ cm_qps d1 !! ic_rqp_num m = Some (cq_set_state NTRDMA_CM_STATE_ESTABLISHED q)
    ∧ ntrmda_rqp_modify_local (ic_qp_num m) 0 IB_QPS_RTS (ic_rqp_num m) (cm_low d) = (rc1, w1)
    ∧ ntrdma_modify_qp_local (ic_rqp_num m) (rts (ic_qp_num m)) w1 = (rc2, w2)
    ∧ cm_low d1 = ntrdma_qp_recv_work (ic_rqp_num m) w2.
Proof.
  intros Hq Hs Hc Hst. unfold ntrdma_cm_handle_rep, ntrdma_dev_qp_look_and_get. rewrite Hq.
  set (d0 := cm_set_qp (ic_rqp_num m) (cq_add_refs 1 q) d).
  assert (qp_add_refs 1 (ic_rqp_num m) d = d0) as -> by (unfold qp_add_refs; by rewrite Hq).
  assert (cm_qps d0 !! ic_rqp_num m = Some (cq_add_refs 1 q)) as Hq0 by (cbn; by rewrite lookup_insert_eq).
  cbv beta iota zeta. rewrite Hq0, (proj2 (Z.eqb_neq _ _) Hst). cbn [cq_state cq_add_refs cq_cm_id]. rewrite Hs, Z.eqb_refl. cbn [negb].
  rewrite (get_qp_id d0 _ _ Hq0). unfold modify_image, modify_local, recv_work.
  destruct (ntrmda_rqp_modify_local _ _ _ _ _) as [rc1 w1] eqn:H1. cbn [cm_low cm_set_low].
  destruct (ntrdma_modify_qp_local _ _ _) as [rc2 w2] eqn:H2.
  unfold ntrdma_fire_conn_rep, event_handler. rewrite Hc. cbn [cm_ids cm_set_low cm_set_qp d0].
  destruct (cm_ids d !! c) as [i|]; [|done]. destruct (ci_handler i).
  2: { by destruct (negb (ic_priv_len m =? 0)). }
  intros H. exists i, rc1, w1, rc2, w2. revert H. subst d0. unfold ntrdma_qp_put. cm_run.
  destruct (Z.eqb_spec (ic_priv_len m) 0) as [Hz|Hz]; cbn [negb]; cm_run; intros [= _ <-]; cbn; rewrite lookup_insert_eq;
    (split; [by rewrite ?Hz|]); (split; [|by split]); do 2 f_equal; unfold cq_set_state, cq_add_refs; cbn; f_equal; lia.
Qed.

(** C37: what one side gives, the other side gets.  A connect call over version 4
    addresses reaches a listener on its port as a request with the two addresses
    exchanged, the number of the queue pair and the private data; an accept call
    reaches the queue pair it answers, while that still connects, as a reply with
    its private data, and connects it to the queue pair that was accepted. *)
Theorem connection_messages_arrive (i i' : iw_cm_id) (p p' : iw_cm_conn_param) room room' m m' up a wt d d1 st nd q c :
  ntrdma_iw_cm_gen_perp (connect_req i p) room = Some m →
  sa_family (ci_local_addr i) = AF_INET →
  0 <= sa_word (ci_local_addr i) < 2 ^ 32 → 0 <= sa_word (ci_remote_addr i) < 2 ^ 32 →
  find_iw_cm_id_listener_node (sa_port (ci_remote_addr i)) d = Some nd →
  ntrdma_cmd_recv_cm up a wt m d = Some (st, d1) →
  ntrdma_iw_cm_gen_perp (accept_req i' p' (cp_qpn p)) room' = Some m' →
  (∃ e, cm_evs d1 = cm_evs d ++ [(nd_cm_id nd, e)] ∧ ie_event e = IW_CM_EVENT_CONNECT_REQUEST
     ∧ ie_local_addr e = v4 (ci_remote_addr i) ∧ ie_remote_addr e = v4 (ci_local_addr i)
     ∧ ie_provider_data e = PQp (cp_qpn p) ∧ ie_ird e = cp_ird p ∧ carries e p)
  ∧ ∀ (x x1 : cm_dev W) st',
      cm_qps x !! cp_qpn p = Some q → cq_state q = NTRDMA_CM_STATE_CONNECTING → cq_cm_id q = Some c →
      ntrdma_cmd_recv_cm up a wt m' x = Some (st', x1) →
      (∃ e, cm_evs x1 = cm_evs x ++ [(c, e)] ∧ ie_event e = IW_CM_EVENT_CONNECT_REPLY ∧ ie_status e = 0
         ∧ ie_ird e = cp_ird p' ∧ (cp_private_data p' ≠ None → carries e p'))
      ∧ cm_qps x1 !! cp_qpn p = Some (cq_set_state NTRDMA_CM_STATE_ESTABLISHED q)
      ∧ ∃ rc1 w1 rc2 w2,
          ntrmda_rqp_modify_local (cp_qpn p') 0 IB_QPS_RTS (cp_qpn p) (cm_low x) = (rc1, w1)
          ∧ ntrdma_modify_qp_local (cp_qpn p) (rts (cp_qpn p')) w1 = (rc2, w2)
          ∧ cm_low x1 = ntrdma_qp_recv_work (cp_qpn p) w2.
Proof.
  intros Hm Hfam Hl Hr Hfind Hrecv Hm'.
  assert (sa_family (ci_local_addr i) =? AF_INET6 = false) as Hv by (rewrite Hfam; done).
  split.
  - destruct (gen_perp_fields _ _ _ Hm) as (E1 & E2 & _ & _). destruct (gen_perp_room _ _ _ Hm) as ((F1 & F2 & F3 & F4 & F5 & F6 & F7) & Hp).
    unfold connect_req, addrs_of in *. rewrite Hv in *. cbn in E1, E2, F1, F2, F3, F4, F5, F6, F7, Hp.
    revert Hrecv. unfold ntrdma_cmd_recv_cm. rewrite E1, Z.eqb_refl. unfold ntrdma_cm_handle_connect_req. rewrite F1, Hfind.
    unfold event_handler. destruct (cm_ids d !! nd_cm_id nd) as [j|]; [|done]. destruct (ci_handler j); [|done]. intros [= _ <-].
    exists (request_event m). split; [done|]. unfold request_event, request_addrs. rewrite F7.
    change (AF_INET =? AF_INET6) with false. cbn. rewrite F1, F2, F3, F4, F5, F6. cbn. unfold ntohl. rewrite !htonl_twice by done.
    split_and!; try done; [by rewrite E2|]. unfold carries. cbn. split; [done|]. intros Hne.
    destruct (Hp Hne) as (data & Hd & Ht). exists (ic_room m), data. by rewrite (proj2 (Z.eqb_neq _ _) Hne).
  - intros x x1 st' Hq Hs Hc. destruct (gen_perp_fields _ _ _ Hm') as (E1 & E2 & E3 & E4).
    destruct (gen_perp_room _ _ _ Hm') as ((_ & _ & _ & _ & F5 & F6 & _) & Hp).
    assert (ic_cm_op m' = NTRDMA_IW_CM_REP ∧ ic_qp_num m' = cp_qpn p' ∧ ic_rqp_num m' = cp_qpn p ∧ ic_status m' = 0 ∧ ic_ird m' = cp_ird p')
      as (G1 & G2 & G3 & G4 & G5).
    { rewrite E1, E2, E3, E4, F5. unfold accept_req, rep_req. by destruct (match cp_private_data p' with Some _ => _ | None => _ end). }
    unfold ntrdma_cmd_recv_cm. rewrite G1. change (NTRDMA_IW_CM_REP =? NTRDMA_IW_CM_REQ) with false. rewrite Z.eqb_refl.
    destruct (ntrdma_cm_handle_rep up m' x) as [[rc x2]|] eqn:Hrep; [|done]. intros [= _ <-].
    rewrite <- G3 in Hq. destruct (rep_connects up m' x rc x2 q c Hq Hs Hc) as (j & rc1 & w1 & rc2 & w2 & R1 & R2 & R3 & R4 & R5);
      [rewrite G4; done|exact Hrep|]. rewrite G2, G3, G4, G5 in *.
    split; [|split; [exact R2|by exists rc1, w1, rc2, w2]].
    eexists. split; [exact R1|]. split; [done|]. split; [done|]. split; [done|]. intros Hsome.
    destruct (cp_private_data p') as [data|] eqn:Hd; [|done]. unfold carries. cbn.
    assert (ic_priv_len m' = cp_private_data_len p') as Hlen.
    { rewrite F6. unfold accept_req, rep_req. rewrite Hd. destruct (Z.eqb_spec (cp_private_data_len p') 0) as [->|]; done. }
    rewrite Hlen. split; [done|]. intros Hne. rewrite (proj2 (Z.eqb_neq _ _) Hne). exists (ic_room m'), data. split; [done|]. split; [done|].
    revert Hp. unfold accept_req, rep_req. rewrite Hd, (proj2 (Z.eqb_neq _ _) Hne). cbn. intros Hp.
    destruct (Hp Hne) as (data' & [= <-] & Ht). exact Ht.
Qed.

End Messages.

(** ** A request and its reply *)

#[local] Existing Instance demo_low.

Definition demo_accept_id : iw_cm_id := mk_id (demo_addr 800) (demo_addr 700) (demo_addr 800) (demo_addr 700) true (PQp 5) 0.
Definition demo_accept_param : iw_cm_conn_param := mk_param (Some [9]) 1 1 8.
Definition demo_reply : ntrdma_iw_cm_cmd :=
  default demo_request (ntrdma_iw_cm_gen_perp (accept_req demo_accept_id demo_accept_param 5) (replicate 168 0)).
Definition demo_replied : cm_dev unit :=
  default demo_empty (snd <$> ntrdma_cmd_recv_cm demo_up demo_send demo_wait demo_reply demo_waits).

Lemma connection_messages_arrive_witness :
  ntrdma_iw_cm_gen_perp (connect_req demo_id demo_param) (replicate 168 0) = Some demo_request
  ∧ (∃ e, cm_evs demo_asked = [(0%nat, e)] ∧ ie_remote_addr e = demo_addr 700 ∧ carries e demo_param)
  ∧ cm_qps demo_replied !! 5 = Some (mk_cm_qp NTRDMA_CM_STATE_ESTABLISHED (Some 0%nat) 1).
Proof.
  assert (ntrdma_cmd_recv_cm demo_up demo_send demo_wait demo_request demo_listens = Some (0, demo_asked)) as Ha
    by (vm_compute; reflexivity).
  assert (ntrdma_cmd_recv_cm demo_up demo_send demo_wait demo_reply demo_waits = Some (0, demo_replied)) as Hb
    by (vm_compute; reflexivity).
  assert (ntrdma_iw_cm_gen_perp (connect_req demo_id demo_param) (replicate 168 0) = Some demo_request) as Hm
    by (vm_compute; reflexivity).
  destruct (connection_messages_arrive demo_id demo_accept_id demo_param demo_accept_param (replicate 168 0) (replicate 168 0)
    demo_request demo_reply demo_up demo_send demo_wait demo_listens demo_asked 0 (mk_node 9 0 (-1))
    (mk_cm_qp NTRDMA_CM_STATE_CONNECTING (Some 0%nat) 1) 0%nat Hm) as [(e & He & _ & _ & Hr & _ & _ & Hc) Hrep].
  - reflexivity.
  - cbn; lia.
  - cbn; lia.
  - vm_compute; reflexivity.
  - exact Ha.
  - vm_compute; reflexivity.
  - split; [exact Hm|]. split.
    + exists e. split; [exact He|]. split; [exact Hr|exact Hc].
    + destruct (Hrep demo_waits demo_replied 0) as (_ & Hq & _); [vm_compute; reflexivity|reflexivity|reflexivity|exact Hb|].
      exact Hq.
Defined.

(** Addresses of version 6 arrive under the wrong name: the event calls the
    address of the caller the local one. *)
Lemma version_6_addresses_not_exchanged (c : ntrdma_iw_cm_cmd) :
  ic_sin_family c = AF_INET6 →
  let '(l, r) := request_addrs c in
  sa_port l = ic_remote_port c ∧ sa_bytes l = ntrdma_copy_ip_htonl (replicate 16 0) (ic_local_addr c).
Proof. intros H. unfold request_addrs. rewrite H. by split. Qed.

End CmMsg.
