(* ===== verification/Eth.v ===== *)
(** * The Ethernet device (ntrdma_eth.c, built with NTRDMA_FULL_ETH)

    The receiving side exports a buffer for every free slot of its ring and
    tells the peer where it is; the sending side copies a frame into the next
    such buffer and tells the peer how much of it was used.  Three rings are
    copied over the link: descriptors of free buffers and the index behind them
    one way, frames with descriptors of used buffers and their index the other
    way.

    The contents of the buffers are a memory of bytes, by their address on the
    receiving side.  The registration of the doorbell with the poller, the MAC
    address and the counters are left out: what a poll does to the doorbell are the
    events [EvClear] and [EvReadd]. *)

From stdpp Require Import gmap.
From S2P Require Import Prelude Kernel Ring Ntc Mm Buf.
From S2P Require Import Vbell Qp.
Import Ring Ntc Mm Buf.

Module Eth.

(** What the headers of the kernel fix. *)
Class NetParams := {
  smp_cache_bits : Z;       (* SMP_CACHE_BYTES is a power of two *)
  net_skb_pad : Z;          (* NET_SKB_PAD + NET_IP_ALIGN *)
  hard_header_len : Z;      (* of an Ethernet device *)
  sizeof_shared_info : Z }.

Definition MAX_WQES : Z := 4096.
Definition sizeof_desc : Z := 16.

(** ** The state *)

(** The receive ring.  [er_buf] are the buffers of the slots; [er_wqes] is the
    content of [rx_wqe_buf], [er_cqes] and [er_cons] what the peer wrote to
    [rx_cqe_buf] and [rx_cons_buf]. *)
Record eth_rx := mk_rx {
  er_cap : Z; er_prod : Z; er_cmpl : Z;
  er_buf : list ntc_export_buf;
  er_wqes : list ntc_remote_buf_desc;
  er_cqes : list ntc_remote_buf_desc;
  er_cons : Z;
  er_wqe_buf : ntc_local_buf;
  er_cqe_buf : ntc_export_buf;
  er_cons_buf : ntc_export_buf;
  er_peer_wqe_buf : ntc_remote_buf;
  er_peer_prod_buf : ntc_remote_buf }.

(** The transmit ring: [et_wqes] and [et_prod] are what the peer wrote to
    [tx_wqe_buf] and [tx_prod_buf]. *)
Record eth_tx := mk_tx {
  et_cap : Z; et_cons : Z; et_cmpl : Z;
  et_wqes : list ntc_remote_buf_desc;
  et_prod : Z;
  et_cqes : list ntc_remote_buf_desc;
  et_wqe_buf : ntc_export_buf;
  et_prod_buf : ntc_export_buf;
  et_cqe_buf : ntc_local_buf;
  et_peer_cqe_buf : ntc_remote_buf;
  et_peer_cons_buf : ntc_remote_buf }.

(** What the kernel's network stack keeps for the device. *)
Record eth_net := mk_net {
  en_stopped : bool;       (* the transmit queue *)
  en_carrier : bool;
  en_dormant : bool;
  en_napi : bool;          (* polling is enabled *)
  en_sched : bool;         (* a poll is scheduled *)
  en_mtu : Z }.

Record ntrdma_eth := mk_eth {
  eth_enable : bool; eth_ready : bool; eth_link : bool;
  eth_rxr : eth_rx;
  eth_txr : eth_tx;
  eth_vbell_idx : Z;
  eth_peer_vbell_idx : Z;
  eth_hello_done : bool;
  eth_hello_prep : bool;
  eth_netdev : eth_net }.

(** What a step does besides changing the device.  A frame is written at the
    beginning of the remote buffer it carries. *)
Inductive eth_event :=
  | EvWqes (start : Z) (ds : list ntc_remote_buf_desc)
  | EvProd (idx : Z)
  | EvFrame (dst : ntc_remote_buf) (bytes : list Z)
  | EvCqes (start : Z) (ds : list ntc_remote_buf_desc)
  | EvCons (idx : Z)
  | EvPeerVbell (idx : Z)
  | EvSignal
  | EvClear
  | EvReadd
  | EvReceive (data : list Z)
  | EvDrop.

(** The world of a run: the DMA channel, the doorbells of the peer, memory, and
    what the driver holds: contexts of frames, mappings of remote buffers, frames
    of the network stack. *)
Record eth_world := mk_ew {
  ew_io : dma_io;
  ew_vb : Vbell.ntrdma_dev_vbell;
  ew_bw : buf_world;
  ew_bytes : Z → Z;
  ew_ctxs : Z; ew_maps : Z; ew_skbs : Z;
  ew_unrecoverable : bool }.

Definition ew_set_io (io : dma_io) (w : eth_world) : eth_world :=
  mk_ew io (ew_vb w) (ew_bw w) (ew_bytes w) (ew_ctxs w) (ew_maps w) (ew_skbs w) (ew_unrecoverable w).
Definition ew_set_vb (vb : Vbell.ntrdma_dev_vbell) (io : dma_io) (w : eth_world) : eth_world :=
  mk_ew io vb (ew_bw w) (ew_bytes w) (ew_ctxs w) (ew_maps w) (ew_skbs w) (ew_unrecoverable w).
Definition ew_set_bw (bw : buf_world) (w : eth_world) : eth_world :=
  mk_ew (ew_io w) (ew_vb w) bw (ew_bytes w) (ew_ctxs w) (ew_maps w) (ew_skbs w) (ew_unrecoverable w).
Definition ew_set_bytes (m : Z → Z) (w : eth_world) : eth_world :=
  mk_ew (ew_io w) (ew_vb w) (ew_bw w) m (ew_ctxs w) (ew_maps w) (ew_skbs w) (ew_unrecoverable w).
Definition ew_hold (ctxs maps skbs : Z) (w : eth_world) : eth_world :=
  mk_ew (ew_io w) (ew_vb w) (ew_bw w) (ew_bytes w) (ew_ctxs w + ctxs) (ew_maps w + maps) (ew_skbs w + skbs)
    (ew_unrecoverable w).
Definition ntrdma_unrecoverable_err (w : eth_world) : eth_world :=
  mk_ew (ew_io w) (ew_vb w) (ew_bw w) (ew_bytes w) (ew_ctxs w) (ew_maps w) (ew_skbs w) true.

(** A request to the DMA channel. *)
Definition ew_request (req : dma_io → Z * dma_io) (w : eth_world) : Z * eth_world :=
  let '(rc, io) := req (ew_io w) in (rc, ew_set_io io w).

Definition rx_set_ring (prod cmpl : Z) (r : eth_rx) : eth_rx :=
  mk_rx (er_cap r) prod cmpl (er_buf r) (er_wqes r) (er_cqes r) (er_cons r)
    (er_wqe_buf r) (er_cqe_buf r) (er_cons_buf r) (er_peer_wqe_buf r) (er_peer_prod_buf r).
Definition rx_set_slots (bufs : list ntc_export_buf) (wqes : list ntc_remote_buf_desc) (r : eth_rx) : eth_rx :=
  mk_rx (er_cap r) (er_prod r) (er_cmpl r) bufs wqes (er_cqes r) (er_cons r)
    (er_wqe_buf r) (er_cqe_buf r) (er_cons_buf r) (er_peer_wqe_buf r) (er_peer_prod_buf r).
Definition rx_set_mem (m : list ntc_remote_buf_desc * Z) (r : eth_rx) : eth_rx :=
  mk_rx (er_cap r) (er_prod r) (er_cmpl r) (er_buf r) (er_wqes r) (fst m) (snd m)
    (er_wqe_buf r) (er_cqe_buf r) (er_cons_buf r) (er_peer_wqe_buf r) (er_peer_prod_buf r).
Definition rx_set_peer (wqe prod : ntc_remote_buf) (r : eth_rx) : eth_rx :=
  mk_rx (er_cap r) (er_prod r) (er_cmpl r) (er_buf r) (er_wqes r) (er_cqes r) (er_cons r)
    (er_wqe_buf r) (er_cqe_buf r) (er_cons_buf r) wqe prod.

Definition tx_set_ring (cons cmpl : Z) (t : eth_tx) : eth_tx :=
  mk_tx (et_cap t) cons cmpl (et_wqes t) (et_prod t) (et_cqes t) (et_wqe_buf t) (et_prod_buf t)
    (et_cqe_buf t) (et_peer_cqe_buf t) (et_peer_cons_buf t).
Definition tx_set_cqes (cqes : list ntc_remote_buf_desc) (t : eth_tx) : eth_tx :=
  mk_tx (et_cap t) (et_cons t) (et_cmpl t) (et_wqes t) (et_prod t) cqes (et_wqe_buf t) (et_prod_buf t)
    (et_cqe_buf t) (et_peer_cqe_buf t) (et_peer_cons_buf t).
Definition tx_set_mem (m : list ntc_remote_buf_desc * Z) (t : eth_tx) : eth_tx :=
  mk_tx (et_cap t) (et_cons t) (et_cmpl t) (fst m) (snd m) (et_cqes t) (et_wqe_buf t) (et_prod_buf t)
    (et_cqe_buf t) (et_peer_cqe_buf t) (et_peer_cons_buf t).

Definition eth_set_flags (enable ready link : bool) (e : ntrdma_eth) : ntrdma_eth :=
  mk_eth enable ready link (eth_rxr e) (eth_txr e) (eth_vbell_idx e) (eth_peer_vbell_idx e)
    (eth_hello_done e) (eth_hello_prep e) (eth_netdev e).
Definition eth_set_rx (r : eth_rx) (e : ntrdma_eth) : ntrdma_eth :=
  mk_eth (eth_enable e) (eth_ready e) (eth_link e) r (eth_txr e) (eth_vbell_idx e) (eth_peer_vbell_idx e)
    (eth_hello_done e) (eth_hello_prep e) (eth_netdev e).
Definition eth_set_tx (t : eth_tx) (e : ntrdma_eth) : ntrdma_eth :=
  mk_eth (eth_enable e) (eth_ready e) (eth_link e) (eth_rxr e) t (eth_vbell_idx e) (eth_peer_vbell_idx e)
    (eth_hello_done e) (eth_hello_prep e) (eth_netdev e).
Definition eth_set_net (n : eth_net) (e : ntrdma_eth) : ntrdma_eth :=
  mk_eth (eth_enable e) (eth_ready e) (eth_link e) (eth_rxr e) (eth_txr e) (eth_vbell_idx e)
    (eth_peer_vbell_idx e) (eth_hello_done e) (eth_hello_prep e) n.
Definition eth_set_hello (peer_vbell : Z) (done prep : bool) (e : ntrdma_eth) : ntrdma_eth :=
  mk_eth (eth_enable e) (eth_ready e) (eth_link e) (eth_rxr e) (eth_txr e) (eth_vbell_idx e) peer_vbell
    done prep (eth_netdev e).

(** The calls of the network stack. *)
Definition net_stop_queue (n : eth_net) : eth_net :=
  mk_net true (en_carrier n) (en_dormant n) (en_napi n) (en_sched n) (en_mtu n).
Definition net_wake_queue (n : eth_net) : eth_net :=
  mk_net false (en_carrier n) (en_dormant n) (en_napi n) (en_sched n) (en_mtu n).
Definition net_carrier (on : bool) (n : eth_net) : eth_net :=
  mk_net (en_stopped n) on (en_dormant n) (en_napi n) (en_sched n) (en_mtu n).
Definition net_dormant (on : bool) (n : eth_net) : eth_net :=
  mk_net (en_stopped n) (en_carrier n) on (en_napi n) (en_sched n) (en_mtu n).
Definition net_napi (on : bool) (n : eth_net) : eth_net :=
  mk_net (en_stopped n) (en_carrier n) (en_dormant n) on (en_sched n) (en_mtu n).
Definition napi_schedule (n : eth_net) : eth_net :=
  mk_net (en_stopped n) (en_carrier n) (en_dormant n) (en_napi n) true (en_mtu n).
Definition napi_complete (n : eth_net) : eth_net :=
  mk_net (en_stopped n) (en_carrier n) (en_dormant n) (en_napi n) false (en_mtu n).
Definition net_set_mtu (mtu : Z) (n : eth_net) : eth_net :=
  mk_net (en_stopped n) (en_carrier n) (en_dormant n) (en_napi n) (en_sched n) mtu.

Section Code.
Context `{K : Kernel} `{NP : NetParams} (ntc : ntc_dev) (irq : Qp.ntc_irq) (vec : Z).

Definition SMP_CACHE_BYTES : Z := 2 ^ smp_cache_bits.
Definition SKB_DATA_ALIGN (x : Z) : Z := Z.land (x + (SMP_CACHE_BYTES - 1)) (Z.lnot (SMP_CACHE_BYTES - 1)).
Definition SKINFO_SIZE : Z := SKB_DATA_ALIGN sizeof_shared_info.

(** ** Receive buffers *)

Definition ntrdma_eth_tx_prod (t : eth_tx) : Z :=
  match ntc_export_buf_const_deref (et_prod_buf t) 0 4 with None => 0 | Some _ => et_prod t end.

Definition ntrdma_eth_rx_cons (r : eth_rx) : Z :=
  match ntc_export_buf_const_deref (er_cons_buf r) 0 4 with None => 0 | Some _ => er_cons r end.

(** The bytes of a new buffer are cleared. *)
Definition clear_bytes (b : ntc_export_buf) (m : Z → Z) : Z → Z :=
  λ a, if (eb_dma_addr b <=? a) && (a <? eb_dma_addr b + eb_size b) then 0 else m a.

(** Buffers for the slots from [pos]; the first result is the slot where it
    ends.  [None]: a slot outside the arrays, or a fault of the allocator. *)
Fixpoint rx_fill_alloc (n : nat) (len pos : Z) (r : eth_rx) (w : eth_world) : option (Z * eth_rx * eth_world) :=
  match n with
  | O => Some (pos, r, w)
  | S n =>
      if (Z.of_nat (length (er_buf r)) <=? pos) || (Z.of_nat (length (er_wqes r)) <=? pos) then None
      else
        match _ntc_export_buf_zalloc ntc (len + SKINFO_SIZE) (ew_bw w) with
        | None => None
        | Some (rc, b, bw) =>
            let r := rx_set_slots (<[Z.to_nat pos := b]> (er_buf r)) (er_wqes r) r in
            let w := ew_set_bw bw w in
            if rc <? 0 then Some (pos, r, w)
            else
              let w := ew_set_bytes (clear_bytes b (ew_bytes w)) w in
              match ntc_export_buf_make_partial_desc b 0 len with
              | (_, Some d) =>
                  rx_fill_alloc n len (pos + 1)
                    (rx_set_slots (er_buf r) (<[Z.to_nat pos := d]> (er_wqes r)) r) w
              | (_, None) =>
                  match ntc_export_buf_free ntc b (ew_bw w) with
                  | None => None
                  | Some (b, bw) =>
                      Some (pos, rx_set_slots (<[Z.to_nat pos := b]> (er_buf r)) (er_wqes r) r, ew_set_bw bw w)
                  end
              end
        end
  end.

(** The passes over the free slots, from label [more]; the first result is the
    error that ends them. *)
Fixpoint rx_fill_loop (fuel : nat) (len : Z) (r : eth_rx) (w : eth_world) (evs : list eth_event)
  : option (Z * eth_rx * eth_world * list eth_event) :=
  match fuel with
  | O => None
  | S fuel =>
      let p := snd (ntrdma_ring_produce (er_prod r) (er_cmpl r) (er_cap r)) in
      let start := r_idx p in
      if start =? r_end p then Some (0, r, w, evs)
      else
        match rx_fill_alloc (Z.to_nat (r_end p - start)) len start r w with
        | None => None
        | Some (pos, r, w) =>
            let r := rx_set_ring (ntrdma_ring_update pos (r_base p) (er_cap r)) (er_cmpl r) r in
            let off := start * sizeof_desc in
            let '(rc, w) := ew_request (ntc_request_memcpy_fenced (er_peer_wqe_buf r) off (er_wqe_buf r) off
                              ((pos - start) * sizeof_desc) NTC_DMA_WAIT) w in
            if rc <? 0 then Some (rc, r, w, evs)
            else
              rx_fill_loop fuel len r w
                (evs ++ [EvWqes start (take (Z.to_nat (pos - start)) (drop (Z.to_nat start) (er_wqes r)))])
        end
  end.

(** The index, the doorbell and the signal; the first failure ends them. *)
Definition eth_notify (idx_buf : ntc_remote_buf) (idx : Z) (ev : eth_event) (vbell : Z) (w : eth_world)
  : option (Z * eth_world * list eth_event) :=
  let '(rc, w) := ew_request (ntc_request_imm32 idx_buf 0 idx true) w in
  if rc <? 0 then Some (rc, w, [])
  else
    match Vbell.ntrdma_dev_vbell_peer vbell (ew_vb w) (ew_io w) with
    | None => None
    | Some (rc, vb, io) =>
        let w := ew_set_vb vb io w in
        if rc <? 0 then Some (rc, w, [ev])
        else
          match Qp.ntc_req_signal irq vec (ew_io w) with
          | None => None
          | Some (rc, io) =>
              let w := ew_set_io io w in
              Some (rc, w, if rc <? 0 then [ev; EvPeerVbell vbell] else [ev; EvPeerVbell vbell; EvSignal])
          end
    end.

Definition rx_frame_len (mtu : Z) : Z := SKB_DATA_ALIGN (net_skb_pad + hard_header_len + mtu).

(** [fuel]: one pass for every free slot is enough. *)
Definition fill_fuel (r : eth_rx) : nat := S (S (Z.to_nat (er_cap r))).

Definition ntrdma_eth_rx_fill (e : ntrdma_eth) (w : eth_world)
  : option (ntrdma_eth * eth_world * list eth_event) :=
  if negb (eth_ready e) then Some (e, w, [])
  else
    let r := eth_rxr e in
    if negb (fst (ntrdma_ring_produce (er_prod r) (er_cmpl r) (er_cap r))) then Some (e, w, [])
    else
      match rx_fill_loop (fill_fuel r) (rx_frame_len (en_mtu (eth_netdev e))) r w [] with
      | None => None
      | Some (rc, r, w, evs) =>
          let e := eth_set_rx r e in
          let done rc w evs :=
            let w := ew_set_io (ntc_req_submit (ew_io w)) w in
            Some (e, if rc <? 0 then ntrdma_unrecoverable_err w else w, evs) in
          if rc <? 0 then done rc w evs
          else
            match eth_notify (er_peer_prod_buf r) (er_prod r) (EvProd (er_prod r)) (eth_peer_vbell_idx e) w with
            | None => None
            | Some (rc, w, evs') => done rc w (evs ++ evs')
            end
      end.

(** ** Receiving *)

(** What the network stack answers for the frame of a slot: is there memory for
    its header? *)
Definition rx_answers : Type := Z → bool.

(** The bytes from an address on. *)
Definition bytes_at (m : Z → Z) (a n : Z) : list Z := (λ i, m (a + Z.of_nat i)) <$> seq 0 (Z.to_nat n).

(** One slot: the frame goes to the stack, or is dropped. *)
Definition rx_poll_one (build_skb : rx_answers) (pos : Z) (r : eth_rx) (w : eth_world)
  : option (eth_rx * eth_world * list eth_event) :=
  match er_buf r !! Z.to_nat pos, er_cqes r !! Z.to_nat pos with
  | Some b, Some d =>
      let '(rc, (rx_offset, rx_len)) := ntc_export_buf_get_part_params b d in
      let buf_len := u64 (rx_offset + rx_len + SKINFO_SIZE) in
      let free w :=
        match ntc_export_buf_free ntc b (ew_bw w) with
        | None => None
        | Some (b, bw) => Some (rx_set_slots (<[Z.to_nat pos := b]> (er_buf r)) (er_wqes r) r, ew_set_bw bw w)
        end in
      let drop_it w := match free w with None => None | Some (r, w) => Some (r, w, [EvDrop]) end in
      if (rx_len =? 0) || (rc <? 0) || (eb_size b <? buf_len) then drop_it w
      else
        let '(buf, bw) := kmalloc_node (ew_bw w) in
        let w := ew_set_bw bw w in
        if buf =? 0 then drop_it w
        else
          match ntc_export_buf_const_deref b 0 buf_len with
          | None => None
          | Some _ =>
              let data := bytes_at (ew_bytes w) (eb_dma_addr b + rx_offset) rx_len in
              match free w with
              | None => None
              | Some (r, w) =>
                  (* the copy leaves the driver, with the frame or freed *)
                  let w := ew_set_bw (kfree_ptr buf (ew_bw w)) w in
                  Some (r, w, if build_skb pos then [EvReceive data] else [EvDrop])
              end
          end
  | _, _ => None
  end.

Fixpoint rx_poll_loop (build_skb : rx_answers) (n : nat) (pos : Z) (r : eth_rx) (w : eth_world)
    (evs : list eth_event) : option (eth_rx * eth_world * list eth_event) :=
  match n with
  | O => Some (r, w, evs)
  | S n =>
      match rx_poll_one build_skb pos r w with
      | None => None
      | Some (r, w, evs') => rx_poll_loop build_skb n (pos + 1) r w (evs ++ evs')
      end
  end.

(** The first result is the number of slots that were handled. *)
Definition ntrdma_eth_napi_poll (build_skb : rx_answers) (budget : Z) (e : ntrdma_eth) (w : eth_world)
  : option (Z * ntrdma_eth * eth_world * list eth_event) :=
  if negb (eth_link e) then Some (0, eth_set_net (napi_complete (eth_netdev e)) e, w, [])
  else
    let t := eth_txr e in
    let e := if negb (et_cons t =? ntrdma_eth_tx_prod t) then eth_set_net (net_wake_queue (eth_netdev e)) e else e in
    let r := eth_rxr e in
    let c := ntrdma_ring_consume (ntrdma_eth_rx_cons r) (er_cmpl r) (er_cap r) in
    let start := r_idx c in
    let end_ := Z.min (r_end c) (u32 (start + budget)) in
    match ntc_export_buf_const_deref (er_cqe_buf r) (sizeof_desc * start) (sizeof_desc * (end_ - start)) with
    | None => None
    | Some _ =>
        let n := Z.to_nat (end_ - start) in
        match rx_poll_loop build_skb n start r w [EvClear] with
        | None => None
        | Some (r, w, evs) =>
            let pos := start + Z.of_nat n in
            let e := eth_set_rx (rx_set_ring (er_prod r) (ntrdma_ring_update pos (r_base c) (er_cap r)) r) e in
            let count := Z.of_nat n in
            let '(e, evs) := if count <? budget
                             then (eth_set_net (napi_complete (eth_netdev e)) e, evs ++ [EvReadd])
                             else (e, evs) in
            match ntrdma_eth_rx_fill e w with
            | None => None
            | Some (e, w, evs') => Some (count, e, w, evs ++ evs')
            end
        end
    end.

(** ** Transmitting *)

(** A frame of the network stack: the memory of its buffer and its address,
    where the data begins and its length; is another frame to follow at once? *)
Record sk_buff := mk_skb {
  sk_head : list Z; sk_ptr : Z; sk_headroom : Z; sk_headlen : Z; sk_xmit_more : bool }.

Definition skb_data (s : sk_buff) : list Z := take (Z.to_nat (sk_headlen s)) (drop (Z.to_nat (sk_headroom s)) (sk_head s)).

(** The descriptors of used slots go out, up to the consumer's index; the first
    result is the error that ends it. *)
Fixpoint tx_cmpl_loop (fuel : nat) (t : eth_tx) (w : eth_world) (evs : list eth_event)
  : option (Z * eth_tx * eth_world * list eth_event) :=
  match fuel with
  | O => None
  | S fuel =>
      if et_cmpl t =? et_cons t then Some (0, t, w, evs)
      else
        let c := ntrdma_ring_consume (et_cons t) (et_cmpl t) (et_cap t) in
        let off := r_idx c * sizeof_desc in
        let '(rc, w) := ew_request (ntc_request_memcpy_fenced (et_peer_cqe_buf t) off (et_cqe_buf t) off
                          ((r_end c - r_idx c) * sizeof_desc) NTC_DMA_WAIT) w in
        if rc <? 0 then Some (rc, t, w, evs)
        else
          tx_cmpl_loop fuel (tx_set_ring (et_cons t) (ntrdma_ring_update (r_end c) (r_base c) (et_cap t)) t) w
            (evs ++ [EvCqes (r_idx c)
                       (take (Z.to_nat (r_end c - r_idx c)) (drop (Z.to_nat (r_idx c)) (et_cqes t)))])
  end.

(** [ntc_request_memcpy_with_cb]; an empty copy is no request. *)
Definition ntc_request_memcpy_with_cb (dst : ntc_remote_buf) (dst_offset : Z) (src : ntc_local_buf)
    (src_offset len : Z) (s : dma_io) : Z * dma_io :=
  if len =? 0 then (0, s) else ntc_request_memcpy_unfenced dst dst_offset src src_offset len NTC_DMA_WAIT s.

(** How far a frame got when a run ends early: nothing of its own to give back,
    the frame and perhaps its context, the mapping of the peer's buffer, the
    mapping of its own. *)
Inductive xmit_held := HeldNone | HeldCtx (ctx : bool) | HeldDst (dst : ntc_remote_buf)
  | HeldSrc (dst : ntc_remote_buf) (src : ntc_local_buf).

(** What the labels from [err_memcpy] give back. *)
Definition xmit_cleanup (h : xmit_held) (w : eth_world) : eth_world :=
  let unmap (dst : ntc_remote_buf) w := if rb_dma_addr dst =? 0 then w else ew_hold 0 (- 1) 0 w in
  match h with
  | HeldNone => w
  | HeldCtx ctx => ew_hold (if ctx then - 1 else 0) 0 (- 1) w
  | HeldDst dst => ew_hold (- 1) 0 (- 1) (unmap dst w)
  | HeldSrc dst src =>
      ew_hold (- 1) 0 (- 1) (unmap dst (ew_set_bw (snd (ntc_local_buf_free src (ew_bw w))) w))
  end.

(** The frame that is to go into the buffer of [wqe]: [inl] with what it holds
    now and whether the run ends with an unrecoverable error; or [inr] with the
    descriptor of what was used of it. *)
Definition xmit_one (s : sk_buff) (wqe : ntc_remote_buf_desc) (w : eth_world)
  : (bool * xmit_held * eth_world * list eth_event)
    + (ntc_remote_buf_desc * xmit_held * eth_world * list eth_event) :=
  let off := sk_headroom s in
  let len := sk_headlen s in
  let tx_off := Z.land off (SMP_CACHE_BYTES - 1) in
  if rd_size wqe <? len + tx_off then
    inr (mk_desc (rd_chan_addr wqe) 0, HeldNone, ew_hold 0 0 (- 1) w, [])
  else
    let '(ctx, bw) := (kalloc (bw_time (ew_bw w)), bw_tick (ew_bw w)) in
    let w := ew_set_bw bw w in
    if negb ctx then inl (false, HeldCtx false, w, [])
    else
      let w := ew_hold 1 0 0 w in
      let '(rc, tmp_desc) := ntc_remote_buf_desc_clip wqe 0 (len + tx_off) in
      if rc <? 0 then inl (false, HeldCtx true, w, [])
      else
        let '(rc, dst) := ntc_remote_buf_map ntc tmp_desc in
        if rc <? 0 then inl (false, HeldCtx true, w, [])
        else
          let w := if rb_dma_addr dst =? 0 then w else ew_hold 0 1 0 w in
          let '(rc, src, bw) := ntc_local_buf_map_prealloced (Z.of_nat (length (sk_head s))) (sk_ptr s) (ew_bw w) in
          let w := ew_set_bw bw w in
          if rc <? 0 then inl (false, HeldDst dst, w, [])
          else
            let '(rc, w) := ew_request (ntc_request_memcpy_with_cb dst 0 src (off - tx_off) (len + tx_off)) w in
            if rc <? 0 then inl (true, HeldSrc dst src, w, [])
            else
              let evs := [EvFrame dst (take (Z.to_nat (len + tx_off)) (drop (Z.to_nat (off - tx_off)) (sk_head s)))] in
              let '(rc, cqe) := ntc_remote_buf_desc_clip wqe tx_off len in
              if rc <? 0 then inl (true, HeldSrc dst src, w, evs)
              else inr (cqe, HeldSrc dst src, w, evs).

(** The end of a run: the queue is stopped when no buffer is left. *)
Definition xmit_done (tx_prod : Z) (e : ntrdma_eth) : ntrdma_eth :=
  if et_cons (eth_txr e) =? tx_prod
  then eth_set_net (napi_schedule (net_stop_queue (eth_netdev e))) e else e.

(** From label [err_memcpy], or one of those behind it. *)
Definition xmit_fail (unrecoverable : bool) (h : xmit_held) (tx_prod : Z) (e : ntrdma_eth) (w : eth_world)
    (evs : list eth_event) : option (ntrdma_eth * eth_world * list eth_event) :=
  let w := if unrecoverable then ntrdma_unrecoverable_err (ew_set_io (ntc_req_submit (ew_io w)) w) else w in
  Some (xmit_done tx_prod e, xmit_cleanup h w, evs).

(** Unless another frame follows at once, the peer is told. *)
Definition xmit_kick (s : sk_buff) (h : xmit_held) (tx_prod : Z) (e : ntrdma_eth) (w : eth_world)
    (evs : list eth_event) : option (ntrdma_eth * eth_world * list eth_event) :=
  if sk_xmit_more s then Some (xmit_done tx_prod e, w, evs)
  else
    match tx_cmpl_loop 4 (eth_txr e) w evs with
    | None => None
    | Some (rc, t, w, evs) =>
        let e := eth_set_tx t e in
        if rc <? 0 then xmit_fail true h tx_prod e w evs
        else
          match eth_notify (et_peer_cons_buf t) (et_cmpl t) (EvCons (et_cmpl t)) (eth_peer_vbell_idx e) w with
          | None => None
          | Some (rc, w, evs') =>
              if rc <? 0 then xmit_fail true h tx_prod e w (evs ++ evs')
              else Some (xmit_done tx_prod e, ew_set_io (ntc_req_submit (ew_io w)) w, evs ++ evs')
          end
    end.

Definition ntrdma_eth_start_xmit (s : sk_buff) (e : ntrdma_eth) (w : eth_world)
  : option (ntrdma_eth * eth_world * list eth_event) :=
  let w := ew_hold 0 0 1 w in
  if negb (eth_link e) then Some (e, ew_hold 0 0 (- 1) w, [])
  else
    let t := eth_txr e in
    let tx_prod := ntrdma_eth_tx_prod t in
    let c := ntrdma_ring_consume tx_prod (et_cons t) (et_cap t) in
    let pos := r_idx c in
    if pos =? r_end c then Some (xmit_done tx_prod e, ew_hold 0 0 (- 1) w, [])
    else
      match ntc_export_buf_const_deref (et_wqe_buf t) (sizeof_desc * pos) sizeof_desc, et_wqes t !! Z.to_nat pos with
      | Some _, Some wqe =>
          match xmit_one s wqe w with
          | inl (unrec, h, w, evs) => xmit_fail unrec h tx_prod e w evs
          | inr (cqe, h, w, evs) =>
              let t := tx_set_cqes (<[Z.to_nat pos := cqe]> (et_cqes t)) t in
              let t := tx_set_ring (ntrdma_ring_update (pos + 1) (r_base c) (et_cap t)) (et_cmpl t) t in
              xmit_kick s h tx_prod (eth_set_tx t e) w evs
          end
      | _, _ => None
      end.

(** The DMA engine is done with a frame. *)
Definition ntrdma_eth_dma_cb (dst : ntc_remote_buf) (src : ntc_local_buf) (w : eth_world) : eth_world :=
  let '(_, _, bw) := ntc_local_buf_disown src (ew_bw w) in
  let w := ew_set_bw bw w in
  let w := if rb_dma_addr dst =? 0 then w else ew_hold 0 (- 1) 0 w in
  ew_hold (- 1) 0 (- 1) w.

(** ** The link *)

Definition ntrdma_eth_link_event (e : ntrdma_eth) (w : eth_world) : option (ntrdma_eth * eth_world * list eth_event) :=
  let link := eth_enable e && eth_ready e in
  if Bool.eqb link (eth_link e) then Some (e, w, [])
  else
    if link then
      let e := eth_set_net (net_stop_queue (eth_netdev e)) e in
      match ntrdma_eth_rx_fill e w with
      | None => None
      | Some (e, w, evs) =>
          let e := eth_set_net (napi_schedule (net_napi true (net_carrier true (eth_netdev e)))) e in
          Some (eth_set_flags (eth_enable e) (eth_ready e) link e, w, evs)
      end
    else
      let e := eth_set_net (net_carrier false (net_napi false (eth_netdev e))) e in
      Some (eth_set_flags (eth_enable e) (eth_ready e) link e, w, []).

Definition ntrdma_dev_eth_enable (e : ntrdma_eth) (w : eth_world) :=
  ntrdma_eth_link_event (eth_set_flags (eth_enable e) true (eth_link e) e) w.
Definition ntrdma_dev_eth_disable (e : ntrdma_eth) (w : eth_world) :=
  ntrdma_eth_link_event (eth_set_flags (eth_enable e) false (eth_link e) e) w.
Definition ntrdma_dev_eth_quiesce (e : ntrdma_eth) (w : eth_world) :=
  ntrdma_dev_eth_disable (eth_set_net (net_stop_queue (eth_netdev e)) e) w.

Definition set_dormant (on : bool) (r : option (ntrdma_eth * eth_world * list eth_event)) :=
  match r with
  | None => None
  | Some (e, w, evs) => Some (eth_set_net (net_dormant on (eth_netdev e)) e, w, evs)
  end.
Definition ntrdma_eth_open (e : ntrdma_eth) (w : eth_world) :=
  set_dormant false (ntrdma_eth_link_event (eth_set_flags true (eth_ready e) (eth_link e) e) w).
Definition ntrdma_eth_stop (e : ntrdma_eth) (w : eth_world) :=
  set_dormant true (ntrdma_eth_link_event (eth_set_flags false (eth_ready e) (eth_link e) e) w).

Definition ntrdma_eth_change_mtu (mtu : Z) (e : ntrdma_eth) : Z * ntrdma_eth :=
  if mtu <? 68 then (- EINVAL, e) else (0, eth_set_net (net_set_mtu mtu (eth_netdev e)) e).

(** ** Set-up *)

(** What the hosts tell each other (ntrdma_hello.h). *)
Record ntrdma_eth_hello_info := mk_einfo {
  ei_rx_cap : Z; ei_rx_idx : Z;
  ei_rx_cqe_buf_desc : ntc_remote_buf_desc; ei_rx_cons_buf_desc : ntc_remote_buf_desc;
  ei_vbell_idx : Z }.
Record ntrdma_eth_hello_prep := mk_eprep {
  ep_tx_wqe_buf_desc : ntc_remote_buf_desc; ep_tx_prod_buf_desc : ntc_remote_buf_desc }.

(** The buffers of the slots are freed, from one position on. *)
Fixpoint drain_slots (n : nat) (pos : Z) (r : eth_rx) (w : eth_world) : option (eth_rx * eth_world) :=
  match n with
  | O => Some (r, w)
  | S n =>
      match er_buf r !! Z.to_nat pos with
      | None => None
      | Some b =>
          match ntc_export_buf_free ntc b (ew_bw w) with
          | None => None
          | Some (b, bw) =>
              drain_slots n (pos + 1) (rx_set_slots (<[Z.to_nat pos := b]> (er_buf r)) (er_wqes r) r) (ew_set_bw bw w)
          end
      end
  end.

Fixpoint rx_drain_loop (fuel : nat) (r : eth_rx) (w : eth_world) : option (eth_rx * eth_world) :=
  match fuel with
  | O => None
  | S fuel =>
      let c := ntrdma_ring_consume (er_prod r) (er_cmpl r) (er_cap r) in
      match drain_slots (Z.to_nat (r_end c - r_idx c)) (r_idx c) r w with
      | None => None
      | Some (r, w) =>
          let r := rx_set_ring (er_prod r) (ntrdma_ring_update (r_end c) (r_base c) (er_cap r)) r in
          if r_idx c =? r_end c then Some (r, w) else rx_drain_loop fuel r w
      end
  end.

(** Two passes free all slots, a third finds none. *)
Definition ntrdma_dev_eth_rx_drain (r : eth_rx) (w : eth_world) : option (eth_rx * eth_world) := rx_drain_loop 3 r w.

Definition ntrdma_dev_eth_hello_info (e : ntrdma_eth) : Z * ntrdma_eth_hello_info :=
  let r := eth_rxr e in
  if negb (ntc_export_buf_valid (er_cqe_buf r)) || negb (ntc_export_buf_valid (er_cons_buf r)) then
    (- EINVAL, mk_einfo (er_cap r) (er_cmpl r) ntc_remote_buf_desc_clear ntc_remote_buf_desc_clear 0)
  else
    (0, mk_einfo (er_cap r) (er_cmpl r) (ntc_export_buf_make_desc (er_cqe_buf r))
          (ntc_export_buf_make_desc (er_cons_buf r)) (eth_vbell_idx e)).

(** A mapping of a remote buffer counts while it is held. *)
Definition map_peer (d : ntc_remote_buf_desc) (w : eth_world) : Z * ntc_remote_buf * eth_world :=
  let '(rc, b) := ntc_remote_buf_map ntc d in
  (rc, b, if (rc <? 0) || (rb_dma_addr b =? 0) then w else ew_hold 0 1 0 w).
Definition unmap_peer (b : ntc_remote_buf) (w : eth_world) : eth_world :=
  if rb_dma_addr b =? 0 then w else ew_hold 0 (- 1) 0 w.

Definition tx_set_bufs (wqe prod : ntc_export_buf) (cqe : ntc_local_buf) (t : eth_tx) : eth_tx :=
  mk_tx (et_cap t) (et_cons t) (et_cmpl t) (et_wqes t) (et_prod t) (et_cqes t) wqe prod cqe
    (et_peer_cqe_buf t) (et_peer_cons_buf t).
Definition tx_set_peer (cqe cons_buf : ntc_remote_buf) (t : eth_tx) : eth_tx :=
  mk_tx (et_cap t) (et_cons t) (et_cmpl t) (et_wqes t) (et_prod t) (et_cqes t) (et_wqe_buf t) (et_prod_buf t)
    (et_cqe_buf t) cqe cons_buf.
Definition tx_set_indices (cap idx : Z) (t : eth_tx) : eth_tx :=
  mk_tx cap idx idx (et_wqes t) (et_prod t) (et_cqes t) (et_wqe_buf t) (et_prod_buf t)
    (et_cqe_buf t) (et_peer_cqe_buf t) (et_peer_cons_buf t).

(** The labels of [ntrdma_dev_eth_hello_prep_unperp], each falling through to
    the next. *)
Definition err_peer_rx_cons_buf (e : ntrdma_eth) (w : eth_world) : ntrdma_eth * eth_world :=
  let t := eth_txr e in
  (eth_set_tx (tx_set_peer ntc_remote_buf_clear (et_peer_cons_buf t) t) e, unmap_peer (et_peer_cqe_buf t) w).
Definition err_tx_wqe_buf (e : ntrdma_eth) (w : eth_world) : ntrdma_eth * eth_world :=
  let e := eth_set_hello 0 (eth_hello_done e) (eth_hello_prep e) e in
  let t := tx_set_indices 0 0 (eth_txr e) in
  let t := tx_set_bufs (ntc_export_buf_clear (et_wqe_buf t)) (et_prod_buf t) (et_cqe_buf t) t in
  let w := unmap_peer (et_peer_cons_buf t) w in
  err_peer_rx_cons_buf (eth_set_tx (tx_set_peer (et_peer_cqe_buf t) ntc_remote_buf_clear t) e) w.
Definition err_tx_cqe_buf (e : ntrdma_eth) (w : eth_world) : option (ntrdma_eth * eth_world) :=
  let t := eth_txr e in
  match ntc_export_buf_free ntc (et_wqe_buf t) (ew_bw w) with
  | None => None
  | Some (b, bw) =>
      let t := tx_set_bufs b (et_prod_buf t) (ntc_local_buf_clear (et_cqe_buf t)) t in
      Some (err_tx_wqe_buf (eth_set_tx t e) (ew_set_bw bw w))
  end.
Definition err_tx_prod_buf (e : ntrdma_eth) (w : eth_world) : option (ntrdma_eth * eth_world) :=
  let t := eth_txr e in
  let '(b, bw) := ntc_local_buf_free (et_cqe_buf t) (ew_bw w) in
  err_tx_cqe_buf (eth_set_tx (tx_set_bufs (et_wqe_buf t) (et_prod_buf t) b t) e) (ew_set_bw bw w).
Definition hello_unprep (e : ntrdma_eth) (w : eth_world) : option (ntrdma_eth * eth_world) :=
  if negb (eth_hello_prep e) then Some (e, w)
  else
    let e := eth_set_hello (eth_peer_vbell_idx e) (eth_hello_done e) false e in
    let t := eth_txr e in
    match ntc_export_buf_free ntc (et_prod_buf t) (ew_bw w) with
    | None => None
    | Some (b, bw) => err_tx_prod_buf (eth_set_tx (tx_set_bufs (et_wqe_buf t) b (et_cqe_buf t) t) e) (ew_set_bw bw w)
    end.

Definition with_rc {A} (rc : Z) (r : option A) : option (Z * A) :=
  match r with None => None | Some x => Some (rc, x) end.

(** From the allocation of the three buffers of the transmit ring. *)
Definition prep_bufs (idx : Z) (e : ntrdma_eth) (w : eth_world) : option (Z * (ntrdma_eth * eth_world)) :=
  let t := eth_txr e in
  match _ntc_export_buf_zalloc ntc (et_cap t * sizeof_desc) (ew_bw w) with
  | None => None
  | Some (rc, b, bw) =>
      let t := tx_set_mem (replicate (Z.to_nat (et_cap t)) ntc_remote_buf_desc_clear, et_prod t) t in
      let t := tx_set_bufs b (et_prod_buf t) (et_cqe_buf t) t in
      let e := eth_set_tx t e in
      let w := ew_set_bw bw w in
      if rc <? 0 then with_rc rc (Some (err_tx_wqe_buf e w))
      else
        let '(rc, b, bw) := ntc_local_buf_zalloc (et_cap t * sizeof_desc) (ew_bw w) in
        let t := tx_set_cqes (replicate (Z.to_nat (et_cap t)) ntc_remote_buf_desc_clear) t in
        let t := tx_set_bufs (et_wqe_buf t) (et_prod_buf t) b t in
        let e := eth_set_tx t e in
        let w := ew_set_bw bw w in
        if rc <? 0 then with_rc rc (err_tx_cqe_buf e w)
        else
          match _ntc_export_buf_zalloc_init ntc 4 4 0 (et_prod_buf t) (ew_bw w) with
          | None => None
          | Some (rc, b, bw, _) =>
              let t := tx_set_bufs (et_wqe_buf t) b (et_cqe_buf t) t in
              let w := ew_set_bw bw w in
              if rc <? 0 then with_rc rc (err_tx_prod_buf (eth_set_tx t e) w)
              else
                let e := eth_set_tx (tx_set_mem (et_wqes t, idx) t) e in
                Some (0, (eth_set_hello (eth_peer_vbell_idx e) (eth_hello_done e) true e, w))
          end
  end.

Definition hello_prep (peer_info : ntrdma_eth_hello_info) (e : ntrdma_eth) (w : eth_world)
  : option (Z * (ntrdma_eth * eth_world)) :=
  if Vbell.NTRDMA_DEV_VBELL_COUNT <? ei_vbell_idx peer_info then Some (- ENOMEM, (e, w))
  else if (MAX_WQES <? ei_rx_cap peer_info) || (MAX_WQES <? ei_rx_idx peer_info) then Some (- ENOMEM, (e, w))
  else
    let '(rc, cqe, w) := map_peer (ei_rx_cqe_buf_desc peer_info) w in
    let e := eth_set_tx (tx_set_peer cqe (et_peer_cons_buf (eth_txr e)) (eth_txr e)) e in
    if rc <? 0 then Some (rc, (e, w))
    else
      let '(rc, cons_buf, w) := map_peer (ei_rx_cons_buf_desc peer_info) w in
      let e := eth_set_tx (tx_set_peer cqe cons_buf (eth_txr e)) e in
      if rc <? 0 then Some (rc, err_peer_rx_cons_buf e w)
      else
        let e := eth_set_hello (ei_vbell_idx peer_info) (eth_hello_done e) (eth_hello_prep e) e in
        let e := eth_set_tx (tx_set_indices (ei_rx_cap peer_info) (ei_rx_idx peer_info) (eth_txr e)) e in
        prep_bufs (ei_rx_idx peer_info) e w.

Definition ntrdma_dev_eth_hello_prep (peer_info : ntrdma_eth_hello_info) (e : ntrdma_eth) (w : eth_world)
  : option (Z * ntrdma_eth * eth_world * option ntrdma_eth_hello_prep) :=
  match hello_prep peer_info e w with
  | None => None
  | Some (rc, (e, w)) =>
      if negb (rc =? 0) then Some (rc, e, w, None)
      else
        Some (0, e, w, Some (mk_eprep (ntc_export_buf_make_desc (et_wqe_buf (eth_txr e)))
                                (ntc_export_buf_make_desc (et_prod_buf (eth_txr e)))))
  end.

Definition ntrdma_dev_eth_hello_done (peer_prep : ntrdma_eth_hello_prep) (e : ntrdma_eth) (w : eth_world)
  : Z * ntrdma_eth * eth_world :=
  let '(rc, wqe, w) := map_peer (ep_tx_wqe_buf_desc peer_prep) w in
  let e := eth_set_rx (rx_set_peer wqe (er_peer_prod_buf (eth_rxr e)) (eth_rxr e)) e in
  if rc <? 0 then (rc, e, w)
  else
    let '(rc, prod, w) := map_peer (ep_tx_prod_buf_desc peer_prep) w in
    if rc <? 0 then
      (rc, eth_set_rx (rx_set_peer ntc_remote_buf_clear prod (eth_rxr e)) e, unmap_peer wqe w)
    else
      let e := eth_set_rx (rx_set_peer wqe prod (eth_rxr e)) e in
      (0, eth_set_hello (eth_peer_vbell_idx e) true (eth_hello_prep e) e, w).

(** The buffers that were given out are freed, and the index the peer writes
    starts where the ring is. *)
Definition hello_undone (e : ntrdma_eth) (w : eth_world) : option (ntrdma_eth * eth_world) :=
  if negb (eth_hello_done e) then Some (e, w)
  else
    let e := eth_set_hello (eth_peer_vbell_idx e) false (eth_hello_prep e) e in
    match ntrdma_dev_eth_rx_drain (eth_rxr e) w with
    | None => None
    | Some (r, w) =>
        let '(rc, _) := ntc_export_buf_reinit (er_cons_buf r) 0 4 in
        let r := if rc <? 0 then r else rx_set_mem (er_cqes r, er_cmpl r) r in
        let w := unmap_peer (er_peer_wqe_buf r) (unmap_peer (er_peer_prod_buf r) w) in
        Some (eth_set_rx (rx_set_peer ntc_remote_buf_clear ntc_remote_buf_clear r) e, w)
    end.

Definition ntrdma_dev_eth_reset (e : ntrdma_eth) (w : eth_world) : option (ntrdma_eth * eth_world) :=
  match hello_undone e w with
  | None => None
  | Some (e, w) => hello_unprep e w
  end.

(** ** The life of the device *)

(** [free_netdev], and [kfree] of [rx_buf]: memory of the kernel. *)
Definition kput (w : eth_world) : eth_world := ew_set_bw (bw_add (- 1) 0 (ew_bw w)) w.

(** The labels of [ntrdma_dev_eth_init_deinit], from the last to the first. *)
Definition err_rx_wqe_buf (r : eth_rx) (w : eth_world) : option eth_world :=
  match ntrdma_dev_eth_rx_drain r w with None => None | Some (_, w) => Some (kput (kput w)) end.
Definition err_rx_cqe_buf (r : eth_rx) (w : eth_world) : option eth_world :=
  err_rx_wqe_buf r (ew_set_bw (snd (ntc_local_buf_free (er_wqe_buf r) (ew_bw w))) w).
Definition err_rx_cons_buf (r : eth_rx) (w : eth_world) : option eth_world :=
  match ntc_export_buf_free ntc (er_cqe_buf r) (ew_bw w) with
  | None => None | Some (_, bw) => err_rx_cqe_buf r (ew_set_bw bw w) end.
Definition err_register (r : eth_rx) (w : eth_world) : option eth_world :=
  let w := ew_set_io (ntc_dma_flush (ew_io w)) w in
  match ntc_export_buf_free ntc (er_cons_buf r) (ew_bw w) with
  | None => None | Some (_, bw) => err_rx_cons_buf r (ew_set_bw bw w) end.

Definition rx_set_bufs (wqe : ntc_local_buf) (cqe cons_buf : ntc_export_buf) (cqes : list ntc_remote_buf_desc)
    (wqes : list ntc_remote_buf_desc) (r : eth_rx) : eth_rx :=
  mk_rx (er_cap r) (er_prod r) (er_cmpl r) (er_buf r) wqes cqes (er_cons r) wqe cqe cons_buf
    (er_peer_wqe_buf r) (er_peer_prod_buf r).

Definition no_export : ntc_export_buf := mk_export_buf 0 0 (mk_own_mw 0 0 0 0 0 0) 0 false.
Definition no_local : ntc_local_buf := mk_local_buf 0 false false 0 0.

Definition init_fail (rc : Z) (w : option eth_world) : option (Z * option ntrdma_eth * eth_world) :=
  match w with None => None | Some w => Some (rc, None, w) end.

(** From the allocation of [rx_cons_buf]; [register] is what [register_netdev]
    answers, and an Ethernet device starts with the length [ETH_DATA_LEN] of
    1500. *)
Definition init_cons_buf (vbell_idx register : Z) (r : eth_rx) (w : eth_world) : option (Z * option ntrdma_eth * eth_world) :=
  match _ntc_export_buf_zalloc_init ntc 4 4 0 no_export (ew_bw w) with
  | None => None
  | Some (rc, b, bw, _) =>
      let r := rx_set_bufs (er_wqe_buf r) (er_cqe_buf r) b (er_cqes r) (er_wqes r) r in
      let w := ew_set_bw bw w in
      if rc <? 0 then init_fail rc (err_rx_cons_buf r w)
      else if negb (register =? 0) then init_fail register (err_register r w)
      else
        let t := mk_tx 0 0 0 [] 0 [] no_export no_export no_local ntc_remote_buf_clear ntc_remote_buf_clear in
        Some (0, Some (mk_eth false false false r t vbell_idx 0 false false (mk_net true false true false false 1500)), w)
  end.

Definition init_cqe_buf (vbell_idx register : Z) (r : eth_rx) (w : eth_world) : option (Z * option ntrdma_eth * eth_world) :=
  match _ntc_export_buf_zalloc ntc (er_cap r * sizeof_desc) (ew_bw w) with
  | None => None
  | Some (rc, b, bw) =>
      let zeros := replicate (Z.to_nat (er_cap r)) ntc_remote_buf_desc_clear in
      let r := rx_set_bufs (er_wqe_buf r) b no_export zeros (er_wqes r) r in
      let w := ew_set_bw bw w in
      if rc <? 0 then init_fail rc (err_rx_cqe_buf r w) else init_cons_buf vbell_idx register r w
  end.

Definition init_wqe_buf (vbell_idx register : Z) (r : eth_rx) (w : eth_world) : option (Z * option ntrdma_eth * eth_world) :=
  let '(rc, b, bw) := ntc_local_buf_zalloc (er_cap r * sizeof_desc) (ew_bw w) in
  let zeros := replicate (Z.to_nat (er_cap r)) ntc_remote_buf_desc_clear in
  let r := rx_set_bufs b no_export no_export [] zeros r in
  let w := ew_set_bw bw w in
  if rc <? 0 then init_fail rc (err_rx_wqe_buf r w) else init_cqe_buf vbell_idx register r w.

(** [slots] is what the memory of [rx_buf] happens to hold. *)
Definition ntrdma_dev_eth_init (vbell_idx rx_cap register : Z) (slots : list ntc_export_buf) (w : eth_world)
  : option (Z * option ntrdma_eth * eth_world) :=
  if Vbell.NTRDMA_DEV_VBELL_COUNT <=? vbell_idx then Some (- EINVAL, None, w)
  else
    let '(net, bw) := kmalloc_node (ew_bw w) in
    let w := ew_set_bw bw w in
    if net =? 0 then Some (- ENOMEM, None, w)
    else
      let '(rx_buf, bw) := kmalloc_node (ew_bw w) in
      let w := ew_set_bw bw w in
      if rx_buf =? 0 then Some (- ENOMEM, None, kput w)
      else
        init_wqe_buf vbell_idx register
          (mk_rx rx_cap 0 0 slots [] [] 0 no_local no_export no_export ntc_remote_buf_clear ntc_remote_buf_clear) w.

Definition ntrdma_dev_eth_deinit (e : ntrdma_eth) (w : eth_world) : option eth_world :=
  err_register (eth_rxr e) w.

End Code.
End Eth.
