(* ===== verification/EthMem.v ===== *)
(** * Memory that is exported and given back

    What a user of the allocator of exported buffers may rely on: the buffers it
    holds are apart, inside the window, and can be freed; and where a descriptor
    of a part of such a buffer leads the DMA engine of the peer. *)

From stdpp Require Import gmap.
From S2P Require Import Prelude Kernel Ntc Mm Buf.
Import Ntc Mm Buf.

Module EthMem.

(** The device exports from the window [info], whose allocator has the region. *)
Record window_mode (ntc : ntc_dev) (info : ntc_own_mw) (memory region : Z) : Prop := {
  wm_dram : ∃ dram, own_mw ntc NTC_DRAM_MW_IDX = Some dram ∧ is_flat dram = false;
  wm_info : own_mw ntc NTC_INFO_MW_IDX = Some info;
  wm_region : 0 < region;
  wm_low : om_base_ptr info <= memory;
  wm_high : memory + region <= om_base_ptr info + om_size info;
  wm_base : 0 < om_base info ∧ om_base info + om_size info < 2 ^ 64 }.

(** The bytes of a buffer. *)
Definition inside (b : ntc_export_buf) (a : Z) : Prop := eb_dma_addr b <= a < eb_dma_addr b + eb_size b.
Definition apart (b b' : ntc_export_buf) : Prop :=
  eb_dma_addr b + eb_size b <= eb_dma_addr b' ∨ eb_dma_addr b' + eb_size b' <= eb_dma_addr b.

Lemma apart_outside b b' a : apart b b' → inside b a → inside b' a → False.
Proof. unfold apart, inside. lia. Qed.

Section Holds.
Context `{K : Kernel} (ntc : ntc_dev) (info : ntc_own_mw) (memory region : Z) (words : Z → Z).
Context (WM : window_mode ntc info memory region).

(** The buffer lies in the chunk [x] of the allocator. *)
Record held_as (b : ntc_export_buf) (x : Z * Z) : Prop := {
  ha_wf : export_wf b;
  ha_own : eb_own_mw b = info;
  ha_ptr : fst x = eb_ptr b;
  ha_chunk : _ntc_mm_chunk_size (eb_size b) = Some (snd x);
  ha_size : 0 < eb_size b < 2 ^ 31 ∧ eb_size b <= snd x;
  ha_dma : eb_dma_addr b = om_base info + (eb_ptr b - om_base_ptr info);
  ha_pos : eb_ptr b ≠ 0 }.

Definition mem_holds (w : buf_world) (bufs : list ntc_export_buf) : Prop :=
  ∃ live cs, mm_reaches memory region words (bw_mm w) live
    ∧ Forall2 held_as bufs cs ∧ NoDup cs ∧ cs ⊆ live.

Lemma holds_same w w' bufs : bw_mm w' = bw_mm w → mem_holds w bufs → mem_holds w' bufs.
Proof. unfold mem_holds. by intros ->. Qed.

(** Chunks that are held are apart, so buffers are. *)
Lemma held_apart mm live fl b b' x x' :
  mm_inv (within memory (memory + region)) mm live fl → x ∈ live → x' ∈ live → x ≠ x' →
  held_as b x → held_as b' x' → apart b b'.
Proof.
  intros H Hx Hx' Hne [_ _ Hp _ [_ Hs] Hd _] [_ _ Hp' _ [_ Hs'] Hd' _].
  destruct (mi_disj _ _ _ _ H x x') as [->|Hdj]; [by left|by left|done|].
  unfold apart. unfold chunks_disjoint in Hdj. lia.
Qed.

Lemma holds_wf w bufs b : mem_holds w bufs → b ∈ bufs → export_wf b ∧ eb_own_mw b = info ∧ 0 < eb_size b < 2 ^ 31.
Proof.
  intros (live & cs & _ & Hf & _) [i Hi]%list_elem_of_lookup_1.
  destruct (Forall2_lookup_l _ _ _ _ _ Hf Hi) as (x & _ & []). tauto.
Qed.

Lemma holds_alloc w bufs size zero :
  mem_holds w bufs → 0 < size < 2 ^ 31 →
  ∃ rc b w1, _ntc_export_buf_alloc ntc size zero w = Some (rc, b, w1)
    ∧ ((rc < 0 ∧ mem_holds w1 bufs)
       ∨ (rc = 0 ∧ eb_size b = size ∧ (∀ b', b' ∈ bufs → apart b b') ∧ mem_holds w1 (bufs ++ [b]))).
Proof.
  intros (live & cs & Hr & Hf & Hn & Hs) Hsz. destruct (reaches_inv _ _ _ _ _ Hr) as [fl H].
  destruct (chunk_size_ok size Hsz) as (c & Hc & Hok & Hle).
  destruct WM as [(dram & Hd & Hfl) Hi Hreg Hlo Hhi [Hb0 Hb1]].
  unfold _ntc_export_buf_alloc. rewrite Hd, Hi, Hfl. cbn [negb]. rewrite (s32_small size) by wsolve.
  destruct (alloc_inv _ (kalloc (bw_time w)) (kalloc (S (bw_time w))) zero size c (bw_mm w) live fl H Hc Hok)
    as (r & mm' & Ha & Hres). rewrite Ha.
  assert (∀ live', mm_step (bw_mm w, live) (mm', live') → mm_reaches memory region words mm' live') as Hstep.
  { intros live' St. destruct Hr as (? & ? & ? & mm0 & ? & Hrtc). do 3 (split; [done|]).
    exists mm0. split; [done|]. by eapply rtc_r. }
  destruct r as [p|e].
  2:{ eexists _, _, _. split; [reflexivity|]. left. split; [by destruct Hres|].
      exists live, cs. split; [|done]. apply Hstep. by eapply step_alloc_err. }
  destruct Hres as (Hc0 & [fl' H'] & _). specialize (Hle Hc0).
  destruct (mi_chunk _ _ _ _ H' (p, c)) as (_ & _ & Hplo & Hphi); [left; left|].
  destruct (mi_region _ _ _ _ H') as (Hpos & Hbrk & _ & [Hw1 Hw2]). cbn [fst snd] in *. specialize (Hw2 ltac:(lia)).
  assert (u64 (om_base info + (p - om_base_ptr info)) = om_base info + (p - om_base_ptr info)) as Hu
    by (apply u64_small; wsolve).
  rewrite Hu. set (b := mk_export_buf size p info _ false). set (w1 := bw_tick _).
  exists 0, b, w1. split; [reflexivity|]. right. split; [done|]. split; [done|].
  assert (held_as b (p, c)) as Hb.
  { constructor; cbn; try done; [|lia..]. by constructor; cbn; try done; lia. }
  pose proof (mi_live _ _ _ _ H') as Hnd. apply list.NoDup_cons in Hnd as [Hnew _]. split.
  - intros b' [i Hi']%list_elem_of_lookup_1. destruct (Forall2_lookup_l _ _ _ _ _ Hf Hi') as (x & Hx & Hb').
    apply list_elem_of_lookup_2, Hs in Hx. apply (held_apart _ _ _ _ _ (p, c) x H'); [by left|by right| |done|done].
    intros <-. by apply Hnew.
  - exists ((p, c) :: live), (cs ++ [(p, c)]). split; [apply Hstep; by eapply step_alloc|].
    split; [apply Forall2_app; [done|]; constructor; [done|constructor]|]. split.
    + apply list.NoDup_app. split; [done|]. split; [|apply NoDup_singleton].
      intros x Hx ->%list_elem_of_singleton. by apply Hnew, Hs.
    + intros x [Hx| ->%list_elem_of_singleton]%elem_of_app; [right; by apply Hs|left].
Qed.

Lemma holds_free w b bufs :
  mem_holds w (b :: bufs) →
  ∃ w1, ntc_export_buf_free ntc b w = Some (ntc_export_buf_clear b, w1) ∧ mem_holds w1 bufs.
Proof.
  intros (live & cs & Hr & Hf & Hn & Hs). destruct (reaches_inv _ _ _ _ _ Hr) as [fl H].
  inversion Hf as [|? x ? cs' Hb Hf' E1 E2]; subst. apply list.NoDup_cons in Hn as [Hx Hn].
  pose proof Hb as [_ Hown Hptr Hch [Hsz _] _ Hp0]. destruct x as [p c]. cbn [fst snd] in *. subst p.
  assert ((eb_ptr b, c) ∈ live) as Hin by (apply Hs; left).
  destruct (free_inv _ (eb_size b) c (eb_ptr b) (bw_mm w) live fl H Hch Hin) as (mm2 & fl2 & Hfree & _).
  destruct WM as [(dram & Hd & Hfl) _ _ _ _ _].
  unfold ntc_export_buf_free. rewrite Hd, Hfl, andb_false_r. rewrite (proj2 (Z.eqb_neq _ _)) by done. cbn [negb].
  rewrite (s32_small (eb_size b)), Hfree by wsolve. eexists. split; [reflexivity|].
  exists (drop_chunk (eb_ptr b, c) live), cs'. split.
  - destruct Hr as (? & ? & ? & mm0 & ? & Hrtc). do 3 (split; [done|]). exists mm0. split; [done|].
    eapply rtc_r; [exact Hrtc|]. by eapply step_free.
  - split; [done|]. split; [done|]. intros x Hx'. apply list_elem_of_filter. split; [by intros ->|].
    apply Hs. by right.
Qed.

(** The order does not matter, and fewer buffers are held too. *)
Lemma holds_swap w own b rest : mem_holds w (own ++ b :: rest) → mem_holds w (b :: own ++ rest).
Proof.
  intros (live & cs & Hr & Hf & Hn & Hs). apply Forall2_app_inv_l in Hf as (cs1 & cs2 & H1 & H2 & ->).
  inversion H2 as [|? x ? cs3 Hb H3]; subst. assert (cs1 ++ x :: cs3 ≡ₚ x :: cs1 ++ cs3) as Hp by (symmetry; apply Permutation_middle).
  exists live, (x :: cs1 ++ cs3). split; [done|]. split; [constructor; [done|by apply Forall2_app]|].
  split; [by rewrite <- Hp|]. intros y Hy. apply Hs. by rewrite Hp.
Qed.

Lemma holds_sub w own bufs : mem_holds w (own ++ bufs) → mem_holds w bufs.
Proof.
  intros (live & cs & Hr & Hf & Hn & Hs). apply Forall2_app_inv_l in Hf as (cs1 & cs2 & H1 & H2 & ->).
  exists live, cs2. split; [done|]. split; [done|]. apply list.NoDup_app in Hn as (_ & _ & Hn). split; [done|].
  intros y Hy. apply Hs, elem_of_app. by right.
Qed.

Lemma holds_pairwise w bufs i j b b' :
  mem_holds w bufs → bufs !! i = Some b → bufs !! j = Some b' → i ≠ j → apart b b'.
Proof.
  intros (live & cs & Hr & Hf & Hn & Hs) Hi Hj Hne. destruct (reaches_inv _ _ _ _ _ Hr) as [fl H].
  destruct (Forall2_lookup_l _ _ _ _ _ Hf Hi) as (x & Hx & Hb).
  destruct (Forall2_lookup_l _ _ _ _ _ Hf Hj) as (x' & Hx' & Hb').
  apply (held_apart _ _ _ _ _ x x' H); [apply Hs; by eapply list_elem_of_lookup_2..| |done|done].
  intros <-. apply Hne. by eapply NoDup_lookup.
Qed.

End Holds.

(** ** Descriptors of parts *)

Section Parts.
Context (info : ntc_own_mw) (pm : ntc_peer_mw) (ntc_peer : ntc_dev).
Context (WP : window_pair info pm) (Hpm : peer_mws ntc_peer !! Z.to_nat (om_mw_idx info) = Some pm).
Implicit Type b : ntc_export_buf.

(** The descriptor of the first bytes of a buffer. *)
Definition desc_of b (len : Z) : ntc_remote_buf_desc :=
  mk_desc (mk_chan_addr (eb_dma_addr b - om_base info) false (om_mw_idx info) true) len.
(** The descriptor of a part of it. *)
Definition part_of b (off len : Z) : ntc_remote_buf_desc :=
  mk_desc (mk_chan_addr (eb_dma_addr b - om_base info + off) false (om_mw_idx info) true) len.

Lemma make_desc_of b len :
  export_wf b → eb_own_mw b = info → 0 < len <= eb_size b →
  ntc_export_buf_make_partial_desc b 0 len = (0, Some (desc_of b len)).
Proof.
  intros Hb Hi Hl. pose proof (wp_own _ _ WP) as [_ Hom]. rewrite (partial_desc_shape b 0 len Hb) by (rewrite ?Hi; lia).
  by rewrite Hi, Z.add_0_r.
Qed.

Lemma segment_ok size off len :
  0 < size < 2 ^ 62 → 0 <= off < size → 0 <= len → off + len <= size → ntc_segment_valid size off len = true.
Proof.
  intros Hs Ho Hl Hle. unfold ntc_segment_valid. change (2 ^ 62) with 4611686018427387904 in *.
  rewrite u64_small by wsolve.
  by rewrite (proj2 (Z.leb_gt _ _)), (proj2 (Z.ltb_ge _ _)), (proj2 (Z.ltb_ge _ _)) by lia.
Qed.

Lemma clip_desc b dlen off len :
  export_wf b → eb_own_mw b = info → 0 < dlen <= eb_size b → 0 <= off < dlen → 0 <= len → off + len <= dlen →
  ntc_remote_buf_desc_clip (desc_of b dlen) off len = (0, part_of b off len).
Proof.
  intros [Hf Ha Hlo Hs Hhi] Hi Hd Ho Hl Hle. pose proof (wp_own _ _ WP). rewrite Hi in *.
  unfold ntc_remote_buf_desc_clip. cbn [rd_size rd_chan_addr desc_of]. rewrite pow2_60 in *.
  rewrite segment_ok by (change (2 ^ 62) with 4611686018427387904; lia). cbn [negb ca_offset ca_is_flat ca_mw_idx ca_one].
  by rewrite Z.mod_small by (rewrite pow2_61; lia).
Qed.

Lemma part_wf b off len :
  export_wf b → eb_own_mw b = info → 0 <= off → off + len <= eb_size b → 0 <= len →
  chan_addr_wf (rd_chan_addr (part_of b off len)).
Proof.
  intros [Hf Ha Hlo Hs Hhi] Hi Ho Hl Hle. pose proof (wp_own _ _ WP). rewrite Hi in *.
  split; [|exact (wp_idx _ _ WP)]. cbn. rewrite pow2_60, pow2_61 in *. lia.
Qed.

Lemma part_value b off len :
  export_wf b → eb_own_mw b = info → 0 <= off → off + len <= eb_size b → 0 <= len →
  chan_addr_value (rd_chan_addr (part_of b off len)) ≠ 0.
Proof.
  intros Hb Hi Ho Hl Hle Hz. pose proof (chan_addr_bits (rd_chan_addr (part_of b off len)) 63) as H.
  rewrite Hz, Z.testbit_0_l in H. specialize (H ltac:(by apply part_wf) ltac:(lia)). discriminate H.
Qed.

(** Where it leads the peer. *)
Lemma part_reaches b off len :
  export_wf b → eb_own_mw b = info → 0 <= off → 0 <= len → off + len <= eb_size b →
  off < eb_size b →
  ∃ a io, ntc_peer_addr ntc_peer (rd_chan_addr (part_of b off len)) = Some (a, io)
    ∧ ∀ i, window_to_own info pm (a + i) = eb_dma_addr b + off + i.
Proof.
  intros [Hf Ha Hlo Hs Hhi] Hi Ho Hl Hle Hlt. rewrite Hi in *. destruct WP as [Hidx [Hb0 Hom] Hd Hsz Htr Hbase].
  exists (pm_base pm + (eb_dma_addr b - om_base info + off + pm_dead_zone_size pm)). eexists. split.
  - unfold ntc_peer_addr, ntc_peer_mw_of. cbn [part_of rd_chan_addr ca_mw_idx ca_is_flat ca_offset negb andb].
    replace (NTC_MAX_NUM_MWS <=? om_mw_idx info) with false by (unfold NTC_MAX_NUM_MWS; lia).
    rewrite Hpm. repeat wstep.
    rewrite (proj2 (Z.leb_gt _ _)) by lia. rewrite (proj2 (Z.leb_gt _ _)) by lia.
    by rewrite (proj2 (Z.eqb_neq _ _)) by lia.
  - intros i. unfold window_to_own. lia.
Qed.

(** What the owner reads off it. *)
Lemma part_params b off len :
  export_wf b → eb_own_mw b = info → 0 <= off → 0 <= len → off + len <= eb_size b → off < eb_size b →
  ntc_export_buf_get_part_params b (part_of b off len) = (0, (off, len)).
Proof.
  intros [Hf Ha Hlo Hs Hhi] Hi Ho Hl Hle Hlt. pose proof (wp_own _ _ WP). pose proof (wp_idx _ _ WP). rewrite Hi in *.
  unfold ntc_export_buf_get_part_params. cbn [part_of rd_chan_addr rd_size ca_mw_idx ca_is_flat ca_offset]. rewrite Hi.
  replace (eb_dma_addr b - om_base info + off - (eb_dma_addr b - om_base info)) with off by lia.
  rewrite pow2_60 in *. rewrite (s64_small off) by wsolve. rewrite (u64_small off) by wsolve.
  rewrite (proj2 (Z.eqb_neq _ _)) by lia. rewrite (proj2 (Z.ltb_ge _ _)) by lia.
  rewrite segment_ok by (change (2 ^ 62) with 4611686018427387904; lia).
  cbn [negb]. rewrite Z.eqb_refl, Hf. done.
Qed.

(** Whatever the descriptor says, only the length 0 is taken for a dropped frame. *)
Lemma empty_params b d : rd_size d = 0 → snd (snd (ntc_export_buf_get_part_params b d)) = 0.
Proof. intros Hd. unfold ntc_export_buf_get_part_params. rewrite Hd. by repeat case_match. Qed.

End Parts.
End EthMem.
