(* ===== verification/EthSide.v ===== *)
(** * The two sides of an Ethernet link

    What a run of each operation of [Eth] does: filling the receive ring, polling
    it, transmitting a frame.  Slots are numbered from 0, as in [Wire]; a side
    that reports an unrecoverable error takes the link down, so what it does in
    that run does not matter. *)

From stdpp Require Import gmap.
From S2P Require Import Prelude Kernel Ring Wire Ntc Mm Buf Vbell Qp Eth EthMem.
Import Ring Wire Ntc Mm Buf Eth EthMem.

Module EthSide.

(** Sizes the arithmetic of the driver has room for. *)
Class NetParamsOk (NP : NetParams) : Prop := {
  smp_bits_ok : 0 <= smp_cache_bits <= 12;
  pads_ok : 0 <= net_skb_pad <= 2 ^ 16 ∧ 0 <= hard_header_len <= 2 ^ 16;
  info_ok : 0 < sizeof_shared_info <= 2 ^ 16 }.

Section Sizes.
Context {NP : NetParams} {NO : NetParamsOk NP}.

Lemma smp_bytes : 1 <= SMP_CACHE_BYTES <= 4096.
Proof.
  unfold SMP_CACHE_BYTES. pose proof smp_bits_ok as Hb. set (k := smp_cache_bits) in *.
  pose proof (Z.pow_le_mono_r 2 k 12 ltac:(lia) ltac:(lia)).
  pose proof (Z.pow_pos_nonneg 2 k ltac:(lia) ltac:(lia)). change (2 ^ 12) with 4096 in *. lia.
Qed.

Lemma data_align x : 0 <= x → x <= SKB_DATA_ALIGN x < x + SMP_CACHE_BYTES.
Proof.
  intros Hx. unfold SKB_DATA_ALIGN. pose proof smp_bytes. pose proof smp_bits_ok. unfold SMP_CACHE_BYTES in *.
  set (k := smp_cache_bits) in *.
  replace (2 ^ k - 1) with (Z.ones k) by (rewrite Z.ones_equiv; lia).
  rewrite <- Z.ldiff_land, Z.ldiff_ones_r by lia.
  rewrite Z.shiftl_mul_pow2, Z.shiftr_div_pow2 by lia.
  rewrite Z.ones_equiv. pose proof (Z.div_mod (x + Z.pred (2 ^ k)) (2 ^ k) ltac:(lia)).
  pose proof (Z.mod_pos_bound (x + Z.pred (2 ^ k)) (2 ^ k) ltac:(lia)). nia.
Qed.

(** [lmin] is the least length that is ever offered. *)
Definition mtu_ok (lmin mtu : Z) : Prop := 0 < mtu < 2 ^ 30 ∧ lmin <= rx_frame_len mtu.
(** The length a receive buffer offers to the peer. *)
Definition len_ok (lmin len : Z) : Prop := 0 < len < 2 ^ 30 + 2 ^ 18 ∧ lmin <= len.

Lemma skinfo_ok : 0 < SKINFO_SIZE < 2 ^ 17.
Proof.
  unfold SKINFO_SIZE. pose proof info_ok. pose proof smp_bytes. pose proof (data_align sizeof_shared_info).
  change (2 ^ 16) with 65536 in *. change (2 ^ 17) with 131072. lia.
Qed.

Lemma frame_len_ok lmin mtu : mtu_ok lmin mtu → len_ok lmin (rx_frame_len mtu).
Proof.
  unfold mtu_ok, len_ok, rx_frame_len. intros H. pose proof pads_ok. pose proof smp_bytes.
  pose proof (data_align (net_skb_pad + hard_header_len + mtu)).
  change (2 ^ 16) with 65536 in *. change (2 ^ 18) with 262144. lia.
Qed.

Lemma tx_off_bounds off : 0 <= off → 0 <= Z.land off (SMP_CACHE_BYTES - 1) <= off
  ∧ Z.land off (SMP_CACHE_BYTES - 1) < SMP_CACHE_BYTES.
Proof.
  intros Ho. pose proof smp_bits_ok. pose proof smp_bytes. unfold SMP_CACHE_BYTES in *. set (k := smp_cache_bits) in *.
  replace (2 ^ k - 1) with (Z.ones k) by (rewrite Z.ones_equiv; lia).
  rewrite Z.land_ones by lia. pose proof (Z.mod_pos_bound off (2 ^ k) ltac:(lia)).
  pose proof (Z.mod_le off (2 ^ k) ltac:(lia) ltac:(lia)). lia.
Qed.
End Sizes.

(** Another entry in a slot that is not in use. *)
Lemma holds_other {T} cap (Hcap : cap_ok cap) (buf l : list T) lo n x :
  holds cap buf l lo n → (lo ≤ n)%nat → Z.of_nat n < Z.of_nat lo + cap →
  holds cap (<[Z.to_nat (nslot cap n) := x]> buf) l lo n.
Proof.
  intros [Hl H] Hle Hlt. split; [done|]. intros m Hm. rewrite <- H by done. apply list_lookup_insert_ne.
  intros He. pose proof (nslot_range cap Hcap n). pose proof (nslot_range cap Hcap m).
  assert (m = n); [|lia]. apply (nslot_inj cap m n lo); lia.
Qed.

Lemma list_snoc_app {A} (l : list A) x k : l ++ x :: k = (l ++ [x]) ++ k.
Proof. by rewrite <- (assoc_L (++)). Qed.

(** An empty copy is refused. *)
Lemma empty_request `{K : Kernel} dst do src so fence m s rc s' :
  ntc_request_memcpy dst do src so 0 fence m s = (rc, s') → rc < 0.
Proof.
  unfold ntc_request_memcpy, ntc_req_memcpy, ntc_req_memcpy_n.
  destruct (negb _); [by intros [= <- _]|]. destruct (negb _); [by intros [= <- _]|]. by intros [= <- _].
Qed.

(** ** The receiving side *)

Section Receiver.
Context `{K : Kernel} {NP : NetParams} {NO : NetParamsOk NP}.
Context (ntc : ntc_dev) (irq : Qp.ntc_irq) (vec : Z) (info : ntc_own_mw) (memory region : Z) (words : Z → Z).
Context (WM : window_mode ntc info memory region).
Context (pm : ntc_peer_mw) (WP : window_pair info pm).
Context (cap : Z) (Hcap : cap_ok cap) (lmin : Z).
(** What the device holds besides the buffers of the slots. *)
Context (own : list ntc_export_buf).

Abbreviation len_ok := (len_ok lmin).
Abbreviation mtu_ok := (mtu_ok lmin).
Abbreviation mem_holds := (mem_holds info memory region words).

(** The ring has given out the buffers [bufs], of which those from number [C] on
    are in use; [lens] are the lengths they offer. *)
Record slots_ok (r : eth_rx) (bw : buf_world) (bufs : list ntc_export_buf) (lens : list Z) (C : nat) : Prop := {
  so_cap : er_cap r = cap;
  so_bufs_len : Z.of_nat (length (er_buf r)) = cap;
  so_wqes_len : Z.of_nat (length (er_wqes r)) = cap;
  so_lens : length lens = length bufs;
  so_window : (C ≤ length bufs)%nat ∧ Z.of_nat (length bufs) <= Z.of_nat C + cap;
  so_bufs : holds cap (er_buf r) bufs C (length bufs);
  so_sizes : ∀ n b l, (C ≤ n)%nat → bufs !! n = Some b → lens !! n = Some l → len_ok l ∧ eb_size b = l + SKINFO_SIZE;
  so_mem : mem_holds bw (own ++ drop C bufs) }.

Definition descs (bufs : list ntc_export_buf) (lens : list Z) : list ntc_remote_buf_desc :=
  zip_with (desc_of info) bufs lens.

Lemma descs_length bufs lens : length lens = length bufs → length (descs bufs lens) = length bufs.
Proof. intros H. unfold descs. rewrite length_zip_with. lia. Qed.

Lemma descs_app bufs lens bs ls :
  length lens = length bufs → descs (bufs ++ bs) (lens ++ ls) = descs bufs lens ++ descs bs ls.
Proof. intros H. unfold descs. by rewrite zip_with_app. Qed.

(** The bytes of the buffers in use are the same. *)
Definition same_bytes (bufs : list ntc_export_buf) (w w' : eth_world) : Prop :=
  ∀ b a, b ∈ bufs → inside b a → ew_bytes w' a = ew_bytes w a.

(** What the operations leave alone. *)
Definition same_chan (w w' : eth_world) : Prop :=
  ew_io w' = ew_io w ∧ ew_vb w' = ew_vb w ∧ ew_unrecoverable w' = ew_unrecoverable w.

Lemma slot_bytes_add r bw bufs lens C b len x :
  slots_ok r bw bufs lens C → len_ok len → Z.of_nat (length bufs) < Z.of_nat C + cap →
  eb_size b = len + SKINFO_SIZE → mem_holds x ((own ++ drop C bufs) ++ [b]) →
  slots_ok (rx_set_slots (<[Z.to_nat (nslot cap (length bufs)) := b]> (er_buf r)) (er_wqes r) r) x
    (bufs ++ [b]) (lens ++ [len]) C.
Proof.
  intros [Hc Hbl Hwl Hl Hw Hb Hs Hm] Hlen Hlt Hsz Hx. constructor; cbn; rewrite ?length_insert, ?length_app; cbn; try done.
  - lia.
  - lia.
  - rewrite Nat.add_1_r. apply (holds_snoc cap Hcap); try done; lia.
  - intros n b' l Hn Hb' Hl'. destruct (decide (n < length bufs)%nat) as [Hlt'|Hge].
    + rewrite lookup_app_l in Hb' by lia. rewrite lookup_app_l in Hl' by lia. by apply (Hs n).
    + rewrite lookup_app_r in Hb' by lia. rewrite lookup_app_r in Hl' by lia.
      apply list_lookup_singleton_Some in Hb' as [_ <-]. by apply list_lookup_singleton_Some in Hl' as [_ <-].
  - by rewrite drop_app_le, (assoc_L (++)) by lia.
Qed.

(** Buffers for the free slots from number [length bufs] on. *)
Lemma fill_alloc_spec n len r w bufs lens C lo :
  slots_ok r (ew_bw w) bufs lens C → len_ok len →
  Z.of_nat n <= cap - nslot cap (length bufs) → Z.of_nat (length bufs + n) <= Z.of_nat C + cap →
  (C ≤ lo ≤ length bufs)%nat → holds cap (er_wqes r) (descs bufs lens) lo (length bufs) →
  ∃ bs r' w', rx_fill_alloc ntc n len (nslot cap (length bufs)) r w
      = Some (nslot cap (length bufs) + Z.of_nat (length bs), r', w')
    ∧ (length bs ≤ n)%nat
    ∧ slots_ok r' (ew_bw w') (bufs ++ bs) (lens ++ replicate (length bs) len) C
    ∧ holds cap (er_wqes r') (descs (bufs ++ bs) (lens ++ replicate (length bs) len)) lo (length (bufs ++ bs))
    ∧ (∃ x y, r' = rx_set_slots x y r) ∧ same_chan w w' ∧ same_bytes (drop C bufs) w w'.
Proof.
  revert r w bufs lens. induction n as [|n IH]; intros r w bufs lens S Hlen Hn Hw Hlo Hh.
  { exists [], r, w. cbn. rewrite !app_nil_r, Z.add_0_r. split; [done|]. split; [lia|]. split; [done|]. split; [done|].
    split; [by destruct r; eexists _, _|]. by split. }
  pose proof S as [Hc Hbl Hwl Hl Hwin Hb Hs Hm]. pose proof (nslot_range cap Hcap (length bufs)) as Hr.
  cbn [rx_fill_alloc]. rewrite (proj2 (Z.leb_gt _ _)), (proj2 (Z.leb_gt _ _)) by lia. cbn [orb].
  pose proof skinfo_ok as Hsk. pose proof Hlen as [Hlen' _].
  assert (0 < len + SKINFO_SIZE < 2 ^ 31) as Hsize by (change (2 ^ 31) with 2147483648; change (2 ^ 18) with 262144 in *;
    change (2 ^ 17) with 131072 in *; change (2 ^ 30) with 1073741824 in *; lia).
  destruct (holds_alloc ntc info memory region words WM (ew_bw w) (own ++ drop C bufs) (len + SKINFO_SIZE) true Hm Hsize)
    as (rc & b & w1 & Ha & Hcases). unfold _ntc_export_buf_zalloc. rewrite Ha.
  destruct Hcases as [[Hrc Hm1]|(-> & Hsz & Hapart & Hm1)].
  { rewrite (proj2 (Z.ltb_lt _ _)) by lia. eexists [], _, _. cbn. rewrite !app_nil_r, Z.add_0_r.
    split; [reflexivity|]. split; [lia|]. split; [|split; [done|]].
    - constructor; cbn; rewrite ?length_insert; try done. apply (holds_other cap Hcap); try done; lia.
    - split; [by eexists _, _|]. by split. }
  cbn [Z.ltb Z.compare]. set (w2 := ew_set_bytes _ _).
  destruct (holds_wf info memory region words _ _ b Hm1) as (Hbwf & Hbown & Hbsz); [apply elem_of_app; right; by apply list_elem_of_singleton|].
  rewrite (make_desc_of info pm WP b len Hbwf Hbown) by lia.
  set (r2 := rx_set_slots _ _ (rx_set_slots _ _ r)).
  assert (slots_ok r2 (ew_bw w2) (bufs ++ [b]) (lens ++ [len]) C) as S2.
  { pose proof (slot_bytes_add r (ew_bw w) bufs lens C b len w1 S Hlen ltac:(lia) Hsz Hm1) as [H1 H2 H3 H4 H5 H6 H7 H8].
    constructor; try done. cbn. by rewrite length_insert. }
  assert (holds cap (er_wqes r2) (descs (bufs ++ [b]) (lens ++ [len])) lo (length (bufs ++ [b]))) as Hh2.
  { rewrite descs_app by done. rewrite length_app. cbn [length]. rewrite Nat.add_1_r. cbn [r2 er_wqes rx_set_slots].
    rewrite <- (descs_length bufs lens Hl). apply (holds_snoc cap Hcap); rewrite ?descs_length by done; try done; lia. }
  assert (same_bytes (drop C bufs) w w2) as Hbytes.
  { intros b' a Hb' Hin. cbn [w2 ew_bytes ew_set_bytes]. unfold clear_bytes.
    destruct (Z.leb_spec (eb_dma_addr b) a), (Z.ltb_spec a (eb_dma_addr b + eb_size b)); cbn; try done.
    exfalso. eapply (apart_outside b b' a); [apply Hapart, elem_of_app; by right|unfold inside; lia|done]. }
  assert (nslot cap (length bufs) + 1 = nslot cap (length (bufs ++ [b])) ∨ n = 0%nat) as [Hnext| ->].
  { destruct (decide (n = 0)%nat); [by right|left]. rewrite length_app. cbn [length].
    rewrite (nslot_add cap Hcap) by (cbn; lia). lia. }
  - rewrite Hnext. destruct (IH r2 w2 (bufs ++ [b]) (lens ++ [len]) S2 Hlen) as (bs & r' & w' & E & Hk & S' & Hh' & Hr' & Hch & Hby).
    { rewrite <- Hnext. lia. }
    { rewrite length_app. cbn [length]. lia. }
    { rewrite length_app. lia. }
    { exact Hh2. }
    exists (b :: bs), r', w'. rewrite E. cbn [length replicate].
    rewrite (list_snoc_app bufs b bs), (list_snoc_app lens len (replicate _ len)).
    split; [do 3 f_equal; lia|]. split; [lia|]. split; [exact S'|]. split; [exact Hh'|].
    split; [destruct Hr' as (x & y & ->); by eexists _, _|]. split; [exact Hch|].
    intros b' a Hb' Hin. rewrite (Hby b' a); [by apply (Hbytes b')| |done]. rewrite drop_app_le by lia. apply elem_of_app. by left.
  - cbn [rx_fill_alloc]. exists [b], r2, w2. cbn [length replicate]. split; [done|]. split; [lia|]. split; [exact S2|].
    split; [exact Hh2|]. split; [by eexists _, _|]. split; [done|exact Hbytes].
Qed.

(** ** What goes over the link *)

Definition desc_op (e : eth_event) : option (wire_op ntc_remote_buf_desc) :=
  match e with EvWqes p ds => Some (WCopy p ds) | EvProd i => Some (WIndex i) | _ => None end.
Definition cqe_op (e : eth_event) : option (wire_op ntc_remote_buf_desc) :=
  match e with EvCqes p ds => Some (WCopy p ds) | EvCons i => Some (WIndex i) | _ => None end.
Definition desc_ops (evs : list eth_event) : list (wire_op ntc_remote_buf_desc) := omap desc_op evs.
Definition cqe_ops (evs : list eth_event) : list (wire_op ntc_remote_buf_desc) := omap cqe_op evs.

(** What the events of a receive ring hold. *)
Definition rx_event (e : eth_event) : Prop :=
  match e with EvWqes _ _ | EvProd _ | EvPeerVbell _ | EvSignal => True | _ => False end.

Lemma same_chan_bytes C bufs w w1 w2 :
  same_bytes (drop C bufs) w w1 → ew_bytes w2 = ew_bytes w1 → same_bytes (drop C bufs) w w2.
Proof. intros H E b a Hb Hi. rewrite E. by apply (H b). Qed.

Lemma slots_ok_ring p c r bw bufs lens C :
  slots_ok r bw bufs lens C → slots_ok (rx_set_ring p c r) bw bufs lens C.
Proof. by intros []. Qed.

(** What a fill does: the buffers [bs] are new, and their descriptors go out. *)
Record filled (r r' : eth_rx) (w w' : eth_world) (bufs : list ntc_export_buf) (lens : list Z) (C : nat)
    (bs : list ntc_export_buf) (ls : list Z) (wq : list eth_event) : Prop := {
  fi_slots : slots_ok r' (ew_bw w') (bufs ++ bs) (lens ++ ls) C;
  fi_prod : er_prod r' = nenc cap (length (bufs ++ bs));
  fi_cmpl : er_cmpl r' = nenc cap C;
  fi_chan lo v m wire : (C ≤ lo)%nat → chan_ok cap (descs bufs lens) lo v m wire →
    chan_ok cap (descs (bufs ++ bs) (lens ++ ls)) lo v m (wire ++ desc_ops wq);
  fi_events : Forall rx_event wq }.

(** What it leaves alone, whatever happens. *)
Record fill_frame (r r' : eth_rx) (w w' : eth_world) (bufs : list ntc_export_buf) (C : nat) : Prop := {
  ff_rx : ∃ x y p, r' = rx_set_ring p (er_cmpl r) (rx_set_slots x y r);
  ff_vb : length (Vbell.dv_peer (ew_vb w')) = length (Vbell.dv_peer (ew_vb w));
  ff_bytes : same_bytes (drop C bufs) w w' }.

Lemma fill_loop_spec fuel len r w bufs lens C evs :
  slots_ok r (ew_bw w) bufs lens C → er_prod r = nenc cap (length bufs) → er_cmpl r = nenc cap C → len_ok len →
  Z.of_nat C + cap - Z.of_nat (length bufs) < Z.of_nat fuel →
  ∃ rc r' w' wq bs ls, rx_fill_loop ntc fuel len r w evs = Some (rc, r', w', evs ++ wq)
    ∧ (0 <= rc → filled r r' w w' bufs lens C bs ls wq) ∧ fill_frame r r' w w' bufs C
    ∧ ew_unrecoverable w' = ew_unrecoverable w.
Proof.
  revert r w bufs lens evs. induction fuel as [|fuel IH]; intros r w bufs lens evs S Hp Hc Hlen Hf.
  { destruct S as [_ _ _ _ Hw _ _ _]. lia. }
  pose proof S as [Hrc Hbl Hwl Hl Hwin Hb Hs Hm]. cbn [rx_fill_loop]. rewrite Hp, Hc, Hrc.
  rewrite (produce_nenc cap (length bufs) C Hcap) by lia. cbn [r_idx r_end r_base snd].
  pose proof (nslot_range cap Hcap (length bufs)) as Hr. set (P := length bufs) in *.
  set (n := Z.min (cap - Z.of_nat (P - C)) (cap - nslot cap P)) in *.
  destruct (Z.eqb_spec (nslot cap P) (nslot cap P + n)) as [He|Hne].
  { exists 0, r, w, [], [], []. rewrite app_nil_r. split; [done|]. split.
    - intros _. constructor; rewrite ?app_nil_r; try done. intros. by rewrite !app_nil_r.
    - split; [|done]. constructor; try done. by destruct r; eexists _, _, _. }
  assert (0 < n) as Hn by lia.
  destruct (fill_alloc_spec (Z.to_nat (nslot cap P + n - nslot cap P)) len r w bufs lens C P S Hlen)
    as (bs & r1 & w1 & E & Hk & S1 & Hh1 & (x & y & Hx) & (Hio & Hvb & Hun) & Hby);
    [unfold P in *; lia|unfold P in *; lia|unfold P in *; lia| |].
  { split; [rewrite descs_length by done; unfold P; lia|]. intros i Hi. unfold P in Hi. lia. }
  fold P in E. rewrite E. replace (nslot cap P + Z.of_nat (length bs) - nslot cap P) with (Z.of_nat (length bs)) by lia.
  rewrite Nat2Z.id. cbn [rx_set_ring er_cap er_cmpl er_peer_wqe_buf er_wqe_buf].
  assert (er_cap r1 = cap) as Hrc1 by (by subst r1). assert (er_cmpl r1 = nenc cap C) as Hc1 by (by subst r1).
  rewrite Hrc1, Hc1, (moved_index cap P (length bs) Hcap) by lia.
  unfold ew_request. destruct (ntc_request_memcpy_fenced _ _ _ _ _ _ _) as [rc io] eqn:Hreq.
  assert (fill_frame r (rx_set_ring (nenc cap (P + length bs)) (nenc cap C) r1) w (ew_set_io io w1) bufs C) as Hff.
  { subst r1. constructor; cbn; rewrite ?Hvb; try done. rewrite <- Hc. by eexists _, _, _. }
  destruct (Z.ltb_spec rc 0) as [Hneg|Hpos].
  { eexists rc, _, _, [], [], []. rewrite app_nil_r. split; [reflexivity|]. split; [lia|]. by split. }
  destruct (decide (length bs = 0)%nat) as [H0|Hk0].
  { rewrite H0 in Hreq. apply empty_request in Hreq. lia. }
  set (r2 := rx_set_ring _ _ _) in *. set (w2 := ew_set_io io w1) in *.
  set (lens1 := lens ++ replicate (length bs) len) in *.
  destruct (IH r2 w2 (bufs ++ bs) lens1 (evs ++ [EvWqes (nslot cap P) (take (length bs) (drop (Z.to_nat (nslot cap P)) (er_wqes r1)))]))
    as (rc' & r' & w' & wq & bs' & ls' & E' & Hok & Hff' & Hun').
  { by apply slots_ok_ring. }
  { cbn. by rewrite length_app. }
  { done. }
  { done. }
  { rewrite length_app. fold P. lia. }
  exists rc', r', w', (EvWqes (nslot cap P) (take (length bs) (drop (Z.to_nat (nslot cap P)) (er_wqes r1))) :: wq), (bs ++ bs'),
    (replicate (length bs) len ++ ls').
  change (er_wqes r2) with (er_wqes r1). rewrite E'. rewrite <- (assoc_L (++)). split; [done|].
  pose proof S1 as [_ _ Hwl1 Hl1 Hwin1 _ _ _].
  assert (take (length bs) (drop (Z.to_nat (nslot cap P)) (er_wqes r1)) = descs bs (replicate (length bs) len)) as Hds.
  { rewrite (holds_run cap Hcap (er_wqes r1) _ P (length (bufs ++ bs)) P (length bs) Hwl1 Hh1) by (rewrite ?length_app; fold P; lia).
    unfold lens1. rewrite descs_app by done. rewrite drop_app_length' by (rewrite descs_length; done).
    apply take_ge. rewrite descs_length; [lia|by rewrite length_replicate]. }
  split.
  - intros Hge. destruct (Hok Hge) as [F1 F2 F3 F4 F5]. unfold lens1 in *. rewrite <- !(assoc_L (++)) in *.
    constructor; try done; [|by constructor]. intros lo v m wire Hlo Hch.
    rewrite Hds. cbn [desc_ops omap list_omap desc_op]. rewrite (list_snoc_app wire _ (omap desc_op wq)). apply F4; [done|].
    rewrite descs_app by done. rewrite <- Hds. unfold P. rewrite <- (descs_length bufs lens Hl).
    pose proof (chan_bounds _ _ _ _ _ _ Hch) as [Hv _]. rewrite descs_length in Hv by done.
    assert (length (descs bs (replicate (length bs) len)) = length bs) as Hdl by (apply descs_length; by rewrite length_replicate).
    rewrite descs_length by done. fold P. rewrite Hds.
    replace (nslot cap P) with (nslot cap (length (descs bufs lens))) by (rewrite descs_length; done).
    apply chan_copy; [done|rewrite Hdl, descs_length by done; fold P; lia|].
    rewrite Hdl, descs_length by done. fold P. rewrite length_app in Hwin1. unfold P in *. lia.
  - split; [|by rewrite Hun']. destruct Hff as [Hx1 Hx2 Hx4], Hff' as [(x' & y' & p' & Hr') Hy2 Hy4]. constructor.
    + exists x', y', p'. rewrite Hr'. cbn. rewrite <- Hc. by subst r1.
    + by rewrite Hy2.
    + intros b a Hb' Hin. rewrite (Hy4 b a); [by apply (Hx4 b)| |done]. rewrite drop_app_le by lia. apply elem_of_app. by left.
Qed.

Context (Hsig : ∀ s, is_Some (Qp.ntc_req_signal irq vec s)).

(** The peer's doorbell exists. *)
Definition bell_ok (idx : Z) (w : eth_world) : Prop := (Z.to_nat idx < length (Vbell.dv_peer (ew_vb w)))%nat.

Definition only_chan (w w' : eth_world) : Prop :=
  ew_bw w' = ew_bw w ∧ ew_bytes w' = ew_bytes w ∧ ew_unrecoverable w' = ew_unrecoverable w
  ∧ length (Vbell.dv_peer (ew_vb w')) = length (Vbell.dv_peer (ew_vb w)).

Lemma notify_spec buf idx ev vbell w :
  bell_ok vbell w →
  ∃ rc w' evs, eth_notify irq vec buf idx ev vbell w = Some (rc, w', evs)
    ∧ (0 <= rc → evs = [ev; EvPeerVbell vbell; EvSignal]) ∧ only_chan w w'.
Proof.
  intros Hb. unfold eth_notify, ew_request. destruct (ntc_request_imm32 _ _ _ _ _) as [rc io].
  destruct (Z.ltb_spec rc 0); [eexists rc, _, _; split; [done|]; split; [lia|by split]|].
  unfold Vbell.ntrdma_dev_vbell_peer. cbn [ew_vb ew_io ew_set_io].
  destruct (lookup_lt_is_Some_2 _ _ Hb) as [p Hp]. rewrite Hp.
  destruct (negb _).
  { cbn. eexists _, _, _. split; [done|]. split; [done|by split]. }
  destruct (ntc_request_imm32 _ _ _ _ io) as [rc2 io2]. 
  destruct (Z.ltb_spec rc2 0).
  { eexists rc2, _, _. split; [done|]. split; [lia|]. split; [done|]. split; [done|]. split; [done|]. cbn. by rewrite length_insert. }
  cbn [ew_io ew_set_vb]. destruct (Hsig io2) as [[rc3 io3] Hs]. rewrite Hs.
  eexists rc3, _, _. split; [done|]. split; [intros Hge; by rewrite (proj2 (Z.ltb_ge _ _)) by done|].
  split; [done|]. split; [done|]. split; [done|]. cbn. by rewrite length_insert.
Qed.

Lemma slots_ok_mm r bw bw' bufs lens C : bw_mm bw' = bw_mm bw → slots_ok r bw bufs lens C → slots_ok r bw' bufs lens C.
Proof. intros H []. constructor; try done. by eapply holds_same. Qed.

Lemma filled_only_chan r r' w w1 w2 bufs lens C bs ls wq :
  filled r r' w w1 bufs lens C bs ls wq → only_chan w1 w2 → filled r r' w w2 bufs lens C bs ls wq.
Proof. intros [] (Hbw & _). constructor; try done. by rewrite Hbw. Qed.

Lemma filled_index r r' w w1 bufs lens C bs ls wq idx :
  filled r r' w w1 bufs lens C bs ls wq →
  filled r r' w w1 bufs lens C bs ls (wq ++ [EvProd (er_prod r'); EvPeerVbell idx; EvSignal]).
Proof.
  intros [S Hp Hc Hch Hev]. pose proof S as [_ _ _ Hl _ _ _ _]. constructor; try done.
  - intros lo v m wire Hlo Hw. unfold desc_ops. rewrite omap_app. cbn. rewrite (assoc_L (++)), Hp.
    rewrite <- (descs_length _ _ Hl). apply chan_index. by apply Hch.
  - apply Forall_app. split; [done|]. by repeat constructor.
Qed.

Lemma fill_spec e w bufs lens C :
  slots_ok (eth_rxr e) (ew_bw w) bufs lens C → er_prod (eth_rxr e) = nenc cap (length bufs) →
  er_cmpl (eth_rxr e) = nenc cap C → mtu_ok (en_mtu (eth_netdev e)) → bell_ok (eth_peer_vbell_idx e) w →
  ∃ e' w' wq, ntrdma_eth_rx_fill ntc irq vec e w = Some (e', w', wq)
    ∧ (ew_unrecoverable w' = false → ew_unrecoverable w = false ∧ ∃ bs ls, filled (eth_rxr e) (eth_rxr e') w w' bufs lens C bs ls wq)
    ∧ fill_frame (eth_rxr e) (eth_rxr e') w w' bufs C ∧ e' = eth_set_rx (eth_rxr e') e.
Proof.
  intros S Hp Hc Hm Hb. unfold ntrdma_eth_rx_fill.
  assert (∃ e' w' wq, Some (e, w, []) = Some (e', w', wq)
    ∧ (ew_unrecoverable w' = false → ew_unrecoverable w = false ∧ ∃ bs ls, filled (eth_rxr e) (eth_rxr e') w w' bufs lens C bs ls wq)
    ∧ fill_frame (eth_rxr e) (eth_rxr e') w w' bufs C ∧ e' = eth_set_rx (eth_rxr e') e) as Hnone.
  { exists e, w, []. split; [done|]. split.
    - intros Hu. split; [done|]. exists [], []. constructor; rewrite ?app_nil_r; try done. intros. by rewrite !app_nil_r.
    - split; [|by destruct e]. constructor; try done. destruct (eth_rxr e). by eexists _, _, _. }
  destruct (negb (eth_ready e)); [exact Hnone|]. destruct (negb _); [exact Hnone|]. clear Hnone.
  destruct (fill_loop_spec (fill_fuel (eth_rxr e)) (rx_frame_len (en_mtu (eth_netdev e))) (eth_rxr e) w bufs lens C []
    S Hp Hc (frame_len_ok _ _ Hm)) as (rc & r' & w1 & wq & bs & ls & E & Hok & Hff & Hun).
  { unfold fill_fuel. rewrite (so_cap _ _ _ _ _ S). destruct (so_window _ _ _ _ _ S). pose proof Hcap. unfold cap_ok in *. lia. }
  rewrite E. cbn [app]. cbv zeta beta. pose proof Hff as [Hx Hvb Hby].
  destruct (Z.ltb_spec rc 0) as [Hneg|Hge].
  { eexists _, _, _. split; [reflexivity|]. split; [done|]. split; [|by destruct e]. by constructor. }
  destruct (notify_spec (er_peer_prod_buf r') (er_prod r') (EvProd (er_prod r')) (eth_peer_vbell_idx e) w1) as
    (rc2 & w2 & evs2 & E2 & Hev & Hoc); [unfold bell_ok in *; by rewrite Hvb|].
  change (eth_peer_vbell_idx (eth_set_rx r' e)) with (eth_peer_vbell_idx e). rewrite E2. pose proof Hoc as (Hbw & Hbt & Hu & Hv).
  assert (fill_frame (eth_rxr e) r' w w2 bufs C) as Hff2.
  { constructor; [done|by rewrite Hv|]. intros b a H1 H2. rewrite Hbt. by apply (Hby b). }
  destruct (Z.ltb_spec rc2 0) as [Hneg2|Hge2].
  { eexists _, _, _. split; [reflexivity|]. split; [done|]. split; [|by destruct e]. destruct Hff2. by constructor. }
  eexists _, _, _. split; [reflexivity|]. cbn [ew_unrecoverable ew_set_io]. split; [|split; [destruct Hff2; by constructor|by destruct e]].
  intros Hf. split; [by rewrite <- Hun, <- Hu|]. rewrite (Hev Hge2). exists bs, ls. apply filled_index.
  apply (filled_only_chan _ _ _ w2); [|by split]. apply (filled_only_chan _ _ _ w1); [by apply Hok|done].
Qed.

(** ** Frames *)

Definition tx_off (s : sk_buff) : Z := Z.land (sk_headroom s) (SMP_CACHE_BYTES - 1).

(** A frame as the network stack hands it over. *)
Definition skb_ok (s : sk_buff) : Prop :=
  0 <= sk_headroom s ∧ 0 <= sk_headlen s ∧ sk_headroom s + sk_headlen s <= Z.of_nat (length (sk_head s)) < 2 ^ 30.

(** The bytes that are copied: the frame, from a cache line on. *)
Definition frame_bytes (s : sk_buff) : list Z :=
  take (Z.to_nat (sk_headlen s + tx_off s)) (drop (Z.to_nat (sk_headroom s - tx_off s)) (sk_head s)).
Definition fits (s : sk_buff) (len : Z) : Prop := sk_headlen s + tx_off s <= len.
#[export] Instance fits_dec s len : Decision (fits s len).
Proof. apply Z.le_dec. Defined.

(** What the peer is told of the slot. *)
Definition used (s : sk_buff) (b : ntc_export_buf) (len : Z) : ntc_remote_buf_desc :=
  if len <? sk_headlen s + tx_off s then mk_desc (rd_chan_addr (desc_of info b len)) 0
  else part_of info b (tx_off s) (sk_headlen s).

(** The frame is in its buffer. *)
Definition stored (m : Z → Z) (s : sk_buff) (b : ntc_export_buf) (len : Z) : Prop :=
  fits s len → bytes_at m (eb_dma_addr b) (sk_headlen s + tx_off s) = frame_bytes s.

(** What becomes of a frame: it is handed on with its bytes, unless it is empty,
    there is no room for it, or [short]: memory is short. *)
Context (short : Prop) (KO : KernelOk K) (Hshort : ∀ t, kalloc t = false → short).

Definition arrives (s : sk_buff) (e : eth_event) : Prop :=
  e = EvReceive (skb_data s) ∨ (e = EvDrop ∧ (sk_headlen s = 0 ∨ lmin < sk_headlen s + tx_off s ∨ short)).

Lemma kmalloc_short w : fst (kmalloc_node w) = 0 → short.
Proof.
  unfold kmalloc_node. destruct (kalloc (bw_time w)) eqn:E; [|intros _; by eapply Hshort].
  cbn. pose proof (kaddr_pos (bw_time w)). lia.
Qed.

Lemma tx_off_ok s : skb_ok s → 0 <= tx_off s <= sk_headroom s ∧ tx_off s < 4097.
Proof. intros (H & _ & _). unfold tx_off. pose proof (tx_off_bounds _ H). pose proof smp_bytes. lia. Qed.

Lemma frame_length s : skb_ok s → Z.of_nat (length (frame_bytes s)) = sk_headlen s + tx_off s.
Proof.
  intros H. pose proof (tx_off_ok s H). destruct H as (H1 & H2 & H3). unfold frame_bytes.
  rewrite length_take, length_drop. lia.
Qed.

Lemma bytes_at_lookup m a n i : (i < Z.to_nat n)%nat → bytes_at m a n !! i = Some (m (a + Z.of_nat i)).
Proof. intros H. unfold bytes_at. by rewrite list_lookup_fmap, lookup_seq_lt. Qed.

Lemma length_bytes_at m a n : length (bytes_at m a n) = Z.to_nat n.
Proof. unfold bytes_at. by rewrite length_fmap, length_seq. Qed.

Lemma bytes_at_ext m m' a n : (∀ i, 0 <= i < n → m' (a + i) = m (a + i)) → bytes_at m' a n = bytes_at m a n.
Proof.
  intros H. apply list_eq. intros i. destruct (decide (i < Z.to_nat n)%nat).
  - rewrite !bytes_at_lookup by done. rewrite H by lia. done.
  - by rewrite !lookup_ge_None_2 by (rewrite length_bytes_at; lia).
Qed.

Lemma stored_data m s b len :
  skb_ok s → fits s len → stored m s b len → bytes_at m (eb_dma_addr b + tx_off s) (sk_headlen s) = skb_data s.
Proof.
  intros Hs Hf Hst. specialize (Hst Hf). pose proof (tx_off_ok s Hs) as Ht. destruct Hs as (H1 & H2 & H3).
  apply list_eq. intros i. destruct (decide (i < Z.to_nat (sk_headlen s))%nat) as [Hi|Hi].
  - rewrite bytes_at_lookup by done.
    pose proof (bytes_at_lookup m (eb_dma_addr b) (sk_headlen s + tx_off s) (Z.to_nat (tx_off s) + i)) as Hb.
    rewrite Hst in Hb. specialize (Hb ltac:(lia)). unfold frame_bytes in Hb. rewrite lookup_take_lt, lookup_drop in Hb by lia.
    unfold skb_data. rewrite lookup_take_lt, lookup_drop by done.
    replace (Z.to_nat (sk_headroom s) + i)%nat with (Z.to_nat (sk_headroom s - tx_off s) + (Z.to_nat (tx_off s) + i))%nat by lia.
    rewrite Hb. do 2 f_equal. lia.
  - rewrite lookup_ge_None_2 by (rewrite length_bytes_at; lia). symmetry. apply lookup_ge_None_2.
    unfold skb_data. rewrite length_take. lia.
Qed.

Lemma used_fits s b len : fits s len → used s b len = part_of info b (tx_off s) (sk_headlen s).
Proof. intros H. unfold used, fits in *. by rewrite (proj2 (Z.ltb_ge _ _)) by lia. Qed.

(** ** Polling *)

(** What polling leaves alone. *)
Definition only_mem (w w' : eth_world) : Prop :=
  ew_io w' = ew_io w ∧ ew_vb w' = ew_vb w ∧ ew_bytes w' = ew_bytes w ∧ ew_unrecoverable w' = ew_unrecoverable w.

Lemma slots_ok_free r bw bw' bufs lens C b :
  slots_ok r bw bufs lens C → bufs !! C = Some b → mem_holds bw' (own ++ drop (S C) bufs) →
  slots_ok (rx_set_slots (<[Z.to_nat (nslot cap C) := ntc_export_buf_clear b]> (er_buf r)) (er_wqes r) r) bw' bufs lens (S C).
Proof.
  intros [Hc Hbl Hwl Hl Hwin Hb Hs Hm] Hlk Hx. pose proof (lookup_lt_Some _ _ _ Hlk).
  constructor; cbn; rewrite ?length_insert; try done; [lia| |intros n b' l Hn; apply Hs; lia].
  apply (holds_leave cap Hcap); [done|lia].
Qed.

Lemma free_slot r w bufs lens C b :
  slots_ok r (ew_bw w) bufs lens C → bufs !! C = Some b →
  ∃ bw, ntc_export_buf_free ntc b (ew_bw w) = Some (ntc_export_buf_clear b, bw)
    ∧ slots_ok (rx_set_slots (<[Z.to_nat (nslot cap C) := ntc_export_buf_clear b]> (er_buf r)) (er_wqes r) r) bw bufs lens (S C).
Proof.
  intros S Hb. pose proof (so_mem _ _ _ _ _ S) as Hm. rewrite (drop_S _ _ _ Hb) in Hm. apply holds_swap in Hm.
  destruct (holds_free ntc info memory region words WM _ _ _ Hm) as (bw & Hf & Hm').
  exists bw. split; [done|]. by eapply slots_ok_free.
Qed.

Lemma drop_slot r w w1 bufs lens C b s :
  slots_ok r (ew_bw w) bufs lens C → bufs !! C = Some b → bw_mm (ew_bw w1) = bw_mm (ew_bw w) → only_mem w w1 →
  sk_headlen s = 0 ∨ lmin < sk_headlen s + tx_off s ∨ short →
  ∃ x w' ev, match match ntc_export_buf_free ntc b (ew_bw w1) with
                   | None => None
                   | Some (b, bw) => Some (rx_set_slots (<[Z.to_nat (nslot cap C) := b]> (er_buf r)) (er_wqes r) r, ew_set_bw bw w1)
                   end with None => None | Some (r, w) => Some (r, w, [EvDrop]) end
     = Some (rx_set_slots x (er_wqes r) r, w', [ev])
  ∧ arrives s ev ∧ slots_ok (rx_set_slots x (er_wqes r) r) (ew_bw w') bufs lens (S C) ∧ only_mem w w'.
Proof.
  intros S Hb Hbw Hom Hwhy.
  destruct (free_slot r w1 bufs lens C b (slots_ok_mm r _ _ bufs lens C Hbw S) Hb) as (bw & -> & S').
  eexists _, _, _. split; [reflexivity|]. split; [by right|]. by split.
Qed.

(** The part of the buffer that a frame that fits has used. *)
Lemma used_params b len s :
  skb_ok s → export_wf b → eb_own_mw b = info → len_ok len → eb_size b = len + SKINFO_SIZE → fits s len →
  0 < sk_headlen s →
  ntc_export_buf_get_part_params b (used s b len) = (0, (tx_off s, sk_headlen s))
  ∧ u64 (tx_off s + sk_headlen s + SKINFO_SIZE) = tx_off s + sk_headlen s + SKINFO_SIZE
  ∧ tx_off s + sk_headlen s + SKINFO_SIZE <= eb_size b.
Proof.
  intros Hs Hwf Hown [Hl _] Hsz Hf Hpos. pose proof (tx_off_ok s Hs). pose proof skinfo_ok. unfold fits in Hf.
  rewrite used_fits by done. rewrite (part_params info pm WP b (tx_off s) (sk_headlen s) Hwf Hown) by lia.
  split; [done|]. split; [|lia]. apply u64_small. change (2 ^ 17) with 131072 in *. change (2 ^ 18) with 262144 in *.
  change (2 ^ 30) with 1073741824 in *. rewrite pow2_64. lia.
Qed.

Lemma poll_one_spec build r w bufs lens C b len s :
  (∀ n, build n = false → short) →
  slots_ok r (ew_bw w) bufs lens C → bufs !! C = Some b → lens !! C = Some len → skb_ok s →
  er_cqes r !! Z.to_nat (nslot cap C) = Some (used s b len) → stored (ew_bytes w) s b len →
  ∃ x w' ev, rx_poll_one ntc build (nslot cap C) r w = Some (rx_set_slots x (er_wqes r) r, w', [ev])
    ∧ arrives s ev ∧ slots_ok (rx_set_slots x (er_wqes r) r) (ew_bw w') bufs lens (S C) ∧ only_mem w w'.
Proof.
  intros Hbuild S Hb Hlen Hs Hcqe Hst. pose proof S as [Hc Hbl Hwl Hl Hwin [_ Hbufs] Hsz Hm].
  pose proof (lookup_lt_Some _ _ _ Hb) as Hlt.
  destruct (Hsz C b len (le_n _) Hb Hlen) as [Hlok Hbsz].
  destruct (holds_wf info memory region words _ _ b Hm) as (Hwf & Hown & Hb31).
  { apply elem_of_app. right. rewrite (drop_S _ _ _ Hb). left. }
  unfold rx_poll_one. rewrite Hbufs, Hb, Hcqe by lia.
  destruct (decide (fits s len ∧ 0 < sk_headlen s)) as [[Hf Hpos]|Hno].
  2:{ assert (snd (snd (ntc_export_buf_get_part_params b (used s b len))) = 0) as Hz.
      { apply empty_params. unfold used. destruct (Z.ltb_spec len (sk_headlen s + tx_off s)); [done|]. cbn.
        destruct Hs as (_ & Hs2 & _). unfold fits in Hno. lia. }
      destruct (ntc_export_buf_get_part_params b (used s b len)) as [rc [off n]]. cbn in Hz. subst n.
      apply drop_slot; try done. unfold fits in Hno. destruct Hlok as [_ Hlmin], Hs as (_ & Hs2 & _). lia. }
  destruct (used_params b len s Hs Hwf Hown Hlok Hbsz Hf Hpos) as (-> & -> & Hfit).
  rewrite (proj2 (Z.eqb_neq _ _)), (proj2 (Z.ltb_ge (eb_size b) _)) by lia. cbn [orb Z.ltb Z.compare].
  pose proof (kmalloc_short (ew_bw w)) as Hks. destruct (kmalloc_node (ew_bw w)) as [buf bw] eqn:Hk.
  assert (bw_mm bw = bw_mm (ew_bw w)) as Hbw by (unfold kmalloc_node in Hk; destruct (kalloc _); injection Hk as _ <-; done).
  destruct (Z.eqb_spec buf 0) as [Hz|_]; [apply (drop_slot r w (ew_set_bw bw w)); try done; right; right; by apply Hks|].
  pose proof (tx_off_ok s Hs) as Ht. pose proof skinfo_ok as Hsk.
  unfold ntc_export_buf_const_deref. rewrite segment_ok by (change (2 ^ 62) with 4611686018427387904; rewrite pow2_31 in *; lia).
  cbn [negb]. destruct Hwf as [_ Hdma _ _ _]. rewrite (proj2 (Z.eqb_neq _ _)) by lia.
  destruct (free_slot r (ew_set_bw bw w) bufs lens C b (slots_ok_mm r _ _ bufs lens C Hbw S) Hb) as (bw2 & Hfree & S').
  cbn [ew_bw ew_set_bw ew_bytes] in *. rewrite Hfree.
  eexists _, _, (if build (nslot cap C) then EvReceive (skb_data s) else EvDrop).
  rewrite (stored_data _ s b len Hs Hf Hst). split; [by destruct (build _)|].
  split; [destruct (build _) eqn:Hbs; [by left|right; by eauto]|]. split; [|done].
  apply (slots_ok_mm _ bw2); [|done]. cbn. unfold kfree_ptr. by destruct (buf =? 0).
Qed.

(** The frame of a slot has come: the peer has told how much of the buffer it
    used, and what it stored there is the frame. *)
Definition slot_frame (m : Z → Z) (cqes : list ntc_remote_buf_desc) (bufs : list ntc_export_buf) (lens : list Z)
    (fs : list sk_buff) (n : nat) : Prop :=
  ∃ b len s, bufs !! n = Some b ∧ lens !! n = Some len ∧ fs !! n = Some s ∧ skb_ok s
    ∧ cqes !! Z.to_nat (nslot cap n) = Some (used s b len) ∧ stored m s b len.

Lemma poll_loop_spec build n pos r w bufs lens fs C evs :
  (∀ n, build n = false → short) →
  slots_ok r (ew_bw w) bufs lens C → run_at cap C pos n →
  (∀ i, (C ≤ i < C + n)%nat → slot_frame (ew_bytes w) (er_cqes r) bufs lens fs i) →
  ∃ x w' got, rx_poll_loop ntc build n pos r w evs = Some (rx_set_slots x (er_wqes r) r, w', evs ++ got)
    ∧ Forall2 arrives (take n (drop C fs)) got
    ∧ slots_ok (rx_set_slots x (er_wqes r) r) (ew_bw w') bufs lens (C + n) ∧ only_mem w w'.
Proof.
  intros Hbuild. revert pos r w C evs. induction n as [|n IH]; intros pos r w C evs S Hrun Hfr.
  { exists (er_buf r), w, []. cbn. rewrite app_nil_r, Nat.add_0_r. destruct r.
    split; [done|]. split; [constructor|]. by split. }
  apply (run_at_S cap C pos n Hcap) in Hrun as [-> Hrun]. cbn [rx_poll_loop].
  destruct (Hfr C ltac:(lia)) as (b & len & s & Hb & Hl & Hs & Hok & Hq & Hst).
  destruct (poll_one_spec build r w bufs lens C b len s Hbuild S Hb Hl Hok Hq Hst) as (x & w1 & ev & -> & Har & S1 & Hm).
  pose proof Hm as (_ & _ & Hby & _).
  destruct (IH (nslot cap C + 1) (rx_set_slots x (er_wqes r) r) w1 (Datatypes.S C) (evs ++ [ev]) S1 Hrun)
    as (x' & w' & got & E & Hgot & S' & Hm').
  { intros i Hi. rewrite Hby. apply Hfr. lia. }
  exists x', w', (ev :: got). rewrite E. cbn [er_wqes rx_set_slots]. rewrite <- (assoc_L (++)). split; [done|].
  rewrite (drop_S _ _ _ Hs). cbn [take]. split; [by constructor|]. rewrite Nat.add_succ_r. split; [done|].
  destruct Hm as (? & ? & ? & ?), Hm' as (? & ? & ? & ?). repeat split; congruence.
Qed.

(** The memory of the rings is there. *)
Definition rx_valid (r : eth_rx) : Prop :=
  is_Some (ntc_export_buf_const_deref (er_cons_buf r) 0 4)
  ∧ ∀ start n, 0 <= start < cap → 0 <= n <= cap - start →
      is_Some (ntc_export_buf_const_deref (er_cqe_buf r) (sizeof_desc * start) (sizeof_desc * n)).

(** A poll hands on what has come, up to its budget and the end of the ring,
    and then fills the ring. *)
Lemma napi_poll_spec build budget e w bufs lens fs C V :
  let r := eth_rxr e in
  (∀ n, build n = false → short) →
  eth_link e = true → 0 < budget < 2 ^ 31 → rx_valid r →
  slots_ok r (ew_bw w) bufs lens C → er_cmpl r = nenc cap C → er_cons r = nenc cap V →
  (C ≤ V ≤ length bufs)%nat → (∀ i, (C ≤ i < V)%nat → slot_frame (ew_bytes w) (er_cqes r) bufs lens fs i) →
  ∃ k got x n w1 evs,
    let e1 := eth_set_net n (eth_set_rx (rx_set_ring (er_prod r) (nenc cap (C + k)) (rx_set_slots x (er_wqes r) r)) e) in
    ntrdma_eth_napi_poll ntc irq vec build budget e w
      = match ntrdma_eth_rx_fill ntc irq vec e1 w1 with
        | None => None | Some (e', w', evs') => Some (Z.of_nat k, e', w', (EvClear :: got ++ evs) ++ evs') end
    ∧ (C + k ≤ V)%nat ∧ (k = 0%nat → C = V) ∧ Forall2 arrives (take k (drop C fs)) got
    ∧ slots_ok (eth_rxr e1) (ew_bw w1) bufs lens (C + k) ∧ only_mem w w1
    ∧ en_mtu n = en_mtu (eth_netdev e) ∧ (evs = [] ∨ evs = [EvReadd]).
Proof.
  intros r Hbuild Hlink Hbud [[p Hp] Hval] S Hc Hv HV Hfr. unfold ntrdma_eth_napi_poll. rewrite Hlink. cbn [negb].
  set (e0 := if negb _ then _ else _).
  assert (eth_rxr e0 = r ∧ en_mtu (eth_netdev e0) = en_mtu (eth_netdev e)
    ∧ (∀ q, eth_set_rx q e0 = eth_set_net (eth_netdev e0) (eth_set_rx q e))) as (-> & Hm0 & He0).
  { unfold e0. by destruct (negb _), e. }
  pose proof S as [Hrc Hbl Hwl Hl Hwin Hbufs Hsz Hm].
  unfold ntrdma_eth_rx_cons. rewrite Hp, Hv, Hc, Hrc.
  rewrite (consume_nenc cap V C Hcap) by lia. cbn [r_idx r_end r_base].
  pose proof (nslot_range cap Hcap C) as Hr. set (m := Z.min (Z.of_nat (V - C)) (cap - nslot cap C)).
  assert (cap <= 2 ^ 31) as Hcap31 by (unfold cap_ok in Hcap; rewrite pow2_30 in Hcap; rewrite pow2_31; lia). rewrite pow2_31 in *.
  rewrite (u32_small (nslot cap C + budget)) by (rewrite pow2_32; lia).
  set (end_ := Z.min _ _). set (n := Z.to_nat (end_ - nslot cap C)).
  assert (Z.of_nat n = end_ - nslot cap C ∧ Z.of_nat n <= cap - nslot cap C ∧ (n ≤ V - C)%nat
    ∧ (n = 0%nat → C = V) ∧ end_ = nslot cap C + Z.of_nat n) as (Hn & Hnc & HnV & Hn0 & Hend) by (unfold n, end_, m; lia).
  destruct (Hval (nslot cap C) (end_ - nslot cap C)) as [q Hq]; [done|lia|]. rewrite Hq.
  destruct (poll_loop_spec build n (nslot cap C) r w bufs lens fs C [EvClear] Hbuild S) as (x & w1 & got & E & Hgot & S1 & Hmem).
  { right. split; [done|lia]. }
  { intros i Hi. apply Hfr. lia. }
  rewrite E. cbn [er_cap er_prod rx_set_slots]. rewrite Hrc, (moved_index cap C n Hcap) by lia. rewrite He0.
  set (r1 := rx_set_ring _ _ _).
  assert (slots_ok r1 (ew_bw w1) bufs lens (C + n)) as S2 by (by apply slots_ok_ring).
  assert (∀ (nt : eth_net) evs, en_mtu nt = en_mtu (eth_netdev e) → evs = [] ∨ evs = [EvReadd] →
    (C + n ≤ V)%nat ∧ (n = 0%nat → C = V) ∧ Forall2 arrives (take n (drop C fs)) got
    ∧ slots_ok r1 (ew_bw w1) bufs lens (C + n) ∧ only_mem w w1 ∧ en_mtu nt = en_mtu (eth_netdev e)
    ∧ (evs = [] ∨ evs = [EvReadd])) as Hall.
  { intros nt evs He Hev. split; [lia|]. split; [done|]. split; [done|]. split; [done|]. split; [|done].
    destruct Hmem as (? & ? & ? & ?). by repeat split. }
  destruct (Z.of_nat n <? budget).
  - exists n, got, x, (napi_complete (eth_netdev e0)), w1, [EvReadd]. split; [|apply Hall; [done|by right]].
    cbn [app]. by destruct (ntrdma_eth_rx_fill _ _ _ _ _) as [[[? ?] ?]|].
  - exists n, got, x, (eth_netdev e0), w1, []. split; [|apply Hall; [done|by left]].
    cbn [app]. rewrite app_nil_r. by destruct (ntrdma_eth_rx_fill _ _ _ _ _) as [[[? ?] ?]|].
Qed.

End Receiver.
End EthSide.
