(* ===== verification/EthSend.v ===== *)
(** * The sending side of an Ethernet link

    What [ntrdma_eth_start_xmit] does on every branch: the frame goes into the
    next buffer the peer has offered, and the descriptors of used buffers follow
    it over the link. *)

From stdpp Require Import gmap.
From S2P Require Import Prelude Kernel Ring Wire Ntc Mm Buf Vbell Qp Eth EthMem EthSide.
Import Ring Wire Ntc Mm Buf Eth EthMem EthSide.

Module EthSend.

(** What the transmitting half leaves alone. *)
Definition same_mem (w w' : eth_world) : Prop :=
  bw_mm (ew_bw w') = bw_mm (ew_bw w) ∧ ew_bytes w' = ew_bytes w
  ∧ length (Vbell.dv_peer (ew_vb w')) = length (Vbell.dv_peer (ew_vb w)).

Lemma same_mem_trans w1 w2 w3 : same_mem w1 w2 → same_mem w2 w3 → same_mem w1 w3.
Proof. intros (? & ? & ?) (? & ? & ?). repeat split; congruence. Qed.

Lemma only_chan_mem w w' : only_chan w w' → same_mem w w'.
Proof. intros (H1 & H2 & _ & H4). unfold same_mem. by rewrite H1. Qed.

Lemma local_free_mm b w : bw_mm (snd (ntc_local_buf_free b w)) = bw_mm w.
Proof. unfold ntc_local_buf_free, kfree_ptr. by repeat case_match. Qed.

Lemma prealloced_mm `{K : Kernel} size ptr w rc b w' :
  ntc_local_buf_map_prealloced size ptr w = (rc, b, w') → bw_mm w' = bw_mm w.
Proof.
  unfold ntc_local_buf_map_prealloced, ntc_phys_local_buf_map, map_single.
  destruct (dma_map_single _); cbn; by intros [= _ _ <-].
Qed.

Lemma request_mem (req : dma_io → Z * dma_io) w rc w' :
  ew_request req w = (rc, w') → same_mem w w' ∧ ew_unrecoverable w' = ew_unrecoverable w.
Proof. unfold ew_request. destruct (req _). by intros [= <- <-]. Qed.

Lemma cleanup_mem h w : same_mem w (xmit_cleanup h w) ∧ ew_unrecoverable (xmit_cleanup h w) = ew_unrecoverable w.
Proof.
  destruct h as [|[]|dst|dst src]; cbn; [done|done|done|by destruct (rb_dma_addr dst =? 0)|].
  pose proof (local_free_mm src (ew_bw w)). by destruct (rb_dma_addr dst =? 0).
Qed.

Section Sender.
Context `{K : Kernel} {NP : NetParams} {NO : NetParamsOk NP}.
Context (ntc : ntc_dev) (irq : Qp.ntc_irq) (vec : Z) (Hsig : ∀ s, is_Some (Qp.ntc_req_signal irq vec s)).
Context (info : ntc_own_mw) (pm : ntc_peer_mw) (WP : window_pair info pm).
Context (Hpm : peer_mws ntc !! Z.to_nat (om_mw_idx info) = Some pm).
Context (bus : Z → Z) (Hbus : ∀ p n d, dma_map_resource p n = Some d → bus d = p).
Context (cap : Z) (Hcap : cap_ok cap) (lmin : Z).

(** Where a frame goes, in the memory of the peer. *)
Definition target (dst : ntc_remote_buf) : Z := window_to_own info pm (bus (rb_dma_addr dst)).

(** The event of a frame that goes into a buffer; without room there is none. *)
Definition frame_event (s : sk_buff) (b : ntc_export_buf) (len : Z) (evs : list eth_event) : Prop :=
  (¬ fits s len ∧ evs = [])
  ∨ (fits s len ∧ ∃ dst, evs = [EvFrame dst (frame_bytes s)] ∧ target dst = eb_dma_addr b).

Lemma xmit_one_spec s b len w :
  skb_ok s → export_wf b → eb_own_mw b = info → len_ok lmin len → eb_size b = len + SKINFO_SIZE →
  match xmit_one ntc s (desc_of info b len) w with
  | inl (unrec, _, w', evs) => (unrec = false → evs = [] ∧ ew_unrecoverable w' = ew_unrecoverable w) ∧ same_mem w w'
  | inr (cqe, _, w', evs) => cqe = used info s b len ∧ frame_event s b len evs
      ∧ ew_unrecoverable w' = ew_unrecoverable w ∧ same_mem w w'
  end.
Proof.
  intros Hs Hb Hi Hlen Hsz. unfold xmit_one. fold (tx_off s). cbv zeta. cbn [rd_size desc_of].
  pose proof (tx_off_ok s Hs) as Ht. pose proof Hs as (Hs1 & Hs2 & Hs3). pose proof skinfo_ok as Hsk.
  pose proof Hlen as [[Hl0 _] _].
  destruct (Z.ltb_spec len (sk_headlen s + tx_off s)) as [Hno|Hfit].
  { split; [|split; [left; split; [unfold fits; lia|done]|done]].
    unfold used. by rewrite (proj2 (Z.ltb_lt _ _)). }
  destruct (kalloc _); [|done]. cbn [negb].
  rewrite (clip_desc info pm WP b len 0 (sk_headlen s + tx_off s)) by (try done; lia). cbn [Z.ltb Z.compare].
  unfold ntc_remote_buf_map. rewrite (proj2 (Z.eqb_neq _ _)) by (apply (part_value info pm WP); try done; lia).
  destruct (part_reaches info pm ntc WP Hpm b 0 (sk_headlen s + tx_off s)) as (a & io & -> & Ha); [done|done|lia..|].
  cbn [rd_size part_of]. destruct (dma_map_resource a _) as [d|] eqn:Hd; [|done].
  apply Hbus in Hd. cbn [Z.ltb Z.compare rb_dma_addr ew_bw ew_hold ew_set_bw].
  set (w1 := if d =? 0 then _ else _).
  assert (same_mem w w1 ∧ ew_unrecoverable w1 = ew_unrecoverable w) as [Hm1 Hu1] by (unfold w1; by destruct (d =? 0)).
  destruct (ntc_local_buf_map_prealloced _ _ _) as [[rc src] bw] eqn:Hpre. apply prealloced_mm in Hpre.
  set (w2 := ew_set_bw bw w1). assert (same_mem w w2) as Hm2.
  { destruct Hm1 as (Hm1 & Hb1 & Hv1). unfold w2. split; [|split; [done|done]]. cbn. rewrite Hpre. by destruct (d =? 0). }
  destruct (rc <? 0); [done|].
  destruct (ew_request _ w2) as [rc2 w3] eqn:Hreq. apply request_mem in Hreq as [Hm3 Hu3].
  pose proof (same_mem_trans _ _ _ Hm2 Hm3) as Hm4.
  destruct (rc2 <? 0); [done|].
  destruct (decide (tx_off s < len)) as [Hlt|Hge].
  - rewrite (clip_desc info pm WP b len (tx_off s) (sk_headlen s)) by (try done; lia). cbn [Z.ltb Z.compare].
    split; [by rewrite (used_fits info s b len)|]. split; [|split; [by rewrite Hu3|done]].
    right. split; [done|]. eexists. split; [done|]. unfold target. cbn [rb_dma_addr]. rewrite Hd.
    rewrite <- (Z.add_0_r a), Ha. lia.
  - unfold ntc_remote_buf_desc_clip, ntc_segment_valid. cbn [rd_size desc_of].
    rewrite (proj2 (Z.leb_le len (tx_off s))) by lia. cbn [negb Z.ltb Z.compare]. done.
Qed.

(** ** The descriptors of used buffers *)

Definition useds (fs : list sk_buff) (bufs : list ntc_export_buf) (lens : list Z) : list ntc_remote_buf_desc :=
  zip_with (λ s bl, used info s (fst bl) (snd bl)) fs (zip bufs lens).

Lemma useds_length fs bufs lens :
  length lens = length bufs → (length fs ≤ length bufs)%nat → length (useds fs bufs lens) = length fs.
Proof. intros Hl Hf. unfold useds. rewrite length_zip_with, length_zip_with. lia. Qed.

Lemma useds_lookup fs bufs lens n s b len :
  fs !! n = Some s → bufs !! n = Some b → lens !! n = Some len →
  useds fs bufs lens !! n = Some (used info s b len).
Proof. intros Hs Hb Hl. unfold useds. by rewrite lookup_zip_with, Hs, lookup_zip_with, Hb, Hl. Qed.

Lemma useds_snoc fs bufs lens s b len :
  length lens = length bufs → bufs !! length fs = Some b → lens !! length fs = Some len →
  useds (fs ++ [s]) bufs lens = useds fs bufs lens ++ [used info s b len].
Proof.
  intros Hl Hb Hn. pose proof (lookup_lt_Some _ _ _ Hb) as Hlt.
  assert (length (useds fs bufs lens) = length fs) as Hu by (apply useds_length; lia).
  apply list_eq. intros n. destruct (decide (n < length fs)%nat) as [H|H].
  - rewrite (lookup_app_l (useds _ _ _)) by lia. unfold useds. rewrite !lookup_zip_with. by rewrite lookup_app_l by lia.
  - rewrite (lookup_app_r (useds _ _ _)), Hu by lia. destruct (decide (n = length fs)) as [->|Hne].
    + rewrite Nat.sub_diag. apply useds_lookup; [by apply list_lookup_middle|done|done].
    + rewrite !lookup_ge_None_2; [done|cbn; lia|]. rewrite useds_length; rewrite ?length_app; cbn; lia.
Qed.

Lemma useds_more fs bufs lens bs ls :
  length lens = length bufs → (length fs ≤ length bufs)%nat →
  useds fs (bufs ++ bs) (lens ++ ls) = useds fs bufs lens.
Proof.
  intros Hl Hf. apply list_eq. intros n. unfold useds. rewrite !lookup_zip_with.
  destruct (fs !! n) eqn:Hn; [|done]. cbn. apply lookup_lt_Some in Hn.
  by rewrite !lookup_app_l by lia.
Qed.

(** How many descriptors are under way. *)
Definition copied (evs : list eth_event) : nat :=
  sum_list_with (λ e, match e with EvCqes _ ds => length ds | _ => 0%nat end) evs.
Definition is_cqes (e : eth_event) : Prop := match e with EvCqes _ _ => True | _ => False end.

Lemma copied_app l l' : copied (l ++ l') = (copied l + copied l')%nat.
Proof. apply sum_list_with_app. Qed.

(** The transmit ring: the descriptors of the frames [fs] are in place from
    number [X] on, those before have been sent. *)
Record sender (t : eth_tx) (fs : list sk_buff) (bufs : list ntc_export_buf) (lens : list Z) (X : nat) : Prop := {
  sn_cap : et_cap t = cap;
  sn_len : Z.of_nat (length (et_cqes t)) = cap;
  sn_lens : length lens = length bufs;
  sn_order : (X ≤ length fs ≤ length bufs)%nat ∧ Z.of_nat (length bufs) <= Z.of_nat X + cap;
  sn_cons : et_cons t = nenc cap (length fs);
  sn_cmpl : et_cmpl t = nenc cap X;
  sn_holds : holds cap (et_cqes t) (useds fs bufs lens) X (length fs) }.

Lemma nenc_inj X T : (X ≤ T)%nat → Z.of_nat T <= Z.of_nat X + cap → nenc cap X = nenc cap T → X = T.
Proof.
  intros Hle Hw He. unfold nenc in He. unfold cap_ok in Hcap.
  rewrite (enc_prod cap (Z.of_nat T) (Z.of_nat X)) in He by (try lia; unfold counters_ok; lia).
  pose proof (enc_range cap (Z.of_nat X) ltac:(lia)).
  destruct (Z.ltb_spec (enc cap (Z.of_nat X) + (Z.of_nat T - Z.of_nat X)) (2 * cap)); lia.
Qed.

(** Passes of the loop over the used slots. *)
Definition passes (X T : nat) : nat :=
  if decide (X = T) then 1%nat else if decide (Z.of_nat (T - X) <= cap - nslot cap X) then 2%nat else 3%nat.

Lemma passes_next X T k :
  (X ≤ T)%nat → Z.of_nat T <= Z.of_nat X + cap → X ≠ T →
  Z.of_nat k = Z.min (Z.of_nat (T - X)) (cap - nslot cap X) → (passes (X + k) T < passes X T)%nat.
Proof.
  intros Hle Hw Hne Hk. pose proof (nslot_range cap Hcap X) as Hr. unfold passes. rewrite (decide_False (P := X = T)) by done.
  destruct (decide (Z.of_nat (T - X) <= cap - nslot cap X)) as [Hs|Hs].
  - rewrite decide_True by lia. lia.
  - destruct (decide (X + k = T)%nat); [lia|]. rewrite decide_True; [lia|].
    assert (nslot cap (X + k) = 0) as ->; [|lia].
    unfold nslot in *. rewrite Nat2Z.inj_add. replace (Z.of_nat k) with (cap - slot cap (Z.of_nat X)) by lia.
    unfold slot. unfold cap_ok in Hcap. symmetry. apply (Z.mod_unique _ _ (Z.of_nat X / cap + 1)); [lia|].
    pose proof (Z.div_mod (Z.of_nat X) cap ltac:(lia)). lia.
Qed.

Lemma holds_to_run {T} (buf l : list T) lo hi n k :
  Z.of_nat (length buf) = cap → holds cap buf l lo hi → (lo ≤ n)%nat → (n + k ≤ hi)%nat →
  Z.of_nat k <= cap - nslot cap n →
  take n l ++ take k (drop (Z.to_nat (nslot cap n)) buf) = take (n + k) l.
Proof.
  intros Hb Hh Hn Hk Hc. rewrite (holds_run cap Hcap buf l lo hi n k) by done. apply take_take_drop.
Qed.

(** ** Sending the descriptors *)

Lemma sender_moved t fs bufs lens X X' :
  sender t fs bufs lens X → (X ≤ X' ≤ length fs)%nat →
  sender (tx_set_ring (et_cons t) (nenc cap X') t) fs bufs lens X'.
Proof. intros [] Hx. constructor; try done; [lia|]. cbn. eapply holds_mono; [done|lia|done]. Qed.

Lemma tx_cmpl_spec fuel t w evs fs bufs lens X :
  sender t fs bufs lens X → (passes X (length fs) ≤ fuel)%nat →
  ∃ rc t' w' cq, tx_cmpl_loop fuel t w evs = Some (rc, t', w', evs ++ cq)
    ∧ t' = tx_set_ring (et_cons t) (et_cmpl t') t
    ∧ same_mem w w' ∧ ew_unrecoverable w' = ew_unrecoverable w
    ∧ (0 <= rc → sender t' fs bufs lens (length fs) ∧ Forall is_cqes cq ∧ (X + copied cq = length fs)%nat
       ∧ ∀ lo v m wire, Z.of_nat (length fs) <= Z.of_nat lo + cap →
         chan_ok cap (take X (useds fs bufs lens)) lo v m wire →
         chan_ok cap (useds fs bufs lens) lo v m (wire ++ cqe_ops cq)).
Proof.
  revert t w evs X. induction fuel as [|fuel IH]; intros t w evs X S Hfuel.
  { unfold passes in Hfuel. repeat destruct (decide _); lia. }
  pose proof S as [Hc Hlen Hl [Ho Hw] Hco Hcm Hh]. cbn [tx_cmpl_loop]. rewrite Hco, Hcm, Hc.
  assert (length (useds fs bufs lens) = length fs) as Hul by (apply useds_length; lia).
  destruct (Z.eqb_spec (nenc cap X) (nenc cap (length fs))) as [He|Hne].
  { apply nenc_inj in He; [|lia|lia]. exists 0, t, w, []. rewrite app_nil_r. split; [done|].
    split; [by rewrite <- Hco; destruct t|]. split; [done|]. split; [done|]. intros _. rewrite <- He in *. split; [done|].
    split; [constructor|]. split; [cbn; lia|]. intros lo v m wire _. rewrite take_ge by lia. cbn. by rewrite app_nil_r. }
  assert (X ≠ length fs) as HX by congruence.
  rewrite (consume_nenc cap (length fs) X Hcap) by lia. cbn [r_idx r_end r_base].
  pose proof (nslot_range cap Hcap X) as Hr.
  set (k := Z.to_nat (Z.min (Z.of_nat (length fs - X)) (cap - nslot cap X))).
  replace (Z.min (Z.of_nat (length fs - X)) (cap - nslot cap X)) with (Z.of_nat k) by (unfold k; lia).
  replace (nslot cap X + Z.of_nat k - nslot cap X) with (Z.of_nat k) by lia.
  destruct (ew_request _ w) as [rc w1] eqn:Hreq. apply request_mem in Hreq as [Hm1 Hu1].
  destruct (Z.ltb_spec rc 0) as [Hneg|Hge].
  { exists rc, t, w1, []. rewrite app_nil_r. split; [done|]. split; [by rewrite <- Hco; destruct t|]. split; [done|]. split; [done|lia]. }
  rewrite (moved_index cap X k Hcap) by (unfold k; lia). rewrite Nat2Z.id.
  set (ds := take k (drop _ (et_cqes t))).
  assert (take X (useds fs bufs lens) ++ ds = take (X + k) (useds fs bufs lens)) as Hds
    by (apply (holds_to_run _ _ X (length fs)); try done; unfold k; lia).
  assert (length ds = k) as Hdl.
  { apply (f_equal length) in Hds. rewrite length_app, !length_take in Hds. unfold k in *. lia. }
  destruct (IH _ w1 (evs ++ [EvCqes (nslot cap X) ds]) (X + k)%nat
    (sender_moved t fs bufs lens X (X + k) S ltac:(unfold k; lia))) as (rc' & t' & w' & cq & E & Ht & Hm & Hu & Hok).
  { pose proof (passes_next X (length fs) k). unfold k in *. lia. }
  rewrite Hco in E. rewrite E. clear E. exists rc', t', w', (EvCqes (nslot cap X) ds :: cq).
  rewrite <- (assoc_L (++)). split; [done|]. split; [rewrite Ht at 1; by rewrite ?Hco|].
  split; [by eapply same_mem_trans|]. split; [by rewrite Hu|]. intros Hge'.
  destruct (Hok Hge') as (Hs' & Hf & Hn & Hch). split; [done|]. split; [by constructor|]. split; [cbn; unfold copied in *; lia|].
  intros lo v m wire Hlo Hchan. cbn [cqe_ops omap list_omap cqe_op]. rewrite (list_snoc_app wire _ (omap cqe_op cq)).
  apply Hch; [done|]. rewrite <- Hds.
  assert (length (take X (useds fs bufs lens)) = X) as HtX by (rewrite length_take; lia).
  pose proof (chan_copy cap _ lo v m wire ds Hchan) as Hcc. rewrite HtX in Hcc. apply Hcc; unfold k in *; lia.
Qed.

(** ** A run of [ntrdma_eth_start_xmit] *)

Definition tx_valid (t : eth_tx) : Prop :=
  is_Some (ntc_export_buf_const_deref (et_prod_buf t) 0 4)
  ∧ ∀ pos, 0 <= pos < cap → is_Some (ntc_export_buf_const_deref (et_wqe_buf t) (sizeof_desc * pos) sizeof_desc).

Definition other_event (e : eth_event) : Prop := match e with EvFrame _ _ | EvCqes _ _ => False | _ => True end.

(** The frame [s] has been given to the next slot. *)
Record sent_one (t t' : eth_tx) (s : sk_buff) (fs : list sk_buff) (bufs : list ntc_export_buf) (lens : list Z)
    (X : nat) (evs : list eth_event) : Prop := {
  so_next : ∃ b len fe cq rest X', bufs !! length fs = Some b ∧ lens !! length fs = Some len
    ∧ evs = fe ++ cq ++ rest ∧ frame_event s b len fe ∧ Forall is_cqes cq ∧ Forall other_event rest
    ∧ sender t' (fs ++ [s]) bufs lens X' ∧ X' = (X + copied cq)%nat
    ∧ ∀ lo v m wire, Z.of_nat (length (fs ++ [s])) <= Z.of_nat lo + cap →
      chan_ok cap (take X (useds fs bufs lens)) lo v m wire →
      chan_ok cap (take X' (useds (fs ++ [s]) bufs lens)) lo v m (wire ++ cqe_ops evs);
  so_same : ∃ cqes cons cmpl, t' = tx_set_ring cons cmpl (tx_set_cqes cqes t);
  so_desc : Forall (λ e, desc_op e = None) evs }.

Lemma eth_sender_put t s fs bufs lens X b len :
  sender t fs bufs lens X → bufs !! length fs = Some b → lens !! length fs = Some len →
  sender (tx_set_ring (nenc cap (length (fs ++ [s]))) (et_cmpl t)
            (tx_set_cqes (<[Z.to_nat (nslot cap (length fs)) := used info s b len]> (et_cqes t)) t))
    (fs ++ [s]) bufs lens X.
Proof.
  intros [Hc Hlen Hl [Ho Hw] Hco Hcm Hh] Hb Hn. pose proof (lookup_lt_Some _ _ _ Hb).
  assert (length (useds fs bufs lens) = length fs) as Hul by (apply useds_length; lia).
  constructor; cbn; rewrite ?length_insert; try done.
  - rewrite length_app. cbn. lia.
  - rewrite (useds_snoc fs bufs lens s b len) by done. rewrite length_app. cbn. rewrite Nat.add_1_r.
    rewrite <- Hul. apply (holds_snoc cap Hcap); rewrite ?Hul; try done; lia.
Qed.

Lemma frame_event_ops s b len evs : frame_event s b len evs → cqe_ops evs = [] ∧ Forall (λ e, desc_op e = None) evs.
Proof. intros [[_ ->]|(_ & dst & -> & _)]; cbn; repeat constructor. Qed.

(** The buffers the peer offers. *)
Definition offers (bufs : list ntc_export_buf) (lens : list Z) (T : nat) : Prop :=
  ∀ n b l, (T ≤ n)%nat → bufs !! n = Some b → lens !! n = Some l →
    export_wf b ∧ eb_own_mw b = info ∧ len_ok lmin l ∧ eb_size b = l + SKINFO_SIZE.

(** What every run leaves alone, and what a run without an unrecoverable error
    does. *)
Definition xmit_frame (e e' : ntrdma_eth) : Prop :=
  ∃ n, e' = eth_set_net n (eth_set_tx (eth_txr e') e) ∧ en_mtu n = en_mtu (eth_netdev e).

Definition xmit_result (s : sk_buff) (e e' : ntrdma_eth) (w w' : eth_world) (fs : list sk_buff)
    (bufs : list ntc_export_buf) (lens : list Z) (X VD : nat) (evs : list eth_event) : Prop :=
  xmit_frame e e' ∧ same_mem w w'
  ∧ (ew_unrecoverable w' = false → ew_unrecoverable w = false
     ∧ ((eth_txr e' = eth_txr e ∧ evs = [])
        ∨ ((length fs < VD)%nat ∧ sent_one (eth_txr e) (eth_txr e') s fs bufs lens X evs))).

Lemma xmit_done_frame tx_prod e t :
  xmit_frame e (xmit_done tx_prod (eth_set_tx t e)) ∧ eth_txr (xmit_done tx_prod (eth_set_tx t e)) = t.
Proof.
  unfold xmit_done, xmit_frame. destruct (_ =? _).
  - split; [|done]. by exists (napi_schedule (net_stop_queue (eth_netdev e))).
  - split; [|done]. exists (eth_netdev e). by destruct e.
Qed.

Lemma xmit_fail_result unrec h tx_prod s e t w1 w fs bufs lens X VD evs :
  same_mem w w1 → (unrec = false → t = eth_txr e ∧ evs = [] ∧ ew_unrecoverable w1 = ew_unrecoverable w) →
  ∃ e' w' evs', xmit_fail unrec h tx_prod (eth_set_tx t e) w1 evs = Some (e', w', evs')
    ∧ xmit_result s e e' w w' fs bufs lens X VD evs'.
Proof.
  intros Hm Hun. unfold xmit_fail.
  destruct (xmit_done_frame tx_prod e t) as [Hf Ht].
  set (w2 := if unrec then _ else w1). destruct (cleanup_mem h w2) as [Hm2 Hu2].
  assert (same_mem w w2) as Hmw by (by destruct unrec).
  eexists _, _, _. split; [reflexivity|]. split; [done|]. split; [by eapply same_mem_trans|].
  rewrite Hu2, Ht. destruct unrec; [done|]. destruct (Hun eq_refl) as (-> & -> & Hu).
  intros Hf2. unfold w2 in Hf2. split; [congruence|]. by left.
Qed.

(** The frame has its buffer and its descriptor; the peer is told, or not yet. *)
Lemma xmit_kick_spec s h tx_prod e t1 w w1 fs bufs lens X VD evs1 b len :
  bufs !! length fs = Some b → lens !! length fs = Some len → (length fs < VD)%nat →
  sender (eth_txr e) fs bufs lens X → sender t1 (fs ++ [s]) bufs lens X →
  (∃ x y z, t1 = tx_set_ring y z (tx_set_cqes x (eth_txr e))) →
  bell_ok (eth_peer_vbell_idx e) w → frame_event s b len evs1 → same_mem w w1 →
  ew_unrecoverable w1 = ew_unrecoverable w →
  ∃ e' w' evs, xmit_kick irq vec s h tx_prod (eth_set_tx t1 e) w1 evs1 = Some (e', w', evs)
    ∧ xmit_result s e e' w w' fs bufs lens X VD evs.
Proof.
  intros Hb Hlk HlV S S1 Hsame1 Hbell Hfe Hm1 Hu1. unfold xmit_kick.
  pose proof S as [Hc Hlen Hl [Ho Hw] Hco Hcm Hh]. destruct (frame_event_ops s b len evs1 Hfe) as [Hops Hdesc].
  pose proof (lookup_lt_Some _ _ _ Hb) as Hlt.
  assert (∀ Y : nat, (Y ≤ length fs)%nat → take Y (useds (fs ++ [s]) bufs lens) = take Y (useds fs bufs lens)) as Htake.
  { intros Y HY. rewrite (useds_snoc fs bufs lens s b len) by done. rewrite take_app_le; [done|]. rewrite useds_length; lia. }
  destruct (sk_xmit_more s).
  { destruct (xmit_done_frame tx_prod e t1) as [Hf Ht].
    eexists _, _, _. split; [reflexivity|]. split; [done|]. split; [done|].
    intros Hx. split; [congruence|]. right. rewrite Ht. split; [done|].
    constructor; [|destruct Hsame1 as (?&?&?&?); by eexists _, _, _|done].
    exists b, len, evs1, [], [], X. cbn. rewrite !app_nil_r, Nat.add_0_r. do 4 (split; [done|]). do 2 (split; [constructor|]).
    split; [done|]. split; [done|]. intros lo v m wire Hlo Hch. rewrite Hops, app_nil_r. by rewrite Htake by lia. }
  cbn [eth_txr eth_set_tx].
  destruct (tx_cmpl_spec 4 t1 w1 evs1 (fs ++ [s]) bufs lens X S1) as (rc & t2 & w2 & cq & -> & Ht2 & Hm2 & Hu2 & Hok).
  { unfold passes. repeat destruct (decide _); lia. }
  pose proof (same_mem_trans _ _ _ Hm1 Hm2) as Hm02. change (eth_set_tx t2 (eth_set_tx t1 e)) with (eth_set_tx t2 e).
  destruct (Z.ltb_spec rc 0) as [Hneg|Hge]; [by apply xmit_fail_result|].
  destruct (notify_spec irq vec Hsig (et_peer_cons_buf t2) (et_cmpl t2) (EvCons (et_cmpl t2)) (eth_peer_vbell_idx e) w2)
    as (rc2 & w3 & evs3 & E3 & Hev3 & Hoc).
  { unfold bell_ok in *. destruct Hm02 as (_ & _ & Hv). by rewrite Hv. }
  change (eth_peer_vbell_idx (eth_set_tx t2 e)) with (eth_peer_vbell_idx e). rewrite E3.
  pose proof (same_mem_trans _ _ _ Hm02 (only_chan_mem _ _ Hoc)) as Hm03.
  destruct (Z.ltb_spec rc2 0) as [Hneg2|Hge2]; [by apply xmit_fail_result|].
  destruct (xmit_done_frame tx_prod e t2) as [Hf Ht]. eexists _, _, _. split; [reflexivity|].
  split; [done|]. split; [done|]. cbn [ew_unrecoverable ew_set_io]. destruct Hoc as (_ & _ & Hu3 & _).
  intros Hx. split; [congruence|]. right. split; [done|]. rewrite Ht, (Hev3 Hge2).
  destruct (Hok Hge) as (S2 & Hcq & Hn & Hch). constructor.
  - exists b, len, evs1, cq, [EvCons (et_cmpl t2); EvPeerVbell (eth_peer_vbell_idx e); EvSignal], (length (fs ++ [s])).
    rewrite (assoc_L (++)). do 5 (split; [done|]). split; [by repeat constructor|]. split; [done|]. split; [lia|].
    intros lo v m wire Hlo Hchan. unfold cqe_ops. rewrite !omap_app. cbn. fold (cqe_ops evs1) (cqe_ops cq).
    rewrite Hops. cbn [app]. rewrite (assoc_L (++)), (sn_cmpl _ _ _ _ _ S2).
    pose proof (useds_length (fs ++ [s]) bufs lens Hl) as Hul. rewrite length_app in Hul at 1. specialize (Hul ltac:(cbn; lia)).
    rewrite take_ge by lia. rewrite <- Hul. apply chan_index. apply Hch; [done|]. by rewrite Htake by lia.
  - destruct Hsame1 as (x & y & z & Hx1). rewrite Ht2, Hx1. by eexists _, _, _.
  - rewrite !Forall_app. split; [split; [done|]|by repeat constructor]. eapply Forall_impl; [|exact Hcq]. by intros [].
Qed.

Lemma start_xmit_spec s e w fs bufs lens X VD :
  let t := eth_txr e in
  skb_ok s → sender t fs bufs lens X → tx_valid t → bell_ok (eth_peer_vbell_idx e) w →
  et_prod t = nenc cap VD → (length fs ≤ VD ≤ length bufs)%nat →
  (∀ n, (length fs ≤ n < VD)%nat → et_wqes t !! Z.to_nat (nslot cap n) = descs info bufs lens !! n) →
  offers bufs lens (length fs) →
  ∃ e' w' evs, ntrdma_eth_start_xmit ntc irq vec s e w = Some (e', w', evs)
    ∧ xmit_result s e e' w w' fs bufs lens X VD evs.
Proof.
  intros t Hs S [[p Hp] Hval] Hbell Hprod HVD Hwqes Hoff. unfold ntrdma_eth_start_xmit.
  pose proof S as [Hc Hlen Hl [Ho Hw] Hco Hcm Hh].
  set (w0 := ew_hold 0 0 1 w). assert (same_mem w w0) as Hm0 by done.
  assert (eth_set_tx t e = e) as He by (by destruct e).
  assert (∀ e' w1, xmit_frame e e' → eth_txr e' = t → same_mem w w1 → ew_unrecoverable w1 = ew_unrecoverable w →
    xmit_result s e e' w w1 fs bufs lens X VD []) as Hnone.
  { intros e' w1 Hf Ht Hm Hu. split; [done|]. split; [done|]. intros Hx. split; [congruence|]. by left. }
  destruct (negb (eth_link e)).
  { eexists _, _, _. split; [reflexivity|]. apply Hnone; [|done|done|done]. exists (eth_netdev e). by destruct e. }
  fold t. unfold ntrdma_eth_tx_prod. rewrite Hp, Hprod, Hco, Hc.
  rewrite (consume_nenc cap VD (length fs) Hcap) by lia. cbn [r_idx r_end r_base].
  pose proof (nslot_range cap Hcap (length fs)) as Hr.
  destruct (Z.eqb_spec (nslot cap (length fs)) (nslot cap (length fs) + Z.min (Z.of_nat (VD - length fs)) (cap - nslot cap (length fs)))) as [Heq|Hne].
  { destruct (xmit_done_frame (nenc cap VD) e t) as [Hf Ht]. rewrite He in Hf, Ht.
    eexists _, _, _. split; [reflexivity|]. by apply Hnone. }
  assert (length fs < VD)%nat as HlV by lia.
  destruct (Hval (nslot cap (length fs)) Hr) as [q Hq]. rewrite Hq.
  destruct (lookup_lt_is_Some_2 bufs (length fs)) as [b Hb]; [lia|].
  destruct (lookup_lt_is_Some_2 lens (length fs)) as [len Hlk]; [lia|].
  rewrite Hwqes by lia. unfold descs. rewrite lookup_zip_with, Hb. cbn [mbind option_bind]. rewrite Hlk.
  cbn [mbind option_bind].
  destruct (Hoff _ b len (le_n _) Hb Hlk) as (Hwf & Hown & Hlok & Hsz).
  pose proof (xmit_one_spec s b len w0 Hs Hwf Hown Hlok Hsz) as Hone.
  destruct (xmit_one ntc s (desc_of info b len) w0) as [[[[unrec h] w1] evs1]|[[[cqe h] w1] evs1]].
  { destruct Hone as [Hn Hm]. pose proof (xmit_fail_result unrec h (nenc cap VD) s e t w1 w fs bufs lens X VD evs1 Hm) as Hf.
    rewrite He in Hf. apply Hf. intros Hx. by destruct (Hn Hx). }
  destruct Hone as (-> & Hfe & Hu1 & Hm1).
  pose proof (moved_index cap (length fs) 1 Hcap ltac:(lia)) as Hmv. change (Z.of_nat 1) with 1 in Hmv.
  cbn [et_cap et_cmpl et_cqes tx_set_cqes]. rewrite ?Hc, Hmv.
  set (t1 := tx_set_ring _ _ _).
  assert (sender t1 (fs ++ [s]) bufs lens X) as S1.
  { unfold t1. replace (length fs + 1)%nat with (length (fs ++ [s])) by (rewrite length_app; done). by apply eth_sender_put. }
  apply (xmit_kick_spec s h (nenc cap VD) e t1 w w1 fs bufs lens X VD evs1 b len); try done. by eexists _, _, _.
Qed.

End Sender.
End EthSend.
