(* ===== verification/EthNet.v ===== *)
(** * Two Ethernet devices on a link

    Two hosts, each with a transmitting and a receiving half.  What a run puts on
    the link is delivered in order; between the runs the rest of the kernel may
    use the memory that the device does not hold.  The invariant of the system
    gives the theorem on the frames. *)

From stdpp Require Import gmap.
From S2P Require Import Prelude Kernel Ring Wire Ntc Mm Buf Vbell Qp Eth EthMem EthSide EthSend.
Import Ring Wire Ntc Mm Buf Eth EthMem EthSide EthSend.

Module EthNet.

(** What is fixed of a host: its device, the window it exports with the memory
    behind it, how the peer sees the window, the size of its receive ring. *)
Record host := mk_host {
  h_ntc : ntc_dev; h_irq : Qp.ntc_irq; h_vec : Z;
  h_info : ntc_own_mw; h_pm : ntc_peer_mw;
  h_memory : Z; h_region : Z; h_words : Z → Z;
  h_cap : Z }.

Record host_ok `{K : Kernel} (h peer : host) : Prop := {
  ho_sig : ∀ s, is_Some (Qp.ntc_req_signal (h_irq h) (h_vec h) s);
  ho_cap : cap_ok (h_cap h);
  ho_window : window_mode (h_ntc h) (h_info h) (h_memory h) (h_region h);
  ho_pair : window_pair (h_info h) (h_pm h);
  ho_peer : peer_mws (h_ntc peer) !! Z.to_nat (om_mw_idx (h_info h)) = Some (h_pm h) }.

(** A host in a run: its device, its world, what it has put on the link, the
    frames it has given to a slot and what became of the frames it received. *)
Record side := mk_side {
  sd_eth : ntrdma_eth; sd_world : eth_world; sd_wire : list eth_event;
  sd_sent : list sk_buff; sd_got : list eth_event }.

(** What leaves the host, and what the network stack sees. *)
Definition on_wire (e : eth_event) : bool :=
  match e with EvReceive _ | EvDrop | EvClear | EvReadd => false | _ => true end.
Definition outcome (e : eth_event) : bool := match e with EvReceive _ | EvDrop => true | _ => false end.
Definition wired (evs : list eth_event) : list eth_event := List.filter on_wire evs.
Definition outcomes (evs : list eth_event) : list eth_event := List.filter outcome evs.

(** The exported buffers of the rings. *)
Definition ring_bufs (e : ntrdma_eth) : list ntc_export_buf :=
  [er_cqe_buf (eth_rxr e); er_cons_buf (eth_rxr e); et_wqe_buf (eth_txr e); et_prod_buf (eth_txr e)].

Definition tx_mem (t : eth_tx) : list ntc_remote_buf_desc * Z := (et_wqes t, et_prod t).
Definition rx_mem (r : eth_rx) : list ntc_remote_buf_desc * Z := (er_cqes r, er_cons r).

(** Bytes from an address on. *)
Definition store (a : Z) (l : list Z) (m : Z → Z) : Z → Z :=
  λ x, if a <=? x then default (m x) (l !! Z.to_nat (x - a)) else m x.

Lemma store_in a l m i : (i < length l)%nat → Some (store a l m (a + Z.of_nat i)) = l !! i.
Proof.
  intros Hi. destruct (lookup_lt_is_Some_2 _ _ Hi) as [v Hv]. unfold store. rewrite (proj2 (Z.leb_le _ _)) by lia.
  replace (Z.to_nat (a + Z.of_nat i - a)) with i by lia. by rewrite Hv.
Qed.

Lemma store_out a l m x : x < a ∨ a + Z.of_nat (length l) <= x → store a l m x = m x.
Proof.
  intros Hx. unfold store. destruct (Z.leb_spec a x); [|done]. by rewrite lookup_ge_None_2 by lia.
Qed.

Section Net.
Context `{K : Kernel} {KO : KernelOk K} {NP : NetParams} {NO : NetParamsOk NP}.
Context (bus : Z → Z) (Hbus : ∀ p n d, dma_map_resource p n = Some d → bus d = p).
Context (lmin : Z) (short : Prop) (Hshort : ∀ t, kalloc t = false → short).

Definition lands (h : host) (dst : ntc_remote_buf) : Z := target (h_info h) (h_pm h) bus dst.

(** An event arrives at the host. *)
Definition receive (h : host) (ev : eth_event) (s : side) : side :=
  let e := sd_eth s in
  let t := match desc_op ev with Some o => tx_set_mem (deliver o (tx_mem (eth_txr e))) (eth_txr e) | None => eth_txr e end in
  let r := match cqe_op ev with Some o => rx_set_mem (deliver o (rx_mem (eth_rxr e))) (eth_rxr e) | None => eth_rxr e end in
  let w := match ev with
           | EvFrame dst bytes => ew_set_bytes (store (lands h dst) bytes (ew_bytes (sd_world s))) (sd_world s)
           | _ => sd_world s end in
  mk_side (eth_set_rx r (eth_set_tx t e)) w (sd_wire s) (sd_sent s) (sd_got s).

(** ** The frames under way *)

Section Frames.
Context (h : host) (bufs : list ntc_export_buf) (lens : list Z).

(** Frames from number [f] on are under way; the descriptor of a frame comes
    behind it.  [X] descriptors have been sent. *)
Inductive frames_ok (fs : list sk_buff) (X : nat) : nat → list eth_event → Prop :=
  | fo_done : frames_ok fs X (length fs) []
  | fo_skip f s len w : fs !! f = Some s → lens !! f = Some len → ¬ fits s len →
      frames_ok fs X (S f) w → frames_ok fs X f w
  | fo_frame f s b len dst w : fs !! f = Some s → bufs !! f = Some b → lens !! f = Some len → fits s len →
      lands h dst = eb_dma_addr b → frames_ok fs X (S f) w →
      frames_ok fs X f (EvFrame dst (frame_bytes s) :: w)
  | fo_cqes f p ds w : (X ≤ f + copied w)%nat → frames_ok fs X f w → frames_ok fs X f (EvCqes p ds :: w)
  | fo_other f e w : other_event e → frames_ok fs X f w → frames_ok fs X f (e :: w).

Lemma frames_le fs X f w : frames_ok fs X f w → (f ≤ length fs)%nat.
Proof. induction 1; lia. Qed.

Lemma frames_other fs X f w evs : frames_ok fs X f w → Forall other_event evs → frames_ok fs X f (w ++ evs).
Proof.
  intros Hw Hev. induction Hw as [|f s len w Hs Hl Hf Hw IH|f s b len dst w Hs Hb Hl Hf Hd Hw IH|f p ds w HX Hw IH|f e w He Hw IH].
  - cbn. induction Hev; [constructor|by constructor].
  - by eapply fo_skip.
  - cbn. by eapply fo_frame.
  - cbn. apply fo_cqes; [rewrite copied_app; lia|done].
  - cbn. by apply fo_other.
Qed.

Lemma frames_cqes fs X f w cq :
  frames_ok fs X f w → Forall is_cqes cq → (X + copied cq ≤ length fs)%nat →
  frames_ok fs (X + copied cq) f (w ++ cq).
Proof.
  intros Hw Hc Hle. induction Hw as [|f s len w Hs Hl Hf Hw IH|f s b len dst w Hs Hb Hl Hf Hd Hw IH|f p ds w HX Hw IH|f e w He Hw IH].
  - cbn. generalize (X + copied cq)%nat Hle. clear Hle. intros Y HY.
    induction Hc as [|[] l Hx Hc IH]; try done; [constructor|]. constructor; [lia|done].
  - by eapply fo_skip.
  - cbn. by eapply fo_frame.
  - cbn. apply fo_cqes; [rewrite copied_app; lia|done].
  - cbn. by apply fo_other.
Qed.

Lemma frames_frame fs X f w s b len fe :
  frames_ok fs X f w → bufs !! length fs = Some b → lens !! length fs = Some len →
  frame_event (h_info h) (h_pm h) bus s b len fe → frames_ok (fs ++ [s]) X f (w ++ fe).
Proof.
  intros Hw Hb Hl Hfe.
  assert (∀ n x, fs !! n = Some x → (fs ++ [s]) !! n = Some x) as Happ by (intros; by apply lookup_app_l_Some).
  induction Hw as [|f s0 len0 w Hs Hl0 Hf Hw IH|f s0 b0 len0 dst w Hs Hb0 Hl0 Hf Hd Hw IH|f p ds w HX Hw IH|f e w He Hw IH].
  - cbn. pose proof (list_lookup_middle fs [] s (length fs) eq_refl) as Hs.
    assert (frames_ok (fs ++ [s]) X (S (length fs)) []) as Hend.
    { replace (S (length fs)) with (length (fs ++ [s])) by (rewrite length_app; cbn; lia). constructor. }
    destruct Hfe as [[Hn ->]|(Hf & dst & -> & Hd)]; [by eapply fo_skip|by eapply fo_frame].
  - eapply fo_skip; eauto.
  - cbn. eapply fo_frame; eauto.
  - cbn. apply fo_cqes; [rewrite copied_app; lia|done].
  - cbn. by apply fo_other.
Qed.

(** The event at the head: frames without room are passed over. *)
Definition no_room (fs : list sk_buff) (f f' : nat) : Prop :=
  ∀ n s len, (f ≤ n < f')%nat → fs !! n = Some s → lens !! n = Some len → ¬ fits s len.

Lemma frames_head fs X f e w :
  frames_ok fs X f (e :: w) →
  ∃ f', (f ≤ f')%nat ∧ no_room fs f f'
    ∧ ((∃ s b len dst, e = EvFrame dst (frame_bytes s) ∧ fs !! f' = Some s ∧ bufs !! f' = Some b ∧ lens !! f' = Some len
          ∧ fits s len ∧ lands h dst = eb_dma_addr b ∧ frames_ok fs X (S f') w)
       ∨ (∃ p ds, e = EvCqes p ds ∧ (X ≤ f' + copied w)%nat ∧ frames_ok fs X f' w)
       ∨ (other_event e ∧ frames_ok fs X f' w)).
Proof.
  remember (e :: w) as l eqn:El. intros Hw. induction Hw as [|f s len w0 Hs Hl Hf Hw IH|f s b len dst w0 Hs Hb Hl Hf Hd Hw IH|f p ds w0 HX Hw IH|f e0 w0 He Hw IH];
    [done|destruct (IH El) as (f' & Hle & Hno & Hc); exists f'; split; [lia|]; split; [|exact Hc]| |  | ].
  - intros n s' len' Hn Hs' Hl'. destruct (decide (n = f)) as [->|]; [by simplify_eq|]. apply (Hno n s' len'); [lia|done..].
  - injection El as <- <-. exists f. split; [done|]. split; [intros ? ? ? ?; lia|]. left. by exists s, b, len, dst.
  - injection El as <- <-. exists f. split; [done|]. split; [intros ? ? ? ?; lia|]. right. left. by exists p, ds.
  - injection El as <- <-. exists f. split; [done|]. split; [intros ? ? ? ?; lia|]. right. by right.
Qed.

End Frames.

(** New buffers do not matter to the frames under way. *)
Lemma frames_more h bufs lens bs ls fs X f w :
  frames_ok h bufs lens fs X f w → frames_ok h (bufs ++ bs) (lens ++ ls) fs X f w.
Proof.
  assert (∀ A (l k : list A) n x, l !! n = Some x → (l ++ k) !! n = Some x) as Happ by (intros; by apply lookup_app_l_Some).
  induction 1; [constructor|eapply fo_skip|eapply fo_frame|eapply fo_cqes|eapply fo_other]; eauto.
Qed.

Lemma cqe_ops_app l l' : cqe_ops (l ++ l') = cqe_ops l ++ cqe_ops l'.
Proof. apply omap_app. Qed.
Lemma desc_ops_app l l' : desc_ops (l ++ l') = desc_ops l ++ desc_ops l'.
Proof. apply omap_app. Qed.

(** Descriptors that are visible have arrived. *)
Lemma wire_copied cap (l : list ntc_remote_buf_desc) c w :
  wire_ok cap l c (cqe_ops w) → (c + copied w)%nat = length l.
Proof.
  revert c. induction w as [|e w IH]; intros c Hw; cbn in *.
  - inversion Hw. lia.
  - fold (cqe_ops w) in Hw. fold (copied w). destruct e; cbn in *; fold (cqe_ops w) in Hw; try by apply IH.
    + inversion Hw as [|c0 k w0 Hk Hl Hw' E1 E2|]; subst. apply IH in Hw'. rewrite length_take, length_drop. unfold copied in *. lia.
    + inversion Hw as [| |c0 w0 Hw' E1 E2]; subst. by apply IH in Hw'.
Qed.

(** ** One direction *)

(** Frames that were there before the two were connected are not known. *)
Definition no_skb : sk_buff := mk_skb [] 0 0 0 false.

(** From host [A] to host [B]: the buffers given out since the ring was created,
    the frames sent; [C] frames have been handled, [X] descriptors sent and [VC]
    of them seen, [VD] buffers are known to [A], [f] frames have arrived. *)
Record dir (hb : host) (A B : side) (base : nat) (bufs : list ntc_export_buf) (lens : list Z) (fs : list sk_buff)
    (C X VD VC f : nat) : Prop := {
  d_slots : slots_ok (h_info hb) (h_memory hb) (h_region hb) (h_words hb) (h_cap hb) lmin (ring_bufs (sd_eth B))
              (eth_rxr (sd_eth B)) (ew_bw (sd_world B)) bufs lens C;
  d_prod : er_prod (eth_rxr (sd_eth B)) = nenc (h_cap hb) (length bufs);
  d_cmpl : er_cmpl (eth_rxr (sd_eth B)) = nenc (h_cap hb) C;
  d_rx : rx_valid (h_cap hb) (eth_rxr (sd_eth B));
  d_sender : sender (h_info hb) (h_cap hb) (eth_txr (sd_eth A)) fs bufs lens X;
  d_tx : tx_valid (h_cap hb) (eth_txr (sd_eth A));
  d_desc : chan_ok (h_cap hb) (descs (h_info hb) bufs lens) (length fs) VD (tx_mem (eth_txr (sd_eth A))) (desc_ops (sd_wire B));
  d_cqe : chan_ok (h_cap hb) (take X (useds (h_info hb) fs bufs lens)) C VC (rx_mem (eth_rxr (sd_eth B))) (cqe_ops (sd_wire A));
  d_frames : frames_ok hb bufs lens fs X f (sd_wire A);
  d_head : (X ≤ f + copied (sd_wire A))%nat;
  d_stored n s b len : (C ≤ n < f)%nat → fs !! n = Some s → bufs !! n = Some b → lens !! n = Some len →
    stored (ew_bytes (sd_world B)) s b len;
  d_skb : Forall skb_ok fs;
  d_sent : fs = replicate base no_skb ++ sd_sent A;
  d_base : (base ≤ C)%nat;
  d_got : Forall2 (arrives lmin short) (take (C - base) (sd_sent A)) (sd_got B) }.

Lemma dir_order hb A B base bufs lens fs C X VD VC f :
  dir hb A B base bufs lens fs C X VD VC f →
  (C ≤ VC ≤ X)%nat ∧ (VC ≤ f ≤ length fs)%nat ∧ (X ≤ length fs ≤ VD)%nat ∧ (VD ≤ length bufs)%nat
  ∧ Z.of_nat (length bufs) <= Z.of_nat C + h_cap hb ∧ length lens = length bufs.
Proof.
  intros [[Hc Hbl Hwl Hl Hwin Hb Hs Hm] _ _ _ [_ _ _ [Ho _] _ _ _] _ Hd Hq Hf Hh _ _ _ _ _].
  apply chan_bounds in Hd as [Hd _]. rewrite descs_length in Hd by done.
  pose proof Hq as (_ & _ & Hv & _ & c & Hc' & _ & Hw). apply wire_copied in Hw.
  rewrite length_take, useds_length in * by lia. apply frames_le in Hf. lia.
Qed.

Lemma nil_other (evs : list eth_event) : Forall other_event evs → copied evs = 0%nat.
Proof. induction 1 as [|[] l Hx Hl IH]; try done. Qed.

(** The sending half is left alone. *)
Lemma dir_tx_same hb A A' B base bufs lens fs C X VD VC f evs :
  dir hb A B base bufs lens fs C X VD VC f →
  eth_txr (sd_eth A') = eth_txr (sd_eth A) → sd_sent A' = sd_sent A → sd_wire A' = sd_wire A ++ evs →
  Forall other_event evs → cqe_ops evs = [] →
  dir hb A' B base bufs lens fs C X VD VC f.
Proof.
  intros [] Ht Hs Hw Ho Hq. constructor; rewrite ?Ht, ?Hs, ?Hw; try done.
  - by rewrite cqe_ops_app, Hq, app_nil_r.
  - by apply frames_other.
  - rewrite copied_app. lia.
Qed.

(** The receiving half is left alone. *)
Lemma dir_rx_same hb A B B' base bufs lens fs C X VD VC f evs :
  dir hb A B base bufs lens fs C X VD VC f →
  eth_rxr (sd_eth B') = eth_rxr (sd_eth B) → sd_got B' = sd_got B → sd_wire B' = sd_wire B ++ evs →
  desc_ops evs = [] → ring_bufs (sd_eth B') = ring_bufs (sd_eth B) →
  (mem_holds (h_info hb) (h_memory hb) (h_region hb) (h_words hb) (ew_bw (sd_world B)) (ring_bufs (sd_eth B) ++ drop C bufs) →
   mem_holds (h_info hb) (h_memory hb) (h_region hb) (h_words hb) (ew_bw (sd_world B')) (ring_bufs (sd_eth B) ++ drop C bufs)
   ∧ same_bytes (drop C bufs) (sd_world B) (sd_world B')) →
  dir hb A B' base bufs lens fs C X VD VC f.
Proof.
  intros H Hr Hg Hw Hq Hring Hmem. pose proof (dir_order _ _ _ _ _ _ _ _ _ _ _ _ H) as Ho. destruct H as [S].
  destruct (Hmem (so_mem _ _ _ _ _ _ _ _ _ _ _ _ S)) as [Hm Hby].
  constructor; rewrite ?Hr, ?Hg, ?Hw, ?Hring; try done.
  - by destruct S.
  - by rewrite desc_ops_app, Hq, app_nil_r.
  - intros n s b len Hn Hs Hb Hl. specialize (d_stored0 n s b len Hn Hs Hb Hl). intros Hf. rewrite <- (d_stored0 Hf).
    apply bytes_at_ext. intros i Hi. apply (Hby b).
    + apply (list_elem_of_lookup_2 _ (n - C)). rewrite lookup_drop. by replace (C + (n - C))%nat with n by lia.
    + destruct (so_sizes _ _ _ _ _ _ _ _ _ _ _ _ S n b len ltac:(lia) Hb Hl) as [_ Hsz]. pose proof skinfo_ok.
      unfold inside, fits in *. lia.
Qed.

(** ** Runs of the sending half *)

Lemma dir_offers hb A B base bufs lens fs C X VD VC f :
  dir hb A B base bufs lens fs C X VD VC f → offers (h_info hb) lmin bufs lens (length fs).
Proof.
  intros H n b l Hn Hb Hl. pose proof (dir_order _ _ _ _ _ _ _ _ _ _ _ _ H) as Ho. destruct H as [S].
  destruct (so_sizes _ _ _ _ _ _ _ _ _ _ _ _ S n b l ltac:(lia) Hb Hl) as [Hlen Hsz].
  destruct (holds_wf _ _ _ _ _ _ b (so_mem _ _ _ _ _ _ _ _ _ _ _ _ S)) as (Hwf & Hown & _); [|done].
  apply elem_of_app. right.
  apply (list_elem_of_lookup_2 _ (n - C)). rewrite lookup_drop. by replace (C + (n - C))%nat with n by lia.
Qed.

(** Was the frame given to a slot? *)
Definition accepted (e e' : ntrdma_eth) (s : sk_buff) : list sk_buff :=
  if et_cons (eth_txr e') =? et_cons (eth_txr e) then [] else [s].

Lemma dir_sent ha hb A B base bufs lens fs C X VD VC f e' w' s evs :
  host_ok hb ha → dir hb A B base bufs lens fs C X VD VC f → skb_ok s → (length fs < VD)%nat →
  sent_one (h_info hb) (h_pm hb) bus (h_cap hb) (eth_txr (sd_eth A)) (eth_txr e') s fs bufs lens X evs →
  accepted (sd_eth A) e' s = [s]
  ∧ ∃ X', dir hb (mk_side e' w' (sd_wire A ++ evs) (sd_sent A ++ [s]) (sd_got A)) B base bufs lens (fs ++ [s]) C X' VD VC f.
Proof.
  intros Hok H Hs HVD [(b & len & fe & cq & rest & X' & Hb & Hl & -> & Hfe & Hcq & Hrest & Hs' & -> & Hch) (x & y & z & Ht) Hde].
  pose proof (dir_order _ _ _ _ _ _ _ _ _ _ _ _ H) as Ho. pose proof (ho_cap _ _ Hok) as Hcap. pose proof (lookup_lt_Some _ _ _ Hb).
  assert (length (fs ++ [s]) = S (length fs)) as Hlen by (rewrite length_app; cbn; lia).
  destruct H as [Sl Pr Cm Rx Se Tx De Cq Fr Hd St Sk Sn Ba Go]. pose proof (sn_cons _ _ _ _ _ _ _ Se) as Hc1.
  pose proof (sn_cons _ _ _ _ _ _ _ Hs') as Hc2. pose proof (sn_order _ _ _ _ _ _ _ Hs') as [Hxo _].
  split.
  { unfold accepted. rewrite Hc1, Hc2. destruct (Z.eqb_spec (nenc (h_cap hb) (length (fs ++ [s]))) (nenc (h_cap hb) (length fs))) as [He|]; [|done].
    symmetry in He. apply (nenc_inj _ Hcap) in He; lia. }
  assert (copied fe = 0%nat) as Hfe0 by (destruct Hfe as [[_ ->]|(_ & d & -> & _)]; done).
  exists (X + copied cq)%nat. constructor; cbn [sd_eth sd_world sd_wire sd_sent sd_got]; try done.
  - rewrite Ht. exact Tx.
  - rewrite Ht. cbn [tx_mem et_wqes et_prod tx_set_ring tx_set_cqes]. eapply (chan_consume _ _ (length fs)); [exact De|].
    apply chan_bounds in De as [De _]. rewrite descs_length in De by lia.
    lia.
  - rewrite cqe_ops_app. apply Hch; [rewrite Hlen; lia|done].
  - rewrite !(assoc_L (++)). apply frames_other; [|done]. apply frames_cqes; [|done|].
    + by eapply frames_frame.
    + lia.
  - rewrite !copied_app, Hfe0, (nil_other rest Hrest). lia.
  - intros n s0 b0 l0 Hn Hs0 Hb0 Hl0. rewrite lookup_app_l in Hs0 by lia. by apply (St n).
  - apply Forall_app. split; [done|]. by constructor.
  - rewrite Sn. by rewrite (assoc_L (++)).
  - rewrite take_app_le; [done|]. rewrite Sn, length_app, length_replicate in Ho. lia.
Qed.

(** ** Runs of the receiving half *)

Lemma dir_filled hb A B base bufs lens fs C X VD VC f e' w' bs ls wq :
  dir hb A B base bufs lens fs C X VD VC f →
  filled (h_info hb) (h_memory hb) (h_region hb) (h_words hb) (h_cap hb) lmin (ring_bufs (sd_eth B))
    (eth_rxr (sd_eth B)) (eth_rxr e') (sd_world B) w' bufs lens C bs ls wq →
  fill_frame (eth_rxr (sd_eth B)) (eth_rxr e') (sd_world B) w' bufs C → eth_txr e' = eth_txr (sd_eth B) →
  dir hb A (mk_side e' w' (sd_wire B ++ wq) (sd_sent B) (sd_got B)) base (bufs ++ bs) (lens ++ ls) fs C X VD VC f.
Proof.
  intros H [F1 F2 F3 F4 F5] [(x & y & p & Hr) _ Hby] Ht.
  assert (ring_bufs e' = ring_bufs (sd_eth B)) as Hring by (unfold ring_bufs; by rewrite Hr, Ht).
  pose proof (dir_order _ _ _ _ _ _ _ _ _ _ _ _ H) as Ho. destruct H as [Sl Pr Cm Rx Se Tx De Cq Fr Hd St Sk Sn Ba Go].
  constructor; cbn [sd_eth sd_world sd_wire sd_sent sd_got]; rewrite ?Hring; try done.
  - by rewrite Hr.
  - pose proof (so_window _ _ _ _ _ _ _ _ _ _ _ _ F1) as [_ Hw]. pose proof (so_lens _ _ _ _ _ _ _ _ _ _ _ _ F1).
    destruct Se as [S1 S2 S3 [S4 S4'] S5 S6 S7]. constructor; try done; [rewrite length_app in *; lia|].
    by rewrite useds_more by lia.
  - rewrite desc_ops_app. apply F4; [lia|done].
  - rewrite useds_more by lia. unfold rx_mem in *. by rewrite Hr.
  - by apply frames_more.
  - intros n s b len Hn Hs Hb Hl. rewrite lookup_app_l in Hb by lia. rewrite lookup_app_l in Hl by lia. intros Hf.
    rewrite <- (St n s b len Hn Hs Hb Hl Hf). apply bytes_at_ext. intros i Hi. apply (Hby b).
    + apply (list_elem_of_lookup_2 _ (n - C)). rewrite lookup_drop. by replace (C + (n - C))%nat with n by lia.
    + destruct (so_sizes _ _ _ _ _ _ _ _ _ _ _ _ Sl n b len ltac:(lia) Hb Hl) as [_ Hsz]. pose proof skinfo_ok.
      unfold inside, fits in *. lia.
Qed.

(** The part of a side that both halves share. *)
(** A local buffer with memory and a mapping of its own. *)
Definition local_held (b : ntc_local_buf) : Prop := lb_owned b = true ∧ lb_mapped b = true ∧ lb_ptr b ≠ 0.

Definition settled (e : ntrdma_eth) (w : eth_world) : Prop :=
  length (Vbell.dv_peer (ew_vb w)) = Z.to_nat Vbell.NTRDMA_DEV_VBELL_COUNT
  ∧ eth_hello_done e = true ∧ eth_hello_prep e = true ∧ 0 <= eth_vbell_idx e < Vbell.NTRDMA_DEV_VBELL_COUNT
  ∧ local_held (et_cqe_buf (eth_txr e)).
Definition side_ok (s : side) : Prop :=
  bell_ok (eth_peer_vbell_idx (sd_eth s)) (sd_world s) ∧ mtu_ok lmin (en_mtu (eth_netdev (sd_eth s)))
  ∧ settled (sd_eth s) (sd_world s).

Lemma rx_events_other evs : Forall rx_event evs → Forall other_event evs ∧ cqe_ops evs = [] ∧ wired evs = evs ∧ outcomes evs = [].
Proof.
  induction 1 as [|[] l Hx Hl (IH1 & IH2 & IH3 & IH4)]; try done;
    repeat split; try (by constructor); try exact IH2; try exact IH4; cbn; f_equal; exact IH3.
Qed.

(** A fill of the receive ring. *)
Lemma fill_ok ha hb A B base bufs lens fs C X VD VC f :
  host_ok hb ha → dir hb A B base bufs lens fs C X VD VC f → side_ok B →
  ∃ e' w' wq, ntrdma_eth_rx_fill (h_ntc hb) (h_irq hb) (h_vec hb) (sd_eth B) (sd_world B) = Some (e', w', wq)
    ∧ e' = eth_set_rx (eth_rxr e') (sd_eth B)
    ∧ side_ok (mk_side e' w' (sd_wire B ++ wq) (sd_sent B) (sd_got B))
    ∧ (ew_unrecoverable w' = false → Forall rx_event wq
       ∧ ∃ bs ls, dir hb A (mk_side e' w' (sd_wire B ++ wq) (sd_sent B) (sd_got B)) base (bufs ++ bs) (lens ++ ls) fs C X VD VC f).
Proof.
  intros Hok H (Hb & Hm & Hse). pose proof H as [Sl Pr Cm Rx Se Tx De Cq Fr Hd St Sk Sn Ba Go].
  destruct (fill_spec _ (h_irq hb) (h_vec hb) _ _ _ _ (ho_window _ _ Hok) _ (ho_pair _ _ Hok) _ (ho_cap _ _ Hok) lmin (ring_bufs (sd_eth B))
    (ho_sig _ _ Hok) (sd_eth B) (sd_world B) bufs lens C Sl Pr Cm Hm Hb) as (e' & w' & wq & E & Hf & Hff & He).
  exists e', w', wq. split; [done|]. split; [done|]. split.
  - pose proof (ff_vb _ _ _ _ _ _ Hff) as Hv. unfold side_ok, bell_ok, settled in *. cbn. rewrite He. cbn. by rewrite Hv.
  - intros Hu. destruct (Hf Hu) as [_ (bs & ls & Hfill)]. split; [by destruct Hfill|].
    exists bs, ls. apply dir_filled; try done. by rewrite He.
Qed.

(** Slots that have been handled. *)
Lemma dir_polled ha hb A B base bufs lens fs C X VD VC f k x e1 w1 got wq :
  host_ok hb ha → dir hb A B base bufs lens fs C X VD VC f → (C + k ≤ VC)%nat →
  eth_rxr e1 = rx_set_ring (er_prod (eth_rxr (sd_eth B))) (nenc (h_cap hb) (C + k))
                 (rx_set_slots x (er_wqes (eth_rxr (sd_eth B))) (eth_rxr (sd_eth B))) →
  eth_txr e1 = eth_txr (sd_eth B) →
  slots_ok (h_info hb) (h_memory hb) (h_region hb) (h_words hb) (h_cap hb) lmin (ring_bufs (sd_eth B)) (eth_rxr e1) (ew_bw w1) bufs lens (C + k) →
  ew_bytes w1 = ew_bytes (sd_world B) → Forall2 (arrives lmin short) (take k (drop C fs)) got → desc_ops wq = [] →
  dir hb A (mk_side e1 w1 (sd_wire B ++ wq) (sd_sent B) (sd_got B ++ got)) base bufs lens fs (C + k) X VD VC f.
Proof.
  intros Hok H Hk Hr Ht Sl' Hby Hgot Hq.
  assert (ring_bufs e1 = ring_bufs (sd_eth B)) as Hring by (unfold ring_bufs; by rewrite Hr, Ht).
  pose proof (dir_order _ _ _ _ _ _ _ _ _ _ _ _ H) as Ho. destruct H as [Sl Pr Cm Rx Se Tx De Cq Fr Hd St Sk Sn Ba Go].
  constructor; cbn [sd_eth sd_world sd_wire sd_sent sd_got]; rewrite ?Hring; try done.
  - by rewrite Hr.
  - by rewrite Hr.
  - by rewrite Hr.
  - by rewrite desc_ops_app, Hq, app_nil_r.
  - unfold rx_mem in *. rewrite Hr. eapply chan_consume; [exact Cq|lia].
  - intros n s b len Hn. rewrite Hby. apply St. lia.
  - lia.
  - replace (C + k - base)%nat with ((C - base) + k)%nat by lia. rewrite <- take_take_drop.
    apply Forall2_app; [done|]. rewrite Sn in Hgot.
    rewrite drop_app_ge in Hgot by (rewrite length_replicate; lia). by rewrite length_replicate in Hgot.
Qed.

Lemma dir_frames hb A B base bufs lens fs C X VD VC f i :
  dir hb A B base bufs lens fs C X VD VC f → (C ≤ i < VC)%nat →
  slot_frame (h_info hb) (h_cap hb) (ew_bytes (sd_world B)) (er_cqes (eth_rxr (sd_eth B))) bufs lens fs i.
Proof.
  intros H Hi. pose proof (dir_order _ _ _ _ _ _ _ _ _ _ _ _ H) as Ho.
  destruct H as [Sl Pr Cm Rx Se Tx De Cq Fr Hd St Sk Sn Ba Go].
  destruct (lookup_lt_is_Some_2 fs i) as [s Hs]; [lia|]. destruct (lookup_lt_is_Some_2 bufs i) as [b Hb]; [lia|].
  destruct (lookup_lt_is_Some_2 lens i) as [l Hl]; [lia|]. exists b, l, s. split; [done|]. split; [done|]. split; [done|].
  split; [by eapply Forall_lookup_1|]. split; [|apply (St i); [lia|done..]].
  pose proof (chan_lookup _ _ _ _ _ _ i Cq Hi) as Hlk. unfold rx_mem in Hlk. cbn [fst] in Hlk. rewrite Hlk, lookup_take_lt by lia.
  by apply useds_lookup.
Qed.

(** ** Deliveries *)

Definition pop (s : side) (rest : list eth_event) : side :=
  mk_side (sd_eth s) (sd_world s) rest (sd_sent s) (sd_got s).

Lemma chan_event cap l lo v r e rest :
  cap_ok cap → chan_ok cap l lo v (rx_mem r) (cqe_ops (e :: rest)) →
  ∃ v', chan_ok cap l lo v' (rx_mem (match cqe_op e with Some o => rx_set_mem (deliver o (rx_mem r)) r | None => r end)) (cqe_ops rest).
Proof.
  intros Hcap H. cbn in H. fold (cqe_ops rest) in H. destruct (cqe_op e) as [o|]; [|by exists v].
  apply chan_deliver in H as (v' & _ & H); [|done]. exists v'. cbn. by destruct (deliver o _).
Qed.

Lemma chan_event_tx cap l lo v t e rest :
  cap_ok cap → chan_ok cap l lo v (tx_mem t) (desc_ops (e :: rest)) →
  ∃ v', chan_ok cap l lo v' (tx_mem (match desc_op e with Some o => tx_set_mem (deliver o (tx_mem t)) t | None => t end)) (desc_ops rest).
Proof.
  intros Hcap H. cbn in H. fold (desc_ops rest) in H. destruct (desc_op e) as [o|]; [|by exists v].
  apply chan_deliver in H as (v' & _ & H); [|done]. exists v'. cbn. by destruct (deliver o _).
Qed.

(** A frame is in its buffer, and the frames in the other buffers stay. *)
Lemma store_frame hb A B base bufs lens fs C X VD VC f f' s b len dst :
  dir hb A B base bufs lens fs C X VD VC f → (f ≤ f')%nat → no_room lens fs f f' →
  fs !! f' = Some s → bufs !! f' = Some b → lens !! f' = Some len → fits s len → lands hb dst = eb_dma_addr b →
  ∀ n s' b' len', (C ≤ n < S f')%nat → fs !! n = Some s' → bufs !! n = Some b' → lens !! n = Some len' →
    stored (store (lands hb dst) (frame_bytes s) (ew_bytes (sd_world B))) s' b' len'.
Proof.
  intros H Hle Hno Hs Hb Hl Hf Hd n s' b' len' Hn Hs' Hb' Hl' Hf'. rewrite Hd.
  pose proof (dir_order _ _ _ _ _ _ _ _ _ _ _ _ H) as Ho. destruct H as [Sl Pr Cm Rx Se Tx De Cq Fr Hd' St Sk Sn Ba Go].
  assert (skb_ok s) as Hsk by (by eapply Forall_lookup_1). pose proof (frame_length s Hsk) as Hfl.
  destruct (so_sizes _ _ _ _ _ _ _ _ _ _ _ _ Sl f' b len ltac:(lia) Hb Hl) as [_ Hsz]. pose proof skinfo_ok as Hk.
  unfold fits in Hf, Hf'. destruct (decide (n = f')) as [->|Hne].
  - rewrite Hs in Hs'. rewrite Hb in Hb'. injection Hs' as <-. injection Hb' as <-.
    apply list_eq. intros i. destruct (decide (i < Z.to_nat (sk_headlen s + tx_off s))%nat) as [Hi|Hi].
    + rewrite bytes_at_lookup by done. apply store_in. lia.
    + rewrite !lookup_ge_None_2; [done|lia|rewrite length_bytes_at; lia].
  - assert (n < f)%nat as Hnf.
    { destruct (decide (n < f)%nat); [done|]. exfalso. apply (Hno n s' len'); [lia|done|done|]. exact Hf'. }
    rewrite <- (St n s' b' len') by (try done; lia). apply bytes_at_ext. intros i Hi. apply store_out.
    destruct (so_sizes _ _ _ _ _ _ _ _ _ _ _ _ Sl n b' len' ltac:(lia) Hb' Hl') as [_ Hsz'].
    pose proof (holds_pairwise _ _ _ _ _ _ (n - C) (f' - C) b' b (holds_sub _ _ _ _ _ _ _ (so_mem _ _ _ _ _ _ _ _ _ _ _ _ Sl))) as Hap.
    rewrite !lookup_drop in Hap. replace (C + (n - C))%nat with n in Hap by lia.
    replace (C + (f' - C))%nat with f' in Hap by lia.
    specialize (Hap Hb' Hb ltac:(lia)). unfold apart in Hap. lia.
Qed.

Lemma receive_dir ha hb A B base bufs lens fs C X VD VC f ev rest :
  host_ok hb ha → dir hb A B base bufs lens fs C X VD VC f → sd_wire A = ev :: rest →
  ∃ VC' f', dir hb (pop A rest) (receive hb ev B) base bufs lens fs C X VD VC' f'.
Proof.
  intros Hok H Hw. pose proof H as [Sl Pr Cm Rx Se Tx De Cq Fr Hd St Sk Sn Ba Go].
  rewrite Hw in Fr, Cq, Hd. apply frames_head in Fr as (f' & Hle & Hno & Hcase).
  destruct (chan_event _ _ _ _ _ _ _ (ho_cap _ _ Hok) Cq) as (VC' & Cq').
  set (B' := receive hb ev B). set (r' := match cqe_op ev with Some _ => _ | None => _ end) in Cq'.
  assert (eth_rxr (sd_eth B') = r') as Hr' by (unfold B', receive; destruct (desc_op ev); done).
  assert (ring_bufs (sd_eth B') = ring_bufs (sd_eth B)) as Hring by (unfold B', receive; by destruct (desc_op ev), (cqe_op ev)).
  assert (∀ f2, (f' ≤ f2)%nat → (X ≤ f2 + copied rest)%nat → frames_ok hb bufs lens fs X f2 rest →
    (∀ n s b len, (C ≤ n < f2)%nat → fs !! n = Some s → bufs !! n = Some b → lens !! n = Some len →
       stored (ew_bytes (sd_world B')) s b len) → ew_bw (sd_world B') = ew_bw (sd_world B) →
    ∃ VC' f', dir hb (pop A rest) B' base bufs lens fs C X VD VC' f') as Hmk.
  { intros f2 Hf2 HX Hfr Hst Hbw. exists VC', f2.
    constructor; cbn [sd_eth sd_world sd_wire sd_sent sd_got pop]; rewrite ?Hring, ?Hr', ?Hbw; unfold r';
      try (by destruct (cqe_op ev)); try done.
    destruct Sl. by destruct (cqe_op ev). }
  assert (∀ n s b len, (C ≤ n < f')%nat → fs !! n = Some s → bufs !! n = Some b → lens !! n = Some len →
    stored (ew_bytes (sd_world B)) s b len) as Hst.
  { intros n s b len Hn Hs Hb Hl. destruct (decide (n < f)%nat); [apply (St n s b len); try done; lia|].
    intros Hf. exfalso. apply (Hno n s len); [lia|done..]. }
  destruct Hcase as [(s & b & len & dst & -> & Hs & Hb & Hl & Hf & Hla & Hfr)|[(p & ds & -> & HX & Hfr)|[Hoe Hfr]]].
  - apply (Hmk (S f')); [lia|cbn in Hd; unfold copied in *; lia|done| |done]. by eapply store_frame.
  - by apply (Hmk f').
  - apply (Hmk f'); try done; [|by destruct ev..]. destruct ev; try done; cbn in Hd; unfold copied in *; lia.
Qed.

Lemma receive_dir_tx ha hb A B base bufs lens fs C X VD VC f ev rest :
  host_ok hb ha → dir hb A B base bufs lens fs C X VD VC f → sd_wire B = ev :: rest →
  ∃ VD', dir hb (receive ha ev A) (pop B rest) base bufs lens fs C X VD' VC f.
Proof.
  intros Hok [Sl Pr Cm Rx Se Tx De Cq Fr Hd St Sk Sn Ba Go] Hw. rewrite Hw in De.
  destruct (chan_event_tx _ _ _ _ _ _ _ (ho_cap _ _ Hok) De) as (VD' & De'). exists VD'.
  set (t' := match desc_op ev with Some _ => _ | None => _ end) in De'.
  assert (eth_txr (sd_eth (receive ha ev A)) = t') as Ht by (unfold receive; destruct (cqe_op ev); done).
  constructor; cbn [sd_eth sd_world sd_wire sd_sent sd_got pop]; rewrite ?Ht; try done;
    unfold t'; by destruct (desc_op ev), Se.
Qed.

(** ** The steps of a host *)

(** The calls of the network stack and of the device that change the link. *)
Inductive eth_ctl := CtlOpen | CtlStop | CtlEnable | CtlDisable | CtlQuiesce.

Definition run_ctl (h : host) (c : eth_ctl) (e : ntrdma_eth) (w : eth_world) : option (ntrdma_eth * eth_world * list eth_event) :=
  match c with
  | CtlOpen => ntrdma_eth_open (h_ntc h) (h_irq h) (h_vec h) e w
  | CtlStop => ntrdma_eth_stop (h_ntc h) (h_irq h) (h_vec h) e w
  | CtlEnable => ntrdma_dev_eth_enable (h_ntc h) (h_irq h) (h_vec h) e w
  | CtlDisable => ntrdma_dev_eth_disable (h_ntc h) (h_irq h) (h_vec h) e w
  | CtlQuiesce => ntrdma_dev_eth_quiesce (h_ntc h) (h_irq h) (h_vec h) e w
  end.

(** What the rest of the kernel does between the runs: it leaves alone the
    buffers of the rings and those that the slots hold. *)
Definition env_world (h : host) (e : ntrdma_eth) (w w' : eth_world) : Prop :=
  length (Vbell.dv_peer (ew_vb w')) = length (Vbell.dv_peer (ew_vb w))
  ∧ ∀ bufs, (∀ b, b ∈ bufs → b ∈ ring_bufs e ++ er_buf (eth_rxr e)) →
      mem_holds (h_info h) (h_memory h) (h_region h) (h_words h) (ew_bw w) bufs →
      mem_holds (h_info h) (h_memory h) (h_region h) (h_words h) (ew_bw w') bufs ∧ same_bytes bufs w w'.

(** A run that ends in an unrecoverable error is the end of the link. *)
Inductive side_step (h : host) : side → side → Prop :=
  | ss_xmit e w wire sent got s e' w' evs :
      skb_ok s → ntrdma_eth_start_xmit (h_ntc h) (h_irq h) (h_vec h) s e w = Some (e', w', evs) →
      ew_unrecoverable w' = false →
      side_step h (mk_side e w wire sent got) (mk_side e' w' (wire ++ evs) (sent ++ accepted e e' s) got)
  | ss_poll e w wire sent got build budget n e' w' evs :
      (∀ i, build i = false → short) → 0 < budget < 2 ^ 31 →
      ntrdma_eth_napi_poll (h_ntc h) (h_irq h) (h_vec h) build budget e w = Some (n, e', w', evs) →
      ew_unrecoverable w' = false →
      side_step h (mk_side e w wire sent got) (mk_side e' w' (wire ++ wired evs) sent (got ++ outcomes evs))
  | ss_ctl e w wire sent got c e' w' evs :
      run_ctl h c e w = Some (e', w', evs) → ew_unrecoverable w' = false →
      side_step h (mk_side e w wire sent got) (mk_side e' w' (wire ++ evs) sent got)
  | ss_mtu e w wire sent got mtu rc e' :
      ntrdma_eth_change_mtu mtu e = (rc, e') → mtu_ok lmin mtu →
      side_step h (mk_side e w wire sent got) (mk_side e' w wire sent got)
  | ss_dma_cb e w wire sent got dst src :
      side_step h (mk_side e w wire sent got) (mk_side e (ntrdma_eth_dma_cb dst src w) wire sent got)
  | ss_env e w wire sent got w' :
      env_world h e w w' → side_step h (mk_side e w wire sent got) (mk_side e w' wire sent got).

Definition good (hb : host) (A B : side) (base : nat) : Prop :=
  ∃ bufs lens fs C X VD VC f, dir hb A B base bufs lens fs C X VD VC f.

(** What both directions need of host [ha] after a step, the other host being [hb]. *)
Definition both (ha hb : host) (A B : side) (base base' : nat) : Prop :=
  good hb A B base ∧ good ha B A base' ∧ side_ok A.

(** Only a part of the device matters. *)
Definition same_core (e e' : ntrdma_eth) : Prop :=
  eth_rxr e' = eth_rxr e ∧ eth_txr e' = eth_txr e ∧ eth_peer_vbell_idx e' = eth_peer_vbell_idx e
  ∧ en_mtu (eth_netdev e') = en_mtu (eth_netdev e)
  ∧ eth_hello_done e' = eth_hello_done e ∧ eth_hello_prep e' = eth_hello_prep e ∧ eth_vbell_idx e' = eth_vbell_idx e.

Lemma both_core ha hb e e' w wire sent got B base base' :
  same_core e e' → both ha hb (mk_side e w wire sent got) B base base' → both ha hb (mk_side e' w wire sent got) B base base'.
Proof.
  intros (Hr & Ht & Hv & Hm & Hd & Hp & Hi) ((bufs & lens & fs & C & X & VD & VC & f & H) & (bufs' & lens' & fs' & C' & X' & VD' & VC' & f' & H') & (Hb & Hmt & Hse)).
  split; [|split].
  - exists bufs, lens, fs, C, X, VD, VC, f. apply (dir_tx_same _ _ _ _ _ _ _ _ _ _ _ _ _ [] H); cbn; try done. by rewrite app_nil_r.
  - exists bufs', lens', fs', C', X', VD', VC', f'.
    apply (dir_rx_same _ _ _ _ _ _ _ _ _ _ _ _ _ [] H'); cbn; try done; [by rewrite app_nil_r|]. unfold ring_bufs. by rewrite Hr, Ht.
  - unfold side_ok, settled in *. cbn in *. by rewrite Hv, Hm, Hd, Hp, Hi, Ht.
Qed.

Lemma none_desc evs : Forall (λ e, desc_op e = None) evs → desc_ops evs = [].
Proof. induction 1 as [|e l He Hl IH]; [done|]. cbn. by rewrite He. Qed.

Lemma xmit_ok ha hb A B base base' s :
  host_ok ha hb → host_ok hb ha → both ha hb A B base base' → skb_ok s →
  ∃ e' w' evs, ntrdma_eth_start_xmit (h_ntc ha) (h_irq ha) (h_vec ha) s (sd_eth A) (sd_world A) = Some (e', w', evs)
    ∧ (ew_unrecoverable w' = false →
       both ha hb (mk_side e' w' (sd_wire A ++ evs) (sd_sent A ++ accepted (sd_eth A) e' s) (sd_got A)) B base base').
Proof.
  intros Hoa Hob ((bufs & lens & fs & C & X & VD & VC & f & H) & (bufs' & lens' & fs' & C' & X' & VD' & VC' & f' & H') & (Hb & Hmt & Hse)) Hs.
  pose proof (dir_order _ _ _ _ _ _ _ _ _ _ _ _ H) as Ho. pose proof H as [Sl Pr Cm Rx Se Tx De Cq Fr Hd St Sk Sn Ba Go].
  pose proof (chan_bounds _ _ _ _ _ _ De) as [_ Hprod].
  destruct (start_xmit_spec (h_ntc ha) (h_irq ha) (h_vec ha) (ho_sig _ _ Hoa) (h_info hb) (h_pm hb) (ho_pair _ _ Hob)
    (ho_peer _ _ Hob) bus Hbus (h_cap hb) (ho_cap _ _ Hob) lmin s (sd_eth A) (sd_world A) fs bufs lens X VD Hs Se Tx Hb Hprod)
    as (e' & w' & evs & E & (n & He & Hm) & (Hmm & Hby & Hvb) & Hres); [lia| |by eapply dir_offers|].
  { intros i Hi. apply (chan_lookup _ _ _ _ _ _ i De Hi). }
  exists e', w', evs. split; [done|]. intros Hu. destruct (Hres Hu) as [_ Hcase].
  assert (desc_ops evs = []) as Hdesc by (destruct Hcase as [[_ ->]|[_ [_ _ Hde]]]; [done|by apply none_desc]).
  split; [|split].
  - destruct Hcase as [[Ht ->]|[HV Hone]].
    + exists bufs, lens, fs, C, X, VD, VC, f.
      apply (dir_tx_same _ _ _ _ _ _ _ _ _ _ _ _ _ [] H); cbn; try done. unfold accepted. by rewrite Ht, Z.eqb_refl, app_nil_r.
    + destruct (dir_sent _ _ _ _ _ _ _ _ _ _ _ _ _ e' w' s evs Hob H Hs HV Hone) as [-> (Y & HY)].
      by exists bufs, lens, (fs ++ [s]), C, Y, VD, VC, f.
  - exists bufs', lens', fs', C', X', VD', VC', f'. apply (dir_rx_same _ _ _ _ _ _ _ _ _ _ _ _ _ evs H'); cbn; try done.
    + by rewrite He.
    + rewrite He. destruct Hcase as [[Ht _]|[_ [_ (x & y & z & Ht) _]]]; unfold ring_bufs; by rewrite Ht.
    + intros Hh. split; [by eapply holds_same|]. intros b a _ _. by rewrite Hby.
  - assert (et_cqe_buf (eth_txr e') = et_cqe_buf (eth_txr (sd_eth A))) as Hcb
      by (destruct Hcase as [[-> _]|[_ [_ (x & y & z & ->) _]]]; done).
    unfold side_ok, bell_ok, settled in *. cbn. rewrite He. cbn. by rewrite Hm, Hvb, Hcb.
Qed.

(** A fill keeps both directions. *)
Lemma fill_both ha hb A B base base' :
  host_ok ha hb → host_ok hb ha → both ha hb A B base base' →
  ∃ e' w' evs, ntrdma_eth_rx_fill (h_ntc ha) (h_irq ha) (h_vec ha) (sd_eth A) (sd_world A) = Some (e', w', evs)
    ∧ (ew_unrecoverable w' = false → Forall rx_event evs
       ∧ both ha hb (mk_side e' w' (sd_wire A ++ evs) (sd_sent A) (sd_got A)) B base base').
Proof.
  intros Hoa Hob ((bufs & lens & fs & C & X & VD & VC & f & H) & (bufs' & lens' & fs' & C' & X' & VD' & VC' & f' & H') & Hok).
  destruct (fill_ok _ _ _ _ _ _ _ _ _ _ _ _ _ Hoa H' Hok) as (e' & w' & wq & E & He & Hok' & Hres).
  exists e', w', wq. split; [done|]. intros Hu. destruct (Hres Hu) as (Hev & bs & ls & Hd). split; [done|].
  destruct (rx_events_other _ Hev) as (Hother & Hcq & _ & _). split; [|split; [|done]].
  - exists bufs, lens, fs, C, X, VD, VC, f.
    apply (dir_tx_same _ _ _ _ _ _ _ _ _ _ _ _ _ wq H); cbn; try done. by rewrite He.
  - by exists (bufs' ++ bs), (lens' ++ ls), fs', C', X', VD', VC', f'.
Qed.

Lemma wired_app l l' : wired (l ++ l') = wired l ++ wired l'.
Proof. apply List.filter_app. Qed.
Lemma outcomes_app l l' : outcomes (l ++ l') = outcomes l ++ outcomes l'.
Proof. apply List.filter_app. Qed.

Lemma got_outcomes ss got : Forall2 (arrives lmin short) ss got → wired got = [] ∧ outcomes got = got.
Proof.
  induction 1 as [|s e ss got He Hl [IH1 IH2]]; [done|].
  destruct He as [->|[-> _]]; split; cbn; try exact IH1; f_equal; exact IH2.
Qed.

Lemma poll_ok ha hb A B base base' build budget :
  host_ok ha hb → host_ok hb ha → both ha hb A B base base' → (∀ i, build i = false → short) → 0 < budget < 2 ^ 31 →
  ∃ n e' w' evs, ntrdma_eth_napi_poll (h_ntc ha) (h_irq ha) (h_vec ha) build budget (sd_eth A) (sd_world A) = Some (n, e', w', evs)
    ∧ (ew_unrecoverable w' = false →
       both ha hb (mk_side e' w' (sd_wire A ++ wired evs) (sd_sent A) (sd_got A ++ outcomes evs)) B base base').
Proof.
  intros Hoa Hob Hboth Hbuild Hbud. destruct (eth_link (sd_eth A)) eqn:Hlink.
  2:{ unfold ntrdma_eth_napi_poll. rewrite Hlink. cbn [negb]. eexists _, _, _, _. split; [reflexivity|]. intros _. cbn.
      rewrite !app_nil_r. destruct A as [e w wire sent got]. by apply (both_core ha hb e). }
  destruct Hboth as ((bufs & lens & fs & C & X & VD & VC & f & H) & (bufs' & lens' & fs' & C' & X' & VD' & VC' & f' & H') & (Hb & Hm & Hse)).
  pose proof (dir_order _ _ _ _ _ _ _ _ _ _ _ _ H') as Ho. pose proof H' as [Sl Pr Cm Rx Se Tx De Cq Fr Hd St Sk Sn Ba Go].
  pose proof (chan_bounds _ _ _ _ _ _ Cq) as [_ Hcons].
  destruct (napi_poll_spec (h_ntc ha) (h_irq ha) (h_vec ha) (h_info ha) (h_memory ha) (h_region ha) (h_words ha)
    (ho_window _ _ Hoa) (h_pm ha) (ho_pair _ _ Hoa) (h_cap ha) (ho_cap _ _ Hoa) lmin (ring_bufs (sd_eth A)) short KO Hshort build budget
    (sd_eth A) (sd_world A) bufs' lens' fs' C' VC' Hbuild Hlink Hbud Rx Sl Cm Hcons) as
    (k & got & x & nt & w1 & evs & E & Hk & _ & Hgot & Sl1 & (Hio & Hvb & Hby & Hun) & Hmt & Hre);
    [lia|intros i Hi; by eapply dir_frames|]. cbv zeta in E.
  set (e1 := eth_set_net nt _) in *.
  pose proof (dir_polled _ _ _ _ _ _ _ _ _ _ _ _ _ k x e1 w1 got [] Hoa H' Hk eq_refl eq_refl Sl1 Hby Hgot eq_refl) as H1.
  set (A1 := mk_side _ _ _ _ _) in H1.
  assert (both ha hb A1 B base base') as Hboth1.
  { split; [|split].
    - exists bufs, lens, fs, C, X, VD, VC, f. by apply (dir_tx_same _ _ _ _ _ _ _ _ _ _ _ _ _ [] H).
    - by exists bufs', lens', fs', (C' + k)%nat, X', VD', VC', f'.
    - unfold side_ok, bell_ok, settled in *. cbn. by rewrite Hvb, Hmt. }
  destruct (fill_both ha hb A1 B base base' Hoa Hob Hboth1) as (e' & w' & wq & E2 & Hres).
  cbn [A1 sd_eth sd_world sd_wire sd_sent sd_got] in E2, Hres. rewrite E2 in E.
  exists (Z.of_nat k), e', w', ((EvClear :: got ++ evs) ++ wq). split; [exact E|]. intros Hu. destruct (Hres Hu) as [Hev Hboth2].
  destruct (rx_events_other _ Hev) as (_ & _ & Hw & Hout). destruct (got_outcomes _ _ Hgot) as [Hgw Hgo].
  assert (wired ((EvClear :: got ++ evs) ++ wq) = wq ∧ outcomes ((EvClear :: got ++ evs) ++ wq) = got) as [-> ->].
  { rewrite wired_app, outcomes_app, Hw, Hout. cbn. fold (wired (got ++ evs)) (outcomes (got ++ evs)).
    rewrite wired_app, outcomes_app, Hgw, Hgo. by destruct Hre as [-> | ->]; cbn; rewrite !app_nil_r. }
  by rewrite app_nil_r in Hboth2.
Qed.

Lemma ctl_ok ha hb A B base base' c :
  host_ok ha hb → host_ok hb ha → both ha hb A B base base' →
  ∃ e' w' evs, run_ctl ha c (sd_eth A) (sd_world A) = Some (e', w', evs)
    ∧ (ew_unrecoverable w' = false → both ha hb (mk_side e' w' (sd_wire A ++ evs) (sd_sent A) (sd_got A)) B base base').
Proof.
  intros Hoa Hob Hboth. destruct A as [e w wire sent got]. cbn [sd_eth sd_world sd_wire sd_sent sd_got].
  assert (∀ e0, same_core e e0 → ∃ e' w' evs, ntrdma_eth_link_event (h_ntc ha) (h_irq ha) (h_vec ha) e0 w = Some (e', w', evs)
    ∧ (ew_unrecoverable w' = false → both ha hb (mk_side e' w' (wire ++ evs) sent got) B base base')) as Hlink.
  { intros e0 Hc. pose proof (both_core ha hb e e0 w wire sent got B base base' Hc Hboth) as H0. unfold ntrdma_eth_link_event.
    destruct (Bool.eqb _ _).
    { eexists _, _, _. split; [reflexivity|]. intros _. by rewrite app_nil_r. }
    destruct (_ && _).
    - set (e1 := eth_set_net _ e0).
      destruct (fill_both ha hb (mk_side e1 w wire sent got) B base base' Hoa Hob) as (e2 & w2 & evs & E & Hres).
      { apply (both_core ha hb e0); [by repeat split|done]. }
      cbn [sd_eth sd_world sd_wire sd_sent sd_got] in *. rewrite E. eexists _, _, _. split; [reflexivity|].
      intros Hu. destruct (Hres Hu) as [_ Hb2]. apply (both_core ha hb e2); [by repeat split|done].
    - eexists _, _, _. split; [reflexivity|]. intros _. rewrite app_nil_r. apply (both_core ha hb e0); [by repeat split|done]. }
  destruct c; cbn [run_ctl]; unfold ntrdma_eth_open, ntrdma_eth_stop, ntrdma_dev_eth_enable, ntrdma_dev_eth_quiesce, ntrdma_dev_eth_disable.
  1,2: match goal with |- context [ntrdma_eth_link_event _ _ _ ?x _] => destruct (Hlink x) as (e' & w' & evs & -> & Hres); [by repeat split|] end;
    cbn [set_dormant]; eexists _, _, _; (split; [reflexivity|]); intros Hu; apply (both_core ha hb e'); [by repeat split|by apply Hres].
  all: apply Hlink; by repeat split.
Qed.

Lemma held_in_ring hb A B base bufs lens fs C X VD VC f b :
  dir hb A B base bufs lens fs C X VD VC f → b ∈ drop C bufs → b ∈ er_buf (eth_rxr (sd_eth B)).
Proof.
  intros H [i Hi]%list_elem_of_lookup_1. rewrite lookup_drop in Hi. pose proof (lookup_lt_Some _ _ _ Hi).
  pose proof (so_bufs _ _ _ _ _ _ _ _ _ _ _ _ (d_slots _ _ _ _ _ _ _ _ _ _ _ _ H)) as [_ Hb].
  rewrite <- Hb in Hi by lia. by eapply list_elem_of_lookup_2.
Qed.

(** A change of the world outside the buffers of the ring, and a change of the
    length of frames. *)
Lemma world_both ha hb e w w' wire sent got B base base' :
  env_world ha e w w' → both ha hb (mk_side e w wire sent got) B base base' → both ha hb (mk_side e w' wire sent got) B base base'.
Proof.
  intros [Hv Hmem] ((bufs & lens & fs & C & X & VD & VC & f & H) & (bufs' & lens' & fs' & C' & X' & VD' & VC' & f' & H') & (Hb & Hmt & Hse)).
  split; [|split].
  - exists bufs, lens, fs, C, X, VD, VC, f. apply (dir_tx_same _ _ _ _ _ _ _ _ _ _ _ _ _ [] H); cbn; try done. by rewrite app_nil_r.
  - exists bufs', lens', fs', C', X', VD', VC', f'. apply (dir_rx_same _ _ _ _ _ _ _ _ _ _ _ _ _ [] H'); cbn; try done; [by rewrite app_nil_r|].
    intros Hh. destruct (Hmem (ring_bufs e ++ drop C' bufs')) as [Hh' Hby]; [|done|].
    + intros b [Hi|Hi]%elem_of_app; apply elem_of_app; [by left|right]. by apply (held_in_ring _ _ _ _ _ _ _ _ _ _ _ _ _ H').
    + split; [done|]. intros b a Hi. apply Hby, elem_of_app. by right.
  - unfold side_ok, bell_ok, settled in *. cbn in *. by rewrite Hv.
Qed.

Lemma mtu_both ha hb e n w wire sent got B base base' :
  mtu_ok lmin (en_mtu n) → both ha hb (mk_side e w wire sent got) B base base' →
  both ha hb (mk_side (eth_set_net n e) w wire sent got) B base base'.
Proof.
  intros Hn ((bufs & lens & fs & C & X & VD & VC & f & H) & (bufs' & lens' & fs' & C' & X' & VD' & VC' & f' & H') & (Hb & Hm & Hse)).
  split; [|split; [|done]].
  - exists bufs, lens, fs, C, X, VD, VC, f. apply (dir_tx_same _ _ _ _ _ _ _ _ _ _ _ _ _ [] H); cbn; try done. by rewrite app_nil_r.
  - exists bufs', lens', fs', C', X', VD', VC', f'. apply (dir_rx_same _ _ _ _ _ _ _ _ _ _ _ _ _ [] H'); cbn; try done. by rewrite app_nil_r.
Qed.

Lemma dma_cb_env h e dst src w : env_world h e w (ntrdma_eth_dma_cb dst src w).
Proof.
  unfold ntrdma_eth_dma_cb, ntc_local_buf_disown. set (b := mk_local_buf _ _ _ _ _).
  pose proof (local_free_mm b (ew_bw w)) as Hm. destruct (ntc_local_buf_free b (ew_bw w)) as [? bw]. cbn in Hm.
  destruct (rb_dma_addr dst =? 0); (split; [done|]); intros bufs _ Hh; (split; [by eapply holds_same|done]).
Qed.

Lemma step_both ha hb A A' B base base' :
  host_ok ha hb → host_ok hb ha → side_step ha A A' → both ha hb A B base base' → both ha hb A' B base base'.
Proof.
  intros Hoa Hob Hstep Hboth. inversion Hstep; subst.
  - destruct (xmit_ok _ _ _ _ _ _ s Hoa Hob Hboth) as (e2 & w2 & evs2 & E & Hres); [done|]. cbn in *. simplify_eq. auto.
  - destruct (poll_ok _ _ _ _ _ _ build budget Hoa Hob Hboth) as (n2 & e2 & w2 & evs2 & E & Hres); [done..|]. cbn in *. simplify_eq. auto.
  - destruct (ctl_ok _ _ _ _ _ _ c Hoa Hob Hboth) as (e2 & w2 & evs2 & E & Hres). cbn in *. simplify_eq. auto.
  - unfold ntrdma_eth_change_mtu in *. destruct (mtu <? 68); simplify_eq; [done|]. by apply mtu_both.
  - eapply world_both; [apply dma_cb_env|done].
  - by eapply world_both.
Qed.

(** ** The two hosts *)

(** The rings of one direction when the two have been connected: they start
    where the receiver's ring was left. *)
Record fresh (hb : host) (A B : side) (base : nat) : Prop := {
  fr_rx : let r := eth_rxr (sd_eth B) in er_cap r = h_cap hb ∧ Z.of_nat (length (er_buf r)) = h_cap hb
    ∧ Z.of_nat (length (er_wqes r)) = h_cap hb ∧ Z.of_nat (length (er_cqes r)) = h_cap hb
    ∧ er_prod r = nenc (h_cap hb) base ∧ er_cmpl r = nenc (h_cap hb) base ∧ er_cons r = nenc (h_cap hb) base;
  fr_tx : let t := eth_txr (sd_eth A) in et_cap t = h_cap hb
    ∧ Z.of_nat (length (et_wqes t)) = h_cap hb ∧ Z.of_nat (length (et_cqes t)) = h_cap hb
    ∧ et_cons t = nenc (h_cap hb) base ∧ et_cmpl t = nenc (h_cap hb) base ∧ et_prod t = nenc (h_cap hb) base;
  fr_valid : rx_valid (h_cap hb) (eth_rxr (sd_eth B)) ∧ tx_valid (h_cap hb) (eth_txr (sd_eth A));
  fr_mem : mem_holds (h_info hb) (h_memory hb) (h_region hb) (h_words hb) (ew_bw (sd_world B)) (ring_bufs (sd_eth B));
  fr_none : sd_wire A = [] ∧ sd_wire B = [] ∧ sd_sent A = [] ∧ sd_got B = [] }.

Definition net_start (ha hb : host) (base base' : nat) (n : side * side) : Prop :=
  fresh hb (fst n) (snd n) base ∧ fresh ha (snd n) (fst n) base' ∧ side_ok (fst n) ∧ side_ok (snd n).

(** One host runs, or what the one has sent arrives at the other. *)
Inductive net_step (ha hb : host) : side * side → side * side → Prop :=
  | ns_a A A' B : side_step ha A A' → net_step ha hb (A, B) (A', B)
  | ns_b A B B' : side_step hb B B' → net_step ha hb (A, B) (A, B')
  | ns_ab A B ev rest : sd_wire A = ev :: rest → net_step ha hb (A, B) (pop A rest, receive hb ev B)
  | ns_ba A B ev rest : sd_wire B = ev :: rest → net_step ha hb (A, B) (receive ha ev A, pop B rest).

Definition net_good (ha hb : host) (base base' : nat) (n : side * side) : Prop :=
  good hb (fst n) (snd n) base ∧ good ha (snd n) (fst n) base' ∧ side_ok (fst n) ∧ side_ok (snd n).

Lemma chan_at {T} cap (l : list T) m n :
  cap_ok cap → Z.of_nat (length (fst m)) = cap → snd m = nenc cap n → length l = n → chan_ok cap l n n m [].
Proof.
  intros Hcap Hm Hi <-. unfold cap_ok in Hcap. split; [done|]. split; [done|]. split; [lia|]. split; [lia|].
  exists (length l). split; [lia|]. split; [split; [done|lia]|constructor].
Qed.

(** A ring without buffers. *)
Lemma empty_slots h r bw own base :
  cap_ok (h_cap h) → er_cap r = h_cap h → Z.of_nat (length (er_buf r)) = h_cap h → Z.of_nat (length (er_wqes r)) = h_cap h →
  mem_holds (h_info h) (h_memory h) (h_region h) (h_words h) bw own →
  slots_ok (h_info h) (h_memory h) (h_region h) (h_words h) (h_cap h) lmin own r bw
    (replicate base (mk_export_buf 0 0 (h_info h) 0 false)) (replicate base 0) base.
Proof.
  intros Hcap R1 R2 R3 Hm. set (bufs := replicate base _).
  assert (length bufs = base) as Lb by (unfold bufs; by rewrite length_replicate).
  assert (0 < h_cap h) as Hpos by (unfold cap_ok in Hcap; lia).
  constructor; rewrite ?length_replicate, ?Lb; try done; try lia.
  - split; [lia|]. intros n Hn. lia.
  - intros n b l Hn Hb'%lookup_lt_Some. lia.
  - rewrite drop_ge by lia. by rewrite app_nil_r.
Qed.

Lemma fresh_good ha hb A B base : host_ok hb ha → fresh hb A B base → good hb A B base.
Proof.
  intros Hok [(R1 & R2 & R3 & R4 & R5 & R6 & R7) (T1 & T2 & T3 & T4 & T5 & T6) [V1 V2] Hm (Ha & Hb & Hs & Hg)].
  pose proof (ho_cap _ _ Hok) as Hcap. assert (0 < h_cap hb) as Hpos by (unfold cap_ok in Hcap; lia).
  set (bufs := replicate base (mk_export_buf 0 0 (h_info hb) 0 false)). set (lens := replicate base 0).
  assert (length bufs = base ∧ length lens = base) as [Lb Ll] by (unfold bufs, lens; by rewrite !length_replicate).
  assert (drop base bufs = []) as Hd by (apply drop_ge; lia).
  set (fs := replicate base no_skb). assert (length fs = base) as Lf by (unfold fs; by rewrite length_replicate).
  exists bufs, lens, fs, base, base, base, base, base. constructor; try done.
  - by apply empty_slots.
  - by rewrite Lb.
  - constructor; try done; rewrite ?Lf, ?Lb; try lia; try done.
    split; [rewrite useds_length; lia|]. intros n Hn. lia.
  - rewrite Hb, Lf. apply chan_at; [done..|]. rewrite descs_length; lia.
  - rewrite Ha. apply chan_at; [done..|]. rewrite length_take, useds_length; lia.
  - rewrite Ha, <- Lf. constructor.
  - cbn. lia.
  - intros n s b len Hn. lia.
  - unfold fs. apply Forall_replicate. repeat split; cbn; lia.
  - by rewrite Hs, app_nil_r.
  - rewrite Hg, Hs. by rewrite take_nil.
Qed.

Lemma receive_side_ok h ev s : side_ok s → side_ok (receive h ev s).
Proof. intros H. unfold side_ok, bell_ok, settled in *. cbn. by destruct ev. Qed.

Lemma receive_mem h ev s : ew_bw (sd_world (receive h ev s)) = ew_bw (sd_world s).
Proof. by destruct ev. Qed.

Lemma net_step_good ha hb base base' n n' :
  host_ok ha hb → host_ok hb ha → net_step ha hb n n' → net_good ha hb base base' n → net_good ha hb base base' n'.
Proof.
  intros Hoa Hob Hstep (Hab & Hba & Ha & Hb). destruct Hstep as [A A' B Hs|A B B' Hs|A B ev rest Hw|A B ev rest Hw]; cbn [fst snd] in *.
  - destruct (step_both ha hb A A' B base base' Hoa Hob Hs) as (H1 & H2 & H3); [done|]. done.
  - destruct (step_both hb ha B B' A base' base Hob Hoa Hs) as (H1 & H2 & H3); [done|]. done.
  - destruct Hab as (bufs & lens & fs & C & X & VD & VC & f & H). destruct Hba as (bufs' & lens' & fs' & C' & X' & VD' & VC' & f' & H').
    destruct (receive_dir _ _ _ _ _ _ _ _ _ _ _ _ _ ev rest Hob H Hw) as (VC2 & f2 & H2).
    destruct (receive_dir_tx hb _ _ _ _ _ _ _ _ _ _ _ _ ev rest Hoa H' Hw) as (VD2 & H2').
    split; [by exists bufs, lens, fs, C, X, VD, VC2, f2|]. split; [by exists bufs', lens', fs', C', X', VD2, VC', f'|].
    split; [done|]. by apply receive_side_ok.
  - destruct Hab as (bufs & lens & fs & C & X & VD & VC & f & H). destruct Hba as (bufs' & lens' & fs' & C' & X' & VD' & VC' & f' & H').
    destruct (receive_dir _ _ _ _ _ _ _ _ _ _ _ _ _ ev rest Hoa H' Hw) as (VC2 & f2 & H2).
    destruct (receive_dir_tx ha _ _ _ _ _ _ _ _ _ _ _ _ ev rest Hob H Hw) as (VD2 & H2').
    split; [by exists bufs, lens, fs, C, X, VD2, VC, f|]. split; [by exists bufs', lens', fs', C', X', VD', VC2, f2|].
    split; [|done]. by apply receive_side_ok.
Qed.

Lemma net_run_good ha hb base base' n n' :
  host_ok ha hb → host_ok hb ha → net_start ha hb base base' n → rtc (net_step ha hb) n n' → net_good ha hb base base' n'.
Proof.
  intros Hoa Hob (H1 & H2 & H3 & H4) Hrun.
  assert (net_good ha hb base base' n) as Hg by (split; [by eapply fresh_good|]; split; [by eapply fresh_good|done]).
  clear H1 H2 H3 H4. induction Hrun; [done|]. eauto using net_step_good.
Qed.

(** ** What the two hosts are promised *)

(** The frames of [A] come to the stack of [B] in order, each once and with its
    bytes; when the rings are at the same place, all of them have. *)
Definition delivered (A B : side) : Prop :=
  Forall2 (arrives lmin short) (take (length (sd_got B)) (sd_sent A)) (sd_got B)
  ∧ (er_cmpl (eth_rxr (sd_eth B)) = et_cons (eth_txr (sd_eth A)) → length (sd_got B) = length (sd_sent A)).

(** No run of the host faults. *)
Definition runs (h : host) (s : side) : Prop :=
  (∀ skb, skb_ok skb → is_Some (ntrdma_eth_start_xmit (h_ntc h) (h_irq h) (h_vec h) skb (sd_eth s) (sd_world s)))
  ∧ (∀ build budget, (∀ i, build i = false → short) → 0 < budget < 2 ^ 31 →
       is_Some (ntrdma_eth_napi_poll (h_ntc h) (h_irq h) (h_vec h) build budget (sd_eth s) (sd_world s)))
  ∧ (∀ c, is_Some (run_ctl h c (sd_eth s) (sd_world s))).

Lemma good_delivered ha hb A B base : host_ok hb ha → good hb A B base → delivered A B.
Proof.
  intros Hok (bufs & lens & fs & C & X & VD & VC & f & H). pose proof (dir_order _ _ _ _ _ _ _ _ _ _ _ _ H) as Ho.
  destruct H as [Sl Pr Cm Rx Se Tx De Cq Fr Hd St Sk Sn Ba Go]. pose proof (Forall2_length Go) as Hlen. rewrite length_take in Hlen.
  assert (length fs = base + length (sd_sent A))%nat as Hfs by (by rewrite Sn, length_app, length_replicate).
  assert (length (sd_got B) = C - base)%nat as Hg by lia. rewrite <- Hg in Go. split; [done|].
  rewrite Cm, (sn_cons _ _ _ _ _ _ _ Se). intros He. apply (nenc_inj _ (ho_cap _ _ Hok)) in He; lia.
Qed.

Lemma both_runs ha hb A B base base' : host_ok ha hb → host_ok hb ha → both ha hb A B base base' → runs ha A.
Proof.
  intros Hoa Hob H. split; [|split].
  - intros s Hs. destruct (xmit_ok _ _ _ _ _ _ s Hoa Hob H Hs) as (e' & w' & evs & E & _). by eexists.
  - intros build budget Hbu Hbud. destruct (poll_ok _ _ _ _ _ _ build budget Hoa Hob H Hbu Hbud) as (n & e' & w' & evs & E & _). by eexists.
  - intros c. destruct (ctl_ok _ _ _ _ _ _ c Hoa Hob H) as (e' & w' & evs & E & _). by eexists.
Qed.

End Net.
End EthNet.
