(* ===== verification/EthInit.v ===== *)
(** * Setting an Ethernet device up and down

    The device is created, exchanges the places of its rings with the peer, runs,
    and is reset.  Between an exchange and the next the rings are [idle]; an
    exchange that fails, and a reset, give back what was taken and leave them so. *)

From stdpp Require Import gmap.
From S2P Require Import Prelude Kernel Ring Wire Ntc Mm Buf Vbell Qp Eth EthMem EthSide EthSend EthNet.
Import Ring Wire Ntc Mm Buf Eth EthMem EthSide EthSend EthNet.

Module EthInit.

Section Init.
Context `{K : Kernel} {KO : KernelOk K} {NP : NetParams} {NO : NetParamsOk NP}.
Context (bus : Z → Z) (Hbus : ∀ p n d, dma_map_resource p n = Some d → bus d = p).
Context (lmin : Z) (short : Prop) (Hshort : ∀ t, kalloc t = false → short).

Abbreviation holds h := (mem_holds (h_info h) (h_memory h) (h_region h) (h_words h)).

(** Between two exchanges. *)
Definition own_bufs (e : ntrdma_eth) : list ntc_export_buf := [er_cqe_buf (eth_rxr e); er_cons_buf (eth_rxr e)].

Record idle (h : host) (e : ntrdma_eth) (w : eth_world) : Prop := {
  id_rx : let r := eth_rxr e in er_cap r = h_cap h ∧ Z.of_nat (length (er_buf r)) = h_cap h
    ∧ Z.of_nat (length (er_wqes r)) = h_cap h ∧ Z.of_nat (length (er_cqes r)) = h_cap h;
  id_base : ∃ base, let r := eth_rxr e in
    er_prod r = nenc (h_cap h) base ∧ er_cmpl r = nenc (h_cap h) base ∧ er_cons r = nenc (h_cap h) base;
  id_valid : rx_valid (h_cap h) (eth_rxr e);
  id_mem : holds h (ew_bw w) (own_bufs e);
  id_flags : eth_hello_done e = false ∧ eth_hello_prep e = false;
  id_vbell : 0 <= eth_vbell_idx e < Vbell.NTRDMA_DEV_VBELL_COUNT
    ∧ length (Vbell.dv_peer (ew_vb w)) = Z.to_nat Vbell.NTRDMA_DEV_VBELL_COUNT;
  id_mtu : mtu_ok lmin (en_mtu (eth_netdev e)) }.

(** What a run takes from the kernel: memory, DMA mappings, mappings of remote
    buffers. *)
Record moves (k d m : Z) (w w' : eth_world) : Prop := {
  mv_kmem : bw_kmem (ew_bw w') = bw_kmem (ew_bw w) + k;
  mv_dma : bw_dma (ew_bw w') = bw_dma (ew_bw w) + d;
  mv_maps : ew_maps w' = ew_maps w + m;
  mv_vb : ew_vb w' = ew_vb w }.

Lemma moves_trans k d m k' d' m' w1 w2 w3 :
  moves k d m w1 w2 → moves k' d' m' w2 w3 → moves (k + k') (d + d') (m + m') w1 w3.
Proof. intros [] []. constructor; try lia. congruence. Qed.

Lemma moves_eq k d m k' d' m' w w' : k = k' → d = d' → m = m' → moves k d m w w' → moves k' d' m' w w'.
Proof. by intros -> -> ->. Qed.

(** The parts that the exchange does not change. *)
Record keeps (e e' : ntrdma_eth) : Prop := {
  kp_rx : eth_rxr e' = eth_rxr e;
  kp_idx : eth_vbell_idx e' = eth_vbell_idx e;
  kp_net : eth_netdev e' = eth_netdev e;
  kp_done : eth_hello_done e' = eth_hello_done e;
  kp_flags : eth_enable e' = eth_enable e ∧ eth_ready e' = eth_ready e ∧ eth_link e' = eth_link e }.

Lemma keeps_refl e : keeps e e.
Proof. by split. Qed.
Lemma keeps_trans e1 e2 e3 : keeps e1 e2 → keeps e2 e3 → keeps e1 e3.
Proof. intros [? ? ? ? (?&?&?)] [? ? ? ? (?&?&?)]. split; [congruence..|]. repeat split; congruence. Qed.

Lemma idle_back h e w e' w' :
  idle h e w → keeps e e' → eth_hello_prep e' = false → holds h (ew_bw w') (own_bufs e) → ew_vb w' = ew_vb w → idle h e' w'.
Proof.
  intros [] [Kr Ki Kn Kd _] Hp Hm Hv. constructor; unfold own_bufs in *; rewrite ?Kr, ?Ki, ?Kn, ?Kd, ?Hv; try done.
  split; [|done]. by destruct id_flags0.
Qed.

(** ** Remote buffers *)

Definition mapped (b : ntc_remote_buf) : Z := if rb_dma_addr b =? 0 then 0 else 1.

Lemma map_peer_cases ntc d w :
  ∃ rc b w', map_peer ntc d w = (rc, b, w') ∧ ew_bw w' = ew_bw w
    ∧ ((rc < 0 ∧ mapped b = 0 ∧ moves 0 0 0 w w') ∨ (rc = 0 ∧ moves 0 0 (mapped b) w w')).
Proof.
  unfold map_peer. destruct (ntc_remote_buf_map ntc d) as [rc b] eqn:E. eexists _, _, _. split; [reflexivity|].
  assert ((rc < 0 ∧ mapped b = 0) ∨ rc = 0) as Hrc.
  { unfold ntc_remote_buf_map in E. destruct (_ =? 0); [right; by injection E|].
    destruct (ntc_peer_addr _ _) as [[p io]|]; [|left; by injection E as <- <-].
    destruct (dma_map_resource _ _); [right|left]; by injection E as <- <-. }
  unfold mapped in *. destruct Hrc as [[Hn Hb]| ->].
  - rewrite (proj2 (Z.ltb_lt _ _)) by done. cbn [orb]. split; [done|]. left. split; [done|]. split; [done|].
    constructor; try done; lia.
  - cbn [Z.ltb Z.compare orb]. destruct (rb_dma_addr b =? 0); (split; [done|]); right; (split; [done|]);
      constructor; cbn; try done; lia.
Qed.

Lemma unmap_moves b w : moves 0 0 (- mapped b) w (unmap_peer b w) ∧ ew_bw (unmap_peer b w) = ew_bw w.
Proof. unfold unmap_peer, mapped. destruct (rb_dma_addr b =? 0); (split; [|done]); constructor; cbn; try done; lia. Qed.

(** ** The labels of the exchange *)

Lemma err_cons_spec e w :
  ∃ e' w', err_peer_rx_cons_buf e w = (e', w') ∧ keeps e e' ∧ eth_hello_prep e' = eth_hello_prep e
    ∧ ew_bw w' = ew_bw w ∧ moves 0 0 (- mapped (et_peer_cqe_buf (eth_txr e))) w w'.
Proof.
  eexists _, _. split; [reflexivity|]. destruct (unmap_moves (et_peer_cqe_buf (eth_txr e)) w) as [Hm Hb].
  split; [by split|]. split; [done|]. by split.
Qed.

Lemma err_wqe_spec e w :
  ∃ e' w', err_tx_wqe_buf e w = (e', w') ∧ keeps e e' ∧ eth_hello_prep e' = eth_hello_prep e ∧ ew_bw w' = ew_bw w
    ∧ moves 0 0 (- mapped (et_peer_cqe_buf (eth_txr e)) - mapped (et_peer_cons_buf (eth_txr e))) w w'.
Proof.
  unfold err_tx_wqe_buf. cbv zeta. set (e1 := eth_set_tx (tx_set_peer _ _ _) _). set (w1 := unmap_peer _ w).
  destruct (err_cons_spec e1 w1) as (e' & w' & -> & Hk & Hp & Hb & Hm). eexists _, _. split; [reflexivity|].
  destruct (unmap_moves (et_peer_cons_buf (eth_txr e)) w) as [Hm1 Hb1].
  split; [by destruct Hk; split|]. split; [by rewrite Hp|]. split; [by rewrite Hb|].
  eapply moves_eq; [| | |eapply moves_trans; [exact Hm1|exact Hm]]; cbn; lia.
Qed.

(** Exported buffers come out of the window: no count changes. *)
Lemma export_free_counts ntc info memory region b bw b' bw' :
  window_mode ntc info memory region → ntc_export_buf_free ntc b bw = Some (b', bw') →
  bw_kmem bw' = bw_kmem bw ∧ bw_dma bw' = bw_dma bw.
Proof.
  intros [(dram & Hd & Hfl) _ _ _ _ _]. unfold ntc_export_buf_free. rewrite Hd, Hfl, andb_false_r.
  destruct (negb _); [|by intros [= _ <-]]. destruct (ntc_mm_free _ _ _); [|done]. by intros [= _ <-].
Qed.

Lemma export_alloc_counts ntc info memory region size zero bw rc b bw' :
  window_mode ntc info memory region → _ntc_export_buf_alloc ntc size zero bw = Some (rc, b, bw') →
  bw_kmem bw' = bw_kmem bw ∧ bw_dma bw' = bw_dma bw.
Proof.
  intros [(dram & Hd & Hfl) Hi _ _ _ _]. unfold _ntc_export_buf_alloc. rewrite Hd, Hi, Hfl. cbn [negb].
  destruct (ntc_mm_alloc _ _ _ _ _) as [[[p|e] mm]|]; [| |done]; by intros [= _ _ <-].
Qed.

Section Host.
Context (h peer : host) (Hok : host_ok h peer).

Lemma free_export b L w :
  holds h (ew_bw w) (b :: L) →
  ∃ bw, ntc_export_buf_free (h_ntc h) b (ew_bw w) = Some (ntc_export_buf_clear b, bw)
    ∧ holds h bw L ∧ moves 0 0 0 w (ew_set_bw bw w).
Proof.
  intros Hh. destruct (holds_free _ _ _ _ _ (ho_window _ _ Hok) _ _ _ Hh) as (bw & Hf & Hm). exists bw. split; [done|].
  split; [done|]. destruct (export_free_counts _ _ _ _ _ _ _ _ (ho_window _ _ Hok) Hf). constructor; cbn; try done; lia.
Qed.

Lemma alloc_export size zero L w :
  holds h (ew_bw w) L → 0 < size < 2 ^ 31 →
  ∃ rc b bw, _ntc_export_buf_alloc (h_ntc h) size zero (ew_bw w) = Some (rc, b, bw) ∧ moves 0 0 0 w (ew_set_bw bw w)
    ∧ ((rc < 0 ∧ holds h bw L) ∨ (rc = 0 ∧ eb_size b = size ∧ holds h bw (b :: L))).
Proof.
  intros Hh Hs. destruct (holds_alloc _ _ _ _ _ (ho_window _ _ Hok) _ _ size zero Hh Hs) as (rc & b & bw & E & Hc).
  exists rc, b, bw. split; [done|].
  destruct (export_alloc_counts _ _ _ _ _ _ _ _ _ _ (ho_window _ _ Hok) E). split; [constructor; cbn; try done; lia|].
  destruct Hc as [Hc|(-> & Hsz & _ & Hm)]; [by left|right]. split; [done|]. split; [done|].
  apply holds_swap in Hm. by rewrite app_nil_r in Hm.
Qed.

Lemma err_cqe_spec e w L :
  holds h (ew_bw w) (et_wqe_buf (eth_txr e) :: L) →
  ∃ e' w', err_tx_cqe_buf (h_ntc h) e w = Some (e', w') ∧ keeps e e' ∧ eth_hello_prep e' = eth_hello_prep e
    ∧ holds h (ew_bw w') L
    ∧ moves 0 0 (- mapped (et_peer_cqe_buf (eth_txr e)) - mapped (et_peer_cons_buf (eth_txr e))) w w'.
Proof.
  intros Hh. unfold err_tx_cqe_buf. cbv zeta. destruct (free_export _ _ _ Hh) as (bw & -> & Hm & Hmv1).
  set (e1 := eth_set_tx _ e). set (w1 := ew_set_bw bw w) in *.
  destruct (err_wqe_spec e1 w1) as (e' & w' & -> & Hk & Hp & Hb & Hmv). eexists _, _. split; [reflexivity|].
  split; [by destruct Hk; split|]. split; [by rewrite Hp|]. split; [by rewrite Hb|].
  eapply moves_eq; [| | |eapply moves_trans; [exact Hmv1|exact Hmv]]; cbn; lia.
Qed.

Lemma local_free_moves b w :
  local_held b → moves (- 1) (- 1) 0 w (ew_set_bw (snd (ntc_local_buf_free b (ew_bw w))) w)
    ∧ bw_mm (snd (ntc_local_buf_free b (ew_bw w))) = bw_mm (ew_bw w).
Proof.
  intros (Ho & Hm & Hp). split; [|apply local_free_mm]. unfold ntc_local_buf_free, kfree_ptr.
  rewrite Ho, Hm, (proj2 (Z.eqb_neq _ _)) by done. constructor; cbn; try done; lia.
Qed.

Lemma err_prod_spec e w L :
  holds h (ew_bw w) (et_wqe_buf (eth_txr e) :: L) → local_held (et_cqe_buf (eth_txr e)) →
  ∃ e' w', err_tx_prod_buf (h_ntc h) e w = Some (e', w') ∧ keeps e e' ∧ eth_hello_prep e' = eth_hello_prep e
    ∧ holds h (ew_bw w') L
    ∧ moves (- 1) (- 1) (- mapped (et_peer_cqe_buf (eth_txr e)) - mapped (et_peer_cons_buf (eth_txr e))) w w'.
Proof.
  intros Hh Hl. unfold err_tx_prod_buf. cbv zeta.
  destruct (local_free_moves (et_cqe_buf (eth_txr e)) w Hl) as [Hmv1 Hmm].
  destruct (ntc_local_buf_free _ _) as [b bw]. cbn [snd] in *.
  set (e1 := eth_set_tx _ e). set (w1 := ew_set_bw bw w) in *.
  destruct (err_cqe_spec e1 w1 L) as (e' & w' & -> & Hk & Hp & Hb & Hmv); [by eapply holds_same|].
  eexists _, _. split; [reflexivity|]. split; [by destruct Hk; split|]. split; [by rewrite Hp|]. split; [done|].
  eapply moves_eq; [| | |eapply moves_trans; [exact Hmv1|exact Hmv]]; cbn; lia.
Qed.

End Host.
Lemma local_alloc_mm size w rc b w' : ntc_local_buf_alloc size w = (rc, b, w') → bw_mm w' = bw_mm w.
Proof.
  unfold ntc_local_buf_alloc, ntc_phys_local_buf_map, map_single, kmalloc_node, kfree_ptr.
  destruct (kalloc _); cbn; [|by intros [= _ _ <-]]. destruct (kaddr _ =? 0); [by intros [= _ _ <-]|].
  destruct (dma_map_single _); cbn; [by intros [= _ _ <-]|]. destruct (kaddr _ =? 0); by intros [= _ _ <-].
Qed.

Lemma alloc_local size w :
  ∃ rc b bw, ntc_local_buf_zalloc size (ew_bw w) = (rc, b, bw) ∧ bw_mm bw = bw_mm (ew_bw w)
    ∧ ((rc < 0 ∧ moves 0 0 0 w (ew_set_bw bw w)) ∨ (rc = 0 ∧ local_held b ∧ moves 1 1 0 w (ew_set_bw bw w))).
Proof.
  destruct (local_alloc_cases size (ew_bw w)) as (rc & b & bw & E & _ & Hc). exists rc, b, bw.
  split; [exact E|]. split; [by eapply local_alloc_mm|].
  destruct Hc as [(Hn & [H1 H2] & _)|(-> & H1 & H2 & Ho & Hm & Hp & _)]; [left|right].
  - split; [done|]. constructor; cbn; try done; lia.
  - split; [done|]. split; [split; [done|split; [done|lia]]|]. constructor; cbn; try done; lia.
Qed.

(** The transmit ring is ready for the ring of the peer. *)
Record prepared (h : host) (cap idx : Z) (e : ntrdma_eth) (w : eth_world) : Prop := {
  pr_flag : eth_hello_prep e = true;
  pr_tx : let t := eth_txr e in et_cap t = cap
    ∧ Z.of_nat (length (et_wqes t)) = cap ∧ Z.of_nat (length (et_cqes t)) = cap
    ∧ et_cons t = idx ∧ et_cmpl t = idx ∧ et_prod t = idx;
  pr_valid : tx_valid cap (eth_txr e);
  pr_mem : holds h (ew_bw w) (et_prod_buf (eth_txr e) :: et_wqe_buf (eth_txr e) :: own_bufs e);
  pr_local : local_held (et_cqe_buf (eth_txr e)) }.

(** What an exchange that fails leaves. *)
Definition undone (h : host) (e e' : ntrdma_eth) (m : Z) (w w' : eth_world) : Prop :=
  keeps e e' ∧ eth_hello_prep e' = false ∧ holds h (ew_bw w') (own_bufs e) ∧ moves 0 0 m w w'.

Lemma deref_valid b size off len :
  export_wf b → eb_size b = size → 0 < size < 2 ^ 31 → 0 <= off < size → 0 <= len → off + len <= size →
  is_Some (ntc_export_buf_const_deref b off len).
Proof.
  intros [_ Ha _ _ _] Hs Hz Ho Hl Hle. unfold ntc_export_buf_const_deref.
  rewrite segment_ok by (rewrite ?Hs; change (2 ^ 62) with 4611686018427387904; change (2 ^ 31) with 2147483648 in *; lia).
  cbn [negb]. rewrite (proj2 (Z.eqb_neq _ _)) by lia. by eexists.
Qed.

Section Prep.
Context (h peer : host) (Hok : host_ok h peer) (cap idx : Z) (Hcap : 0 < cap <= MAX_WQES).

Lemma prep_bufs_spec e w :
  et_cap (eth_txr e) = cap → et_cons (eth_txr e) = idx → et_cmpl (eth_txr e) = idx →
  eth_hello_prep e = false → holds h (ew_bw w) (own_bufs e) →
  ∃ rc e' w', prep_bufs (h_ntc h) (idx) e w = Some (rc, (e', w'))
    ∧ ((rc < 0 ∧ undone h e e' (- mapped (et_peer_cqe_buf (eth_txr e)) - mapped (et_peer_cons_buf (eth_txr e))) w w')
       ∨ (rc = 0 ∧ keeps e e' ∧ prepared h cap idx e' w' ∧ eth_peer_vbell_idx e' = eth_peer_vbell_idx e
          ∧ et_peer_cqe_buf (eth_txr e') = et_peer_cqe_buf (eth_txr e)
          ∧ et_peer_cons_buf (eth_txr e') = et_peer_cons_buf (eth_txr e) ∧ moves 1 1 0 w w')).
Proof.
  intros Hc Hco Hcm Hp Hh. unfold prep_bufs, MAX_WQES in *. cbv zeta. rewrite Hc.
  assert (0 < cap * sizeof_desc < 2 ^ 31) as Hsz by (unfold sizeof_desc; rewrite pow2_31; lia).
  destruct (alloc_export h peer Hok (cap * sizeof_desc) true _ w Hh Hsz) as (rc & b & bw & E & Hm1 & Hcase).
  unfold _ntc_export_buf_zalloc. rewrite E. set (e1 := eth_set_tx _ e). set (w1 := ew_set_bw bw w) in *.
  destruct Hcase as [[Hn Hh1]|(-> & Hbs & Hh1)].
  { rewrite (proj2 (Z.ltb_lt _ _)) by done. destruct (err_wqe_spec e1 w1) as (e' & w' & -> & Hk & Hp' & Hb & Hm).
    cbn [with_rc]. eexists _, _, _. split; [reflexivity|]. left. split; [done|]. split; [by destruct Hk; split|].
    split; [by rewrite Hp'|]. split; [by rewrite Hb|]. eapply moves_eq; [| | |eapply moves_trans; [exact Hm1|exact Hm]]; cbn; lia. }
  cbn [Z.ltb Z.compare]. cbn [et_cap tx_set_bufs tx_set_mem]. rewrite Hc.
  destruct (alloc_local (cap * sizeof_desc) w1) as (rc & lb & bw2 & E2 & Hmm & Hcase). rewrite E2.
  set (e2 := eth_set_tx _ e1). set (w2 := ew_set_bw bw2 w1) in *.
  assert (holds h (ew_bw w2) (b :: own_bufs e)) as Hh2 by (by eapply holds_same).
  destruct Hcase as [[Hn Hm2]|(-> & Hl & Hm2)].
  { rewrite (proj2 (Z.ltb_lt _ _)) by done.
    destruct (err_cqe_spec h peer Hok e2 w2 (own_bufs e) Hh2) as (e' & w' & -> & Hk & Hp' & Hb & Hm).
    cbn [with_rc]. eexists _, _, _. split; [reflexivity|]. left. split; [done|]. split; [by destruct Hk; split|].
    split; [by rewrite Hp'|]. split; [done|].
    eapply moves_eq; [| | |eapply moves_trans; [eapply moves_trans; [exact Hm1|exact Hm2]|exact Hm]]; cbn; lia. }
  cbn [Z.ltb Z.compare]. unfold _ntc_export_buf_zalloc_init, with_init, _ntc_export_buf_zalloc.
  replace (ntc_segment_valid 4 0 4) with true by reflexivity. cbn [negb].
  destruct (alloc_export h peer Hok 4 true _ w2 Hh2) as (rc & pb & bw3 & E3 & Hm3 & Hcase); [by rewrite pow2_31|]. rewrite E3.
  cbv iota beta. set (w3 := ew_set_bw bw3 w2) in *. pose proof (moves_trans _ _ _ _ _ _ _ _ _ (moves_trans _ _ _ _ _ _ _ _ _ Hm1 Hm2) Hm3) as Hm13.
  destruct Hcase as [[Hn Hh3]|(-> & Hps & Hh3)].
  { rewrite (proj2 (Z.ltb_lt _ _)) by done. cbv iota beta. rewrite ?(proj2 (Z.ltb_lt _ _)) by done. change (ew_set_bw bw3 w2) with w3. set (e3 := eth_set_tx _ e2).
    destruct (err_prod_spec h peer Hok e3 w3 (own_bufs e) Hh3 Hl) as (e' & w' & -> & Hk & Hp' & Hb & Hm).
    cbn [with_rc]. eexists _, _, _. split; [reflexivity|]. left. split; [done|]. split; [by destruct Hk; split|].
    split; [by rewrite Hp'|]. split; [done|]. eapply moves_eq; [| | |eapply moves_trans; [exact Hm13|exact Hm]]; cbn; lia. }
  cbn [Z.ltb Z.compare]. eexists _, _, _. split; [reflexivity|]. right. split; [done|]. split; [by split|].
  split; [|split; [done|split; [done|split; [done|]]]; eapply moves_eq; [| | |exact Hm13]; lia].
  constructor; try done.
  - cbn. rewrite Hc, !length_replicate. split; [done|]. split; [lia|]. split; [lia|]. done.
  - destruct (holds_wf _ _ _ _ _ _ pb Hh3) as (Pw & Po & _); [left|].
    destruct (holds_wf _ _ _ _ _ _ b Hh3) as (Bw & Bo & _); [right; left|].
    split; cbn; [eapply (deref_valid pb 4); try done; rewrite ?pow2_31; lia|].
    intros pos Hpos. eapply (deref_valid b (cap * sizeof_desc)); try done; unfold sizeof_desc in *; lia.
Qed.

End Prep.

(** ** The two calls of an exchange *)

Section Exchange.
Context (h peer : host) (Hok : host_ok h peer).

(** The transmit ring is ready for the ring of the peer. *)
Definition exchanged (info : ntrdma_eth_hello_info) (e e' : ntrdma_eth) (w w' : eth_world) : Prop :=
  keeps e e' ∧ prepared h (ei_rx_cap info) (ei_rx_idx info) e' w'
  ∧ eth_peer_vbell_idx e' = ei_vbell_idx info ∧ ei_vbell_idx info <= Vbell.NTRDMA_DEV_VBELL_COUNT
  ∧ moves 1 1 (mapped (et_peer_cqe_buf (eth_txr e')) + mapped (et_peer_cons_buf (eth_txr e'))) w w'.

Lemma hello_prep_cases info e w :
  idle h e w → 0 < ei_rx_cap info →
  ∃ rc e' w', hello_prep (h_ntc h) info e w = Some (rc, (e', w'))
    ∧ ((rc < 0 ∧ undone h e e' 0 w w') ∨ (rc = 0 ∧ exchanged info e e' w w')).
Proof.
  intros Hid Hc. pose proof (id_mem _ _ _ Hid) as Hh. destruct (id_flags _ _ _ Hid) as [_ Hp].
  assert (undone h e e 0 w w) as Hsame by (split; [apply keeps_refl|]; split; [done|]; split; [done|]; constructor; try done; lia).
  assert (∃ rc e' w', Some (- ENOMEM, (e, w)) = Some (rc, (e', w'))
    ∧ ((rc < 0 ∧ undone h e e' 0 w w') ∨ (rc = 0 ∧ exchanged info e e' w w'))) as Hrefuse by (eexists _, _, _; split; [done|]; by left).
  unfold hello_prep.
  destruct (Z.ltb_spec Vbell.NTRDMA_DEV_VBELL_COUNT (ei_vbell_idx info)) as [|Hvb]; [exact Hrefuse|].
  destruct (Z.ltb_spec MAX_WQES (ei_rx_cap info)) as [|Hcm]; [exact Hrefuse|].
  destruct (Z.ltb_spec MAX_WQES (ei_rx_idx info)) as [|_]; [exact Hrefuse|]. clear Hrefuse. cbn [orb].
  destruct (map_peer_cases (h_ntc h) (ei_rx_cqe_buf_desc info) w) as (rc & cqe & w1 & -> & Hb1 & Hc1).
  set (e1 := eth_set_tx _ e).
  destruct Hc1 as [(Hn & Hz & Hm1)|[-> Hm1]].
  { rewrite (proj2 (Z.ltb_lt _ _)) by done. eexists _, _, _. split; [reflexivity|]. left. split; [done|].
    split; [by split|]. split; [done|]. split; [by rewrite Hb1|done]. }
  cbn [Z.ltb Z.compare].
  destruct (map_peer_cases (h_ntc h) (ei_rx_cons_buf_desc info) w1) as (rc & cons_buf & w2 & -> & Hb2 & Hc2).
  set (e2 := eth_set_tx (tx_set_peer cqe cons_buf _) e1).
  destruct Hc2 as [(Hn & Hz & Hm2)|[-> Hm2]].
  { rewrite (proj2 (Z.ltb_lt _ _)) by done. destruct (err_cons_spec e2 w2) as (e' & w' & -> & Hk & Hp' & Hb & Hm).
    eexists _, _, _. split; [reflexivity|]. left. split; [done|].
    split; [by destruct Hk; split|]. split; [by rewrite Hp'|]. split; [by rewrite Hb, Hb2, Hb1|].
    eapply moves_eq; [| | |eapply moves_trans; [exact (moves_trans _ _ _ _ _ _ _ _ _ Hm1 Hm2)|exact Hm]]; cbn; lia. }
  cbn [Z.ltb Z.compare]. set (e3 := eth_set_tx _ (eth_set_hello _ _ _ e2)).
  destruct (prep_bufs_spec h peer Hok (ei_rx_cap info) (ei_rx_idx info) ltac:(lia) e3 w2) as (rc & e' & w' & -> & Hcase);
    [done|done|done|done|by rewrite Hb2, Hb1|].
  pose proof (moves_trans _ _ _ _ _ _ _ _ _ Hm1 Hm2) as Hm12. eexists _, _, _. split; [reflexivity|].
  destruct Hcase as [(Hn & Hk & Hp' & Hh' & Hm)|(-> & Hk & Hpr & Hve & Hq & Hco & Hm)]; [left|right]; (split; [done|]).
  - split; [by destruct Hk; split|]. split; [done|]. split; [done|].
    eapply moves_eq; [| | |eapply moves_trans; [exact Hm12|exact Hm]]; cbn; lia.
  - split; [by destruct Hk; split|]. split; [done|]. split; [done|]. split; [done|]. rewrite Hq, Hco.
    eapply moves_eq; [| | |eapply moves_trans; [exact Hm12|exact Hm]]; cbn; lia.
Qed.

Lemma unprep_spec e w :
  eth_hello_prep e = true → holds h (ew_bw w) (et_prod_buf (eth_txr e) :: et_wqe_buf (eth_txr e) :: own_bufs e) →
  local_held (et_cqe_buf (eth_txr e)) →
  ∃ e' w', hello_unprep (h_ntc h) e w = Some (e', w') ∧ keeps e e' ∧ eth_hello_prep e' = false ∧ holds h (ew_bw w') (own_bufs e)
    ∧ moves (- 1) (- 1) (- mapped (et_peer_cqe_buf (eth_txr e)) - mapped (et_peer_cons_buf (eth_txr e))) w w'.
Proof.
  intros Hf Hm Hl. unfold hello_unprep. rewrite Hf. cbn [negb].
  destruct (free_export h peer Hok _ _ w Hm) as (bw & Hfree & Hh & Hmv). 
  change (et_prod_buf (eth_txr (eth_set_hello (eth_peer_vbell_idx e) (eth_hello_done e) false e))) with (et_prod_buf (eth_txr e)).
  rewrite Hfree. set (e1 := eth_set_tx _ _). set (w1 := ew_set_bw bw w) in *.
  destruct (err_prod_spec h peer Hok e1 w1 (own_bufs e) Hh Hl) as (e' & w' & -> & Hk & Hp & Hh' & Hm').
  eexists _, _. split; [reflexivity|]. split; [by destruct Hk; split|]. split; [done|]. split; [done|].
  eapply moves_eq; [| | |eapply moves_trans; [exact Hmv|exact Hm']]; cbn; lia.
Qed.

End Exchange.

(** ** Reset *)

Section Reset.
Context (h peer : host) (Hok : host_ok h peer) (own : list ntc_export_buf).

Abbreviation slots h := (slots_ok (h_info h) (h_memory h) (h_region h) (h_words h) (h_cap h) lmin own).

Lemma drain_slots_spec n pos r w bufs lens C :
  slots h r (ew_bw w) bufs lens C → run_at (h_cap h) C pos n → (C + n ≤ length bufs)%nat →
  ∃ x w', drain_slots (h_ntc h) n pos r w = Some (rx_set_slots x (er_wqes r) r, w')
    ∧ slots h (rx_set_slots x (er_wqes r) r) (ew_bw w') bufs lens (C + n) ∧ moves 0 0 0 w w'.
Proof.
  revert pos r w C. induction n as [|n IH]; intros pos r w C S Hrun Hle; cbn [drain_slots].
  { exists (er_buf r), w. rewrite Nat.add_0_r. destruct r. split; [done|]. split; [done|]. constructor; try done; lia. }
  apply (run_at_S _ _ _ _ (ho_cap _ _ Hok)) in Hrun as [-> Hrun].
  destruct (lookup_lt_is_Some_2 bufs C) as [b Hb]; [lia|].
  pose proof (so_bufs _ _ _ _ _ _ _ _ _ _ _ _ S) as [_ Hbufs]. rewrite Hbufs, Hb by lia.
  destruct (free_slot _ _ _ _ _ (ho_window _ _ Hok) _ (ho_cap _ _ Hok) _ _ r w bufs lens C b S Hb) as (bw & Hf & S1). rewrite Hf.
  destruct (export_free_counts _ _ _ _ _ _ _ _ (ho_window _ _ Hok) Hf) as [Hk Hd].
  destruct (IH (nslot (h_cap h) C + 1) _ (ew_set_bw bw w) (Datatypes.S C) S1 Hrun ltac:(lia)) as (x & w' & E & S' & Hm).
  exists x, w'. cbn [er_wqes rx_set_slots] in *. rewrite E. split; [done|]. rewrite Nat.add_succ_r. split; [done|].
  destruct Hm as [M1 M2 M3 M4]. cbn in *. constructor; try done; lia.
Qed.

Lemma drain_loop_spec fuel r w bufs lens C :
  slots h r (ew_bw w) bufs lens C → er_prod r = nenc (h_cap h) (length bufs) → er_cmpl r = nenc (h_cap h) C →
  (passes (h_cap h) C (length bufs) ≤ fuel)%nat →
  ∃ x w', rx_drain_loop (h_ntc h) fuel r w = Some (rx_set_ring (er_prod r) (er_prod r) (rx_set_slots x (er_wqes r) r), w')
    ∧ length x = length (er_buf r) ∧ holds h (ew_bw w') own ∧ moves 0 0 0 w w'.
Proof.
  revert r w C. induction fuel as [|fuel IH]; intros r w C S Hp Hc Hfuel.
  { unfold passes in Hfuel. repeat destruct (decide _); lia. }
  pose proof (ho_cap _ _ Hok) as Hcap. pose proof (so_window _ _ _ _ _ _ _ _ _ _ _ _ S) as [Hle Hw].
  pose proof (so_cap _ _ _ _ _ _ _ _ _ _ _ _ S) as Hrc. pose proof (nslot_range _ Hcap C) as Hr.
  cbn [rx_drain_loop]. rewrite Hp, Hc, Hrc, (consume_nenc _ (length bufs) C Hcap) by lia. cbn [r_idx r_end r_base].
  set (k := Z.to_nat (Z.min (Z.of_nat (length bufs - C)) (h_cap h - nslot (h_cap h) C))).
  replace (Z.min (Z.of_nat (length bufs - C)) (h_cap h - nslot (h_cap h) C)) with (Z.of_nat k) by (unfold k; lia).
  replace (nslot (h_cap h) C + Z.of_nat k - nslot (h_cap h) C) with (Z.of_nat k) by lia. rewrite Nat2Z.id.
  destruct (drain_slots_spec k (nslot (h_cap h) C) r w bufs lens C S) as (x & w1 & -> & S1 & Hm1);
    [right; split; [done|unfold k; lia]|unfold k; lia|].
  cbn [er_cap er_prod rx_set_slots]. rewrite Hrc, (moved_index _ C k Hcap), Hp by (unfold k; lia).
  assert (length x = length (er_buf r)) as Hlx.
  { pose proof (so_bufs_len _ _ _ _ _ _ _ _ _ _ _ _ S1). pose proof (so_bufs_len _ _ _ _ _ _ _ _ _ _ _ _ S). cbn in *. lia. }
  destruct (Z.eqb_spec (nslot (h_cap h) C) (nslot (h_cap h) C + Z.of_nat k)) as [He|Hne].
  - assert (C + k = length bufs)%nat as HC by (unfold k in *; lia). rewrite HC. exists x, w1. split; [done|]. split; [done|].
    split; [|done]. pose proof (so_mem _ _ _ _ _ _ _ _ _ _ _ _ S1) as Hh. by rewrite HC, drop_ge, app_nil_r in Hh by lia.
  - destruct (IH _ w1 (C + k)%nat (slots_ok_ring _ _ _ _ _ _ _ (nenc (h_cap h) (length bufs)) (nenc (h_cap h) (C + k)) _ _ _ _ _ S1))
      as (x' & w' & E & Hlx' & Hh & Hm); [done|done|pose proof (passes_next _ Hcap C (length bufs) k); unfold k in *; lia|].
    exists x', w'. cbn [er_prod er_wqes er_buf rx_set_ring rx_set_slots] in *. rewrite E. split; [done|]. split; [congruence|].
    split; [done|]. eapply moves_eq; [| | |eapply moves_trans; [exact Hm1|exact Hm]]; lia.
Qed.

End Reset.

(** The receive ring is given back. *)
Lemma undone_spec h peer e w bufs lens C own :
  host_ok h peer → eth_hello_done e = true →
  slots_ok (h_info h) (h_memory h) (h_region h) (h_words h) (h_cap h) lmin own (eth_rxr e) (ew_bw w) bufs lens C →
  er_prod (eth_rxr e) = nenc (h_cap h) (length bufs) → er_cmpl (eth_rxr e) = nenc (h_cap h) C →
  Z.of_nat (length (er_cqes (eth_rxr e))) = h_cap h → rx_valid (h_cap h) (eth_rxr e) →
  ∃ e' w', hello_undone (h_ntc h) e w = Some (e', w')
    ∧ (∃ r', e' = eth_set_hello (eth_peer_vbell_idx e) false (eth_hello_prep e) (eth_set_rx r' e)
        ∧ er_cap r' = h_cap h ∧ Z.of_nat (length (er_buf r')) = h_cap h ∧ Z.of_nat (length (er_wqes r')) = h_cap h
        ∧ Z.of_nat (length (er_cqes r')) = h_cap h ∧ rx_valid (h_cap h) r' ∧ er_cqe_buf r' = er_cqe_buf (eth_rxr e)
        ∧ er_cons_buf r' = er_cons_buf (eth_rxr e)
        ∧ ∃ base, er_prod r' = nenc (h_cap h) base ∧ er_cmpl r' = nenc (h_cap h) base ∧ er_cons r' = nenc (h_cap h) base)
    ∧ holds h (ew_bw w') own
    ∧ moves 0 0 (- mapped (er_peer_wqe_buf (eth_rxr e)) - mapped (er_peer_prod_buf (eth_rxr e))) w w'.
Proof.
  intros Hok Hd S Hp Hc Hql Hval. unfold hello_undone. rewrite Hd. cbn [negb].
  set (e1 := eth_set_hello _ _ _ e). unfold ntrdma_dev_eth_rx_drain.
  destruct (drain_loop_spec h peer Hok own 3 (eth_rxr e) w bufs lens C S Hp Hc) as (x & w1 & E & Hlx & Hh & Hm).
  { unfold passes. repeat destruct (decide _); lia. }
  change (eth_rxr e1) with (eth_rxr e). rewrite E. set (r1 := rx_set_ring _ _ _).
  assert (fst (ntc_export_buf_reinit (er_cons_buf r1) 0 4) = 0) as Hre.
  { destruct Hval as [[p Hv] _]. unfold r1. cbn [er_cons_buf rx_set_ring rx_set_slots]. unfold ntc_export_buf_const_deref in Hv.
    unfold ntc_export_buf_reinit. destruct (negb _); [done|]. by destruct (_ =? 0). }
  destruct (ntc_export_buf_reinit _ _ _) as [rc seg]. cbn [fst] in Hre. subst rc. cbn [Z.ltb Z.compare].
  set (r2 := rx_set_mem _ r1). cbv zeta. eexists _, _. split; [reflexivity|].
  destruct (unmap_moves (er_peer_prod_buf r2) w1) as [Hm1 Hb1].
  destruct (unmap_moves (er_peer_wqe_buf r2) (unmap_peer (er_peer_prod_buf r2) w1)) as [Hm2 Hb2]. split; [|split].
  - exists (rx_set_peer ntc_remote_buf_clear ntc_remote_buf_clear r2). split; [done|].
    pose proof (so_bufs_len _ _ _ _ _ _ _ _ _ _ _ _ S). split; [by destruct S|]. split; [cbn; lia|].
    split; [by destruct S|]. split; [done|]. split; [done|]. split; [done|]. split; [done|]. exists (length bufs). cbn. done.
  - by rewrite Hb2, Hb1.
  - eapply moves_eq; [| | |eapply moves_trans; [exact Hm|eapply moves_trans; [exact Hm1|exact Hm2]]]; cbn; lia.
Qed.

Lemma ring_perm h bw e :
  holds h bw (ring_bufs e) → holds h bw (et_prod_buf (eth_txr e) :: et_wqe_buf (eth_txr e) :: own_bufs e).
Proof.
  intros H. apply (holds_swap _ _ _ _ bw [er_cqe_buf (eth_rxr e); er_cons_buf (eth_rxr e)]) in H.
  by apply (holds_swap _ _ _ _ bw [et_wqe_buf (eth_txr e); er_cqe_buf (eth_rxr e); er_cons_buf (eth_rxr e)]) in H.
Qed.

Lemma perm_ring h bw e :
  holds h bw (et_prod_buf (eth_txr e) :: et_wqe_buf (eth_txr e) :: own_bufs e) → holds h bw (ring_bufs e).
Proof.
  intros H. apply (holds_swap _ _ _ _ bw [et_prod_buf (eth_txr e)]) in H.
  apply (holds_swap _ _ _ _ bw [et_wqe_buf (eth_txr e); et_prod_buf (eth_txr e); er_cqe_buf (eth_rxr e)]) in H.
  by apply (holds_swap _ _ _ _ bw [er_cons_buf (eth_rxr e); et_wqe_buf (eth_txr e); et_prod_buf (eth_txr e)]) in H.
Qed.

(** A reset of a device that has been set up, whatever it has done since. *)
Lemma reset_spec h peer e w bufs lens C :
  host_ok h peer → settled e w → mtu_ok lmin (en_mtu (eth_netdev e)) →
  slots_ok (h_info h) (h_memory h) (h_region h) (h_words h) (h_cap h) lmin (ring_bufs e) (eth_rxr e) (ew_bw w) bufs lens C →
  er_prod (eth_rxr e) = nenc (h_cap h) (length bufs) → er_cmpl (eth_rxr e) = nenc (h_cap h) C →
  Z.of_nat (length (er_cqes (eth_rxr e))) = h_cap h → rx_valid (h_cap h) (eth_rxr e) →
  ∃ e' w', ntrdma_dev_eth_reset (h_ntc h) e w = Some (e', w') ∧ idle h e' w'
    ∧ moves (- 1) (- 1) (- mapped (er_peer_wqe_buf (eth_rxr e)) - mapped (er_peer_prod_buf (eth_rxr e))
        - mapped (et_peer_cqe_buf (eth_txr e)) - mapped (et_peer_cons_buf (eth_txr e))) w w'.
Proof.
  intros Hok (Hvl & Hd & Hp & Hi & Hl) Hmtu S Hpr Hcm Hql Hval. unfold ntrdma_dev_eth_reset.
  destruct (undone_spec h peer e w bufs lens C _ Hok Hd S Hpr Hcm Hql Hval) as
    (e1 & w1 & -> & (r' & He1 & R1 & R2 & R3 & R4 & R5 & R6 & R7 & Rb) & Hh & Hm).
  assert (own_bufs e1 = own_bufs e) as Hob by (rewrite He1; unfold own_bufs; cbn; by rewrite R6, R7).
  destruct (unprep_spec h peer Hok e1 w1) as (e' & w' & -> & [K1 K2 K3 K4 K5] & Hp' & Hh' & Hm').
  { by rewrite He1. }
  { rewrite Hob, He1. exact (ring_perm h _ e Hh). }
  { by rewrite He1. }
  exists e', w'. split; [done|]. rewrite He1 in *. cbn in K1, K2, K3, K4. split.
  - constructor; rewrite ?K1, ?K2, ?K3, ?K4; try done.
    + unfold own_bufs in *. by rewrite K1.
    + split; [done|]. by rewrite (mv_vb _ _ _ _ _ Hm'), (mv_vb _ _ _ _ _ Hm).
  - eapply moves_eq; [| | |eapply moves_trans; [exact Hm|exact Hm']]; cbn; lia.
Qed.

(** After any run. *)
Lemma run_reset ha hb A B base base' :
  host_ok ha hb → both bus lmin short ha hb A B base base' →
  ∃ e' w', ntrdma_dev_eth_reset (h_ntc ha) (sd_eth A) (sd_world A) = Some (e', w') ∧ idle ha e' w'.
Proof.
  intros Hok (_ & (bufs & lens & fs & C & X & VD & VC & f & [Sl Pr Cm Rx Se Tx De Cq Fr Hd St Sk Sn Ba Go]) & (Hb & Hm & Hs)).
  destruct (reset_spec ha hb (sd_eth A) (sd_world A) bufs lens C Hok Hs Hm Sl Pr Cm) as (e' & w' & E & Hid & _); [|done|by exists e', w'].
  by destruct Cq.
Qed.

(** The other call of an exchange. *)
Lemma done_spec ntc pp e w :
  ∃ rc e' w', ntrdma_dev_eth_hello_done ntc pp e w = (rc, e', w') ∧ ew_bw w' = ew_bw w
    ∧ ((rc < 0 ∧ (∃ a b, e' = eth_set_rx (rx_set_peer a b (eth_rxr e)) e) ∧ moves 0 0 0 w w')
       ∨ (rc = 0 ∧ ∃ a b, e' = eth_set_hello (eth_peer_vbell_idx e) true (eth_hello_prep e) (eth_set_rx (rx_set_peer a b (eth_rxr e)) e)
          ∧ moves 0 0 (mapped a + mapped b) w w')).
Proof.
  unfold ntrdma_dev_eth_hello_done.
  destruct (map_peer_cases ntc (ep_tx_wqe_buf_desc pp) w) as (rc & a & w1 & -> & Hb1 & Hc1).
  destruct Hc1 as [(Hn & Hz & Hm1)|[-> Hm1]].
  { rewrite (proj2 (Z.ltb_lt _ _)) by done. eexists _, _, _. split; [reflexivity|]. split; [done|]. left. split; [done|].
    split; [by eexists _, _|done]. }
  cbn [Z.ltb Z.compare].
  destruct (map_peer_cases ntc (ep_tx_prod_buf_desc pp) w1) as (rc & b & w2 & -> & Hb2 & Hc2).
  destruct Hc2 as [(Hn & Hz & Hm2)|[-> Hm2]].
  { rewrite (proj2 (Z.ltb_lt _ _)) by done. eexists _, _, _. split; [reflexivity|].
    destruct (unmap_moves a w2) as [Hm3 Hb3]. split; [by rewrite Hb3, Hb2|]. left. split; [done|]. split; [by eexists _, _|].
    eapply moves_eq; [| | |eapply moves_trans; [exact Hm1|eapply moves_trans; [exact Hm2|exact Hm3]]]; lia. }
  cbn [Z.ltb Z.compare]. eexists _, _, _. split; [reflexivity|]. split; [by rewrite Hb2|]. right. split; [done|].
  exists a, b. split; [done|]. eapply moves_eq; [| | |eapply moves_trans; [exact Hm1|exact Hm2]]; lia.
Qed.

(** ** An exchange on one host *)

(** Both calls were answered. *)
Record set_up (h : host) (info : ntrdma_eth_hello_info) (e e' : ntrdma_eth) (w w' : eth_world) : Prop := {
  su_rx : ∃ a b, eth_rxr e' = rx_set_peer a b (eth_rxr e)
    ∧ moves 1 1 (mapped (et_peer_cqe_buf (eth_txr e')) + mapped (et_peer_cons_buf (eth_txr e')) + mapped a + mapped b) w w';
  su_tx : prepared h (ei_rx_cap info) (ei_rx_idx info) e' w';
  su_bell : eth_peer_vbell_idx e' = ei_vbell_idx info;
  su_net : eth_netdev e' = eth_netdev e;
  su_settled : settled e' w' }.

Lemma eth_set_up_ok h info pp e w e1 w1 e2 w2 :
  idle h e w → exchanged h info e e1 w w1 → ntrdma_dev_eth_hello_done (h_ntc h) pp e1 w1 = (0, e2, w2) →
  set_up h info e e2 w w2.
Proof.
  intros Hid (Hk & Hpr & Hv & Hb & Hm) Hd. destruct Hk as [K1 K2 K3 K4 _].
  destruct (done_spec (h_ntc h) pp e1 w1) as (rc & e' & w' & E & Hbw & Hc). rewrite E in Hd. injection Hd as -> -> ->.
  destruct Hc as [[Hn _]|(_ & a & b & -> & Hm2)]; [lia|]. destruct Hpr as [P1 P2 P3 P4 P5].
  pose proof (moves_trans _ _ _ _ _ _ _ _ _ Hm Hm2) as Hm12.
  constructor; try done.
  - exists a, b. split; [by rewrite <- K1|]. eapply moves_eq; [| | |exact Hm12]; cbn; lia.
  - constructor; try done. by rewrite Hbw.
  - destruct (id_vbell _ _ _ Hid) as [Hi Hl]. split; [by rewrite (mv_vb _ _ _ _ _ Hm12)|]. cbn. rewrite K2. done.
Qed.

(** Whatever the exchange came to, a reset gives back what it took. *)
Lemma exchange_reset h peer info pp e w e1 w1 :
  host_ok h peer → idle h e w → exchanged h info e e1 w w1 →
  let '(_, e2, w2) := ntrdma_dev_eth_hello_done (h_ntc h) pp e1 w1 in
  ∃ e3 w3, ntrdma_dev_eth_reset (h_ntc h) e2 w2 = Some (e3, w3) ∧ idle h e3 w3 ∧ moves 0 0 0 w w3.
Proof.
  intros Hok Hid Hex. destruct (done_spec (h_ntc h) pp e1 w1) as (rc & e2 & w2 & E & Hbw & Hc). rewrite E.
  destruct Hid as [(R1 & R2 & R3 & R4) (base & B1 & B2 & B3) V M F VB MT] eqn:Hid'. pose proof Hid as Hidle. clear Hid' Hid.
  destruct Hc as [(Hn & (a & b & ->) & Hm)|(-> & _)].
  - destruct Hex as (Hk & [P1 P2 P3 P4 P5] & Hv & Hb & Hm1). destruct Hk as [K1 K2 K3 K4 K5]. unfold ntrdma_dev_eth_reset, hello_undone.
    replace (eth_hello_done (eth_set_rx (rx_set_peer a b (eth_rxr e1)) e1)) with false by (cbn; rewrite K4; by destruct F).
    cbn [negb]. set (e2 := eth_set_rx _ e1).
    destruct (unprep_spec h peer Hok e2 w2) as (e' & w' & -> & [Q1 Q2 Q3 Q4 Q5] & Hp' & Hh & Hm2); [done| |done|].
    { rewrite Hbw. exact P4. }
    exists e', w'. split; [done|]. assert (moves 0 0 0 w w') as Hmv.
    { eapply moves_eq; [| | |eapply moves_trans; [exact Hm1|eapply moves_trans; [exact Hm|exact Hm2]]]; cbn; lia. }
    split; [|done]. cbn in Q1, Q2, Q3, Q4. destruct F as [F1 F2].
    constructor; unfold own_bufs in *; rewrite ?Q1, ?Q2, ?Q3, ?Q4, ?K1, ?K2, ?K3, ?K4, ?(mv_vb _ _ _ _ _ Hmv); try done.
    + by exists base.
    + cbn in Hh. by rewrite K1 in Hh.
  - destruct (eth_set_up_ok h info pp e w e1 w1 e2 w2 Hidle Hex E) as [(a & b & Hr & Hm) [P1 P2 P3 P4 P5] Sb Sn Ss].
    destruct (reset_spec h peer e2 w2 (replicate base (mk_export_buf 0 0 (h_info h) 0 false)) (replicate base 0) base Hok Ss)
      as (e3 & w3 & -> & Hid3 & Hm3); rewrite ?Sn, ?Hr, ?length_replicate; try done.
    + apply empty_slots; try done; [apply (ho_cap _ _ Hok)|]. by apply perm_ring.
    + exists e3, w3. split; [done|]. split; [done|].
      eapply moves_eq; [| | |eapply moves_trans; [exact Hm|exact Hm3]]; rewrite ?Hr; cbn; lia.
Qed.

(** ** An exchange between two hosts *)

(** The two tell each other where their rings are, prepare for the ring of the
    other, tell each other where, and map that. *)
Definition hello_exchange (ha hb : host) (sa sb : ntrdma_eth * eth_world) : option (side * side) :=
  let '(rca, ia) := ntrdma_dev_eth_hello_info (fst sa) in
  let '(rcb, ib) := ntrdma_dev_eth_hello_info (fst sb) in
  if negb (rca =? 0) || negb (rcb =? 0) then None
  else
    match ntrdma_dev_eth_hello_prep (h_ntc ha) ib (fst sa) (snd sa), ntrdma_dev_eth_hello_prep (h_ntc hb) ia (fst sb) (snd sb) with
    | Some (_, ea, wa, Some pa), Some (_, eb, wb, Some pb) =>
        let '(ra, ea, wa) := ntrdma_dev_eth_hello_done (h_ntc ha) pb ea wa in
        let '(rb, eb, wb) := ntrdma_dev_eth_hello_done (h_ntc hb) pa eb wb in
        if negb (ra =? 0) || negb (rb =? 0) then None
        else Some (mk_side ea wa [] [] [], mk_side eb wb [] [] [])
    | _, _ => None
    end.

Lemma hello_prep_some h peer info e w rc e' w' p :
  host_ok h peer → idle h e w → 0 < ei_rx_cap info →
  ntrdma_dev_eth_hello_prep (h_ntc h) info e w = Some (rc, e', w', Some p) → exchanged h info e e' w w'.
Proof.
  intros Hok Hid Hc. unfold ntrdma_dev_eth_hello_prep.
  destruct (hello_prep_cases h peer Hok info e w Hid Hc) as (rc' & e1 & w1 & -> & [[Hn _]|[-> Hx]]).
  - rewrite (proj2 (Z.eqb_neq _ _)) by lia. done.
  - cbn. by intros [= <- <- <- _].
Qed.

Lemma hello_info_fields e rc info :
  ntrdma_dev_eth_hello_info e = (rc, info) → rc = 0 →
  ei_rx_cap info = er_cap (eth_rxr e) ∧ ei_rx_idx info = er_cmpl (eth_rxr e) ∧ ei_vbell_idx info = eth_vbell_idx e.
Proof. unfold ntrdma_dev_eth_hello_info. destruct (_ || _); intros [= <- <-]; [done|]. done. Qed.

Lemma set_up_fresh ha hb ia ib ea ea' wa wa' eb eb' wb wb' base :
  idle hb eb wb → er_prod (eth_rxr eb) = nenc (h_cap hb) base → er_cmpl (eth_rxr eb) = nenc (h_cap hb) base →
  er_cons (eth_rxr eb) = nenc (h_cap hb) base →
  set_up ha ib ea ea' wa wa' → set_up hb ia eb eb' wb wb' →
  ei_rx_cap ib = er_cap (eth_rxr eb) → ei_rx_idx ib = er_cmpl (eth_rxr eb) →
  fresh hb (mk_side ea' wa' [] [] []) (mk_side eb' wb' [] [] []) base.
Proof.
  intros [(R1 & R2 & R3 & R4) _ V M F VB MT] B1 B2 B3 [_ [P1 P2 P3 P4 P5] _ _ _] [(a & b & Hr & _) [Q1 Q2 Q3 Q4 Q5] _ _ _] Hc Hi.
  rewrite Hc, R1 in P2, P3. rewrite Hi, B2 in P2.
  constructor; cbn [sd_eth sd_world sd_wire sd_sent sd_got]; rewrite ?Hr; try done. by apply perm_ring.
Qed.

Lemma set_up_side ha hb ib ea ea' wa wa' eb wb :
  idle ha ea wa → idle hb eb wb → set_up ha ib ea ea' wa wa' → ei_vbell_idx ib = eth_vbell_idx eb →
  side_ok lmin (mk_side ea' wa' [] [] []).
Proof.
  intros Ha Hb [_ _ Sb Sn Ss] Hv. destruct (id_vbell _ _ _ Hb) as [Hi _]. pose proof (id_mtu _ _ _ Ha) as Hm.
  unfold side_ok, bell_ok. cbn. rewrite Sb, Sn, Hv. split; [|done]. destruct Ss as [Hl _]. rewrite Hl. lia.
Qed.

(** An exchange that is answered connects the rings. *)
Lemma exchange_start ha hb ea wa eb wb n :
  host_ok ha hb → host_ok hb ha → idle ha ea wa → idle hb eb wb → hello_exchange ha hb (ea, wa) (eb, wb) = Some n →
  ∃ base base', net_start lmin ha hb base base' n.
Proof.
  intros Hoa Hob Ha Hb. unfold hello_exchange. cbn [fst snd].
  destruct (ntrdma_dev_eth_hello_info ea) as [rca ia] eqn:Eia. destruct (ntrdma_dev_eth_hello_info eb) as [rcb ib] eqn:Eib.
  destruct (Z.eqb_spec rca 0) as [Ha0|]; [|done]. destruct (Z.eqb_spec rcb 0) as [Hb0|]; [|done]. cbn [negb orb].
  destruct (hello_info_fields _ _ _ Eia Ha0) as (A1 & A2 & A3). destruct (hello_info_fields _ _ _ Eib Hb0) as (B1 & B2 & B3).
  destruct (id_rx _ _ _ Ha) as [Ra _]. destruct (id_rx _ _ _ Hb) as [Rb _].
  pose proof (ho_cap _ _ Hoa) as Ca. pose proof (ho_cap _ _ Hob) as Cb. unfold cap_ok in Ca, Cb.
  assert (0 < ei_rx_cap ia ∧ 0 < ei_rx_cap ib) as [Pa Pb] by lia.
  destruct (ntrdma_dev_eth_hello_prep (h_ntc ha) ib ea wa) as [[[[rc1 ea1] wa1] [pa|]]|] eqn:E1; [|done|done].
  destruct (ntrdma_dev_eth_hello_prep (h_ntc hb) ia eb wb) as [[[[rc2 eb1] wb1] [pb|]]|] eqn:E2; [|done|done].
  destruct (ntrdma_dev_eth_hello_done (h_ntc ha) pb ea1 wa1) as [[ra ea2] wa2] eqn:E3.
  destruct (ntrdma_dev_eth_hello_done (h_ntc hb) pa eb1 wb1) as [[rb eb2] wb2] eqn:E4.
  destruct (Z.eqb_spec ra 0) as [->|]; [|done]. destruct (Z.eqb_spec rb 0) as [->|]; [|done]. cbn [negb orb]. intros [= <-].
  pose proof (eth_set_up_ok ha ib pb ea wa ea1 wa1 ea2 wa2 Ha (hello_prep_some _ _ _ _ _ _ _ _ _ Hoa Ha Pb E1) E3) as Sa.
  pose proof (eth_set_up_ok hb ia pa eb wb eb1 wb1 eb2 wb2 Hb (hello_prep_some _ _ _ _ _ _ _ _ _ Hob Hb Pa E2) E4) as Sb.
  destruct (id_base _ _ _ Ha) as (ba & Ba1 & Ba2 & Ba3). destruct (id_base _ _ _ Hb) as (bb & Bb1 & Bb2 & Bb3).
  exists bb, ba. split; [by eapply (set_up_fresh ha hb ia ib)|]. split; [by eapply (set_up_fresh hb ha ib ia)|].
  split; [by eapply (set_up_side ha hb)|by eapply (set_up_side hb ha)].
Qed.

(** ** The life of a device *)

Section Life.
Context (h peer : host) (Hok : host_ok h peer) (Hcap : h_cap h <= MAX_WQES).

Lemma kput_moves w : moves (- 1) 0 0 w (kput w) ∧ bw_mm (ew_bw (kput w)) = bw_mm (ew_bw w).
Proof. split; [|done]. constructor; cbn; try done; lia. Qed.

Lemma get_kmem w :
  let '(p, bw) := kmalloc_node (ew_bw w) in
  bw_mm bw = bw_mm (ew_bw w) ∧ ((p = 0 ∧ moves 0 0 0 w (ew_set_bw bw w)) ∨ (p ≠ 0 ∧ moves 1 0 0 w (ew_set_bw bw w))).
Proof.
  unfold kmalloc_node. destruct (kalloc _) eqn:E.
  - split; [done|]. right. pose proof (kaddr_pos (bw_time (ew_bw w))). split; [lia|]. constructor; cbn; try done; lia.
  - split; [done|]. left. split; [done|]. constructor; cbn; try done; lia.
Qed.

(** The ring of a new device. *)
Definition new_ring (r : eth_rx) : Prop :=
  er_cap r = h_cap h ∧ er_prod r = 0 ∧ er_cmpl r = 0 ∧ Z.of_nat (length (er_buf r)) = h_cap h
  ∧ Z.of_nat (length (er_wqes r)) = h_cap h.

Lemma err_wqe_buf_spec r w base :
  er_cap r = h_cap h → er_prod r = nenc (h_cap h) base → er_cmpl r = nenc (h_cap h) base →
  Z.of_nat (length (er_buf r)) = h_cap h → Z.of_nat (length (er_wqes r)) = h_cap h → holds h (ew_bw w) [] →
  ∃ w', err_rx_wqe_buf (h_ntc h) r w = Some w' ∧ moves (- 2) 0 0 w w' ∧ holds h (ew_bw w') [].
Proof.
  intros Rc Rp Rm Rb Rw Hh. unfold err_rx_wqe_buf, ntrdma_dev_eth_rx_drain.
  pose proof (empty_slots lmin h r (ew_bw w) [] base (ho_cap _ _ Hok) Rc Rb Rw Hh) as S.
  destruct (drain_loop_spec h peer Hok [] 3 r w _ _ base S) as (x & w1 & -> & _ & Hh1 & Hm1);
    [by rewrite length_replicate|done|rewrite length_replicate; unfold passes; repeat destruct (decide _); lia|].
  destruct (kput_moves w1) as [Hk1 Hb1]. destruct (kput_moves (kput w1)) as [Hk2 Hb2].
  eexists. split; [reflexivity|]. split.
  - eapply moves_eq; [| | |eapply moves_trans; [exact Hm1|eapply moves_trans; [exact Hk1|exact Hk2]]]; lia.
  - eapply holds_same; [|exact Hh1]. by rewrite Hb2, Hb1.
Qed.

Lemma err_cqe_buf_spec r w base :
  er_cap r = h_cap h → er_prod r = nenc (h_cap h) base → er_cmpl r = nenc (h_cap h) base →
  Z.of_nat (length (er_buf r)) = h_cap h → Z.of_nat (length (er_wqes r)) = h_cap h → holds h (ew_bw w) [] →
  local_held (er_wqe_buf r) →
  ∃ w', err_rx_cqe_buf (h_ntc h) r w = Some w' ∧ moves (- 3) (- 1) 0 w w' ∧ holds h (ew_bw w') [].
Proof.
  intros Rc Rp Rm Rb Rw Hh Hl. unfold err_rx_cqe_buf. destruct (local_free_moves _ w Hl) as [Hm Hb].
  set (w1 := ew_set_bw _ w) in *.
  destruct (err_wqe_buf_spec r w1 base Rc Rp Rm Rb Rw) as (w' & -> & Hm' & Hh'); [by eapply holds_same|].
  exists w'. split; [done|]. split; [|done]. eapply moves_eq; [| | |eapply moves_trans; [exact Hm|exact Hm']]; lia.
Qed.

Lemma err_cons_buf_spec r w base :
  er_cap r = h_cap h → er_prod r = nenc (h_cap h) base → er_cmpl r = nenc (h_cap h) base →
  Z.of_nat (length (er_buf r)) = h_cap h → Z.of_nat (length (er_wqes r)) = h_cap h → holds h (ew_bw w) [er_cqe_buf r] →
  local_held (er_wqe_buf r) →
  ∃ w', err_rx_cons_buf (h_ntc h) r w = Some w' ∧ moves (- 3) (- 1) 0 w w' ∧ holds h (ew_bw w') [].
Proof.
  intros Rc Rp Rm Rb Rw Hh Hl. unfold err_rx_cons_buf. destruct (free_export h peer Hok _ _ w Hh) as (bw & -> & Hh1 & Hm).
  destruct (err_cqe_buf_spec r (ew_set_bw bw w) base Rc Rp Rm Rb Rw Hh1 Hl) as (w' & -> & Hm' & Hh').
  exists w'. split; [done|]. split; [|done]. eapply moves_eq; [| | |eapply moves_trans; [exact Hm|exact Hm']]; lia.
Qed.

Lemma err_register_spec r w base :
  er_cap r = h_cap h → er_prod r = nenc (h_cap h) base → er_cmpl r = nenc (h_cap h) base →
  Z.of_nat (length (er_buf r)) = h_cap h → Z.of_nat (length (er_wqes r)) = h_cap h →
  holds h (ew_bw w) [er_cqe_buf r; er_cons_buf r] → local_held (er_wqe_buf r) →
  ∃ w', err_register (h_ntc h) r w = Some w' ∧ moves (- 3) (- 1) 0 w w' ∧ holds h (ew_bw w') [].
Proof.
  intros Rc Rp Rm Rb Rw Hh Hl. unfold err_register. set (w0 := ew_set_io _ w).
  apply (holds_swap _ _ _ _ _ [er_cqe_buf r]) in Hh.
  destruct (free_export h peer Hok _ _ w0 Hh) as (bw & -> & Hh1 & Hm).
  destruct (err_cons_buf_spec r (ew_set_bw bw w0) base Rc Rp Rm Rb Rw Hh1 Hl) as (w' & -> & Hm' & Hh').
  exists w'. split; [done|]. split; [|done].
  assert (moves 0 0 0 w w0) as H0 by (constructor; cbn; try done; lia).
  eapply moves_eq; [| | |eapply moves_trans; [exact H0|eapply moves_trans; [exact Hm|exact Hm']]]; lia.
Qed.

(** A device that comes up is idle and holds what it took; one that does not has
    given it back. *)
Definition came_up (k d : Z) (w w1 : eth_world) (rc : Z) (eo : option ntrdma_eth) : Prop :=
  match eo with
  | None => rc ≠ 0 ∧ moves k d 0 w w1 ∧ holds h (ew_bw w1) []
  | Some e => rc = 0 ∧ idle h e w1 ∧ moves (k + 3) (d + 1) 0 w w1 ∧ local_held (er_wqe_buf (eth_rxr e))
  end.

Lemma came_up_after k d k' d' w w1 w2 rc eo :
  moves k d 0 w w1 → came_up k' d' w1 w2 rc eo → came_up (k + k') (d + d') w w2 rc eo.
Proof.
  intros Hm. unfold came_up. destruct eo as [e|].
  - intros (? & ? & Hm2 & ?). split; [done|]. split; [done|]. split; [|done].
    eapply moves_eq; [| | |eapply moves_trans; [exact Hm|exact Hm2]]; lia.
  - intros (? & Hm2 & ?). split; [done|]. split; [|done].
    eapply moves_eq; [| | |eapply moves_trans; [exact Hm|exact Hm2]]; lia.
Qed.

Lemma init_cons_spec vbell_idx register r w :
  0 <= vbell_idx < Vbell.NTRDMA_DEV_VBELL_COUNT → new_ring r → Z.of_nat (length (er_cqes r)) = h_cap h → er_cons r = 0 →
  local_held (er_wqe_buf r) → eb_size (er_cqe_buf r) = h_cap h * sizeof_desc → holds h (ew_bw w) [er_cqe_buf r] →
  mtu_ok lmin 1500 → length (Vbell.dv_peer (ew_vb w)) = Z.to_nat Vbell.NTRDMA_DEV_VBELL_COUNT →
  ∃ rc eo w1, init_cons_buf (h_ntc h) vbell_idx register r w = Some (rc, eo, w1) ∧ came_up (- 3) (- 1) w w1 rc eo.
Proof.
  intros Hv (Rc & Rp & Rm & Rb & Rw) Rq Ro Hl Hcs Hh Hmtu Hvl. unfold init_cons_buf.
  pose proof (ho_cap _ _ Hok) as Hc. unfold cap_ok in Hc. unfold MAX_WQES in Hcap.
  assert (nenc (h_cap h) 0 = 0) as H0 by (unfold nenc, enc; apply Z.mod_0_l; lia).
  unfold _ntc_export_buf_zalloc_init, with_init, _ntc_export_buf_zalloc.
  replace (ntc_segment_valid 4 0 4) with true by reflexivity. cbn [negb].
  destruct (alloc_export h peer Hok 4 true _ w Hh) as (rc & nb & bw & E & Hm & Hc5); [by rewrite pow2_31|]. rewrite E. clear E.
  destruct Hc5 as [[Hn Hh1]|(-> & Hns & Hh1)].
  { rewrite (proj2 (Z.ltb_lt _ _)) by done. cbv iota beta zeta. rewrite (proj2 (Z.ltb_lt _ _)) by done.
    edestruct (err_cons_buf_spec (rx_set_bufs (er_wqe_buf r) (er_cqe_buf r) nb (er_cqes r) (er_wqes r) r) (ew_set_bw bw w) 0) as (w' & -> & Hm' & Hh');
      cbn; rewrite ?H0; try done.
    eexists _, _, _. split; [reflexivity|]. split; [lia|]. split; [|done].
    eapply moves_eq; [| | |eapply moves_trans; [exact Hm|exact Hm']]; lia. }
  cbn [Z.ltb Z.compare]. set (r' := rx_set_bufs _ _ nb _ _ r). set (w1 := ew_set_bw bw w) in *. apply (holds_swap _ _ _ _ _ [nb]) in Hh1.
  destruct (Z.eqb_spec register 0) as [->|Hreg]; cbn [negb].
  2:{ destruct (err_register_spec r' w1 0) as (w' & -> & Hm' & Hh'); cbn; rewrite ?H0; try done.
      eexists _, _, _. split; [reflexivity|]. split; [done|]. split; [|done].
      eapply moves_eq; [| | |eapply moves_trans; [exact Hm|exact Hm']]; lia. }
  eexists _, _, _. split; [reflexivity|]. split; [done|]. split; [|split; [eapply moves_eq; [| | |exact Hm]; lia|done]].
  destruct (holds_wf _ _ _ _ _ _ nb Hh1) as (Nw & _ & _); [right; left|].
  destruct (holds_wf _ _ _ _ _ _ (er_cqe_buf r) Hh1) as (Cw & _ & Cz); [left|].
  constructor; cbn; try done.
  - exists 0%nat. cbn. by rewrite H0.
  - split; cbn; [by apply (deref_valid nb 4)|]. intros start n Hs Hnn. rewrite Hcs in Cz. unfold sizeof_desc in *.
    apply (deref_valid _ (h_cap h * 16)); try done; lia.
Qed.

Lemma init_cqe_spec vbell_idx register r w :
  0 <= vbell_idx < Vbell.NTRDMA_DEV_VBELL_COUNT → new_ring r → er_cons r = 0 → local_held (er_wqe_buf r) → holds h (ew_bw w) [] →
  mtu_ok lmin 1500 → length (Vbell.dv_peer (ew_vb w)) = Z.to_nat Vbell.NTRDMA_DEV_VBELL_COUNT →
  ∃ rc eo w1, init_cqe_buf (h_ntc h) vbell_idx register r w = Some (rc, eo, w1) ∧ came_up (- 3) (- 1) w w1 rc eo.
Proof.
  intros Hv (Rc & Rp & Rm & Rb & Rw) Ro Hl Hh Hmtu Hvl. unfold init_cqe_buf. rewrite Rc.
  pose proof (ho_cap _ _ Hok) as Hc. unfold cap_ok in Hc. unfold MAX_WQES in Hcap.
  assert (nenc (h_cap h) 0 = 0) as H0 by (unfold nenc, enc; apply Z.mod_0_l; lia).
  destruct (alloc_export h peer Hok (h_cap h * sizeof_desc) true _ w Hh) as (rc & b & bw & E & Hm & Hcase);
    [unfold sizeof_desc; rewrite pow2_31; lia|].
  unfold _ntc_export_buf_zalloc. rewrite E. clear E. set (r' := rx_set_bufs _ _ _ _ _ r). set (w1 := ew_set_bw bw w) in *.
  destruct Hcase as [[Hn Hh1]|(-> & Hcs & Hh1)].
  - rewrite (proj2 (Z.ltb_lt _ _)) by done. destruct (err_cqe_buf_spec r' w1 0) as (w' & -> & Hm' & Hh'); cbn; rewrite ?H0; try done.
    eexists _, _, _. split; [reflexivity|]. split; [lia|]. split; [|done].
    eapply moves_eq; [| | |eapply moves_trans; [exact Hm|exact Hm']]; lia.
  - cbn [Z.ltb Z.compare]. destruct (init_cons_spec vbell_idx register r' w1) as (rc & eo & w' & -> & Hup); try done.
    { cbn. rewrite length_replicate. lia. }
    eexists _, _, _. split; [reflexivity|]. by apply (came_up_after 0 0 (- 3) (- 1) w w1).
Qed.

Lemma init_spec vbell_idx register slots w :
  0 <= vbell_idx → Z.of_nat (length slots) = h_cap h → holds h (ew_bw w) [] → mtu_ok lmin 1500 →
  length (Vbell.dv_peer (ew_vb w)) = Z.to_nat Vbell.NTRDMA_DEV_VBELL_COUNT →
  ∃ rc eo w1, ntrdma_dev_eth_init (h_ntc h) vbell_idx (h_cap h) register slots w = Some (rc, eo, w1) ∧ came_up 0 0 w w1 rc eo.
Proof.
  intros Hv Hsl Hh Hmtu Hvl. unfold ntrdma_dev_eth_init. pose proof (ho_cap _ _ Hok) as Hc. unfold cap_ok in Hc.
  assert (nenc (h_cap h) 0 = 0) as H0 by (unfold nenc, enc; apply Z.mod_0_l; lia).
  destruct (Z.leb_spec Vbell.NTRDMA_DEV_VBELL_COUNT vbell_idx) as [|Hvi].
  { eexists _, _, _. split; [reflexivity|]. split; [done|]. split; [constructor; try done; lia|done]. }
  pose proof (get_kmem w) as Hk1. destruct (kmalloc_node (ew_bw w)) as [p1 bw1]. destruct Hk1 as [Hmm1 Hk1].
  set (w1 := ew_set_bw bw1 w) in *. assert (holds h (ew_bw w1) []) as Hh1 by (by eapply holds_same).
  destruct Hk1 as [[-> Hm1]|[Hp1 Hm1]]; [by eexists _, _, _|]. rewrite (proj2 (Z.eqb_neq _ _)) by done.
  pose proof (get_kmem w1) as Hk2. destruct (kmalloc_node (ew_bw w1)) as [p2 bw2]. destruct Hk2 as [Hmm2 Hk2].
  set (w2 := ew_set_bw bw2 w1) in *. assert (holds h (ew_bw w2) []) as Hh2 by (by eapply holds_same).
  destruct Hk2 as [[-> Hm2]|[Hp2 Hm2]].
  { eexists _, _, _. split; [reflexivity|]. destruct (kput_moves w2) as [Hm3 Hb3]. split; [done|]. split; [|by eapply holds_same].
    eapply moves_eq; [| | |eapply moves_trans; [exact Hm1|eapply moves_trans; [exact Hm2|exact Hm3]]]; lia. }
  rewrite (proj2 (Z.eqb_neq _ _)) by done. pose proof (moves_trans _ _ _ _ _ _ _ _ _ Hm1 Hm2) as Hm12. clear Hm1 Hm2.
  unfold init_wqe_buf. cbn [er_cap]. set (r0 := mk_rx _ _ _ _ _ _ _ _ _ _ _ _).
  destruct (alloc_local (h_cap h * sizeof_desc) w2) as (rc & lb & bw3 & -> & Hmm3 & Hc3). set (r3 := rx_set_bufs lb _ _ _ _ _).
  set (w3 := ew_set_bw bw3 w2) in *. assert (holds h (ew_bw w3) []) as Hh3 by (by eapply holds_same).
  assert (new_ring r3) as Hnew by (split; [done|]; split; [done|]; split; [done|]; split; [done|]; cbn; rewrite length_replicate; lia).
  destruct Hc3 as [[Hn Hm3]|(-> & Hl & Hm3)].
  { rewrite (proj2 (Z.ltb_lt _ _)) by done. destruct Hnew as (N1 & N2 & N3 & N4 & N5).
    destruct (err_wqe_buf_spec r3 w3 0) as (w' & -> & Hm' & Hh'); rewrite ?H0; try done.
    eexists _, _, _. split; [reflexivity|]. split; [lia|]. split; [|done].
    eapply moves_eq; [| | |eapply moves_trans; [exact Hm12|eapply moves_trans; [exact Hm3|exact Hm']]]; lia. }
  cbn [Z.ltb Z.compare]. pose proof (moves_trans _ _ _ _ _ _ _ _ _ Hm12 Hm3) as Hm13.
  destruct (init_cqe_spec vbell_idx register r3 w3) as (rc & eo & w' & -> & Hup); try done.
  eexists _, _, _. split; [reflexivity|]. by apply (came_up_after 3 1 (- 3) (- 1) w w3).
Qed.

(** Taking the device away gives back what bringing it up took. *)
Lemma deinit_spec e w :
  idle h e w → local_held (er_wqe_buf (eth_rxr e)) →
  ∃ w', ntrdma_dev_eth_deinit (h_ntc h) e w = Some w' ∧ moves (- 3) (- 1) 0 w w' ∧ holds h (ew_bw w') [].
Proof.
  intros [(R1 & R2 & R3 & R4) (base & B1 & B2 & B3) V M F VB MT] Hl. by apply (err_register_spec _ w base).
Qed.

End Life.

(** ** The properties *)



End Init.
(** ** A run, for the witnesses *)

#[local] Existing Instance kernel_good.

#[local] Instance demo_net : NetParams := {|
  smp_cache_bits := 6; net_skb_pad := 64; hard_header_len := 14; sizeof_shared_info := 320 |}.
#[local] Instance demo_net_ok : NetParamsOk demo_net.
Proof. split; cbn; lia. Qed.

Definition demo_len : Z := rx_frame_len 1500.
Definition demo_info : ntc_own_mw := mk_own_mw 65536 65536 16384 0 16384 0.
Definition demo_dram : ntc_own_mw := mk_own_mw 131072 0 4096 0 4096 1.
Definition demo_pm : ntc_peer_mw := mk_peer_mw 1048576 32768 1048576 4096 32768 0.
Definition demo_ntc : ntc_dev := mk_ntc_dev [demo_info; demo_dram] [demo_pm; demo_pm].
Definition demo_irq : Qp.ntc_irq := Qp.mk_irq 1 (mk_remote_buf 4096 4096 0) [0; 4] [0; 0].
Definition demo_host : host := mk_host demo_ntc demo_irq 0 demo_info demo_pm 65600 16000 (λ _, 7) 2.

Lemma demo_host_ok : host_ok demo_host demo_host.
Proof.
  split; [intros s; by eexists|done|split; cbn; try lia; try done|split; cbn; rewrite ?pow2_60; try lia; by left|done].
  by exists demo_dram.
Qed.

Definition demo_mm : ntc_mm := match ntc_mm_init 65600 16000 (λ _, 7) with Some m => m | None => mk_mm 0 0 0 ∅ (λ _, 0) end.
Definition demo_vb : Vbell.ntrdma_dev_vbell :=
  Vbell.mk_dev_vbell true 16 8 0 (Vbell.mk_vbells [] ∅ []) []
    (replicate (Z.to_nat Vbell.NTRDMA_DEV_VBELL_COUNT) (Vbell.mk_peer 0 true)) (mk_remote_buf 4096 8192 0) 16.
Definition demo_world : eth_world :=
  mk_ew (mk_io 0 (mk_dma_chan 0 0 0 0 0) [] 0 0) demo_vb (mk_bw demo_mm 0 0 0) (λ _, 99) 0 0 0 false.

Lemma demo_holds :
  mem_holds (h_info demo_host) (h_memory demo_host) (h_region demo_host) (h_words demo_host) (ew_bw demo_world) [].
Proof.
  exists [], []. split; [|by repeat constructor]. split; [cbn; lia|]. split; [cbn; lia|]. split; [cbn; rewrite pow2_64; lia|].
  exists demo_mm. split; [vm_compute; reflexivity|apply rtc_refl].
Qed.

Lemma demo_mtu : mtu_ok demo_len 1500.
Proof. split; [lia|done]. Qed.

Definition demo_slots : list ntc_export_buf := replicate 2 no_export.
Definition demo_init := ntrdma_dev_eth_init demo_ntc 7 2 0 demo_slots demo_world.
Definition demo_up : ntrdma_eth * eth_world :=
  match demo_init with Some (_, Some e, w) => (e, w)
  | _ => (mk_eth false false false (mk_rx 0 0 0 [] [] [] 0 no_local no_export no_export ntc_remote_buf_clear ntc_remote_buf_clear)
           (mk_tx 0 0 0 [] 0 [] no_export no_export no_local ntc_remote_buf_clear ntc_remote_buf_clear) 0 0 false false
           (mk_net false false false false false 0), demo_world) end.

Lemma eth_demo_idle : idle demo_len demo_host (fst demo_up) (snd demo_up).
Proof.
  destruct (init_spec demo_len demo_host demo_host demo_host_ok ltac:(discriminate) 7 0 demo_slots demo_world ltac:(lia) eq_refl
    demo_holds demo_mtu eq_refl) as (rc & eo & w1 & E & Hup).
  assert (match demo_init with Some (_, Some _, _) => true | _ => false end = true) as Hs by (vm_compute; reflexivity).
  unfold demo_up. change (ntrdma_dev_eth_init (h_ntc demo_host) 7 (h_cap demo_host) 0 demo_slots demo_world) with demo_init in E.
  rewrite E in *. destruct eo as [e|]; [|done]. by destruct Hup as (_ & Hid & _).
Qed.

(** Steps as commands. *)
Inductive demo_cmd := DoXmit (s : sk_buff) | DoPoll (budget : Z) | DoCtl (c : eth_ctl).
Inductive net_cmd := OnA (c : demo_cmd) | OnB (c : demo_cmd) | AtoB | BtoA.

Definition keep_ok (w : eth_world) (s : side) : option side := if ew_unrecoverable w then None else Some s.

Definition exec_side (h : host) (c : demo_cmd) (s : side) : option side :=
  let '(mk_side e w wire sent got) := s in
  match c with
  | DoXmit skb =>
      match ntrdma_eth_start_xmit (h_ntc h) (h_irq h) (h_vec h) skb e w with
      | None => None
      | Some (e', w', evs) => keep_ok w' (mk_side e' w' (wire ++ evs) (sent ++ accepted e e' skb) got)
      end
  | DoPoll budget =>
      match ntrdma_eth_napi_poll (h_ntc h) (h_irq h) (h_vec h) (λ _, true) budget e w with
      | None => None
      | Some (_, e', w', evs) => keep_ok w' (mk_side e' w' (wire ++ wired evs) sent (got ++ outcomes evs))
      end
  | DoCtl c =>
      match run_ctl h c e w with
      | None => None
      | Some (e', w', evs) => keep_ok w' (mk_side e' w' (wire ++ evs) sent got)
      end
  end.

Definition exec (h : host) (c : net_cmd) (n : side * side) : option (side * side) :=
  let '(A, B) := n in
  match c with
  | OnA c => match exec_side h c A with Some A' => Some (A', B) | None => None end
  | OnB c => match exec_side h c B with Some B' => Some (A, B') | None => None end
  | AtoB => match sd_wire A with ev :: rest => Some (pop A rest, receive id h ev B) | [] => None end
  | BtoA => match sd_wire B with ev :: rest => Some (receive id h ev A, pop B rest) | [] => None end
  end.

Definition exec_all (h : host) (cs : list net_cmd) (n : side * side) : option (side * side) :=
  foldl (λ n c, match n with Some n => exec h c n | None => None end) (Some n) cs.

Definition cmd_ok (c : demo_cmd) : Prop :=
  match c with DoXmit s => skb_ok s | DoPoll b => 0 < b < 2 ^ 31 | DoCtl _ => True end.
Definition net_cmd_ok (c : net_cmd) : Prop := match c with OnA c | OnB c => cmd_ok c | _ => True end.

Lemma exec_side_step h c s s' : cmd_ok c → exec_side h c s = Some s' → side_step demo_len False h s s'.
Proof.
  intros Hok. destruct s as [e w wire sent got]. destruct c as [skb|budget|c]; cbn [exec_side]; unfold keep_ok.
  - destruct (ntrdma_eth_start_xmit _ _ _ _ _ _) as [[[e' w'] evs]|] eqn:E; [|done].
    destruct (ew_unrecoverable w') eqn:Hu; [done|]. intros [= <-]. by eapply ss_xmit.
  - destruct (ntrdma_eth_napi_poll _ _ _ _ _ _ _) as [[[[n e'] w'] evs]|] eqn:E; [|done].
    destruct (ew_unrecoverable w') eqn:Hu; [done|]. intros [= <-]. by apply (ss_poll _ _ h e w wire sent got (λ _, true) budget n).
  - destruct (run_ctl h c e w) as [[[e' w'] evs]|] eqn:E; [|done].
    destruct (ew_unrecoverable w') eqn:Hu; [done|]. intros [= <-]. by eapply ss_ctl.
Qed.

Lemma exec_all_run h cs n n' :
  Forall net_cmd_ok cs → exec_all h cs n = Some n' → rtc (net_step id demo_len False h h) n n'.
Proof.
  intros Hok. revert n. induction Hok as [|c cs Hc Hok IH]; intros n; unfold exec_all; cbn [foldl]; [by intros [= <-]|].
  destruct (exec h c n) as [n1|] eqn:E.
  2:{ intros Hx. exfalso. clear -Hx. induction cs as [|c cs IH]; [done|]. by apply IH. }
  intros Hx. apply rtc_l with n1; [|by apply IH]. destruct n as [A B].
  destruct c as [c|c| |]; cbn [exec] in E.
  - destruct (exec_side h c A) eqn:Es; [|done]. injection E as <-. apply ns_a. by eapply exec_side_step.
  - destruct (exec_side h c B) eqn:Es; [|done]. injection E as <-. apply ns_b. by eapply exec_side_step.
  - destruct (sd_wire A) eqn:Es; [done|]. injection E as <-. by apply ns_ab.
  - destruct (sd_wire B) eqn:Es; [done|]. injection E as <-. by apply ns_ba.
Qed.

(** Both are opened and enabled, which fills the receive rings; a frame goes
    from one to the other. *)
Definition demo_skb : sk_buff := mk_skb [0; 0; 10; 20; 30; 40; 0; 0] 1048576 2 4 false.
Definition demo_cmds : list net_cmd :=
  [OnA (DoCtl CtlOpen); OnB (DoCtl CtlOpen); OnA (DoCtl CtlEnable); OnB (DoCtl CtlEnable)]
  ++ replicate 4 AtoB ++ replicate 4 BtoA ++ [OnA (DoXmit demo_skb)] ++ replicate 5 AtoB ++ [OnB (DoPoll 16)].

Definition demo_result : option (side * side) :=
  match hello_exchange demo_host demo_host demo_up demo_up with
  | Some n => exec_all demo_host demo_cmds n
  | None => None
  end.
Definition demo_got : list eth_event := match demo_result with Some (_, B) => sd_got B | None => [EvDrop] end.
Definition demo_sent : list sk_buff := match demo_result with Some (A, _) => sd_sent A | None => [] end.

Lemma demo_cmds_ok : Forall net_cmd_ok demo_cmds.
Proof.
  assert (skb_ok demo_skb) as Hs by (repeat split; cbn; lia).
  unfold demo_cmds. cbn [replicate app]. repeat (constructor; [cbn; first [exact Hs | lia | done]|]). constructor.
Qed.



End EthInit.
