(* ===== verification/Verbs.v ===== *)
(** * The verbs that create and destroy (ntrdma_ib.c, ntrdma_ib.h,
    ntrdma_ib_4_19.h, the device's resources of ntrdma_res.c)

    Protection domains, completion queues, queue pairs and memory regions as the
    application makes them and gives them up, on top of the set-up of queue pairs
    of [QpCmd], the regions of [MrCmd] and the tables of [Res].  An object lives
    while it has references: the application's handle, an open file, a queue pair
    that completes into it, a copy in progress.

    What the kernel and user space answer are arguments of the calls.  The
    debugging files, the printed messages and the part of the connection manager
    (in [Cm]) are left out. *)

From stdpp Require Import gmap.
From S2P Require Import Prelude Kernel Ring Ntc Mem Zip Vec Mm Buf Vbell.
From S2P Require Import Res MrCmd Qp Cq Post QpCmd.
Import Ring Ntc Mem Zip Vec Mm Buf Vbell Res MrCmd Qp Cq Post QpCmd.

Module Verbs.

Definition NTRDMA_DEV_MAX_QP : Z := 4096.
Definition NTRDMA_DEV_MAX_CQ : Z := 1024.
Definition NTRDMA_DEV_MAX_MR : Z := 1024.
Definition NTRDMA_DEV_MAX_PD : Z := 1024.
Definition CMD_TIMEOUT_MSEC : Z := 5000.

(** ** The state *)

(** A ring that a completion queue polls: a queue pair's sends or receives. *)
Definition poll : Type := nat * bool.

Abbreviation world := (init_world dev_mem poll).

Inductive uobj := OCq (c : nat) | OQp (p : nat) | OMr (m : nat) | OPd (d : nat).

#[export] Instance uobj_eq_dec : EqDecision uobj.
Proof. solve_decision. Defined.

(** [vs_iw] holds the completion queues with their references, the table of queue
    pairs and, in the memory of the data path, the table of regions.  [vs_pages]
    are the objects with a page of the application, [vs_files] the open files by
    their object, [vs_fds] counts file descriptors, [vs_umems] the pinned memories
    of the application and [vs_mr_umem] tells the regions that have one;
    [vs_release] are the queue pairs whose release work is scheduled. *)
Record verbs := mk_verbs {
  vs_iw : world;
  vs_cq_num : Z; vs_qp_num : Z; vs_mr_num : Z; vs_pd_num : Z;
  vs_cq_list : list nat;
  vs_pds : gmap nat (Z * Z);
  vs_pd_list : list nat;
  vs_pd_next_key : Z;
  vs_pages : list uobj;
  vs_files : list uobj;
  vs_fds : Z;
  vs_umems : Z;
  vs_mr_umem : list nat;
  vs_release : list nat }.

Definition vs_set_iw (w : world) (v : verbs) : verbs :=
  mk_verbs w (vs_cq_num v) (vs_qp_num v) (vs_mr_num v) (vs_pd_num v) (vs_cq_list v) (vs_pds v) (vs_pd_list v)
    (vs_pd_next_key v) (vs_pages v) (vs_files v) (vs_fds v) (vs_umems v) (vs_mr_umem v) (vs_release v).
Definition vs_count (cq qp mr pd : Z) (v : verbs) : verbs :=
  mk_verbs (vs_iw v) (vs_cq_num v + cq) (vs_qp_num v + qp) (vs_mr_num v + mr) (vs_pd_num v + pd) (vs_cq_list v)
    (vs_pds v) (vs_pd_list v) (vs_pd_next_key v) (vs_pages v) (vs_files v) (vs_fds v) (vs_umems v) (vs_mr_umem v)
    (vs_release v).
Definition vs_set_cq_list (l : list nat) (v : verbs) : verbs :=
  mk_verbs (vs_iw v) (vs_cq_num v) (vs_qp_num v) (vs_mr_num v) (vs_pd_num v) l (vs_pds v) (vs_pd_list v)
    (vs_pd_next_key v) (vs_pages v) (vs_files v) (vs_fds v) (vs_umems v) (vs_mr_umem v) (vs_release v).
Definition vs_set_pds (pds : gmap nat (Z * Z)) (l : list nat) (next : Z) (v : verbs) : verbs :=
  mk_verbs (vs_iw v) (vs_cq_num v) (vs_qp_num v) (vs_mr_num v) (vs_pd_num v) (vs_cq_list v) pds l next
    (vs_pages v) (vs_files v) (vs_fds v) (vs_umems v) (vs_mr_umem v) (vs_release v).
Definition vs_set_user (pages files : list uobj) (fds : Z) (v : verbs) : verbs :=
  mk_verbs (vs_iw v) (vs_cq_num v) (vs_qp_num v) (vs_mr_num v) (vs_pd_num v) (vs_cq_list v) (vs_pds v)
    (vs_pd_list v) (vs_pd_next_key v) pages files fds (vs_umems v) (vs_mr_umem v) (vs_release v).
Definition vs_set_umems (n : Z) (l : list nat) (v : verbs) : verbs :=
  mk_verbs (vs_iw v) (vs_cq_num v) (vs_qp_num v) (vs_mr_num v) (vs_pd_num v) (vs_cq_list v) (vs_pds v)
    (vs_pd_list v) (vs_pd_next_key v) (vs_pages v) (vs_files v) (vs_fds v) n l (vs_release v).
Definition vs_set_release (l : list nat) (v : verbs) : verbs :=
  mk_verbs (vs_iw v) (vs_cq_num v) (vs_qp_num v) (vs_mr_num v) (vs_pd_num v) (vs_cq_list v) (vs_pds v)
    (vs_pd_list v) (vs_pd_next_key v) (vs_pages v) (vs_files v) (vs_fds v) (vs_umems v) (vs_mr_umem v) l.

Definition iw_set_store (s : res_store qp_obj) (w : world) : world := mk_iw s (iw_cqs w) (iw_qw w).
Definition iw_set_vb (vb : ntrdma_dev_vbell) (w : world) : world :=
  let q := iw_qw w in mk_iw (iw_res w) (iw_cqs w) (mk_qw (qw_zip q) vb (qw_bufs q) (qw_shadows q)).
Definition iw_set_zip (z : zip_world dev_mem) (w : world) : world :=
  mk_iw (iw_res w) (iw_cqs w) (qw_set_zip z (iw_qw w)).
Definition iw_mrs (w : world) : res_store ntrdma_mr := dm_mr (zw_mem (qw_zip (iw_qw w))).
Definition iw_set_mrs (s : res_store ntrdma_mr) (w : world) : world :=
  let z := qw_zip (iw_qw w) in
  iw_set_zip (mk_world (mk_dev_mem s (dm_rmr (zw_mem z))) (zw_io z) (zw_cpu z) (zw_unrecoverable z)) w.

Definition vs_bufs (v : verbs) : buf_world := iw_bufs (vs_iw v).
Definition vs_set_bufs (b : buf_world) (v : verbs) : verbs := vs_set_iw (iw_set_bufs b (vs_iw v)) v.

Definition without (o : uobj) (l : list uobj) : list uobj := filter (λ x, x ≠ o) l.
Definition put_page (o : uobj) (v : verbs) : verbs :=
  vs_set_user (without o (vs_pages v)) (vs_files v) (vs_fds v) v.

Section Code.
Context `{K : Kernel} (ntc : ntc_dev).

(** [ntc_dma_flush] on the channel of the data path. *)
Definition iw_flush (w : world) : world :=
  let z := qw_zip (iw_qw w) in
  iw_set_zip (mk_world (zw_mem z) (ntc_dma_flush (zw_io z)) (zw_cpu z) (zw_unrecoverable z)) w.

(** [kmalloc_node], [kmem_cache_alloc_node] and their counterparts. *)
Definition vs_alloc (v : verbs) : bool * verbs :=
  let b := vs_bufs v in
  if kalloc (bw_time b) then (true, vs_set_bufs (bw_tick (bw_add 1 0 b)) v) else (false, vs_set_bufs (bw_tick b) v).
Definition vs_free (n : Z) (v : verbs) : verbs := vs_set_bufs (bw_add (- n) 0 (vs_bufs v)) v.

(** ** References *)

(** The memory of a completion queue and of its part for the kernel. *)
Definition ntrdma_cq_release (c : nat) (v : verbs) : verbs :=
  vs_count (- 1) 0 0 0 (vs_free 2 (put_page (OCq c) v)).

(** The release of the completion queues, among the given ones, that a part of
    the driver put for the last time on the way to [w]. *)
Fixpoint cqs_release (l : list nat) (w : world) (v : verbs) : verbs :=
  match l with
  | [] => vs_set_iw w v
  | c :: l =>
      let v' := cqs_release l w v in
      if bool_decide (is_Some (iw_cqs (vs_iw v) !! c) ∧ iw_cqs w !! c = None ∧ c ∉ l) then ntrdma_cq_release c v' else v'
  end.

Definition vs_cq_put (c : nat) (v : verbs) : verbs := cqs_release [c] (ntrdma_cq_put c (vs_iw v)) v.

(** The last reference schedules the release. *)
Definition vs_qp_put (p : nat) (v : verbs) : verbs :=
  let '(release, s) := ntrdma_res_put p (iw_res (vs_iw v)) in
  let v := vs_set_iw (iw_set_store s (vs_iw v)) v in
  if release then vs_set_release (vs_release v ++ [p]) v else v.
Definition vs_qp_get (p : nat) (v : verbs) : verbs :=
  let s := iw_res (vs_iw v) in
  vs_set_iw (iw_set_store (ls_set_objs (heap_get p (ls_objs s)) s) (vs_iw v)) v.

Definition set_mr_vec (vec : ntrdma_rcu_kvec nat) (h : heap) (s : res_store ntrdma_mr) : res_store ntrdma_mr :=
  mk_res_store vec (ls_objs s) (ls_list s) h (ls_unrecoverable s).

Definition mr_release (m : nat) (v : verbs) : verbs :=
  let s := iw_mrs (vs_iw v) in
  match ls_objs s !! m with
  | None => v
  | Some o =>
      let '(_, vec, h) := ntrdma_mr_deinit (o_key o) (mr_sg_list (o_val o)) (ls_vec s) (ls_heap s) in
      let v := vs_set_iw (iw_set_mrs (set_mr_vec vec h (ls_set_objs (delete m (ls_objs s)) s)) (vs_iw v)) v in
      let v := if bool_decide (m ∈ vs_mr_umem v)
               then vs_set_umems (vs_umems v - 1) (filter (λ x, x ≠ m) (vs_mr_umem v)) v else v in
      vs_count 0 0 (- 1) 0 (vs_free 1 v)
  end.
Definition ntrdma_mr_put (m : nat) (v : verbs) : verbs :=
  let '(release, s) := ntrdma_res_put m (iw_mrs (vs_iw v)) in
  let v := vs_set_iw (iw_set_mrs s (vs_iw v)) v in
  if release then mr_release m v else v.
(** The reference that a copy in progress takes. *)
Definition vs_mr_get (m : nat) (v : verbs) : verbs :=
  let s := iw_mrs (vs_iw v) in
  vs_set_iw (iw_set_mrs (ls_set_objs (heap_get m (ls_objs s)) s) (vs_iw v)) v.

Definition ntrdma_pd_release (d : nat) (v : verbs) : verbs := vs_count 0 0 0 (- 1) (vs_free 1 v).
Definition ntrdma_pd_put (d : nat) (v : verbs) : verbs :=
  match vs_pds v !! d with
  | None => v
  | Some (n, key) =>
      if n - 1 =? 0 then ntrdma_pd_release d (vs_set_pds (delete d (vs_pds v)) (vs_pd_list v) (vs_pd_next_key v) v)
      else vs_set_pds (<[d := (n - 1, key)]> (vs_pds v)) (vs_pd_list v) (vs_pd_next_key v) v
  end.

(** The work that a queue pair's release schedules.  [None]: it is gone, or a
    fault of the allocator. *)
Definition qp_release_work (p : nat) (v : verbs) : option verbs :=
  let s := iw_res (vs_iw v) in
  match ls_objs s !! p with
  | None => None
  | Some o =>
      match ntrdma_qp_deinit ntc (p, true) (p, false) (o_val o) (vs_iw v) with
      | None => None
      | Some w =>
          let v := cqs_release [qo_send_cq (o_val o); qo_recv_cq (o_val o)] w v in
          let s := iw_res (vs_iw v) in
          let v := vs_set_iw (iw_set_store (ls_set_objs (delete p (ls_objs s)) s) (vs_iw v)) (put_page (OQp p) v) in
          Some (vs_set_release (filter (λ x, x ≠ p) (vs_release v)) (vs_count 0 (- 1) 0 0 (vs_free 1 v)))
      end
  end.

(** ** Files *)

Definition obj_get (o : uobj) (v : verbs) : verbs :=
  match o with
  | OCq c => vs_set_iw (ntrdma_cq_get c (vs_iw v)) v
  | OQp p => vs_qp_get p v
  | OMr _ | OPd _ => v
  end.
Definition obj_put (o : uobj) (v : verbs) : verbs :=
  match o with
  | OCq c => vs_cq_put c v
  | OQp p => vs_qp_put p v
  | OMr _ | OPd _ => v
  end.

Definition ntrdma_cq_file_release (c : nat) (v : verbs) : verbs := vs_cq_put c (put_page (OCq c) v).
Definition ntrdma_qp_file_release (p : nat) (v : verbs) : verbs :=
  let v := put_page (OQp p) v in
  vs_qp_put p (vs_set_iw (iw_flush (vs_iw v)) v).
(** The last user of an open file lets it go. *)
Definition fput (o : uobj) (v : verbs) : verbs :=
  let v := vs_set_user (vs_pages v) (without o (vs_files v)) (vs_fds v) v in
  match o with
  | OCq c => ntrdma_cq_file_release c v
  | OQp p => ntrdma_qp_file_release p v
  | OMr _ | OPd _ => v
  end.
Definition put_unused_fd (v : verbs) : verbs := vs_set_user (vs_pages v) (vs_files v) (vs_fds v - 1) v.

(** What user space gives and the kernel answers when a completion queue or a
    queue pair is created: is there a structure from the application, can it be
    copied, is it the one the driver knows, the page it names, what pinning the
    page returns; is there room for an answer, the descriptor, what opening the
    file returns, can the answer be copied. *)
Record user_io := mk_user {
  ui_in : bool; ui_copied_in : bool; ui_desc : bool; ui_page_ptr : Z; ui_pages : Z;
  ui_out : bool; ui_fd : Z; ui_file : Z; ui_copied_out : bool }.

(** The structure from the application and its page: an error, after which the
    first reference is put, or whether the rest is left out. *)
Definition user_in (o : uobj) (u : user_io) (v : verbs) : Z * bool * verbs :=
  if negb (ui_in u) then (0, false, v)
  else if negb (ui_copied_in u) then (- EFAULT, false, obj_put o v)
  else if negb (ui_desc u) then (0, true, v)
  else if ui_page_ptr u =? 0 then (- EINVAL, false, obj_put o v)
  else if ui_pages u <? 0 then (ui_pages u, false, obj_put o v)
  else (0, false, if ui_pages u =? 0 then v else vs_set_user (o :: vs_pages v) (vs_files v) (vs_fds v) v).

(** The file and the answer to the application; the second result tells the error
    of opening the file from the others. *)
Definition user_out (o : uobj) (u : user_io) (v : verbs) : Z * bool * verbs :=
  if negb (ui_out u) then (0, false, v)
  else if ui_fd u <? 0 then (ui_fd u, false, obj_put o v)
  else
    let v := vs_set_user (vs_pages v) (vs_files v) (vs_fds v + 1) v in
    if ui_file u <? 0 then (ui_file u, true, put_unused_fd (obj_put o v))
    else
      let v := vs_set_user (vs_pages v) (o :: vs_files v) (vs_fds v) v in
      let v := obj_get o v in
      if negb (ui_copied_out u) then (- EFAULT, false, put_unused_fd (obj_put o (fput o v)))
      else (0, false, v).

Definition user_part (o : uobj) (u : user_io) (v : verbs) : Z * bool * verbs :=
  let '(rc, skip, v) := user_in o u v in
  if negb (rc =? 0) || skip then (rc, false, v) else user_out o u v.

(** ** Completion queues *)

(** The two allocations; without the part for the kernel the code uses a null
    pointer whichever way the creation ends. *)
Definition ntrdma_alloc_cq (v : verbs) : bool * bool * verbs :=
  let '(ibcq, v) := vs_alloc v in
  let '(cq, v) := vs_alloc v in
  (ibcq, cq, v).

(** The code, and at the end of a creation the state with the counter as label
    [err_cq] leaves it. *)
Definition err_cq (rc : Z) (v : verbs) : Z * verbs := (rc, vs_count (- 1) 0 0 0 v).

Definition cq_set_valid (b : bool) (q : ntrdma_cq poll) : ntrdma_cq poll :=
  mk_cq b (cq_arm q) (cq_need_cue q) (cq_vbell q) (cq_poll_list q).

(** The doorbell, the list, and that the application may be notified. *)
Definition cq_enlist (c bell : nat) (vbell_idx : Z) (v : verbs) : verbs :=
  let vb := qw_vb (iw_qw (vs_iw v)) in
  match iw_cqs (vs_iw v) !! c with
  | None => v
  | Some (n, q) =>
      let '(q, s) := ntrdma_cq_vbell_init bell (Z.to_nat vbell_idx) q (dv_vec vb) in
      let w := mk_iw (iw_res (vs_iw v)) (<[c := (n, cq_set_valid true q)]> (iw_cqs (vs_iw v))) (iw_qw (vs_iw v)) in
      vs_set_cq_list (vs_cq_list v ++ [c]) (vs_set_iw (iw_set_vb (dv_set_vec s vb) w) v)
  end.

(** [c] and [bell] name the new queue and its doorbell. *)
Definition ntrdma_create_cq_common (c bell : nat) (comp_vector : Z) (u : user_io) (v : verbs) : option (Z * verbs) :=
  let v := vs_count 1 0 0 0 v in
  if NTRDMA_DEV_MAX_CQ <=? vs_cq_num v then Some (err_cq (- ETOOMANYREFS) v)
  else
    let vb := qw_vb (iw_qw (vs_iw v)) in
    let '(vbell_idx, vb) := if negb (comp_vector =? 0) then (comp_vector, vb) else ntrdma_dev_vbell_next vb in
    let v := vs_set_iw (iw_set_vb vb (vs_iw v)) v in
    if NTRDMA_DEV_VBELL_COUNT <=? vbell_idx then Some (err_cq (- EINVAL) v)
    else
      let '(ibcq, cq, v) := ntrdma_alloc_cq v in
      if negb cq then Some (err_cq (- ENOMEM) v)
      else if negb ibcq then None
      else
        let w := vs_iw v in
        let q := ntrdma_cq_init (mk_cq false 0 false 0 []) in
        let v := vs_set_iw (mk_iw (iw_res w) (<[c := (1, q)]> (iw_cqs w)) (iw_qw w)) v in
        let '(rc, no_file, v) := user_part (OCq c) u v in
        if negb (rc =? 0) then Some (if no_file then (rc, v) else err_cq rc v)
        else Some (0, cq_enlist c bell vbell_idx v).

Definition ntrdma_destroy_cq_common (c : nat) (v : verbs) : verbs :=
  match iw_cqs (vs_iw v) !! c with
  | None => v
  | Some (n, q) =>
      let v := vs_set_cq_list (filter (λ x, x ≠ c) (vs_cq_list v)) v in
      let vb := qw_vb (iw_qw (vs_iw v)) in
      let '(q, s, _) := ntrdma_cq_vbell_kill (cq_set_valid false q) (dv_vec vb) in
      let w := mk_iw (iw_res (vs_iw v)) (<[c := (n, q)]> (iw_cqs (vs_iw v))) (iw_qw (vs_iw v)) in
      vs_set_iw (iw_set_vb (dv_set_vec s vb) w) v
  end.
Definition ntrdma_destroy_cq (c : nat) (v : verbs) : verbs := vs_cq_put c (ntrdma_destroy_cq_common c v).

(** ** Protection domains *)

Definition err_pd (rc : Z) (v : verbs) : Z * verbs := (rc, vs_count 0 0 0 (- 1) v).

Definition ntrdma_alloc_pd_common (d : nat) (v : verbs) : Z * verbs :=
  let v := vs_count 0 0 0 1 v in
  if NTRDMA_DEV_MAX_PD <=? vs_pd_num v then err_pd (- ETOOMANYREFS) v
  else
    let '(pd, v) := vs_alloc v in
    if negb pd then err_pd (- ENOMEM) v
    else (0, vs_set_pds (<[d := (1, vs_pd_next_key v)]> (vs_pds v)) (vs_pd_list v ++ [d]) (u32 (vs_pd_next_key v + 1)) v).

Definition ntrdma_dealloc_pd_common (d : nat) (v : verbs) : verbs :=
  vs_set_pds (vs_pds v) (filter (λ x, x ≠ d) (vs_pd_list v)) (vs_pd_next_key v) v.
Definition ntrdma_dealloc_pd (d : nat) (v : verbs) : verbs := ntrdma_pd_put d (ntrdma_dealloc_pd_common d v).

(** ** Queue pairs *)

(** The capabilities that the application asks for. *)
Record ib_qp_cap := mk_cap {
  qc_max_recv_wr : Z; qc_max_recv_sge : Z; qc_max_send_wr : Z; qc_max_send_sge : Z; qc_max_inline_data : Z; qc_type : Z }.

(** The labels of [ntrdma_create_qp]. *)
Definition err_qp (rc : Z) (v : verbs) : Z * verbs := (rc, vs_count 0 (- 1) 0 0 v).
Definition qp_err_init (rc : Z) (v : verbs) : Z * verbs := err_qp rc (vs_free 1 v).
Definition qp_err_add (rc : Z) (p : nat) (o : qp_obj) (v : verbs) : option (Z * verbs) :=
  match ntrdma_qp_deinit ntc (p, true) (p, false) o (vs_iw v) with
  | None => None
  | Some w =>
      let v := cqs_release [qo_send_cq o; qo_recv_cq o] w v in
      let s := iw_res (vs_iw v) in
      Some (qp_err_init rc (vs_set_iw (iw_set_store (ls_set_objs (delete p (ls_objs s)) s) (vs_iw v)) v))
  end.

(** [p] names the new queue pair; [timeout] and [oc] are the time that its
    announcement may take and what becomes of it. *)
Definition ntrdma_create_qp (p recv_cq send_cq : nat) (pd_key : Z) (cap : ib_qp_cap) (timeout : Z) (oc : cmd_outcome)
    (u : user_io) (v : verbs) : option (Z * verbs) :=
  let v := vs_count 0 1 0 0 v in
  if NTRDMA_DEV_MAX_QP <=? vs_qp_num v then Some (err_qp (- ETOOMANYREFS) v)
  else
    let '(qp, v) := vs_alloc v in
    if negb qp then Some (err_qp (- ENOMEM) v)
    else
      let '(rc, attr) := ntrdma_create_qp_attr pd_key (qc_max_recv_wr cap) (qc_max_recv_sge cap) (qc_max_send_wr cap)
                           (qc_max_send_sge cap) (qc_max_inline_data cap) (qc_type cap) in
      if negb (rc =? 0) then Some (qp_err_init rc v)
      else
        match ntrdma_qp_init ntc attr recv_cq send_cq (p, true) (p, false) (vs_iw v) with
        | None => None
        | Some (rc, None, w) => Some (qp_err_init rc (cqs_release [send_cq; recv_cq] w v))
        | Some (_, Some o, w) =>
            let s := iw_res w in
            let key := qp_key (qo_qp o) in
            match ntrdma_res_add p key timeout oc (ls_set_objs (<[p := ntrdma_obj_init key o]> (ls_objs s)) s) with
            | None => None
            | Some (rc, s) =>
                let v := vs_set_iw (iw_set_store s w) v in
                if negb (rc =? 0) then qp_err_add rc p o v
                else let '(rc, _, v) := user_part (OQp p) u v in Some (rc, v)
            end
        end.

(** The queue pair stalls before the command is queued; [rqp] is the image that it
    is connected to.  The connection is shut down before the reference is put. *)
Definition ntrdma_destroy_qp (p : nat) (rqp : option ntrdma_rqp) (timeout : Z) (oc : cmd_outcome) (v : verbs)
  : option (option ntrdma_rqp * verbs) :=
  let s := iw_res (vs_iw v) in
  match ls_objs s !! p with
  | None => None
  | Some o =>
      let '(q, rqp) := ntrdma_qp_disable_cb (o_val o) rqp in
      let s := ls_set_objs (<[p := mk_object (o_key o) (o_kref o) (o_in_list o) q]> (ls_objs s)) s in
      match ntrdma_res_del p (o_key o) timeout oc s with
      | None => None
      | Some s => Some (rqp, vs_qp_put p (vs_set_iw (iw_flush (iw_set_store s (vs_iw v))) v))
      end
  end.

Definition ntrdma_modify_qp (cur_state : Z) (attr : ib_qp_attr) (mask : Z) (has_cm : bool) (timeout : Z) (oc : cmd_outcome)
    (q : ntrdma_qp) : Z * ntrdma_qp * bool :=
  let '(rc, q, shut) := ntrdma_modify_qp_local cur_state attr mask has_cm q in
  if negb (rc =? 0) then (rc, q, shut)
  else if qp_rqp_key q =? 2 ^ 32 - 1 then (rc, q, shut)
  else (ntrdma_modify_qp_remote timeout oc, q, shut).

(** ** Memory regions *)

Definition is_canonical (addr : Z) : bool :=
  (Z.land addr 0xffff800000000000 =? 0) || (Z.land addr 0xffff800000000000 =? 0xffff800000000000).

(** What the application asks for, and what the kernel knows of the memory: the
    result of looking for an io mapping, its address and length; the result of
    pinning the pages, their segments or the error of counting them, and the
    number that the second walk found. *)
Record mr_request := mk_mr_req {
  mq_length : Z; mq_virt_addr : Z; mq_access : Z;
  mq_io_rc : Z; mq_io_addr : Z; mq_io_len : Z;
  mq_umem_rc : Z; mq_segments : Z + list ntc_mr_buf; mq_mapped : Z }.

(** The labels of [ntrdma_reg_user_mr]. *)
Definition mr_err_umem (rc : Z) (v : verbs) : Z * verbs := (rc, vs_count 0 0 (- 1) 0 v).
Definition mr_err_mr (rc : Z) (umem : bool) (v : verbs) : Z * verbs :=
  mr_err_umem rc (if umem then vs_set_umems (vs_umems v - 1) (vs_mr_umem v) v else v).
Definition mr_err_init (rc : Z) (umem : bool) (v : verbs) : Z * verbs := mr_err_mr rc umem (vs_free 1 v).

(** From the allocation of the region [m]; [segs] are its segments when it has
    pinned memory. *)
Definition reg_mr_init (m : nat) (pd_key : Z) (q : mr_request) (segs : option (list ntc_mr_buf)) (timeout : Z)
    (oc : cmd_outcome) (v : verbs) : option (Z * verbs) :=
  let umem := match segs with Some _ => true | None => false end in
  let '(mr, v) := vs_alloc v in
  if negb mr then Some (mr_err_mr (- ENOMEM) umem v)
  else
    let '(rc, sgl) := match segs with
                      | Some l => (0, l)
                      | None => let '(rc, b) := ntc_mr_buf_map_dma ntc (mq_length q) (mq_io_addr q) (mq_access q) in (rc, [b])
                      end in
    if rc <? 0 then Some (mr_err_init rc umem v)
    else
      let s := iw_mrs (vs_iw v) in
      let '(rc, sgl, vec, h) := ntrdma_mr_init sgl (if umem then Some (mq_mapped q) else None) (ls_vec s) (ls_heap s) in
      let s := set_mr_vec vec h s in
      if rc <? 0 then Some (mr_err_init rc umem (vs_set_iw (iw_set_mrs s (vs_iw v)) v))
      else
        let mr := mk_mr rc pd_key (mq_access q) (mq_virt_addr q) (mq_length q) sgl in
        match ntrdma_res_add m rc timeout oc (ls_set_objs (<[m := ntrdma_obj_init rc mr]> (ls_objs s)) s) with
        | None => None
        | Some (rc, s) =>
            let v := vs_set_iw (iw_set_mrs s (vs_iw v)) v in
            let v := if umem then vs_set_umems (vs_umems v) (m :: vs_mr_umem v) v else v in
            Some (if rc <? 0 then (rc, ntrdma_mr_put m v) else (0, v))
        end.

Definition ntrdma_reg_user_mr (m : nat) (pd_key : Z) (q : mr_request) (timeout : Z) (oc : cmd_outcome) (v : verbs)
  : option (Z * verbs) :=
  if IB_MR_LIMIT_BYTES <? mq_length q then Some (- EINVAL, v)
  else
    let v := vs_count 0 0 1 0 v in
    if NTRDMA_DEV_MAX_MR <=? vs_mr_num v then Some (mr_err_umem (- ETOOMANYREFS) v)
    else if negb (is_canonical (mq_virt_addr q)) then Some (mr_err_umem (- EINVAL) v)
    else if (0 <=? mq_io_rc q) && (mq_length q <=? mq_io_len q) then reg_mr_init m pd_key q None timeout oc v
    else if mq_umem_rc q <? 0 then Some (mr_err_umem (mq_umem_rc q) v)
    else
      let v := vs_set_umems (vs_umems v + 1) (vs_mr_umem v) v in
      match mq_segments q with
      | inl rc => Some (mr_err_mr rc true v)
      | inr l => reg_mr_init m pd_key q (Some l) timeout oc v
      end.

(** Up to the wait for the release of the region. *)
Definition ntrdma_dereg_mr (m : nat) (timeout : Z) (oc : cmd_outcome) (v : verbs) : option verbs :=
  let s := iw_mrs (vs_iw v) in
  match ls_objs s !! m with
  | None => None
  | Some o =>
      match ntrdma_res_del m (o_key o) timeout oc s with
      | None => None
      | Some s => Some (ntrdma_mr_put m (vs_set_iw (iw_set_mrs s (vs_iw v)) v))
      end
  end.

(** ** The resources of a device *)

(** The tables of regions and queue pairs, and of their images. *)
Definition ntrdma_dev_res_init (h : heap)
  : Z * option (ntrdma_rcu_kvec nat * ntrdma_rcu_kvec nat * ntrdma_rcu_vec nat * ntrdma_rcu_vec nat) * heap :=
  let '(rc, mr_vec, h) := ntrdma_kvec_init NTRDMA_RES_VEC_INIT_CAP NTRDMA_MR_VEC_PREALLOCATED h in
  match mr_vec with
  | None => (rc, None, h)
  | Some mr_vec =>
      let '(rc, qp_vec, h) := ntrdma_kvec_init NTRDMA_RES_VEC_INIT_CAP NTRDMA_QP_VEC_PREALLOCATED h in
      match qp_vec with
      | None => (rc, None, ntrdma_kvec_deinit mr_vec h)
      | Some qp_vec =>
          let '(rc, rmr_vec, h) := ntrdma_vec_init NTRDMA_RES_VEC_INIT_CAP h in
          match rmr_vec with
          | None => (rc, None, ntrdma_kvec_deinit mr_vec (ntrdma_kvec_deinit qp_vec h))
          | Some rmr_vec =>
              let '(rc, rqp_vec, h) := ntrdma_vec_init NTRDMA_RES_VEC_INIT_CAP h in
              match rqp_vec with
              | None => (rc, None, ntrdma_kvec_deinit mr_vec (ntrdma_kvec_deinit qp_vec (ntrdma_vec_deinit rmr_vec h)))
              | Some rqp_vec => (0, Some (mr_vec, qp_vec, rmr_vec, rqp_vec), h)
              end
          end
      end
  end.
Definition ntrdma_dev_res_deinit (mr_vec qp_vec : ntrdma_rcu_kvec nat) (rmr_vec rqp_vec : ntrdma_rcu_vec nat) (h : heap) : heap :=
  ntrdma_kvec_deinit mr_vec (ntrdma_kvec_deinit qp_vec (ntrdma_vec_deinit rmr_vec (ntrdma_vec_deinit rqp_vec h))).

(** The waits for the announcements: the first error, and the time left. *)
Fixpoint res_wait_all (timeout : Z) (ocs : list cmd_outcome) (rc : Z) : Z * Z :=
  match ocs with
  | [] => (rc, timeout)
  | oc :: ocs =>
      let '(r, timeout) := ntrdma_cmd_cb_wait_out timeout oc in
      res_wait_all timeout ocs (if rc =? 0 then r else rc)
  end.

(** Every resource is announced again when the link comes up: the regions, then
    the queue pairs, with the time that each may take and what becomes of its
    command.  When the commands cannot be submitted the call succeeds. *)
Definition ntrdma_dev_res_enable (submit : Z) (mrs qps : list (Z * cmd_outcome)) : Z :=
  let timeout := foldl Z.max CMD_TIMEOUT_MSEC (fst <$> mrs ++ qps) in
  if submit <? 0 then 0 else fst (res_wait_all timeout (snd <$> mrs ++ qps) 0).

(** The loop of [ntrdma_dev_res_disable]; [rqps] are the images by their key.
    [None]: the list leads to memory that is gone. *)
Fixpoint res_disable_loop (l : list nat) (rqps : gmap Z ntrdma_rqp) (s : res_store qp_obj)
  : option (gmap Z ntrdma_rqp * res_store qp_obj) :=
  match l with
  | [] => Some (rqps, s)
  | p :: l =>
      match ls_objs s !! p with
      | None => None
      | Some o =>
          let k := qp_rqp_key (qo_qp (o_val o)) in
          let '(q, r) := ntrdma_qp_reset (qo_qp (o_val o)) (rqps !! k) in
          let o := mk_object (o_key o) (o_kref o) (o_in_list o) (qo_set_qp q (o_val o)) in
          res_disable_loop l (partial_alter (λ _, r) k rqps) (ls_set_objs (<[p := o]> (ls_objs s)) s)
      end
  end.
Definition ntrdma_dev_res_disable (rqps : gmap Z ntrdma_rqp) (s : res_store qp_obj)
  : option (gmap Z ntrdma_rqp * res_store qp_obj) :=
  res_disable_loop (rev (ls_list s)) rqps s.

End Code.
End Verbs.
