(* ===== verification/VerbsRef.v ===== *)
(** * The objects of the verbs and their references

    Who holds an object is a list: the application's handles, open files, copies in
    progress, and the queue pairs that complete into a completion queue.  An
    object has as many references as it has holders, in every run of the verbs; the
    proof follows the references as permissions that the calls take and give back. *)

From stdpp Require Import gmap.
From S2P Require Import Prelude Kernel Ring Ntc Mem Zip Vec Mm Buf Vbell.
From S2P Require Import Res MrCmd Qp Cq Post QpCmd QpSetup Verbs.
Import Ring Ntc Mem Zip Vec Mm Buf Vbell Res MrCmd Qp Cq Post QpCmd QpSetup Verbs.

Module VerbsRef.

(** ** Counting *)

Definition cnt (o : uobj) (l : list uobj) : Z := Z.of_nat (length (filter (λ x, x = o) l)).

Lemma cnt_nil o : cnt o [] = 0.
Proof. done. Qed.
Lemma cnt_cons o x l : cnt o (x :: l) = (if decide (x = o) then 1 else 0) + cnt o l.
Proof. unfold cnt. rewrite filter_cons. case_decide; cbn [length]; lia. Qed.
Lemma cnt_app o l k : cnt o (l ++ k) = cnt o l + cnt o k.
Proof. unfold cnt. rewrite list.filter_app, length_app. lia. Qed.
Lemma cnt_nonneg o l : 0 <= cnt o l.
Proof. unfold cnt. lia. Qed.
Lemma cnt_perm o l k : l ≡ₚ k → cnt o l = cnt o k.
Proof. unfold cnt. by intros ->. Qed.
Lemma cnt_elem o l : 0 < cnt o l ↔ o ∈ l.
Proof.
  unfold cnt. split.
  - intros H. destruct (filter _ l) as [|x k] eqn:E; [cbn in H; lia|].
    assert (x ∈ filter (λ x, x = o) l) as Hx by (rewrite E; left). by apply list_elem_of_filter in Hx as [-> ?].
  - intros H. assert (o ∈ filter (λ x, x = o) l) as Hx by (by apply list_elem_of_filter).
    destruct (filter _ l); [by apply not_elem_of_nil in Hx|cbn; lia].
Qed.
Lemma cnt_zero o l : o ∉ l → cnt o l = 0.
Proof. intros H. pose proof (cnt_nonneg o l). destruct (decide (cnt o l = 0)); [done|]. destruct H. apply cnt_elem. lia. Qed.

Lemma perm_filter_out `{EqDecision A} (o : A) l : NoDup l → o ∈ l → l ≡ₚ o :: filter (λ x, x ≠ o) l.
Proof.
  intros Hn Ho. induction Hn as [|x l Hx Hn IH]; [by apply not_elem_of_nil in Ho|].
  rewrite filter_cons. case_decide as E.
  - apply elem_of_cons in Ho as [->|Ho]; [done|]. rewrite Permutation_swap. constructor. by apply IH.
  - destruct (decide (x = o)) as [->|]; [|done]. constructor. rewrite list_filter_all; [done|].
    by intros y Hy ->.
Qed.
Lemma perm_without o l : NoDup l → o ∈ l → l ≡ₚ o :: without o l.
Proof. apply perm_filter_out. Qed.
Lemma without_nodup o l : NoDup l → NoDup (without o l).
Proof. apply list.NoDup_filter. Qed.
Lemma elem_without x o l : x ∈ without o l ↔ x ≠ o ∧ x ∈ l.
Proof. unfold without. by rewrite list_elem_of_filter. Qed.
Lemma without_none o l : o ∉ l → without o l = l.
Proof. intros H. apply list_filter_all. by intros y Hy ->. Qed.
Lemma without_head o l : o ∉ l → without o (o :: l) = l.
Proof. intros H. unfold without. rewrite filter_cons_False by (by intros []). by apply without_none. Qed.

(** ** Holders and references *)

Definition qp_objs (v : verbs) : gmap nat (object qp_obj) := ls_objs (iw_res (vs_iw v)).
Definition mr_objs (v : verbs) : gmap nat (object ntrdma_mr) := ls_objs (iw_mrs (vs_iw v)).
Definition cq_refs (w : world) : gmap nat Z := fst <$> iw_cqs w.

(** The completion queues of a queue pair hold its entries. *)
Definition qp_cqs (o : object qp_obj) : nat * nat := (qo_send_cq (o_val o), qo_recv_cq (o_val o)).
Definition uses_of (m : gmap nat (nat * nat)) : list uobj :=
  concat ((λ x : nat * (nat * nat), [OCq (fst (snd x)); OCq (snd (snd x))]) <$> map_to_list m).
Definition uses (v : verbs) : list uobj := uses_of (qp_cqs <$> qp_objs v).

Lemma uses_insert m p x : m !! p = None → uses_of (<[p := x]> m) ≡ₚ OCq (fst x) :: OCq (snd x) :: uses_of m.
Proof. intros H. unfold uses_of. by rewrite (map_to_list_insert _ _ _ H). Qed.
Lemma uses_delete m p x : m !! p = Some x → uses_of m ≡ₚ OCq (fst x) :: OCq (snd x) :: uses_of (delete p m).
Proof. intros H. rewrite <- (insert_delete_id _ _ _ H) at 1. by rewrite uses_insert by apply lookup_delete_eq. Qed.
Lemma uses_only m o : o ∈ uses_of m → ∃ c, o = OCq c.
Proof.
  unfold uses_of. intros H. apply list_elem_of_In, in_concat in H as (l & Hl & Ho).
  apply in_map_iff in Hl as (x & <- & _). cbn in Ho. destruct Ho as [<-|[<-|[]]]; by eexists.
Qed.

Definition refs (v : verbs) (o : uobj) : Z :=
  match o with
  | OCq c => default 0 (cq_refs (vs_iw v) !! c)
  | OQp p => default 0 (o_kref <$> qp_objs v !! p)
  | OMr m => default 0 (o_kref <$> mr_objs v !! m)
  | OPd d => default 0 (fst <$> vs_pds v !! d)
  end.
Definition live (v : verbs) (o : uobj) : Prop :=
  match o with
  | OCq c => is_Some (cq_refs (vs_iw v) !! c)
  | OQp p => is_Some (qp_objs v !! p)
  | OMr m => is_Some (mr_objs v !! m)
  | OPd d => is_Some (vs_pds v !! d)
  end.

(** The objects that the application sees through files and pages. *)
Definition filed (o : uobj) : Prop := match o with OCq _ | OQp _ => True | OMr _ | OPd _ => False end.

(** How many objects of each kind the counters of the device miss. *)
Definition offs (v : verbs) : Z * Z * Z * Z :=
  (Z.of_nat (size (cq_refs (vs_iw v))) - vs_cq_num v, Z.of_nat (size (qp_objs v)) - vs_qp_num v,
   Z.of_nat (size (mr_objs v)) - vs_mr_num v, Z.of_nat (size (vs_pds v)) - vs_pd_num v).

(** [held]: the holders that are not queue pairs. *)
Record rc_inv (v : verbs) (held : list uobj) (off : Z * Z * Z * Z) : Prop := {
  ri_refs o : refs v o = cnt o (held ++ uses v);
  ri_live o : live v o → 0 < refs v o ∨ ∃ p, o = OQp p ∧ p ∈ vs_release v ∧ refs v o = 0;
  ri_rel p : p ∈ vs_release v → live v (OQp p) ∧ refs v (OQp p) = 0;
  ri_rel_once : NoDup (vs_release v);
  ri_offs : offs v = off;
  ri_pages o : o ∈ vs_pages v → live v o ∧ filed o;
  ri_umems : vs_umems v = Z.of_nat (length (vs_mr_umem v));
  ri_umem_once : NoDup (vs_mr_umem v);
  ri_umem m : m ∈ vs_mr_umem v → live v (OMr m) }.

(** The same objects, holders and counts. *)
Record same_view (v v' : verbs) : Prop := {
  sv_cqs : cq_refs (vs_iw v') = cq_refs (vs_iw v);
  sv_qps : (λ o, (o_kref o, qp_cqs o)) <$> qp_objs v' = (λ o, (o_kref o, qp_cqs o)) <$> qp_objs v;
  sv_mrs : o_kref <$> mr_objs v' = o_kref <$> mr_objs v;
  sv_pds : fst <$> vs_pds v' = fst <$> vs_pds v;
  sv_nums : (vs_cq_num v', vs_qp_num v', vs_mr_num v', vs_pd_num v') = (vs_cq_num v, vs_qp_num v, vs_mr_num v, vs_pd_num v);
  sv_pages : vs_pages v' = vs_pages v;
  sv_umems : vs_umems v' = vs_umems v ∧ vs_mr_umem v' = vs_mr_umem v;
  sv_rel : vs_release v' = vs_release v }.

#[export] Instance same_view_equiv : Equivalence same_view.
Proof.
  split.
  - by intros v.
  - intros v v' []. split; try done. by split; symmetry; apply sv_umems0.
  - intros v1 v2 v3 [] []. split; try congruence. destruct sv_umems0, sv_umems1. split; congruence.
Qed.

Section View.
Context (v v' : verbs) (S : same_view v v').

Lemma view_refs o : refs v' o = refs v o.
Proof.
  destruct S as [H1 H2 H3 H4 _ _ _ _]. destruct o; cbn.
  - by rewrite H1.
  - apply (f_equal (lookup p)) in H2. rewrite !lookup_fmap in H2.
    by destruct (qp_objs v' !! p), (qp_objs v !! p); simplify_eq/=.
  - apply (f_equal (lookup m)) in H3. rewrite !lookup_fmap in H3. by rewrite H3.
  - apply (f_equal (lookup d)) in H4. rewrite !lookup_fmap in H4. by rewrite H4.
Qed.

Lemma view_live o : live v' o ↔ live v o.
Proof.
  destruct S as [H1 H2 H3 H4 _ _ _ _]. destruct o; cbn.
  - by rewrite H1.
  - apply (f_equal (lookup p)) in H2. rewrite !lookup_fmap in H2.
    destruct (qp_objs v' !! p), (qp_objs v !! p); simplify_eq/=; split; intros []; (done || by eexists).
  - apply (f_equal (lookup m)) in H3. rewrite !lookup_fmap in H3.
    destruct (mr_objs v' !! m), (mr_objs v !! m); simplify_eq/=; split; intros []; (done || by eexists).
  - apply (f_equal (lookup d)) in H4. rewrite !lookup_fmap in H4.
    destruct (vs_pds v' !! d), (vs_pds v !! d); simplify_eq/=; split; intros []; (done || by eexists).
Qed.

Lemma view_uses : uses v' = uses v.
Proof.
  unfold uses. f_equal. pose proof (sv_qps _ _ S) as H. apply (f_equal (fmap snd)) in H. rewrite <- !map_fmap_compose in H. exact H.
Qed.

Lemma view_sizes :
  size (qp_objs v') = size (qp_objs v) ∧ size (mr_objs v') = size (mr_objs v) ∧ size (vs_pds v') = size (vs_pds v).
Proof.
  destruct S as [_ H2 H3 H4 _ _ _ _].
  apply (f_equal size) in H2, H3, H4. rewrite !map_size_fmap in H2. rewrite !map_size_fmap in H3. rewrite !map_size_fmap in H4. done.
Qed.

Lemma view_inv held off : rc_inv v held off → rc_inv v' held off.
Proof.
  intros []. destruct view_sizes as (Z1 & Z2 & Z3). pose proof (sv_nums _ _ S) as Hn. injection Hn as N1 N2 N3 N4.
  destruct (sv_umems _ _ S) as [U1 U2]. pose proof (sv_rel _ _ S) as R. pose proof (sv_cqs _ _ S) as C.
  constructor; intros; unfold offs in *; rewrite ?view_refs, ?view_uses, ?R, ?C, ?Z1, ?Z2, ?Z3, ?U1, ?U2, ?N1, ?N2, ?N3, ?N4; auto.
  - apply view_live in H. apply ri_live0 in H as [?|(p & -> & Hp & Hr)]; [by left|right; by exists p].
  - rewrite view_live. rewrite R in H. by apply ri_rel0.
  - rewrite view_live. apply ri_pages0. by rewrite <- (sv_pages _ _ S).
  - rewrite view_live. apply ri_umem0. by rewrite <- U2.
Qed.
End View.

Lemma inv_perm v held held' off : held ≡ₚ held' → rc_inv v held off → rc_inv v held' off.
Proof. intros Hp []. constructor; try done. intros o. rewrite ri_refs0. apply cnt_perm. by rewrite Hp. Qed.

(** ** One object changes *)

(** Everything but the references and holders of [o0] stays. *)
Lemma inv_intro o0 v v' held held' off off' : rc_inv v held off →
  (∀ o, o ≠ o0 → refs v' o = refs v o ∧ (live v' o ↔ live v o)) →
  (∀ o, cnt o (held' ++ uses v') = cnt o (held ++ uses v) + (if decide (o = o0) then refs v' o0 - refs v o0 else 0)) →
  (live v' o0 → 0 < refs v' o0 ∨ ∃ p, o0 = OQp p ∧ p ∈ vs_release v' ∧ refs v' o0 = 0) →
  (∀ p, OQp p ≠ o0 → p ∈ vs_release v' ↔ p ∈ vs_release v) →
  (∀ p, OQp p = o0 → p ∈ vs_release v' → live v' o0 ∧ refs v' o0 = 0) →
  NoDup (vs_release v') → offs v' = off' →
  (∀ o, o ∈ vs_pages v' → o ∈ vs_pages v ∧ (o = o0 → live v' o0)) →
  vs_umems v' = Z.of_nat (length (vs_mr_umem v')) → NoDup (vs_mr_umem v') →
  (∀ m, m ∈ vs_mr_umem v' → live v' (OMr m)) → rc_inv v' held' off'.
Proof.
  intros H Hrest Hc H0 Hrel Hrel0 Hone Ho Hp U1 U2 U3. constructor; try done.
  - intros o. rewrite Hc, <- (ri_refs _ _ _ H). case_decide as E; [subst; lia|]. destruct (Hrest o E) as [-> _]. lia.
  - intros o Hl. destruct (decide (o = o0)) as [->|E]; [by apply H0|]. destruct (Hrest o E) as [R L].
    apply L in Hl. apply (ri_live _ _ _ H) in Hl as [Hl|(p & -> & Hp' & Hr)]; [left; lia|right; exists p].
    repeat split; [|lia]. by apply Hrel.
  - intros p Hin. destruct (decide (OQp p = o0)) as [E|E].
    + rewrite E. by apply (Hrel0 p).
    + destruct (Hrest _ E) as [R L]. apply Hrel in Hin; [|done]. apply (ri_rel _ _ _ H) in Hin as [Hl Hr]. split; [by apply L|lia].
  - intros o Hin. apply Hp in Hin as [Hin Hl]. destruct (ri_pages _ _ _ H _ Hin) as [? ?]. split; [|done].
    destruct (decide (o = o0)) as [->|E]; [by apply Hl|by apply (Hrest o E)].
Qed.

(** The parts that only creations and releases change. *)
Definition rest (v : verbs) := (vs_pages v, vs_umems v, vs_mr_umem v, vs_release v).

(** A holder more or less, while others remain. *)
Lemma bump_inv o0 d v v' held held' off off' : rc_inv v held off → rest v' = rest v → uses v' = uses v → offs v' = off' →
  (∀ o, live v' o ↔ live v o) → (∀ o, refs v' o = refs v o + if decide (o = o0) then d else 0) →
  (∀ o, cnt o held' = cnt o held + if decide (o = o0) then d else 0) →
  0 < refs v o0 → 0 < refs v' o0 → rc_inv v' held' off'.
Proof.
  intros H Hr Hu Ho Hl Hk Hc P0 P1. injection Hr as R1 R2 R3 R4.
  apply (inv_intro o0 v _ held _ off); rewrite ?R1, ?R2, ?R3, ?R4; auto; try apply H.
  - intros o E. split; [rewrite Hk, decide_False by done; lia|apply Hl].
  - intros o. rewrite !cnt_app, Hc, Hu, Hk. destruct (decide (o0 = o0)); [|done]. case_decide; lia.
  - intros p E Hp. subst o0. apply (ri_rel _ _ _ H) in Hp as [_ Hp]. lia.
  - intros o Hin. split; [done|]. intros ->. apply Hl, (ri_pages _ _ _ H _ Hin).
  - intros m Hm. apply Hl, (ri_umem _ _ _ H _ Hm).
Qed.

Lemma live_refs v o n : refs v o = n → 0 < n → live v o.
Proof.
  intros <-. destruct o; cbn; (destruct (_ !! _); [by eexists|cbn; lia]).
Qed.

(** An object is made, with one holder; its queue pair's completion queues are held. *)
Lemma new_inv o0 v v' held held' off off' : rc_inv v held off → rest v' = rest v → offs v' = off' →
  (∀ o, o ≠ o0 → refs v' o = refs v o ∧ (live v' o ↔ live v o)) →
  ¬ live v o0 → refs v' o0 = 1 → held' ++ uses v' ≡ₚ o0 :: held ++ uses v → rc_inv v' held' off'.
Proof.
  intros H Hr Ho Hrest Hn H1 Hp. injection Hr as R1 R2 R3 R4.
  assert (refs v o0 = 0) as H0.
  { pose proof (cnt_nonneg o0 (held ++ uses v)) as Hnn. rewrite <- (ri_refs _ _ _ H) in Hnn.
    destruct (decide (0 < refs v o0)) as [E|]; [|lia]. destruct Hn. by eapply live_refs. }
  apply (inv_intro o0 v _ held _ off); rewrite ?R1, ?R2, ?R3, ?R4; auto; try apply H.
  - intros o. rewrite (cnt_perm _ _ _ Hp), cnt_cons, H0, H1. destruct (decide (o0 = o)), (decide (o = o0)); subst; done || lia.
  - intros _. left. lia.
  - intros p <- Hin. apply (ri_rel _ _ _ H) in Hin as [Hl _]. done.
  - intros o Hin. split; [done|]. intros ->. by eapply live_refs.
  - intros m Hm. apply (ri_umem _ _ _ H) in Hm. destruct (decide (OMr m = o0)) as [<-|E]; [done|]. by apply Hrest.
Qed.

(** Equality of the four offsets. *)
Ltac off_eq := cbn; repeat match goal with |- (_, _) = (_, _) => f_equal end; lia.

(** ** What the calls do to the holders *)

Section Inv.
Context `{K : Kernel} (ntc : ntc_dev).

(** What a part of the driver leaves as it was. *)
Definition frame (v : verbs) :=
  (vs_pds v, vs_pd_list v, vs_pd_next_key v, vs_files v, vs_fds v, (vs_umems v, vs_mr_umem v), vs_release v, vs_cq_list v,
   (vs_qp_num v, vs_mr_num v, vs_pd_num v)).

Lemma set_iw_view (w : world) v :
  cq_refs w = cq_refs (vs_iw v) → ls_objs (iw_res w) = qp_objs v → ls_objs (iw_mrs w) = mr_objs v →
  same_view v (vs_set_iw w v).
Proof. intros H1 H2 H3. constructor; try done; unfold qp_objs, mr_objs in *; cbn; by rewrite ?H2, ?H3. Qed.

Lemma set_bufs_view b v : same_view v (vs_set_bufs b v).
Proof. by apply set_iw_view. Qed.

Lemma alloc_view v ok v' : vs_alloc v = (ok, v') → same_view v v' ∧ frame v' = frame v ∧ vs_pages v' = vs_pages v.
Proof. unfold vs_alloc. destruct (kalloc _); intros [= <- <-]; (split; [apply set_bufs_view|done]). Qed.

Lemma free_view n v : same_view v (vs_free n v).
Proof. apply set_bufs_view. Qed.

Definition rget (c : nat) (m : gmap nat Z) : gmap nat Z := alter (λ n, n + 1) c m.
Definition rput (c : nat) (m : gmap nat Z) : gmap nat Z :=
  partial_alter (λ x, x ≫= λ n, if n - 1 =? 0 then None else Some (n - 1)) c m.

Lemma cq_get_refs c (w : world) : cq_refs (ntrdma_cq_get c w) = rget c (cq_refs w).
Proof.
  unfold cq_refs, rget, ntrdma_cq_get, iw_cq. cbn [iw_cqs]. apply map_eq. intros i. rewrite lookup_fmap.
  destruct (decide (i = c)) as [->|Hi]; [rewrite !lookup_alter_eq|rewrite !lookup_alter_ne by done];
    rewrite lookup_fmap; by destruct (iw_cqs w !! _) as [[]|].
Qed.

Lemma cq_put_refs c (w : world) : cq_refs (ntrdma_cq_put c w) = rput c (cq_refs w).
Proof.
  unfold cq_refs, rput, ntrdma_cq_put. cbn [iw_cqs]. apply map_eq. intros i. rewrite lookup_fmap.
  destruct (decide (i = c)) as [->|Hi].
  - rewrite !lookup_partial_alter_eq, lookup_fmap. destruct (iw_cqs w !! c) as [[n q]|]; [|done]. cbn. by destruct (n - 1 =? 0).
  - by rewrite !lookup_partial_alter_ne, lookup_fmap.
Qed.

Lemma rput_lookup c m o : (∀ i n, m !! i = Some n → 0 < n) →
  default 0 (rput c m !! o) = default 0 (m !! o) - (if decide (o = c ∧ is_Some (m !! c)) then 1 else 0).
Proof.
  intros Hm. unfold rput. destruct (decide (o = c)) as [->|Ho].
  - rewrite lookup_partial_alter_eq. destruct (m !! c) as [n|] eqn:E; cbn.
    + rewrite decide_True by (split; [done|by eexists]). destruct (Z.eqb_spec (n - 1) 0); cbn; lia.
    + rewrite decide_False by (intros [_ []%is_Some_None]). lia.
  - rewrite lookup_partial_alter_ne by done. rewrite decide_False by tauto. lia.
Qed.

(** Is the completion queue released on the way from [m] to [m']? *)
Definition dies (c : nat) (m m' : gmap nat Z) : bool := bool_decide (is_Some (m !! c) ∧ m' !! c = None).

Lemma rput_size c m : (∀ i n, m !! i = Some n → 0 < n) →
  Z.of_nat (size (rput c m)) = Z.of_nat (size m) - Z.b2z (dies c m (rput c m)).
Proof.
  intros Hm. destruct (m !! c) as [n|] eqn:En.
  - destruct (Z.eqb_spec (n - 1) 0) as [Hn|Hn].
    + assert (rput c m = delete c m) as ->.
      { unfold rput. rewrite (partial_alter_ext _ (λ _, None)); [done|].
        intros x Hx. rewrite En in Hx. subst x. cbn. by rewrite (proj2 (Z.eqb_eq _ _)). }
      unfold dies. rewrite bool_decide_true by (split; [by eexists|apply lookup_delete_eq]).
      rewrite map_size_delete_Some by (by eexists). assert (size m ≠ 0%nat); [|cbn; lia].
      intros ?%map_size_empty_iff%(f_equal (lookup c)). rewrite En in *. done.
    + assert (rput c m = <[c := n - 1]> m) as ->.
      { unfold rput. rewrite (partial_alter_ext _ (λ _, Some (n - 1))); [done|].
        intros x Hx. rewrite En in Hx. subst x. cbn. by rewrite (proj2 (Z.eqb_neq _ _)). }
      unfold dies. rewrite bool_decide_false by (intros [_ ?]; by rewrite lookup_insert_eq in *).
      rewrite map_size_insert_Some by (by eexists). cbn. lia.
  - assert (rput c m = m) as ->.
    { unfold rput. rewrite (partial_alter_ext _ id); [apply map_eq; intros i; destruct (decide (i = c)) as [->|];
        [by rewrite lookup_partial_alter_eq|by rewrite lookup_partial_alter_ne]|].
      intros x Hx. rewrite En in Hx. by subst x. }
    unfold dies. rewrite bool_decide_false by (intros [[? ?] _]; congruence). cbn. lia.
Qed.

Lemma release_fields l (w : world) v : let v' := cqs_release l w v in
  qp_objs v' = ls_objs (iw_res w) ∧ mr_objs v' = ls_objs (iw_mrs w) ∧ cq_refs (vs_iw v') = cq_refs w
  ∧ frame v' = frame v.
Proof.
  induction l as [|c l IH]; [done|]. cbn [cqs_release]. case_bool_decide; [|exact IH].
  cbv zeta in *. destruct IH as (H1 & H2 & H3 & H4). split; [exact H1|]. split; [exact H2|]. split; [exact H3|].
  unfold frame in *. cbn. rewrite !Z.add_0_r. exact H4.
Qed.

Lemma live_cq c (w : world) : is_Some (iw_cqs w !! c) ↔ is_Some (cq_refs w !! c).
Proof. unfold cq_refs. by rewrite lookup_fmap, fmap_is_Some. Qed.
Lemma gone_cq c (w : world) : iw_cqs w !! c = None ↔ cq_refs w !! c = None.
Proof. unfold cq_refs. by rewrite lookup_fmap, fmap_None. Qed.

Lemma release_one c (w : world) v : let v' := cqs_release [c] w v in let d := dies c (cq_refs (vs_iw v)) (cq_refs w) in
  vs_cq_num v' = vs_cq_num v - Z.b2z d ∧ vs_pages v' = if d then without (OCq c) (vs_pages v) else vs_pages v.
Proof.
  cbn [cqs_release]. unfold dies.
  destruct (decide (is_Some (cq_refs (vs_iw v) !! c) ∧ cq_refs w !! c = None)) as [H|H].
  - rewrite !bool_decide_true; [cbn; split; [lia|done]|done|].
    split; [apply live_cq, H|]. split; [apply gone_cq, H|by intros ?%not_elem_of_nil].
  - rewrite !bool_decide_false; [cbn; split; [lia|done]|done|].
    intros (H1 & H2 & _). apply H. split; [by apply live_cq|by apply gone_cq].
Qed.

Lemma cq_put_fields c v : let v' := vs_cq_put c v in
  qp_objs v' = qp_objs v ∧ mr_objs v' = mr_objs v ∧ cq_refs (vs_iw v') = rput c (cq_refs (vs_iw v)) ∧ frame v' = frame v.
Proof. unfold vs_cq_put. rewrite <- cq_put_refs. apply (release_fields [c] (ntrdma_cq_put c (vs_iw v)) v). Qed.

Lemma refs_pos v held off c n : rc_inv v held off → cq_refs (vs_iw v) !! c = Some n → 0 < n.
Proof.
  intros H Hn. destruct (ri_live _ _ _ H (OCq c)) as [Hp|(p & [=] & _)]; [by eexists|]. cbn in Hp. by rewrite Hn in Hp.
Qed.

(** A holder of a completion queue gives its reference back. *)
Lemma cq_put_inv c v held off : rc_inv v (OCq c :: held) off → rc_inv (vs_cq_put c v) held off.
Proof.
  intros H. destruct (cq_put_fields c v) as (F1 & F2 & F3 & F4). unfold frame in F4.
  destruct (release_one c (ntrdma_cq_put c (vs_iw v)) v) as [N P]. fold (vs_cq_put c v) in N, P. rewrite cq_put_refs in N, P.
  pose proof (λ i n, refs_pos v _ off i n H) as Hpos. pose proof (ri_refs _ _ _ H (OCq c)) as Hc. cbn [app] in Hc.
  rewrite cnt_cons, decide_True in Hc by done. pose proof (cnt_nonneg (OCq c) (held ++ uses v)).
  destruct (cq_refs (vs_iw v) !! c) as [n|] eqn:En; [|cbn in Hc; rewrite En in Hc; cbn in Hc; lia].
  set (v' := vs_cq_put c v) in *. clearbody v'.
  assert (∀ o, refs v' o = refs v o - if decide (o = OCq c) then 1 else 0) as Hr.
  { intros o. destruct o; cbn; rewrite ?F1, ?F2; try (rewrite decide_False by done; lia).
    - rewrite F3, rput_lookup by done. rewrite En. do 2 case_decide; try lia; naive_solver.
    - assert (vs_pds v' = vs_pds v) as -> by congruence. rewrite decide_False by done. lia. }
  assert (∀ o, o ≠ OCq c → live v' o ↔ live v o) as Hl.
  { intros o Ho. destruct o; cbn; rewrite ?F1, ?F2; try done.
    - rewrite F3. unfold rput. rewrite lookup_partial_alter_ne; [done|congruence].
    - assert (vs_pds v' = vs_pds v) as -> by congruence. done. }
  assert (uses v' = uses v) as Hu by (unfold uses; by rewrite F1).
  assert (vs_release v' = vs_release v) as Rl by congruence.
  constructor; rewrite ?Rl.
  - intros o. rewrite Hr, Hu, (ri_refs _ _ _ H). cbn [app]. rewrite cnt_cons.
    destruct (decide (o = OCq c)), (decide (OCq c = o)); subst; done || lia.
  - intros o Ho. destruct (decide (o = OCq c)) as [->|Hne].
    + left. cbn in Ho |- *. rewrite F3 in *. destruct Ho as [k Hk]. rewrite Hk. cbn. unfold rput in Hk.
      rewrite lookup_partial_alter_eq, En in Hk. cbn in Hk. destruct (Z.eqb_spec (n - 1) 0); [done|]. injection Hk as <-.
      specialize (Hpos c n En). lia.
    + rewrite Hr, decide_False by done. rewrite Z.sub_0_r. apply Hl in Ho; [|done]. by apply (ri_live _ _ _ H).
  - intros p Hp. rewrite Hl, Hr, decide_False by done. rewrite Z.sub_0_r. by apply (ri_rel _ _ _ H).
  - apply H.
  - rewrite <- (ri_offs _ _ _ H). unfold offs. rewrite F1, F2, F3, N.
    assert (vs_qp_num v' = vs_qp_num v) as -> by congruence. assert (vs_mr_num v' = vs_mr_num v) as -> by congruence.
    assert (vs_pd_num v' = vs_pd_num v) as -> by congruence. assert (vs_pds v' = vs_pds v) as -> by congruence.
    rewrite (rput_size _ _ Hpos). do 3 f_equal. lia.
  - rewrite P. intros o Ho. destruct (decide (o = OCq c)) as [->|Hne].
    + destruct (dies _ _ _) eqn:D; [by apply elem_without in Ho as [? _]|].
      split; [|done]. cbn. rewrite F3. unfold dies in D. apply bool_decide_eq_false in D. destruct (rput c _ !! c) as [k|] eqn:Ek; [by eexists|].
      destruct D. split; [by rewrite En; eexists|done].
    + rewrite Hl by done. apply (ri_pages _ _ _ H). by destruct (dies _ _ _); [apply elem_without in Ho as [_ ?]|].
  - assert (vs_umems v' = vs_umems v) as -> by congruence. assert (vs_mr_umem v' = vs_mr_umem v) as -> by congruence. apply H.
  - assert (vs_mr_umem v' = vs_mr_umem v) as -> by congruence. apply H.
  - assert (vs_mr_umem v' = vs_mr_umem v) as -> by congruence. intros m Hm. apply Hl; [done|]. by apply (ri_umem _ _ _ H).
Qed.

(** *** Queue pairs *)

Lemma cleanup_zip l : ∀ (w : qp_world dev_mem) l' w', recv_cleanup_loop ntc l w = Some (l', w') → qw_zip w' = qw_zip w.
Proof.
  induction l as [|[s|sh d] l IH]; intros w l' w'; cbn [recv_cleanup_loop].
  - by intros [= _ <-].
  - destruct (recv_cleanup_loop ntc l w) as [[l1 w1]|] eqn:E; [|done]. intros [= _ <-]. by eapply IH.
  - destruct (ntc_export_buf_free _ _ _) as [[b bw]|]; [|done].
    destruct (recv_cleanup_loop ntc l _) as [[l1 w1]|] eqn:E; [|done]. intros [= _ <-]. apply IH in E. by rewrite E.
Qed.

Lemma cleanup_wqes_zip l : ∀ (w w' : qp_world dev_mem), cleanup_wqes ntc l w = Some w' → qw_zip w' = qw_zip w.
Proof.
  induction l as [|r l IH]; intros w w'; cbn [cleanup_wqes]; [by intros [= <-]|].
  unfold ntrdma_recv_wqe_cleanup. destruct (recv_cleanup_loop _ _ _) as [[l1 w1]|] eqn:E; [|done].
  intros H%IH. rewrite H. by eapply cleanup_zip.
Qed.

(** The parts of the world that only completion queues change. *)
Record iw_frame (w w' : world) : Prop := {
  if_objs : ls_objs (iw_res w') = ls_objs (iw_res w);
  if_list : ls_list (iw_res w') = ls_list (iw_res w);
  if_mrs : iw_mrs w' = iw_mrs w }.

Lemma err_send_wqe_fields o (w : world) :
  cq_refs (err_send_wqe_buf o w) = rput (qo_recv_cq o) (rput (qo_send_cq o) (cq_refs w)) ∧ iw_frame w (err_send_wqe_buf o w).
Proof.
  unfold err_send_wqe_buf, err_res. destruct (ntrdma_kvec_dispose_key _ _ _) as [k h].
  rewrite <- !cq_put_refs. by repeat split.
Qed.

Lemma err_recv_wqe_fields o (w w' : world) : err_recv_wqe_buf ntc o w = Some w' →
  cq_refs w' = rput (qo_recv_cq o) (rput (qo_send_cq o) (cq_refs w)) ∧ iw_frame w w'.
Proof.
  unfold err_recv_wqe_buf, err_send_cqe_buf. destruct (ntc_export_buf_free _ _ _) as [[? b]|]; [|done]. intros [= <-].
  match goal with |- context [err_send_wqe_buf o ?x] => destruct (err_send_wqe_fields o x) as [H1 [H2 H3 H4]] end.
  rewrite H1. by repeat split.
Qed.

Lemma err_recv_cqe_fields o (w w' : world) : err_recv_cqe_buf ntc o w = Some w' →
  cq_refs w' = rput (qo_recv_cq o) (rput (qo_send_cq o) (cq_refs w)) ∧ iw_frame w w'.
Proof.
  unfold err_recv_cqe_buf. destruct (cleanup_wqes _ _ _) as [q|] eqn:E; [|done]. apply cleanup_wqes_zip in E.
  intros [H1 [H2 H3 H4]]%err_recv_wqe_fields. rewrite H1. split; [done|]. split; rewrite ?H2, ?H3, ?H4; try done.
  unfold iw_mrs. cbn. by rewrite E.
Qed.

Lemma poll_refs (f : list poll → list poll) c (w : world) :
  cq_refs (iw_cq (λ x, (fst x, cq_set_poll_list (f (cq_poll_list (snd x))) (snd x))) c w) = cq_refs w.
Proof.
  unfold cq_refs, iw_cq. cbn [iw_cqs]. apply map_eq. intros i. rewrite !lookup_fmap.
  destruct (decide (i = c)) as [->|Hi]; [rewrite lookup_alter_eq|by rewrite lookup_alter_ne].
  by destruct (iw_cqs w !! c) as [[]|].
Qed.

Lemma add_poll_refs p c (w : world) : cq_refs (cq_add_poll p c w) = cq_refs w.
Proof. exact (poll_refs (λ l, l ++ [p]) c w). Qed.
Lemma del_poll_refs p c (w : world) : cq_refs (cq_del_poll p c w) = cq_refs w.
Proof. exact (poll_refs (filter (λ x, x ≠ p)) c w). Qed.

Lemma deinit_fields sp rp o (w w' : world) : ntrdma_qp_deinit ntc sp rp o w = Some w' →
  cq_refs w' = rput (qo_recv_cq o) (rput (qo_send_cq o) (cq_refs w)) ∧ iw_frame w w'.
Proof.
  unfold ntrdma_qp_deinit. cbv zeta. intros [H1 [H2 H3 H4]]%err_recv_cqe_fields.
  match type of H1 with context [cq_refs (iw_set_bufs ?b ?x)] => change (cq_refs (iw_set_bufs b x)) with (cq_refs x) in H1 end.
  rewrite !del_poll_refs in H1. split; [done|]. by split.
Qed.

(** A reference that is taken and put again. *)
Lemma rput_rget c m : (∀ i n, m !! i = Some n → 0 < n) → is_Some (m !! c) → rput c (rget c m) = m.
Proof.
  intros Hm [n Hn]. unfold rput, rget. apply map_eq. intros i. destruct (decide (i = c)) as [->|].
  - rewrite lookup_partial_alter_eq, lookup_alter_eq. rewrite Hn. cbn. specialize (Hm c n Hn).
    destruct (Z.eqb_spec (n + 1 - 1) 0); [lia|]. f_equal. lia.
  - by rewrite lookup_partial_alter_ne, lookup_alter_ne.
Qed.

Lemma rget_some c m i : is_Some (rget c m !! i) ↔ is_Some (m !! i).
Proof.
  unfold rget. destruct (decide (i = c)) as [->|]; [rewrite lookup_alter_eq, fmap_is_Some|rewrite lookup_alter_ne by done]; done.
Qed.
Lemma rget_pos c m : (∀ i n, m !! i = Some n → 0 < n) → ∀ i n, rget c m !! i = Some n → 0 < n.
Proof.
  intros Hm i n. unfold rget. destruct (decide (i = c)) as [->|]; [rewrite lookup_alter_eq|rewrite lookup_alter_ne by done; apply Hm].
  intros (k & Hk & ->)%fmap_Some. specialize (Hm c k Hk). lia.
Qed.

(** A queue pair that cannot be set up keeps no reference. *)
Lemma qp_init_fields attr r s sp rp (w : world) rc oo w' :
  ntrdma_qp_init ntc attr r s sp rp w = Some (rc, oo, w') →
  (∀ i n, cq_refs w !! i = Some n → 0 < n) → is_Some (cq_refs w !! r) → is_Some (cq_refs w !! s) →
  iw_frame w w' ∧ match oo with
    | None => rc < 0 ∧ cq_refs w' = cq_refs w
    | Some o => rc = 0 ∧ qo_send_cq o = s ∧ qo_recv_cq o = r ∧ cq_refs w' = rget s (rget r (cq_refs w))
    end.
Proof.
  intros H Hpos Hr Hs. unfold ntrdma_qp_init in H.
  destruct (ntrdma_kvec_reserve_key _ _) as [[key v] h]. destruct (Z.ltb_spec key 0).
  { injection H as <- <- <-. unfold err_res. cbn. destruct (ntrdma_kvec_dispose_key _ _ _). by repeat split. }
  assert (rput r (rput s (rget s (rget r (cq_refs w)))) = cq_refs w) as Hback.
  { rewrite (rput_rget s); [apply rput_rget; done|by apply rget_pos|by apply rget_some]. }
  assert (∀ b x, cq_refs x = cq_refs (iw_set_bufs b x)) as Hb by done.
  assert (∀ a b (x : world), cq_refs x = cq_refs (iw_set_res a b x)) as Hv by done.
  destruct (ntc_local_buf_zalloc _ _) as [[rc1 slb] b1]. destruct (Z.ltb_spec rc1 0).
  { injection H as <- <- <-. match goal with |- context [err_send_wqe_buf ?o ?x] => destruct (err_send_wqe_fields o x) as [E [F1 F2 F3]] end.
    rewrite E, <- Hb, !cq_get_refs, <- Hv. cbn [qo_send_cq qo_recv_cq]. by rewrite Hback. }
  destruct (_ntc_export_buf_zalloc_init _ _ _ _ _ _) as [[[[rc2 ceb] b2] seg]|]; [|done]. destruct (Z.ltb_spec rc2 0).
  { injection H as <- <- <-. unfold err_send_cqe_buf.
    match goal with |- context [err_send_wqe_buf ?o ?x] => destruct (err_send_wqe_fields o x) as [E [F1 F2 F3]] end.
    rewrite E, <- !Hb, !cq_get_refs, <- Hv. cbn [qo_send_cq qo_recv_cq]. by rewrite Hback. }
  destruct (ntc_local_buf_zalloc _ _) as [[rc3 rlb] b3]. destruct (Z.ltb_spec rc3 0).
  { destruct (err_recv_wqe_buf _ _ _) as [wx|] eqn:E; [|done]. injection H as <- <- <-.
    apply err_recv_wqe_fields in E as [E [F1 F2 F3]].
    rewrite E, <- !Hb, !cq_get_refs, <- Hv. cbn [qo_send_cq qo_recv_cq]. by rewrite Hback. }
  destruct (kmalloc_node _) as [ptr b4]. destruct (ptr =? 0).
  { destruct (err_recv_cqe_buf _ _ _) as [wx|] eqn:E; [|done]. injection H as <- <- <-.
    apply err_recv_cqe_fields in E as [E [F1 F2 F3]].
    rewrite E, <- !Hb, !cq_get_refs, <- Hv. cbn [qo_send_cq qo_recv_cq]. by rewrite Hback. }
  injection H as <- <- <-. rewrite !add_poll_refs, <- !Hb, !cq_get_refs, <- Hv. by repeat split.
Qed.

(** *** Counters, pages and references *)

Lemma count_inv a b c d v held off off' : rc_inv v held off → off' = (let '(w, x, y, z) := off in (w - a, x - b, y - c, z - d)) →
  rc_inv (vs_count a b c d v) held off'.
Proof.
  intros [] ->. constructor; try done. unfold offs in *. change (vs_iw (vs_count a b c d v)) with (vs_iw v).
  subst off. unfold qp_objs, mr_objs. off_eq.
Qed.

Lemma user_inv pages files fds v held off : rc_inv v held off → (∀ o, o ∈ pages → live v o ∧ filed o) →
  rc_inv (vs_set_user pages files fds v) held off.
Proof. by intros [] Hp; constructor. Qed.

Lemma put_page_inv o v held off : rc_inv v held off → rc_inv (put_page o v) held off.
Proof. intros H. apply user_inv; [done|]. intros x [_ Hx]%elem_without. by apply (ri_pages _ _ _ H). Qed.

Lemma held_refs v o held off : rc_inv v (o :: held) off → 0 < refs v o.
Proof.
  intros H. rewrite (ri_refs _ _ _ H). cbn [app]. rewrite cnt_cons, decide_True by done. pose proof (cnt_nonneg o (held ++ uses v)). lia.
Qed.

(** An entry of the table of queue pairs changes, but not its completion queues. *)
Lemma qp_upd p o o' v v' : qp_objs v !! p = Some o → qp_objs v' = <[p := o']> (qp_objs v) → qp_cqs o' = qp_cqs o →
  cq_refs (vs_iw v') = cq_refs (vs_iw v) → mr_objs v' = mr_objs v → vs_pds v' = vs_pds v →
  uses v' = uses v ∧ (∀ x, live v' x ↔ live v x)
  ∧ (∀ x, refs v' x = refs v x + if decide (x = OQp p) then o_kref o' - o_kref o else 0)
  ∧ size (qp_objs v') = size (qp_objs v).
Proof.
  intros Hp Hv Hc H1 H2 H3. split; [|split; [|split]].
  - unfold uses. rewrite Hv, fmap_insert, Hc, insert_id; [done|]. by rewrite lookup_fmap, Hp.
  - intros []; cbn; rewrite ?H1, ?H2, ?H3, ?Hv; try done. rewrite lookup_insert_is_Some'. split; [intros [->|?]; [by eexists|done]|by right].
  - intros []; cbn; rewrite ?H1, ?H2, ?H3, ?Hv; try (rewrite decide_False by done; lia). destruct (decide (p0 = p)) as [->|E].
    + rewrite lookup_insert_eq, Hp, decide_True by done. cbn. lia.
    + rewrite lookup_insert_ne, decide_False by congruence. lia.
  - rewrite Hv. apply map_size_insert_Some. by eexists.
Qed.

Lemma qp_live v p held off : rc_inv v (OQp p :: held) off → ∃ o, qp_objs v !! p = Some o ∧ 0 < o_kref o.
Proof. intros H%held_refs. cbn in H. destruct (qp_objs v !! p) as [o|]; [by exists o|cbn in H; lia]. Qed.

Lemma qp_get_inv p v held off : rc_inv v held off → 0 < refs v (OQp p) → rc_inv (vs_qp_get p v) (OQp p :: held) off.
Proof.
  intros H Hp. cbn in Hp. destruct (qp_objs v !! p) as [o|] eqn:E; [cbn in Hp|cbn in Hp; lia].
  set (o' := o_set_kref (o_kref o + 1) o). set (v' := vs_qp_get p v).
  assert (qp_objs v' = <[p := o']> (qp_objs v)) as Hv.
  { unfold v', vs_qp_get, qp_objs, heap_get. cbn. unfold qp_objs in E. rewrite E. unfold ntrdma_obj_get.
    by rewrite (proj2 (Z.eqb_neq _ _)) by lia. }
  destruct (qp_upd p o o' v v' E Hv) as (U & L & R & Z); try done.
  apply (bump_inv (OQp p) 1 v _ held _ off); try done.
  - rewrite <- (ri_offs _ _ _ H). unfold offs. by rewrite Z.
  - intros x. rewrite R. case_decide; cbn; lia.
  - intros x. rewrite cnt_cons. destruct (decide (x = OQp p)), (decide (OQp p = x)); subst; done || lia.
  - cbn. rewrite E. cbn. lia.
  - rewrite R, decide_True by done. cbn. rewrite E. cbn. lia.
Qed.

Lemma qp_put_inv p v held off : rc_inv v (OQp p :: held) off → rc_inv (vs_qp_put p v) held off.
Proof.
  intros H. destruct (qp_live _ _ _ _ H) as (o & E & Hp). set (o' := o_set_kref (o_kref o - 1) o).
  unfold vs_qp_put, ntrdma_res_put, ntrdma_obj_put. pose proof E as E'. unfold qp_objs in E. rewrite E. clear E. rename E' into E.
  fold o'. set (v' := vs_set_iw _ v).
  destruct (qp_upd p o o' v v' E) as (U & L & R & Z); try done.
  assert (refs v (OQp p) = o_kref o) as Rp by (cbn; by rewrite E). specialize (R (OQp p)) as R0. rewrite decide_True, Rp in R0 by done.
  change (o_kref o') with (o_kref o - 1) in R0.
  assert (∀ x, cnt x (OQp p :: held) = cnt x held + if decide (x = OQp p) then 1 else 0) as Hc.
  { intros x. rewrite cnt_cons. destruct (decide (x = OQp p)), (decide (OQp p = x)); subst; done || lia. }
  assert (offs v' = off) as Ho by (rewrite <- (ri_offs _ _ _ H); unfold offs; by rewrite Z).
  destruct (Z.eqb_spec (o_kref o - 1) 0) as [Hn|Hn].
  - assert (p ∉ vs_release v) as Hp0 by (intros [_ Hx]%(ri_rel _ _ _ H); lia).
    apply (inv_intro (OQp p) v _ (OQp p :: held) _ off); try done; try apply H.
    + intros x Hx. split; [|apply L]. change (refs v' x = refs v x). rewrite R, decide_False by done. lia.
    + intros x. change (uses (vs_set_release _ v')) with (uses v'). change (refs (vs_set_release _ v')) with (refs v').
      rewrite !cnt_app, Hc, U, R0, Rp. case_decide; lia.
    + intros _. right. exists p. repeat split; [cbn; apply elem_of_app; right; by left|]. change (refs v' (OQp p) = 0). lia.
    + intros q Hq. cbn. rewrite elem_of_app, list_elem_of_singleton. naive_solver.
    + intros q _ _. split; [change (live v' (OQp p)); apply L; by eapply live_refs|change (refs v' (OQp p) = 0); lia].
    + cbn. apply list.NoDup_app. split; [apply H|]. split; [by intros x Hx ->%list_elem_of_singleton|apply NoDup_singleton].
    + intros x Hx. split; [done|]. intros ->. change (live v' (OQp p)). apply L. by eapply live_refs.
  - apply (bump_inv (OQp p) (- 1) v _ (OQp p :: held) _ off); try done; try lia.
    + intros x. rewrite R. case_decide; cbn; lia.
    + intros x. rewrite Hc. case_decide; lia.
Qed.

Lemma obj_put_inv o v held off : rc_inv v (o :: held) off → filed o → rc_inv (obj_put o v) held off.
Proof. intros H Ho. destruct o; try done; [by apply cq_put_inv|by apply qp_put_inv]. Qed.

Lemma rget_lookup c m i : default 0 (rget c m !! i) = default 0 (m !! i) + if decide (i = c ∧ is_Some (m !! c)) then 1 else 0.
Proof.
  unfold rget. destruct (decide (i = c)) as [->|E].
  - rewrite lookup_alter_eq. destruct (m !! c) as [n|]; cbn; [rewrite decide_True by (split; [done|by eexists]); lia|].
    by rewrite decide_False by (intros [_ []%is_Some_None]).
  - rewrite lookup_alter_ne by done. rewrite decide_False by tauto. lia.
Qed.
Lemma rget_size c m : size (rget c m) = size m.
Proof.
  unfold rget. destruct (m !! c) as [n|] eqn:E.
  - assert (alter (λ x, x + 1) c m = <[c := n + 1]> m) as ->; [|apply map_size_insert_Some; by eexists].
    rewrite <- (insert_delete_id _ _ _ E) at 1. rewrite alter_insert_eq. by rewrite insert_delete_eq.
  - f_equal. by apply alter_id'.
Qed.

Lemma cons_cnt o x l : cnt x (o :: l) = cnt x l + if decide (x = o) then 1 else 0.
Proof. rewrite cnt_cons. destruct (decide (x = o)), (decide (o = x)); subst; done || lia. Qed.

Lemma cq_get_inv c v held off : rc_inv v held off → 0 < refs v (OCq c) →
  rc_inv (vs_set_iw (ntrdma_cq_get c (vs_iw v)) v) (OCq c :: held) off.
Proof.
  intros H Hp. set (v' := vs_set_iw _ v). assert (cq_refs (vs_iw v') = rget c (cq_refs (vs_iw v))) as E by apply cq_get_refs.
  assert (∀ x, refs v' x = refs v x + if decide (x = OCq c) then 1 else 0) as R.
  { intros x. destruct x as [i| | |]; try (rewrite decide_False, Z.add_0_r by done; done). cbn. cbn in E. rewrite E, rget_lookup.
    assert (is_Some (cq_refs (vs_iw v) !! c)) by (by eapply (live_refs v (OCq c))). case_decide as D1; case_decide as D2; (lia || naive_solver). }
  apply (bump_inv (OCq c) 1 v _ held _ off); try done.
  - rewrite <- (ri_offs _ _ _ H). unfold offs. by rewrite E, rget_size.
  - intros []; try done. cbn. cbn in E. rewrite E. apply rget_some.
  - intros x. apply cons_cnt.
  - rewrite R, decide_True by done. lia.
Qed.

Lemma obj_get_inv o v held off : rc_inv v held off → 0 < refs v o → filed o →
  rc_inv (obj_get o v) (o :: held) off.
Proof. intros H Hp Ho. destruct o; try done; [by apply cq_get_inv|by apply qp_get_inv]. Qed.

(** *** Regions and protection domains *)

Lemma mr_upd m o o' v v' : mr_objs v !! m = Some o → mr_objs v' = <[m := o']> (mr_objs v) →
  cq_refs (vs_iw v') = cq_refs (vs_iw v) → qp_objs v' = qp_objs v → vs_pds v' = vs_pds v →
  (∀ x, live v' x ↔ live v x)
  ∧ (∀ x, refs v' x = refs v x + if decide (x = OMr m) then o_kref o' - o_kref o else 0)
  ∧ size (mr_objs v') = size (mr_objs v).
Proof.
  intros Hm Hv H1 H2 H3. split; [|split].
  - intros []; cbn; rewrite ?H1, ?H2, ?H3, ?Hv; try done. rewrite lookup_insert_is_Some'. split; [intros [->|?]; [by eexists|done]|by right].
  - intros []; cbn; rewrite ?H1, ?H2, ?H3, ?Hv; try (rewrite decide_False by done; lia). destruct (decide (m0 = m)) as [->|E].
    + rewrite lookup_insert_eq, Hm, decide_True by done. cbn. lia.
    + rewrite lookup_insert_ne, decide_False by congruence. lia.
  - rewrite Hv. apply map_size_insert_Some. by eexists.
Qed.

Lemma mr_get_inv m v held off : rc_inv v held off → 0 < refs v (OMr m) → rc_inv (vs_mr_get m v) (OMr m :: held) off.
Proof.
  intros H Hp. cbn in Hp. destruct (mr_objs v !! m) as [o|] eqn:E; [cbn in Hp|cbn in Hp; lia].
  set (o' := o_set_kref (o_kref o + 1) o). set (v' := vs_mr_get m v).
  assert (mr_objs v' = <[m := o']> (mr_objs v)) as Hv.
  { unfold v', vs_mr_get, mr_objs, heap_get. cbn. unfold mr_objs in E. rewrite E. unfold ntrdma_obj_get.
    by rewrite (proj2 (Z.eqb_neq _ _)) by lia. }
  destruct (mr_upd m o o' v v' E Hv) as (L & R & Z); try done.
  apply (bump_inv (OMr m) 1 v _ held _ off); try done.
  - rewrite <- (ri_offs _ _ _ H). unfold offs. by rewrite Z.
  - intros x. rewrite R. case_decide; cbn; lia.
  - intros x. apply cons_cnt.
  - cbn. rewrite E. cbn. lia.
  - rewrite R, decide_True by done. cbn. rewrite E. cbn. lia.
Qed.

(** An object goes with its last holder. *)
Lemma gone_inv o0 v v' held off off' : rc_inv v (o0 :: held) off → refs v o0 = 1 → vs_release v' = vs_release v →
  uses v' = uses v → (∀ o, o ≠ o0 → refs v' o = refs v o ∧ (live v' o ↔ live v o)) → ¬ live v' o0 → refs v' o0 = 0 →
  offs v' = off' → (∀ o, o ∈ vs_pages v' → o ∈ vs_pages v ∧ o ≠ o0) → vs_umems v' = Z.of_nat (length (vs_mr_umem v')) →
  NoDup (vs_mr_umem v') → (∀ m, m ∈ vs_mr_umem v' → m ∈ vs_mr_umem v ∧ OMr m ≠ o0) → rc_inv v' held off'.
Proof.
  intros H H1 Hr Hu Hrest Hl H0 Ho Hp U1 U2 U3. apply (inv_intro o0 v _ (o0 :: held) _ off); rewrite ?Hr; try done; try apply H.
  - intros o. rewrite H0, H1, Hu. cbn [app]. rewrite cons_cnt. case_decide; lia.
  - intros p <- [_ Hin]%(ri_rel _ _ _ H). rewrite Hin in H1. lia.
  - intros o Hin. apply Hp in Hin as [? ?]. by split.
  - intros m Hin. apply U3 in Hin as [Hin E]. apply (Hrest _ E). by apply (ri_umem _ _ _ H).
Qed.

Lemma mr_put_inv m v held off : rc_inv v (OMr m :: held) off → rc_inv (ntrdma_mr_put m v) held off.
Proof.
  intros H. pose proof (held_refs _ _ _ _ H) as Hp. cbn in Hp. destruct (mr_objs v !! m) as [o|] eqn:E; [cbn in Hp|cbn in Hp; lia].
  assert (refs v (OMr m) = o_kref o) as Rp by (cbn; by rewrite E).
  unfold ntrdma_mr_put, ntrdma_res_put, ntrdma_obj_put. pose proof E as E'. unfold mr_objs in E. rewrite E. clear E. rename E' into E.
  destruct (Z.eqb_spec (o_kref o - 1) 0) as [Hn|Hn].
  - unfold mr_release. cbn [vs_iw vs_set_iw iw_mrs iw_set_mrs iw_set_zip iw_qw qw_set_zip qw_zip zw_mem dm_mr ls_set_objs ls_objs].
    rewrite lookup_insert_eq. destruct (ntrdma_mr_deinit _ _ _ _) as [[sg vec] h].
    match goal with |- rc_inv (vs_count _ _ _ _ (vs_free _ ?y)) _ _ => set (v' := y) end.
    assert (mr_objs v' = delete m (mr_objs v)) as Hm.
    { unfold v', mr_objs. cbn. case_bool_decide; apply delete_insert_eq. }
    assert (cq_refs (vs_iw v') = cq_refs (vs_iw v) ∧ qp_objs v' = qp_objs v ∧ vs_pds v' = vs_pds v
            ∧ vs_pages v' = vs_pages v ∧ vs_release v' = vs_release v) as (F1 & F2 & F3 & F4 & F5) by (unfold v'; by case_bool_decide).
    assert (vs_mr_umem v' = filter (λ x, x ≠ m) (vs_mr_umem v)) as U.
    { unfold v'. case_bool_decide as B; [done|]. symmetry. apply list_filter_all. intros x Hx ->. done. }
    assert (vs_umems v' = Z.of_nat (length (vs_mr_umem v'))) as U'.
    { rewrite U. pose proof (ri_umems _ _ _ H) as Hu. unfold v'. case_bool_decide as B; cbn.
      - rewrite Hu. rewrite (perm_filter_out m (vs_mr_umem v)) at 1 by (done || apply H). cbn [length]. lia.
      - rewrite list_filter_all; [done|]. by intros x Hx ->. }
    assert (vs_cq_num v' = vs_cq_num v ∧ vs_qp_num v' = vs_qp_num v ∧ vs_mr_num v' = vs_mr_num v ∧ vs_pd_num v' = vs_pd_num v)
      as (N1 & N2 & N3 & N4) by (unfold v'; by case_bool_decide).
    clearbody v'. destruct off as [[[w x] y] z].
    apply (count_inv _ _ _ _ _ _ (w, x, y - 1, z)); [|off_eq].
    apply (view_inv v'); [apply free_view|].
    apply (gone_inv (OMr m) v _ _ (w, x, y, z)); try done; try lia.
    + unfold uses. by rewrite F2.
    + intros [] Hx; cbn; rewrite ?F1, ?F2, ?F3, ?Hm; try done. by rewrite lookup_delete_ne by congruence.
    + cbn. rewrite Hm, lookup_delete_eq. by intros [].
    + cbn. by rewrite Hm, lookup_delete_eq.
    + pose proof (ri_offs _ _ _ H) as Ho. unfold offs in *. rewrite F1, F2, F3, Hm, N1, N2, N3, N4.
      injection Ho as <- <- <- <-. rewrite map_size_delete_Some by (by eexists).
      assert (size (mr_objs v) ≠ 0%nat) by (intros ?%map_size_empty_iff%(f_equal (lookup m)); rewrite E in *; done). off_eq.
    + rewrite F4. intros o1 Hx. split; [done|]. intros ->. by apply (ri_pages _ _ _ H) in Hx as [_ []].
    + rewrite U. apply list.NoDup_filter, H.
    + rewrite U. intros m1 [Hx ?]%list_elem_of_filter. split; [done|congruence].
  - set (v' := vs_set_iw _ v).
    destruct (mr_upd m o (o_set_kref (o_kref o - 1) o) v v' E) as (L & R & Z); try done.
    apply (bump_inv (OMr m) (- 1) v _ (OMr m :: held) _ off); try done; try lia.
    + rewrite <- (ri_offs _ _ _ H). unfold offs. by rewrite Z.
    + intros x. rewrite R. case_decide; cbn; lia.
    + intros x. rewrite cons_cnt. case_decide; lia.
    + rewrite R, Rp, decide_True by done. cbn. lia.
Qed.

Lemma pd_put_inv d v held off : rc_inv v (OPd d :: held) off → rc_inv (ntrdma_pd_put d v) held off.
Proof.
  intros H. pose proof (held_refs _ _ _ _ H) as Hp. cbn in Hp. unfold ntrdma_pd_put.
  destruct (vs_pds v !! d) as [[n key]|] eqn:E; [cbn in Hp|cbn in Hp; lia].
  assert (refs v (OPd d) = n) as Rp by (cbn; by rewrite E). destruct (Z.eqb_spec (n - 1) 0) as [Hn|Hn].
  - unfold ntrdma_pd_release. set (v' := vs_set_pds _ _ _ v). destruct off as [[[w x] y] z].
    apply (count_inv _ _ _ _ _ _ (w, x, y, z - 1)); [|off_eq]. apply (view_inv v'); [apply free_view|].
    apply (gone_inv (OPd d) v _ _ (w, x, y, z)); try done; try lia; try apply H.
    + intros [] Hx; cbn; try done. by rewrite lookup_delete_ne by congruence.
    + cbn. rewrite lookup_delete_eq. by intros [].
    + cbn. by rewrite lookup_delete_eq.
    + pose proof (ri_offs _ _ _ H) as Ho. unfold offs in *. injection Ho as <- <- <- <-. cbn. rewrite map_size_delete_Some by (by eexists).
      assert (size (vs_pds v) ≠ 0%nat) by (intros ?%map_size_empty_iff%(f_equal (lookup d)); rewrite E in *; done). off_eq.
    + intros o Ho. split; [done|]. intros ->. by apply (ri_pages _ _ _ H) in Ho as [_ []].
  - set (v' := vs_set_pds _ _ _ v).
    assert (∀ x, refs v' x = refs v x + if decide (x = OPd d) then - 1 else 0) as R.
    { intros [c|p|m|d']; try (rewrite decide_False, Z.add_0_r by done; done). cbn. destruct (decide (d' = d)) as [->|Hd].
      - rewrite lookup_insert_eq, E. destruct (decide _); [cbn; lia|done].
      - rewrite lookup_insert_ne by done. destruct (decide (OPd d' = OPd d)); [congruence|lia]. }
    apply (bump_inv (OPd d) (- 1) v _ (OPd d :: held) _ off); try done; try lia.
    + rewrite <- (ri_offs _ _ _ H). unfold offs. cbn. by rewrite map_size_insert_Some by (by eexists).
    + intros [c|p|m|d']; try done. cbn. rewrite lookup_insert_is_Some'. split; [intros [->|?]; [by eexists|done]|by right].
    + intros x. rewrite cons_cnt. case_decide; lia.
    + rewrite R, Rp, decide_True by done. lia.
Qed.

(** *** Files and the application's part *)

Lemma obj_put_files o v : vs_files (obj_put o v) = vs_files v.
Proof.
  destruct o as [c|p|m|d]; cbn [obj_put]; try done.
  - destruct (cq_put_fields c v) as (_ & _ & _ & F). unfold frame in F. congruence.
  - unfold vs_qp_put. by destruct (ntrdma_res_put _ _) as [[] ?].
Qed.

Lemma flush_view (v : verbs) : same_view v (vs_set_iw (iw_flush (vs_iw v)) v).
Proof. by apply set_iw_view. Qed.

Lemma fput_files o v : filed o → vs_files (fput o v) = without o (vs_files v).
Proof.
  intros Ho. destruct o as [c|p|m|d]; try done; cbn [fput].
  - apply (obj_put_files (OCq c)).
  - apply (obj_put_files (OQp p)).
Qed.

Lemma fput_inv o v held off : rc_inv v (o :: held) off → filed o → rc_inv (fput o v) held off.
Proof.
  intros H Ho. assert (rc_inv (vs_set_user (vs_pages v) (without o (vs_files v)) (vs_fds v) v) (o :: held) off) as H1.
  { apply user_inv; [done|]. apply (ri_pages _ _ _ H). }
  destruct o as [c|p|m|d]; try done.
  - by apply cq_put_inv, put_page_inv.
  - apply qp_put_inv. eapply view_inv; [apply flush_view|]. by apply put_page_inv.
Qed.

Lemma user_in_inv o u v held off : rc_inv v (o :: held) off → filed o →
  let '(rc, skip, v') := user_in o u v in vs_files v' = vs_files v ∧ rc_inv v' (if rc =? 0 then o :: held else held) off.
Proof.
  intros H Ho. unfold user_in. destruct (negb (ui_in u)); [done|].
  destruct (negb (ui_copied_in u)); [by split; [apply obj_put_files|apply obj_put_inv]|].
  destruct (negb (ui_desc u)); [done|]. destruct (ui_page_ptr u =? 0); [by split; [apply obj_put_files|apply obj_put_inv]|].
  destruct (Z.ltb_spec (ui_pages u) 0).
  - rewrite (proj2 (Z.eqb_neq _ _)) by lia. by split; [apply obj_put_files|apply obj_put_inv].
  - destruct (ui_pages u =? 0); [done|]. split; [done|]. apply user_inv; [done|].
    intros x [->|Hx]%elem_of_cons; [|by apply (ri_pages _ _ _ H)]. split; [|done]. eapply live_refs; [done|]. by eapply held_refs.
Qed.

Lemma obj_get_files o v : vs_files (obj_get o v) = vs_files v.
Proof. by destruct o. Qed.

Lemma user_out_inv o u v held off : rc_inv v (o :: held) off → filed o → o ∉ vs_files v →
  let '(rc, no_file, v') := user_out o u v in
  if rc =? 0 then ∃ b : bool, vs_files v' = (if b then [o] else []) ++ vs_files v ∧ rc_inv v' ((if b then [o] else []) ++ o :: held) off
  else vs_files v' = vs_files v ∧ rc_inv v' held off.
Proof.
  intros H Ho Hf. unfold user_out. destruct (negb (ui_out u)); [by exists false|].
  destruct (Z.ltb_spec (ui_fd u) 0).
  { rewrite (proj2 (Z.eqb_neq _ _)) by lia. by split; [apply obj_put_files|apply obj_put_inv]. }
  set (v1 := vs_set_user _ _ (vs_fds v + 1) v).
  assert (rc_inv v1 (o :: held) off) as I1 by (apply user_inv; [done|apply (ri_pages _ _ _ H)]).
  assert (∀ x, rc_inv x held off → rc_inv (put_unused_fd x) held off) as Hfd.
  { intros x Hx. apply user_inv; [done|apply (ri_pages _ _ _ Hx)]. }
  destruct (Z.ltb_spec (ui_file u) 0).
  { rewrite (proj2 (Z.eqb_neq _ _)) by lia. split; [apply (obj_put_files o v1)|by apply Hfd, obj_put_inv]. }
  set (v2 := vs_set_user _ (o :: _) _ v1).
  assert (rc_inv v2 (o :: held) off) as I2 by (apply user_inv; [done|apply (ri_pages _ _ _ I1)]).
  assert (rc_inv (obj_get o v2) (o :: o :: held) off) as I3 by (apply obj_get_inv; [done|by eapply held_refs|done]).
  destruct (negb (ui_copied_out u)); [|exists true; split; [apply obj_get_files|done]].
  split; [|by apply Hfd, obj_put_inv, Ho; apply fput_inv]. change (vs_files (put_unused_fd ?x)) with (vs_files x).
  rewrite obj_put_files, fput_files, obj_get_files by done. by apply without_head.
Qed.

(** A failure gives the creation's reference back. *)
Lemma user_part_inv o u v held off : rc_inv v (o :: held) off → filed o → o ∉ vs_files v →
  let '(rc, no_file, v') := user_part o u v in
  if rc =? 0 then ∃ b : bool, vs_files v' = (if b then [o] else []) ++ vs_files v ∧ rc_inv v' ((if b then [o] else []) ++ o :: held) off
  else vs_files v' = vs_files v ∧ rc_inv v' held off.
Proof.
  intros H Ho Hf. unfold user_part. pose proof (user_in_inv o u v held off H Ho) as Hi.
  destruct (user_in o u v) as [[rc skip] v1]. destruct Hi as [F I]. destruct (rc =? 0) eqn:E; cbn [negb orb].
  - destruct skip; [rewrite E; by exists false|]. rewrite <- F. apply user_out_inv; [done..|]. by rewrite F.
  - by rewrite E.
Qed.

(** *** Queue pairs come and go *)

Lemma dies_ext c m m' n n' : m !! c = n !! c → m' !! c = n' !! c → dies c m m' = dies c n n'.
Proof. unfold dies. by intros -> ->. Qed.

Lemma without_comm a b l : without a (without b l) = without b (without a l).
Proof. unfold without. rewrite !list_filter_filter. apply list_filter_iff. tauto. Qed.
Lemma without_twice a l : without a (without a l) = without a l.
Proof. unfold without. rewrite list_filter_filter. apply list_filter_iff. tauto. Qed.

(** Two puts in a row, and the release of the queues that they leave without holder. *)
Lemma puts_view s r (w : world) v : (∀ i n, cq_refs (vs_iw v) !! i = Some n → 0 < n) →
  cq_refs w = rput r (rput s (cq_refs (vs_iw v))) → iw_frame (vs_iw v) w →
  same_view (vs_cq_put r (vs_cq_put s v)) (cqs_release [s; r] w v).
Proof.
  intros Hm Hw [F1 F2 F3]. set (m := cq_refs (vs_iw v)) in *.
  destruct (cq_put_fields s v) as (A1 & A2 & A3 & A4). destruct (cq_put_fields r (vs_cq_put s v)) as (B1 & B2 & B3 & B4).
  destruct (release_fields [s; r] w v) as (C1 & C2 & C3 & C4).
  destruct (release_one s (ntrdma_cq_put s (vs_iw v)) v) as [N1 P1]. fold (vs_cq_put s v) in N1, P1.
  destruct (release_one r (ntrdma_cq_put r (vs_iw (vs_cq_put s v))) (vs_cq_put s v)) as [N2 P2].
  fold (vs_cq_put r (vs_cq_put s v)) in N2, P2. rewrite cq_put_refs in N1, P1, N2, P2. rewrite A3 in N2, P2, B3. fold m in N1, P1, N2, P2, B3.
  destruct (release_one r w v) as [N3 P3]. fold m in N3, P3. rewrite Hw in N3, P3.
  assert (let v' := cqs_release [s; r] w v in let d := negb (bool_decide (s = r)) && dies s m (cq_refs w) in
    vs_cq_num v' = vs_cq_num (cqs_release [r] w v) - Z.b2z d
    ∧ vs_pages v' = if d then without (OCq s) (vs_pages (cqs_release [r] w v)) else vs_pages (cqs_release [r] w v)) as [N4 P4].
  { set (x := cqs_release [r] w v). change (cqs_release [s; r] w v) with
      (if bool_decide (is_Some (iw_cqs (vs_iw v) !! s) ∧ iw_cqs w !! s = None ∧ s ∉ [r]) then ntrdma_cq_release s x else x).
    unfold dies, m. destruct (decide (s = r)) as [->|E].
    - rewrite (bool_decide_true (r = r)) by done. rewrite bool_decide_false by (intros (_ & _ & []); by left). cbn. split; [lia|done].
    - rewrite (bool_decide_false (s = r)) by done. cbn [negb andb].
      destruct (decide (is_Some (cq_refs (vs_iw v) !! s) ∧ cq_refs w !! s = None)) as [D|D].
      + rewrite !bool_decide_true; [cbn; split; [lia|done]|done|].
        rewrite live_cq, gone_cq. split; [apply D|]. split; [apply D|by intros ?%list_elem_of_singleton].
      + rewrite !bool_decide_false; [cbn; split; [lia|done]|done|]. rewrite live_cq, gone_cq. tauto. }
  set (x := cqs_release [s; r] w v) in *. set (y := vs_cq_put r (vs_cq_put s v)) in *. rewrite N3 in N4. rewrite P3 in P4. rewrite Hw in N4, P4.
  assert (vs_cq_num x = vs_cq_num y ∧ vs_pages x = vs_pages y) as [Nx Px].
  { rewrite N4, P4, N2, P2, N1, P1. destruct (decide (s = r)) as [->|E].
    - rewrite bool_decide_true by done. cbn [negb andb]. unfold dies.
      destruct (rput r m !! r) as [k|] eqn:E1.
      + rewrite (bool_decide_false (is_Some (m !! r) ∧ Some k = None)) by (by intros [_ ?]).
        assert (is_Some (m !! r)) as Hs.
        { unfold rput in E1. rewrite lookup_partial_alter_eq in E1. by destruct (m !! r). }
        destruct (decide (rput r (rput r m) !! r = None)) as [D|D].
        * rewrite !bool_decide_true; [cbn; split; [lia|done]|by split; [eexists|]|done].
        * rewrite !bool_decide_false; [cbn; split; [lia|done]|by intros [_ ?]..].
      + assert (rput r (rput r m) !! r = None) as E2 by (unfold rput at 1; by rewrite lookup_partial_alter_eq, E1).
        rewrite E2. rewrite (bool_decide_false (is_Some None ∧ _)) by (by intros [[] _]).
        case_bool_decide; cbn; split; (lia || done).
    - rewrite bool_decide_false by done. cbn [negb andb].
      rewrite (dies_ext s m (rput r (rput s m)) m (rput s m)) by (done || by apply lookup_partial_alter_ne).
      rewrite (dies_ext r m (rput r (rput s m)) (rput s m) (rput r (rput s m))) by (done || (symmetry; by apply lookup_partial_alter_ne)).
      split; [lia|]. destruct (dies r _ _), (dies s _ _); try done. apply without_comm. }
  clearbody x y. unfold frame in *. constructor; try congruence.
  - rewrite C1, B1, A1. unfold qp_objs. by rewrite F1.
  - rewrite C2, B2, A2. unfold mr_objs. by rewrite F3.
  - split; congruence.
Qed.

Lemma puts_inv s r (w : world) v held off : rc_inv v (OCq s :: OCq r :: held) off →
  cq_refs w = rput r (rput s (cq_refs (vs_iw v))) → iw_frame (vs_iw v) w → rc_inv (cqs_release [s; r] w v) held off.
Proof.
  intros H Hw F. eapply view_inv; [apply puts_view; try done; intros i n; by eapply refs_pos|].
  by apply cq_put_inv, cq_put_inv.
Qed.

Lemma uses_new v v' p o : qp_objs v !! p = None → qp_objs v' = <[p := o]> (qp_objs v) →
  uses v' ≡ₚ OCq (qo_send_cq (o_val o)) :: OCq (qo_recv_cq (o_val o)) :: uses v.
Proof.
  intros Hn Hv. unfold uses. rewrite Hv, fmap_insert. by rewrite uses_insert by (by rewrite lookup_fmap, Hn).
Qed.
Lemma uses_gone v v' p o : qp_objs v !! p = Some o → qp_objs v' = delete p (qp_objs v) →
  uses v ≡ₚ OCq (qo_send_cq (o_val o)) :: OCq (qo_recv_cq (o_val o)) :: uses v'.
Proof.
  intros Hn Hv. unfold uses. rewrite Hv, fmap_delete. by rewrite uses_delete by (by rewrite lookup_fmap, Hn).
Qed.

(** A queue pair that has no holder, or only the one of its creation, leaves its
    completion queues. *)
Lemma qp_gone_inv p o v v' held held' off off' : rc_inv v held off → qp_objs v !! p = Some o → qp_objs v' = delete p (qp_objs v) →
  (∀ x, cnt x held = cnt x held' + if decide (x = OQp p) then o_kref o else 0) →
  cq_refs (vs_iw v') = cq_refs (vs_iw v) → mr_objs v' = mr_objs v → vs_pds v' = vs_pds v → offs v' = off' →
  vs_pages v' = without (OQp p) (vs_pages v) → (vs_umems v', vs_mr_umem v') = (vs_umems v, vs_mr_umem v) →
  vs_release v' = filter (λ x, x ≠ p) (vs_release v) →
  rc_inv v' (OCq (qo_send_cq (o_val o)) :: OCq (qo_recv_cq (o_val o)) :: held') off'.
Proof.
  intros H Hp Hv Hc H1 H2 H3 Ho Pg Um Rl. injection Um as U1 U2.
  assert (refs v' (OQp p) = 0) as R0 by (cbn; by rewrite Hv, lookup_delete_eq).
  apply (inv_intro (OQp p) v _ held _ off); rewrite ?Pg, ?U1, ?U2, ?Rl; try done; try apply H.
  - intros [] Hx; cbn; rewrite ?H1, ?H2, ?H3, ?Hv; try done. by rewrite lookup_delete_ne by congruence.
  - intros x. rewrite R0, (cnt_app x held), (cnt_perm x (uses v) _ (uses_gone v v' p o Hp Hv)). cbn [app].
    rewrite !cnt_cons, !cnt_app, Hc. cbn [refs]. rewrite Hp. change (default 0 (o_kref <$> Some o)) with (o_kref o).
    destruct (decide (x = OQp p)); lia.
  - cbn. rewrite Hv, lookup_delete_eq. by intros [].
  - intros q Hq. rewrite list_elem_of_filter. naive_solver.
  - intros q [= ->] [? _]%list_elem_of_filter. done.
  - apply list.NoDup_filter, H.
  - intros x [Hx ?]%elem_without. done.
  - intros m Hm. cbn. rewrite H2. by apply (ri_umem _ _ _ H).
Qed.

(** The release of the queues and a change elsewhere can be swapped. *)
Lemma release_comm (F : verbs → verbs) (G : world → world) l w v :
  (∀ v, iw_cqs (vs_iw (F v)) = iw_cqs (vs_iw v)) → (∀ w, iw_cqs (G w) = iw_cqs w) →
  (∀ c v, F (ntrdma_cq_release c v) = ntrdma_cq_release c (F v)) → (∀ w v, F (vs_set_iw w v) = vs_set_iw (G w) (F v)) →
  F (cqs_release l w v) = cqs_release l (G w) (F v).
Proof.
  intros H1 H2 H3 H4. induction l as [|c l IH]; [apply H4|]. cbn [cqs_release]. rewrite H1, H2, <- IH. by case_bool_decide.
Qed.

Lemma release_none l (w : world) v : cq_refs w = cq_refs (vs_iw v) → cqs_release l w v = vs_set_iw w v.
Proof.
  intros H. induction l as [|c l IH]; [done|]. cbn [cqs_release]. rewrite bool_decide_false; [done|].
  intros (H1 & H2 & _). apply live_cq in H1. apply gone_cq in H2. rewrite <- H, H2 in H1. by destruct H1.
Qed.

Definition drop_qp (p : nat) (w : world) : world := iw_set_store (ls_set_objs (delete p (ls_objs (iw_res w))) (iw_res w)) w.

Lemma release_work_inv p v v' held off : rc_inv v held off → p ∈ vs_release v → qp_release_work ntc p v = Some v' →
  rc_inv v' held off ∧ vs_files v' = vs_files v.
Proof.
  intros H Hp. unfold qp_release_work. destruct (ls_objs (iw_res (vs_iw v)) !! p) as [o|] eqn:E; [|done].
  destruct (ntrdma_qp_deinit _ _ _ _ _) as [w|] eqn:Ew; [|done]. apply deinit_fields in Ew as [Ew [F1 F2 F3]]. intros [= <-].
  set (s := qo_send_cq (o_val o)) in *. set (r := qo_recv_cq (o_val o)) in *.
  set (F := λ x, vs_set_release (filter (λ i, i ≠ p) (vs_release x)) (put_page (OQp p) (vs_set_iw (drop_qp p (vs_iw x)) x))).
  match goal with |- rc_inv ?x _ _ ∧ _ => set (v' := x) end.
  assert (v' = vs_count 0 (- 1) 0 0 (vs_free 1 (F (cqs_release [s; r] w v)))) as -> by done.
  rewrite (release_comm F (drop_qp p)) by (done || intros c x; pose proof (without_comm (OQp p) (OCq c) (vs_pages x)) as Hw; unfold without in Hw;
      unfold F, ntrdma_cq_release, put_page, without; cbn; by rewrite Hw).
  destruct off as [[[a b] c] d].
  assert (rc_inv (F v) (OCq s :: OCq r :: held) (a, b - 1, c, d)) as Hg.
  { apply (qp_gone_inv p o v _ held _ (a, b, c, d)); try done.
    - intros x. case_decide as Ex; [subst x|lia]. apply (ri_rel _ _ _ H) in Hp as [_ Hp]. cbn in Hp. unfold qp_objs in Hp. rewrite E in Hp.
      cbn in Hp. lia.
    - pose proof (ri_offs _ _ _ H) as Ho. unfold offs in *. injection Ho as <- <- <- <-.
      assert (qp_objs (F v) = delete p (qp_objs v)) as -> by done. rewrite map_size_delete_Some by (by eexists).
      assert (size (qp_objs v) ≠ 0%nat) by (intros ?%map_size_empty_iff%(f_equal (lookup p)); unfold qp_objs in *; rewrite E in *; done).
      unfold F. off_eq. }
  apply (puts_inv s r (drop_qp p w)) in Hg; [|done|].
  - split.
    + eapply count_inv; [eapply view_inv; [apply free_view|exact Hg]|off_eq].
    + destruct (release_fields [s; r] (drop_qp p w) (F v)) as (_ & _ & _ & Hf).
      set (x := cqs_release _ _ _) in *. clearbody x. change (vs_files x = vs_files (F v)). unfold frame in Hf. congruence.
  - split; cbn; unfold drop_qp; cbn; by rewrite ?F1, ?F2.
Qed.

(** *** The calls *)

Lemma vs_alloc_inv v ok v' held off : vs_alloc v = (ok, v') → rc_inv v held off → rc_inv v' held off ∧ vs_files v' = vs_files v.
Proof.
  intros (S & F & _)%alloc_view H. split; [by eapply view_inv|]. unfold frame in F. congruence.
Qed.

Lemma err_add_inv p o rc rc' v v' held a b c d : rc_inv v (OQp p :: held) (a, b, c, d) → qp_objs v !! p = Some (ntrdma_obj_init (qp_key (qo_qp o)) o) →
  OQp p ∉ vs_pages v → p ∉ vs_release v → qp_err_add ntc rc p o v = Some (rc', v') →
  rc' = rc ∧ rc_inv v' held (a, b, c, d) ∧ vs_files v' = vs_files v.
Proof.
  intros H Hp Hpg Hrl. unfold qp_err_add. destruct (ntrdma_qp_deinit _ _ _ _ _) as [w|] eqn:Ew; [|done].
  apply deinit_fields in Ew as [Ew [F1 F2 F3]]. intros [= <- <-]. split; [done|].
  set (s := qo_send_cq o) in *. set (r := qo_recv_cq o) in *.
  set (F := λ x, vs_set_iw (drop_qp p (vs_iw x)) x).
  match goal with |- rc_inv (vs_count _ _ _ _ (vs_free _ ?x)) _ _ ∧ _ => change x with (F (cqs_release [s; r] w v)) end.
  rewrite (release_comm F (drop_qp p)) by done.
  assert (rc_inv (F v) (OCq s :: OCq r :: held) (a, b - 1, c, d)) as Hg.
  { apply (qp_gone_inv p (ntrdma_obj_init (qp_key (qo_qp o)) o) v _ (OQp p :: held) _ (a, b, c, d)); try done.
    - intros x. rewrite cons_cnt. done.
    - pose proof (ri_offs _ _ _ H) as Ho. unfold offs in *. injection Ho as <- <- <- <-.
      assert (qp_objs (F v) = delete p (qp_objs v)) as -> by done. rewrite map_size_delete_Some by (by eexists).
      assert (size (qp_objs v) ≠ 0%nat) by (intros ?%map_size_empty_iff%(f_equal (lookup p)); rewrite Hp in *; done).
      unfold F. off_eq.
    - symmetry. by apply without_none.
    - symmetry. apply list_filter_all. by intros x Hx ->. }
  apply (puts_inv s r (drop_qp p w)) in Hg; [|done|].
  - split.
    + eapply count_inv; [eapply view_inv; [apply free_view|exact Hg]|off_eq].
    + destruct (release_fields [s; r] (drop_qp p w) (F v)) as (_ & _ & _ & Hf).
      set (x := cqs_release _ _ _) in *. clearbody x. change (vs_files x = vs_files (F v)). unfold frame in Hf. congruence.
  - split; cbn; unfold drop_qp; cbn; by rewrite ?F1, ?F2.
Qed.

Lemma set_key_objs {V} key val (s s' : res_store V) : ls_set_key key val s = Some s' → ls_objs s' = ls_objs s.
Proof. unfold ls_set_key. destruct (ntrdma_kvec_set_key _ _ _ _) as [[]|]; [|done]. by intros [= <-]. Qed.

Lemma res_add_objs {V} p key t oc (s s' : res_store V) rc : ntrdma_res_add p key t oc s = Some (rc, s') → ls_objs s' = ls_objs s.
Proof.
  unfold ntrdma_res_add. destruct (ls_set_key key (Some p) s) as [s1|] eqn:E1; [|done]. apply set_key_objs in E1.
  destruct (negb _); [by intros [= _ <-]|]. destruct (negb _); [by intros [= _ <-]|]. cbv zeta.
  destruct ((if _ =? 0 then _ else _) =? 0); [by intros [= _ <-]|].
  destruct (ls_set_key key None _) as [s2|] eqn:E2; [|done]. apply set_key_objs in E2. intros [= _ <-]. cbn in *. congruence.
Qed.

Lemma res_del_objs {V} p key t oc (s s' : res_store V) : ntrdma_res_del p key t oc s = Some s' → ls_objs s' = ls_objs s.
Proof.
  unfold ntrdma_res_del. destruct (ls_set_key key None _) as [s1|] eqn:E1; [|done]. apply set_key_objs in E1.
  destruct (negb _); [by intros [= <-]|]. destruct (negb _); [by intros [= <-]|]. cbv zeta.
  destruct ((if _ =? 0 then _ else _) =? 0); by intros [= <-].
Qed.

(** What a creation leaves: with success a handle and perhaps a file, else nothing. *)
Definition made (o : uobj) (rc : Z) (v v' : verbs) (held : list uobj) (off : Z * Z * Z * Z) : Prop :=
  if rc =? 0 then ∃ b : bool, vs_files v' = (if b then [o] else []) ++ vs_files v ∧ rc_inv v' ((if b then [o] else []) ++ o :: held) off
  else vs_files v' = vs_files v ∧ rc_inv v' held off.

Lemma made_fail o rc v v' held off : rc ≠ 0 → vs_files v' = vs_files v → rc_inv v' held off → made o rc v v' held off.
Proof. intros Hr. unfold made. by rewrite (proj2 (Z.eqb_neq _ _)). Qed.

(** The completion queues of a new queue pair get its references, and it its own. *)
Lemma qp_new_inv p o s r (w : world) v v' held off off' : rc_inv v held off → qp_objs v !! p = None → OCq s ∈ held → OCq r ∈ held →
  cq_refs w = rget s (rget r (cq_refs (vs_iw v))) → iw_frame (vs_iw v) w → qo_send_cq o = s → qo_recv_cq o = r →
  cq_refs (vs_iw v') = cq_refs w → qp_objs v' = <[p := ntrdma_obj_init (qp_key (qo_qp o)) o]> (qp_objs v) → mr_objs v' = mr_objs v →
  vs_pds v' = vs_pds v → rest v' = rest v → offs v' = off' → rc_inv v' (OQp p :: held) off'.
Proof.
  intros H Hn Hs Hr Hw F <- <- H1 H2 H3 H4 H5 H6. set (s := qo_send_cq o) in *. set (r := qo_recv_cq o) in *.
  assert (∀ c, OCq c ∈ held → 0 < refs v (OCq c)) as Hp.
  { intros c Hc. rewrite (ri_refs _ _ _ H), cnt_app. apply cnt_elem in Hc. pose proof (cnt_nonneg (OCq c) (uses v)). lia. }
  pose proof (cq_get_inv r v held off H (Hp r Hr)) as I1. set (v1 := vs_set_iw _ v) in I1.
  assert (0 < refs v1 (OCq s)) as Hs1.
  { rewrite (ri_refs _ _ _ I1), cnt_app. apply cnt_elem in Hs. rewrite cnt_cons. pose proof (cnt_nonneg (OCq s) (uses v1)). case_decide; lia. }
  pose proof (cq_get_inv s v1 _ off I1 Hs1) as I2. set (v2 := vs_set_iw _ v1) in I2.
  assert (cq_refs (vs_iw v2) = cq_refs w) as E2.
  { unfold v2, v1. cbn [vs_iw vs_set_iw]. by rewrite !cq_get_refs, Hw. }
  apply (new_inv (OQp p) v2 _ (OCq s :: OCq r :: held) _ off); try done.
  - intros [] Hx; cbn [refs live]; rewrite ?H1, ?H2, ?H3, ?H4, ?E2; try done. by rewrite lookup_insert_ne by congruence.
  - cbn. intros [x Hx]. change (qp_objs v2) with (qp_objs v) in Hx. congruence.
  - cbn. by rewrite H2, lookup_insert_eq.
  - rewrite (uses_new v2 v' p _ Hn H2). cbn [o_val ntrdma_obj_init]. fold s r.
    change (OQp p :: held) with ([OQp p] ++ held). solve_Permutation.
Qed.

Lemma fresh_qp p v held off : rc_inv v held off → qp_objs v !! p = None →
  (OQp p ∉ held) ∧ (OQp p ∉ vs_pages v) ∧ (p ∉ vs_release v).
Proof.
  intros H Hn. assert (¬ live v (OQp p)) as Hl by (cbn; rewrite Hn; by intros []).
  split; [|split].
  - intros Hin. apply Hl. eapply live_refs; [done|]. rewrite (ri_refs _ _ _ H), cnt_app. apply cnt_elem in Hin.
    pose proof (cnt_nonneg (OQp p) (uses v)). lia.
  - by intros [? _]%(ri_pages _ _ _ H).
  - by intros [? _]%(ri_rel _ _ _ H).
Qed.

Lemma create_qp_inv p r s pd cap timeout oc u v rc v' held off :
  rc_inv v held off → qp_objs v !! p = None → OCq s ∈ held → OCq r ∈ held → OQp p ∉ vs_files v →
  ntrdma_create_qp ntc p r s pd cap timeout oc u v = Some (rc, v') → made (OQp p) rc v v' held off.
Proof.
  intros H Hn Hs Hr Hf. destruct off as [[[a b] c] d].
  assert (rc_inv (vs_count 0 1 0 0 v) held (a, b - 1, c, d)) as H1 by (eapply count_inv; [exact H|off_eq]).
  assert (∀ x, rc_inv x held (a, b - 1, c, d) → rc_inv (vs_count 0 (- 1) 0 0 x) held (a, b, c, d)) as Hback.
  { intros x Hx. eapply count_inv; [exact Hx|off_eq]. }
  assert (∀ x, rc_inv x held (a, b - 1, c, d) → rc_inv (vs_count 0 (- 1) 0 0 (vs_free 1 x)) held (a, b, c, d)) as Hback2.
  { intros x Hx. apply Hback. eapply view_inv; [apply free_view|exact Hx]. }
  unfold ntrdma_create_qp. set (v1 := vs_count 0 1 0 0 v) in *. change (vs_files v) with (vs_files v1) in Hf |- *.
  change (qp_objs v) with (qp_objs v1) in Hn. assert (∀ x y, made (OQp p) x v y held (a, b, c, d) = made (OQp p) x v1 y held (a, b, c, d)) as Hm by done.
  rewrite Hm. clearbody v1. clear H Hm. cbv zeta.
  destruct (NTRDMA_DEV_MAX_QP <=? _). { intros [= <- <-]. apply made_fail; [done|done|by apply Hback]. }
  destruct (vs_alloc v1) as [ok v2] eqn:Ea. pose proof (alloc_view _ _ _ Ea) as [S2 _].
  destruct (vs_alloc_inv _ _ _ _ _ Ea H1) as [H2 F2]. destruct (negb ok).
  { intros [= <- <-]. apply made_fail; [done|exact F2|by apply Hback]. }
  assert (qp_objs v2 !! p = None) as Hn2.
  { destruct (qp_objs v2 !! p) eqn:E; [|done]. assert (live v1 (OQp p)) as Hl by (apply (view_live v1 v2 S2); by eexists).
    cbn in Hl. rewrite Hn in Hl. by destruct Hl. }
  destruct (ntrdma_create_qp_attr _ _ _ _ _ _ _) as [rc1 attr]. destruct (Z.eqb_spec rc1 0) as [->|Hrc1]; cbn [negb]; last first.
  { intros [= <- <-]. apply made_fail; [done|exact F2|by apply Hback2]. }
  assert (∀ i n, cq_refs (vs_iw v2) !! i = Some n → 0 < n) as Hpos by (intros i n; by eapply refs_pos).
  assert (∀ i, OCq i ∈ held → is_Some (cq_refs (vs_iw v2) !! i)) as Hlive.
  { intros i Hi. apply (live_refs v2 (OCq i) _ eq_refl). rewrite (ri_refs _ _ _ H2), cnt_app. apply cnt_elem in Hi.
    pose proof (cnt_nonneg (OCq i) (uses v2)). lia. }
  destruct (ntrdma_qp_init _ _ _ _ _ _ _) as [[[rc2 oo] w]|] eqn:Ei; [|done].
  apply qp_init_fields in Ei as [[W1 W2 W3] Ei]; [|exact Hpos|by apply Hlive..]. destruct oo as [o|]; last first.
  { destruct Ei as [Hrc2 Ew]. rewrite release_none by done. intros [= <- <-]. apply made_fail; [lia|exact F2|apply Hback2].
    eapply view_inv; [apply set_iw_view; try done|exact H2]. unfold mr_objs. by rewrite W3. }
  destruct Ei as (-> & Es & Er & Ew).
  destruct (ntrdma_res_add _ _ _ _ _) as [[rc3 st]|] eqn:Ead; [|done]. apply res_add_objs in Ead.
  assert (ls_objs st = <[p := ntrdma_obj_init (qp_key (qo_qp o)) o]> (qp_objs v2)) as Est.
  { etrans; [exact Ead|]. cbn [ls_objs ls_set_objs]. f_equal. exact W1. }
  clear Ead.
  set (v3 := vs_set_iw (iw_set_store st w) v2).
  assert (mr_objs v3 = mr_objs v2) as E3 by (unfold mr_objs; change (iw_mrs (vs_iw v3)) with (iw_mrs w); by rewrite W3).
  assert (rc_inv v3 (OQp p :: held) (a, b, c, d)) as H3.
  { eapply (qp_new_inv p o s r w v2); try done.
    pose proof (ri_offs _ _ _ H2) as Ho. unfold offs in *.
    assert (size (cq_refs (vs_iw v3)) = size (cq_refs (vs_iw v2))) as -> by (change (cq_refs (vs_iw v3)) with (cq_refs w); by rewrite Ew, !rget_size).
    rewrite E3.
    assert (qp_objs v3 = <[p := ntrdma_obj_init (qp_key (qo_qp o)) o]> (qp_objs v2)) as -> by done.
    rewrite map_size_insert_None by done. injection Ho as O1 O2 O3 O4. unfold v3. off_eq. }
  destruct (fresh_qp _ _ _ _ H2 Hn2) as (N1 & N2 & N3).
  destruct (Z.eqb_spec rc3 0) as [->|Hrc3]; cbn [negb]; last first.
  { intros Hadd. eapply err_add_inv in Hadd as (-> & I & Fi); [|exact H3|by unfold qp_objs; cbn; rewrite Est, lookup_insert_eq|done..].
    apply made_fail; [done|by rewrite Fi|done]. }
  pose proof (user_part_inv (OQp p) u v3 held _ H3 I) as Hu. destruct (user_part _ _ _) as [[rc4 nf] v4]. intros [= <- <-].
  change (vs_files v3) with (vs_files v2) in Hu. rewrite F2 in Hu. exact (Hu Hf).
Qed.

Lemma uses_view v v' : qp_objs v' = qp_objs v → uses v' = uses v.
Proof. unfold uses. by intros ->. Qed.

(** More holders hold more completion queues. *)
Lemma more_cqs v v' held held' off off' : rc_inv v held off → rc_inv v' held' off' → qp_objs v' = qp_objs v →
  (∀ o, o ∈ held → o ∈ held') → (size (cq_refs (vs_iw v)) <= size (cq_refs (vs_iw v')))%nat.
Proof.
  intros H H' Hq Hh. rewrite <- !size_dom. apply subseteq_size. intros c. rewrite !elem_of_dom.
  assert (∀ x h o, rc_inv x h o → is_Some (cq_refs (vs_iw x) !! c) ↔ OCq c ∈ h ++ uses x) as Hl.
  { intros x h o Hx. rewrite <- cnt_elem, <- (ri_refs _ _ _ Hx). split; [|apply (live_refs x (OCq c) _ eq_refl)].
    intros Hs. by destruct (ri_live _ _ _ Hx (OCq c) Hs) as [?|(? & ? & _)]. }
  rewrite (Hl _ _ _ H), (Hl _ _ _ H'), (uses_view _ _ Hq), !elem_of_app. naive_solver.
Qed.

Lemma same_cqs v v' held off off' : rc_inv v held off → rc_inv v' held off' → qp_objs v' = qp_objs v →
  size (cq_refs (vs_iw v')) = size (cq_refs (vs_iw v)).
Proof.
  intros H H' Hq. apply (anti_symm le); [by eapply (more_cqs v' v)|by eapply (more_cqs v v')].
Qed.

Lemma cq_put_qps c v : qp_objs (vs_cq_put c v) = qp_objs v.
Proof. apply cq_put_fields. Qed.

Lemma obj_put_qps c v : qp_objs (obj_put (OCq c) v) = qp_objs v.
Proof. apply cq_put_qps. Qed.
Lemma obj_get_qps c v : qp_objs (obj_get (OCq c) v) = qp_objs v.
Proof. done. Qed.
Lemma fput_qps c v : qp_objs (fput (OCq c) v) = qp_objs v.
Proof. cbn [fput]. unfold ntrdma_cq_file_release. by rewrite cq_put_qps. Qed.
Lemma user_set_qps p f n v : qp_objs (vs_set_user p f n v) = qp_objs v.
Proof. done. Qed.
Lemma unused_qps v : qp_objs (put_unused_fd v) = qp_objs v.
Proof. done. Qed.

Lemma user_out_qps c u v : qp_objs (snd (user_out (OCq c) u v)) = qp_objs v.
Proof.
  unfold user_out. destruct (negb _); [done|]. destruct (_ <? 0); cbn [snd]; [apply obj_put_qps|].
  destruct (_ <? 0); cbn [snd]; [by rewrite unused_qps, obj_put_qps, user_set_qps|]. destruct (negb _); cbn [snd].
  - by rewrite unused_qps, obj_put_qps, fput_qps, obj_get_qps, !user_set_qps.
  - by rewrite obj_get_qps, !user_set_qps.
Qed.

Lemma user_part_qps c u v : qp_objs (snd (user_part (OCq c) u v)) = qp_objs v.
Proof.
  unfold user_part, user_in.
  destruct (negb (ui_in u)); [apply user_out_qps|]. destruct (negb (ui_copied_in u)); [apply obj_put_qps|].
  destruct (negb (ui_desc u)); [done|]. destruct (ui_page_ptr u =? 0); [apply obj_put_qps|]. destruct (Z.ltb_spec (ui_pages u) 0).
  - rewrite (proj2 (Z.eqb_neq (ui_pages u) 0)) by lia. apply obj_put_qps.
  - cbn [Z.eqb negb orb]. rewrite user_out_qps. by destruct (_ =? 0).
Qed.

Lemma fresh_cq c v held off : rc_inv v held off → iw_cqs (vs_iw v) !! c = None → ¬ live v (OCq c).
Proof. intros H Hn [n Hl]%live_cq. congruence. Qed.

Lemma enlist_view c bell i v : same_view v (cq_enlist c bell i v).
Proof.
  unfold cq_enlist. destruct (iw_cqs (vs_iw v) !! c) as [[n q]|] eqn:E; [|done].
  destruct (ntrdma_cq_vbell_init _ _ _ _) as [q' s]. constructor; try done.
  unfold cq_refs. cbn. rewrite fmap_insert. apply insert_id. by rewrite lookup_fmap, E.
Qed.
Lemma enlist_files c bell i v : vs_files (cq_enlist c bell i v) = vs_files v.
Proof. unfold cq_enlist. destruct (iw_cqs (vs_iw v) !! c) as [[n q]|]; [|done]. by destruct (ntrdma_cq_vbell_init _ _ _ _). Qed.

(** A refused completion queue leaves nothing, but a refusal in the application's
    part may lower the counter once more. *)
Lemma create_cq_inv c bell cv u v rc v' held a b x d :
  rc_inv v held (a, b, x, d) → iw_cqs (vs_iw v) !! c = None → OCq c ∉ vs_files v →
  ntrdma_create_cq_common c bell cv u v = Some (rc, v') →
  made (OCq c) rc v v' held (a + Z.b2z (vs_cq_num v' <? vs_cq_num v), b, x, d).
Proof.
  intros H Hn Hf.
  assert (rc_inv (vs_count 1 0 0 0 v) held (a - 1, b, x, d)) as H1 by (eapply count_inv; [exact H|off_eq]).
  (* what a failure shows *)
  assert (∀ rc y e, rc ≠ 0 → vs_files y = vs_files v → qp_objs y = qp_objs v → rc_inv y held (a + e, b, x, d) → (e = 0 ∨ e = 1) →
    made (OCq c) rc v y held (a + Z.b2z (vs_cq_num y <? vs_cq_num v), b, x, d)) as Hfail.
  { intros r y e Hr Hy Hq I He. apply made_fail; [done..|].
    pose proof (same_cqs _ _ _ _ _ H I Hq) as Hs. pose proof (ri_offs _ _ _ H) as O1. pose proof (ri_offs _ _ _ I) as O2.
    unfold offs in O1, O2. injection O1 as O1 _ _ _. injection O2 as O2 _ _ _. rewrite Hs in O2.
    assert (Z.b2z (vs_cq_num y <? vs_cq_num v) = e) as ->; [|done]. destruct (Z.ltb_spec (vs_cq_num y) (vs_cq_num v)); cbn; lia. }
  unfold ntrdma_create_cq_common. set (v1 := vs_count 1 0 0 0 v) in *.
  assert (∀ r y, rc_inv y held (a - 1, b, x, d) → vs_files y = vs_files v → qp_objs y = qp_objs v → r ≠ 0 →
    made (OCq c) r v (snd (err_cq r y)) held (a + Z.b2z (vs_cq_num (snd (err_cq r y)) <? vs_cq_num v), b, x, d)) as Herr.
  { intros r y I Hy Hq Hr. apply (Hfail r _ 0); [done..| |by left]. cbn. rewrite Z.add_0_r. eapply count_inv; [exact I|off_eq]. }
  destruct (NTRDMA_DEV_MAX_CQ <=? _); [intros [= <- <-]; by apply (Herr (- ETOOMANYREFS) v1)|].
  destruct (if negb (cv =? 0) then _ else _) as [i vb]. set (v2 := vs_set_iw _ v1). assert (same_view v1 v2) as S2 by by apply set_iw_view.
  pose proof (view_inv _ _ S2 _ _ H1) as H2.
  destruct (NTRDMA_DEV_VBELL_COUNT <=? i); [intros [= <- <-]; by apply (Herr (- EINVAL) v2)|].
  unfold ntrdma_alloc_cq. destruct (vs_alloc v2) as [ok1 v3] eqn:A1. destruct (vs_alloc v3) as [ok2 v4] eqn:A2.
  assert (iw_cqs (vs_iw v4) !! c = None ∧ vs_files v4 = vs_files v ∧ qp_objs v4 = qp_objs v ∧ rc_inv v4 held (a - 1, b, x, d)) as (N4 & F4 & Q4 & H4).
  { pose proof (vs_alloc_inv _ _ _ _ _ A2 (proj1 (vs_alloc_inv _ _ _ _ _ A1 H2))) as [I4 _]. revert A1 A2.
    unfold vs_alloc. destruct (kalloc _); destruct (kalloc _); by intros [= _ <-] [= _ <-]. }
  clearbody v2. clear v1 H1 S2. clear v3 A1 A2.
  destruct ok2; cbn [negb]; [|intros [= <- <-]; by apply (Herr (- ENOMEM) v4)]. destruct ok1; cbn [negb]; [|done].
  set (v5 := vs_set_iw _ v4).
  assert (cq_refs (vs_iw v5) = <[c := 1]> (cq_refs (vs_iw v4))) as E5 by (unfold cq_refs; cbn; by rewrite fmap_insert).
  pose proof (fresh_cq _ _ _ _ H4 N4) as L4.
  assert (rc_inv v5 (OCq c :: held) (a, b, x, d)) as H5.
  { apply (new_inv (OCq c) v4 _ held _ (a - 1, b, x, d)); try done.
    - pose proof (ri_offs _ _ _ H4) as Ho. unfold offs in *. rewrite E5. injection Ho as O1 O2 O3 O4.
      rewrite map_size_insert_None by (by apply gone_cq).
      change (qp_objs v5) with (qp_objs v4). change (mr_objs v5) with (mr_objs v4). unfold v5. off_eq.
    - intros [] Hx; cbn [refs live]; rewrite ?E5; try done. by rewrite lookup_insert_ne by congruence.
    - cbn [refs]. by rewrite E5, lookup_insert_eq. }
  pose proof (user_part_inv (OCq c) u v5 held _ H5 I) as Hu. pose proof (user_part_qps c u v5) as Hq. change (vs_files v5) with (vs_files v4) in Hu.
  rewrite F4 in Hu. specialize (Hu Hf). change (qp_objs v5) with (qp_objs v4) in Hq. rewrite Q4 in Hq.
  destruct (user_part _ _ _) as [[rc6 nf] v6]. cbn [snd] in Hq. clearbody v5. destruct (Z.eqb_spec rc6 0) as [->|Hrc]; cbn [negb].
  - intros [= <- <-]. unfold made. rewrite Z.eqb_refl. destruct Hu as (t & Ft & It). exists t. rewrite enlist_files.
    split; [done|]. pose proof (view_inv _ _ (enlist_view c bell i v6) _ _ It) as I6.
    pose proof (sv_nums _ _ (enlist_view c bell i v6)) as Hnum. injection Hnum as -> _ _ _.
    assert (size (cq_refs (vs_iw v)) <= size (cq_refs (vs_iw v6)))%nat as Hs.
    { eapply more_cqs; [exact H|exact It|done|]. intros o Ho. apply elem_of_app. right. by right. }
    pose proof (ri_offs _ _ _ H) as O1. pose proof (ri_offs _ _ _ It) as O2. unfold offs in O1, O2.
    injection O1 as O1 _ _ _. injection O2 as O2 _ _ _. destruct (Z.ltb_spec (vs_cq_num v6) (vs_cq_num v)); [lia|].
    cbn [Z.b2z]. by rewrite Z.add_0_r.
  - destruct Hu as [F6 I6]. destruct nf; intros [= <- <-].
    + apply (Hfail rc6 _ 0); [done..| |by left]. by rewrite Z.add_0_r.
    + apply (Hfail rc6 _ 1); [done..| |by right]. eapply count_inv; [exact I6|off_eq].
Qed.

Lemma destroy_cq_inv c v held off : rc_inv v (OCq c :: held) off →
  rc_inv (ntrdma_destroy_cq c v) held off ∧ vs_files (ntrdma_destroy_cq c v) = vs_files v.
Proof.
  intros H. assert (same_view v (ntrdma_destroy_cq_common c v) ∧ vs_files (ntrdma_destroy_cq_common c v) = vs_files v) as [S F].
  { unfold ntrdma_destroy_cq_common. destruct (iw_cqs (vs_iw v) !! c) as [[n q]|] eqn:E; [|by split].
    destruct (ntrdma_cq_vbell_kill _ _) as [[q' s] ?]. split; [|done]. constructor; try done.
    unfold cq_refs. cbn. rewrite fmap_insert. apply insert_id. by rewrite lookup_fmap, E. }
  split; [by eapply cq_put_inv, view_inv|]. etrans; [apply (obj_put_files (OCq c))|exact F].
Qed.

Lemma alloc_pd_inv d v rc v' held off : rc_inv v held off → vs_pds v !! d = None → OPd d ∉ vs_files v →
  ntrdma_alloc_pd_common d v = (rc, v') →
  if rc =? 0 then vs_files v' = vs_files v ∧ rc_inv v' (OPd d :: held) off else vs_files v' = vs_files v ∧ rc_inv v' held off.
Proof.
  intros H Hn Hf. destruct off as [[[a b] c] e].
  assert (rc_inv (vs_count 0 0 0 1 v) held (a, b, c, e - 1)) as H1 by (eapply count_inv; [exact H|off_eq]).
  unfold ntrdma_alloc_pd_common. set (v1 := vs_count 0 0 0 1 v) in *.
  assert (∀ x, rc_inv x held (a, b, c, e - 1) → rc_inv (vs_count 0 0 0 (- 1) x) held (a, b, c, e)) as Hback.
  { intros x Hx. eapply count_inv; [exact Hx|off_eq]. }
  destruct (NTRDMA_DEV_MAX_PD <=? _); [intros [= <- <-]; cbn; by split; [|apply Hback]|].
  destruct (vs_alloc v1) as [ok v2] eqn:Ea. destruct (vs_alloc_inv _ _ _ _ _ Ea H1) as [H2 F2].
  assert (vs_pds v2 = vs_pds v) as P2 by (revert Ea; unfold vs_alloc; destruct (kalloc _); by intros [= _ <-]).
  change (vs_files v1) with (vs_files v) in F2. clearbody v1. destruct (negb ok); [intros [= <- <-]; by split; [|apply Hback]|].
  intros [= <- <-]. cbn [Z.eqb]. set (v3 := vs_set_pds _ _ _ v2). split; [done|].
  apply (new_inv (OPd d) v2 _ held _ (a, b, c, e - 1)); try done.
  - pose proof (ri_offs _ _ _ H2) as Ho. unfold offs in *. injection Ho as O1 O2 O3 O4.
    change (qp_objs v3) with (qp_objs v2). change (mr_objs v3) with (mr_objs v2). cbn.
    rewrite map_size_insert_None by (by rewrite P2). off_eq.
  - intros [] Hx; cbn; try done. by rewrite lookup_insert_ne by congruence.
  - cbn. rewrite P2, Hn. by intros [].
  - cbn. by rewrite lookup_insert_eq.
Qed.

Lemma dealloc_pd_inv d v held off : rc_inv v (OPd d :: held) off →
  rc_inv (ntrdma_dealloc_pd d v) held off ∧ vs_files (ntrdma_dealloc_pd d v) = vs_files v.
Proof.
  intros H. split.
  - apply pd_put_inv. eapply view_inv; [|exact H]. by constructor.
  - unfold ntrdma_dealloc_pd, ntrdma_pd_put. destruct (vs_pds _ !! d) as [[n k]|]; [|done]. by destruct (n - 1 =? 0).
Qed.

Lemma destroy_qp_inv p rqp t oc v rqp' v' held off : rc_inv v (OQp p :: held) off →
  ntrdma_destroy_qp p rqp t oc v = Some (rqp', v') → rc_inv v' held off ∧ vs_files v' = vs_files v.
Proof.
  intros H. unfold ntrdma_destroy_qp. destruct (ls_objs (iw_res (vs_iw v)) !! p) as [o|] eqn:E; [|done]. cbn [ntrdma_qp_disable_cb].
  destruct (ntrdma_res_del _ _ _ _ _) as [s|] eqn:Ed; [|done]. apply res_del_objs in Ed. cbn [ls_objs ls_set_objs] in Ed.
  intros [= _ <-]. set (v1 := vs_set_iw _ v). split; [|etrans; [exact (obj_put_files (OQp p) v1)|done]]. apply qp_put_inv.
  eapply view_inv; [|exact H]. constructor; try done. unfold qp_objs, v1. cbn. rewrite Ed, fmap_insert. apply insert_id.
  by rewrite lookup_fmap, E.
Qed.

(** The pinned memory that no region has yet. *)
Definition unpin (b : bool) (v : verbs) : verbs := if b then vs_set_umems (vs_umems v - 1) (vs_mr_umem v) v else v.

Lemma alloc_unpin b v ok v' : vs_alloc v = (ok, v') → vs_alloc (unpin b v) = (ok, unpin b v').
Proof.
  unfold vs_alloc. assert (vs_bufs (unpin b v) = vs_bufs v) as -> by by destruct b.
  destruct (kalloc _); intros [= <- <-]; by destruct b.
Qed.

Lemma unpin_files b v : vs_files (unpin b v) = vs_files v.
Proof. by destruct b. Qed.

(** A new region takes the memory over. *)
Lemma mr_new_inv m o b v v' held off off' : rc_inv (unpin b v) held off → mr_objs v !! m = None →
  cq_refs (vs_iw v') = cq_refs (vs_iw v) → qp_objs v' = qp_objs v → mr_objs v' = <[m := o]> (mr_objs v) → o_kref o = 1 →
  vs_pds v' = vs_pds v → (vs_pages v', vs_release v', vs_umems v') = (vs_pages v, vs_release v, vs_umems v) →
  vs_mr_umem v' = (if b then m :: vs_mr_umem v else vs_mr_umem v) → offs v' = off' → rc_inv v' (OMr m :: held) off'.
Proof.
  intros H Hn H1 H2 H3 Hk H4 Hr Hu Ho. injection Hr as R1 R2 R3.
  assert (∀ o, live (unpin b v) o ↔ live v o) as Lu by (by destruct b). assert (∀ o, refs (unpin b v) o = refs v o) as Ru by (by destruct b).
  assert (¬ live v (OMr m)) as Hl by (cbn; rewrite Hn; by intros []).
  assert (m ∉ vs_mr_umem v) as Hm.
  { intros Hin. apply Hl, Lu, (ri_umem _ _ _ H). by destruct b. }
  assert (refs v (OMr m) = 0) as R0 by (cbn; by rewrite Hn).
  assert (refs v' (OMr m) = 1) as R0' by (cbn; by rewrite H3, lookup_insert_eq).
  assert (uses v' = uses (unpin b v)) as Us by (rewrite (uses_view _ _ H2); by destruct b).
  apply (inv_intro (OMr m) (unpin b v) _ held _ off); try done.
  - intros x Hx. rewrite Ru, Lu. destruct x; cbn; rewrite ?H1, ?H2, ?H3, ?H4; try done. by rewrite lookup_insert_ne by congruence.
  - intros x. rewrite Us. cbn [app]. rewrite cons_cnt, Ru, R0, R0'. case_decide; lia.
  - intros _. left. lia.
  - intros p _. rewrite R2. by destruct b.
  - rewrite R2. pose proof (ri_rel_once _ _ _ H). by destruct b.
  - intros x Hx. rewrite R1 in Hx. assert (x ∈ vs_pages (unpin b v)) as Hp by (by destruct b). split; [done|].
    intros ->. by apply (ri_pages _ _ _ H) in Hp as [_ []].
  - rewrite R3, Hu. pose proof (ri_umems _ _ _ H) as E. destruct b; cbn in *; lia.
  - rewrite Hu. pose proof (ri_umem_once _ _ _ H) as E. destruct b; [by constructor|done].
  - intros x Hx. destruct (decide (x = m)) as [->|Ex]; [eapply live_refs; [done|lia]|]. rewrite Hu in Hx.
    assert (x ∈ vs_mr_umem (unpin b v)) as Hx' by (destruct b; [by apply elem_of_cons in Hx as [?|?]|done]).
    apply (ri_umem _ _ _ H), Lu in Hx'. cbn in *. rewrite H3. by rewrite lookup_insert_ne.
Qed.

Lemma mr_put_files m v : vs_files (ntrdma_mr_put m v) = vs_files v.
Proof.
  unfold ntrdma_mr_put. destruct (ntrdma_res_put _ _) as [[] s]; [|done]. unfold mr_release. destruct (ls_objs _ !! m); [|done].
  destruct (ntrdma_mr_deinit _ _ _ _) as [[? ?] ?]. by case_bool_decide.
Qed.

(** What a creation without files leaves. *)
Definition made_plain (o : uobj) (rc : Z) (v v' : verbs) (held : list uobj) (off : Z * Z * Z * Z) : Prop :=
  vs_files v' = vs_files v ∧ rc_inv v' (if rc =? 0 then o :: held else held) off.

Lemma reg_mr_init_inv m pd q segs t oc v rc v' held a b c d : let umem := match segs : option (list ntc_mr_buf) with Some _ => true | None => false end in
  rc_inv (unpin umem v) held (a, b, c - 1, d) → mr_objs v !! m = None →
  reg_mr_init ntc m pd q segs t oc v = Some (rc, v') → made_plain (OMr m) rc v v' held (a, b, c, d).
Proof.
  intros umem H Hn. unfold reg_mr_init. fold umem. clearbody umem. cbv zeta. destruct (vs_alloc v) as [ok v1] eqn:Ea.
  apply (alloc_unpin umem) in Ea as Ea'. destruct (vs_alloc_inv _ _ _ _ _ Ea' H) as [H1 F1]. rewrite !unpin_files in F1.
  assert (mr_objs v1 !! m = None) as N1 by (revert Ea; unfold vs_alloc; destruct (kalloc _); by intros [= _ <-]).
  clear Ea Ea' H Hn.
  assert (∀ r x, r < 0 → vs_files x = vs_files v → rc_inv (unpin umem x) held (a, b, c - 1, d) →
    made_plain (OMr m) r v (snd (mr_err_mr r umem x)) held (a, b, c, d)) as Herr.
  { intros r x Hr Hx I. split; [cbn; destruct umem; done|]. rewrite (proj2 (Z.eqb_neq _ _)) by lia. cbn [mr_err_mr mr_err_umem snd].
    eapply count_inv; [exact I|off_eq]. }
  assert (∀ r x, r < 0 → vs_files x = vs_files v → rc_inv (unpin umem x) held (a, b, c - 1, d) →
    made_plain (OMr m) r v (snd (mr_err_init r umem x)) held (a, b, c, d)) as Herr2.
  { intros r x Hr Hx I. apply Herr; [done|done|]. eapply view_inv; [|exact I]. destruct umem; [exact (free_view 1 (unpin true x))|apply free_view]. }
  destruct (negb ok); [intros [= <- <-]; by apply Herr|].
  destruct (match segs with Some l => _ | None => _ end) as [rc2 sgl].
  destruct (Z.ltb_spec rc2 0); [intros [= <- <-]; by apply Herr2|].
  destruct (ntrdma_mr_init _ _ _ _) as [[[rc3 sgl3] vec] h]. destruct (Z.ltb_spec rc3 0).
  { intros [= <- <-]. apply (Herr2 rc3 (vs_set_iw (iw_set_mrs (set_mr_vec vec h (iw_mrs (vs_iw v1))) (vs_iw v1)) v1)); [done|done|].
    eapply view_inv; [|exact H1].
    match goal with |- context [vs_set_iw ?w v1] => destruct umem; [exact (set_iw_view w (unpin true v1) eq_refl eq_refl eq_refl)
      |exact (set_iw_view w v1 eq_refl eq_refl eq_refl)] end. }
  destruct (ntrdma_res_add _ _ _ _ _) as [[rc4 s]|] eqn:Ead; [|done]. apply res_add_objs in Ead.
  set (v2 := if umem then _ else _). set (o := ntrdma_obj_init _ _) in Ead.
  assert (rc_inv v2 (OMr m :: held) (a, b, c, d)) as H2.
  { assert (mr_objs v2 = <[m := o]> (mr_objs v1)) as M2 by (unfold v2; destruct umem; exact Ead).
    apply (mr_new_inv m o umem v1 v2 held (a, b, c - 1, d)); try done; try (unfold v2; by destruct umem). unfold offs.
    assert (offs (unpin umem v1) = offs v1) as Ho by (by destruct umem). rewrite (ri_offs _ _ _ H1) in Ho.
    assert (cq_refs (vs_iw v2) = cq_refs (vs_iw v1) ∧ qp_objs v2 = qp_objs v1 ∧ vs_pds v2 = vs_pds v1
            ∧ (vs_cq_num v2, vs_qp_num v2, vs_mr_num v2, vs_pd_num v2) = (vs_cq_num v1, vs_qp_num v1, vs_mr_num v1, vs_pd_num v1))
      as (-> & -> & E3 & [= -> -> -> ->]) by (unfold v2; by destruct umem).
    rewrite E3, M2, map_size_insert_None by done. injection Ho as O1 O2 O3 O4. off_eq. }
  assert (vs_files v2 = vs_files v) as F2 by (unfold v2; by destruct umem).
  destruct (Z.ltb_spec rc4 0); intros [= <- <-].
  - split; [by rewrite mr_put_files|]. rewrite (proj2 (Z.eqb_neq _ _)) by lia. by apply mr_put_inv.
  - by split.
Qed.

(** The kernel reports errors as negative numbers. *)
Definition errors_negative (q : mr_request) : Prop :=
  match mq_segments q with inl rc => rc < 0 | inr _ => True end.

Lemma reg_user_mr_inv m pd q t oc v rc v' held off : errors_negative q → rc_inv v held off → mr_objs v !! m = None →
  ntrdma_reg_user_mr ntc m pd q t oc v = Some (rc, v') → made_plain (OMr m) rc v v' held off.
Proof.
  intros Hq H Hn. unfold ntrdma_reg_user_mr. destruct (IB_MR_LIMIT_BYTES <? _); [by intros [= <- <-]|].
  destruct off as [[[a b] c] d].
  assert (rc_inv (vs_count 0 0 1 0 v) held (a, b, c - 1, d)) as H1 by (eapply count_inv; [exact H|off_eq]).
  assert (∀ r x, r < 0 → vs_files x = vs_files v → rc_inv x held (a, b, c - 1, d) →
    made_plain (OMr m) r v (snd (mr_err_umem r x)) held (a, b, c, d)) as Herr.
  { intros r x Hr Hx I. split; [done|]. rewrite (proj2 (Z.eqb_neq _ _)) by lia. eapply count_inv; [exact I|off_eq]. }
  set (v1 := vs_count 0 0 1 0 v) in *. cbv zeta. assert (mr_objs v1 !! m = None) as N1 by done. assert (vs_files v1 = vs_files v) as F1 by done.
  clearbody v1. clear H Hn. destruct (NTRDMA_DEV_MAX_MR <=? _); [intros [= <- <-]; by apply Herr|].
  destruct (negb _); [intros [= <- <-]; by apply Herr|]. destruct (_ && _).
  { intros Hr. destruct (reg_mr_init_inv m pd q None t oc v1 _ _ held a b c d H1 N1 Hr) as [F I]. by split; [rewrite F|]. }
  destruct (Z.ltb_spec (mq_umem_rc q) 0); [intros [= <- <-]; by apply Herr|].
  assert (∀ x, unpin true (vs_set_umems (vs_umems x + 1) (vs_mr_umem x) x) = x) as Hun.
  { intros []. unfold unpin, vs_set_umems. cbn. f_equal. lia. }
  unfold errors_negative in Hq. destruct (mq_segments q) as [r|l].
  - cbn [mr_err_mr]. intros [= <- <-]. apply (Herr r (unpin true (vs_set_umems (vs_umems v1 + 1) (vs_mr_umem v1) v1))); by rewrite ?Hun.
  - intros Hr. destruct (reg_mr_init_inv m pd q (Some l) t oc _ _ _ held a b c d (eq_ind_r (λ x, rc_inv x held (a, b, c - 1, d)) H1 (Hun v1)) N1 Hr) as [F I]. by split; [rewrite F|].
Qed.

Lemma dereg_mr_inv m t oc v v' held off : rc_inv v (OMr m :: held) off → ntrdma_dereg_mr m t oc v = Some v' →
  rc_inv v' held off ∧ vs_files v' = vs_files v.
Proof.
  intros H. unfold ntrdma_dereg_mr. destruct (ls_objs (iw_mrs (vs_iw v)) !! m) as [o|]; [|done].
  destruct (ntrdma_res_del _ _ _ _ _) as [s|] eqn:Ed; [|done]. apply res_del_objs in Ed. intros [= <-].
  split; [|by rewrite mr_put_files]. apply mr_put_inv. eapply view_inv; [|exact H]. by apply set_iw_view.
Qed.

End Inv.

End VerbsRef.
