(* ===== verification/VerbsApp.v ===== *)
(** * The verbs as an application uses them

    Calls, open files, copies in progress and the release works as steps of one
    state; every object has as many references as it has holders in whatever order
    they come. *)

From stdpp Require Import gmap.
From S2P Require Import Prelude Kernel Ring Ntc Mem Zip Vec Mm Buf Vbell.
From S2P Require Import Res MrCmd Qp Cq Post QpCmd QpSetup Verbs VerbsRef.
Import Ring Ntc Mem Zip Vec Mm Buf Vbell Res MrCmd Qp Cq Post QpCmd QpSetup Verbs VerbsRef.

Module VerbsApp.

(** The device with the handles that the application has, the objects that copies
    in progress hold, and how often a refused completion queue left the counter of
    completion queues lower than before. *)
Record client := mk_client {
  cl_v : verbs;
  cl_handles : list uobj;
  cl_copies : list uobj;
  cl_lost : Z }.

(** Who holds objects, beside the queue pairs. *)
Definition holders (s : client) : list uobj := cl_handles s ++ vs_files (cl_v s) ++ cl_copies s.

Section Client.
Context `{K : Kernel} (ntc : ntc_dev).

(** The reference of a copy, and its end. *)
Definition take (o : uobj) (v : verbs) : verbs := match o with OMr m => vs_mr_get m v | _ => obj_get o v end.
Definition give (o : uobj) (v : verbs) : verbs := match o with OMr m => ntrdma_mr_put m v | _ => obj_put o v end.

(** New names for new objects; an application destroys what it has a handle of, and
    makes queue pairs of completion queues that it has handles of. *)
Inductive client_step (s : client) : client → Prop :=
  | step_create_cq c bell comp u rc v' : iw_cqs (vs_iw (cl_v s)) !! c = None →
      ntrdma_create_cq_common c bell comp u (cl_v s) = Some (rc, v') →
      client_step s (mk_client v' (if rc =? 0 then OCq c :: cl_handles s else cl_handles s) (cl_copies s)
        (cl_lost s + Z.b2z (vs_cq_num v' <? vs_cq_num (cl_v s))))
  | step_destroy_cq c hs : cl_handles s ≡ₚ OCq c :: hs →
      client_step s (mk_client (ntrdma_destroy_cq c (cl_v s)) hs (cl_copies s) (cl_lost s))
  | step_alloc_pd d rc v' : vs_pds (cl_v s) !! d = None → ntrdma_alloc_pd_common d (cl_v s) = (rc, v') →
      client_step s (mk_client v' (if rc =? 0 then OPd d :: cl_handles s else cl_handles s) (cl_copies s) (cl_lost s))
  | step_dealloc_pd d hs : cl_handles s ≡ₚ OPd d :: hs →
      client_step s (mk_client (ntrdma_dealloc_pd d (cl_v s)) hs (cl_copies s) (cl_lost s))
  | step_create_qp p recv send pd cap timeout oc u rc v' : qp_objs (cl_v s) !! p = None →
      OCq recv ∈ cl_handles s → OCq send ∈ cl_handles s →
      ntrdma_create_qp ntc p recv send pd cap timeout oc u (cl_v s) = Some (rc, v') →
      client_step s (mk_client v' (if rc =? 0 then OQp p :: cl_handles s else cl_handles s) (cl_copies s) (cl_lost s))
  | step_destroy_qp p hs rqp timeout oc rqp' v' : cl_handles s ≡ₚ OQp p :: hs →
      ntrdma_destroy_qp p rqp timeout oc (cl_v s) = Some (rqp', v') →
      client_step s (mk_client v' hs (cl_copies s) (cl_lost s))
  | step_reg_mr m pd q timeout oc rc v' : mr_objs (cl_v s) !! m = None → errors_negative q →
      ntrdma_reg_user_mr ntc m pd q timeout oc (cl_v s) = Some (rc, v') →
      client_step s (mk_client v' (if rc =? 0 then OMr m :: cl_handles s else cl_handles s) (cl_copies s) (cl_lost s))
  | step_dereg_mr m hs timeout oc v' : cl_handles s ≡ₚ OMr m :: hs → ntrdma_dereg_mr m timeout oc (cl_v s) = Some v' →
      client_step s (mk_client v' hs (cl_copies s) (cl_lost s))
  | step_close o : o ∈ vs_files (cl_v s) →
      client_step s (mk_client (fput o (cl_v s)) (cl_handles s) (cl_copies s) (cl_lost s))
  | step_release p v' : p ∈ vs_release (cl_v s) → qp_release_work ntc p (cl_v s) = Some v' →
      client_step s (mk_client v' (cl_handles s) (cl_copies s) (cl_lost s))
  | step_take o : filed o ∨ (∃ m, o = OMr m) → 0 < refs (cl_v s) o →
      client_step s (mk_client (take o (cl_v s)) (cl_handles s) (o :: cl_copies s) (cl_lost s))
  | step_give o cs : cl_copies s ≡ₚ o :: cs →
      client_step s (mk_client (give o (cl_v s)) (cl_handles s) cs (cl_lost s)).

(** A device that the verbs have not used. *)
Definition client_start (s : client) : Prop :=
  let v := cl_v s in
  iw_cqs (vs_iw v) = ∅ ∧ qp_objs v = ∅ ∧ mr_objs v = ∅ ∧ vs_pds v = ∅
  ∧ (vs_cq_num v, vs_qp_num v, vs_mr_num v, vs_pd_num v) = (0, 0, 0, 0)
  ∧ (vs_pages v, vs_files v) = ([], []) ∧ (vs_umems v, vs_mr_umem v) = (0, []) ∧ vs_release v = []
  ∧ (cl_handles s, cl_copies s) = ([], []) ∧ cl_lost s = 0.

(** ** The invariant *)

Record client_inv (s : client) : Prop := {
  ci_refs : rc_inv (cl_v s) (holders s) (cl_lost s, 0, 0, 0);
  ci_once : NoDup (vs_files (cl_v s));
  ci_filed o : o ∈ vs_files (cl_v s) → filed o;
  ci_copies o : o ∈ cl_copies s → filed o ∨ ∃ m, o = OMr m }.

Lemma start_inv s : client_start s → client_inv s.
Proof.
  intros (H1 & H2 & H3 & H4 & [= N1 N2 N3 N4] & [= P1 P2] & [= U1 U2] & R & [= C1 C2] & L).
  assert (cq_refs (vs_iw (cl_v s)) = ∅) as H0 by (unfold cq_refs; by rewrite H1, fmap_empty).
  assert (uses (cl_v s) = []) as Hu by (unfold uses; by rewrite H2, fmap_empty).
  assert (∀ o, refs (cl_v s) o = 0) as Hr by (intros []; cbn; by rewrite ?H0, ?H2, ?H3, ?H4, lookup_empty).
  assert (∀ o, ¬ live (cl_v s) o) as Hl by (intros []; cbn; rewrite ?H0, ?H2, ?H3, ?H4, lookup_empty; by intros []).
  assert (∀ {A} (x : A), x ∉ []) as Hnil by (intros A x; apply not_elem_of_nil).
  constructor; rewrite ?P2, ?C2; [|constructor|by intros o ?%Hnil..].
  unfold holders. rewrite P2, C1, C2. split; rewrite ?R, ?P1, ?U1, ?U2.
  - intros o. by rewrite Hr, Hu.
  - by intros o ?%Hl.
  - by intros p ?%Hnil.
  - constructor.
  - unfold offs. by rewrite H0, H2, H3, H4, N1, N2, N3, N4, L, map_size_empty.
  - by intros o ?%Hnil.
  - done.
  - constructor.
  - by intros m ?%Hnil.
Qed.

(** A new handle, and perhaps a file. *)
Lemma made_client o rc v v' hs cs l l' : client_inv (mk_client v hs cs l) → filed o → o ∉ vs_files v →
  made o rc v v' (hs ++ vs_files v ++ cs) (l', 0, 0, 0) → client_inv (mk_client v' (if rc =? 0 then o :: hs else hs) cs l').
Proof.
  intros [I1 I2 I3 I4] Ho Hf Hm. cbn in *. unfold made in Hm. destruct (rc =? 0).
  - destruct Hm as (b & F & H). constructor; cbn; [|rewrite F; destruct b; cbn; [by constructor|done]| |done].
    + eapply inv_perm; [|exact H]. unfold holders. cbn. rewrite F. destruct b; cbn; [solve_Permutation|done].
    + intros x. rewrite F, elem_of_app. intros [Hx|Hx]; [|by apply I3]. destruct b; [by apply list_elem_of_singleton in Hx as ->|by apply not_elem_of_nil in Hx].
  - destruct Hm as [F H]. constructor; cbn; rewrite ?F; try done.
Qed.

(** The files stay. *)
Lemma client_same v v' hs hs' cs cs' l : client_inv (mk_client v hs cs l) → vs_files v' = vs_files v →
  (∀ o, o ∈ cs' → o ∈ cs ∨ filed o ∨ ∃ m, o = OMr m) →
  rc_inv v' (hs' ++ vs_files v ++ cs') (l, 0, 0, 0) → client_inv (mk_client v' hs' cs' l).
Proof.
  intros [I1 I2 I3 I4] F Hc H. cbn in *. constructor; cbn; rewrite ?F; try done.
  intros o [Ho|Ho]%Hc; [by apply I4|done].
Qed.

Lemma held_out s o hs : client_inv s → cl_handles s ≡ₚ o :: hs →
  rc_inv (cl_v s) (o :: hs ++ vs_files (cl_v s) ++ cl_copies s) (cl_lost s, 0, 0, 0).
Proof. intros I Hp. eapply inv_perm; [|apply (ci_refs _ I)]. unfold holders. by rewrite Hp. Qed.

Lemma new_file s o : client_inv s → ¬ live (cl_v s) o → o ∉ vs_files (cl_v s).
Proof.
  intros I Hl Hin. apply Hl. eapply live_refs; [done|]. rewrite (ri_refs _ _ _ (ci_refs _ I)). unfold holders.
  apply cnt_elem. rewrite !elem_of_app. tauto.
Qed.

Lemma client_step_inv s s' : client_step s s' → client_inv s → client_inv s'.
Proof.
  destruct s as [v hs cs l]. intros H I. pose proof (ci_refs _ I) as R. unfold holders in R. cbn in R.
  destruct H; cbn [cl_v cl_handles cl_copies cl_lost] in *.
  - eapply made_client; [exact I|done| |eapply create_cq_inv; [exact R|done| |done]];
      apply (new_file _ (OCq c) I); by eapply fresh_cq.
  - destruct (destroy_cq_inv _ _ _ _ (held_out _ _ _ I H)) as [H1 F]. eapply client_same; [exact I|done|by left|exact H1].
  - apply alloc_pd_inv with (held := hs ++ vs_files v ++ cs) (off := (l, 0, 0, 0)) in H0; [|done|done|].
    + destruct (rc =? 0); destruct H0 as [F H1]; (eapply client_same; [exact I|done|by left|exact H1]).
    + apply (new_file _ (OPd d) I). cbn. rewrite H. by intros [].
  - destruct (dealloc_pd_inv _ _ _ _ (held_out _ _ _ I H)) as [H1 F]. eapply client_same; [exact I|done|by left|exact H1].
  - assert (OQp p ∉ vs_files v) as Hf by (apply (new_file _ (OQp p) I); cbn; rewrite H; by intros []).
    eapply made_client; [exact I|done|done|]. eapply (create_qp_inv ntc p recv send); [exact R|done| | |done|done]; apply elem_of_app; by left.
  - eapply destroy_qp_inv in H0 as [H1 F]; [|exact (held_out _ _ _ I H)]. eapply client_same; [exact I|done|by left|exact H1].
  - eapply reg_user_mr_inv in H1 as [F H1]; [|done|exact R|done].
    destruct (rc =? 0); (eapply client_same; [exact I|done|by left|exact H1]).
  - eapply dereg_mr_inv in H0 as [H1 F]; [|exact (held_out _ _ _ I H)]. eapply client_same; [exact I|done|by left|exact H1].
  - pose proof (ci_filed _ I _ H) as Ho. pose proof (ci_once _ I) as Hn. cbn in Ho, Hn.
    assert (rc_inv v (o :: hs ++ without o (vs_files v) ++ cs) (l, 0, 0, 0)) as H1.
    { eapply inv_perm; [|exact R]. rewrite (perm_without o (vs_files v)) at 1 by done. cbn [app]. solve_Permutation. }
    apply fput_inv in H1; [|done]. pose proof (fput_files o v Ho) as F. split; cbn [cl_v cl_copies]; rewrite ?F.
    + unfold holders. cbn [cl_v cl_handles cl_copies]. by rewrite F.
    + by apply without_nodup.
    + intros x [_ Hx]%elem_without. by apply (ci_filed _ I).
    + apply (ci_copies _ I).
  - eapply release_work_inv in H0 as [H1 F]; [|exact R|done]. eapply client_same; [exact I|done|by left|exact H1].
  - assert (rc_inv (take o v) (o :: hs ++ vs_files v ++ cs) (l, 0, 0, 0) ∧ vs_files (take o v) = vs_files v) as [H1 F].
    { destruct o as [c|p|m|d]; cbn [take]; (split; [|done]); [by apply cq_get_inv|by apply qp_get_inv|by apply mr_get_inv|].
      by destruct H as [[]|[? [=]]]. }
    eapply client_same; [exact I|done|intros x [->|?]%elem_of_cons; [right; exact H|by left]|].
    eapply inv_perm; [|exact H1]. solve_Permutation.
  - assert (filed o ∨ ∃ m, o = OMr m) as Ho by (apply (ci_copies _ I); cbn; rewrite H; by left).
    assert (rc_inv v (o :: hs ++ vs_files v ++ cs0) (l, 0, 0, 0)) as H1.
    { eapply inv_perm; [|exact R]. rewrite H. solve_Permutation. }
    assert (rc_inv (give o v) (hs ++ vs_files v ++ cs0) (l, 0, 0, 0) ∧ vs_files (give o v) = vs_files v) as [H2 F].
    { destruct o as [c|p|m|d]; cbn [give].
      - split; [by apply cq_put_inv|apply (obj_put_files (OCq c))].
      - split; [by apply qp_put_inv|apply (obj_put_files (OQp p))].
      - split; [by apply mr_put_inv|apply mr_put_files].
      - by destruct Ho as [[]|[? [=]]]. }
    eapply client_same; [exact I|done| |exact H2]. intros x Hx. left. rewrite H. by right.
Qed.

Lemma client_reached_inv s0 s : client_start s0 → rtc client_step s0 s → client_inv s.
Proof. intros H0%start_inv Hr. induction Hr; eauto using client_step_inv. Qed.

Lemma live_held v held off o : rc_inv v held off → live v o → o ∈ held ++ uses v ∨ ∃ p, o = OQp p ∧ p ∈ vs_release v.
Proof.
  intros H Hl. apply (ri_live _ _ _ H) in Hl as [Hl|(p & ? & ? & _)]; [left|right; by exists p].
  apply cnt_elem. by rewrite <- (ri_refs _ _ _ H).
Qed.

(** Without holders nothing is left. *)
Lemma nothing_left v off : rc_inv v [] off → vs_release v = [] →
  qp_objs v = ∅ ∧ iw_cqs (vs_iw v) = ∅ ∧ mr_objs v = ∅ ∧ vs_pds v = ∅ ∧ vs_pages v = [] ∧ vs_umems v = 0.
Proof.
  intros H Hr. assert (∀ o, live v o → o ∈ uses v) as Hl.
  { intros o Ho. destruct (live_held _ _ _ _ H Ho) as [?|(p & _ & Hp)]; [done|]. rewrite Hr in Hp. by apply not_elem_of_nil in Hp. }
  assert (qp_objs v = ∅) as Hq.
  { apply map_empty. intros p. destruct (qp_objs v !! p) as [o|] eqn:E; [|done].
    assert (live v (OQp p)) as Ho by by eexists. apply Hl, uses_only in Ho as [c [=]]. }
  assert (∀ o, ¬ live v o) as Hn.
  { intros o Ho%Hl. unfold uses in Ho. rewrite Hq, fmap_empty in Ho. by apply not_elem_of_nil in Ho. }
  assert (∀ {A} (m : gmap nat A), (∀ i, ¬ is_Some (m !! i)) → m = ∅) as Hm.
  { intros A m Hi. apply map_empty. intros i. destruct (m !! i) eqn:E; [|done]. destruct (Hi i). by eexists. }
  split; [done|]. split; [apply Hm; intros c Hc; by apply (Hn (OCq c)), live_cq|]. split; [apply Hm; intros m Hx; by apply (Hn (OMr m))|].
  split; [apply Hm; intros d Hx; by apply (Hn (OPd d))|]. split.
  - destruct (vs_pages v) as [|o l] eqn:E; [done|]. destruct (Hn o). apply (ri_pages _ _ _ H). rewrite E. by left.
  - rewrite (ri_umems _ _ _ H). destruct (vs_mr_umem v) as [|m l] eqn:E; [done|]. destruct (Hn (OMr m)). apply (ri_umem _ _ _ H).
    rewrite E. by left.
Qed.

(** C27: every object has as many references as it has holders. Whatever calls,
    closed files, copies in progress and release works interleave, failures in every
    step of a creation included: a protection domain, completion queue, queue pair
    or memory region has one reference for each handle, open file, copy and queue
    pair that uses it; what is held is there, and what is there is held, but for
    queue pairs whose release work is scheduled, once, when nobody holds them. The
    counters of the device are the numbers of the objects - that of the completion
    queues is too low by the number of creations that were refused after the queue
    was announced to user space; the pages and the pinned memory belong to objects
    that are there; and when the last holder is gone nothing is left. *)
Theorem verbs_references_exact s0 s : client_start s0 → rtc client_step s0 s →
  let v := cl_v s in
  let hs := holders s ++ uses v in
  (∀ o, refs v o = cnt o hs)
  ∧ (∀ o, o ∈ hs → live v o)
  ∧ (∀ o, live v o → o ∈ hs ∨ ∃ p, o = OQp p ∧ p ∈ vs_release v)
  ∧ NoDup (vs_release v) ∧ (∀ p, p ∈ vs_release v → live v (OQp p) ∧ OQp p ∉ hs)
  ∧ vs_cq_num v = Z.of_nat (size (iw_cqs (vs_iw v))) - cl_lost s
  ∧ vs_qp_num v = Z.of_nat (size (qp_objs v)) ∧ vs_mr_num v = Z.of_nat (size (mr_objs v))
  ∧ vs_pd_num v = Z.of_nat (size (vs_pds v))
  ∧ (∀ o, o ∈ vs_pages v → live v o)
  ∧ vs_umems v = Z.of_nat (length (vs_mr_umem v)) ∧ (∀ m, m ∈ vs_mr_umem v → live v (OMr m))
  ∧ (holders s = [] → vs_release v = [] →
      qp_objs v = ∅ ∧ iw_cqs (vs_iw v) = ∅ ∧ mr_objs v = ∅ ∧ vs_pds v = ∅ ∧ vs_pages v = [] ∧ vs_umems v = 0).
Proof.
  intros H0 Hr v hs. pose proof (client_reached_inv _ _ H0 Hr) as I. pose proof (ci_refs _ I) as R. fold v in R.
  pose proof (ri_offs _ _ _ R) as Ho. unfold offs in Ho. injection Ho as O1 O2 O3 O4.
  assert (size (cq_refs (vs_iw v)) = size (iw_cqs (vs_iw v))) as Hs by apply map_size_fmap. rewrite Hs in O1.
  split; [apply (ri_refs _ _ _ R)|]. split.
  { intros o Hin. eapply live_refs; [done|]. rewrite (ri_refs _ _ _ R). by apply cnt_elem. }
  split; [by intros o; apply (live_held _ _ _ _ R)|]. split; [apply R|]. split.
  { intros p [Hl Hz]%(ri_rel _ _ _ R). split; [done|]. intros Hin%cnt_elem. unfold hs in Hin. rewrite <- (ri_refs _ _ _ R) in Hin. lia. }
  repeat (split; [lia|]). split; [by intros o [? _]%(ri_pages _ _ _ R)|]. split; [apply R|]. split; [apply (ri_umem _ _ _ R)|].
  intros E. unfold holders in E. fold v in E. apply (nothing_left _ (cl_lost s, 0, 0, 0)). unfold holders in R. fold v in R. by rewrite E in R.
Qed.

End Client.
(** *** A run, used by the witness *)

Definition demo_oc : cmd_outcome := mk_outcome 0 0 1 false 0.
Definition demo_user : user_io := mk_user true true true 4096 1 true 3 0 true.
Definition demo_verbs : verbs :=
  mk_verbs
    (mk_iw (mk_res_store (mk_rkvec 4 2 2 [true; true; false; false] [None; None; None; None]) ∅ [] (mk_heap 0 1 1 0) false) ∅
      (mk_qw (mk_world (mk_dev_mem
          (mk_res_store (mk_rkvec 4 2 2 [true; true; false; false] [None; None; None; None]) ∅ [] (mk_heap 0 1 1 0) false)
          (mk_rres_store (mk_rvec 4 [None; None; None; None]) ∅ [] [] (mk_heap 0 1 1 0)))
        (mk_io 0 (mk_dma_chan 0 0 0 0 0) [] 0 0) [] false)
        (mk_dev_vbell true 8 0 0 (mk_vbells (replicate 8 ntrdma_vbell_head_init) ∅ []) [] [] (mk_remote_buf 4096 1048576 0) 1)
        demo_bw 0))
    0 0 0 0 [] ∅ [] 0 [] [] 0 0 [] [].
Definition demo_client : client := mk_client demo_verbs [] [] 0.

Definition demo_cq : option (Z * verbs) := ntrdma_create_cq_common (K := kernel_good) 0 5 0 demo_user demo_verbs.
Definition demo_qp : option (Z * verbs) :=
  match demo_cq with
  | Some (_, v) => ntrdma_create_qp (K := kernel_good) demo_dev 0 0 0 0 (mk_cap 3 1 2 2 0 0) 5 demo_oc demo_user v
  | None => None
  end.
Definition or_demo (r : option (Z * verbs)) : verbs := match r with Some (_, v) => v | None => demo_verbs end.

(** The application makes a completion queue and a queue pair and destroys the
    completion queue: its file and the two directions of the queue pair hold it. *)
Lemma verbs_references_exact_witness :
  ∃ s, client_start demo_client ∧ rtc (client_step (K := kernel_good) demo_dev) demo_client s
    ∧ refs (cl_v s) (OCq 0) = 3 ∧ (∀ o, refs (cl_v s) o = cnt o (holders s ++ uses (cl_v s))).
Proof.
  set (s1 := mk_client (or_demo demo_cq) [OCq 0] [] 0).
  set (s2 := mk_client (or_demo demo_qp) [OQp 0; OCq 0] [] 0).
  set (s3 := mk_client (ntrdma_destroy_cq 0 (cl_v s2)) [OQp 0] [] 0).
  assert (client_start demo_client) as H0 by (repeat split; reflexivity).
  assert (client_step (K := kernel_good) demo_dev demo_client s1) as H1.
  { refine (step_create_cq demo_dev demo_client 0 5 0 demo_user 0 (or_demo demo_cq) _ _); [reflexivity|vm_compute; reflexivity]. }
  assert (client_step (K := kernel_good) demo_dev s1 s2) as H2.
  { refine (step_create_qp demo_dev s1 0 0 0 0 (mk_cap 3 1 2 2 0 0) 5 demo_oc demo_user 0 (or_demo demo_qp) _ _ _ _);
      [vm_compute; reflexivity|by left|by left|vm_compute; reflexivity]. }
  assert (client_step (K := kernel_good) demo_dev s2 s3) as H3.
  { refine (step_destroy_cq demo_dev s2 0 [OQp 0] _). apply Permutation_swap. }
  assert (rtc (client_step (K := kernel_good) demo_dev) demo_client s3) as Hr by eauto using rtc_l, rtc_refl.
  exists s3. split; [exact H0|]. split; [exact Hr|]. split; [vm_compute; reflexivity|].
  exact (proj1 (verbs_references_exact (K := kernel_good) demo_dev demo_client s3 H0 Hr)).
Defined.

End VerbsApp.
